(* ===== verification/_CoqProject ===== *)
-Q . S2P
Sigillum.v
Prelude.v
Paths.v
GoTime.v
Config.v
ZoneState.v
StateStore.v
StateMerge.v
FileSys.v
KeyOps.v
Rollover.v
RolloverSpec.v
RolloverRefine.v
RolloverSafety.v
RolloverTheorems.v
Order.v
Names.v
PlainNames.v
DnsZone.v
SampleZone.v
Digests.v
Ip.v
Egress.v
Nsec.v
NsecSound.v
Nsec3.v
Nsec3Sound.v
Wire.v
Authenticated.v
Anchors.v
Chain.v
Resolver.v
Results.v
Rdap.v
ParentDS.v
ZoneAuth.v
Leaf.v
Walk.v
RunBounded.v
Serial.v
KeyMaterial.v
ZoneModel.v
NsecChain.v
Signatures.v
KeyFiles.v
ParentProbe.v
Validate.v
FileSysSound.v
KeyFilesSound.v
ProbeSound.v
KeyFilesLive.v
KeyFilesRecover.v
KeyFilesMint.v
KeyTheorems.v
ZoneCheck.v
SignZone.v
SignFiles.v
ZoneModelFacts.v
SignaturesSound.v
SignSound.v
NsecChainSound.v
ServedZone.v
Nsec3ChainSound.v
NsecCheck.v
SignZoneSound.v
SignFilesSound.v
SampleSign.v
AuthenticatedSound.v
ChainSound.v
ZoneSound.v
LeafSound.v
WalkSound.v
WalkBounds.v
SampleWorld.v
SignedDenial.v
WalkTheorems.v
ChainTheorems.v
ResolverSound.v
SigningTheorems.v
ValidateTheorems.v
