(* ===== verification/Sigillum.v ===== *)
(** * Sigillum: a verification development for sigillum-dnssec

    sigillum-dnssec is two Go programs.  The _signer_ (src/signer) keeps the keys
    of DNS zones, signs the zones, and rolls keys over, with a persistent state file
    and the parent's DS records at the far end.  The _validator_ (src/validator) is
    asked for a verdict on a name: it walks the delegations from the root, asks every
    nameserver of every zone, authenticates what they answer and reports the zone
    chain with one of the statuses secure, insecure, bogus, indeterminate.  This
    development translates the decision logic of both into executable definitions
    and proves what the operator and the user rely on.

    ** How the definitions read

    A Go function is a Definition (a Fixpoint over the list it loops over) of the same
    name; a struct is a [Record] in a Module of its name, updated with
    [r <| field := v |>]; a branch, loop body or early-return group that has no name
    in Go has a lower-case one here ([merge_keys], [try_sigs]).  A method that changes
    its receiver returns the new one; the stateful parts are written in the
    state-and-error monad [St] of Prelude, in which a failed computation keeps the
    effects it had, as in Go.  Text is [string], a list of bytes: case mapping and
    white space are those of ASCII, to which the names and fields handled here are
    confined.  A [time.Time] is its nanoseconds, a [time.Duration] an int64 with Go's
    saturation, float64 the binary64 of SpecFloat (GoTime).

    What is not under src/signer or src/validator is a class: [DnsLib], [WireLib] and
    [ChainLib] (github.com/miekg/dns: names, key tags, wire format), [ValidatorEnv]
    (unpacking, signature checking, the clock and the context, which may answer
    differently at every reading), [Network] and [Transport] (one exchange with a server,
    for the validator and for the signer's probes), [DsLib] (DS records of a key), [RdapEnv]
    (RDAP client, public suffix list), [AnchorSources] (files, HTTP, JSON),
    [KeyStore] (the signer's key directory), [CryptoLib], [SignLib] and [HashLib]
    (keys, signatures and NSEC3 hashes of Go's crypto packages and the DNS library),
    [ZoneFileLib] and [ZoneTextLib] (the zone parser and the text of a record),
    [SliceSort] (sort.Slice, which leaves equal elements in any order).  What a theorem
    needs of them is a class of laws ([DnsLibLaws], [WireLaws], [KeyStoreLaws],
    [SignLaws], [HashLaws], [SliceSortLaws]), each with an instance in SampleZone,
    SampleWorld, SampleSign, SigningTheorems, KeyTheorems or RolloverTheorems on which
    the witnesses run.

    ** The signer

    - Config: the settings the logic reads and their admission checks
      (internal/config/config.go: ValidateParentDSTTL, ValidateSignatureTiming, ...).
    - ZoneState, StateStore, StateMerge: internal/state/state.go.  ZoneState is the
      record of one zone and its operations; StateStore the [State] with its base
      image, the three-way merge [mergeZone], [Save], [ReloadFromDisk]; StateMerge
      its theorems: no lost update, keys never mixed between sides, an unconfirmed
      signing never taken for a served one, reload as the pointwise merge under every
      map iteration order, save then reload.
    - KeyOps, Rollover: internal/signer/rollover.go, with the key store as an
      interface.  [RWorld] is what one call can see and change; each method of the
      rollover manager is a function on it in the order of its effects.
    - RolloverSpec, RolloverRefine, RolloverSafety, RolloverTheorems: [rstep] is the
      abstract specification (gated steps and registrar requests), [SysStep] adds
      signing, confirmation and time; every method refines [rstep]; the invariants
      (record well-formedness, cached generations, timeline of phases) hold of every
      reachable state; so a DS update or a retirement waits for the caches, a start is
      atomic, an open gate makes progress.  What an operation does at some point of a
      run is led back to the record it began with: [rsteps_phase] and [rsteps_origin]
      show that a record with the same phase start was there all along.

    ** The key directory

    - Paths: Clean, Join, Dir and Base of path/filepath, and that a name put into a
      clean directory comes out again.
    - FileSys: system calls on a map from paths to nodes, and
      internal/fsutil/fsutil.go over them.  Each call consults a fault oracle; every
      superseded state of the files is kept, so "what a crash can leave" is a set of
      states of the model.  FileSysSound has the rules that carry a predicate through
      every one of them ([always]), the atomic replacement of a file, and success
      where nothing fails ([completes]).
    - KeyFiles: keys.go and keytx.go, every operation on the key directory.
    - KeyFilesSound, KeyFilesLive: a pair that loads is followed through each
      operation.  KeyFilesRecover: with room in the directory each step succeeds, so the recorded generation can be made live
      again.  KeyFilesMint: drawing keys and recovering lost records.
    - KeyTheorems, with a disk to run on: no sequence of interrupted operations
      loses a generation it does not itself write again; after any of them the recorded key can be made live; the
      signer gets the recorded key or none; files are never torn.

    A failing call has no effect, except that a write leaves a prefix; a crash of the
    process, not of the machine, is what the states stand for, so the order of
    directory syncs is not visible.  A hard link is a copy of its node, since no file
    with two names is written in place.  The attempts at a name (10000) and at a key
    (ten) are the code's own bounds.

    ** Signing

    - Serial: SOA serial arithmetic of internal/signer/sign.go ([serialGt],
      [nextPublishedSerial], [ValidateImportSerial]).
    - ZoneModel, ZoneModelFacts: zonemodel.go, the index of one snapshot of records by
      canonical owner, its delegations and what they occlude.
    - ZoneCheck: [validateZoneRecords] of sign.go; the rules it decides are in ServedZone.
    - NsecChain, NsecChainSound, NsecCheck: the NSEC chain of a snapshot and the check
      of the chain before publication.
    - ServedZone: the zone (DnsZone) a snapshot stands for; SigningTheorems compares
      the generated chain with it through the validator's verdicts.
    - NsecChain, Nsec3ChainSound: the same for NSEC3.  The names
      hashed are the authoritative owners and the empty non-terminals; the generated
      ring of hashes is the one the check asks for, provided no two names collide.
    - KeyMaterial: key pairs in memory and in files (keys.go, rsa.go).
    - Signatures, SignaturesSound, SignSound: one RRSIG per signable RRset and signing
      key, and the self-verification.  [signed_zone_ok] states what the verification
      accepts; what is signed with keys that cover every published algorithm in both
      roles is accepted ([signed_verifies]).
    - SignZone, SignZoneSound: a pass from the bytes of the source to the zone that is
      handed on and to the record of it; its records are those the source parses to, less
      the DNSSEC records the signer makes, and what the zone says about itself (digest,
      maximum TTL, earliest expiry) is true ([publication_ok]); the verification does
      not stand in the way of complete keys ([zone_fits], [pass_times]).
      [NeedsSign] is one condition, which a pass leaves false.
    - SignFiles, SignFilesSound: the pass on disk.  [loadKeysForSigning] takes the keys
      the recorded phase names ([plan]), [writeSignedZone] replaces the output, and
      [SignAllReport] does so for every zone ([outcome_of]).  Loading keys touches no name that ends as
      an output does ([spares]), so the published file is the old one or a complete new
      one at every state of a pass.
    - SampleSign: the hash of RFC 5155, a toy signature scheme and a zone; SigningTheorems
      has the properties, and a pass over a disk.

    ** The signer's view from outside

    - ParentProbe, ProbeSound: validate/parentds.go and [queryDirect].  A delegation is
      a set of nameserver identities with their addresses; a probe asks every address
      once, in order, by numbered exchanges.  [full_view] is what a completed probe has
      seen: an authoritative answer of every identity, and a reason for every address
      without one.
    - Validate: validate/validate.go.  The four checks of a zone ask one server each;
      [validate_zone] gives the verdict over them, [ValidateAll] the report on all zones.
    - ValidateTheorems: what a probe's and a check's verdict says about the records the
      servers returned ([ds_from], [ds_selects], [verifies], [proven_good],
      [proven_bogus]); the validator as the probe of the rollover manager
      ([validator_seams], as daemon.go wires it) and what this gives for the retirement
      of old keys; a small world in which the probes and checks run.

    ** The validator

    - Names, PlainNames, DnsZone: the name handling of nsec.go and the ground truth of
      a zone (owned names, types, cuts, existence, closest encloser).
    - Nsec, NsecSound; Nsec3, Nsec3Sound (with Digests, Order): nsec.go.  An accepted
      denial is true of the zone; for NSEC, with the zone's whole chain, exactly the
      true denials are accepted.  NXDOMAIN needs a proviso for NSEC: a wildcard that is
      an empty non-terminal is overlooked, so the full reading is for zones without one
      ([no_empty_wildcard]).
    - Wire, Authenticated, AuthenticatedSound: records, and
      authenticated.go with the work budget of budget.go.  A [VerifiedRRset] names the
      signature, key, owner, signer and time it rests on.
    - SignedDenial: the composition of both, from response bytes to the zone.
    - Ip, Egress: the address policy of dns/egress.go over net and netip.
    - Anchors, Digests, GoTime: dns/anchors.go and the pinned anchors; SHA-256,
      SHA-384, base64 and RFC 3339 as the DS digests and dates use them.
    - Chain, Resolver, Results, Rdap, ParentDS, ZoneAuth, Leaf, Walk: dnssec.go,
      dns/query.go, dns/resolver.go, result.go and validator.go in the order they call
      one another; [Walk.Validate] is the entry point.
    - ChainSound, ZoneSound, LeafSound, WalkSound: the evidence behind each verdict.
      [trust_chain] is the chain of verified DS and DNSKEY RRsets from a pinned
      anchor; [leaf_evidence] the authenticated answer; the invariant of the walk puts
      them together.  WalkBounds: the walk ends and keeps to its budget.
    - WalkTheorems, ChainTheorems, ResolverSound: the properties.
    - RunBounded: the worker pool as an interleaving step relation.

    ** Bounds and fuel

    [validateWithCache] takes the nesting depth of alias validations as fuel; the code
    stops at [maxCNAMEDepth] = 10, and [total_validateWithCache] shows the fuel never
    runs out.  [chunks] cuts a message by its own length.  The hash iteration of NSEC3
    and the alias hops of an answer are the code's own counters.  The rollover methods
    have no loop but over the keys at hand.

    ** What the theorems do not say

    Signatures are not assumed unforgeable: a verified RRset is one [Verify] accepted,
    and the denial theorems name what the keys vouch for as a hypothesis.  The
    events, metrics, timings and log lines are not part of the results.  The goroutines
    of the validator write disjoint slots and are run in index order, which RunBounded
    justifies: each job runs once, whatever the interleaving.  Address lookups within
    one nameserver and the budget are sequential.

    ** Not modelled

    The command lines, daemon loop, web handlers, SSE, metrics, heartbeat, hooks,
    logging and registrar HTTP clients are input and output around this logic; TOML
    decoding and the remaining configuration checks are decoding.  GetRolloverStatus and OldDSRemovalAdvice
    render records for display.  The text of a record ([rr.String]) is the DNS
    library's, a parameter.  The probes of internal/validate take the timestamps of
    their results and the addresses of the resolver and port (resolv.conf, flags) from
    outside; the partial observation a failed probe returns beside its error, which no
    caller reads, is not kept. *)

From stdpp Require Import base.

Declare Scope sig_scope.
Delimit Scope sig_scope with sig.
