(* ===== verification/Prelude.v ===== *)
(** * Prelude: the vocabulary the component files share

    - [res]: Go's [(value, error)] results, and [St], the small state-and-error
      monad the stateful components are written in (a Go function that returns
      an error may already have changed the state it was given, so the state is
      returned in both cases);
    - [set] and [r <| f := v |>]: record update, for Go's field assignments;
    - Go's [strings] functions on byte strings (ASCII case mapping and ASCII
      white space: see the header of Sigillum.v);
    - generic lemmas on lists, and the hint databases [sig_list] and [sig_rw]. *)

From stdpp Require Import base tactics list strings gmap pretty.
From Stdlib Require Import ZArith Lia Ascii Permutation.

From S2P Require Export Sigillum.

Create Rewrite HintDb sig_list.
Create Rewrite HintDb sig_rw.

(** ** Record update *)

(** [Eta R] gives a record value rebuilt from its projections, from which the
    setter of any one projection is computed. *)
Class Eta (R : Type) := { eta : R -> R; eta_id : forall r, eta r = r }.

Class Setter {R T : Type} (p : R -> T) := { set : (T -> T) -> R -> R }.
Arguments set {R T} p {_} _ _.

Ltac solve_setter :=
  lazymatch goal with
  | |- @Setter ?R ?T ?p =>
      let f := constr:(fun (f : T -> T) (r : R) => ltac:(
        let e := eval hnf in (_ : Eta R) in
        let t := eval cbv beta iota delta [eta] in (@eta R e r) in
        let t' := eval pattern (p r) in t in
        lazymatch t' with
        | ?g _ => let u := eval cbv beta in (g (f (p r))) in exact u
        end)) in
      exact {| set := f |}
  end.
#[export] Hint Extern 0 (Setter _) => solve_setter : typeclass_instances.

Notation "r <| p := v |>" := (set p (fun _ => v) r)
  (at level 1, left associativity, p at level 1, v at level 200, format "r  <| p  :=  v |>") : sig_scope.
#[global] Open Scope sig_scope.

(** ** Results and the state monad *)

Inductive res (E A : Type) : Type :=
| Ok (a : A)
| Err (e : E).
Arguments Ok {E A} a.
Arguments Err {E A} e.

Definition is_ok {E A} (r : res E A) : bool :=
  match r with Ok _ => true | Err _ => false end.

Definition res_bind {E A B} (r : res E A) (k : A -> res E B) : res E B :=
  match r with Ok a => k a | Err e => Err e end.

(** [if cond { return err }] *)
Definition guard_err {E} (c : bool) (e : E) : res E unit :=
  if c then Err e else Ok tt.

Notation "'try' x <- r ; k" := (res_bind r (fun x => k))
  (at level 100, x name, r at level 200, k at level 200, right associativity) : sig_scope.
Notation "'check' r ; k" := (res_bind r (fun _ => k))
  (at level 100, r at level 200, k at level 200, right associativity) : sig_scope.

(** A stateful Go function: from a state to a result and a state. *)
Definition St (S E A : Type) : Type := S -> res E A * S.

Section monad.
Context {S E : Type}.
Definition ret {A} (a : A) : St S E A := fun s => (Ok a, s).
Definition fail {A} (e : E) : St S E A := fun s => (Err e, s).
Definition bind {A B} (m : St S E A) (k : A -> St S E B) : St S E B :=
  fun s => match m s with
           | (Ok a, s') => k a s'
           | (Err e, s') => (Err e, s')
           end.
Definition gets {A} (f : S -> A) : St S E A := fun s => (Ok (f s), s).
Definition modify (f : S -> S) : St S E unit := fun s => (Ok tt, f s).
(** The result of [m] as a value: what Go code does that inspects [err]. *)
Definition catch {A} (m : St S E A) : St S E (res E A) :=
  fun s => let '(r, s') := m s in (Ok r, s').
Definition lift_res {A} (r : res E A) : St S E A := fun s => (r, s).
Definition when (c : bool) (m : St S E unit) : St S E unit :=
  if c then m else ret tt.

Lemma bind_ret {A B} (a : A) (k : A -> St S E B) s : bind (ret a) k s = k a s.
Proof. reflexivity. Qed.
Lemma bind_fail {A B} e (k : A -> St S E B) s : bind (fail e) k s = (Err e, s).
Proof. reflexivity. Qed.
Lemma bind_gets {A B} (f : S -> A) (k : A -> St S E B) s :
  bind (gets f) k s = k (f s) s.
Proof. reflexivity. Qed.
Lemma bind_modify {B} f (k : unit -> St S E B) s : bind (modify f) k s = k tt (f s).
Proof. reflexivity. Qed.
Lemma bind_assoc {A B C} (m : St S E A) (k : A -> St S E B) (h : B -> St S E C) s :
  bind (bind m k) h s = bind m (fun a => bind (k a) h) s.
Proof. unfold bind. by destruct (m s) as [[a|e] s']. Qed.

(** A run of [bind] that succeeded went through both halves. *)
Lemma bind_ok {A B} (m : St S E A) (k : A -> St S E B) s b s' :
  bind m k s = (Ok b, s') -> exists a s1, m s = (Ok a, s1) /\ k a s1 = (Ok b, s').
Proof. unfold bind. destruct (m s) as [[a|e] s1]; [eauto | done]. Qed.

Lemma bind_err {A B} (m : St S E A) (k : A -> St S E B) s e s' :
  bind m k s = (Err e, s') ->
  m s = (Err e, s') \/ exists a s1, m s = (Ok a, s1) /\ k a s1 = (Err e, s').
Proof. unfold bind. destruct (m s) as [[a|e2] s1]; intros H; [right; eauto | left; by simplify_eq]. Qed.
End monad.

Notation "x <-- m ;; k" := (bind m (fun x => k))
  (at level 100, m at level 99, k at level 200, right associativity) : sig_scope.
Notation "m ;;; k" := (bind m (fun _ => k))
  (at level 100, k at level 200, right associativity) : sig_scope.

#[export] Hint Rewrite @bind_ret @bind_fail @bind_gets @bind_modify : sig_rw.

(** What a stateful function establishes from one state, for its results [Q] and
    for its errors [R]. *)
Definition wp {S E A} (m : St S E A) (Q : A -> S -> Prop) (R : E -> S -> Prop) (s : S) : Prop :=
  match m s with (Ok a, s') => Q a s' | (Err e, s') => R e s' end.

Section wp_rules.
Context {S E : Type}.
Implicit Types (s : S).
Lemma wp_ret {A} (a : A) (Q : A -> S -> Prop) (R : E -> S -> Prop) s : Q a s -> wp (ret a) Q R s.
Proof. done. Qed.
Lemma wp_fail {A} (e : E) (Q : A -> S -> Prop) (R : E -> S -> Prop) s : R e s -> wp (fail e) Q R s.
Proof. done. Qed.
Lemma wp_bind {A B} (m : St S E A) (k : A -> St S E B) Q R s :
  wp m (fun a s' => wp (k a) Q R s') R s -> wp (bind m k) Q R s.
Proof. unfold wp, bind. by destruct (m s) as [[a|e] s']. Qed.
Lemma wp_mono {A} (m : St S E A) (Q Q' : A -> S -> Prop) (R R' : E -> S -> Prop) s :
  wp m Q R s -> (forall a s', Q a s' -> Q' a s') -> (forall e s', R e s' -> R' e s') -> wp m Q' R' s.
Proof. unfold wp. destruct (m s) as [[a|e] s']; auto. Qed.
Lemma wp_when (c : bool) (m : St S E unit) (Q : unit -> S -> Prop) (R : E -> S -> Prop) s :
  (c = true -> wp m Q R s) -> (c = false -> Q tt s) -> wp (when c m) Q R s.
Proof. destruct c; cbn; auto. Qed.
(** Reading off a run. *)
Lemma wp_ok {A} (m : St S E A) Q R s a s' : wp m Q R s -> m s = (Ok a, s') -> Q a s'.
Proof. unfold wp. intros H Hm. by rewrite Hm in H. Qed.
Lemma wp_err {A} (m : St S E A) Q R s e s' : wp m Q R s -> m s = (Err e, s') -> R e s'.
Proof. unfold wp. intros H Hm. by rewrite Hm in H. Qed.
Lemma wp_run {A} (m : St S E A) (P : S -> Prop) s r s' :
  wp m (fun _ => P) (fun _ => P) s -> m s = (r, s') -> P s'.
Proof. unfold wp. intros H Hm. rewrite Hm in H. by destruct r. Qed.
End wp_rules.

(** What holds of every result a computation returns, from any state. *)
Definition ensures {S E A} (m : St S E A) (Q : A -> Prop) : Prop := forall s, wp m (fun a _ => Q a) (fun _ _ => True) s.

Section ensures_rules.
Context {S E : Type}.
Lemma ensures_ret {A} (a : A) (Q : A -> Prop) : Q a -> ensures (S := S) (E := E) (ret a) Q.
Proof. by intros ? s. Qed.
Lemma ensures_fail {A} (e : E) (Q : A -> Prop) : ensures (S := S) (fail e) Q.
Proof. by intros s. Qed.
Lemma ensures_any {A} (m : St S E A) : ensures m (fun _ => True).
Proof. intros s. unfold wp. by destruct (m s) as [[a|e] s']. Qed.
Lemma ensures_bind {A B} (m : St S E A) (k : A -> St S E B) (Q : A -> Prop) (R : B -> Prop) :
  ensures m Q -> (forall a, Q a -> ensures (k a) R) -> ensures (bind m k) R.
Proof.
  intros Hm Hk s. apply wp_bind. specialize (Hm s). unfold wp in *. destruct (m s) as [[a|e] s']; [|done]. by apply Hk.
Qed.
Lemma ensures_then {A B} (m : St S E A) (k : A -> St S E B) (R : B -> Prop) :
  (forall a, ensures (k a) R) -> ensures (bind m k) R.
Proof. intros Hk. eapply ensures_bind; [apply ensures_any|]. intros a _. apply Hk. Qed.
Lemma ensures_catch {A} (m : St S E A) (Q : A -> Prop) :
  ensures m Q -> ensures (catch m) (fun r => forall a, r = Ok a -> Q a).
Proof. intros Hm s. specialize (Hm s). unfold wp, catch in *. destruct (m s) as [[a|e] s']; [by intros ? [= <-] | done]. Qed.
Lemma ensures_mono {A} (m : St S E A) (Q R : A -> Prop) : ensures m Q -> (forall a, Q a -> R a) -> ensures m R.
Proof. intros Hm HQ s. eapply wp_mono; [apply Hm | cbn; auto | done]. Qed.
Lemma ensures_lift_res {A} (r : res E A) (Q : A -> Prop) : (forall a, r = Ok a -> Q a) -> ensures (S := S) (lift_res r) Q.
Proof. intros Hr s. unfold wp, lift_res. destruct r; [by apply Hr | done]. Qed.
(** Reading off a run. *)
Lemma ensures_run {A} (m : St S E A) (Q : A -> Prop) s a s' : ensures m Q -> m s = (Ok a, s') -> Q a.
Proof. intros Hm Hrun. specialize (Hm s). unfold wp in Hm. by rewrite Hrun in Hm. Qed.
End ensures_rules.

Create HintDb ensures.
#[export] Hint Resolve ensures_fail ensures_any : ensures.

(** Follows the control flow of a computation whose intermediate results do not
    matter; stops at what it returns. *)
Ltac ensures_step :=
  cbn beta iota zeta;
  lazymatch goal with
  | |- ensures (bind _ _) _ => apply ensures_then; intros ?
  | |- ensures (ret _) _ => apply ensures_ret
  | |- ensures (fail _) _ => apply ensures_fail
  | |- ensures (match ?x with _ => _ end) _ => destruct x
  | |- ensures (if ?x then _ else _) _ => destruct x
  end.

(** ** Go's [strings] functions on byte strings *)

(** [strings.HasPrefix s p] *)
Definition HasPrefix (s p : string) : bool := String.prefix p s.

(** [unicode.IsSpace] restricted to ASCII *)
Definition is_space_byte (c : ascii) : bool :=
  let n := N_of_ascii c in ((9 <=? n) && (n <=? 13) || (n =? 32))%N.

Fixpoint trim_left (s : string) : string :=
  match s with
  | String c s' => if is_space_byte c then trim_left s' else s
  | EmptyString => EmptyString
  end.

Fixpoint trim_right (s : string) : string :=
  match s with
  | String c s' =>
      match trim_right s' with
      | EmptyString => if is_space_byte c then EmptyString else String c EmptyString
      | t => String c t
      end
  | EmptyString => EmptyString
  end.

(** [strings.TrimSpace] *)
Definition TrimSpace (s : string) : string := trim_right (trim_left s).

Definition lower_byte (c : ascii) : ascii :=
  let n := N_of_ascii c in
  if ((65 <=? n) && (n <=? 90))%N then ascii_of_N (n + 32) else c.
Definition upper_byte (c : ascii) : ascii :=
  let n := N_of_ascii c in
  if ((97 <=? n) && (n <=? 122))%N then ascii_of_N (n - 32) else c.

Fixpoint map_string (f : ascii -> ascii) (s : string) : string :=
  match s with
  | String c s' => String (f c) (map_string f s')
  | EmptyString => EmptyString
  end.

(** [strings.ToLower], [strings.ToUpper] on ASCII *)
Definition ToLower : string -> string := map_string lower_byte.
Definition ToUpper : string -> string := map_string upper_byte.

(** [strings.EqualFold] on ASCII *)
Definition EqualFold (a b : string) : bool := String.eqb (ToLower a) (ToLower b).

(** [strings.HasSuffix s p] and [strings.TrimSuffix s p] *)
Definition str_rev (s : string) : string :=
  String.string_of_list_ascii (rev (String.list_ascii_of_string s)).
Definition HasSuffix (s p : string) : bool := HasPrefix (str_rev s) (str_rev p).
Definition str_take (n : nat) (s : string) : string := String.substring 0 n s.
Definition TrimSuffix (s p : string) : string :=
  if HasSuffix s p then str_take (String.length s - String.length p) s else s.

(** [strings.Split s sep] for a one-byte separator: never empty. *)
Fixpoint Split (sep : ascii) (s : string) : list string :=
  match s with
  | EmptyString => [""]
  | String c s' =>
      match Split sep s' with
      | [] => []
      | l :: ls => if Ascii.eqb c sep then "" :: l :: ls else String c l :: ls
      end
  end.

(** [strings.Join l sep] *)
Fixpoint Join (l : list string) (sep : string) : string :=
  match l with
  | [] => ""
  | [x] => x
  | x :: l' => x +:+ sep +:+ Join l' sep
  end.

(** [strings.Contains s p] *)
Fixpoint Contains (s p : string) : bool :=
  HasPrefix s p || match s with EmptyString => false | String _ s' => Contains s' p end.

(** [strings.ContainsAny s chars] and a test of every byte *)
Definition ContainsAny (s chars : string) : bool :=
  existsb (fun c => existsb (Ascii.eqb c) (String.list_ascii_of_string chars)) (String.list_ascii_of_string s).
Definition forall_bytes (f : ascii -> bool) (s : string) : bool :=
  forallb f (String.list_ascii_of_string s).

Definition byte_in_range (lo hi c : ascii) : bool :=
  ((N_of_ascii lo <=? N_of_ascii c) && (N_of_ascii c <=? N_of_ascii hi))%N.

(** [fmt.Sprintf] with the verbs [%s], [%v], [%d] and [%q], each given its
    argument already rendered. *)
Fixpoint Sprintf (format : string) (args : list string) : string :=
  match format with
  | String c (String _ rest as format') =>
      if Ascii.eqb c "%" then match args with
                              | a :: args' => a +:+ Sprintf rest args'
                              | [] => format
                              end
      else String c (Sprintf format' args)
  | _ => format
  end.
#[global] Arguments Sprintf : simpl never.

(** [%v] of a string slice *)
Definition show_strings (l : list string) : string := "[" +:+ Join l " " +:+ "]".

(** [in(list, s)], [containsString]: linear membership *)
Definition str_in (l : list string) (s : string) : bool :=
  existsb (fun x => String.eqb x s) l.

Lemma str_in_spec l s : str_in l s = true <-> s ∈ l.
Proof.
  unfold str_in. rewrite existsb_exists. split.
  - intros (x & Hin & Heq). apply String.eqb_eq in Heq as ->. by apply list_elem_of_In.
  - intros H. exists s. rewrite <- list_elem_of_In. split; [done | apply String.eqb_refl].
Qed.

Lemma str_in_false l s : str_in l s = false <-> s ∉ l.
Proof. rewrite <- str_in_spec. by destruct (str_in l s). Qed.

Lemma HasPrefix_app (p s : string) : HasPrefix (p +:+ s) p = true.
Proof.
  unfold HasPrefix. induction p as [|c p IH]; [by destruct s|].
  change (String c p +:+ s) with (String c (p +:+ s)). cbn [String.prefix].
  destruct (ascii_dec c c); [exact IH | done].
Qed.

Lemma string_length_app (a b : string) : String.length (a +:+ b) = String.length a + String.length b.
Proof. induction a as [|c a IH]; [done|]. change (S (String.length (a +:+ b)) = S (String.length a + String.length b)). by rewrite IH. Qed.
Lemma string_app_assoc (a b c : string) : (a +:+ b) +:+ c = a +:+ b +:+ c.
Proof. induction a as [|x a IH]; [done|]. change (String x ((a +:+ b) +:+ c) = String x (a +:+ b +:+ c)). by rewrite IH. Qed.

(** *** Splitting *)

(** The byte [sep] does not occur. *)
Definition free_of (sep : ascii) (s : string) : Prop := Forall (fun c => c <> sep) (String.list_ascii_of_string s).
#[export] Instance free_of_dec sep s : Decision (free_of sep s).
Proof. apply _. Defined.

Lemma free_of_app sep a b : free_of sep (a +:+ b) <-> free_of sep a /\ free_of sep b.
Proof.
  unfold free_of. rewrite <- Forall_app. enough (String.list_ascii_of_string (a +:+ b) = String.list_ascii_of_string a ++ String.list_ascii_of_string b) as -> by done.
  induction a as [|c a IH]; [done|]. change (c :: String.list_ascii_of_string (a +:+ b) = c :: String.list_ascii_of_string a ++ String.list_ascii_of_string b).
  by rewrite IH.
Qed.

Lemma Split_nonempty sep s : Split sep s <> [].
Proof. induction s as [|c s IH]; cbn; [done|]. destruct (Split sep s); [done|]. by destruct (Ascii.eqb c sep). Qed.

Lemma Split_free sep s : free_of sep s -> Split sep s = [s].
Proof.
  induction s as [|c s IH]; [done|]. intros Hf. apply Forall_cons in Hf as [Hc Hs]. cbn [Split]. rewrite IH by done.
  apply Ascii.eqb_neq in Hc. by rewrite Hc.
Qed.
Lemma Split_pieces sep s : Forall (free_of sep) (Split sep s).
Proof.
  induction s as [|c s IH]; [by repeat constructor|]. cbn [Split]. destruct (Split sep s) as [|l ls] eqn:E; [constructor|].
  apply Forall_cons in IH as [Hl Hls]. destruct (Ascii.eqb c sep) eqn:Ec.
  - repeat constructor; done.
  - constructor; [|done]. constructor; [|done]. by apply Ascii.eqb_neq.
Qed.
Lemma Split_sep sep a b : Split sep (a +:+ String sep b) = Split sep a ++ Split sep b.
Proof.
  induction a as [|c a IH].
  - change ("" +:+ String sep b) with (String sep b). cbn [Split]. pose proof (Split_nonempty sep b).
    destruct (Split sep b); [done|]. by rewrite Ascii.eqb_refl.
  - change (String c a +:+ String sep b) with (String c (a +:+ String sep b)). cbn [Split]. rewrite IH.
    pose proof (Split_nonempty sep a). destruct (Split sep a) as [|l ls]; [done|]. cbn [app]. by destruct (Ascii.eqb c sep).
Qed.
Lemma Split_Join_free sep ls : Forall (free_of sep) ls -> ls <> [] -> Split sep (Join ls (String sep "")) = ls.
Proof.
  induction 1 as [|l ls Hl Hls IH]; [done|]. intros _. destruct ls as [|m ls]; [by apply Split_free|].
  change (Join (l :: m :: ls) (String sep "")) with (l +:+ String sep (Join (m :: ls) (String sep ""))). rewrite Split_sep, IH, Split_free by done. done.
Qed.

(** *** Decimal numbers *)

Definition decimal_byte (c : ascii) : Prop := c = "-"%char \/ exists x, c = pretty_N_char x.
Lemma pretty_N_go_decimal x s :
  Forall decimal_byte (String.list_ascii_of_string s) -> Forall decimal_byte (String.list_ascii_of_string (pretty_N_go x s)).
Proof.
  revert s. induction (N.lt_wf_0 x) as [x _ IH]; intros s Hs. destruct (decide (0 < x)%N) as [Hx|Hx].
  - rewrite pretty_N_go_step by done. apply IH; [by apply N.div_lt|]. constructor; [|done]. right. by eexists.
  - assert (x = 0)%N as -> by lia. by rewrite pretty_N_go_0.
Qed.
Lemma pretty_decimal (z : Z) : Forall decimal_byte (String.list_ascii_of_string (pretty z)).
Proof.
  assert (forall x : N, Forall decimal_byte (String.list_ascii_of_string (pretty x))) as HN.
  { intros x. unfold pretty, pretty_N. case_decide; [|by apply pretty_N_go_decimal]. constructor; [|done]. right. by exists 0%N. }
  unfold pretty, pretty_Z. destruct z; [constructor; [right; by exists 0%N | done] | apply HN |].
  constructor; [by left | apply HN].
Qed.
Lemma pretty_free sep (z : Z) : sep <> "-"%char -> (forall x, pretty_N_char x <> sep) -> free_of sep (pretty z).
Proof. intros H1 H2. eapply Forall_impl; [apply pretty_decimal|]. intros c [->|[x ->]]; auto. Qed.

(** ** Lists *)

Lemma filter_In_bool {A} (f : A -> bool) (l : list A) x :
  x ∈ List.filter f l <-> x ∈ l /\ f x = true.
Proof. rewrite !list_elem_of_In. apply filter_In. Qed.
#[export] Hint Rewrite @filter_In_bool : sig_list.

Lemma filter_all_id {A} (f : A -> bool) (l : list A) :
  (forall x, x ∈ l -> f x = true) -> List.filter f l = l.
Proof.
  induction l as [|y l IH]; intros H; [done|]. cbn.
  rewrite (H y) by set_solver. f_equal. apply IH. set_solver.
Qed.

Lemma find_some_bool {A} (f : A -> bool) l x :
  List.find f l = Some x -> x ∈ l /\ f x = true.
Proof. intros H. rewrite list_elem_of_In. by apply find_some. Qed.

Lemma find_none_bool {A} (f : A -> bool) l x :
  List.find f l = None -> x ∈ l -> f x = false.
Proof. intros H Hin. rewrite list_elem_of_In in Hin. by eapply find_none. Qed.

(** ** Loops over a map

    A Go [for k, v := range m] whose body touches only what belongs to [k] has,
    whatever the iteration order, the effect of its body on each key of [m]. *)
Section map_loop.
Context `{Countable K} {A S X : Type}.
Context (body : K -> A -> S -> S) (view : K -> S -> X) (step : K -> A -> X -> X).

Lemma map_fold_pointwise (m : gmap K A) (s : S) (k : K) :
  (forall i a s, i <> k -> view k (body i a s) = view k s) ->
  (forall a s, view k (body k a s) = step k a (view k s)) ->
  view k (map_fold body s m) =
    match m !! k with Some a => step k a (view k s) | None => view k s end.
Proof.
  intros Hother Hsame.
  refine (map_fold_weak_ind (fun s' m => view k s' =
    match m !! k with Some a => step k a (view k s) | None => view k s end) body s _ _ m).
  - by rewrite lookup_empty.
  - intros i a m' s' Hi IH. destruct (decide (i = k)) as [->|Hne].
    + by rewrite Hsame, IH, Hi, lookup_insert_eq.
    + by rewrite Hother, lookup_insert_ne, IH.
Qed.
End map_loop.

(** ** Automation *)

(** Case analysis on the boolean and option scrutinees of a hypothesis, keeping
    the equations. *)
Ltac destr_match_in H :=
  match type of H with
  | context [match ?x with _ => _ end] =>
      lazymatch x with
      | context [match _ with _ => _ end] => fail
      | _ => destruct x eqn:?
      end
  end.
Ltac destr_match :=
  match goal with
  | |- context [match ?x with _ => _ end] =>
      lazymatch x with
      | context [match _ with _ => _ end] => fail
      | _ => destruct x eqn:?
      end
  end.

(** Turn boolean connectives and comparisons of the hypotheses into
    propositions. *)
Ltac bool_to_prop :=
  repeat match goal with
  | H : (_ && _)%bool = true |- _ => apply andb_true_iff in H as [? ?]
  | H : (_ || _)%bool = false |- _ => apply orb_false_iff in H as [? ?]
  | H : negb _ = true |- _ => apply negb_true_iff in H
  | H : negb _ = false |- _ => apply negb_false_iff in H
  | H : (_ <=? _)%Z = true |- _ => apply Z.leb_le in H
  | H : (_ <=? _)%Z = false |- _ => apply Z.leb_gt in H
  | H : (_ <? _)%Z = true |- _ => apply Z.ltb_lt in H
  | H : (_ <? _)%Z = false |- _ => apply Z.ltb_ge in H
  | H : (_ =? _)%Z = true |- _ => apply Z.eqb_eq in H
  | H : (_ =? _)%Z = false |- _ => apply Z.eqb_neq in H
  | H : String.eqb _ _ = true |- _ => apply String.eqb_eq in H
  | H : String.eqb _ _ = false |- _ => apply String.eqb_neq in H
  end.
