(* ===== verification/Paths.v ===== *)
(** * Paths: file names on Unix ([path/filepath])

    [Clean], [JoinPath], [Dir] and [Base] as Go's standard library computes them,
    and what the file names of the signer rely on: cleaning keeps the end of a path
    that cannot be an empty or a dot component. *)

From stdpp Require Import base list strings.
From Stdlib Require Import ZArith Lia Ascii.
From S2P Require Import Prelude.
Local Open Scope nat_scope.

Definition clean_step (rooted : bool) (acc : list string) (c : string) : list string :=
  if String.eqb c "" || String.eqb c "." then acc
  else if String.eqb c ".." then
    match acc with
    | [] => if rooted then [] else [".."]
    | d :: rest => if String.eqb d ".." then ".." :: acc else rest
    end
  else c :: acc.
Definition Clean (path : string) : string :=
  if String.eqb path "" then "."
  else
    let rooted := HasPrefix path "/" in
    let body := Join (rev (fold_left (clean_step rooted) (Split "/" path) [])) "/" in
    if rooted then "/" +:+ body else if String.eqb body "" then "." else body.

(** [filepath.Join(dir, name)] *)
Definition JoinPath (dir name : string) : string :=
  if String.eqb dir "" then if String.eqb name "" then "" else Clean name
  else if String.eqb name "" then Clean dir else Clean (dir +:+ "/" +:+ name).

(** The part up to and including the last slash, and the part behind it. *)
Fixpoint split_last (path : string) : string * string :=
  match path with
  | EmptyString => ("", "")
  | String c rest =>
      let '(dir, base) := split_last rest in
      if Ascii.eqb c "/" then (String c dir, base)
      else match dir with EmptyString => ("", String c base) | _ => (String c dir, base) end
  end.

(** [filepath.Dir], [filepath.Base] *)
Definition Dir (path : string) : string := Clean (split_last path).1.
Fixpoint trim_slashes (path : string) : string :=
  match path with
  | EmptyString => ""
  | String c rest =>
      match trim_slashes rest with
      | EmptyString => if Ascii.eqb c "/" then "" else String c ""
      | t => String c t
      end
  end.
Definition Base (path : string) : string :=
  if String.eqb path "" then "."
  else
    let base := (split_last (trim_slashes path)).2 in
    if String.eqb base "" then "/" else base.

(** ** The end of a cleaned path *)

Abbreviation no_slash := (free_of "/").

(** An ending that keeps its component from being [""], ["."] or [".."]. *)
Definition proper_end (b : string) : Prop := no_slash b /\ (3 <= String.length b).

Lemma Split_app_no_slash a b :
  no_slash b -> exists init l, Split "/" a = init ++ [l] /\ Split "/" (a +:+ b) = init ++ [l +:+ b].
Proof.
  intros Hb. pose proof (Split_free "/" b Hb) as Hs.
  induction a as [|c a (init & l & IHa & IHb)].
  { exists [], "". split; [done | exact Hs]. }
  change (String c a +:+ b) with (String c (a +:+ b)). cbn [Split]. rewrite IHa, IHb.
  destruct (Ascii.eqb c "/").
  - exists ("" :: init), l. by destruct init.
  - destruct init as [|i init]; [exists [], (String c l) | exists (String c i :: init), l]; done.
Qed.

Lemma clean_step_proper rooted acc l b :
  proper_end b -> clean_step rooted acc (l +:+ b) = (l +:+ b) :: acc.
Proof.
  intros [_ Hlen]. unfold clean_step.
  assert (forall c, String.length c < 3 -> String.eqb (l +:+ b) c = false) as Hne.
  { intros c Hc. apply String.eqb_neq. intros E. apply (f_equal String.length) in E.
    rewrite string_length_app in E. lia. }
  by rewrite !Hne by (cbn; lia).
Qed.

Lemma Join_snoc l x sep : exists q, Join (l ++ [x]) sep = q +:+ x.
Proof.
  induction l as [|y l [q IH]]; [by exists ""|]. exists (y +:+ sep +:+ q).
  cbn [app Join]. destruct (l ++ [x]) as [|z t] eqn:E; [by destruct l|].
  rewrite IH. by rewrite !string_app_assoc.
Qed.

(** Cleaning keeps a proper end. *)
Lemma Clean_end p b : proper_end b -> exists q, Clean (p +:+ b) = q +:+ b.
Proof.
  intros Hb. unfold Clean. pose proof Hb as [Hs Hlen].
  destruct (String.eqb_spec (p +:+ b) "") as [E|_].
  { apply (f_equal String.length) in E. rewrite string_length_app in E. cbn in E. lia. }
  destruct (Split_app_no_slash p b Hs) as (init & l & _ & ->).
  rewrite fold_left_app. cbn [fold_left]. rewrite clean_step_proper by done. cbn [rev].
  set (rooted := HasPrefix _ _).
  destruct (Join_snoc (rev (fold_left (clean_step rooted) init [])) (l +:+ b) "/") as [q Hq]. rewrite Hq.
  destruct rooted.
  - exists ("/" +:+ q +:+ l). by rewrite !string_app_assoc.
  - destruct (String.eqb_spec (q +:+ l +:+ b) "") as [E|_].
    { apply (f_equal String.length) in E. rewrite !string_length_app in E. cbn in E. lia. }
    exists (q +:+ l). by rewrite !string_app_assoc.
Qed.

Lemma JoinPath_end dir name b : proper_end b -> exists q, JoinPath dir (name +:+ b) = q +:+ b.
Proof.
  intros Hb. unfold JoinPath.
  destruct (String.eqb_spec (name +:+ b) "") as [E|_].
  { destruct Hb as [_ Hb]. apply (f_equal String.length) in E. rewrite string_length_app in E. cbn in E. lia. }
  destruct (String.eqb dir ""); [by apply Clean_end|].
  destruct (Clean_end (dir +:+ "/" +:+ name) b Hb) as [q Hq]. exists q. rewrite <- Hq.
  by rewrite !string_app_assoc.
Qed.

(** ** Names that differ in their last bytes *)

Lemma app_inj_length (a b a' b' : string) :
  String.length b = String.length b' -> a +:+ b = a' +:+ b' -> a = a' /\ b = b'.
Proof.
  revert a'. induction a as [|c a IH]; intros a' Hlen E; destruct a' as [|c' a'].
  - done.
  - change (b = String c' (a' +:+ b')) in E. subst b. cbn in Hlen. rewrite string_length_app in Hlen. lia.
  - change (String c (a +:+ b) = b') in E. subst b'. cbn in Hlen. rewrite string_length_app in Hlen. lia.
  - change (String c (a +:+ b) = String c' (a' +:+ b')) in E. injection E as -> E.
    by destruct (IH a' Hlen E) as [-> ->].
Qed.

(** ** Cleaned paths are stable *)

(** A cleaned path's components, the last first. *)
Fixpoint normal (rooted : bool) (acc : list string) : Prop :=
  match acc with
  | [] => True
  | c :: rest =>
      no_slash c /\ c <> "" /\ c <> "." /\ (c = ".." -> rooted = false /\ (rest = [] \/ exists t, rest = ".." :: t)) /\ normal rooted rest
  end.

Lemma clean_step_normal rooted acc c : no_slash c -> normal rooted acc -> normal rooted (clean_step rooted acc c).
Proof.
  intros Hc Hn. unfold clean_step. destruct (String.eqb_spec c "") as [->|H1]; [done|].
  destruct (String.eqb_spec c ".") as [->|H2]; [done|]. cbn [orb]. destruct (String.eqb_spec c "..") as [->|H3].
  - destruct acc as [|d rest].
    + destruct rooted; [done|]. by cbn; split_and!; auto.
    + destruct (String.eqb_spec d "..") as [->|Hd]; [|by destruct Hn as (_ & _ & _ & _ & ?)].
      pose proof Hn as (_ & _ & _ & Hdd & _). destruct (Hdd eq_refl) as [-> _]. 
      split; [done|]. split; [done|]. split; [done|]. split; [|exact Hn]. intros _. split; [done|]. right. by exists rest.
  - cbn [normal]. by split_and!.
Qed.
Lemma clean_fold_normal rooted l acc : Forall no_slash l -> normal rooted acc -> normal rooted (fold_left (clean_step rooted) l acc).
Proof. revert acc. induction l as [|c l IH]; intros acc Hl Hn; [done|]. apply Forall_cons in Hl as [? ?]. apply IH; [done|]. by apply clean_step_normal. Qed.

Lemma clean_fold_rev rooted acc : normal rooted acc -> fold_left (clean_step rooted) (rev acc) [] = acc.
Proof.
  induction acc as [|c acc IH]; intros Hn; [done|]. destruct Hn as (_ & H1 & H2 & H3 & Hn). cbn [rev].
  rewrite fold_left_app, IH by done. cbn [fold_left]. unfold clean_step.
  apply String.eqb_neq in H1, H2. rewrite H1, H2. cbn [orb]. destruct (String.eqb_spec c "..") as [->|_]; [|done].
  destruct (H3 eq_refl) as [-> [->|[t ->]]]; done.
Qed.

(** The components behind a path: their fold, and the cleaned path they give. *)
Definition components (x : string) : list string := fold_left (clean_step (HasPrefix x "/")) (Split "/" x) [].
Definition render (rooted : bool) (acc : list string) : string :=
  let body := Join (rev acc) "/" in
  if rooted then "/" +:+ body else if String.eqb body "" then "." else body.

Lemma Clean_render x : x <> "" -> Clean x = render (HasPrefix x "/") (components x).
Proof. intros Hx. unfold Clean, render. by apply String.eqb_neq in Hx as ->. Qed.
Lemma components_normal x : normal (HasPrefix x "/") (components x).
Proof. apply clean_fold_normal; [apply Split_pieces | done]. Qed.

Lemma rev_last_free rooted acc : normal rooted acc -> Forall no_slash (rev acc).
Proof. intros Hn. apply Forall_rev. induction acc as [|c acc IH]; [done|]. destruct Hn as (? & _ & _ & _ & ?). auto. Qed.

Lemma Join_normal_nonempty rooted acc : normal rooted acc -> acc <> [] -> Join (rev acc) "/" <> "".
Proof.
  destruct acc as [|c acc]; [done|]. intros (_ & Hc & _) _. cbn [rev]. destruct (Join_snoc (rev acc) c "/") as [q ->].
  by destruct q.
Qed.

Lemma HasPrefix_byte (a b : ascii) t : HasPrefix (String b t) (String a "") = bool_decide (a = b).
Proof. unfold HasPrefix. cbn [String.prefix]. destruct (ascii_dec a b); [by rewrite bool_decide_true; [destruct t|] | by rewrite bool_decide_false]. Qed.

(** The first byte of a cleaned relative path is no slash. *)
Lemma Join_normal_relative rooted acc : normal rooted acc -> acc <> [] -> HasPrefix (Join (rev acc) "/") "/" = false.
Proof.
  intros Hn Ha. pose proof (rev_last_free _ _ Hn) as Hf.
  assert (forall c, c ∈ acc -> c <> "") as Hne.
  { clear Ha Hf. induction acc as [|x acc IH]; intros c Hc; [by apply not_elem_of_nil in Hc|].
    destruct Hn as (_ & ? & _ & _ & Hn). apply elem_of_cons in Hc as [->|Hc]; [done|]. by apply IH. }
  destruct (rev acc) as [|c l] eqn:E; [apply (f_equal (@rev _)) in E; rewrite rev_involutive in E; done|].
  assert (c ∈ acc) as Hc by (rewrite list_elem_of_In, in_rev, E; by left).
  apply Forall_cons in Hf as [Hf _]. specialize (Hne c Hc). destruct c as [|b c]; [done|].
  apply Forall_cons in Hf as [Hb _]. 
  assert (exists t, Join (String b c :: l) "/" = String b t) as [t ->] by (destruct l; by eexists).
  rewrite HasPrefix_byte. by apply bool_decide_false.
Qed.

(** Cleaning a cleaned path with one more component goes on where it ended. *)
Lemma render_components rooted acc s : normal rooted acc -> no_slash s ->
  HasPrefix (render rooted acc +:+ "/" +:+ s) "/" = rooted /\
  components (render rooted acc +:+ "/" +:+ s) = clean_step rooted acc s.
Proof.
  intros Hn Hs. pose proof (rev_last_free _ _ Hn) as Hf.
  enough (HasPrefix (render rooted acc +:+ "/" +:+ s) "/" = rooted /\
    fold_left (clean_step rooted) (Split "/" (render rooted acc +:+ "/" +:+ s)) [] = clean_step rooted acc s) as [E1 E2].
  { split; [exact E1|]. unfold components. rewrite E1. exact E2. }
  assert (forall a, Split "/" (a +:+ "/" +:+ s) = Split "/" a ++ [s]) as Hsplit.
  { intros a. change ("/" +:+ s) with (String "/" s). by rewrite Split_sep, (Split_free _ s). }
  unfold render. rewrite Hsplit, fold_left_app. destruct (decide (acc = [])) as [->|Ha].
  { destruct rooted; split; done. }
  pose proof (Join_normal_nonempty _ _ Hn Ha) as Hj. apply String.eqb_neq in Hj.
  assert (rev acc <> []) as Hr by (destruct acc; [done|]; cbn; by destruct (rev acc)).
  destruct rooted; rewrite ?Hj.
  - split; [rewrite string_app_assoc; apply HasPrefix_app|]. change ("/" +:+ Join (rev acc) "/") with ("" +:+ String "/" (Join (rev acc) "/")).
    rewrite Split_sep, Split_Join_free by done. cbn [Split app fold_left]. by rewrite clean_fold_rev.
  - split; [|by rewrite Split_Join_free, clean_fold_rev].
    pose proof (Join_normal_relative _ _ Hn Ha) as Hrel. 
    apply String.eqb_neq in Hj. destruct (Join (rev acc) "/") as [|b t]; [done|].
    change (String b t +:+ "/" +:+ s) with (String b (t +:+ "/" +:+ s)). by rewrite HasPrefix_byte in *.
Qed.

(** A cleaned path that names something. *)
Definition clean_path (K : string) : Prop := K <> "." /\ K <> "/" /\ exists x, K = Clean x.

Lemma render_cons rooted acc c : render rooted acc <> "." -> render rooted acc <> "/" -> normal rooted acc ->
  c <> "" -> render rooted (c :: acc) = render rooted acc +:+ "/" +:+ c.
Proof.
  unfold render. intros H1 H2 Hn Hc. destruct (decide (acc = [])) as [->|Ha]; [by destruct rooted|].
  pose proof (Join_normal_nonempty _ _ Hn Ha) as Hj. cbn [rev].
  assert (Join (rev acc ++ [c]) "/" = Join (rev acc) "/" +:+ "/" +:+ c) as E.
  { assert (rev acc <> []) as Hr by (destruct acc; [done|]; cbn; by destruct (rev acc)).
    clear -Hr. induction (rev acc) as [|x l IH]; [done|]. destruct l as [|y l]; [done|].
    cbn [app]. change (Join (x :: y :: l ++ [c]) "/") with (x +:+ "/" +:+ Join ((y :: l) ++ [c]) "/").
    rewrite IH by done. change (Join (x :: y :: l) "/") with (x +:+ "/" +:+ Join (y :: l) "/").
    by rewrite !string_app_assoc. }
  rewrite E. apply String.eqb_neq in Hj as Hj'. rewrite Hj'. destruct rooted; [by rewrite !string_app_assoc|].
  by destruct (Join (rev acc) "/").
Qed.

(** A proper name in a cleaned directory, and that directory again. *)
Lemma Clean_child K name : clean_path K -> proper_end name -> Clean (K +:+ "/" +:+ name) = K +:+ "/" +:+ name.
Proof.
  intros (H1 & H2 & x & E) [Hs Hlen].
  assert (x <> "") as Hx by (intros ->; by subst K).
  rewrite (Clean_render x Hx) in E. pose proof (components_normal x) as Hn.
  destruct (render_components _ _ _ Hn Hs) as [P1 P2]. rewrite <- E in P1, P2.
  assert (K +:+ "/" +:+ name <> "") as Hk by by destruct K.
  rewrite (Clean_render _ Hk), P1, P2. pose proof (clean_step_proper (HasPrefix x "/") (components x) "" name (conj Hs Hlen)) as Hp.
  change ("" +:+ name) with name in Hp. rewrite Hp, render_cons, <- E; [done|congruence..|done|].
  intros ->. cbn in Hlen. lia.
Qed.
Lemma Clean_dir K : clean_path K -> Clean (K +:+ "/") = K.
Proof.
  intros (H1 & H2 & x & E). assert (x <> "") as Hx by (intros ->; by subst K).
  rewrite (Clean_render x Hx) in E. pose proof (components_normal x) as Hn.
  assert (no_slash "") as Hs by constructor.
  destruct (render_components _ _ _ Hn Hs) as [P1 P2]. rewrite <- E in P1, P2.
  assert (K +:+ "/" <> "") as Hk by by destruct K.
  change (K +:+ "/" +:+ "") with (K +:+ "/") in P1, P2. by rewrite (Clean_render _ Hk), P1, P2.
Qed.

Lemma split_last_slash a b : no_slash b -> split_last (a +:+ "/" +:+ b) = (a +:+ "/", b).
Proof.
  intros Hb. induction a as [|c a IH].
  - change (split_last (String "/" b) = ("/", b)). cbn. assert (split_last b = ("", b)) as ->; [|done].
    induction b as [|c b IH]; [done|]. apply Forall_cons in Hb as [Hc Hb]. cbn. rewrite IH by done. by apply Ascii.eqb_neq in Hc as ->.
  - change (split_last (String c (a +:+ "/" +:+ b)) = (String c (a +:+ "/"), b)). cbn. rewrite IH.
    destruct (Ascii.eqb c "/"); [done|]. by destruct a.
Qed.
Lemma Dir_child K name : clean_path K -> no_slash name -> Dir (K +:+ "/" +:+ name) = K.
Proof. intros HK Hn. unfold Dir. rewrite split_last_slash by done. by apply Clean_dir. Qed.

Lemma trim_slashes_end a b : no_slash b -> b <> "" -> trim_slashes (a +:+ b) = a +:+ b.
Proof.
  intros Hb Hne. assert (trim_slashes b = b) as Hid.
  { clear a. induction b as [|c b IH]; [done|]. apply Forall_cons in Hb as [Hc Hb]. cbn. apply Ascii.eqb_neq in Hc. rewrite Hc.
    destruct b as [|c' b]; [done|]. by rewrite IH. }
  induction a as [|c a IH]; [exact Hid|]. change (String c a +:+ b) with (String c (a +:+ b)). cbn. rewrite IH.
  destruct (a +:+ b) eqn:E; [|done]. by destruct a, b.
Qed.
Lemma Base_child K name : no_slash name -> name <> "" -> Base (K +:+ "/" +:+ name) = name.
Proof.
  intros Hn Hne. unfold Base.
  assert (String.eqb (K +:+ "/" +:+ name) "" = false) as -> by (apply String.eqb_neq; by destruct K).
  rewrite <- string_app_assoc, trim_slashes_end, string_app_assoc, split_last_slash by done. cbn [snd].
  by apply String.eqb_neq in Hne as ->.
Qed.
