(* ===== verification/GoTime.v ===== *)
(** * GoTime: the parts of Go's [time], [fmt] and float64 arithmetic the signer uses

    A [time.Time] is the number of nanoseconds since the zero time (0001-01-01
    UTC), so [IsZero t] is [t = 0]; a [time.Duration] is a number of
    nanoseconds.  [Sub] saturates at the int64 bounds as Go's does.  Float64
    values are the binary64 numbers of the Standard Library's [SpecFloat], so
    the rounding of [Duration.Hours] and of [float64(d) * 0.75] is Go's. *)

From stdpp Require Import base list strings pretty.
From Stdlib Require Import ZArith Lia SpecFloat Ascii.
From S2P Require Import Prelude.
Local Open Scope Z_scope.

(** ** Machine integers *)

Definition uint16_mod (z : Z) : Z := z mod 2 ^ 16.
Definition uint32_mod (z : Z) : Z := z mod 2 ^ 32.
Definition uint32_max : Z := 2 ^ 32 - 1.
Definition int64_min : Z := - 2 ^ 63.
Definition int64_max : Z := 2 ^ 63 - 1.
Definition is_uint32 (z : Z) : Prop := 0 <= z <= uint32_max.

(** ** Times and durations *)

Abbreviation Time := Z (only parsing).
Abbreviation Duration := Z (only parsing).

Definition Nanosecond : Duration := 1.
Definition Microsecond : Duration := 1000.
Definition Millisecond : Duration := 1000000.
Definition Second : Duration := 1000000000.
Definition Minute : Duration := 60 * Second.
Definition Hour : Duration := 60 * Minute.

Definition ZeroTime : Time := 0.
Definition IsZero (t : Time) : bool := t =? 0.
Definition After (t u : Time) : bool := u <? t.
Definition Before (t u : Time) : bool := t <? u.
Definition TEqual (t u : Time) : bool := t =? u.
Definition TAdd (t : Time) (d : Duration) : Time := t + d.

(** [Time.Sub] saturates to the representable durations. *)
Definition TSub (t u : Time) : Duration := Z.max int64_min (Z.min int64_max (t - u)).

(** [time.Duration(seconds) * time.Second] for a uint32 number of seconds: at
    most about 4.3e18 ns, which is below [int64_max] (see [seconds_no_overflow]). *)
Definition seconds (s : Z) : Duration := s * Second.

Lemma seconds_no_overflow s : is_uint32 s -> 0 <= seconds s <= int64_max.
Proof. unfold is_uint32, uint32_max, seconds, Second, int64_max. lia. Qed.

Lemma seconds_nonneg s : 0 <= s -> 0 <= seconds s.
Proof. unfold seconds, Second. lia. Qed.

(** ** Float64 *)

Definition f64 := spec_float.
Definition f64_of_int (z : Z) : f64 := binary_normalize 53 1024 z 0 false.
Definition f64_add : f64 -> f64 -> f64 := SFadd 53 1024.
Definition f64_div : f64 -> f64 -> f64 := SFdiv 53 1024.
Definition f64_mul : f64 -> f64 -> f64 := SFmul 53 1024.
Definition f64_le : f64 -> f64 -> bool := SFleb.
Definition f64_lt : f64 -> f64 -> bool := SFltb.

(** Conversion of a finite float64 to an integer, truncating toward zero. *)
Definition f64_trunc (x : f64) : Z :=
  match x with
  | S754_finite s m e =>
      let a := if 0 <=? e then Z.shiftl (Zpos m) e else Z.shiftr (Zpos m) (- e) in
      if s then - a else a
  | _ => 0
  end.

(** [0.75] as a float64 *)
Definition f64_three_quarters : f64 := f64_div (f64_of_int 3) (f64_of_int 4).

(** [time.Duration(float64(lifetime) * 0.75)] *)
Definition three_quarters (d : Duration) : Duration :=
  f64_trunc (f64_mul (f64_of_int d) f64_three_quarters).

(** [Duration.Hours] *)
Definition Hours (d : Duration) : f64 :=
  f64_add (f64_of_int (Z.quot d Hour))
          (f64_div (f64_of_int (Z.rem d Hour)) (f64_of_int 3600000000000)).

(** [d.Hours() / 24] *)
Definition Days (d : Duration) : f64 := f64_div (Hours d) (f64_of_int 24).

(** ** Formatting *)

Definition fmt_d (z : Z) : string := pretty z.

(** A number padded with zeros to [n] digits, as [%0nd]. *)
Definition fmt_0d (n : nat) (z : Z) : string :=
  let s := fmt_d z in
  String.concat "" (repeat "0" (n - String.length s)) +:+ s.

(** [%.0f]: the nearest integer, ties to even, with the sign of the float. *)
Definition fmt_0f (x : f64) : string :=
  match x with
  | S754_finite s m e =>
      let a :=
        if 0 <=? e then Z.shiftl (Zpos m) e
        else
          let q := Z.shiftr (Zpos m) (- e) in
          let r := Zpos m - Z.shiftl q (- e) in
          let half := Z.shiftl 1 (- e - 1) in
          if (r <? half) || ((r =? half) && Z.even q) then q else q + 1 in
      (if s then "-" else "") +:+ fmt_d a
  | S754_zero s => if s then "-0" else "0"
  | S754_infinity s => if s then "-Inf" else "+Inf"
  | S754_nan => "NaN"
  end.

(** Year, month and day of a day number counted from 0001-01-01. *)
Definition civil_of_days (d : Z) : Z * Z * Z :=
  let z := d + 306 in
  let era := z / 146097 in
  let doe := z mod 146097 in
  let yoe := (doe - doe / 1460 + doe / 36524 - doe / 146096) / 365 in
  let doy := doe - (365 * yoe + yoe / 4 - yoe / 100) in
  let mp := (5 * doy + 2) / 153 in
  let day := doy - (153 * mp + 2) / 5 + 1 in
  let month := if mp <? 10 then mp + 3 else mp - 9 in
  let year := yoe + era * 400 + (if month <=? 2 then 1 else 0) in
  (year, month, day).

(** [t.Format(time.RFC3339)] for a UTC time: whole seconds, suffix [Z]. *)
Definition FormatRFC3339 (t : Time) : string :=
  let s := t / Second in
  let '(y, mo, d) := civil_of_days (s / 86400) in
  let sod := s mod 86400 in
  fmt_0d 4 y +:+ "-" +:+ fmt_0d 2 mo +:+ "-" +:+ fmt_0d 2 d +:+ "T" +:+
  fmt_0d 2 (sod / 3600) +:+ ":" +:+ fmt_0d 2 (sod / 60 mod 60) +:+ ":" +:+
  fmt_0d 2 (sod mod 60) +:+ "Z".

(** [2026-07-28T12:34:56Z] is 1785242096 seconds after the Unix epoch. *)
Example format_rfc3339_ex :
  FormatRFC3339 ((1785242096 + 62135596800) * Second) = "2026-07-28T12:34:56Z".
Proof. vm_compute. reflexivity. Qed.

(** The fraction [v / 10^prec], with its leading dot and without trailing
    zeros; empty for 0. *)
Fixpoint fmt_frac (prec : nat) (v : Z) : string :=
  match prec with
  | O => ""
  | S p =>
      if v =? 0 then ""
      else if v mod 10 =? 0 then fmt_frac p (v / 10)
      else "." +:+ fmt_0d prec v
  end.

(** [Duration.String] *)
Definition fmt_duration (d : Duration) : string :=
  let u := Z.abs d in
  let sign := if d <? 0 then "-" else "" in
  if u <? Second then
    if u =? 0 then "0s"
    else if u <? Microsecond then sign +:+ fmt_d u +:+ "ns"
    else if u <? Millisecond then
      sign +:+ fmt_d (u / Microsecond) +:+ fmt_frac 3 (u mod Microsecond) +:+ "µs"
    else sign +:+ fmt_d (u / Millisecond) +:+ fmt_frac 6 (u mod Millisecond) +:+ "ms"
  else
    let s := u / Second in
    let tail := fmt_d (s mod 60) +:+ fmt_frac 9 (u mod Second) +:+ "s" in
    let m := s / 60 in
    if m =? 0 then sign +:+ tail
    else
      let tail := fmt_d (m mod 60) +:+ "m" +:+ tail in
      let h := m / 60 in
      if h =? 0 then sign +:+ tail else sign +:+ fmt_d h +:+ "h" +:+ tail.

Example fmt_duration_ex :
  (fmt_duration (90 * Minute + 500 * Millisecond), fmt_duration 1500)
  = ("1h30m0.5s", "1.5µs").
Proof. vm_compute. reflexivity. Qed.

Example days_ex : fmt_0f (Days (36 * Hour)) = "2" /\ fmt_0f (Days (12 * Hour)) = "0".
Proof. vm_compute. split; reflexivity. Qed.

Example three_quarters_ex : three_quarters (90 * 24 * Hour) = 67 * 24 * Hour + 12 * Hour.
Proof. vm_compute. reflexivity. Qed.

(** ** Order lemmas *)

Lemma After_lt t u : After t u = true <-> u < t.
Proof. apply Z.ltb_lt. Qed.
Lemma After_ge t u : After t u = false <-> t <= u.
Proof. apply Z.ltb_ge. Qed.
Lemma Before_lt t u : Before t u = true <-> t < u.
Proof. apply Z.ltb_lt. Qed.
Lemma Before_ge t u : Before t u = false <-> u <= t.
Proof. apply Z.ltb_ge. Qed.
Lemma IsZero_eq t : IsZero t = true <-> t = 0.
Proof. apply Z.eqb_eq. Qed.
Lemma IsZero_neq t : IsZero t = false <-> t <> 0.
Proof. apply Z.eqb_neq. Qed.
Lemma TEqual_eq t u : TEqual t u = true <-> t = u.
Proof. apply Z.eqb_eq. Qed.

(** Turn the time comparisons of the hypotheses into arithmetic. *)
Ltac time_to_prop :=
  repeat match goal with
  | H : After _ _ = true |- _ => apply After_lt in H
  | H : After _ _ = false |- _ => apply After_ge in H
  | H : Before _ _ = true |- _ => apply Before_lt in H
  | H : Before _ _ = false |- _ => apply Before_ge in H
  | H : IsZero _ = true |- _ => apply IsZero_eq in H
  | H : IsZero _ = false |- _ => apply IsZero_neq in H
  | H : TEqual _ _ = true |- _ => apply TEqual_eq in H
  end.

Lemma TSub_lt_bound t u d : TSub t u < d -> d <= int64_max -> t - u < d.
Proof. unfold TSub, int64_min, int64_max. lia. Qed.

(** A dwell test [now.Sub(start) < d] that fails means [d] has elapsed. *)
Lemma TSub_ge_elapsed t u d :
  int64_min < d -> d <= TSub t u -> u + d <= t.
Proof. unfold TSub, int64_min, int64_max. lia. Qed.

(** ** [time.Parse(time.RFC3339, s)]

    The parser of Go's [time] package for the layout [2006-01-02T15:04:05Z07:00]:
    fixed two-digit fields except the hour, an optional fraction of the second, and
    a zone "Z" or a signed offset; with the ranges the package checks. *)

Definition digit_value (c : ascii) : option Z :=
  let n := Z.of_N (N_of_ascii c) in
  if (48 <=? n) && (n <=? 57) then Some (n - 48) else None.

(** [n] decimal digits. *)
Fixpoint fixed_digits (n : nat) (acc : Z) (s : string) : option (Z * string) :=
  match n, s with
  | O, _ => Some (acc, s)
  | S n', String c s' => d ← digit_value c; fixed_digits n' (acc * 10 + d) s'
  | _, _ => None
  end.

(** [getnum(s, false)]: one digit, or two. *)
Definition one_or_two (s : string) : option (Z * string) :=
  match fixed_digits 2 0 s with
  | Some r => Some r
  | None => fixed_digits 1 0 s
  end.

Definition expect_byte (c : ascii) (s : string) : option string :=
  match s with
  | String c' s' => if Ascii.eqb c c' then Some s' else None
  | EmptyString => None
  end.

(** The digits at the head of a string. *)
Fixpoint span_digits (s : string) : list Z * string :=
  match s with
  | String c s' =>
      match digit_value c with
      | Some d => let '(ds, rest) := span_digits s' in (d :: ds, rest)
      | None => ([], s)
      end
  | EmptyString => ([], s)
  end.

(** [parseNanoseconds]: at most nine digits count. *)
Definition nanoseconds (ds : list Z) : Z :=
  let ds := firstn 9 ds in
  fold_left (fun acc d => acc * 10 + d) ds 0 * 10 ^ (9 - Z.of_nat (length ds)).

(** A fraction is taken when a separator is followed by a digit. *)
Definition parse_fraction (s : string) : Z * string :=
  match s with
  | String c s' =>
      if Ascii.eqb c "." || Ascii.eqb c "," then
        match span_digits s' with
        | ([], _) => (0, s)
        | (ds, rest) => (nanoseconds ds, rest)
        end
      else (0, s)
  | EmptyString => (0, s)
  end.

(** The zone offset in seconds. *)
Definition parse_zone (s : string) : option (Z * string) :=
  match s with
  | String c s' =>
      if Ascii.eqb c "Z" then Some (0, s')
      else
        '(hh, s1) ← fixed_digits 2 0 s';
        s2 ← expect_byte ":" s1;
        '(mm, s3) ← fixed_digits 2 0 s2;
        if (24 <? hh) || (60 <? mm) then None
        else if Ascii.eqb c "+" then Some (hh * 3600 + mm * 60, s3)
        else if Ascii.eqb c "-" then Some (- (hh * 3600 + mm * 60), s3)
        else None
  | EmptyString => None
  end.

Definition is_leap (y : Z) : bool := (y mod 4 =? 0) && (negb (y mod 100 =? 0) || (y mod 400 =? 0)).
Definition days_in (m y : Z) : Z :=
  if m =? 2 then (if is_leap y then 29 else 28)
  else if (m =? 4) || (m =? 6) || (m =? 9) || (m =? 11) then 30 else 31.

(** The day number of a date, counted from 0001-01-01. *)
Definition days_of_civil (y m d : Z) : Z :=
  let y' := if m <=? 2 then y - 1 else y in
  let era := y' / 400 in
  let yoe := y' mod 400 in
  let mp := if 2 <? m then m - 3 else m + 9 in
  let doy := (153 * mp + 2) / 5 + d - 1 in
  let doe := yoe * 365 + yoe / 4 - yoe / 100 + doy in
  era * 146097 + doe - 306.

(** Date, time of day, fraction, zone, and nothing after. *)
Definition parse_rfc3339 (s : string) : option Time :=
  '(y, s) ← fixed_digits 4 0 s; s ← expect_byte "-" s;
  '(mo, s) ← fixed_digits 2 0 s; s ← expect_byte "-" s;
  '(d, s) ← fixed_digits 2 0 s; s ← expect_byte "T" s;
  '(h, s) ← one_or_two s; s ← expect_byte ":" s;
  '(mi, s) ← fixed_digits 2 0 s; s ← expect_byte ":" s;
  '(sec, s) ← fixed_digits 2 0 s;
  let '(ns, s) := parse_fraction s in
  '(offset, s) ← parse_zone s;
  if negb (String.eqb s "") then None
  else if (mo <? 1) || (12 <? mo) || (d <? 1) || (days_in mo y <? d) || (23 <? h) || (59 <? mi) || (59 <? sec) then None
  else Some ((days_of_civil y mo d * 86400 + h * 3600 + mi * 60 + sec - offset) * Second + ns).

Definition ParseRFC3339 (s : string) : res string Time :=
  match parse_rfc3339 s with
  | Some t => Ok t
  | None => Err (Sprintf "parsing time %q" [s])
  end.

(** ** Examples *)

Example parse_ex : ParseRFC3339 "2017-02-02T00:00:00+00:00" = Ok ((1485993600 + 62135596800) * Second).
Proof. vm_compute. reflexivity. Qed.
Example parse_bad : parse_rfc3339 "2026-02-30T00:00:00Z" = None.
Proof. vm_compute. reflexivity. Qed.
