(* ===== verification/Config.v ===== *)
(** * Config: the configuration values the signer's logic reads and the checks
    that admit them (signer/internal/config/config.go)

    The fields, the per-zone overrides, and the checks of timings, TTLs and names;
    ConfigCheck puts the checks together.  TOML decoding is not modelled, and
    settings only the daemon's glue reads are left out. *)

From stdpp Require Import base list strings gmap.
From Stdlib Require Import ZArith Lia Ascii.
From S2P Require Import Prelude GoTime.
Local Open Scope Z_scope.
Local Open Scope sig_scope.

Record DNSSECConfig := {
  cfg_Algorithm : string;
  cfg_KSKLifetime : Duration;
  cfg_ZSKLifetime : Duration;
  cfg_SignatureValidity : Duration;
  cfg_SignatureRefresh : Duration;
  cfg_NSECVersion : string;
  cfg_NSEC3Iterations : Z;
  cfg_NSEC3Salt : string;
  cfg_DNSKEYTtl : Z;
  cfg_RolloverPrepublish : Duration;
  cfg_RolloverSwitch : Duration;
  cfg_SerialPolicy : string;
  cfg_Publication : string;
  cfg_ParentDSTTL : Duration
}.

Record ZoneConfig := {
  zc_Path : string;
  zc_KSKLifetime : Duration;
  zc_ZSKLifetime : Duration;
  zc_Algorithm : string;
  zc_Registrar : string;
  zc_SerialPolicy : string
}.

(** A hook is a shell command line or an argument vector. *)
Record HooksConfig := { PostSign : string; PostSignCmd : list string }.

Record WebConfig := { web_Enabled : bool; web_Listen : string; web_AllowRemote : bool }.
Record HealthConfig := { health_Listen : string; health_ShutdownTimeout : Duration; health_AllowRemote : bool }.
Record HeartbeatConfig := {
  hb_Enabled : bool; hb_URL : string; hb_APIKey : string; hb_App : string; hb_IntervalMinutes : Z; hb_AllowInsecure : bool
}.
Record ValidateConfig := { val_Timeout : Duration }.
Record RegistrarDynadotConfig := {
  dyn_Enabled : bool; dyn_APIKey : string; dyn_APISecret : string; dyn_BaseURL : string; dyn_AllowInsecureBaseURL : bool;
  dyn_Timeout : Duration; dyn_AutoPublish : bool
}.
Record RegistrarConfig := { DigestTypeVal : Z; Dynadot : RegistrarDynadotConfig }.

Record Config := {
  OutputDir : string;
  DataDir : string;
  PollInterval : Duration;
  DNSSEC : DNSSECConfig;
  Web : WebConfig;
  Health : HealthConfig;
  Heartbeat : HeartbeatConfig;
  Validation : ValidateConfig;
  cfg_Zones : gmap string ZoneConfig;
  Hooks : HooksConfig;
  Registrar : RegistrarConfig
}.

(** [RegistrarConfig.DigestType] *)
Definition DigestType (r : RegistrarConfig) : Z := if DigestTypeVal r =? 4 then 4 else 2.

(** ** Parent DS TTL *)

Definition DefaultParentDSTTL : Duration := 24 * Hour.
Definition MinParentDSTTL : Duration := Second.
Definition MaxParentDSTTL : Duration := 7 * 24 * Hour.

Inductive config_error :=
| Negative (field : string)
| TooSmall (field : string)
| NotWholeSeconds
| TooLarge (field : string)
| NotPositive (field : string)
| NotRepresentable
| RefreshNotBelowValidity
| RefreshBelowPoll
| SwitchNotBelowPrepublish
| BadDomain (why : string).

Definition ValidateParentDSTTL (d : Duration) : res config_error unit :=
  if d =? 0 then Ok tt
  else if d <? 0 then Err (Negative "parent_ds_ttl")
  else if d <? MinParentDSTTL then Err (TooSmall "parent_ds_ttl")
  else if negb (Z.rem d Second =? 0) then Err NotWholeSeconds
  else if MaxParentDSTTL <? d then Err (TooLarge "parent_ds_ttl")
  else Ok tt.

Definition ParentDSTTLFallback (c : Config) : Duration :=
  let d := cfg_ParentDSTTL (DNSSEC c) in
  if (0 <? d) && is_ok (ValidateParentDSTTL d) then d else DefaultParentDSTTL.

Definition ParentDSTTLFallbackSeconds (c : Config) : Z :=
  uint32_mod (Z.quot (ParentDSTTLFallback c) Second).

(** ** Signature timing *)

Definition SignatureInceptionBackdate : Duration := Hour.
Definition MinSignatureValidity : Duration := Hour.
Definition MinSignatureRefresh : Duration := Minute.
Definition MaxSignatureValidity : Duration := 366 * 24 * Hour.
Definition maxSerialWindow : Z := 2 ^ 31.
Definition RefreshPollFactor : Z := 2.

(** The product [RefreshPollFactor * poll] is an int64 product. *)
Definition int64_wrap (z : Z) : Z := (z + 2 ^ 63) mod 2 ^ 64 - 2 ^ 63.

Definition ValidateSignatureTiming (validity refresh poll : Duration) : res config_error unit :=
  if validity <=? 0 then Err (NotPositive "signature_validity")
  else if refresh <=? 0 then Err (NotPositive "signature_refresh")
  else if validity <? MinSignatureValidity then Err (TooSmall "signature_validity")
  else
    let window := Z.quot validity Second + Z.quot SignatureInceptionBackdate Second in
    if (maxSerialWindow <=? Z.quot validity Second) || (maxSerialWindow <=? window)
    then Err NotRepresentable
    else if MaxSignatureValidity <? validity then Err (TooLarge "signature_validity")
    else if refresh <? MinSignatureRefresh then Err (TooSmall "signature_refresh")
    else if validity <=? refresh then Err RefreshNotBelowValidity
    else if (0 <? poll) && (refresh <? int64_wrap (RefreshPollFactor * poll))
    then Err RefreshBelowPoll
    else Ok tt.

(** The lifetime and rollover-timing checks of [Validate]. *)
Definition ValidateRolloverTiming (c : DNSSECConfig) : res config_error unit :=
  check (guard_err (cfg_RolloverPrepublish c <=? 0) (NotPositive "rollover_prepublish"));
  check (guard_err (cfg_RolloverSwitch c <=? 0) (NotPositive "rollover_switch"));
  guard_err (cfg_RolloverPrepublish c <=? cfg_RolloverSwitch c) SwitchNotBelowPrepublish.

(** ** Publication mode *)

Definition PublicationHook : string := "hook".
Definition PublicationImmediate : string := "immediate".
Definition PublicationProbe : string := "probe".

Definition HookConfigured (c : Config) : bool :=
  Nat.ltb 0 (length (PostSignCmd (Hooks c))) || negb (String.eqb (TrimSpace (PostSign (Hooks c))) "").

Definition PublicationMode (c : Config) : string :=
  let p := cfg_Publication (DNSSEC c) in
  if String.eqb p PublicationHook || String.eqb p PublicationImmediate || String.eqb p PublicationProbe then p
  else if HookConfigured c then PublicationHook
  else PublicationImmediate.

(** ** Defaults *)

Definition DefaultConfig : Config := {|
  OutputDir := "/var/lib/sigillum-signer/signed";
  DataDir := "/var/lib/sigillum-signer";
  PollInterval := 5 * Minute;
  DNSSEC := {| cfg_Algorithm := "ED25519"; cfg_KSKLifetime := 5 * 365 * 24 * Hour; cfg_ZSKLifetime := 90 * 24 * Hour;
               cfg_SignatureValidity := 14 * 24 * Hour; cfg_SignatureRefresh := 3 * 24 * Hour;
               cfg_NSECVersion := "nsec3"; cfg_NSEC3Iterations := 0; cfg_NSEC3Salt := "";
               cfg_DNSKEYTtl := 0; cfg_RolloverPrepublish := 14 * 24 * Hour; cfg_RolloverSwitch := 7 * 24 * Hour;
               cfg_SerialPolicy := "keep"; cfg_Publication := ""; cfg_ParentDSTTL := 24 * Hour |};
  Web := {| web_Enabled := false; web_Listen := "127.0.0.1:8053"; web_AllowRemote := false |};
  Health := {| health_Listen := "127.0.0.1:8054"; health_ShutdownTimeout := 30 * Second; health_AllowRemote := false |};
  Heartbeat := {| hb_Enabled := false; hb_URL := "https://www.any53.com/any53/anystatus/heartbeat/"; hb_APIKey := "";
                  hb_App := "sigillum-signer"; hb_IntervalMinutes := 5; hb_AllowInsecure := false |};
  Validation := {| val_Timeout := 5 * Second |};
  cfg_Zones := ∅;
  Hooks := {| PostSign := ""; PostSignCmd := [] |};
  Registrar := {| DigestTypeVal := 2;
                  Dynadot := {| dyn_Enabled := false; dyn_APIKey := ""; dyn_APISecret := ""; dyn_BaseURL := "";
                                dyn_AllowInsecureBaseURL := false; dyn_Timeout := 30 * Second; dyn_AutoPublish := true |} |}
|}.

(** ** Per-zone overrides *)

Definition zone_override {A} (c : Config) (domain : string) (get : ZoneConfig -> A)
    (ok : A -> bool) (dflt : A) : A :=
  match cfg_Zones c !! domain with
  | Some z => if ok (get z) then get z else dflt
  | None => dflt
  end.

Definition GetZoneKSKLifetime (c : Config) (domain : string) : Duration :=
  zone_override c domain zc_KSKLifetime (fun d => 0 <? d) (cfg_KSKLifetime (DNSSEC c)).
Definition GetZoneZSKLifetime (c : Config) (domain : string) : Duration :=
  zone_override c domain zc_ZSKLifetime (fun d => 0 <? d) (cfg_ZSKLifetime (DNSSEC c)).
Definition GetZoneAlgorithm (c : Config) (domain : string) : string :=
  zone_override c domain zc_Algorithm (fun s => negb (String.eqb s "")) (cfg_Algorithm (DNSSEC c)).
Definition GetZoneSerialPolicy (c : Config) (domain : string) : string :=
  zone_override c domain zc_SerialPolicy (fun s => negb (String.eqb s ""))
    (if negb (String.eqb (cfg_SerialPolicy (DNSSEC c)) "") then cfg_SerialPolicy (DNSSEC c) else "keep").

(** ** Managed-zone names *)

Definition CanonicalZoneIdentity (domain : string) : string :=
  ToLower (TrimSuffix (TrimSpace domain) ".").

Definition MaxZoneLabelLength : nat := 63.
Definition MaxZoneNameLength : nat := 253.

Definition zone_byte_ok (c : ascii) : bool :=
  byte_in_range "a" "z" c || byte_in_range "A" "Z" c || byte_in_range "0" "9" c
  || Ascii.eqb c "-" || Ascii.eqb c "." || Ascii.eqb c "_".

Fixpoint check_labels (labels : list string) : res config_error unit :=
  match labels with
  | [] => Ok tt
  | label :: rest =>
      check (guard_err (Nat.ltb MaxZoneLabelLength (String.length label)) (BadDomain "label too long"));
      check (guard_err (HasPrefix label "-" || HasSuffix label "-") (BadDomain "label hyphen"));
      check_labels rest
  end.

Definition ValidateDomainName (domain : string) : res config_error unit :=
  if String.eqb domain "" then Err (BadDomain "empty")
  else if String.eqb domain "." then Err (BadDomain "root")
  else if ContainsAny domain "/\" then Err (BadDomain "separator")
  else if Contains domain ".." then Err (BadDomain "empty label")
  else if HasPrefix domain "." then Err (BadDomain "leading dot")
  else if negb (forall_bytes zone_byte_ok domain) then Err (BadDomain "character")
  else
    let name := TrimSuffix domain "." in
    if Nat.ltb MaxZoneNameLength (String.length name) then Err (BadDomain "too long")
    else check_labels (Split "." name).

Example validate_domain_ex :
  (is_ok (ValidateDomainName "_acme.example.com."), is_ok (ValidateDomainName "a..b"),
   is_ok (ValidateDomainName "-a.b")) = (true, false, false).
Proof. vm_compute. reflexivity. Qed.

(** ** Lemmas *)

Lemma parent_ds_ttl_bounds (c : Config) :
  1 <= ParentDSTTLFallbackSeconds c <= 7 * 86400 /\
  seconds (ParentDSTTLFallbackSeconds c) = ParentDSTTLFallback c.
Proof.
  unfold ParentDSTTLFallbackSeconds, ParentDSTTLFallback.
  set (d := cfg_ParentDSTTL (DNSSEC c)).
  destruct ((0 <? d) && is_ok (ValidateParentDSTTL d)) eqn:E.
  - apply andb_true_iff in E as [Hpos Hok]. unfold ValidateParentDSTTL in Hok.
    repeat destr_match_in Hok; try done; bool_to_prop; try lia.
    unfold MaxParentDSTTL, MinParentDSTTL, seconds, uint32_mod, Hour, Minute in *.
    pose proof (Z.quot_rem' d Second) as Hq. pose proof (Z.quot_pos d Second ltac:(lia) ltac:(done)).
    unfold Second in *. rewrite Z.mod_small by lia. lia.
  - vm_compute. intuition discriminate.
Qed.

(** ** Properties *)

(** The TTL persisted when the parent's cannot be observed is a
    whole number of seconds between one second and a week for every
    configuration: it neither truncates to zero nor wraps, whatever the
    configured value. *)
Theorem parent_ds_ttl_fallback_safe (c : Config) :
  1 <= ParentDSTTLFallbackSeconds c <= 7 * 86400 /\
  seconds (ParentDSTTLFallbackSeconds c) = ParentDSTTLFallback c.
Proof. apply parent_ds_ttl_bounds. Qed.

(** Timings the configuration check admits leave room for a re-sign
    before expiry and are representable: the signed window, inception backdate
    included, spans less than 2^31 seconds, and the refresh threshold lies at
    least two poll intervals before expiry and strictly inside the validity. *)
Theorem signature_timing_sound (validity refresh poll : Duration) :
  int64_min <= poll <= int64_max -> 2 * poll <= int64_max ->
  ValidateSignatureTiming validity refresh poll = Ok tt ->
  (validity + SignatureInceptionBackdate) / Second < 2 ^ 31 /\
  MinSignatureRefresh <= refresh < validity /\ validity <= MaxSignatureValidity /\
  (0 < poll -> 2 * poll <= refresh).
Proof.
  intros Hp Hp2 H. unfold ValidateSignatureTiming in H.
  repeat destr_match_in H; try done; bool_to_prop.
  unfold int64_wrap, int64_min, int64_max, RefreshPollFactor, MaxSignatureValidity,
    SignatureInceptionBackdate, MinSignatureRefresh, Hour, Minute, Second in *.
  repeat split; try lia.
  - apply Z.div_lt_upper_bound; [done|]. change (2 ^ 31) with 2147483648. lia.
  - intros Hpos. match goal with H : (_ && _)%bool = false |- _ => apply andb_false_iff in H as [H|H] end;
      bool_to_prop; [lia|]. rewrite Z.mod_small in *; lia.
Qed.

Lemma signature_timing_sound_witness : 2 * (5 * Minute) <= 3 * 24 * Hour.
Proof.
  refine (proj2 (proj2 (proj2 (signature_timing_sound (14 * 24 * Hour) (3 * 24 * Hour) (5 * Minute) _ _ _))) _);
    vm_compute; first [reflexivity | intuition discriminate].
Defined.
