(* ===== verification/ZoneState.v ===== *)
(** * ZoneState: the persisted record of one zone (signer/internal/state/state.go)

    [KeyState.t], [RolloverState.t] and [ZoneState.t] are the Go structs, field
    by field; a nil pointer is [None].  Every operation of [*ZoneState] that
    changes the record is a function from the record to the record: publication
    tracking, warnings, operation-scoped errors, the status summary, and the
    validation rules [LoadState] applies to a persisted entry. *)

From stdpp Require Import base list strings relations.
From Stdlib Require Import ZArith Lia.
From S2P Require Import Prelude GoTime.
Local Open Scope Z_scope.
Local Open Scope sig_scope.

Module KeyState.
(** A DNSSEC key as the state records it. *)
Record t := mk {
  ID : Z; Algorithm : string; Created : Time; Expires : Time;
  DSPublished : bool; RolloverDue : Time
}.
#[export] Instance eta_t : Eta t.
Proof.
  refine {| eta k := mk (ID k) (Algorithm k) (Created k) (Expires k)
                        (DSPublished k) (RolloverDue k) |}.
  by intros [].
Defined.
End KeyState.

Module RolloverState.
(** An in-progress key rollover. *)
Record t := mk {
  RType : string; RState : string;
  OldKeyID : Z; NewKeyID : Z; OldZSKID : Z; NewZSKID : Z;
  OldAlgorithm : string; NewAlgorithm : string;
  Started : Time; PhaseStarted : Time; PhaseFirstSigned : Time; PhaseHorizon : Time;
  DSObservedAt : Time; ParentDSTTL : Z; OldDSRemovedAt : Time;
  DSRemovalPushedAt : Time; DSAddPushedAt : Time; Action : string
}.
#[export] Instance eta_t : Eta t.
Proof.
  refine {| eta r := mk (RType r) (RState r) (OldKeyID r) (NewKeyID r) (OldZSKID r)
    (NewZSKID r) (OldAlgorithm r) (NewAlgorithm r) (Started r) (PhaseStarted r)
    (PhaseFirstSigned r) (PhaseHorizon r) (DSObservedAt r) (ParentDSTTL r)
    (OldDSRemovedAt r) (DSRemovalPushedAt r) (DSAddPushedAt r) (Action r) |}.
  by intros [].
Defined.
(** The Go zero value, which composite literals start from. *)
Definition zero : t := mk "" "" 0 0 0 0 "" "" 0 0 0 0 0 0 0 0 0 "".
End RolloverState.

Module ZoneState.
(** The state of one zone. *)
Record t := mk {
  Revision : Z; Path : string; Serial : Z; PublishedSerial : Z; LastSigned : Time;
  SourceModTime : Time; SourceSize : Z; SourceDigest : string; SignaturesExp : Time;
  PublishedDNSKEYTTL : Z; PublishedMaxRRSIGTTL : Z;
  PendingPublication : bool; PublishedAt : Time; PublishedGenerationSignedAt : Time;
  ServedDNSKEYTTL : Z; ServedMaxRRSIGTTL : Z;
  DNSKEYCacheHorizon : Time; RRSIGCacheHorizon : Time;
  KSK : option KeyState.t; ZSK : option KeyState.t; Rollover : option RolloverState.t;
  Warnings : list string; Errors : list string; ForceResign : bool
}.
#[export] Instance eta_t : Eta t.
Proof.
  refine {| eta z := mk (Revision z) (Path z) (Serial z) (PublishedSerial z) (LastSigned z)
    (SourceModTime z) (SourceSize z) (SourceDigest z) (SignaturesExp z)
    (PublishedDNSKEYTTL z) (PublishedMaxRRSIGTTL z) (PendingPublication z) (PublishedAt z)
    (PublishedGenerationSignedAt z) (ServedDNSKEYTTL z) (ServedMaxRRSIGTTL z)
    (DNSKEYCacheHorizon z) (RRSIGCacheHorizon z) (KSK z) (ZSK z) (Rollover z)
    (Warnings z) (Errors z) (ForceResign z) |}.
  by intros [].
Defined.
Definition zero : t :=
  mk 0 "" 0 0 0 0 0 "" 0 0 0 false 0 0 0 0 0 0 None None None [] [] false.
End ZoneState.

Import KeyState RolloverState ZoneState.

(** ** Rollover phases *)

Definition ZSKRolloverStateActive := "active".
Definition ZSKRolloverStatePrePublish := "pre_publish".
Definition ZSKRolloverStateSigning := "signing".
Definition ZSKRolloverStateRetired := "retired".
Definition KSKRolloverStateActive := "active".
Definition KSKRolloverStateDSAddWait := "ds_add_wait".
Definition KSKRolloverStateDSPropagation := "ds_propagation_wait".
Definition KSKRolloverStateRetiring := "retiring".
Definition KSKRolloverStateComplete := "complete".
Definition AlgoRolloverStateDSAddWait := "algo_ds_add_wait".
Definition AlgoRolloverStateDSPropagation := "algo_ds_propagation_wait".
Definition AlgoRolloverStateOldDSRemoval := "algo_old_ds_removal_wait".
Definition AlgoRolloverStateRetiring := "algo_retiring".

Definition maxDNSTTLSeconds : Z := 2 ^ 31 - 1.

(** ** Publication tracking *)

(** [r.NewKeysPropagatedBy(now)], for a possibly nil [r] *)
Definition NewKeysPropagatedBy (r : option RolloverState.t) (now : Time) : bool :=
  match r with
  | None => false
  | Some r =>
      if negb (String.eqb (RType r) "ksk") && negb (String.eqb (RType r) "algorithm")
      then false
      else negb (IsZero (PhaseHorizon r)) && negb (Before now (PhaseHorizon r))
  end.

Definition ConfirmPublication (signedAt now : Time) (z : ZoneState.t) : ZoneState.t :=
  if Before signedAt (PublishedGenerationSignedAt z) then z
  else
    let prevDNSKEY := if ServedDNSKEYTTL z =? 0 then PublishedDNSKEYTTL z else ServedDNSKEYTTL z in
    let prevRRSIG := if ServedMaxRRSIGTTL z =? 0 then PublishedMaxRRSIGTTL z else ServedMaxRRSIGTTL z in
    let hd := TAdd now (seconds prevDNSKEY) in
    let z := if After hd (DNSKEYCacheHorizon z) then z <| DNSKEYCacheHorizon := hd |> else z in
    let hr := TAdd now (seconds prevRRSIG) in
    let z := if After hr (RRSIGCacheHorizon z) then z <| RRSIGCacheHorizon := hr |> else z in
    let z := z <| ServedDNSKEYTTL := PublishedDNSKEYTTL z |> in
    let z := z <| ServedMaxRRSIGTTL := PublishedMaxRRSIGTTL z |> in
    let z := z <| PublishedAt := now |> in
    let z := z <| PublishedGenerationSignedAt := signedAt |> in
    if negb (After (LastSigned z) signedAt) then z <| PendingPublication := false |> else z.

Definition PublishedSince (z : ZoneState.t) (t : Time) : bool :=
  After (PublishedGenerationSignedAt z) t.

(** ** Warnings and operation-scoped errors *)

Definition AddWarning (msg : string) (z : ZoneState.t) : ZoneState.t :=
  if str_in (Warnings z) msg then z else z <| Warnings := Warnings z ++ [msg] |>.

Definition ClearWarnings (z : ZoneState.t) : ZoneState.t := z <| Warnings := [] |>.

Definition stickyWarningPrefix : string := "URGENT:".

Definition ClearTransientWarnings (z : ZoneState.t) : ZoneState.t :=
  if Nat.eqb (length (Warnings z)) 0 then z
  else z <| Warnings := List.filter (fun w => HasPrefix w stickyWarningPrefix) (Warnings z) |>.

Definition ClearStickyWarnings (z : ZoneState.t) : ZoneState.t :=
  if Nat.eqb (length (Warnings z)) 0 then z
  else z <| Warnings := List.filter (fun w => negb (HasPrefix w stickyWarningPrefix)) (Warnings z) |>.

Definition OpSigning := "signing".
Definition OpRollover := "rollover".
Definition OpInit := "init".
Definition OpDeployment := "deployment".
Definition OpRegistrar := "registrar".

Definition ClearOperationError (op : string) (z : ZoneState.t) : ZoneState.t :=
  if Nat.eqb (length (Errors z)) 0 then z
  else z <| Errors := List.filter (fun e => negb (HasPrefix e (op +:+ ": "))) (Errors z) |>.

Definition SetOperationError (op msg : string) (z : ZoneState.t) : ZoneState.t :=
  let z := ClearOperationError op z in
  z <| Errors := Errors z ++ [op +:+ ": " +:+ msg] |>.

Definition HasOperationError (op : string) (z : ZoneState.t) : bool :=
  existsb (fun e => HasPrefix e (op +:+ ": ")) (Errors z).

Definition AddError (msg : string) (z : ZoneState.t) : ZoneState.t :=
  if str_in (Errors z) msg then z else z <| Errors := Errors z ++ [msg] |>.

Definition ClearErrors (z : ZoneState.t) : ZoneState.t := z <| Errors := [] |>.

(** ** Status *)

(** [r.NeedsOperator()]; [now] is the [time.Now()] it reads. *)
Definition NeedsOperator (now : Time) (r : RolloverState.t) : bool :=
  if String.eqb (RState r) KSKRolloverStateDSAddWait
     || String.eqb (RState r) AlgoRolloverStateOldDSRemoval then true
  else if String.eqb (RState r) AlgoRolloverStateDSAddWait then
    NewKeysPropagatedBy (Some r) now
  else false.

Definition Status (now : Time) (z : ZoneState.t) : string :=
  if Nat.ltb 0 (length (Errors z)) then "error"
  else
    let idle := if Nat.ltb 0 (length (Warnings z)) then "warning" else "healthy" in
    match Rollover z with
    | Some r =>
        if negb (String.eqb (RState r) "") && negb (String.eqb (RType r) "zsk") then
          if NeedsOperator now r then "action_required" else "warning"
        else idle
    | None => idle
    end.

(** ** Validation of a persisted entry *)

Inductive state_error :=
| EmptyZoneName
| InvalidDomainName (zone : string)
| NullZoneEntry (zone : string)
| PathHasNUL (zone : string)
| SignedZoneEmptyPath (zone : string)
| KeyWithoutAlgorithm (role : string) (id : Z)
| ParentDSTTLTooLarge (ttl : Z)
| SameOldNewKey (kind : string) (id : Z)
| RolloverWithoutKey (kind : string)
| LiveKeyMismatch (kind : string) (live expected : Z)
| SameAlgorithmKeys (oldKSK newKSK oldZSK newZSK : Z)
| BadAlgorithms (old new : string)
| UnsupportedRollover (type state : string)
| EmptyRemovedName.

Definition validateKeyState (role : string) (k : option KeyState.t) : res state_error unit :=
  match k with
  | None => Ok tt
  | Some k =>
      if String.eqb (TrimSpace (Algorithm k)) "" then Err (KeyWithoutAlgorithm role (KeyState.ID k))
      else Ok tt
  end.

Definition state_is (r : RolloverState.t) (ty : string) (states : list string) : bool :=
  String.eqb (RType r) ty && str_in states (RState r).

(** The live key a KSK or ZSK rollover phase expects. *)
Definition check_live_key (kind : string) (r : RolloverState.t) (k : option KeyState.t)
    (expected : Z) : res state_error unit :=
  if OldKeyID r =? NewKeyID r then Err (SameOldNewKey kind (OldKeyID r))
  else match k with
       | None => Err (RolloverWithoutKey kind)
       | Some k =>
           if negb (KeyState.ID k =? expected) then Err (LiveKeyMismatch kind (KeyState.ID k) expected)
           else Ok tt
       end.

Definition validateRolloverState (z : ZoneState.t) (r : RolloverState.t) : res state_error unit :=
  if maxDNSTTLSeconds <? ParentDSTTL r then Err (ParentDSTTLTooLarge (ParentDSTTL r))
  else if state_is r "ksk" [KSKRolloverStateDSAddWait; KSKRolloverStateDSPropagation; KSKRolloverStateRetiring] then
    check_live_key "ksk" r (KSK z) (NewKeyID r)
  else if state_is r "zsk" [ZSKRolloverStatePrePublish] then
    check_live_key "zsk" r (ZSK z) (OldKeyID r)
  else if state_is r "zsk" [ZSKRolloverStateSigning] then
    check_live_key "zsk" r (ZSK z) (NewKeyID r)
  else if state_is r "algorithm" [AlgoRolloverStateDSAddWait; AlgoRolloverStateDSPropagation;
                                  AlgoRolloverStateOldDSRemoval; AlgoRolloverStateRetiring] then
    if (OldKeyID r =? NewKeyID r) || (OldZSKID r =? NewZSKID r) then
      Err (SameAlgorithmKeys (OldKeyID r) (NewKeyID r) (OldZSKID r) (NewZSKID r))
    else if String.eqb (TrimSpace (OldAlgorithm r)) "" || String.eqb (TrimSpace (NewAlgorithm r)) ""
            || String.eqb (OldAlgorithm r) (NewAlgorithm r) then
      Err (BadAlgorithms (OldAlgorithm r) (NewAlgorithm r))
    else match KSK z, ZSK z with
         | Some k, Some s =>
             if negb (KeyState.ID k =? NewKeyID r) || negb (KeyState.ID s =? NewZSKID r)
             then Err (LiveKeyMismatch "algorithm" (KeyState.ID k) (NewKeyID r))
             else Ok tt
         | _, _ => Err (RolloverWithoutKey "algorithm")
         end
  else Err (UnsupportedRollover (RType r) (RState r)).

(** [strings.ContainsRune(p, 0)] *)
Fixpoint contains_nul (s : string) : bool :=
  match s with
  | EmptyString => false
  | String c s' => Ascii.eqb c Ascii.zero || contains_nul s'
  end.

(** [IsDomainName] is [dns.IsDomainName] of the DNS library. *)
Definition validateZoneEntry (IsDomainName : string -> bool) (name : string)
    (z : option ZoneState.t) : res state_error unit :=
  if String.eqb (TrimSpace name) "" then Err EmptyZoneName
  else if negb (IsDomainName name) then Err (InvalidDomainName name)
  else match z with
  | None => Err (NullZoneEntry name)
  | Some z =>
      if contains_nul (Path z) then Err (PathHasNUL name)
      else if negb (IsZero (LastSigned z)) && String.eqb (TrimSpace (Path z)) "" then
        Err (SignedZoneEmptyPath name)
      else
        check (validateKeyState "ksk" (KSK z));
        check (validateKeyState "zsk" (ZSK z));
        match Rollover z with
        | Some r => validateRolloverState z r
        | None => Ok tt
        end
  end.

(** ** The well-formedness [validateRolloverState] decides

    One constructor per rollover kind and phase group: which phases exist and
    which key must be live in each. *)
Inductive rollover_wf (z : ZoneState.t) (r : RolloverState.t) : Prop :=
| wf_ksk k :
    ParentDSTTL r <= maxDNSTTLSeconds -> RType r = "ksk" ->
    RState r ∈ [KSKRolloverStateDSAddWait; KSKRolloverStateDSPropagation; KSKRolloverStateRetiring] ->
    OldKeyID r <> NewKeyID r -> KSK z = Some k -> KeyState.ID k = NewKeyID r -> rollover_wf z r
| wf_zsk_prepublish k :
    ParentDSTTL r <= maxDNSTTLSeconds -> RType r = "zsk" -> RState r = ZSKRolloverStatePrePublish ->
    OldKeyID r <> NewKeyID r -> ZSK z = Some k -> KeyState.ID k = OldKeyID r -> rollover_wf z r
| wf_zsk_signing k :
    ParentDSTTL r <= maxDNSTTLSeconds -> RType r = "zsk" -> RState r = ZSKRolloverStateSigning ->
    OldKeyID r <> NewKeyID r -> ZSK z = Some k -> KeyState.ID k = NewKeyID r -> rollover_wf z r
| wf_algorithm k s :
    ParentDSTTL r <= maxDNSTTLSeconds -> RType r = "algorithm" ->
    RState r ∈ [AlgoRolloverStateDSAddWait; AlgoRolloverStateDSPropagation;
                AlgoRolloverStateOldDSRemoval; AlgoRolloverStateRetiring] ->
    OldKeyID r <> NewKeyID r -> OldZSKID r <> NewZSKID r ->
    TrimSpace (OldAlgorithm r) <> "" -> TrimSpace (NewAlgorithm r) <> "" ->
    OldAlgorithm r <> NewAlgorithm r ->
    KSK z = Some k -> ZSK z = Some s ->
    KeyState.ID k = NewKeyID r -> KeyState.ID s = NewZSKID r -> rollover_wf z r.

(** A zone whose rollover record, if any, is well-formed. *)
Definition zone_rollover_wf (z : ZoneState.t) : Prop :=
  forall r, Rollover z = Some r -> rollover_wf z r.

(** ** Sample records, for the concrete instances of the theorems *)

Definition sample_key (id : Z) : KeyState.t := KeyState.mk id "ED25519" Hour (Hour + Hour) true Hour.
Definition sample_zone : ZoneState.t :=
  ZoneState.zero <| Revision := 4 |> <| Path := "/z/example.org" |> <| Serial := 7 |>
    <| LastSigned := 100 * Hour |> <| PublishedGenerationSignedAt := 100 * Hour |>
    <| PublishedAt := 101 * Hour |> <| PublishedDNSKEYTTL := 3600 |>
    <| PublishedMaxRRSIGTTL := 7200 |> <| DNSKEYCacheHorizon := 102 * Hour |>
    <| RRSIGCacheHorizon := 103 * Hour |>
    <| KSK := Some (sample_key 11) |> <| ZSK := Some (sample_key 22) |> <| Warnings := ["w"] |>.

(** ** Lemmas *)

Lemma state_is_true r ty states :
  state_is r ty states = true <-> RType r = ty /\ RState r ∈ states.
Proof.
  unfold state_is. rewrite andb_true_iff, String.eqb_eq, str_in_spec. done.
Qed.

Lemma check_live_key_ok kind r k e :
  check_live_key kind r k e = Ok tt <->
  OldKeyID r <> NewKeyID r /\ exists k', k = Some k' /\ KeyState.ID k' = e.
Proof.
  unfold check_live_key. split.
  - repeat destr_match; intros H; simplify_eq; bool_to_prop; eauto.
  - intros (Hne & k' & -> & <-). apply Z.eqb_neq in Hne as ->. by rewrite Z.eqb_refl.
Qed.

Ltac eqb_strings :=
  repeat match goal with
  | H : String.eqb _ _ = true |- _ => apply String.eqb_eq in H
  | H : String.eqb _ _ = false |- _ => apply String.eqb_neq in H
  end.

Lemma validateRolloverState_sound z r :
  validateRolloverState z r = Ok tt -> rollover_wf z r.
Proof.
  unfold validateRolloverState. intros H.
  destruct (_ <? _) eqn:Ht in H; [done|]. apply Z.ltb_ge in Ht.
  destruct (state_is r "ksk" _) eqn:E1 in H.
  { apply state_is_true in E1 as [? ?]. apply check_live_key_ok in H as (? & k & ? & ?).
    by eapply wf_ksk. }
  destruct (state_is r "zsk" [ZSKRolloverStatePrePublish]) eqn:E2 in H.
  { apply state_is_true in E2 as [? ?%list_elem_of_singleton].
    apply check_live_key_ok in H as (? & k & ? & ?). by eapply wf_zsk_prepublish. }
  destruct (state_is r "zsk" [ZSKRolloverStateSigning]) eqn:E3 in H.
  { apply state_is_true in E3 as [? ?%list_elem_of_singleton].
    apply check_live_key_ok in H as (? & k & ? & ?). by eapply wf_zsk_signing. }
  destruct (state_is r "algorithm" _) eqn:E4 in H; [|done].
  apply state_is_true in E4 as [? ?].
  repeat destr_match_in H; simplify_eq; bool_to_prop. by eapply wf_algorithm.
Qed.

Lemma validateRolloverState_complete z r :
  rollover_wf z r -> validateRolloverState z r = Ok tt.
Proof.
  unfold validateRolloverState.
  intros [k Ht Hty Hst Hne Hk Hid|k Ht Hty Hst Hne Hk Hid|k Ht Hty Hst Hne Hk Hid
         |k s Ht Hty Hst Hne Hnz Hoa Hna Hnea Hk Hs Hid Hids];
    apply Z.ltb_ge in Ht as ->; unfold state_is; rewrite Hty.
  - apply str_in_spec in Hst. rewrite Hst. cbn. apply check_live_key_ok. eauto.
  - rewrite Hst. cbn. apply check_live_key_ok. eauto.
  - rewrite Hst. cbn. apply check_live_key_ok. eauto.
  - apply str_in_spec in Hst. rewrite Hst. cbn [andb String.eqb Ascii.eqb Bool.eqb].
    apply Z.eqb_neq in Hne as ->. apply Z.eqb_neq in Hnz as ->.
    apply String.eqb_neq in Hoa as ->. apply String.eqb_neq in Hna as ->.
    apply String.eqb_neq in Hnea as ->. cbn. rewrite Hk, Hs, Hid, Hids.
    by rewrite !Z.eqb_refl.
Qed.

(** ** Publication: lemmas *)

(** The TTLs a resolver may hold of the generation served before a
    confirmation: the served ones, or the published ones before the first. *)
Definition held_dnskey_ttl (z : ZoneState.t) : Z :=
  if ServedDNSKEYTTL z =? 0 then PublishedDNSKEYTTL z else ServedDNSKEYTTL z.
Definition held_rrsig_ttl (z : ZoneState.t) : Z :=
  if ServedMaxRRSIGTTL z =? 0 then PublishedMaxRRSIGTTL z else ServedMaxRRSIGTTL z.

Lemma ConfirmPublication_stale signedAt now z :
  signedAt < PublishedGenerationSignedAt z -> ConfirmPublication signedAt now z = z.
Proof. intros H. unfold ConfirmPublication. by apply Before_lt in H as ->. Qed.

Lemma ConfirmPublication_fresh signedAt now z :
  PublishedGenerationSignedAt z <= signedAt ->
  ConfirmPublication signedAt now z =
    ZoneState.mk (Revision z) (Path z) (Serial z) (PublishedSerial z) (LastSigned z)
      (SourceModTime z) (SourceSize z) (SourceDigest z) (SignaturesExp z)
      (PublishedDNSKEYTTL z) (PublishedMaxRRSIGTTL z)
      (if After (LastSigned z) signedAt then PendingPublication z else false)
      now signedAt (PublishedDNSKEYTTL z) (PublishedMaxRRSIGTTL z)
      (Z.max (DNSKEYCacheHorizon z) (now + seconds (held_dnskey_ttl z)))
      (Z.max (RRSIGCacheHorizon z) (now + seconds (held_rrsig_ttl z)))
      (KSK z) (ZSK z) (Rollover z) (Warnings z) (Errors z) (ForceResign z).
Proof.
  intros H. unfold ConfirmPublication. apply Before_ge in H as ->.
  cbv zeta. fold (held_dnskey_ttl z) (held_rrsig_ttl z).
  generalize (seconds (held_dnskey_ttl z)) (seconds (held_rrsig_ttl z)). intros d r.
  unfold TAdd. destruct z; cbn.
  repeat case_match; cbn in *; simplify_eq; bool_to_prop; time_to_prop; try congruence.
  all: f_equal; lia.
Qed.

(** What happens to a zone between two confirmations leaves the confirmed
    generation and its cache horizons alone. *)
Definition same_publication (z z' : ZoneState.t) : Prop :=
  DNSKEYCacheHorizon z' = DNSKEYCacheHorizon z /\ RRSIGCacheHorizon z' = RRSIGCacheHorizon z /\
  ServedDNSKEYTTL z' = ServedDNSKEYTTL z /\ ServedMaxRRSIGTTL z' = ServedMaxRRSIGTTL z /\
  PublishedGenerationSignedAt z' = PublishedGenerationSignedAt z.

(** The life of a zone's publication record: confirmations, and any other step. *)
Inductive pub_step : ZoneState.t -> ZoneState.t -> Prop :=
| pub_confirm signedAt now z : pub_step z (ConfirmPublication signedAt now z)
| pub_other z z' : same_publication z z' -> pub_step z z'.

Definition horizons_le (z z' : ZoneState.t) : Prop :=
  DNSKEYCacheHorizon z <= DNSKEYCacheHorizon z' /\ RRSIGCacheHorizon z <= RRSIGCacheHorizon z' /\
  PublishedGenerationSignedAt z <= PublishedGenerationSignedAt z'.

#[export] Instance horizons_le_po : PreOrder horizons_le.
Proof.
  split.
  - intros z. unfold horizons_le. repeat split; apply Z.le_refl.
  - intros x y z (?&?&?) (?&?&?). unfold horizons_le. repeat split; by etrans.
Qed.

Lemma pub_step_horizons z z' : pub_step z z' -> horizons_le z z'.
Proof.
  intros [signedAt now z0|z0 z0' (E1 & E2 & _ & _ & E5)].
  - destruct (Z.lt_ge_cases signedAt (PublishedGenerationSignedAt z0)).
    + by rewrite ConfirmPublication_stale.
    + rewrite ConfirmPublication_fresh by done. unfold horizons_le; cbn. lia.
  - unfold horizons_le. lia.
Qed.

Lemma pub_steps_horizons z z' : rtc pub_step z z' -> horizons_le z z'.
Proof. induction 1; [done | etrans; eauto using pub_step_horizons]. Qed.

(** ** Properties *)

(** The decision procedure [validateRolloverState] accepts exactly the
    well-formed records: a known kind and phase, a parent DS TTL within the DNS
    range, distinct generations, and the key that phase expects live. *)
Theorem validate_rollover_spec z r :
  validateRolloverState z r = Ok tt <-> rollover_wf z r.
Proof. split; [apply validateRolloverState_sound | apply validateRolloverState_complete]. Qed.

(** Cache safety over a zone's whole life: once a
    generation's confirmation has been recorded at [now], no later sequence of
    confirmations and other steps lowers the cache horizons below the time until
    which a resolver may hold the generation served before it, nor moves the
    confirmed generation back. *)
Theorem confirm_covers_history z signedAt now z' :
  PublishedGenerationSignedAt z <= signedAt ->
  rtc pub_step (ConfirmPublication signedAt now z) z' ->
  now + seconds (held_dnskey_ttl z) <= DNSKEYCacheHorizon z' /\
  now + seconds (held_rrsig_ttl z) <= RRSIGCacheHorizon z' /\
  signedAt <= PublishedGenerationSignedAt z'.
Proof.
  intros Hfresh Hs. apply pub_steps_horizons in Hs.
  rewrite ConfirmPublication_fresh in Hs by done. unfold horizons_le in Hs. cbn in Hs. lia.
Qed.

Lemma confirm_covers_history_witness :
  200 * Hour + 3600 * Second <=
  DNSKEYCacheHorizon (ConfirmPublication (150 * Hour) (300 * Hour) (ConfirmPublication (120 * Hour) (200 * Hour) sample_zone)).
Proof.
  refine (proj1 (confirm_covers_history sample_zone (120 * Hour) (200 * Hour) _ _ _)).
  - vm_compute. discriminate.
  - eapply rtc_l; [apply pub_confirm | apply rtc_refl].
Defined.
