(* ===== verification/StateStore.v ===== *)
(** * StateStore: the persistent state and its three-way merge
    (signer/internal/state/state.go)

    [State] is the Go struct: the zone map, the removal markers, whether the
    state file has been seen, and [base], the last disk image it synchronised
    with.  [Doc] is a parsed state file.  A [World] pairs a [State] with the
    file on disk and the outcomes the next writes will have.  Pointers: the live
    zone pointers the Go code mutates are the entries of [Zones]; [base] and a
    file are always deep copies there, so values model them exactly. *)

From stdpp Require Import base list strings gmap.
From Stdlib Require Import ZArith Lia.
From S2P Require Import Prelude GoTime ZoneState.
Import KeyState RolloverState ZoneState.
Local Open Scope Z_scope.
Local Open Scope sig_scope.

(** ** Comparing and copying field classes *)

Definition opt_eqb {A} (eqb : A -> A -> bool) (a b : option A) : bool :=
  match a, b with
  | Some a, Some b => eqb a b
  | None, None => true
  | _, _ => false
  end.

Definition signingEqual (a b : ZoneState.t) : bool :=
  String.eqb (Path a) (Path b) && (Serial a =? Serial b) && (PublishedSerial a =? PublishedSerial b)
  && TEqual (LastSigned a) (LastSigned b) && TEqual (SourceModTime a) (SourceModTime b)
  && (SourceSize a =? SourceSize b) && String.eqb (SourceDigest a) (SourceDigest b)
  && TEqual (SignaturesExp a) (SignaturesExp b)
  && (PublishedDNSKEYTTL a =? PublishedDNSKEYTTL b)
  && (PublishedMaxRRSIGTTL a =? PublishedMaxRRSIGTTL b).

Definition copySigning (dst src : ZoneState.t) : ZoneState.t :=
  dst <| Path := Path src |> <| Serial := Serial src |> <| PublishedSerial := PublishedSerial src |>
      <| LastSigned := LastSigned src |> <| SourceModTime := SourceModTime src |>
      <| SourceSize := SourceSize src |> <| SourceDigest := SourceDigest src |>
      <| SignaturesExp := SignaturesExp src |> <| PublishedDNSKEYTTL := PublishedDNSKEYTTL src |>
      <| PublishedMaxRRSIGTTL := PublishedMaxRRSIGTTL src |>.

Definition keyStateEqual (a b : option KeyState.t) : bool :=
  opt_eqb (fun a b =>
    (KeyState.ID a =? KeyState.ID b) && String.eqb (Algorithm a) (Algorithm b)
    && TEqual (Created a) (Created b) && TEqual (Expires a) (Expires b)
    && Bool.eqb (DSPublished a) (DSPublished b) && TEqual (RolloverDue a) (RolloverDue b)) a b.

Definition rolloverStateEqual (a b : option RolloverState.t) : bool :=
  opt_eqb (fun a b =>
    String.eqb (RType a) (RType b) && String.eqb (RState a) (RState b)
    && (OldKeyID a =? OldKeyID b) && (NewKeyID a =? NewKeyID b)
    && (OldZSKID a =? OldZSKID b) && (NewZSKID a =? NewZSKID b)
    && String.eqb (OldAlgorithm a) (OldAlgorithm b) && String.eqb (NewAlgorithm a) (NewAlgorithm b)
    && TEqual (Started a) (Started b) && TEqual (PhaseStarted a) (PhaseStarted b)
    && TEqual (PhaseFirstSigned a) (PhaseFirstSigned b) && TEqual (PhaseHorizon a) (PhaseHorizon b)
    && TEqual (DSObservedAt a) (DSObservedAt b) && (ParentDSTTL a =? ParentDSTTL b)
    && TEqual (OldDSRemovedAt a) (OldDSRemovedAt b)
    && TEqual (DSRemovalPushedAt a) (DSRemovalPushedAt b)
    && TEqual (DSAddPushedAt a) (DSAddPushedAt b) && String.eqb (Action a) (Action b)) a b.

Definition keysRolloverEqual (a b : ZoneState.t) : bool :=
  keyStateEqual (KSK a) (KSK b) && keyStateEqual (ZSK a) (ZSK b)
  && rolloverStateEqual (Rollover a) (Rollover b).

Definition copyKeysRollover (dst src : ZoneState.t) : ZoneState.t :=
  dst <| KSK := KSK src |> <| ZSK := ZSK src |> <| Rollover := Rollover src |>.

Definition publicationEqual (a b : ZoneState.t) : bool :=
  Bool.eqb (PendingPublication a) (PendingPublication b) && TEqual (PublishedAt a) (PublishedAt b)
  && TEqual (PublishedGenerationSignedAt a) (PublishedGenerationSignedAt b)
  && (ServedDNSKEYTTL a =? ServedDNSKEYTTL b) && (ServedMaxRRSIGTTL a =? ServedMaxRRSIGTTL b)
  && TEqual (DNSKEYCacheHorizon a) (DNSKEYCacheHorizon b)
  && TEqual (RRSIGCacheHorizon a) (RRSIGCacheHorizon b).

Definition copyPublication (dst src : ZoneState.t) : ZoneState.t :=
  dst <| PendingPublication := PendingPublication src |> <| PublishedAt := PublishedAt src |>
      <| PublishedGenerationSignedAt := PublishedGenerationSignedAt src |>
      <| ServedDNSKEYTTL := ServedDNSKEYTTL src |> <| ServedMaxRRSIGTTL := ServedMaxRRSIGTTL src |>
      <| DNSKEYCacheHorizon := DNSKEYCacheHorizon src |>
      <| RRSIGCacheHorizon := RRSIGCacheHorizon src |>.

Definition laterTime (a b : Time) : Time := if After b a then b else a.

Definition mergePublication (out disk mem : ZoneState.t) : ZoneState.t :=
  let win := if After (PublishedGenerationSignedAt mem) (PublishedGenerationSignedAt disk)
             then mem else disk in
  let out := out <| PublishedAt := PublishedAt win |>
                 <| PublishedGenerationSignedAt := PublishedGenerationSignedAt win |>
                 <| ServedDNSKEYTTL := ServedDNSKEYTTL win |>
                 <| ServedMaxRRSIGTTL := ServedMaxRRSIGTTL win |>
                 <| DNSKEYCacheHorizon := laterTime (DNSKEYCacheHorizon disk) (DNSKEYCacheHorizon mem) |>
                 <| RRSIGCacheHorizon := laterTime (RRSIGCacheHorizon disk) (RRSIGCacheHorizon mem) |> in
  out <| PendingPublication := After (LastSigned out) (PublishedGenerationSignedAt out) |>.

Fixpoint stringsEqual (a b : list string) : bool :=
  match a, b with
  | [], [] => true
  | x :: a, y :: b => String.eqb x y && stringsEqual a b
  | _, _ => false
  end.

Definition diagnosticsEqual (a b : ZoneState.t) : bool :=
  stringsEqual (Warnings a) (Warnings b) && stringsEqual (Errors a) (Errors b).

(** [strings.Index(e, ": ")]: what precedes the first ": ", if non-empty. *)
Fixpoint before_colon (s : string) : option string :=
  match s with
  | EmptyString => None
  | String c s' =>
      if HasPrefix s ": " then Some ""
      else match before_colon s' with
           | Some p => Some (String c p)
           | None => None
           end
  end.

Definition operationOf (e : string) : option string :=
  match before_colon e with
  | Some "" => None
  | o => o
  end.

(** The disk additions of [mergeDiagnostics], appended one by one. *)
Definition add_disk_diag (base : list string) (opScoped : bool) (out : list string) (d : string)
    : list string :=
  if negb (str_in base d) && negb (str_in out d) then
    let out :=
      if opScoped then
        match operationOf d with
        | Some op =>
            List.filter (fun x => match operationOf x with
                                  | Some xo => negb (String.eqb xo op)
                                  | None => true
                                  end) out
        | None => out
        end
      else out in
    out ++ [d]
  else out.

Definition mergeDiagnostics (base disk mem : list string) (opScoped : bool) : list string :=
  fold_left (add_disk_diag base opScoped) disk
    (List.filter (fun m => str_in disk m || negb (str_in base m)) mem).

Definition zoneContentEqual (a b : ZoneState.t) : bool :=
  signingEqual a b && keysRolloverEqual a b && publicationEqual a b && diagnosticsEqual a b
  && Bool.eqb (ForceResign a) (ForceResign b).

(** ** [mergeZone] *)

(** The steps of the merge of a zone both sides changed, in the order
    [mergeZone] applies them to its clone of the memory value. *)

Definition merge_revision (disk out : ZoneState.t) : ZoneState.t :=
  if Revision out <? Revision disk then out <| Revision := Revision disk |> else out.

(** Signing: the later generation wins; on a tie the disk (later actor). *)
Definition signFromDisk (base disk mem : ZoneState.t) : bool :=
  let dSign := negb (signingEqual disk base) in
  let mSign := negb (signingEqual mem base) in
  dSign && (negb mSign || negb (Before (LastSigned disk) (LastSigned mem))).

Definition merge_signing (base disk mem out : ZoneState.t) : ZoneState.t :=
  if signFromDisk base disk mem then copySigning out disk else out.

(** Keys and rollover record: a disk-side transition is adopted. *)
Definition dKeys (base disk : ZoneState.t) : bool := negb (keysRolloverEqual disk base).

Definition merge_keys (base disk out : ZoneState.t) : ZoneState.t :=
  if dKeys base disk then copyKeysRollover out disk else out.

Definition recompute_pending (out : ZoneState.t) : ZoneState.t :=
  out <| PendingPublication := After (LastSigned out) (PublishedGenerationSignedAt out) |>.

Definition merge_publication_class (base disk mem out : ZoneState.t) : ZoneState.t :=
  let dPub := negb (publicationEqual disk base) in
  let mPub := negb (publicationEqual mem base) in
  if dPub && negb mPub then
    let out := copyPublication out disk in
    if negb (signFromDisk base disk mem) then recompute_pending out else out
  else if dPub && mPub then mergePublication out disk mem
  else if negb dPub && mPub && signFromDisk base disk mem then recompute_pending out
  else out.

Definition merge_diagnostics_class (base disk mem out : ZoneState.t) : ZoneState.t :=
  if negb (diagnosticsEqual disk base) then
    out <| Warnings := mergeDiagnostics (Warnings base) (Warnings disk) (Warnings mem) false |>
        <| Errors := mergeDiagnostics (Errors base) (Errors disk) (Errors mem) true |>
  else out.

(** ForceResign: a side that set it wins; a key/rollover conflict sets it. *)
Definition merge_force (base disk mem out : ZoneState.t) : ZoneState.t :=
  let dForce := negb (Bool.eqb (ForceResign disk) (ForceResign base)) in
  let mForce := negb (Bool.eqb (ForceResign mem) (ForceResign base)) in
  let keyConflict := dKeys base disk && dKeys base mem in
  if keyConflict then out <| ForceResign := true |>
  else if dForce && mForce then out <| ForceResign := ForceResign disk || ForceResign mem |>
  else if dForce then out <| ForceResign := ForceResign disk |>
  else out.

Definition diskChanged (base disk : ZoneState.t) : bool :=
  negb (Revision disk =? Revision base) || negb (zoneContentEqual disk base).

Definition mergeZone (base disk mem : ZoneState.t) : ZoneState.t :=
  if negb (diskChanged base disk) then mem
  else if zoneContentEqual mem base then disk
  else
    let out := merge_revision disk mem in
    let out := merge_signing base disk mem out in
    let out := merge_keys base disk out in
    let out := merge_publication_class base disk mem out in
    let out := merge_diagnostics_class base disk mem out in
    merge_force base disk mem out.

(** ** The in-memory state, the file and the world *)

Record State := mkState {
  Zones : gmap string ZoneState.t;
  Removed : gmap string Time;
  fileSeen : bool;
  base : gmap string ZoneState.t
}.
#[export] Instance eta_State : Eta State.
Proof. refine {| eta s := mkState (Zones s) (Removed s) (fileSeen s) (base s) |}. by intros []. Defined.

(** A parsed state document: a null or missing map is [None], a null entry too. *)
Record Doc := mkDoc {
  doc_zones : option (gmap string (option ZoneState.t));
  doc_removed : option (gmap string Time)
}.

(** What [os.ReadFile] and [json.Unmarshal] find at the state path. *)
Inductive file := FAbsent | FUnreadable | FGarbage | FDoc (d : Doc).

(** What the next atomic write will do: succeed, succeed without a confirmed
    directory sync ([DurabilityError]), or fail leaving the file alone. *)
Inductive write_outcome := WOk | WUncertain | WFailed.

Record World := mkWorld { mem : State; disk : file; writes : list write_outcome }.
#[export] Instance eta_World : Eta World.
Proof. refine {| eta w := mkWorld (mem w) (disk w) (writes w) |}. by intros []. Defined.

Inductive store_error :=
| StateFileMissing
| ReadFailed
| ParseFailed
| InvalidDoc (e : state_error)
| MarshalFailed
| WriteFailed
| WriteUncertain.

(** [fsutil.IsCommitted]: the error is a [DurabilityError]. *)
Definition IsCommitted (e : store_error) : bool :=
  match e with WriteUncertain => true | _ => false end.

Definition NewState : State := mkState ∅ ∅ false ∅.

Definition syncBaseLocked (s : State) : State := s <| base := Zones s |>.

Definition BaseRevision (domain : string) (s : State) : Z :=
  match base s !! domain with Some b => Revision b | None => 0 end.

(** The document [json.MarshalIndent] writes for a state. *)
Definition marshal (s : State) : Doc := mkDoc (Some (Some <$> Zones s)) (Some (Removed s)).

(** [json.Marshal] refuses a time whose year is outside [0, 9999]; times here
    start at year 1. *)
Definition json_time_limit : Time := 315537897600 * Second.
Definition time_marshals (t : Time) : bool := (- (366 * 86400 * Second) <=? t) && (t <? json_time_limit).
Definition zone_marshals (z : ZoneState.t) : bool :=
  let key k := [Created k; Expires k; RolloverDue k] in
  let roll r := [Started r; PhaseStarted r; PhaseFirstSigned r; PhaseHorizon r; DSObservedAt r;
                 OldDSRemovedAt r; DSRemovalPushedAt r; DSAddPushedAt r] in
  forallb time_marshals
    ([LastSigned z; SourceModTime z; SignaturesExp z; PublishedAt z; PublishedGenerationSignedAt z;
      DNSKEYCacheHorizon z; RRSIGCacheHorizon z]
     ++ from_option key [] (KSK z) ++ from_option key [] (ZSK z) ++ from_option roll [] (Rollover z)).
Definition marshals (s : State) : bool :=
  forallb (fun p => zone_marshals (snd p)) (map_to_list (Zones s))
  && forallb (fun p => time_marshals (snd p)) (map_to_list (Removed s)).

(** ** Loading *)

Section validation.
Context (IsDomainName : string -> bool).

(** The first failing entry in iteration order decides the error; Go's order
    is unspecified, so only whether there is an error is meaningful. *)
Definition validate_zones (m : gmap string (option ZoneState.t)) : res state_error unit :=
  fold_right (fun p r => check (validateZoneEntry IsDomainName (fst p) (snd p)); r)
    (Ok tt) (map_to_list m).

Definition validate_removed (m : gmap string Time) : res state_error unit :=
  if existsb (fun p => String.eqb (TrimSpace (fst p)) "") (map_to_list m)
  then Err EmptyRemovedName else Ok tt.

(** [validateAndNormalize] of a parsed document: its zones and markers. *)
Definition validateAndNormalize (d : Doc)
    : res state_error (gmap string ZoneState.t * gmap string Time) :=
  let zones := from_option id ∅ (doc_zones d) in
  let removed := from_option id ∅ (doc_removed d) in
  check (validate_removed removed);
  check (validate_zones zones);
  Ok (omap id zones, removed).

Definition LoadState (f : file) : res store_error State :=
  match f with
  | FAbsent => Ok NewState
  | FUnreadable => Err ReadFailed
  | FGarbage => Err ParseFailed
  | FDoc d =>
      match validateAndNormalize d with
      | Err e => Err (InvalidDoc e)
      | Ok (zones, removed) => Ok (syncBaseLocked (mkState zones removed true ∅))
      end
  end.

(** [readDiskLocked]: [None] when the file never existed. *)
Definition readDiskLocked (s : State) (f : file)
    : res store_error (option (gmap string ZoneState.t * gmap string Time)) :=
  match f with
  | FAbsent => if fileSeen s then Err StateFileMissing else Ok None
  | FUnreadable => Err ReadFailed
  | FGarbage => Err ParseFailed
  | FDoc d =>
      match validateAndNormalize d with
      | Err e => Err (InvalidDoc e)
      | Ok p => Ok (Some p)
      end
  end.

Definition ReplaceFromDisk : St World store_error unit := fun w =>
  match readDiskLocked (mem w) (disk w) with
  | Err e => (Err e, w)
  | Ok None => (Ok tt, w)
  | Ok (Some (zones, removed)) =>
      (Ok tt, w <| mem := syncBaseLocked (mkState zones removed true (base (mem w))) |>)
  end.

(** The loops of [ReloadFromDisk], in order. *)
Definition adopt_marker (dz : gmap string ZoneState.t) (domain : string) (at_ : Time) (s : State)
    : State :=
  match dz !! domain with
  | Some _ => s
  | None =>
      match Zones s !! domain with
      | Some memZone =>
          if After (LastSigned memZone) at_ then
            s <| Removed := delete domain (Removed s) |>
          else
            let s := s <| Zones := delete domain (Zones s) |> in
            s <| Removed := <[domain := at_]> (Removed s) |>
      | None => s <| Removed := <[domain := at_]> (Removed s) |>
      end
  end.

Definition drop_marker (dz : gmap string ZoneState.t) (domain : string) (_ : Time) (s : State)
    : State :=
  match dz !! domain with
  | Some _ => s <| Removed := delete domain (Removed s) |>
  | None => s
  end.

Definition merge_one (domain : string) (diskZone : ZoneState.t) (s : State) : State :=
  match Zones s !! domain, base s !! domain with
  | None, _ => s <| Zones := <[domain := diskZone]> (Zones s) |>
  | Some _, None => s <| Zones := <[domain := diskZone]> (Zones s) |>
  | Some memZone, Some baseZone =>
      s <| Zones := <[domain := mergeZone baseZone diskZone memZone]> (Zones s) |>
  end.

Definition drop_lost (dz : gmap string ZoneState.t) (domain : string) (memZone : ZoneState.t)
    (s : State) : State :=
  match dz !! domain with
  | Some _ => s
  | None =>
      match base s !! domain with
      | Some baseZone =>
          if zoneContentEqual memZone baseZone
          then s <| Zones := delete domain (Zones s) |> else s
      | None => s
      end
  end.

Definition merge_disk (dz : gmap string ZoneState.t) (dr : gmap string Time) (s : State) : State :=
  let s := s <| fileSeen := true |> in
  let s := map_fold (adopt_marker dz) s dr in
  let s := map_fold (drop_marker dz) s (Removed s) in
  let s := map_fold merge_one s dz in
  let s := map_fold (drop_lost dz) s (Zones s) in
  s <| base := dz |>.

Definition ReloadFromDisk : St World store_error unit := fun w =>
  match readDiskLocked (mem w) (disk w) with
  | Err e => (Err e, w)
  | Ok None => (Ok tt, w)
  | Ok (Some (dz, dr)) => (Ok tt, w <| mem := merge_disk dz dr (mem w) |>)
  end.
End validation.

(** ** Saving *)

Definition uint64_mod (z : Z) : Z := z mod 2 ^ 64.

(** The revision [Save] gives a zone whose content differs from its base. *)
Definition bump_revision (b : option ZoneState.t) (z : ZoneState.t) : ZoneState.t :=
  let changed := match b with Some b => negb (zoneContentEqual z b) | None => true end in
  if changed then
    let next := Revision z in
    let next := match b with
                | Some b => if next <? Revision b then Revision b else next
                | None => next
                end in
    z <| Revision := uint64_mod (next + 1) |>
  else z.

Definition bump_all (s : State) : State :=
  s <| Zones := map_imap (fun name z => Some (bump_revision (base s !! name) z)) (Zones s) |>.

Definition next_write : St World store_error write_outcome := fun w =>
  match writes w with
  | [] => (Ok WOk, w)
  | o :: os => (Ok o, w <| writes := os |>)
  end.

Definition Save : St World store_error unit :=
  modify (fun w => w <| mem := bump_all (mem w) |>) ;;;
  s <-- gets mem ;;
  if negb (marshals s) then fail MarshalFailed
  else
    o <-- next_write ;;
    match o with
    | WFailed => fail WriteFailed
    | WOk | WUncertain =>
        modify (fun w => w <| disk := FDoc (marshal s) |>) ;;;
        modify (fun w => w <| mem := syncBaseLocked ((mem w) <| fileSeen := true |>) |>) ;;;
        match o with WUncertain => fail WriteUncertain | _ => ret tt end
    end.

(** ** Accessors and removal markers *)

Definition GetZone (domain : string) (s : State) : option ZoneState.t := Zones s !! domain.
Definition UpdateZone (domain : string) (fn : ZoneState.t -> ZoneState.t) (s : State) : State :=
  s <| Zones := alter fn domain (Zones s) |>.
Definition SetZone (domain : string) (z : ZoneState.t) (s : State) : State :=
  s <| Zones := <[domain := z]> (Zones s) |>.
Definition RemoveZone (domain : string) (s : State) : State :=
  s <| Zones := delete domain (Zones s) |>.
Definition MarkRemoved (now : Time) (domain : string) (s : State) : State :=
  let s := RemoveZone domain s in s <| Removed := <[domain := now]> (Removed s) |>.
Definition RestoreRemoved (domain : string) (at_ : Time) (s : State) : State :=
  s <| Removed := <[domain := at_]> (Removed s) |>.
Definition ClearRemoved (domain : string) (s : State) : State :=
  s <| Removed := delete domain (Removed s) |>.
Definition RemovedAt (domain : string) (s : State) : option Time := Removed s !! domain.
(** Copies: a value of the model is its own deep copy. *)
Definition GetZoneCopy (domain : string) (s : State) : option ZoneState.t := GetZone domain s.
Definition SnapshotZones (s : State) : gmap string ZoneState.t := Zones s.
(** In Go's map order, which is not specified: as a set. *)
Definition ZoneNames (s : State) : gset string := dom (Zones s).
