(* ===== verification/StateMerge.v ===== *)
(** * StateMerge: what the three-way merge, the save and the reload guarantee

    Theorems about StateStore.v: the field-class comparison is complete, the
    merge keeps unsaved and foreign work, horizons never drop, a pending
    publication is never hidden, diagnostics merge as sets, a failed reload
    changes nothing, a saved state reloads as itself, and every reload is the
    pointwise merge of the zones. *)

From stdpp Require Import base list strings gmap relations.
From Stdlib Require Import ZArith Lia.
From S2P Require Import Prelude GoTime ZoneState StateStore.
Import KeyState RolloverState ZoneState.
Local Open Scope Z_scope.
Local Open Scope sig_scope.

(** ** The class comparisons decide equality of the class *)

Lemma stringsEqual_eq a b : stringsEqual a b = true <-> a = b.
Proof.
  revert b. induction a as [|x a IH]; intros [|y b]; cbn; try done.
  rewrite andb_true_iff, String.eqb_eq, IH. by split; [intros [-> ->] | intros [= -> ->]].
Qed.

Ltac split_eqbs :=
  repeat match goal with
  | H : (_ && _)%bool = true |- _ => apply andb_true_iff in H as [? ?]
  | H : Bool.eqb _ _ = true |- _ => apply Bool.eqb_prop in H
  | H : stringsEqual _ _ = true |- _ => apply stringsEqual_eq in H
  | H : String.eqb _ _ = true |- _ => apply String.eqb_eq in H
  | H : TEqual _ _ = true |- _ => apply TEqual_eq in H
  | H : (_ =? _) = true |- _ => apply Z.eqb_eq in H
  end.

Lemma TEqual_refl t : TEqual t t = true.
Proof. apply Z.eqb_refl. Qed.

(** Reflexivity of a conjunction of field comparisons. *)
Ltac solve_eqb_refl :=
  repeat (apply andb_true_intro; split);
  first [apply String.eqb_refl | apply TEqual_refl | apply Z.eqb_refl | apply Bool.eqb_reflx].

Lemma opt_eqb_eq {A} (eqb : A -> A -> bool) a b :
  (forall x y, eqb x y = true <-> x = y) -> opt_eqb eqb a b = true <-> a = b.
Proof.
  intros Heq. destruct a, b; cbn; try done. rewrite Heq.
  by split; [intros -> | intros [= ->]].
Qed.

Lemma keyStateEqual_eq a b : keyStateEqual a b = true <-> a = b.
Proof.
  apply opt_eqb_eq. intros x y. split.
  - intros H. split_eqbs. destruct x, y; cbn in *. by subst.
  - intros <-. solve_eqb_refl.
Qed.

Lemma rolloverStateEqual_eq a b : rolloverStateEqual a b = true <-> a = b.
Proof.
  apply opt_eqb_eq. intros x y. split.
  - intros H. split_eqbs. destruct x, y; cbn in *. by subst.
  - intros <-. solve_eqb_refl.
Qed.

Lemma signingEqual_refl z : signingEqual z z = true.
Proof. unfold signingEqual. solve_eqb_refl. Qed.
Lemma publicationEqual_refl z : publicationEqual z z = true.
Proof. unfold publicationEqual. solve_eqb_refl. Qed.
Lemma diagnosticsEqual_refl z : diagnosticsEqual z z = true.
Proof.
  unfold diagnosticsEqual. apply andb_true_iff. split; by apply stringsEqual_eq.
Qed.
Lemma keysRolloverEqual_refl z : keysRolloverEqual z z = true.
Proof.
  unfold keysRolloverEqual. rewrite !andb_true_iff.
  repeat split; [by apply keyStateEqual_eq .. | by apply rolloverStateEqual_eq].
Qed.

Lemma zoneContentEqual_refl z : zoneContentEqual z z = true.
Proof.
  unfold zoneContentEqual. rewrite signingEqual_refl, keysRolloverEqual_refl,
    publicationEqual_refl, diagnosticsEqual_refl. by destruct (ForceResign z).
Qed.

(** [a] and [b] agree on everything but the revision. *)
Definition same_content (a b : ZoneState.t) : Prop := a <| Revision := Revision b |> = b.

Lemma zoneContentEqual_same a b : zoneContentEqual a b = true <-> same_content a b.
Proof.
  split.
  - intros H. unfold zoneContentEqual, signingEqual, publicationEqual, keysRolloverEqual,
      diagnosticsEqual in H.
    destruct (keyStateEqual (KSK a) (KSK b)) eqn:E1; [|by rewrite !andb_false_r in H].
    apply keyStateEqual_eq in E1.
    destruct (keyStateEqual (ZSK a) (ZSK b)) eqn:E2; [|by rewrite !andb_false_r in H].
    apply keyStateEqual_eq in E2.
    destruct (rolloverStateEqual (Rollover a) (Rollover b)) eqn:E3; [|by rewrite !andb_false_r in H].
    apply rolloverStateEqual_eq in E3.
    split_eqbs. destruct a, b; cbn in *. by subst.
  - intros H. unfold same_content in H. rewrite <- H.
    replace (zoneContentEqual a _) with (zoneContentEqual a a) by (by destruct a).
    apply zoneContentEqual_refl.
Qed.

#[export] Instance same_content_equiv : Equivalence same_content.
Proof.
  split.
  - intros z. by destruct z.
  - intros a b H. unfold same_content in *. rewrite <- H. by destruct a.
  - intros a b c H1 H2. unfold same_content in *. rewrite <- H2. rewrite <- H1. by destruct a.
Qed.

(** The comparisons respect that equivalence. *)
#[export] Instance zoneContentEqual_proper :
  Proper (same_content ==> same_content ==> eq) zoneContentEqual.
Proof.
  intros a a' Ha b b' Hb. apply eq_true_iff_eq. rewrite !zoneContentEqual_same.
  by rewrite Ha, Hb.
Qed.

(** ** What each step of the merge leaves alone *)

(** The conditional steps of a merge commute with the projections they keep. *)
Ltac merge_frame :=
  intros; cbv zeta; unfold merge_revision, merge_signing, merge_keys, merge_publication_class,
    merge_diagnostics_class, merge_force, copySigning, copyKeysRollover, copyPublication,
    mergePublication, recompute_pending;
  repeat (case_match; try reflexivity).

Section frames.
Context (b d m : ZoneState.t).

(** The head of the merge leaves the publication class to memory. *)
Lemma head_frame :
  let o := merge_keys b d (merge_signing b d m (merge_revision d m)) in
  DNSKEYCacheHorizon o = DNSKEYCacheHorizon m /\ RRSIGCacheHorizon o = RRSIGCacheHorizon m /\
  PendingPublication o = PendingPublication m /\
  PublishedGenerationSignedAt o = PublishedGenerationSignedAt m /\
  LastSigned o = if signFromDisk b d m then LastSigned d else LastSigned m.
Proof. cbv zeta. repeat split; merge_frame. Qed.

Lemma keys_of_head :
  let o := merge_keys b d (merge_signing b d m (merge_revision d m)) in
  (KSK o, ZSK o, Rollover o) =
    if dKeys b d then (KSK d, ZSK d, Rollover d) else (KSK m, ZSK m, Rollover m).
Proof. cbv zeta. merge_frame. Qed.

Lemma pub_keys o :
  let o' := merge_publication_class b d m o in
  (KSK o', ZSK o', Rollover o') = (KSK o, ZSK o, Rollover o).
Proof. cbv zeta. merge_frame. Qed.

(** The tail of the merge leaves keys, signing and publication alone. *)
Lemma tail_frame o :
  let o' := merge_force b d m (merge_diagnostics_class b d m o) in
  (KSK o', ZSK o', Rollover o') = (KSK o, ZSK o, Rollover o) /\ LastSigned o' = LastSigned o /\
  PendingPublication o' = PendingPublication o /\
  PublishedGenerationSignedAt o' = PublishedGenerationSignedAt o /\
  DNSKEYCacheHorizon o' = DNSKEYCacheHorizon o /\ RRSIGCacheHorizon o' = RRSIGCacheHorizon o.
Proof. cbv zeta. repeat split; merge_frame. Qed.
End frames.

(** ** The merged zone, class by class *)

Lemma mergeZone_conflict b d m :
  diskChanged b d = true -> zoneContentEqual m b = false ->
  mergeZone b d m =
    merge_force b d m (merge_diagnostics_class b d m (merge_publication_class b d m
      (merge_keys b d (merge_signing b d m (merge_revision d m))))).
Proof. intros H1 H2. unfold mergeZone. by rewrite H1, H2. Qed.

Lemma content_eq_fields a b :
  zoneContentEqual a b = true ->
  KSK a = KSK b /\ ZSK a = ZSK b /\ Rollover a = Rollover b /\ LastSigned a = LastSigned b /\
  PendingPublication a = PendingPublication b /\
  PublishedGenerationSignedAt a = PublishedGenerationSignedAt b /\
  DNSKEYCacheHorizon a = DNSKEYCacheHorizon b /\ RRSIGCacheHorizon a = RRSIGCacheHorizon b /\
  Warnings a = Warnings b /\ Errors a = Errors b.
Proof.
  intros H%zoneContentEqual_same. unfold same_content in H. rewrite <- H. by destruct a.
Qed.

Lemma disk_unchanged b d : diskChanged b d = false -> zoneContentEqual d b = true.
Proof. unfold diskChanged. intros H. bool_to_prop. done. Qed.

Lemma keysRolloverEqual_eq a b :
  keysRolloverEqual a b = true <-> KSK a = KSK b /\ ZSK a = ZSK b /\ Rollover a = Rollover b.
Proof.
  unfold keysRolloverEqual.
  rewrite !andb_true_iff, !keyStateEqual_eq, rolloverStateEqual_eq. tauto.
Qed.

Lemma publicationEqual_eq a b :
  publicationEqual a b = true ->
  PendingPublication a = PendingPublication b /\
  PublishedGenerationSignedAt a = PublishedGenerationSignedAt b /\
  DNSKEYCacheHorizon a = DNSKEYCacheHorizon b /\ RRSIGCacheHorizon a = RRSIGCacheHorizon b.
Proof. unfold publicationEqual. intros H. by split_eqbs. Qed.

Lemma signingEqual_LastSigned a b : signingEqual a b = true -> LastSigned a = LastSigned b.
Proof. unfold signingEqual. intros H. by split_eqbs. Qed.

Lemma laterTime_max a b : laterTime a b = Z.max a b.
Proof. unfold laterTime. destruct (After b a) eqn:E; time_to_prop; lia. Qed.

Lemma mergeZone_keys b d m :
  (KSK (mergeZone b d m), ZSK (mergeZone b d m), Rollover (mergeZone b d m)) =
    if dKeys b d then (KSK d, ZSK d, Rollover d) else (KSK m, ZSK m, Rollover m).
Proof.
  destruct (diskChanged b d) eqn:Ed.
  - destruct (zoneContentEqual m b) eqn:Em.
    + unfold mergeZone. rewrite Ed, Em. cbn. destruct (dKeys b d) eqn:Ek; [done|].
      apply negb_false_iff, keysRolloverEqual_eq in Ek as (-> & -> & ->).
      by apply content_eq_fields in Em as (-> & -> & -> & _).
    + rewrite mergeZone_conflict by done.
      destruct (tail_frame b d m (merge_publication_class b d m
        (merge_keys b d (merge_signing b d m (merge_revision d m))))) as [-> _].
      by rewrite pub_keys, keys_of_head.
  - unfold mergeZone. rewrite Ed. cbn.
    unfold dKeys. by rewrite (proj2 (keysRolloverEqual_eq d b))
      by (apply disk_unchanged, content_eq_fields in Ed; tauto).
Qed.

(** The cache horizons of the merged publication class. *)
Lemma pub_horizons b d m o :
  DNSKEYCacheHorizon o = DNSKEYCacheHorizon m -> RRSIGCacheHorizon o = RRSIGCacheHorizon m ->
  horizons_le b d -> horizons_le b m ->
  DNSKEYCacheHorizon (merge_publication_class b d m o) =
    Z.max (DNSKEYCacheHorizon d) (DNSKEYCacheHorizon m) /\
  RRSIGCacheHorizon (merge_publication_class b d m o) =
    Z.max (RRSIGCacheHorizon d) (RRSIGCacheHorizon m).
Proof.
  intros Ho1 Ho2 (Hd1 & Hd2 & _) (Hm1 & Hm2 & _).
  unfold merge_publication_class.
  destruct (publicationEqual d b) eqn:Ed; destruct (publicationEqual m b) eqn:Em;
    try (apply publicationEqual_eq in Ed as (_ & _ & Ed1 & Ed2));
    try (apply publicationEqual_eq in Em as (_ & _ & Em1 & Em2)); cbn.
  - rewrite Ho1, Ho2. lia.
  - destruct (signFromDisk b d m); cbn; rewrite Ho1, Ho2; lia.
  - destruct (signFromDisk b d m); cbn; lia.
  - rewrite !laterTime_max. lia.
Qed.

(** What "pending" promises: a zone not pending has its last signing served. *)
Definition pending_sound (z : ZoneState.t) : Prop :=
  PendingPublication z = false -> LastSigned z <= PublishedGenerationSignedAt z.

Lemma pub_pending b d m o :
  pending_sound d -> pending_sound m ->
  LastSigned o = (if signFromDisk b d m then LastSigned d else LastSigned m) ->
  PendingPublication o = PendingPublication m ->
  PublishedGenerationSignedAt o = PublishedGenerationSignedAt m ->
  pending_sound (merge_publication_class b d m o).
Proof.
  intros Hd Hm Hl Hp Hg. unfold pending_sound, merge_publication_class in *.
  destruct (publicationEqual d b) eqn:Ed; destruct (publicationEqual m b) eqn:Em;
    try (apply publicationEqual_eq in Ed as (Ed1 & Ed2 & _ & _));
    try (apply publicationEqual_eq in Em as (Em1 & Em2 & _ & _)); cbn;
    destruct (signFromDisk b d m); cbn; intros Hpend; time_to_prop;
    rewrite ?Hl, ?Hp, ?Hg in *; try congruence; try lia; eauto.
  all: rewrite Em2, <- Ed2; apply Hd; congruence.
Qed.

(** ** Diagnostics *)

Lemma add_disk_diag_plain base out d x :
  x ∈ add_disk_diag base false out d <-> x ∈ out \/ (x = d /\ x ∉ base).
Proof.
  unfold add_disk_diag.
  destruct (str_in base d) eqn:Eb; destruct (str_in out d) eqn:Eo; cbn;
    rewrite ?str_in_spec, ?str_in_false in *; set_solver.
Qed.

Lemma fold_disk_diag_plain base disk out x :
  x ∈ fold_left (add_disk_diag base false) disk out <-> x ∈ out \/ (x ∈ disk /\ x ∉ base).
Proof.
  revert out. induction disk as [|d disk IH]; intros out; cbn; [set_solver|].
  rewrite IH, add_disk_diag_plain. set_solver.
Qed.

(** Operation-scoped merging only ever drops more. *)
Lemma add_disk_diag_scoped base scoped out d x :
  x ∈ add_disk_diag base scoped out d -> x ∈ out \/ (x = d /\ x ∉ base).
Proof.
  unfold add_disk_diag.
  destruct (str_in base d) eqn:Eb; destruct (str_in out d); cbn; [by left | by left | by left |].
  apply str_in_false in Eb. rewrite elem_of_app, list_elem_of_singleton.
  intros [H|H]; [left | by right; subst].
  destruct scoped; [|done]. destruct (operationOf d); [|done].
  by apply filter_In_bool in H as [? _].
Qed.

Lemma fold_disk_diag_scoped base scoped disk out x :
  x ∈ fold_left (add_disk_diag base scoped) disk out -> x ∈ out \/ (x ∈ disk /\ x ∉ base).
Proof.
  revert out. induction disk as [|d disk IH]; intros out; cbn; [by left|].
  intros [H|H]%IH; [|set_solver]. apply add_disk_diag_scoped in H. set_solver.
Qed.

Lemma kept_mem_diag base disk mem x :
  x ∈ List.filter (fun m => str_in disk m || negb (str_in base m)) mem <->
  x ∈ mem /\ (x ∈ disk \/ x ∉ base).
Proof.
  rewrite filter_In_bool, orb_true_iff, negb_true_iff, str_in_spec, str_in_false. done.
Qed.

(** ** Reloading, zone by zone *)

(** The effect of the removal markers on one zone in memory. *)
Definition after_marker (disk : option ZoneState.t) (marker : option Time)
    (memz : option ZoneState.t) : option ZoneState.t :=
  match marker, disk, memz with
  | Some at_, None, Some z => if After (LastSigned z) at_ then Some z else None
  | _, _, _ => memz
  end.

(** The whole reload, seen from one zone: what the disk holds, its removal
    marker there, the base image and the value in memory. *)
Definition reload_zone (disk : option ZoneState.t) (marker : option Time)
    (basez memz : option ZoneState.t) : option ZoneState.t :=
  match disk, after_marker disk marker memz, basez with
  | Some d, Some m, Some b => Some (mergeZone b d m)
  | Some d, _, _ => Some d
  | None, Some m, Some b => if zoneContentEqual m b then None else Some m
  | None, m, _ => m
  end.

Lemma adopt_markers_zone dz dr s d :
  Zones (map_fold (adopt_marker dz) s dr) !! d = after_marker (dz !! d) (dr !! d) (Zones s !! d).
Proof.
  pose proof (map_fold_pointwise (adopt_marker dz) (fun d s => (dz !! d, Zones s !! d))
    (fun d at_ v => (v.1, after_marker v.1 (Some at_) v.2)) dr s d) as H.
  apply (f_equal snd) in H; cbn in H.
  - rewrite H. unfold after_marker. destruct (dr !! d); cbn; [done|]. by destruct (dz !! d).
  - clear H. intros i a s' Hne. unfold adopt_marker.
    repeat case_match; cbn; by rewrite ?lookup_delete_ne.
  - clear H. intros a s'. unfold adopt_marker, after_marker.
    destruct (dz !! d); [done|]. destruct (Zones s' !! d) eqn:E; cbn; [|by rewrite E].
    destruct (After _ _); cbn; [by rewrite E | by rewrite lookup_delete_eq].
Qed.

Lemma adopt_markers_base dz dr s : base (map_fold (adopt_marker dz) s dr) = base s.
Proof.
  refine (map_fold_weak_ind (fun s' _ => base s' = base s) _ s _ _ dr); [done|].
  intros i x m r _ IH. rewrite <- IH. unfold adopt_marker. by repeat case_match.
Qed.

Lemma drop_markers_zones dz s m :
  Zones (map_fold (drop_marker dz) s m) = Zones s /\ base (map_fold (drop_marker dz) s m) = base s.
Proof.
  refine (map_fold_weak_ind (fun s' _ => Zones s' = Zones s /\ base s' = base s) _ s _ _ m); [done|].
  intros i x m' r _ [<- <-]. unfold drop_marker. by repeat case_match.
Qed.

Lemma merge_zones_lookup dz s d :
  Zones (map_fold merge_one s dz) !! d =
    match dz !! d with
    | Some dk => match Zones s !! d, base s !! d with
                 | Some m, Some b => Some (mergeZone b dk m)
                 | _, _ => Some dk
                 end
    | None => Zones s !! d
    end.
Proof.
  pose proof (map_fold_pointwise merge_one (fun d s => (base s !! d, Zones s !! d))
    (fun d dk v => (v.1, match v.2, v.1 with
                         | Some m, Some b => Some (mergeZone b dk m)
                         | _, _ => Some dk
                         end)) dz s d) as H.
  apply (f_equal snd) in H; cbn in H.
  - rewrite H. by destruct (dz !! d).
  - clear H. intros i a s' Hne. unfold merge_one.
    repeat case_match; cbn; by rewrite lookup_insert_ne.
  - clear H. intros a s'. unfold merge_one.
    destruct (Zones s' !! d) eqn:E1; destruct (base s' !! d) eqn:E2; cbn;
      by rewrite ?lookup_insert_eq, ?E2.
Qed.

Lemma merge_zones_base dz s : base (map_fold merge_one s dz) = base s.
Proof.
  refine (map_fold_weak_ind (fun s' _ => base s' = base s) _ s _ _ dz); [done|].
  intros i x m r _ IH. rewrite <- IH. unfold merge_one. by repeat case_match.
Qed.

Lemma drop_lost_lookup dz s m d :
  Zones (map_fold (drop_lost dz) s m) !! d =
    match m !! d, dz !! d, base s !! d with
    | Some mz, None, Some b => if zoneContentEqual mz b then None else Zones s !! d
    | _, _, _ => Zones s !! d
    end.
Proof.
  pose proof (map_fold_pointwise (drop_lost dz) (fun d s => (base s !! d, Zones s !! d))
    (fun d mz v => (v.1, match dz !! d, v.1 with
                         | None, Some b => if zoneContentEqual mz b then None else v.2
                         | _, _ => v.2
                         end)) m s d) as H.
  apply (f_equal snd) in H; cbn in H.
  - rewrite H. by destruct (m !! d), (dz !! d), (base s !! d).
  - clear H. intros i a s' Hne. unfold drop_lost.
    repeat case_match; cbn; by rewrite ?lookup_delete_ne.
  - clear H. intros a s'. unfold drop_lost.
    destruct (dz !! d); [done|]. destruct (base s' !! d) eqn:E; cbn; [|by rewrite E].
    destruct (zoneContentEqual a _); cbn; by rewrite E, ?lookup_delete_eq.
Qed.

Lemma merge_disk_lookup dz dr s d :
  Zones (merge_disk dz dr s) !! d =
    reload_zone (dz !! d) (dr !! d) (base s !! d) (Zones s !! d).
Proof.
  unfold merge_disk. cbv zeta.
  set (s0 := s <| fileSeen := true |>). set (s1 := map_fold (adopt_marker dz) s0 dr).
  destruct (drop_markers_zones dz s1 (Removed s1)) as [E1 E2].
  set (s2 := map_fold (drop_marker dz) s1 (Removed s1)) in *.
  assert (Zones s1 !! d = after_marker (dz !! d) (dr !! d) (Zones s !! d)) as Hz
    by exact (adopt_markers_zone dz dr s0 d).
  assert (base s1 = base s) as Hb by exact (adopt_markers_base dz dr s0).
  match goal with |- Zones (?x <| base := _ |>) !! _ = _ =>
    change (Zones x !! d = reload_zone (dz !! d) (dr !! d) (base s !! d) (Zones s !! d)) end.
  rewrite drop_lost_lookup, !merge_zones_lookup, merge_zones_base, E1, E2, Hb, Hz.
  unfold reload_zone, after_marker.
  destruct (dz !! d), (dr !! d), (Zones s !! d), (base s !! d); cbn; try done;
    repeat case_match; congruence.
Qed.

Lemma merge_disk_base dz dr s : base (merge_disk dz dr s) = dz.
Proof. done. Qed.

Lemma mergeZone_refl b z : mergeZone b b z = z.
Proof. unfold mergeZone, diskChanged. by rewrite Z.eqb_refl, zoneContentEqual_refl. Qed.

Lemma merge_disk_idem dz dr s :
  Zones (merge_disk dz dr (merge_disk dz dr s)) = Zones (merge_disk dz dr s).
Proof.
  apply map_eq. intros i. rewrite merge_disk_lookup, merge_disk_base, merge_disk_lookup.
  unfold reload_zone, after_marker. destruct (dz !! i).
  - destruct (dr !! i), (Zones s !! i), (base s !! i); by rewrite ?mergeZone_refl.
  - destruct (dr !! i), (Zones s !! i), (base s !! i); cbn; try done;
      repeat (case_match; cbn in *; simplify_eq; try done); congruence.
Qed.

(** ** Validation and saving *)

Section store.
Context (IsDomainName : string -> bool).

Lemma validate_zones_ok m :
  validate_zones IsDomainName m = Ok tt <->
  forall name z, m !! name = Some z -> validateZoneEntry IsDomainName name z = Ok tt.
Proof.
  unfold validate_zones. setoid_rewrite <- elem_of_map_to_list.
  induction (map_to_list m) as [|[n z] l IH]; cbn; [set_solver|]. split.
  - intros H name z' [[= -> ->]|Hin]%elem_of_cons.
    + by destruct (validateZoneEntry _ n z) as [[]|].
    + apply IH; [|done]. by destruct (validateZoneEntry _ n z).
  - intros H. rewrite (H n z) by set_solver. cbn. apply IH. set_solver.
Qed.

(** A state whose document the loader accepts. *)
Definition store_valid (s : State) : Prop :=
  validateAndNormalize IsDomainName (marshal s) = Ok (Zones s, Removed s).

Lemma omap_some_id (m : gmap string ZoneState.t) : omap id (Some <$> m) = m.
Proof. apply map_eq. intros i. rewrite lookup_omap, lookup_fmap. by destruct (m !! i). Qed.

Lemma store_valid_iff s :
  store_valid s <->
  validate_removed (Removed s) = Ok tt /\
  forall name z, Zones s !! name = Some z ->
    validateZoneEntry IsDomainName name (Some z) = Ok tt.
Proof.
  unfold store_valid, validateAndNormalize. cbn. rewrite omap_some_id.
  assert (validate_zones IsDomainName (Some <$> Zones s) = Ok tt <->
    forall name z, Zones s !! name = Some z ->
      validateZoneEntry IsDomainName name (Some z) = Ok tt) as Hiff.
  { rewrite validate_zones_ok. setoid_rewrite lookup_fmap. split.
    - intros H name z Hz. apply H. by rewrite Hz.
    - intros H name oz Hz. destruct (Zones s !! name) eqn:E; cbn in Hz; simplify_eq. auto. }
  rewrite <- Hiff.
  destruct (validate_removed (Removed s)) as [[]|]; cbn; [|naive_solver].
  destruct (validate_zones IsDomainName _) as [[]|]; cbn; naive_solver.
Qed.

Lemma bump_revision_valid name b z :
  validateZoneEntry IsDomainName name (Some (bump_revision b z)) =
  validateZoneEntry IsDomainName name (Some z).
Proof. unfold bump_revision. by repeat case_match. Qed.

Lemma bump_all_lookup s d :
  Zones (bump_all s) !! d = bump_revision (base s !! d) <$> (Zones s !! d).
Proof. cbn. rewrite map_lookup_imap. by destruct (Zones s !! d). Qed.

Lemma bump_all_valid s : store_valid s -> store_valid (bump_all s).
Proof.
  rewrite !store_valid_iff. intros [Hr Hz]. split; [done|].
  intros name z. rewrite bump_all_lookup.
  destruct (Zones s !! name) eqn:E; cbn; [|done]. intros [= <-].
  rewrite bump_revision_valid. by apply Hz.
Qed.
End store.

(** A committed save: the document on disk is the state in memory, which is
    also the new base. *)
Lemma Save_committed w r w' :
  Save w = (r, w') -> (r = Ok tt \/ r = Err WriteUncertain) ->
  Zones (mem w') = Zones (bump_all (mem w)) /\ Removed (mem w') = Removed (mem w) /\
  base (mem w') = Zones (mem w') /\ fileSeen (mem w') = true /\ disk w' = FDoc (marshal (mem w')).
Proof.
  unfold Save, bind, modify, gets, next_write, fail, ret. cbn.
  destruct (marshals _); cbn; [|naive_solver].
  destruct w as [m d [|[] ws]]; cbn; intros [= <- <-]; naive_solver.
Qed.

Lemma Save_uncommitted w e w' :
  Save w = (Err e, w') -> IsCommitted e = false ->
  disk w' = disk w /\ mem w' = bump_all (mem w).
Proof.
  unfold Save, bind, modify, gets, next_write, fail, ret. cbn.
  destruct (marshals _); cbn.
  - destruct w as [m d [|[] ws]]; cbn; intros [= <- <-]; naive_solver.
  - intros [= <- <-]. done.
Qed.


(** ** Sample states for the concrete instances *)

Definition sample_mem : ZoneState.t := sample_zone <| Warnings := ["w"; "m"] |>.
Definition sample_disk : ZoneState.t :=
  sample_zone <| Revision := 5 |> <| KSK := Some (sample_key 33) |>
    <| DNSKEYCacheHorizon := 110 * Hour |> <| Warnings := ["d"] |>.
Definition sample_names (s : string) : bool := Nat.leb (String.length s) 255.
Definition sample_store : World :=
  mkWorld (mkState {["a.example" := sample_mem]} ∅ true {["a.example" := sample_zone]})
    (FDoc (mkDoc (Some {["a.example" := Some sample_disk]}) None)) [].

(** ** Properties *)

(** The merge's notion of "changed" is complete: two zone records
    compare equal exactly when they agree on every persisted field except the
    revision, so no field lies outside the field classes. *)
Theorem content_equal_complete a b :
  zoneContentEqual a b = true <-> a <| Revision := Revision b |> = b.
Proof. apply zoneContentEqual_same. Qed.

(** A merge discards nobody's work: a zone the disk did not change keeps
    its memory value, unsaved changes included, and a zone memory did not change
    adopts the disk value. *)
Theorem merge_no_lost_update b d m :
  (diskChanged b d = false -> mergeZone b d m = m) /\
  (diskChanged b d = true -> zoneContentEqual m b = true -> mergeZone b d m = d).
Proof. unfold mergeZone. split; [by intros -> | by intros -> ->]. Qed.

(** C31: The keys and the rollover record are never mixed: all three come
    from the disk when the disk changed any of them and from memory otherwise,
    and when both sides changed them the zone is marked for a re-sign. *)
Theorem merge_keys_consistent b d m :
  (KSK (mergeZone b d m), ZSK (mergeZone b d m), Rollover (mergeZone b d m)) =
    (if dKeys b d then (KSK d, ZSK d, Rollover d) else (KSK m, ZSK m, Rollover m)) /\
  (dKeys b d = true -> dKeys b m = true -> ForceResign (mergeZone b d m) = true).
Proof.
  split; [apply mergeZone_keys|]. intros Hd Hm.
  destruct (diskChanged b d) eqn:Ed.
  - destruct (zoneContentEqual m b) eqn:Em.
    + apply content_eq_fields in Em. unfold dKeys in Hm.
      rewrite (proj2 (keysRolloverEqual_eq m b)) in Hm by tauto. done.
    + rewrite mergeZone_conflict by done. unfold merge_force. by rewrite Hd, Hm.
  - apply disk_unchanged, content_eq_fields in Ed. unfold dKeys in Hd.
    rewrite (proj2 (keysRolloverEqual_eq d b)) in Hd by tauto. done.
Qed.

(** The merged cache horizons are the later of the two sides'
    whenever both only raised them since they last agreed. *)
Theorem merge_horizons_never_lowered b d m :
  horizons_le b d -> horizons_le b m ->
  DNSKEYCacheHorizon (mergeZone b d m) = Z.max (DNSKEYCacheHorizon d) (DNSKEYCacheHorizon m) /\
  RRSIGCacheHorizon (mergeZone b d m) = Z.max (RRSIGCacheHorizon d) (RRSIGCacheHorizon m).
Proof.
  intros Hd Hm. destruct (diskChanged b d) eqn:Ed.
  - destruct (zoneContentEqual m b) eqn:Em.
    + unfold mergeZone. rewrite Ed, Em. cbn. apply content_eq_fields in Em.
      destruct Hd as (? & ? & _). destruct Em as (_&_&_&_&_&_&->&->&_). lia.
    + rewrite mergeZone_conflict by done.
      destruct (head_frame b d m) as (Ho1 & Ho2 & _).
      set (o := merge_keys b d _) in *.
      destruct (tail_frame b d m (merge_publication_class b d m o)) as (_&_&_&_&->&->).
      by apply pub_horizons.
  - unfold mergeZone. rewrite Ed. cbn. apply disk_unchanged, content_eq_fields in Ed.
    destruct Hm as (? & ? & _). destruct Ed as (_&_&_&_&_&_&->&->&_). lia.
Qed.

Lemma merge_horizons_never_lowered_witness :
  DNSKEYCacheHorizon (mergeZone sample_zone sample_disk sample_mem) = 110 * Hour.
Proof.
  refine (eq_trans (proj1 (merge_horizons_never_lowered sample_zone sample_disk sample_mem _ _)) _);
    [vm_compute; intuition discriminate | vm_compute; intuition discriminate | reflexivity].
Defined.

(** A merge never reports an unserved signing as served: if on both
    sides "not pending" implies that the last signing has been confirmed served,
    the same holds of the merged zone, whichever sides its signing and its
    publication fields come from. *)
Theorem merge_pending_sound b d m :
  pending_sound d -> pending_sound m -> pending_sound (mergeZone b d m).
Proof.
  intros Hd Hm. destruct (diskChanged b d) eqn:Ed.
  - destruct (zoneContentEqual m b) eqn:Em.
    + unfold mergeZone. by rewrite Ed, Em.
    + rewrite mergeZone_conflict by done.
      destruct (head_frame b d m) as (_ & _ & Hp & Hg & Hl).
      set (o := merge_keys b d _) in *.
      pose proof (pub_pending b d m o Hd Hm Hl Hp Hg) as Hs.
      destruct (tail_frame b d m (merge_publication_class b d m o)) as (_&E1&E2&E3&_).
      unfold pending_sound in *. by rewrite E1, E2, E3.
  - unfold mergeZone. by rewrite Ed.
Qed.

Lemma merge_pending_sound_witness :
  pending_sound (mergeZone sample_zone sample_disk sample_mem).
Proof. apply merge_pending_sound; vm_compute; intros _; discriminate. Defined.

(** Warnings merge as a three-way set: one survives exactly when both
    sides hold it or one side added it. *)
Theorem merge_diagnostics_three_way base disk mem x :
  x ∈ mergeDiagnostics base disk mem false <->
  (x ∈ mem /\ x ∈ disk) \/ (x ∈ mem /\ x ∉ base) \/ (x ∈ disk /\ x ∉ base).
Proof.
  unfold mergeDiagnostics. rewrite fold_disk_diag_plain, kept_mem_diag. tauto.
Qed.

(** An entry either side removed stays removed, in the plain merge of
    warnings and in the operation-scoped merge of errors. *)
Theorem merge_diagnostics_removed base disk mem scoped x :
  x ∈ base -> x ∉ disk \/ x ∉ mem -> x ∉ mergeDiagnostics base disk mem scoped.
Proof.
  intros Hb Hr H. unfold mergeDiagnostics in H. apply fold_disk_diag_scoped in H as [H|[_ H]].
  - apply kept_mem_diag in H. tauto.
  - done.
Qed.

Lemma merge_diagnostics_removed_witness :
  "w" ∉ mergeDiagnostics ["w"] ["d"] ["w"; "m"] true.
Proof.
  apply merge_diagnostics_removed; [|left]; rewrite <- ?str_in_false, <- ?str_in_spec; reflexivity.
Defined.

(** [ReloadFromDisk] of a valid document is the pointwise merge of the
    zones, whatever the iteration order of its loops, and makes the document the
    new base. *)
Theorem reload_pointwise IsDomainName w d zones removed :
  disk w = FDoc d -> validateAndNormalize IsDomainName d = Ok (zones, removed) ->
  exists w', ReloadFromDisk IsDomainName w = (Ok tt, w') /\
    base (mem w') = zones /\ disk w' = disk w /\
    forall domain, Zones (mem w') !! domain =
      reload_zone (zones !! domain) (removed !! domain)
                  (base (mem w) !! domain) (Zones (mem w) !! domain).
Proof.
  intros Hd Hv. unfold ReloadFromDisk, readDiskLocked. rewrite Hd, Hv.
  eexists. split; [done|]. split; [done|]. split; [done|].
  intros domain. apply merge_disk_lookup.
Qed.

Lemma reload_pointwise_witness :
  exists w', ReloadFromDisk sample_names sample_store = (Ok tt, w') /\
    Zones (mem w') !! "a.example" = Some (mergeZone sample_zone sample_disk sample_mem).
Proof.
  edestruct (reload_pointwise sample_names sample_store
    (mkDoc (Some {["a.example" := Some sample_disk]}) None) {["a.example" := sample_disk]} ∅)
    as (w' & Hw & _ & _ & Hz); [reflexivity | vm_compute; reflexivity |].
  exists w'. split; [exact Hw|]. rewrite Hz. vm_compute. reflexivity.
Defined.

(** A reload or a replace that fails (file gone, unreadable, not JSON, or
    breaking the persistence rules) changes neither the memory nor the disk. *)
Theorem reload_fail_closed IsDomainName w e w' :
  ReloadFromDisk IsDomainName w = (Err e, w') \/ ReplaceFromDisk IsDomainName w = (Err e, w') ->
  w' = w.
Proof.
  unfold ReloadFromDisk, ReplaceFromDisk.
  destruct (readDiskLocked _ _ _) as [[[]|]|]; naive_solver.
Qed.

Lemma reload_fail_closed_witness :
  exists w', ReloadFromDisk sample_names (sample_store <| disk := FGarbage |>) = (Err ParseFailed, w') /\
    mem w' = mem sample_store /\ disk w' = FGarbage.
Proof.
  eexists. split; [reflexivity|].
  pose proof (reload_fail_closed sample_names (sample_store <| disk := FGarbage |>) ParseFailed _ (or_introl eq_refl)) as Hw.
  split; [exact (f_equal mem Hw) | exact (f_equal disk Hw)].
Defined.

(** C30: A committed save of a valid state is read back by the next reload with
    no change to any zone (also when only its durability was uncertain). *)
Theorem save_then_reload IsDomainName w r w1 :
  store_valid IsDomainName (mem w) ->
  Save w = (r, w1) -> r = Ok tt \/ r = Err WriteUncertain ->
  exists w2, ReloadFromDisk IsDomainName w1 = (Ok tt, w2) /\ Zones (mem w2) = Zones (mem w1).
Proof.
  intros Hv Hs Hr. destruct (Save_committed w r w1 Hs Hr) as (Hz & Hrm & Hb & Hf & Hd).
  assert (store_valid IsDomainName (mem w1)) as Hv1.
  { apply (bump_all_valid IsDomainName (mem w)) in Hv. unfold store_valid, marshal in *.
    by rewrite Hz, Hrm. }
  unfold ReloadFromDisk, readDiskLocked. rewrite Hd, Hv1. eexists. split; [done|].
  apply map_eq. intros d. cbn [mem set]. etrans; [apply merge_disk_lookup|]. rewrite Hb.
  unfold reload_zone, after_marker.
  destruct (Removed (mem w1) !! d), (Zones (mem w1) !! d); by rewrite ?mergeZone_refl.
Qed.

Lemma save_then_reload_witness :
  exists w2, ReloadFromDisk sample_names (snd (Save sample_store)) = (Ok tt, w2) /\
    Zones (mem w2) = Zones (mem (snd (Save sample_store))).
Proof.
  refine (save_then_reload sample_names sample_store (Ok tt) _ _ _ _);
    [vm_compute; reflexivity | vm_compute; reflexivity | left; reflexivity].
Defined.

(** [reload_idempotent] Reloading the same file again changes no zone. *)
Theorem reload_idempotent IsDomainName w w1 w2 :
  ReloadFromDisk IsDomainName w = (Ok tt, w1) -> ReloadFromDisk IsDomainName w1 = (Ok tt, w2) ->
  Zones (mem w2) = Zones (mem w1).
Proof.
  unfold ReloadFromDisk, readDiskLocked. destruct (disk w) as [| | |d] eqn:Ed; cbn; try done.
  - destruct (fileSeen (mem w)) eqn:Ef; [done|]. intros [= <-]. rewrite Ed, Ef. by intros [= <-].
  - destruct (validateAndNormalize IsDomainName d) as [[dz dr]|] eqn:Ev; [|done].
    intros [= <-]. cbn. rewrite Ed, Ev. intros [= <-].
    apply merge_disk_idem.
Qed.

Lemma reload_idempotent_witness :
  let w1 := snd (ReloadFromDisk sample_names sample_store) in
  Zones (mem (snd (ReloadFromDisk sample_names w1))) = Zones (mem w1).
Proof.
  refine (reload_idempotent sample_names sample_store _ _ _ _); vm_compute; reflexivity.
Defined.

(** What a save leaves on disk: the document is replaced exactly when
    the save returns success or only an uncertain durability, and it then holds
    the memory's zones, which become the new base. *)
Theorem save_outcome w r w' :
  Save w = (r, w') ->
  (r = Ok tt \/ r = Err WriteUncertain) /\ disk w' = FDoc (marshal (mem w'))
    /\ base (mem w') = Zones (mem w')
  \/ (exists e, r = Err e /\ IsCommitted e = false) /\ disk w' = disk w /\ base (mem w') = base (mem w).
Proof.
  intros Hs. destruct r as [[]|e].
  - left. destruct (Save_committed w _ w' Hs) as (_ & _ & ? & _ & ?); auto.
  - destruct (IsCommitted e) eqn:Ec.
    + left. destruct e; try done. destruct (Save_committed w _ w' Hs) as (_ & _ & ? & _ & ?); auto.
    + right. destruct (Save_uncommitted w e w' Hs Ec) as [? ->]. eauto.
Qed.

Lemma save_outcome_witness :
  disk (snd (Save (sample_store <| writes := [WUncertain] |>)))
  = FDoc (marshal (mem (snd (Save (sample_store <| writes := [WUncertain] |>))))).
Proof.
  destruct (save_outcome (sample_store <| writes := [WUncertain] |>) (Err WriteUncertain)
              (snd (Save (sample_store <| writes := [WUncertain] |>)))) as [(_ & H & _)|((e & He & Hc) & _)].
  - vm_compute. reflexivity.
  - exact H.
  - injection He as <-. discriminate Hc.
Defined.

Lemma Save_zones w r w' : Save w = (r, w') -> Zones (mem w') = Zones (bump_all (mem w)).
Proof.
  intros Hs. destruct r as [[]|e].
  - by destruct (Save_committed w _ w' Hs) as (? & _); auto.
  - destruct (IsCommitted e) eqn:Ec.
    + destruct e; try done. by destruct (Save_committed w _ w' Hs) as (? & _); auto.
    + by destruct (Save_uncommitted w e w' Hs Ec) as [_ ->].
Qed.

(** A save moves a zone's revision strictly past both the memory's and the
    last synchronised disk's exactly when its content differs from that disk
    image (below the 64-bit wrap), and otherwise leaves the zone alone; nothing
    else of the zone changes. *)
Theorem save_revision w r w' domain z b :
  Save w = (r, w') -> Zones (mem w) !! domain = Some z -> base (mem w) !! domain = Some b ->
  0 <= Revision z < 2 ^ 64 - 1 -> 0 <= Revision b < 2 ^ 64 - 1 ->
  exists z', Zones (mem w') !! domain = Some z' /\ same_content z z' /\
    if zoneContentEqual z b then z' = z
    else Revision z < Revision z' /\ Revision b < Revision z'.
Proof.
  intros Hs Hz Hb Hr1 Hr2. eexists.
  rewrite (Save_zones w r w' Hs), bump_all_lookup, Hz, Hb. split; [done|].
  unfold bump_revision. destruct (zoneContentEqual z b) eqn:E; cbn; [done|].
  split; [by destruct z|]. unfold uint64_mod.
  destruct (Z.ltb_spec (Revision z) (Revision b)); rewrite Z.mod_small; lia.
Qed.

Lemma save_revision_witness :
  exists z', Zones (mem (snd (Save sample_store))) !! "a.example" = Some z' /\ 4 < Revision z'.
Proof.
  destruct (save_revision sample_store (Ok tt) (snd (Save sample_store)) "a.example" sample_mem sample_zone)
    as (z' & Hz & _ & Hr); [vm_compute; reflexivity | reflexivity | reflexivity
      | vm_compute; split; [discriminate | reflexivity] | vm_compute; split; [discriminate | reflexivity] |].
  exists z'. split; [exact Hz|]. vm_compute in Hr. exact (proj1 Hr).
Defined.
