(* ===== verification/FileSys.v ===== *)
(** * FileSys: the file system, and safe file replacement
    (signer/internal/fsutil/fsutil.go; the directory helpers of signer/keys.go)

    The file system is a map from paths to nodes.  A system call consults the fault
    oracle of [OS] with its number: it either fails, leaving the files alone (a write
    leaves a prefix of its data), or takes effect.  Every state of the files that a
    call supersedes is kept in [Disk.past]: those are the states a crash can leave
    behind.  A file is never changed in place once it has more than one name, so a hard
    link is a copy of its node.  Descriptors are paths, and paths reach files without
    symbolic links in between; a symbolic link at a path itself is a node that does not
    resolve.

    [WriteFileAtomicOwned], [WriteConfigFileAtomic] and [CopyFile] are the functions of
    fsutil.go; the deferred clean-up they share is [with_temp]. *)

From stdpp Require Import base list strings gmap pretty.
From Stdlib Require Import ZArith Lia Ascii.
From S2P Require Import Prelude Paths GoTime.
Local Open Scope Z_scope.

(** ** Errors *)

(** The errors of system calls: the name does not exist, the name exists, or a
    failure that says nothing about the name. *)
Inductive HardErr :=
  EPERM | EACCES | EIO | ENOSPC | EROFS | ELOOP | EINVAL | ENOTSUP | EOPNOTSUPP | EXDEV | EMLINK | ENOTDIR | EISDIR | ENOTEMPTY.
Inductive Errno := ENOENT | EEXIST | Hard (e : HardErr).

Definition strerror (e : Errno) : string :=
  match e with
  | ENOENT => "no such file or directory"
  | EEXIST => "file exists"
  | Hard EPERM => "operation not permitted"
  | Hard EACCES => "permission denied"
  | Hard EIO => "input/output error"
  | Hard ENOSPC => "no space left on device"
  | Hard EROFS => "read-only file system"
  | Hard ELOOP => "too many levels of symbolic links"
  | Hard EINVAL => "invalid argument"
  | Hard ENOTSUP | Hard EOPNOTSUPP => "operation not supported"
  | Hard EXDEV => "invalid cross-device link"
  | Hard EMLINK => "too many links"
  | Hard ENOTDIR => "not a directory"
  | Hard EISDIR => "is a directory"
  | Hard ENOTEMPTY => "directory not empty"
  end.

(** What [errors.Is] and [errors.As] find in the chain of a wrapped error: a system
    call's error, a [*DurabilityError], a [*backupConflictError], the sentinel
    [errLiveUnverifiable], or none of them. *)
Inductive cause := Plain | OsError (e : Errno) | Durability (path : string) | BackupConflict (base : string) (tag : Z) | LiveUnverifiable.

Module GoError.
Record t := mk { Text : string; Cause : cause }.
End GoError.

(** [fmt.Errorf] with a last [%w], and without one *)
Definition Errorf (format : string) (args : list string) (err : GoError.t) : GoError.t :=
  GoError.mk (Sprintf format (args ++ [GoError.Text err])) (GoError.Cause err).
Definition errorf (format : string) (args : list string) : GoError.t := GoError.mk (Sprintf format args) Plain.

(** ** Files *)

Inductive Kind := Regular | Directory | Unresolvable (e : Errno).
#[export] Instance HardErr_eq_dec : EqDecision HardErr.
Proof. solve_decision. Defined.
#[export] Instance Errno_eq_dec : EqDecision Errno.
Proof. solve_decision. Defined.
#[export] Instance Kind_eq_dec : EqDecision Kind.
Proof. solve_decision. Defined.

Module Node.
Record t := mk { Kind : Kind; Data : string; Perm : Z; Uid : Z; Gid : Z; ModTime : Time }.
#[export] Instance eta_t : Eta t.
Proof. refine {| eta r := mk (Kind r) (Data r) (Perm r) (Uid r) (Gid r) (ModTime r) |}. by intros []. Defined.
End Node.

#[export] Existing Instance Node.eta_t.

Abbreviation Files := (gmap string Node.t).

(** The files, the states of them that were superseded (the latest first), the number
    of system calls, and of draws of key material. *)
Module Disk.
Record t := mk { nodes : Files; past : list Files; calls : nat; draws : nat }.
End Disk.

Definition tick (d : Disk.t) : Disk.t := Disk.mk (Disk.nodes d) (Disk.past d) (S (Disk.calls d)) (Disk.draws d).
Definition commit (fs : Files) (d : Disk.t) : Disk.t := Disk.mk fs (Disk.nodes d :: Disk.past d) (Disk.calls d) (Disk.draws d).

(** The accounts files are handed to. *)
Module Ownership.
Record t := mk { uid : Z; gid : Z; active : bool }.
End Ownership.

(** The operating system: which calls fail, how much of an interrupted write reaches
    the file, the random numbers of temporary names, the clock, and the process's
    accounts and mode mask. *)
Class OS := {
  fault : nat -> option HardErr;
  torn : nat -> nat;
  nextRandom : nat -> Z;
  clock : nat -> Time;
  Euid : Z; Egid : Z; Umask : Z;
  ownership : Ownership.t
}.

Abbreviation FS := (St Disk.t GoError.t).

Definition wrapf {A} (format : string) (args : list string) (m : FS A) : FS A := fun d =>
  match m d with
  | (Err err, d') => (Err (Errorf format args err), d')
  | (Ok a, d') => (Ok a, d')
  end.

Section os.
Context `{OS}.

Definition sys_error (op path : string) (e : Errno) : GoError.t :=
  GoError.mk (op +:+ " " +:+ path +:+ ": " +:+ strerror e) (OsError e).

(** One system call: its result and, when it changes the files, their next state. *)
Definition syscall {A} (op path : string) (f : Time -> Files -> res Errno (A * option Files)) : FS A := fun d =>
  match fault (Disk.calls d) with
  | Some e => (Err (sys_error op path (Hard e)), tick d)
  | None =>
      match f (clock (Disk.calls d)) (Disk.nodes d) with
      | Err e => (Err (sys_error op path e), tick d)
      | Ok (a, None) => (Ok a, tick d)
      | Ok (a, Some fs) => (Ok a, commit fs (tick d))
      end
  end.

Definition is_dir (fs : Files) (path : string) : bool :=
  match fs !! path with Some n => bool_decide (Node.Kind n = Directory) | None => false end.

(** What a path leads to. *)
Definition resolve (fs : Files) (path : string) : res Errno Node.t :=
  match fs !! path with
  | None => Err ENOENT
  | Some n => match Node.Kind n with Unresolvable e => Err e | _ => Ok n end
  end.

(** [os.Stat], [os.Lstat] *)
Definition Stat (path : string) : FS Node.t := syscall "stat" path (fun _ fs => try n <- resolve fs path; Ok (n, None)).
Definition Lstat (path : string) : FS Node.t :=
  syscall "lstat" path (fun _ fs => match fs !! path with Some n => Ok (n, None) | None => Err ENOENT end).

Definition file_data (n : Node.t) : res Errno string :=
  match Node.Kind n with Regular => Ok (Node.Data n) | Directory => Err (Hard EISDIR) | Unresolvable e => Err e end.

(** [os.Open] for reading, reading an open file to its end, and [os.ReadFile] *)
Definition Open (path : string) : FS Node.t := syscall "open" path (fun _ fs => try n <- resolve fs path; Ok (n, None)).
Definition ReadAll (path : string) (n : Node.t) : FS string :=
  syscall "read" path (fun _ _ => try data <- file_data n; Ok (data, None)).
Definition ReadFile (path : string) : FS string := n <-- Open path ;; ReadAll path n.

(** A new regular file: its directory exists and its name is free. *)
Definition create (path : string) (perm : Z) (now : Time) (fs : Files) : res Errno Files :=
  if negb (is_dir fs (Dir path)) then Err ENOENT
  else match fs !! path with
       | Some _ => Err EEXIST
       | None => Ok (<[path := Node.mk Regular "" (Z.ldiff perm Umask) Euid Egid now]> fs)
       end.

(** [os.OpenFile] with O_CREATE and O_EXCL *)
Definition OpenExcl (path : string) (perm : Z) : FS unit :=
  syscall "open" path (fun now fs => try fs' <- create path perm now fs; Ok (tt, Some fs')).

Definition is_errno (e : Errno) (err : GoError.t) : bool :=
  match GoError.Cause err with OsError e' => bool_decide (e' = e) | _ => false end.

Definition temp_path (dir prefix suffix : string) (random : Z) : string :=
  (if HasSuffix dir "/" then dir else dir +:+ "/") +:+ prefix +:+ pretty random +:+ suffix.
(** [os.CreateTemp]: random names until one is free, 10000 of them at most *)
Fixpoint create_temp (attempts : nat) (dir prefix suffix : string) : FS string :=
  match attempts with
  | O => fail (sys_error "createtemp" (dir +:+ "/" +:+ prefix +:+ "*" +:+ suffix) EEXIST)
  | S attempts => fun d =>
      let name := temp_path dir prefix suffix (nextRandom (Disk.calls d)) in
      match OpenExcl name 384 d with
      | (Ok _, d') => (Ok name, d')
      | (Err err, d') => if is_errno EEXIST err then create_temp attempts dir prefix suffix d' else (Err err, d')
      end
  end.
Definition CreateTemp (dir prefix suffix : string) : FS string := create_temp (Z.to_nat 10000) dir prefix suffix.

(** A change to the node at a path *)
Definition update (op path : string) (f : Node.t -> Node.t) : FS unit :=
  syscall op path (fun _ fs => try n <- resolve fs path; Ok (tt, Some (<[path := f n]> fs))).
Definition Chmod (path : string) (perm : Z) : FS unit := update "chmod" path (fun n => n <| Node.Perm := perm |>).
Definition Chown (path : string) (uid gid : Z) : FS unit := update "chown" path (fun n => n <| Node.Uid := uid |> <| Node.Gid := gid |>).

(** [tmp.Write]: the bytes arrive one part at a time. *)
Definition put_data (path data : string) (now : Time) (fs : Files) : Files :=
  alter (fun n => n <| Node.Data := data |> <| Node.ModTime := now |>) path fs.
Definition Write (path data : string) : FS unit := fun d =>
  let now := clock (Disk.calls d) in
  let d1 := tick d in
  let d2 := commit (put_data path (str_take (torn (Disk.calls d)) data) now (Disk.nodes d1)) d1 in
  match fault (Disk.calls d) with
  | Some e => (Err (sys_error "write" path (Hard e)), d2)
  | None => (Ok tt, commit (put_data path data now (Disk.nodes d2)) d2)
  end.

(** A write to the end of a file *)
Definition append_data (path data : string) (now : Time) (fs : Files) : Files :=
  alter (fun n => n <| Node.Data := Node.Data n +:+ data |> <| Node.ModTime := now |>) path fs.
Definition Append (path data : string) : FS unit := fun d =>
  let now := clock (Disk.calls d) in
  match fault (Disk.calls d) with
  | Some e => (Err (sys_error "write" path (Hard e)), commit (append_data path (str_take (torn (Disk.calls d)) data) now (Disk.nodes d)) (tick d))
  | None => (Ok tt, commit (append_data path data now (Disk.nodes d)) (tick d))
  end.

(** [tmp.Sync], [tmp.Close] *)
Definition Sync (path : string) : FS unit := syscall "sync" path (fun _ _ => Ok (tt, None)).
Definition Close (path : string) : FS unit := syscall "close" path (fun _ _ => Ok (tt, None)).

(** [os.Rename] of a file, [os.Link], [os.Remove] of a file *)
Definition Rename (src dst : string) : FS unit :=
  syscall "rename" (src +:+ " " +:+ dst) (fun _ fs =>
    match fs !! src with
    | None => Err ENOENT
    | Some n =>
        if negb (is_dir fs (Dir dst)) then Err ENOENT
        else if is_dir fs dst then Err EEXIST
        else Ok (tt, Some (<[dst := n]> (delete src fs)))
    end).
Definition Link (src dst : string) : FS unit :=
  syscall "link" (src +:+ " " +:+ dst) (fun _ fs =>
    match fs !! src with
    | None => Err ENOENT
    | Some n =>
        if negb (is_dir fs (Dir dst)) then Err ENOENT
        else match fs !! dst with
             | Some _ => Err EEXIST
             | None => if is_dir fs src then Err (Hard EPERM) else Ok (tt, Some (<[dst := n]> fs))
             end
    end).
Definition Remove (path : string) : FS unit :=
  syscall "remove" path (fun _ fs =>
    match fs !! path with
    | None => Err ENOENT
    | Some n => if is_dir fs path then Err (Hard ENOTEMPTY) else Ok (tt, Some (delete path fs))
    end).

(** [os.ReadDir]: the names in a directory *)
Definition ReadDir (dir : string) : FS (list string) :=
  syscall "open" dir (fun _ fs =>
    try n <- resolve fs dir;
    match Node.Kind n with
    | Directory => Ok (map (fun p => Base p.1) (List.filter (fun p => String.eqb (Dir p.1) dir && negb (String.eqb p.1 dir)) (map_to_list fs)), None)
    | _ => Err (Hard ENOTDIR)
    end).

(** [os.MkdirAll] *)
Definition Mkdir (path : string) (perm : Z) : FS unit :=
  syscall "mkdir" path (fun now fs =>
    if negb (is_dir fs (Dir path)) then Err ENOENT
    else match fs !! path with
         | Some _ => Err EEXIST
         | None => Ok (tt, Some (<[path := Node.mk Directory "" (Z.ldiff perm Umask) Euid Egid now]> fs))
         end).
Fixpoint mkdir_all (depth : nat) (path : string) (perm : Z) : FS unit :=
  r <-- catch (Stat path) ;;
  match r with
  | Ok n => if bool_decide (Node.Kind n = Directory) then ret tt else fail (sys_error "mkdir" path (Hard ENOTDIR))
  | Err _ =>
      match depth with
      | O => ret tt
      | S depth => when (negb (String.eqb (Dir path) path)) (mkdir_all depth (Dir path) perm)
      end ;;;
      r <-- catch (Mkdir path perm) ;;
      match r with
      | Ok _ => ret tt
      | Err err =>
          r <-- catch (Lstat path) ;;
          match r with
          | Ok n => if bool_decide (Node.Kind n = Directory) then ret tt else fail err
          | Err _ => fail err
          end
      end
  end.
Definition MkdirAll (path : string) (perm : Z) : FS unit := mkdir_all (String.length path) path perm.

(** ** fsutil.go *)

Inductive OwnershipStatus := OwnershipInactive | OwnershipActive | OwnershipTargetMissing.

(** The status, or the error, with the ownership target from then on. *)
Definition InitOwnershipTarget (own : Ownership.t) (refPath : string) : FS (res GoError.t OwnershipStatus * Ownership.t) :=
  let off := Ownership.mk (Ownership.uid own) (Ownership.gid own) false in
  if negb (Euid =? 0) then ret (Ok OwnershipInactive, own)
  else
    r <-- catch (Stat refPath) ;;
    ret match r with
        | Err err =>
            if is_errno ENOENT err then (Ok OwnershipTargetMissing, off)
            else (Err (Errorf "inspecting ownership target %s: %w" [refPath] err), off)
        | Ok info =>
            if (Node.Uid info =? 0) && (Node.Gid info =? 0) then (Ok OwnershipInactive, own)
            else (Ok OwnershipActive, Ownership.mk (Node.Uid info) (Node.Gid info) true)
        end.

Definition ChownToTarget (path : string) : FS unit :=
  if negb (Ownership.active ownership) then ret tt
  else
    wrapf "chown %s to %d:%d: %w" [path; pretty (Ownership.uid ownership); pretty (Ownership.gid ownership)]
      (Chown path (Ownership.uid ownership) (Ownership.gid ownership)).

Definition dirSyncUnsupported (err : GoError.t) : bool :=
  is_errno (Hard EINVAL) err || is_errno (Hard ENOTSUP) err || is_errno (Hard EOPNOTSUPP) err.

Definition syncDirectory (dir : string) : FS unit :=
  wrapf "opening directory %s for fsync: %w" [dir] (Open dir) ;;;
  r <-- catch (Sync dir) ;;
  match r with
  | Ok _ => ret tt
  | Err err => if dirSyncUnsupported err then ret tt else fail (Errorf "fsync directory %s: %w" [dir] err)
  end.
Definition SyncDir (dir : string) : FS unit := syncDirectory dir.

(** [IsCommitted]: the write is visible and only its durability is uncertain. *)
Definition IsDurability (err : GoError.t) : bool := match GoError.Cause err with Durability _ => true | _ => false end.
Definition durability_error (path : string) (err : GoError.t) : GoError.t :=
  GoError.mk (Sprintf "%s was replaced but its directory entry could not be synced (durability across power loss uncertain): %v" [path; GoError.Text err])
    (Durability path).

(** [body] fills a temporary file and renames it; until then any error removes it. *)
Definition filled (tmpPath : string) (body : FS unit) : FS unit :=
  r <-- catch body ;;
  match r with
  | Ok _ => ret tt
  | Err err => catch (Remove tmpPath) ;;; fail err
  end.
Definition temp_filled (temp : FS string) (body : string -> FS unit) : FS unit := tmpPath <-- temp ;; filled tmpPath (body tmpPath).
Definition new_temp (dir base : string) : FS string := CreateTemp dir ("." +:+ base +:+ ".") ".tmp".
Definition with_temp (message dir base : string) (body : string -> FS unit) : FS unit := temp_filled (wrapf message [dir] (new_temp dir base)) body.

(** The directory entry is synced once the rename is visible. *)
Definition sync_replaced (dir path : string) : FS unit :=
  r <-- catch (SyncDir dir) ;;
  match r with Ok _ => ret tt | Err err => fail (durability_error path err) end.

Definition WriteFileAtomicOwned (path data : string) (perm : Z) : FS unit :=
  let dir := Dir path in
  with_temp "creating temp file in %s: %w" dir (Base path) (fun tmpPath =>
    wrapf "chmod temp file: %w" [] (Chmod tmpPath perm) ;;;
    wrapf "writing temp file: %w" [] (Write tmpPath data) ;;;
    wrapf "syncing temp file: %w" [] (Sync tmpPath) ;;;
    wrapf "closing temp file: %w" [] (Close tmpPath) ;;;
    wrapf "assigning daemon ownership to the staged replacement for %s (predecessor left in place): %w" [path] (ChownToTarget tmpPath) ;;;
    wrapf "renaming temp file over %s: %w" [path] (Rename tmpPath path)) ;;;
  sync_replaced dir path.

Definition WriteFileOwned (path data : string) (perm : Z) : FS unit := WriteFileAtomicOwned path data perm.

(** [Mode().Perm()] *)
Definition mode_perm (n : Node.t) : Z := Z.land (Node.Perm n) 511.

Definition preserveOwner (path : string) (info : Node.t) : FS unit :=
  if negb (Euid =? 0) then ret tt else Chown path (Node.Uid info) (Node.Gid info).

Definition WriteConfigFileAtomic (path data : string) : FS unit :=
  info <-- wrapf "stat config file: %w" [] (Stat path) ;;
  let perm := mode_perm info in
  let dir := Dir path in
  with_temp "creating temp config in %s: %w" dir (Base path) (fun tmpPath =>
    wrapf "chmod temp config: %w" [] (Chmod tmpPath perm) ;;;
    wrapf "writing temp config: %w" [] (Write tmpPath data) ;;;
    wrapf "syncing temp config: %w" [] (Sync tmpPath) ;;;
    wrapf "closing temp config: %w" [] (Close tmpPath) ;;;
    wrapf "preserving config ownership: %w" [] (preserveOwner tmpPath info) ;;;
    wrapf "renaming temp config over %s: %w" [path] (Rename tmpPath path)) ;;;
  sync_replaced dir path.

Definition CopyFile (src dst : string) : FS unit :=
  srcInfo <-- Stat src ;;
  n <-- Open src ;;
  let dir := Dir dst in
  with_temp "creating temp file in %s: %w" dir (Base dst) (fun tmpPath =>
    wrapf "chmod temp file: %w" [] (Chmod tmpPath (mode_perm srcInfo)) ;;;
    wrapf "copying %s: %w" [src] (data <-- ReadAll src n ;; Write tmpPath data) ;;;
    wrapf "syncing temp file: %w" [] (Sync tmpPath) ;;;
    wrapf "closing temp file: %w" [] (Close tmpPath) ;;;
    wrapf "assigning daemon ownership to the staged copy of %s: %w" [src] (ChownToTarget tmpPath) ;;;
    wrapf "renaming temp file over %s: %w" [dst] (Rename tmpPath dst)) ;;;
  sync_replaced dir dst.

(** ** keys.go: directories *)

Definition EnsureDir (path : string) : FS unit :=
  r <-- catch (Stat path) ;;
  match r with
  | Ok _ => ret tt
  | Err _ =>
      wrapf "creating directory %s: %w" [path] (MkdirAll path 493) ;;;
      wrapf "assigning ownership of created directory %s: %w" [path] (ChownToTarget path)
  end.

Definition EnsureDirSecure (path : string) : FS unit :=
  r <-- catch (Stat path) ;;
  match r with
  | Err err =>
      if is_errno ENOENT err then
        wrapf "creating directory %s: %w" [path] (MkdirAll path 448) ;;;
        wrapf "assigning ownership of created directory %s: %w" [path] (ChownToTarget path)
      else fail (Errorf "stat %s: %w" [path] err)
  | Ok info =>
      if negb (bool_decide (Node.Kind info = Directory)) then fail (errorf "%s exists but is not a directory" [path])
      else when (negb (Z.land (mode_perm info) 63 =? 0)) (wrapf "chmod %s: %w" [path] (Chmod path 448))
  end.

Definition FileExists (path : string) : FS bool := r <-- catch (Stat path) ;; ret (is_ok r).

(** Existence, with a failure to tell as an error. *)
Definition statExists (path : string) : FS bool :=
  r <-- catch (Stat path) ;;
  match r with
  | Ok _ => ret true
  | Err err => if is_errno ENOENT err then ret false else fail err
  end.
End os.
