(* ===== verification/KeyOps.v ===== *)
(** * KeyOps: DNSKEYs, algorithm names, and the key store as the rollover manager
    sees it

    [KeyStore F] states what signer/internal/signer/keytx.go and keys.go promise
    to rollover.go over a key directory of type [F]: the operations, and in
    [KeyStoreLaws] the facts the rollover's own invariants rest on. *)

From stdpp Require Import base list strings.
From Stdlib Require Import ZArith Lia.
From S2P Require Import Prelude GoTime ZoneState FileSys.
Local Open Scope Z_scope.
Local Open Scope sig_scope.

(** A DNSKEY record: what the signer reads of the DNS library's [dns.DNSKEY]. *)
Record DNSKEY := mkDNSKEY {
  Owner : string; Flags : Z; Protocol : Z; KeyAlgorithm : Z; PublicKey : string
}.
#[export] Instance DNSKEY_eq_dec : EqDecision DNSKEY.
Proof. solve_decision. Defined.

Definition AlgorithmName (alg : Z) : string :=
  match alg with
  | 1 => "RSAMD5" | 2 => "DH" | 3 => "DSA" | 5 => "RSASHA1" | 6 => "DSA-NSEC3-SHA1"
  | 7 => "RSASHA1-NSEC3-SHA1" | 8 => "RSASHA256" | 10 => "RSASHA512" | 12 => "ECC-GOST"
  | 13 => "ECDSAP256SHA256" | 14 => "ECDSAP384SHA384" | 15 => "ED25519" | 16 => "ED448"
  | _ => "Unknown(" +:+ fmt_d alg +:+ ")"
  end.

Definition SupportedAlgorithmNames : list string :=
  ["ED25519"; "ECDSAP256SHA256"; "ECDSAP384SHA384"; "RSASHA256"; "RSASHA512"].

Definition AlgorithmFromName (name : string) : option Z :=
  if String.eqb name "ED25519" then Some 15
  else if String.eqb name "ECDSAP256SHA256" then Some 13
  else if String.eqb name "ECDSAP384SHA384" then Some 14
  else if String.eqb name "RSASHA256" then Some 8
  else if String.eqb name "RSASHA512" then Some 10
  else None.

(** The on-disk role names: "ksk" and "zsk". *)
Inductive role := KSKRole | ZSKRole.
#[export] Instance role_eq_dec : EqDecision role.
Proof. solve_decision. Defined.

Definition keyRole (isKSK : bool) : role := if isKSK then KSKRole else ZSKRole.
Definition role_name (r : role) : string := match r with KSKRole => "ksk" | ZSKRole => "zsk" end.

(** The errors of the key store are those of the key files. *)
Definition key_error : Type := GoError.t.

(** The operations of the key store used by a rollover. [now] is the
    [time.Now()] a freshly minted key is stamped with. *)
Class KeyStore (F : Type) := {
  (** [StageKSK] / [StageZSK]: mint a key and write it to its tag-named slot. *)
  StageKey : role -> string -> string -> Time -> St F key_error KeyState.t;
  (** [BackupKey]: the live pair is the recorded key and has a verified copy. *)
  BackupKey : role -> string -> Z -> St F key_error unit;
  (** [ActivateKeyPair]: make a staged generation the live pair. *)
  ActivateKeyPair : role -> string -> Z -> St F key_error unit;
  (** [EnsureLiveKey]: the live key, re-activating the expected generation. *)
  EnsureLiveKey : role -> string -> Z -> St F key_error DNSKEY;
  (** [LoadPublicKeyByID] reads a tag-named public half. *)
  LoadPublicKeyByID : role -> string -> Z -> St F key_error DNSKEY;
  (** [dns.DNSKEY.KeyTag], from the DNS library. *)
  KeyTag : DNSKEY -> Z
}.

(** What the rollover relies on. [backed_up f r d tag] is the key store's record
    that the key [tag] of a role has a verified copy. *)
Class KeyStoreLaws (F : Type) `{KeyStore F} := {
  backed_up : F -> role -> string -> Z -> Prop;
  BackupKey_backs_up : forall r d tag f f',
    BackupKey r d tag f = (Ok tt, f') -> backed_up f' r d tag;
  BackupKey_keeps : forall r d tag f x f' r' d' t',
    BackupKey r d tag f = (x, f') -> backed_up f r' d' t' -> backed_up f' r' d' t';
  StageKey_keeps : forall r d alg now f x f' r' d' t',
    StageKey r d alg now f = (x, f') -> backed_up f r' d' t' -> backed_up f' r' d' t';
  (** A freshly staged generation never shares its tag with a backed-up one. *)
  StageKey_fresh : forall r d alg now f ks f' t,
    StageKey r d alg now f = (Ok ks, f') -> backed_up f r d t -> KeyState.ID ks <> t;
  StageKey_algorithm : forall r d alg now f ks f',
    alg <> "" -> StageKey r d alg now f = (Ok ks, f') -> KeyState.Algorithm ks = alg;
  EnsureLiveKey_tag : forall r d tag f k f',
    EnsureLiveKey r d tag f = (Ok k, f') -> KeyTag k = tag
}.
