(* ===== verification/Rollover.v ===== *)
(** * Rollover: the rollover state machines (signer/internal/signer/rollover.go)

    [RWorld] is what one call of a [RolloverManager] method can see and change:
    the state store, the key directory, the clock, and the outside world behind
    the injected parent-DS probe and registrar publisher.  Every method is a
    function on it, written in the order the Go code performs its effects, so a
    failure part-way leaves exactly the effects performed so far.  [published]
    is a ghost log of the DS updates asked of the registrar. *)

From stdpp Require Import base list strings gmap.
From Stdlib Require Import ZArith Lia.
From S2P Require Import Prelude GoTime Config ZoneState StateStore KeyOps.
Import KeyState RolloverState ZoneState.
Local Open Scope Z_scope.
Local Open Scope sig_scope.

(** What a probe of the parent's servers reports. *)
Record ParentDSObservation := mkObs {
  AbsentOnAll : Z -> bool;
  PresentOnAll : Z -> bool;
  ObsTTL : Z
}.

(** One answer of the registrar automation: the zone warnings it records and
    whether an update was performed. *)
Record pub_reply := mkReply { reply_warnings : list string; reply_result : res string bool }.

(** The injected seams: [rm.probe] and [rm.publisher] may be nil. *)
Class Seams (X : Type) := {
  has_probe : bool;
  has_publisher : bool;
  ProbeParentDS : string -> DNSKEY -> X -> res string ParentDSObservation * X;
  PublishDS_ext : string -> string -> X -> pub_reply * X
}.

Record RWorld (F X : Type) := mkRWorld {
  store : World; keys : F; clock : Time; ticks : list N; ext : X;
  published : list (Time * string)
}.
Arguments mkRWorld {F X} _ _ _ _ _ _.
Arguments store {F X} _. Arguments keys {F X} _. Arguments clock {F X} _.
Arguments ticks {F X} _. Arguments ext {F X} _. Arguments published {F X} _.
#[export] Instance eta_RWorld F X : Eta (RWorld F X).
Proof.
  refine {| eta w := mkRWorld (store w) (keys w) (clock w) (ticks w) (ext w) (published w) |}.
  by intros [].
Defined.

Inductive roll_error :=
| ZoneNotFound | RolloverInProgress | NoKSKFound | NoRolloverInProgress
| WrongRolloverType | WrongPhase (state : string) | NoUsableKeys | AlreadyAlgorithm
| BackupFailed (e : key_error) | GenerateKeyFailed (e : key_error)
| SaveRolledBack (e : store_error) | ActivateFailed (e : key_error)
| LoadNewZSK (e : key_error) | LoadOldKSK (e : key_error)
| StoreError (e : store_error).

Definition OpRolloverOldDSRemoval : string := "rollover_old_ds_removal".
Definition OpRolloverNewDSAdd : string := "rollover_new_ds_add".
Definition blockedPhasePrefix : string := "rollover is waiting: ".

(** ** Timing gates *)

Definition humanizeRolloverDelay (d : Duration) : string :=
  if 24 * Hour <=? d then fmt_0f (Days d) +:+ " day(s)" else fmt_duration d.

Definition effectiveParentDSTTL (s : Z) : Duration :=
  if s =? 0 then DefaultParentDSTTL else seconds s.

Definition dnskeyTTLFloor (cfg : Config) (z : ZoneState.t) : Duration :=
  let ttl := if 0 <? PublishedDNSKEYTTL z then seconds (PublishedDNSKEYTTL z) else 0 in
  let cfgTTL := seconds (cfg_DNSKEYTtl (DNSSEC cfg)) in
  let ttl := if ttl <? cfgTTL then cfgTTL else ttl in
  if ttl <=? 0 then 24 * Hour else ttl.

Definition zskRetireFloor (cfg : Config) (z : ZoneState.t) : Duration :=
  let floor := dnskeyTTLFloor cfg z in
  let rrsig := seconds (PublishedMaxRRSIGTTL z) in
  if floor <? rrsig then rrsig else floor.

Definition newKeyFloor (cfg : Config) (z : ZoneState.t) (r : RolloverState.t) : Duration :=
  if String.eqb (RType r) "algorithm" then zskRetireFloor cfg z else dnskeyTTLFloor cfg z.

(** [None] when the parent's DS set may change, else the reason it may not. *)
Definition newKeysPropagated (z : ZoneState.t) (now : Time) : option string :=
  match Rollover z with
  | None => Some "no rollover in progress"
  | Some r =>
      if negb (PublishedSince z (Started r)) || IsZero (PhaseHorizon r) then
        Some "the DNSKEY RRset carrying the new key is not yet confirmed served by every authoritative server"
      else if Before now (PhaseHorizon r) then
        Some ("resolvers may still cache the DNSKEY RRset without the new key until "
              +:+ FormatRFC3339 (PhaseHorizon r))
      else None
  end.

Definition oldDSRemovalAdvice (z : ZoneState.t) (now : Time) : string :=
  match newKeysPropagated z now with
  | Some reason =>
      "do NOT remove the OLD DS at the registrar yet: " +:+ reason
      +:+ " (registrar automation waits for this as well; status reports when it is safe)"
  | None => "the OLD DS may be removed at the registrar now (registrar automation does this itself)"
  end.

(** The cache horizon [stampNewKeyPropagation] computes. *)
Definition propagation_horizon (cfg : Config) (z : ZoneState.t) (r : RolloverState.t) : Time :=
  let horizon := TAdd (PublishedAt z) (newKeyFloor cfg z r) in
  let horizon := if After (DNSKEYCacheHorizon z) horizon then DNSKEYCacheHorizon z else horizon in
  if String.eqb (RType r) "algorithm" && After (RRSIGCacheHorizon z) horizon
  then RRSIGCacheHorizon z else horizon.

(** The cache horizon a ZSK phase stamps: a floor past the publication, and never
    before the horizons given. *)
Definition phase_horizon (published : Time) (floor : Duration) (horizons : list Time) : Time :=
  fold_left (fun h x => if After x h then x else h) horizons (TAdd published floor).

Section manager.
Context {F X : Type} `{KeyStore F} `{Seams X} (cfg : Config).
Abbreviation M := (St (RWorld F X) roll_error).

(** ** Access to the world *)

Definition time_now : M Time := fun w =>
  match ticks w with
  | [] => (Ok (clock w), w)
  | d :: ds => let t := clock w + Z.of_N d in (Ok t, w <| clock := t |> <| ticks := ds |>)
  end.

Definition get_zone (domain : string) : M (option ZoneState.t) :=
  gets (fun w => GetZone domain (mem (store w))).

(** [rm.state.Mutate] of the zone the manager holds a pointer to. *)
Definition mutate (domain : string) (f : ZoneState.t -> ZoneState.t) : M unit :=
  modify (fun w => w <| store := (store w) <| mem := UpdateZone domain f (mem (store w)) |> |>).

(** Mutation of the zone's rollover record. *)
Definition on_rollover (f : RolloverState.t -> RolloverState.t) (z : ZoneState.t) : ZoneState.t :=
  z <| Rollover := f <$> Rollover z |>.

Definition save_raw : M (res store_error unit) := fun w =>
  let '(r, s) := Save (store w) in (Ok r, w <| store := s |>).

(** [return rm.state.Save()] *)
Definition save : M unit :=
  r <-- save_raw ;; match r with Ok _ => ret tt | Err e => fail (StoreError e) end.

Definition on_keys {A} (m : St F key_error A) : M (res key_error A) := fun w =>
  let '(r, f) := m (keys w) in (Ok r, w <| keys := f |>).

Definition key_op {A} (m : St F key_error A) (wrap : key_error -> roll_error) : M A :=
  r <-- on_keys m ;; match r with Ok a => ret a | Err e => fail (wrap e) end.

(** The zone a method looked up at its start, for its later reads. *)
Definition with_rollover {A} (domain : string) (d : A)
    (k : ZoneState.t -> RolloverState.t -> M A) : M A :=
  oz <-- get_zone domain ;;
  match oz with
  | Some z => match Rollover z with Some r => k z r | None => ret d end
  | None => ret d
  end.

(** [PublishDS] of the injected publisher: it records its warnings in the
    zone, saving after each, and its answer does not depend on those saves. *)
Definition recordRegistrarWarning (domain msg : string) : M unit :=
  mutate domain (AddWarning msg) ;;; r <-- save_raw ;; ret tt.

Fixpoint record_warnings (domain : string) (msgs : list string) : M unit :=
  match msgs with
  | [] => ret tt
  | m :: ms => recordRegistrarWarning domain m ;;; record_warnings domain ms
  end.

Definition publishDS (now : Time) (domain op : string) : M (res string bool) :=
  reply <-- (fun w => let '(r, x) := PublishDS_ext domain op (ext w) in
                      (Ok r, w <| ext := x |> <| published := published w ++ [(now, op)] |>)) ;;
  record_warnings domain (reply_warnings reply) ;;;
  ret (reply_result reply).

Definition probeParentDS (domain : string) (k : DNSKEY) : M (res string ParentDSObservation) :=
  fun w => let '(r, x) := ProbeParentDS domain k (ext w) in (Ok r, w <| ext := x |>).

(** ** Propagation of the new keys *)

Definition stampNewKeyPropagation (domain : string) : M unit :=
  with_rollover domain tt (fun z r =>
    if (negb (String.eqb (RType r) "ksk") && negb (String.eqb (RType r) "algorithm"))
       || negb (IsZero (PhaseHorizon r)) then ret tt
    else if negb (PublishedSince z (Started r)) then ret tt
    else
      mutate domain (on_rollover (fun r0 =>
        r0 <| PhaseFirstSigned := PublishedAt z |> <| PhaseHorizon := propagation_horizon cfg z r |>)) ;;;
      save).

Definition pushOldDSRemoval (domain : string) : M bool :=
  if negb has_publisher then ret true
  else with_rollover domain true (fun z r =>
    if negb (IsZero (DSRemovalPushedAt r)) then ret true
    else
      now <-- time_now ;;
      match newKeysPropagated z now with
      | Some _ => ret false
      | None =>
          reply <-- publishDS now domain OpRolloverOldDSRemoval ;;
          match reply with
          | Err _ => ret false
          | Ok false => ret true
          | Ok true =>
              mutate domain (on_rollover (fun r =>
                r <| DSRemovalPushedAt := now |>
                  <| Action :=
                       if String.eqb (RType r) "algorithm" then
                         "Automatic: registrar asked to hold only the new DS (algorithm " +:+ NewAlgorithm r
                         +:+ "); the old-algorithm keys are retired one parent DS TTL after the old DS is gone from every parent server"
                       else
                         "Automatic: registrar asked to hold only the new DS; the rollover ends once the retired zone is confirmed served"
                     |>)) ;;;
              save ;;; ret true
          end
      end).

(** ** KSK rollover *)

(** After a committed (possibly not durable) record the new pair is activated;
    otherwise the in-memory record is rolled back by [undo]. *)
Definition save_record (domain : string) (undo : ZoneState.t -> ZoneState.t) : M unit :=
  r <-- save_raw ;;
  match r with
  | Ok _ => ret tt
  | Err e => if IsCommitted e then ret tt
             else mutate domain undo ;;; fail (SaveRolledBack e)
  end.

Definition activateRecorded (domain : string) (r : role) (tag : Z) : M unit :=
  key_op (ActivateKeyPair r domain tag) ActivateFailed.

Definition StartKSKRollover (domain : string) : M unit :=
  oz <-- get_zone domain ;;
  match oz with
  | None => fail ZoneNotFound
  | Some z =>
      if bool_decide (is_Some (Rollover z)) then fail RolloverInProgress
      else match KSK z with
      | None => fail NoKSKFound
      | Some oldKSK =>
          key_op (BackupKey KSKRole domain (KeyState.ID oldKSK)) BackupFailed ;;;
          staged_at <-- time_now ;;
          newKSK <-- key_op (StageKey KSKRole domain (KeyState.Algorithm oldKSK) staged_at) GenerateKeyFailed ;;
          now <-- time_now ;;
          mutate domain (fun z =>
            z <| Rollover := Some (RolloverState.zero
                   <| RType := "ksk" |> <| RState := KSKRolloverStateDSAddWait |>
                   <| OldKeyID := KeyState.ID oldKSK |> <| NewKeyID := KeyState.ID newKSK |>
                   <| Started := now |>
                   <| Action := "Publish new DS record at registrar, then run: sigillum-signer rollover complete "
                                +:+ domain |>) |>
              <| KSK := Some newKSK |> <| ForceResign := true |>) ;;;
          save_record domain (fun z =>
            z <| KSK := Some oldKSK |> <| Rollover := None |> <| ForceResign := false |>) ;;;
          activateRecorded domain KSKRole (KeyState.ID newKSK)
      end
  end.

Definition CompleteKSKRollover (domain : string) (dsObservedAt : Time) (parentDSTTL : Z) : M unit :=
  oz <-- get_zone domain ;;
  match oz with
  | None => fail ZoneNotFound
  | Some z =>
      match Rollover z with
      | None => fail NoRolloverInProgress
      | Some r =>
          if negb (String.eqb (RType r) "ksk") then fail WrongRolloverType
          else if negb (String.eqb (RState r) KSKRolloverStateDSAddWait) then fail (WrongPhase (RState r))
          else
            let ttl := if parentDSTTL =? 0 then ParentDSTTLFallbackSeconds cfg else parentDSTTL in
            stampNewKeyPropagation domain ;;;
            now <-- time_now ;;
            mutate domain (fun z =>
              let z := on_rollover (fun r =>
                r <| RState := KSKRolloverStateDSPropagation |> <| DSObservedAt := dsObservedAt |>
                  <| ParentDSTTL := ttl |> <| PhaseStarted := now |>) z in
              let z := on_rollover (fun r =>
                r <| Action := "Automatic: both KSKs stay published until "
                     +:+ FormatRFC3339 (TAdd (DSObservedAt r) (seconds ttl))
                     +:+ " (parent DS TTL), then the old KSK is retired; "
                     +:+ oldDSRemovalAdvice z now |>) z in
              ClearTransientWarnings z) ;;;
            save
      end
  end.

Definition CheckKSKRollover (domain : string) : M unit :=
  with_rollover domain tt (fun z r =>
    if negb (String.eqb (RType r) "ksk") then ret tt
    else
      now <-- time_now ;;
      stampNewKeyPropagation domain ;;;
      if String.eqb (RState r) KSKRolloverStateDSPropagation then
        _ <-- pushOldDSRemoval domain ;;
        let retireAt := TAdd (DSObservedAt r) (effectiveParentDSTTL (ParentDSTTL r)) in
        if Before now retireAt then ret tt
        else
          mutate domain (fun z =>
            let z := on_rollover (fun r =>
              r <| RState := KSKRolloverStateRetiring |> <| PhaseStarted := now |>) z in
            let z := on_rollover (fun r =>
              r <| Action := "Automatic: old KSK removed from the zone; the rollover ends once that zone is confirmed served; "
                   +:+ oldDSRemovalAdvice z now |>) z in
            z <| ForceResign := true |>) ;;;
          save
      else if String.eqb (RState r) KSKRolloverStateRetiring then
        settled <-- pushOldDSRemoval domain ;;
        if negb (PublishedSince z (PhaseStarted r)) then ret tt
        else if negb settled then ret tt
        else
          mutate domain (fun z => ClearTransientWarnings (z <| Rollover := None |>)) ;;;
          save
      else ret tt).

(** ** ZSK rollover *)

Definition startZSKRollover (domain : string) : M unit :=
  oz <-- get_zone domain ;;
  match oz with
  | None => ret tt
  | Some z =>
      if bool_decide (is_Some (Rollover z)) then ret tt
      else match ZSK z with
      | None => ret tt
      | Some oldZSK =>
          key_op (BackupKey ZSKRole domain (KeyState.ID oldZSK)) BackupFailed ;;;
          staged_at <-- time_now ;;
          newZSK <-- key_op (StageKey ZSKRole domain (KeyState.Algorithm oldZSK) staged_at) GenerateKeyFailed ;;
          now <-- time_now ;;
          mutate domain (fun z =>
            z <| Rollover := Some (RolloverState.zero
                   <| RType := "zsk" |> <| RState := ZSKRolloverStatePrePublish |>
                   <| OldKeyID := KeyState.ID oldZSK |> <| NewKeyID := KeyState.ID newZSK |>
                   <| Started := now |>
                   <| Action := "Automatic: new ZSK is pre-published, will switch to signing in "
                                +:+ humanizeRolloverDelay (cfg_RolloverSwitch (DNSSEC cfg)) |>) |>
              <| ForceResign := true |>) ;;;
          save_record domain (fun z => z <| Rollover := None |> <| ForceResign := false |>) ;;;
          activateRecorded domain ZSKRole (KeyState.ID newZSK)
      end
  end.

(** [stampPhasePublication]: once per phase, from the confirmed publication. *)
Definition stampPhasePublication (domain : string) (floor : Duration) (horizons : list Time) : M unit :=
  with_rollover domain tt (fun z r =>
    if negb (IsZero (PhaseFirstSigned r)) then ret tt
    else
      mutate domain (on_rollover (fun r =>
        r <| PhaseFirstSigned := PublishedAt z |>
          <| PhaseHorizon := phase_horizon (PublishedAt z) floor horizons |>)) ;;;
      save).

(** The ZSK the signing phase records: stamped with the rollover's start. *)
Definition switched_zsk (domain : string) (r : RolloverState.t) (k : DNSKEY) : KeyState.t :=
  KeyState.mk (KeyTag k) (AlgorithmName (KeyAlgorithm k)) (Started r)
    (TAdd (Started r) (GetZoneZSKLifetime cfg domain)) false
    (TAdd (Started r) (three_quarters (GetZoneZSKLifetime cfg domain))).

Definition signingDuration : Duration :=
  let d := cfg_RolloverPrepublish (DNSSEC cfg) - cfg_RolloverSwitch (DNSSEC cfg) in
  if d <=? 0 then cfg_RolloverSwitch (DNSSEC cfg) else d.

Definition zsk_pre_publish (domain : string) (now : Time) (z : ZoneState.t) (r : RolloverState.t)
    : M unit :=
  if TSub now (Started r) <? cfg_RolloverSwitch (DNSSEC cfg) then ret tt
  else if negb (PublishedSince z (Started r)) then ret tt
  else
    stampPhasePublication domain (dnskeyTTLFloor cfg z) [DNSKEYCacheHorizon z] ;;;
    with_rollover domain tt (fun _ r =>
      if Before now (PhaseHorizon r) then ret tt
      else
        newZSK <-- key_op (EnsureLiveKey ZSKRole domain (NewKeyID r)) LoadNewZSK ;;
        mutate domain (fun z =>
          on_rollover (fun r =>
            r <| RState := ZSKRolloverStateSigning |> <| PhaseStarted := now |>
              <| PhaseFirstSigned := ZeroTime |> <| PhaseHorizon := ZeroTime |>
              <| Action := "Automatic: signing with new ZSK, old ZSK still published" |>) z
            <| ZSK := Some (switched_zsk domain r newZSK) |> <| ForceResign := true |>) ;;;
        save).

Definition zsk_signing (domain : string) (now : Time) (z : ZoneState.t) (r : RolloverState.t)
    : M unit :=
  let phaseStart := if IsZero (PhaseStarted r) then Started r else PhaseStarted r in
  if TSub now phaseStart <? signingDuration then ret tt
  else if negb (PublishedSince z phaseStart) then ret tt
  else
    stampPhasePublication domain (zskRetireFloor cfg z) [DNSKEYCacheHorizon z; RRSIGCacheHorizon z] ;;;
    with_rollover domain tt (fun _ r =>
      if Before now (PhaseHorizon r) then ret tt
      else
        mutate domain (fun z =>
          ClearTransientWarnings (z <| Rollover := None |> <| ForceResign := true |>)) ;;;
        save).

Definition handleZSKRolloverState (domain : string) : M unit :=
  with_rollover domain tt (fun z r =>
    now <-- time_now ;;
    if String.eqb (RState r) ZSKRolloverStatePrePublish then zsk_pre_publish domain now z r
    else if String.eqb (RState r) ZSKRolloverStateSigning then zsk_signing domain now z r
    else ret tt).

Definition CheckZSKRollover (domain : string) : M unit :=
  oz <-- get_zone domain ;;
  match oz with
  | None => ret tt
  | Some z =>
      match ZSK z with
      | None => ret tt
      | Some zsk =>
          now <-- time_now ;;
          let prepublishDays := Days (cfg_RolloverPrepublish (DNSSEC cfg)) in
          let daysUntilExpiry := Days (TSub (Expires zsk) now) in
          match Rollover z with
          | Some r =>
              if String.eqb (RType r) "zsk" then handleZSKRolloverState domain
              else if f64_le daysUntilExpiry prepublishDays then
                mutate domain (AddWarning
                  ("ZSK rollover is due (expires in ~" +:+ fmt_0f daysUntilExpiry
                   +:+ " days) but is blocked by the in-progress " +:+ RType r
                   +:+ " rollover; complete that rollover to resume automatic ZSK rollover")) ;;;
                save
              else ret tt
          | None =>
              if f64_le daysUntilExpiry prepublishDays then startZSKRollover domain else ret tt
          end
      end
  end.

(** ** Algorithm rollover *)

Definition StartAlgorithmRollover (domain targetAlgorithm : string) : M unit :=
  oz <-- get_zone domain ;;
  match oz with
  | None => fail ZoneNotFound
  | Some z =>
      if bool_decide (is_Some (Rollover z)) then fail RolloverInProgress
      else match KSK z, ZSK z with
      | Some oldKSK, Some oldZSK =>
          let oldAlgorithm := KeyState.Algorithm oldKSK in
          if String.eqb oldAlgorithm targetAlgorithm then fail AlreadyAlgorithm
          else
            key_op (BackupKey KSKRole domain (KeyState.ID oldKSK)) BackupFailed ;;;
            key_op (BackupKey ZSKRole domain (KeyState.ID oldZSK)) BackupFailed ;;;
            ksk_at <-- time_now ;;
            newKSK <-- key_op (StageKey KSKRole domain targetAlgorithm ksk_at) GenerateKeyFailed ;;
            zsk_at <-- time_now ;;
            newZSK <-- key_op (StageKey ZSKRole domain targetAlgorithm zsk_at) GenerateKeyFailed ;;
            now <-- time_now ;;
            mutate domain (fun z =>
              z <| Rollover := Some (RolloverState.zero
                     <| RType := "algorithm" |> <| RState := AlgoRolloverStateDSAddWait |>
                     <| OldKeyID := KeyState.ID oldKSK |> <| NewKeyID := KeyState.ID newKSK |>
                     <| OldZSKID := KeyState.ID oldZSK |> <| NewZSKID := KeyState.ID newZSK |>
                     <| OldAlgorithm := oldAlgorithm |> <| NewAlgorithm := targetAlgorithm |>
                     <| Started := now |>
                     <| Action := "Automatic: do NOT publish the new DS yet — the new algorithm's keys and signatures must first be confirmed served and cached data must expire; "
                          +:+ "status reports when the new DS (algorithm " +:+ targetAlgorithm
                          +:+ ") may be published (registrar automation adds it then); afterwards run: sigillum-signer rollover complete "
                          +:+ domain |>) |>
                <| KSK := Some newKSK |> <| ZSK := Some newZSK |> <| ForceResign := true |>) ;;;
            save_record domain (fun z =>
              z <| KSK := Some oldKSK |> <| ZSK := Some oldZSK |>
                <| Rollover := None |> <| ForceResign := false |>) ;;;
            activateRecorded domain KSKRole (KeyState.ID newKSK) ;;;
            activateRecorded domain ZSKRole (KeyState.ID newZSK)
      | _, _ => fail NoUsableKeys
      end
  end.

Definition CompleteAlgorithmRollover (domain : string) (dsObservedAt : Time) (parentDSTTL : Z)
    : M unit :=
  oz <-- get_zone domain ;;
  match oz with
  | None => fail ZoneNotFound
  | Some z =>
      match Rollover z with
      | None => fail NoRolloverInProgress
      | Some r =>
          if negb (String.eqb (RType r) "algorithm") then fail WrongRolloverType
          else if negb (String.eqb (RState r) AlgoRolloverStateDSAddWait) then fail (WrongPhase (RState r))
          else
            let ttl := if parentDSTTL =? 0 then ParentDSTTLFallbackSeconds cfg else parentDSTTL in
            stampNewKeyPropagation domain ;;;
            now <-- time_now ;;
            mutate domain (fun z => ClearTransientWarnings (on_rollover (fun r =>
              r <| RState := AlgoRolloverStateDSPropagation |> <| DSObservedAt := dsObservedAt |>
                <| ParentDSTTL := ttl |> <| PhaseStarted := now |>
                <| Action := "Automatic: both algorithms stay published until "
                     +:+ FormatRFC3339 (TAdd dsObservedAt (seconds ttl))
                     +:+ " (parent DS TTL); then the OLD DS (algorithm " +:+ OldAlgorithm r
                     +:+ ") is removed at the registrar once the new keys have propagated" |>) z)) ;;;
            save
      end
  end.

Definition advanceAlgorithmDSAdd (domain : string) (now : Time) : M unit :=
  with_rollover domain tt (fun z r =>
    let manual := "Publish new DS record (algorithm " +:+ NewAlgorithm r
                  +:+ ") at registrar, then run: sigillum-signer rollover complete " +:+ domain in
    let added := "Registrar automation added the new DS (algorithm " +:+ NewAlgorithm r
                 +:+ "); once it is at every parent server run: sigillum-signer rollover complete " +:+ domain in
    action <--
      match newKeysPropagated z now with
      | Some reason =>
          ret ("Automatic: do NOT publish the new DS yet — " +:+ reason
               +:+ "; the new DS (algorithm " +:+ NewAlgorithm r
               +:+ ") may be published after that (registrar automation adds it then), followed by: sigillum-signer rollover complete "
               +:+ domain)
      | None =>
          if negb (IsZero (DSAddPushedAt r)) then ret added
          else if negb has_publisher then ret manual
          else
            reply <-- publishDS now domain OpRolloverNewDSAdd ;;
            match reply with
            | Err _ =>
                ret ("Registrar automation could not add the new DS (algorithm " +:+ NewAlgorithm r
                     +:+ ") and retries every cycle; alternatively publish it yourself, then run: sigillum-signer rollover complete "
                     +:+ domain)
            | Ok true =>
                mutate domain (on_rollover (fun r => r <| DSAddPushedAt := now |>)) ;;; ret added
            | Ok false => ret manual
            end
      end ;;
    with_rollover domain tt (fun _ r =>
      if String.eqb (Action r) action
         && (IsZero (DSAddPushedAt r) || negb (TEqual (DSAddPushedAt r) now)) then ret tt
      else
        mutate domain (on_rollover (fun r => r <| Action := action |>)) ;;;
        save)).

(** The warning list of a zone whose phase is blocked for [msg], and whether it
    changed. *)
Definition blocked_warnings (ws : list string) (msg : string) : list string * bool :=
  let kept := List.filter (fun w => negb (HasPrefix w blockedPhasePrefix) || String.eqb w msg) ws in
  let dropped := existsb (fun w => HasPrefix w blockedPhasePrefix && negb (String.eqb w msg)) ws in
  if str_in kept msg then (kept, dropped) else (kept ++ [msg], true).

Definition noteBlockedPhase (domain reason : string) : M unit :=
  oz <-- get_zone domain ;;
  match oz with
  | None => ret tt
  | Some z =>
      let msg := blockedPhasePrefix +:+ reason in
      let '(kept, changed) := blocked_warnings (Warnings z) msg in
      mutate domain (fun z => z <| Warnings := kept |>) ;;;
      if changed then save else ret tt
  end.

Definition clearBlockedPhase (domain : string) : M unit :=
  oz <-- get_zone domain ;;
  match oz with
  | None => ret tt
  | Some z =>
      if existsb (fun w => HasPrefix w blockedPhasePrefix) (Warnings z) then
        mutate domain (fun z =>
          z <| Warnings := List.filter (fun w => negb (HasPrefix w blockedPhasePrefix)) (Warnings z) |>) ;;;
        save
      else ret tt
  end.

Definition maxUint32 (a b : Z) : Z := if b <? a then a else b.

(** [algo_old_ds_removal_wait] before the old DS was seen gone. *)
Definition algo_await_old_ds_gone (domain : string) (now : Time) (r : RolloverState.t) : M unit :=
  _ <-- pushOldDSRemoval domain ;;
  if negb has_probe then ret tt
  else
    oldKSK <-- key_op (LoadPublicKeyByID KSKRole domain (OldKeyID r)) LoadOldKSK ;;
    reply <-- probeParentDS domain oldKSK ;;
    match reply with
    | Err e =>
        noteBlockedPhase domain
          ("the parent DS probe failed (" +:+ e +:+ "); it is retried every cycle")
    | Ok obs =>
        clearBlockedPhase domain ;;;
        if negb (AbsentOnAll obs (OldKeyID r)) then ret tt
        else
          let ttlSeen := if ObsTTL obs =? 0 then ParentDSTTL r else ObsTTL obs in
          let retireAfter := TAdd now (effectiveParentDSTTL (maxUint32 ttlSeen (ParentDSTTL r))) in
          mutate domain (on_rollover (fun r =>
            r <| OldDSRemovedAt := now |>
              <| ParentDSTTL := if ParentDSTTL r <? ttlSeen then ttlSeen else ParentDSTTL r |>
              <| Action := "Automatic: old DS gone; old-algorithm keys are retired after "
                           +:+ FormatRFC3339 retireAfter |>)) ;;;
          save
    end.

Definition CheckAlgorithmRollover (domain : string) : M unit :=
  with_rollover domain tt (fun z r =>
    if negb (String.eqb (RType r) "algorithm") then ret tt
    else
      now <-- time_now ;;
      let ttl := effectiveParentDSTTL (ParentDSTTL r) in
      stampNewKeyPropagation domain ;;;
      if String.eqb (RState r) AlgoRolloverStateDSAddWait then advanceAlgorithmDSAdd domain now
      else if String.eqb (RState r) AlgoRolloverStateDSPropagation then
        if Before now (TAdd (DSObservedAt r) ttl) then ret tt
        else
          mutate domain (fun z =>
            let z := on_rollover (fun r =>
              r <| RState := AlgoRolloverStateOldDSRemoval |> <| PhaseStarted := now |>) z in
            on_rollover (fun r =>
              r <| Action := "Remove the OLD DS record (algorithm " +:+ OldAlgorithm r +:+ ", key tag "
                   +:+ fmt_d (OldKeyID r) +:+ ") at your registrar — " +:+ oldDSRemovalAdvice z now
                   +:+ "; the old-algorithm keys are retired automatically one parent DS TTL after it is gone from every parent server" |>) z) ;;;
          save ;;;
          _ <-- pushOldDSRemoval domain ;; ret tt
      else if String.eqb (RState r) AlgoRolloverStateOldDSRemoval then
        if IsZero (OldDSRemovedAt r) then algo_await_old_ds_gone domain now r
        else if Before now (TAdd (OldDSRemovedAt r) (effectiveParentDSTTL (ParentDSTTL r))) then ret tt
        else
          mutate domain (fun z =>
            on_rollover (fun r =>
              r <| RState := AlgoRolloverStateRetiring |> <| PhaseStarted := now |>
                <| Action := "Automatic: old-algorithm keys removed from the zone; the rollover ends once that zone is confirmed served" |>) z
              <| ForceResign := true |>) ;;;
          save
      else if String.eqb (RState r) AlgoRolloverStateRetiring then
        if negb (PublishedSince z (PhaseStarted r)) then ret tt
        else
          mutate domain (fun z => ClearTransientWarnings (z <| Rollover := None |>)) ;;;
          save
      else ret tt).

(** ** What the operator is shown *)

Definition GetRolloverStatus (domain : string) : M (option RolloverState.t) :=
  z <-- get_zone domain ;; ret (z ≫= Rollover).

Definition OldDSRemovalAdvice (domain : string) : M string :=
  z <-- get_zone domain ;;
  match z with
  | Some z =>
      match Rollover z with
      | None => ret ""
      | Some _ => now <-- time_now ;; ret (oldDSRemovalAdvice z now)
      end
  | None => ret ""
  end.
End manager.
