(* ===== verification/RolloverSpec.v ===== *)
(** * RolloverSpec: what a rollover may do to a zone, as a step relation

    [rstep now z log z'] lists the elementary changes a rollover operation may
    make to a zone's record at time [now], each with the gate that must be open,
    and the DS updates it asks of the registrar.  [SysStep] puts those steps in
    the zone's whole life next to signings and publication confirmations, with a
    ghost history of how long resolvers may keep each superseded generation.
    RolloverRefine.v shows that rollover.go only performs these steps;
    RolloverSafety.v proves what every reachable state satisfies. *)

From stdpp Require Import base list strings gmap relations.
From Stdlib Require Import ZArith Lia.
From S2P Require Import Prelude GoTime Config ZoneState StateStore KeyOps Rollover.
Import KeyState RolloverState ZoneState.
Local Open Scope Z_scope.
Local Open Scope sig_scope.

Definition log_entry : Type := Time * string.

(** [z] with another rollover record. *)
Definition with_roll (z : ZoneState.t) (r : RolloverState.t) : ZoneState.t := z <| Rollover := Some r |>.

(** The instant a phase's published key set is measured from. *)
Definition phase_base (r : RolloverState.t) : Time :=
  if String.eqb (RType r) "zsk" && String.eqb (RState r) ZSKRolloverStateSigning then
    if IsZero (PhaseStarted r) then Started r else PhaseStarted r
  else Started r.

(** The cache horizon of the phase has been stamped. *)
Definition stamped (r : RolloverState.t) : Prop := PhaseFirstSigned r <> 0 \/ PhaseHorizon r <> 0.

Definition zsk_floor (cfg : Config) (z : ZoneState.t) (r : RolloverState.t) : Duration :=
  if String.eqb (RState r) ZSKRolloverStateSigning then zskRetireFloor cfg z else dnskeyTTLFloor cfg z.
Definition zsk_horizons (z : ZoneState.t) (r : RolloverState.t) : list Time :=
  if String.eqb (RState r) ZSKRolloverStateSigning
  then [DNSKEYCacheHorizon z; RRSIGCacheHorizon z] else [DNSKEYCacheHorizon z].

Definition effTTL (r : RolloverState.t) : Duration := effectiveParentDSTTL (ParentDSTTL r).

Section spec.
Context {F X : Type} `{KeyStore F} `{Seams X} (cfg : Config) (ttl_ok : Z -> Prop) (starts : Prop) (domain : string).

(** Some probe reported the DS of the key that the key directory holds for the tag
    absent from every parent server. *)
Definition seen_absent (tag : Z) : Prop :=
  exists f k f' x obs x', LoadPublicKeyByID KSKRole domain tag f = (Ok k, f') /\
    ProbeParentDS domain k x = (Ok obs, x') /\ AbsentOnAll obs tag = true.

(** The phases that ask for each DS update: the old DS only goes once the new
    one was seen at the parent; a new algorithm's DS is added while it is
    awaited. *)
Definition publish_phase (r : RolloverState.t) (op : string) : Prop :=
  op = OpRolloverOldDSRemoval /\
    RState r ∈ [KSKRolloverStateDSPropagation; KSKRolloverStateRetiring; AlgoRolloverStateOldDSRemoval]
  \/ op = OpRolloverNewDSAdd /\ RState r = AlgoRolloverStateDSAddWait.

(** [ttl_ok] limits the TTLs recorded, [starts] says whether a rollover may
    start. *)
Inductive rstep (now : Time) : ZoneState.t -> list log_entry -> ZoneState.t -> Prop :=
(** bookkeeping: revision, warnings, the operator's advice *)
| rs_noise z n ws : rstep now z [] (z <| Revision := n |> <| Warnings := ws |>)
| rs_action z r a : Rollover z = Some r -> rstep now z [] (with_roll z (r <| Action := a |>))
(** the registrar is asked for a DS update *)
| rs_publish z r op :
    Rollover z = Some r -> RType r ∈ ["ksk"; "algorithm"] -> newKeysPropagated z now = None ->
    publish_phase r op -> rstep now z [(now, op)] z
(** start of a rollover, and its rollback when the record could not be saved *)
| rs_start_ksk z old new a :
    starts -> Rollover z = None -> KSK z = Some old -> KeyState.ID new <> KeyState.ID old ->
    (KeyState.Algorithm old <> "" -> KeyState.Algorithm new = KeyState.Algorithm old) ->
    rstep now z [] (z <| Rollover := Some (RolloverState.zero
      <| RType := "ksk" |> <| RState := KSKRolloverStateDSAddWait |>
      <| OldKeyID := KeyState.ID old |> <| NewKeyID := KeyState.ID new |>
      <| Started := now |> <| Action := a |>) |> <| KSK := Some new |> <| ForceResign := true |>)
| rs_start_zsk z old new a :
    starts -> Rollover z = None -> ZSK z = Some old -> new <> KeyState.ID old ->
    rstep now z [] (z <| Rollover := Some (RolloverState.zero
      <| RType := "zsk" |> <| RState := ZSKRolloverStatePrePublish |>
      <| OldKeyID := KeyState.ID old |> <| NewKeyID := new |>
      <| Started := now |> <| Action := a |>) |> <| ForceResign := true |>)
| rs_start_algorithm z oldK oldZ newK newZ target a :
    starts -> Rollover z = None -> KSK z = Some oldK -> ZSK z = Some oldZ ->
    KeyState.ID newK <> KeyState.ID oldK -> KeyState.ID newZ <> KeyState.ID oldZ ->
    KeyState.Algorithm oldK <> target ->
    is_Some (AlgorithmFromName target) -> KeyState.Algorithm newK = target -> KeyState.Algorithm newZ = target ->
    rstep now z [] (z <| Rollover := Some (RolloverState.zero
      <| RType := "algorithm" |> <| RState := AlgoRolloverStateDSAddWait |>
      <| OldKeyID := KeyState.ID oldK |> <| NewKeyID := KeyState.ID newK |>
      <| OldZSKID := KeyState.ID oldZ |> <| NewZSKID := KeyState.ID newZ |>
      <| OldAlgorithm := KeyState.Algorithm oldK |> <| NewAlgorithm := target |>
      <| Started := now |> <| Action := a |>) |>
      <| KSK := Some newK |> <| ZSK := Some newZ |> <| ForceResign := true |>)
| rs_start_undone z : Rollover z = None -> rstep now z [] (z <| ForceResign := false |>)
(** propagation of the new keys *)
| rs_stamp z r :
    Rollover z = Some r -> RType r ∈ ["ksk"; "algorithm"] -> PhaseHorizon r = 0 ->
    Started r < PublishedGenerationSignedAt z ->
    rstep now z [] (with_roll z (r <| PhaseFirstSigned := PublishedAt z |>
                                   <| PhaseHorizon := propagation_horizon cfg z r |>))
| rs_removal_pushed z r a :
    Rollover z = Some r -> newKeysPropagated z now = None ->
    rstep now z [] (with_roll z (r <| DSRemovalPushedAt := now |> <| Action := a |>))
| rs_add_pushed z r :
    Rollover z = Some r -> RState r = AlgoRolloverStateDSAddWait -> newKeysPropagated z now = None ->
    rstep now z [] (with_roll z (r <| DSAddPushedAt := now |>))
(** KSK phases *)
| rs_ksk_complete z r observed ttl a :
    Rollover z = Some r -> RType r = "ksk" -> RState r = KSKRolloverStateDSAddWait -> ttl_ok ttl ->
    rstep now z [] (with_roll z (r <| RState := KSKRolloverStateDSPropagation |>
      <| DSObservedAt := observed |> <| ParentDSTTL := ttl |> <| PhaseStarted := now |> <| Action := a |>))
| rs_ksk_retire z r a :
    Rollover z = Some r -> RType r = "ksk" -> RState r = KSKRolloverStateDSPropagation ->
    DSObservedAt r + effTTL r <= now ->
    rstep now z [] ((with_roll z (r <| RState := KSKRolloverStateRetiring |> <| PhaseStarted := now |>
      <| Action := a |>)) <| ForceResign := true |>)
| rs_ksk_done z r :
    Rollover z = Some r -> RType r = "ksk" -> RState r = KSKRolloverStateRetiring ->
    PhaseStarted r < PublishedGenerationSignedAt z ->
    (has_publisher = true -> DSRemovalPushedAt r <> 0 \/ newKeysPropagated z now = None) ->
    rstep now z [] (z <| Rollover := None |>)
(** ZSK phases *)
| rs_zsk_stamp z r :
    Rollover z = Some r -> RType r = "zsk" ->
    RState r ∈ [ZSKRolloverStatePrePublish; ZSKRolloverStateSigning] -> PhaseFirstSigned r = 0 ->
    phase_base r < PublishedGenerationSignedAt z ->
    rstep now z [] (with_roll z (r <| PhaseFirstSigned := PublishedAt z |>
      <| PhaseHorizon := phase_horizon (PublishedAt z) (zsk_floor cfg z r) (zsk_horizons z r) |>))
| rs_zsk_switch z r k a :
    Rollover z = Some r -> RType r = "zsk" -> RState r = ZSKRolloverStatePrePublish ->
    cfg_RolloverSwitch (DNSSEC cfg) <= TSub now (Started r) ->
    stamped r -> PhaseHorizon r <= now -> KeyState.ID k = NewKeyID r ->
    (exists alg, KeyState.Algorithm k = AlgorithmName alg) ->
    rstep now z [] ((with_roll z (r <| RState := ZSKRolloverStateSigning |> <| PhaseStarted := now |>
      <| PhaseFirstSigned := ZeroTime |> <| PhaseHorizon := ZeroTime |> <| Action := a |>)) <| ZSK := Some k |> <| ForceResign := true |>)
| rs_zsk_done z r :
    Rollover z = Some r -> RType r = "zsk" -> RState r = ZSKRolloverStateSigning ->
    signingDuration cfg <= TSub now (phase_base r) ->
    stamped r -> PhaseHorizon r <= now ->
    rstep now z [] (z <| Rollover := None |> <| ForceResign := true |>)
(** algorithm phases *)
| rs_algo_complete z r observed ttl a :
    Rollover z = Some r -> RType r = "algorithm" -> RState r = AlgoRolloverStateDSAddWait -> ttl_ok ttl ->
    rstep now z [] (with_roll z (r <| RState := AlgoRolloverStateDSPropagation |>
      <| DSObservedAt := observed |> <| ParentDSTTL := ttl |> <| PhaseStarted := now |> <| Action := a |>))
| rs_algo_old_ds z r a :
    Rollover z = Some r -> RType r = "algorithm" -> RState r = AlgoRolloverStateDSPropagation ->
    DSObservedAt r + effTTL r <= now ->
    rstep now z [] (with_roll z (r <| RState := AlgoRolloverStateOldDSRemoval |> <| PhaseStarted := now |>
      <| Action := a |>))
| rs_algo_gone z r ttl a :
    Rollover z = Some r -> RType r = "algorithm" -> RState r = AlgoRolloverStateOldDSRemoval ->
    OldDSRemovedAt r = 0 -> seen_absent (OldKeyID r) ->
    ttl = ParentDSTTL r \/ (ParentDSTTL r < ttl /\ ttl_ok ttl) ->
    rstep now z [] (with_roll z (r <| OldDSRemovedAt := now |> <| ParentDSTTL := ttl |> <| Action := a |>))
| rs_algo_retire z r a :
    Rollover z = Some r -> RType r = "algorithm" -> RState r = AlgoRolloverStateOldDSRemoval ->
    OldDSRemovedAt r <> 0 -> OldDSRemovedAt r + effTTL r <= now ->
    rstep now z [] ((with_roll z (r <| RState := AlgoRolloverStateRetiring |> <| PhaseStarted := now |>
      <| Action := a |>)) <| ForceResign := true |>)
| rs_algo_done z r :
    Rollover z = Some r -> RType r = "algorithm" -> RState r = AlgoRolloverStateRetiring ->
    PhaseStarted r < PublishedGenerationSignedAt z ->
    rstep now z [] (z <| Rollover := None |>).

(** Any number of steps at times within [lo, hi], with their DS updates. *)
Inductive rsteps (lo hi : Time) : ZoneState.t -> list log_entry -> ZoneState.t -> Prop :=
| rss_refl z : rsteps lo hi z [] z
| rss_step now z1 l1 z2 l2 z3 :
    rsteps lo hi z1 l1 z2 -> lo <= now <= hi -> rstep now z2 l2 z3 -> rsteps lo hi z1 (l1 ++ l2) z3.

(** ** The life of a zone

    A history entry: the signing time of a generation that was superseded, and
    until when resolvers may hold its DNSKEY RRset and its signatures. *)
Record superseded := mkSup { sup_signed : Time; sup_dnskey : Time; sup_rrsig : Time }.

Inductive SysStep : ZoneState.t * list superseded -> list log_entry -> ZoneState.t * list superseded -> Prop :=
| sys_confirm z hist signedAt now :
    PublishedGenerationSignedAt z <= signedAt ->
    SysStep (z, hist) []
      (ConfirmPublication signedAt now z,
       mkSup (PublishedGenerationSignedAt z) (now + seconds (held_dnskey_ttl z))
             (now + seconds (held_rrsig_ttl z)) :: hist)
| sys_confirm_stale z hist signedAt now :
    signedAt < PublishedGenerationSignedAt z ->
    SysStep (z, hist) [] (ConfirmPublication signedAt now z, hist)
(** signing and everything else: the rollover and publication records stay *)
| sys_sign z z' hist :
    same_publication z z' -> PublishedAt z' = PublishedAt z -> Rollover z' = Rollover z ->
    SysStep (z, hist) [] (z', hist)
| sys_rollover z z' l hist now : rstep now z l z' -> SysStep (z, hist) l (z', hist).

Inductive Reachable (z0 : ZoneState.t) : ZoneState.t * list superseded -> Prop :=
| reach_init : Reachable z0 (z0, [])
| reach_step s l s' : Reachable z0 s -> SysStep s l s' -> Reachable z0 s'.
End spec.

(** ** The operations of the manager, as one type *)

Inductive roll_op :=
| OpStartKSK
| OpCompleteKSK (observed : Time) (ttl : Z)
| OpCheckKSK
| OpCheckZSK
| OpStartAlgorithm (target : string)
| OpCompleteAlgorithm (observed : Time) (ttl : Z)
| OpCheckAlgorithm.

Definition run_op {F X : Type} `{KeyStore F} `{Seams X} (cfg : Config) (domain : string) (op : roll_op)
    : St (RWorld F X) roll_error unit :=
  match op with
  | OpStartKSK => StartKSKRollover domain
  | OpCompleteKSK observed ttl => CompleteKSKRollover cfg domain observed ttl
  | OpCheckKSK => CheckKSKRollover cfg domain
  | OpCheckZSK => CheckZSKRollover cfg domain
  | OpStartAlgorithm target => StartAlgorithmRollover domain target
  | OpCompleteAlgorithm observed ttl => CompleteAlgorithmRollover cfg domain observed ttl
  | OpCheckAlgorithm => CheckAlgorithmRollover cfg domain
  end.
