(* ===== verification/RolloverRefine.v ===== *)
(** * RolloverRefine: rollover.go performs only the steps of [RolloverSpec.rstep]

    [Run w z] relates the world a manager method started in with the world it has
    reached: the zone went there by specification steps whose times lie within
    the elapsed interval, the DS updates it asked for are those steps' log, and
    the other zones kept their content.  The rules below are one per primitive of
    Rollover.v; a method is run through them. *)

From stdpp Require Import base list strings gmap relations.
From Stdlib Require Import ZArith Lia.
From S2P Require Import Prelude GoTime Config ZoneState StateStore StateMerge KeyOps Rollover RolloverSpec.
Import KeyState RolloverState ZoneState.
Local Open Scope Z_scope.
Local Open Scope sig_scope.

#[global] Opaque oldDSRemovalAdvice FormatRFC3339 fmt_duration humanizeRolloverDelay fmt_0f fmt_d.

(** ** Lists of steps *)

Section steps.
Context {F X : Type} `{KeyStore F} `{Seams X} (cfg : Config) (ttl_ok : Z -> Prop) (starts : Prop) (domain : string).
Abbreviation steps := (rsteps cfg ttl_ok starts domain).

Lemma rsteps_widen lo hi lo' hi' z l z' :
  steps lo hi z l z' -> lo' <= lo -> hi <= hi' -> steps lo' hi' z l z'.
Proof. induction 1; intros; [constructor|]. eapply rss_step; eauto. lia. Qed.

Lemma rsteps_trans lo hi z1 l1 z2 l2 z3 :
  steps lo hi z1 l1 z2 -> steps lo hi z2 l2 z3 -> steps lo hi z1 (l1 ++ l2) z3.
Proof.
  intros Hs1 Hs2. revert Hs1. induction Hs2; intros Hs1; [by rewrite app_nil_r|].
  rewrite app_assoc. eapply rss_step; eauto.
Qed.

Lemma rsteps_one lo hi now z l z' :
  lo <= now <= hi -> rstep cfg ttl_ok starts domain now z l z' -> steps lo hi z l z'.
Proof. intros. rewrite <- (app_nil_l l). eapply rss_step; eauto. constructor. Qed.

Lemma rsteps_warn lo hi z ws : lo <= hi -> steps lo hi z [] (z <| Warnings := ws |>).
Proof.
  intros. replace (z <| Warnings := ws |>) with (z <| Revision := Revision z |> <| Warnings := ws |>) by done.
  eapply (rsteps_one _ _ lo); [lia | apply rs_noise].
Qed.

(** One step followed by a change of warnings. *)
Lemma rsteps_then_warn lo hi now z z' ws :
  lo <= now <= hi -> rstep cfg ttl_ok starts domain now z [] z' -> steps lo hi z [] (z' <| Warnings := ws |>).
Proof.
  intros. change ([] : list log_entry) with ([] ++ [] : list log_entry).
  eapply rsteps_trans; [eapply rsteps_one; eauto | apply rsteps_warn; lia].
Qed.
End steps.

Lemma warnings_id z : z = z <| Warnings := Warnings z |>.
Proof. by destruct z. Qed.

Lemma AddWarning_eq msg z : exists ws, AddWarning msg z = z <| Warnings := ws |>.
Proof. unfold AddWarning. destruct (str_in _ _); eauto using warnings_id. Qed.

Lemma ClearTransientWarnings_eq z : exists ws, ClearTransientWarnings z = z <| Warnings := ws |>.
Proof. unfold ClearTransientWarnings. destruct (Nat.eqb _ _); eauto using warnings_id. Qed.

Lemma bump_revision_eq b z : exists n, bump_revision b z = z <| Revision := n |>.
Proof. unfold bump_revision. destruct (match b with Some _ => _ | None => _ end); [eauto|]. exists (Revision z). by destruct z. Qed.

Lemma Save_zone w r w' d :
  Save w = (r, w') ->
  match GetZone d (mem w) with
  | Some z => exists n, GetZone d (mem w') = Some (z <| Revision := n |>)
  | None => GetZone d (mem w') = None
  end.
Proof.
  intros Hs. unfold GetZone. rewrite (Save_zones w r w' Hs), bump_all_lookup.
  destruct (Zones (mem w) !! d); cbn; [|done].
  edestruct bump_revision_eq as [n ->]. eauto.
Qed.

Lemma on_rollover_eq z r f : Rollover z = Some r -> on_rollover f z = with_roll z (f r).
Proof. unfold on_rollover, with_roll. by intros ->. Qed.

Lemma with_roll_twice z r r' : with_roll (with_roll z r) r' = with_roll z r'.
Proof. done. Qed.

(** Show a mutation of the rollover record as [with_roll]. *)
Ltac roll_view :=
  repeat first
    [ erewrite on_rollover_eq by reflexivity
    | erewrite on_rollover_eq by eassumption
    | rewrite with_roll_twice ]; cbv beta.

Section refine.
Context {F X : Type} `{KeyStoreLaws F} `{Seams X} (cfg : Config) (ttl_ok : Z -> Prop) (starts : Prop).
Context (domain : string) (w0 : RWorld F X) (z0 : ZoneState.t).
Abbreviation World' := (RWorld F X).
Abbreviation steps := (rsteps cfg ttl_ok starts domain).
Abbreviation step := (rstep cfg ttl_ok starts domain).

(** The other zones keep everything but their revision. *)
Definition others_kept (w w' : World') : Prop :=
  forall d, d <> domain ->
    option_Forall2 same_content (GetZone d (mem (store w))) (GetZone d (mem (store w'))).

(** The world a method reached, apart from how the zone got there. *)
Definition Frame (w : World') (z : ZoneState.t) (log : list log_entry) : Prop :=
  clock w0 <= clock w /\ GetZone domain (mem (store w)) = Some z /\ others_kept w0 w /\
  published w = published w0 ++ log.

Definition Run (w : World') (z : ZoneState.t) : Prop :=
  exists log, Frame w z log /\ steps (clock w0) (clock w) z0 log z.

(** Some specification run explains the world reached. *)
Definition explained (w : World') : Prop := exists z, Run w z.

#[local] Instance others_refl : PreOrder others_kept.
Proof.
  split.
  - intros w d _. destruct (GetZone d _); constructor. reflexivity.
  - intros w1 w2 w3 H12 H23 d Hd. specialize (H12 d Hd). specialize (H23 d Hd).
    inversion H12; subst; inversion H23; subst; try congruence; constructor.
    etrans; [eassumption|]. congruence.
Qed.

Lemma Run_explained w z : Run w z -> explained w.
Proof. by exists z. Qed.

Lemma Run_clock w z : Run w z -> clock w0 <= clock w.
Proof. by intros (log & (? & _) & _). Qed.

(** ** One rule per primitive *)

Lemma wp_get_zone w z Q R : Run w z -> Q (Some z) w -> wp (get_zone domain) Q R w.
Proof. intros (log & (_ & Hz & _) & _). unfold wp, get_zone, gets. by rewrite Hz. Qed.

Lemma wp_with_rollover {A} (dflt : A) w z k Q R :
  Run w z -> (Rollover z = None -> Q dflt w) ->
  (forall r, Rollover z = Some r -> wp (k z r) Q R w) ->
  wp (with_rollover domain dflt k) Q R w.
Proof.
  intros HR Hn Hs. unfold with_rollover. apply wp_bind, (wp_get_zone _ _ _ _ HR).
  destruct (Rollover z); [by apply Hs | by apply Hn].
Qed.

Lemma wp_time w z Q R :
  Run w z ->
  (forall t w', Run w' z -> clock w <= t -> clock w' = t -> keys w' = keys w -> Q t w') ->
  wp time_now Q R w.
Proof.
  intros (log & (Hc & Hz & Ho & Hp) & Hs) HQ. unfold wp, time_now. destruct (ticks w) as [|d ds].
  - apply HQ; [|lia|done|done]. exists log. by repeat split.
  - apply HQ; cbn; [|lia|done|done]. exists log. split; [repeat split; cbn; [lia|done..]|].
    eapply rsteps_widen; eauto; cbn; lia.
Qed.

Lemma frame_mutate f w z log :
  Frame w z log -> wp (E:=roll_error) (mutate domain f)
    (fun _ w' => Frame w' (f z) log /\ clock w' = clock w /\ keys w' = keys w) (fun _ _ => False) w.
Proof.
  intros (Hc & Hz & Ho & Hp). unfold wp, mutate, modify. split; [|done]. split; [done|]. split; [|split].
  - unfold GetZone, UpdateZone in *. cbn. by rewrite lookup_alter_eq, Hz.
  - intros d Hd. specialize (Ho d Hd). unfold GetZone, UpdateZone in *. cbn.
    by rewrite lookup_alter_ne.
  - done.
Qed.

Lemma frame_save w z log :
  Frame w z log -> wp (E:=roll_error) save_raw
    (fun _ w' => (exists n, Frame w' (z <| Revision := n |>) log) /\ clock w' = clock w /\ keys w' = keys w)
    (fun _ _ => False) w.
Proof.
  intros (Hc & Hz & Ho & Hp). unfold wp, save_raw. destruct (Save (store w)) as [r s] eqn:HS.
  pose proof (Save_zone _ _ _ domain HS) as Hd. rewrite Hz in Hd. destruct Hd as [n Hd].
  split; [|done]. exists n. split; [done|]. split; [exact Hd|]. split; [|done].
  intros d Hne. specialize (Ho d Hne). pose proof (Save_zone _ _ _ d HS) as Hd'. cbn.
  destruct (GetZone d (mem (store w))) eqn:E.
  - destruct Hd' as [m Hm]. rewrite Hm. inversion Ho; subst. constructor.
    match goal with H1 : same_content ?a ?b |- _ => rewrite H1 end. reflexivity.
  - rewrite Hd'. inversion Ho. constructor.
Qed.

Lemma wp_mutate w z f Q R :
  Run w z -> steps (clock w0) (clock w) z [] (f z) ->
  (forall w', Run w' (f z) -> clock w' = clock w -> keys w' = keys w -> Q tt w') ->
  wp (mutate domain f) Q R w.
Proof.
  intros (log & Hf & Hs) Hst HQ. eapply wp_mono; [by apply frame_mutate| |done].
  intros [] w' (Hf' & Hc & Hk). apply HQ; [|done|done]. exists log. split; [done|].
  rewrite Hc, <- (app_nil_r log). eapply rsteps_trans; eauto.
Qed.

Lemma steps_revision lo hi z n : lo <= hi -> steps lo hi z [] (z <| Revision := n |>).
Proof.
  intros. replace (z <| Revision := n |>) with (z <| Revision := n |> <| Warnings := Warnings z |>)
    by by destruct z.
  eapply (rsteps_one _ _ _ _ _ _ lo); [lia | apply rs_noise].
Qed.

Lemma wp_save_raw w z Q R :
  Run w z ->
  (forall r n w', Run w' (z <| Revision := n |>) -> clock w' = clock w -> keys w' = keys w -> Q r w') ->
  wp save_raw Q R w.
Proof.
  intros (log & Hf & Hs) HQ. eapply wp_mono; [by eapply frame_save| |done].
  intros r w' ((n & Hf') & Hc & Hk). eapply HQ; [|done|done]. exists log. split; [done|].
  rewrite Hc, <- (app_nil_r log). eapply rsteps_trans; [done|]. apply steps_revision. apply Hf.
Qed.

Lemma wp_save w z Q :
  Run w z ->
  (forall n w', Run w' (z <| Revision := n |>) -> clock w' = clock w -> keys w' = keys w -> Q tt w') ->
  wp save Q (fun _ => explained) w.
Proof.
  intros HR HQ. unfold save. apply wp_bind, (wp_save_raw _ _ _ _ HR).
  intros r n w' HR' Hc Hk. destruct r as [[]|e]; [by eapply HQ | by eapply Run_explained].
Qed.

(** Recording a start: the mutation, its save, and the rollback of a save that
    did not reach the disk. *)
Lemma wp_record w z f undo (k : unit -> St World' roll_error unit) Q :
  Run w z -> steps (clock w0) (clock w) z [] (f z) ->
  (forall n, steps (clock w0) (clock w) z [] (undo ((f z) <| Revision := n |>))) ->
  (forall n w', Run w' ((f z) <| Revision := n |>) -> wp (k tt) Q (fun _ => explained) w') ->
  wp (mutate domain f ;;; u <-- save_record domain undo ;; k u) Q (fun _ => explained) w.
Proof.
  intros (log & Hf & Hs) Hst Hun Hk. apply wp_bind.
  eapply wp_mono; [by apply frame_mutate| |done]. intros [] w1 (Hf1 & Hc1 & Hk1).
  unfold save_record. apply wp_bind, wp_bind.
  eapply wp_mono; [by eapply frame_save| |done]. intros r w2 ((n & Hf2) & Hc2 & Hk2).
  assert (forall z', steps (clock w0) (clock w) z [] z' -> steps (clock w0) (clock w2) z0 log z') as Hj.
  { intros z' Hz'. rewrite <- (app_nil_r log), Hc2, Hc1. eapply rsteps_trans; eauto. }
  assert (Run w2 ((f z) <| Revision := n |>)) as HR2.
  { exists log. split; [done|]. apply Hj. change ([] : list log_entry) with ([] ++ [] : list log_entry).
    eapply rsteps_trans; [exact Hst|]. apply steps_revision. apply Hf. }
  destruct r as [[]|e]; [apply wp_ret; by eapply Hk|].
  destruct (IsCommitted e); [apply wp_ret; by eapply Hk|].
  apply wp_bind. eapply wp_mono; [by apply frame_mutate| |done]. intros [] w3 (Hf3 & Hc3 & Hk3).
  apply wp_fail. exists (undo ((f z) <| Revision := n |>)), log. split; [done|]. rewrite Hc3. by apply Hj.
Qed.

Lemma wp_save_end w z : Run w z -> wp save (fun _ => explained) (fun _ => explained) w.
Proof. intros HR. eapply wp_save; eauto using Run_explained. Qed.

Lemma wp_key_op {A} (m : St F key_error A) wrap w z Q :
  Run w z ->
  (forall a w', Run w' z -> clock w' = clock w -> m (keys w) = (Ok a, keys w') -> Q a w') ->
  wp (key_op m wrap) Q (fun _ => explained) w.
Proof.
  intros HR HQ. unfold key_op, wp, bind, on_keys. destruct (m (keys w)) as [[a|e] f] eqn:E; cbn.
  - by apply HQ.
  - apply (Run_explained _ z). exact HR.
Qed.

Lemma wp_probe k w z Q R :
  Run w z ->
  (forall r x w', Run w' z -> clock w' = clock w -> ProbeParentDS domain k (ext w) = (r, x) -> Q r w') ->
  wp (probeParentDS domain k) Q R w.
Proof.
  intros HR HQ. unfold wp, probeParentDS. destruct (ProbeParentDS domain k (ext w)) as [r x] eqn:E.
  by eapply HQ.
Qed.

Lemma wp_record_warnings msgs : forall w z Q R,
  Run w z ->
  (forall n ws w', Run w' (z <| Revision := n |> <| Warnings := ws |>) -> clock w' = clock w -> Q tt w') ->
  wp (record_warnings domain msgs) Q R w.
Proof.
  induction msgs as [|msg msgs IH]; intros w z Q R HR HQ; cbn [record_warnings].
  - apply wp_ret. apply (HQ (Revision z) (Warnings z)); [|done]. by destruct z.
  - unfold recordRegistrarWarning. apply wp_bind, wp_bind.
    edestruct (AddWarning_eq msg z) as [ws Hws].
    eapply wp_mutate; [exact HR | rewrite Hws; apply rsteps_warn; by eapply Run_clock |].
    intros w1 HR1 Hc1 _. rewrite Hws in HR1. apply wp_bind, (wp_save_raw _ _ _ _ HR1).
    intros _ n1 w2 HR2 Hc2 _. apply wp_ret. eapply IH; [exact HR2|].
    intros n2 ws2 w3 HR3 Hc3. apply (HQ n2 ws2); [exact HR3 | lia].
Qed.

Lemma wp_publish now op w z r Q R :
  Run w z -> Rollover z = Some r -> RType r ∈ ["ksk"; "algorithm"] -> publish_phase r op ->
  newKeysPropagated z now = None -> clock w0 <= now <= clock w ->
  (forall r n ws w', Run w' (z <| Revision := n |> <| Warnings := ws |>) -> clock w' = clock w -> Q r w') ->
  wp (publishDS now domain op) Q R w.
Proof.
  intros (log & (Hc & Hz & Ho & Hp) & Hs) Hr Ht Hph Hnk Hnow HQ. unfold publishDS.
  apply wp_bind. unfold wp at 1. destruct (PublishDS_ext domain op (ext w)) as [reply x].
  apply wp_bind. eapply (wp_record_warnings _ _ z).
  - exists (log ++ [(now, op)]). split; [repeat split; [done..|]; cbn; by rewrite Hp, app_assoc|].
    eapply rsteps_trans; [done|].
    eapply rsteps_one; [exact Hnow|]. by eapply rs_publish.
  - intros n ws w' HR' Hc'. apply wp_ret. eapply HQ; eauto.
Qed.

(** ** Propagation of the new keys

    What the two helpers may leave behind: the same zone and rollover record up
    to the fields they stamp. *)
Definition stamped_as (z : ZoneState.t) (r : RolloverState.t) (n : Z) (ws : list string)
    (pf ph pushed : Time) (a : string) : ZoneState.t :=
  with_roll (z <| Revision := n |> <| Warnings := ws |>)
    (r <| PhaseFirstSigned := pf |> <| PhaseHorizon := ph |> <| DSRemovalPushedAt := pushed |>
       <| Action := a |>).

Lemma stamped_id z r :
  Rollover z = Some r ->
  z = stamped_as z r (Revision z) (Warnings z) (PhaseFirstSigned r) (PhaseHorizon r)
        (DSRemovalPushedAt r) (Action r).
Proof. destruct z, r; cbn. by intros ->. Qed.

Lemma propagated_type (t : string) :
  negb (String.eqb t "ksk") && negb (String.eqb t "algorithm") = false -> t ∈ ["ksk"; "algorithm"].
Proof.
  intros Ht. apply andb_false_iff in Ht as [Ht|Ht]; apply negb_false_iff, String.eqb_eq in Ht as ->;
    set_solver.
Qed.

Lemma wp_stamp w z r Q :
  Run w z -> Rollover z = Some r ->
  (forall n pf ph w', Run w' (stamped_as z r n (Warnings z) pf ph (DSRemovalPushedAt r) (Action r)) ->
     clock w' = clock w -> Q tt w') ->
  wp (stampNewKeyPropagation cfg domain) Q (fun _ => explained) w.
Proof.
  intros HR Hr HQ. unfold stampNewKeyPropagation. eapply wp_with_rollover; [done|congruence|].
  intros r' Hr'. rewrite Hr in Hr'. injection Hr' as <-.
  assert (wp (E:=roll_error) (ret tt) Q (fun _ => explained) w) as Hsame.
  { apply wp_ret. eapply HQ; [|done]. rewrite <- stamped_id by done. done. }
  destruct (_ || _) eqn:E1; [done|]. apply orb_false_iff in E1 as [Ht Hz].
  destruct (negb (PublishedSince z (Started r))) eqn:E2; [done|].
  apply negb_false_iff in E2, Hz. apply After_lt in E2. apply IsZero_eq in Hz.
  apply wp_bind. eapply wp_mutate; [done| |].
  - erewrite on_rollover_eq by done. eapply (rsteps_one _ _ _ _ _ _ (clock w)); [split; [by eapply Run_clock|reflexivity]|].
    apply rs_stamp; auto using propagated_type.
  - intros w1 HR1 Hc1 _. eapply wp_save; [done|]. intros n w2 HR2 Hc2 _.
    eapply (HQ n (PublishedAt z) (propagation_horizon cfg z r)); [|lia].
    erewrite on_rollover_eq in HR2 by done. by destruct z, r.
Qed.

(** What a settled registrar means for the rollover record. *)
Definition settled_at (z : ZoneState.t) (r : RolloverState.t) (hi : Time) : Prop :=
  has_publisher = true ->
  DSRemovalPushedAt r <> 0 \/ exists t, clock w0 <= t <= hi /\ newKeysPropagated z t = None.

Lemma wp_push w z r Q :
  Run w z -> Rollover z = Some r -> RType r ∈ ["ksk"; "algorithm"] ->
  publish_phase r OpRolloverOldDSRemoval ->
  (forall (settled : bool) n ws pushed a w',
     let z' := stamped_as z r n ws (PhaseFirstSigned r) (PhaseHorizon r) pushed a in
     Run w' z' -> clock w <= clock w' ->
     (settled = true -> forall r', Rollover z' = Some r' -> settled_at z' r' (clock w')) ->
     Q settled w') ->
  wp (pushOldDSRemoval domain) Q (fun _ => explained) w.
Proof.
  intros HR Hr Hty Hph HQ. unfold pushOldDSRemoval.
  assert (forall b w1, Run w1 z -> clock w <= clock w1 ->
    (b = true -> settled_at z r (clock w1)) -> Q b w1) as Hsame.
  { intros b w1 HR1 Hc Hb. eapply (HQ b); [erewrite <- stamped_id; eauto | done |].
    intros Hbt r' Hr'. injection Hr' as <-. specialize (Hb Hbt). unfold settled_at in *. cbn in *.
    intros Hp. destruct (Hb Hp) as [?|(t & ? & Hn)]; [by left|right].
    exists t. split; [done|]. unfold newKeysPropagated in *. rewrite Hr in Hn. exact Hn. }
  destruct (negb has_publisher) eqn:Ep.
  { apply wp_ret, Hsame; [done|lia|]. intros _ Hp. by rewrite Hp in Ep. }
  eapply wp_with_rollover; [done|congruence|]. intros r' Hr'. rewrite Hr in Hr'. injection Hr' as <-.
  destruct (negb (IsZero (DSRemovalPushedAt r))) eqn:Ez.
  { apply wp_ret, Hsame; [done|lia|]. intros _ _. left. apply negb_true_iff, IsZero_neq in Ez. done. }
  apply wp_bind. eapply wp_time; [done|]. intros t w1 HR1 Ht Hct _.
  destruct (newKeysPropagated z t) eqn:En.
  { apply wp_ret, Hsame; [done|lia|done]. }
  assert (clock w0 <= t <= clock w1) as Hb by (apply Run_clock in HR; lia).
  apply wp_bind. eapply wp_publish; [done..|]. intros reply n ws w2 HR2 Hc2.
  assert (Run w2 (stamped_as z r n ws (PhaseFirstSigned r) (PhaseHorizon r) (DSRemovalPushedAt r) (Action r)))
    as HR2' by (destruct z, r; cbn in *; subst; exact HR2).
  destruct reply as [[]|e].
  - apply wp_bind. eapply wp_mutate; [exact HR2'| |].
    + erewrite on_rollover_eq by done. eapply (rsteps_one _ _ _ _ _ _ t); [rewrite Hc2; exact Hb|].
      apply rs_removal_pushed; [done|]. unfold newKeysPropagated in *. rewrite Hr in En. exact En.
    + intros w3 HR3 Hc3 _. erewrite on_rollover_eq in HR3 by done.
      apply wp_bind. eapply wp_save; [exact HR3|]. intros n4 w4 HR4 Hc4 _. apply wp_ret.
      eapply (HQ true n4 ws t); [exact HR4|lia|].
      intros _ r' Hr' _. right. exists t. split; [lia|].
      unfold newKeysPropagated in *. rewrite Hr in En. exact En.
  - apply wp_ret. eapply (HQ true n ws); [exact HR2'|lia|]. intros _ r' Hr' _. right.
    exists t. split; [lia|]. unfold newKeysPropagated in *. rewrite Hr in En. exact En.
  - apply wp_ret. eapply (HQ false n ws); [exact HR2'|lia|done].
Qed.

(** ** The KSK methods *)

Hypothesis fallback_ok : ttl_ok (ParentDSTTLFallbackSeconds cfg).
Hypothesis probe_ok : forall k x obs x',
  ProbeParentDS domain k x = (Ok obs, x') -> ttl_ok (ObsTTL obs).

Lemma recorded_ttl_ok ttl :
  ttl = 0 \/ ttl_ok ttl -> ttl_ok (if ttl =? 0 then ParentDSTTLFallbackSeconds cfg else ttl).
Proof. destruct (Z.eqb_spec ttl 0); [done|]. by intros [?|?]. Qed.

(** The end of every method: explained, whatever its result. *)
Abbreviation ends m w := (wp (E:=roll_error) m (fun _ => explained) (fun _ => explained) w).

Lemma ends_ret w z : Run w z -> ends (ret tt) w.
Proof. intros. apply wp_ret. by eapply Run_explained. Qed.
Lemma ends_fail w z e : Run w z -> ends (fail e : St _ _ unit) w.
Proof. intros. apply wp_fail. by eapply Run_explained. Qed.

(** A last mutation made of explained steps, and the save. *)
Lemma ends_mutate_save w z f :
  Run w z -> steps (clock w0) (clock w) z [] (f z) -> ends (mutate domain f ;;; save) w.
Proof.
  intros HR Hf. apply wp_bind. eapply wp_mutate; [done..|]. intros w1 HR1 _ _.
  by eapply wp_save_end.
Qed.

Lemma CheckKSKRollover_explained w z : Run w z -> ends (CheckKSKRollover cfg domain) w.
Proof.
  intros HR. unfold CheckKSKRollover.
  eapply wp_with_rollover; [done | intros; by eapply Run_explained |]. intros r Hr.
  destruct (negb (String.eqb (RType r) "ksk")) eqn:Et; [by eapply ends_ret|].
  apply negb_false_iff, String.eqb_eq in Et.
  apply wp_bind. eapply wp_time; [done|]. intros now w1 HR1 Hnow Hc1 _.
  apply wp_bind. eapply wp_stamp; [done..|]. intros n pf ph w2 HR2 Hc2.
  assert (clock w0 <= now) as Hlo by (apply Run_clock in HR; lia).
  destruct (String.eqb_spec (RState r) KSKRolloverStateDSPropagation) as [Es|Es].
  - apply wp_bind. eapply wp_push; [exact HR2|done|cbn; rewrite Et; set_solver|left; split; [done|cbn; set_solver]|]. intros settled n3 ws3 pu a w3 z3 HR3 Hc3 _.
    destruct (Before now _) eqn:Eb; [by eapply ends_ret|]. apply Before_ge in Eb.
    eapply ends_mutate_save; [exact HR3|]. eapply (rsteps_one _ _ _ _ _ _ now); [lia|].
    cbv zeta. roll_view. eapply rs_ksk_retire; [done..|exact Eb].
  - destruct (String.eqb_spec (RState r) KSKRolloverStateRetiring) as [Es'|Es'];
      [|by eapply ends_ret].
    apply wp_bind. eapply wp_push; [exact HR2|done|cbn; rewrite Et; set_solver|left; split; [done|cbn; set_solver]|]. intros settled n3 ws3 pu a w3 z3 HR3 Hc3 Hset.
    destruct (negb (PublishedSince z (PhaseStarted r))) eqn:Ep; [by eapply ends_ret|].
    apply negb_false_iff, After_lt in Ep.
    destruct settled; [|by eapply ends_ret]. cbn [negb]. specialize (Hset eq_refl _ eq_refl).
    assert (exists t, clock w0 <= t <= clock w3 /\ (has_publisher = true ->
      pu <> 0 \/ newKeysPropagated z3 t = None)) as (t & Ht & Hs).
    { destruct has_publisher eqn:E; [|exists now; split; [lia|done]].
      destruct (Hset E) as [?|(t & ? & ?)]; [exists now|exists t]; (split; [lia|auto]). }
    eapply ends_mutate_save; [exact HR3|].
    edestruct ClearTransientWarnings_eq as [ws ->].
    eapply (rsteps_then_warn _ _ _ _ _ _ t); [done|].
    eapply (rs_ksk_done _ _ _ _ _ z3 (r <| PhaseFirstSigned := pf |> <| PhaseHorizon := ph |>
        <| DSRemovalPushedAt := pu |> <| Action := a |>)); done.
Qed.

Lemma ends_activate w z r tag : Run w z -> ends (activateRecorded domain r tag) w.
Proof. intros HR. eapply wp_key_op; [done|]. intros [] w' HR' _ _. by eapply Run_explained. Qed.

(** A rolled-back start: the keys and the absence of a rollover are as before. *)
Lemma steps_undone lo hi n z z' :
  lo <= hi -> Rollover z = None -> z' = z <| ForceResign := false |> <| Revision := n |> ->
  steps lo hi z [] z'.
Proof.
  intros Hb Hr ->. change ([] : list log_entry) with ([] ++ [] : list log_entry).
  eapply rsteps_trans; [|apply steps_revision; lia].
  eapply (rsteps_one _ _ _ _ _ _ lo); [lia|]. by apply rs_start_undone.
Qed.

Lemma ends_get_zone w z (k : option ZoneState.t -> St World' roll_error unit) :
  Run w z -> ends (k (Some z)) w -> ends (oz <-- get_zone domain ;; k oz) w.
Proof. intros HR Hk. apply wp_bind. by eapply wp_get_zone. Qed.

Lemma StartKSKRollover_explained w z : (Rollover z = None -> starts) -> Run w z -> ends (StartKSKRollover domain) w.
Proof.
  intros Hst HR. eapply ends_get_zone; [done|]. cbv beta iota.
  destruct (Rollover z) eqn:Hr; [by eapply ends_fail|].
  rewrite bool_decide_eq_false_2 by (intros []; done).
  destruct (KSK z) as [old|] eqn:Hk; [|by eapply ends_fail].
  apply wp_bind. eapply wp_key_op; [done|]. intros [] w1 HR1 Hc1 Hb.
  apply wp_bind. eapply wp_time; [done|]. intros t w2 HR2 Hc2 Ht2 Hk2.
  apply wp_bind. eapply wp_key_op; [done|]. intros new w3 HR3 Hc3 Hg.
  apply wp_bind. eapply wp_time; [done|]. intros now w4 HR4 Hc4 Ht4 Hk4.
  assert (KeyState.ID new <> KeyState.ID old) as Hne.
  { eapply StageKey_fresh; [exact Hg|]. rewrite Hk2. by eapply BackupKey_backs_up. }
  eapply wp_record; [done| | |].
  - eapply (rsteps_one _ _ _ _ _ _ now); [apply Run_clock in HR3; lia|]. apply rs_start_ksk; [by apply Hst|done..|]. intros. by eapply StageKey_algorithm.
  - intros n. apply Run_clock in HR3. apply (steps_undone _ _ n); [lia|done|by destruct z; cbn in *; subst].
  - intros n w5 HR5. by eapply ends_activate.
Qed.

Lemma CompleteKSKRollover_explained observed ttl w z :
  ttl = 0 \/ ttl_ok ttl -> Run w z -> ends (CompleteKSKRollover cfg domain observed ttl) w.
Proof.
  intros Httl HR. eapply ends_get_zone; [done|]. cbv beta iota.
  destruct (Rollover z) as [r|] eqn:Hr; [|by eapply ends_fail].
  destruct (String.eqb_spec (RType r) "ksk") as [Ht|]; [cbn [negb]|by eapply ends_fail].
  destruct (String.eqb_spec (RState r) KSKRolloverStateDSAddWait) as [Hs|]; [cbn [negb]|by eapply ends_fail].
  apply recorded_ttl_ok in Httl. cbv zeta.
  apply wp_bind. eapply wp_stamp; [done..|]. intros n pf ph w1 HR1 Hc1.
  apply wp_bind. eapply wp_time; [done|]. intros now w2 HR2 Hc2 Ht2 _.
  eapply ends_mutate_save; [exact HR2|]. edestruct ClearTransientWarnings_eq as [ws ->]. roll_view.
  eapply (rsteps_then_warn _ _ _ _ _ _ now); [apply Run_clock in HR1; lia|].
  by apply rs_ksk_complete.
Qed.

(** ** The ZSK methods *)

Lemma dnskeyTTLFloor_pos z : 0 < dnskeyTTLFloor cfg z.
Proof.
  unfold dnskeyTTLFloor. destruct (_ <=? 0) eqn:E; [vm_compute; done|]. bool_to_prop. done.
Qed.
Lemma zsk_floor_pos z r : 0 < zsk_floor cfg z r.
Proof.
  pose proof (dnskeyTTLFloor_pos z). unfold zsk_floor, zskRetireFloor.
  destruct (String.eqb _ _); [|done]. destruct (_ <? _) eqn:E; bool_to_prop; lia.
Qed.

Lemma phase_horizon_ge p floor hs :
  p + floor <= phase_horizon p floor hs /\ Forall (fun h => h <= phase_horizon p floor hs) hs.
Proof.
  unfold phase_horizon, TAdd. generalize (p + floor). induction hs as [|h hs IH]; intros t; cbn; [split; [lia|constructor]|].
  destruct (IH (if After h t then h else t)) as [IH1 IH2].
  destruct (After h t) eqn:E; time_to_prop; (split; [lia|constructor; [lia|done]]).
Qed.

Lemma wp_phase_stamp w z r Q :
  Run w z -> Rollover z = Some r -> RType r = "zsk" ->
  RState r ∈ [ZSKRolloverStatePrePublish; ZSKRolloverStateSigning] ->
  phase_base r < PublishedGenerationSignedAt z ->
  (forall n r' w', Run w' (with_roll (z <| Revision := n |>) r') -> clock w' = clock w ->
     stamped r' -> (exists pf ph, r' = r <| PhaseFirstSigned := pf |> <| PhaseHorizon := ph |>) ->
     Q tt w') ->
  wp (stampPhasePublication domain (zsk_floor cfg z r) (zsk_horizons z r)) Q (fun _ => explained) w.
Proof.
  intros HR Hr Ht Hs Hp HQ. unfold stampPhasePublication. eapply wp_with_rollover; [done|congruence|].
  intros r' Hr'. rewrite Hr in Hr'. injection Hr' as <-.
  destruct (IsZero (PhaseFirstSigned r)) eqn:Ez; cbn [negb].
  - apply IsZero_eq in Ez. apply wp_bind. eapply wp_mutate; [done| |].
    + roll_view. eapply (rsteps_one _ _ _ _ _ _ (clock w)); [split; [by eapply Run_clock|reflexivity]|].
      by apply rs_zsk_stamp.
    + intros w1 HR1 Hc1 _. erewrite on_rollover_eq in HR1 by done.
      eapply wp_save; [done|]. intros n w2 HR2 Hc2 _.
      eapply (HQ n); [exact HR2|lia| |by do 2 eexists].
      unfold stamped. cbn. destruct (decide (PublishedAt z = 0)) as [->|?]; [right|by left].
      destruct (phase_horizon_ge 0 (zsk_floor cfg z r) (zsk_horizons z r)). pose proof (zsk_floor_pos z r). lia.
  - apply IsZero_neq in Ez. apply wp_ret. eapply (HQ (Revision z) r); [|done|by left|].
    + destruct z; cbn in *; subst. exact HR.
    + exists (PhaseFirstSigned r), (PhaseHorizon r). by destruct r.
Qed.

Lemma zsk_pre_publish_explained now w z r :
  Run w z -> Rollover z = Some r -> RType r = "zsk" -> RState r = ZSKRolloverStatePrePublish ->
  clock w0 <= now <= clock w -> ends (zsk_pre_publish cfg domain now z r) w.
Proof.
  intros HR Hr Ht Hs Hn. unfold zsk_pre_publish.
  destruct (_ <? _) eqn:Ed; [by eapply ends_ret|]. bool_to_prop.
  destruct (PublishedSince z (Started r)) eqn:Ep; [cbn [negb]|by eapply ends_ret]. apply After_lt in Ep.
  apply wp_bind.
  replace (dnskeyTTLFloor cfg z) with (zsk_floor cfg z r) by (unfold zsk_floor; by rewrite Hs).
  replace [DNSKEYCacheHorizon z] with (zsk_horizons z r) by (unfold zsk_horizons; by rewrite Hs).
  eapply wp_phase_stamp; [done..| | |].
  { rewrite Hs. set_solver. } { unfold phase_base. by rewrite Hs, andb_false_r. }
  intros n r' w1 HR1 Hc1 Hst (pf & ph & Er').
  eapply wp_with_rollover; [done|done|]. intros r2 [= <-].
  destruct (Before now (PhaseHorizon r')) eqn:Eb; [by eapply ends_ret|]. apply Before_ge in Eb.
  apply wp_bind. eapply wp_key_op; [done|]. intros k w2 HR2 Hc2 Hk.
  eapply ends_mutate_save; [exact HR2|].
  eapply (rsteps_one _ _ _ _ _ _ now); [lia|]. cbv beta. roll_view.
  eapply (rs_zsk_switch _ _ _ _ _ (with_roll (z <| Revision := n |>) r') r'); subst r'; try done.
  - cbn. by eapply EnsureLiveKey_tag.
  - by eexists.
Qed.

Lemma zsk_signing_explained now w z r :
  Run w z -> Rollover z = Some r -> RType r = "zsk" -> RState r = ZSKRolloverStateSigning ->
  clock w0 <= now <= clock w -> ends (zsk_signing cfg domain now z r) w.
Proof.
  intros HR Hr Ht Hs Hn. unfold zsk_signing. cbv zeta.
  assert ((if IsZero (PhaseStarted r) then Started r else PhaseStarted r) = phase_base r) as ->
    by (unfold phase_base; by rewrite Ht, Hs).
  destruct (_ <? _) eqn:Ed; [by eapply ends_ret|]. bool_to_prop.
  destruct (PublishedSince z (phase_base r)) eqn:Ep; [cbn [negb]|by eapply ends_ret]. apply After_lt in Ep.
  apply wp_bind.
  replace (zskRetireFloor cfg z) with (zsk_floor cfg z r) by (unfold zsk_floor; by rewrite Hs).
  replace [DNSKEYCacheHorizon z; RRSIGCacheHorizon z] with (zsk_horizons z r)
    by (unfold zsk_horizons; by rewrite Hs).
  eapply wp_phase_stamp; [done..| | |].
  { rewrite Hs. set_solver. } { done. }
  intros n r' w1 HR1 Hc1 Hst (pf & ph & Er').
  eapply wp_with_rollover; [done|done|]. intros r2 [= <-].
  destruct (Before now (PhaseHorizon r')) eqn:Eb; [by eapply ends_ret|]. apply Before_ge in Eb.
  eapply ends_mutate_save; [exact HR1|]. cbv beta.
  edestruct ClearTransientWarnings_eq as [ws ->].
  eapply (rsteps_then_warn _ _ _ _ _ _ now); [lia|].
  eapply (rs_zsk_done _ _ _ _ _ (with_roll (z <| Revision := n |>) r') r'); subst r'; done.
Qed.

Lemma handleZSKRolloverState_explained w z r :
  Run w z -> Rollover z = Some r -> RType r = "zsk" -> ends (handleZSKRolloverState cfg domain) w.
Proof.
  intros HR Hr Ht. eapply wp_with_rollover; [done|congruence|]. intros r' Hr'.
  rewrite Hr in Hr'. injection Hr' as <-.
  apply wp_bind. eapply wp_time; [done|]. intros now w1 HR1 Hc1 Ht1 _. apply Run_clock in HR.
  destruct (String.eqb_spec (RState r) ZSKRolloverStatePrePublish);
    [eapply zsk_pre_publish_explained; eauto; lia|].
  destruct (String.eqb_spec (RState r) ZSKRolloverStateSigning);
    [eapply zsk_signing_explained; eauto; lia | by eapply ends_ret].
Qed.

Lemma startZSKRollover_explained w z : (Rollover z = None -> starts) -> Run w z -> ends (startZSKRollover cfg domain) w.
Proof.
  intros Hst HR. eapply ends_get_zone; [done|]. cbv beta iota.
  destruct (Rollover z) eqn:Hr; [by eapply ends_ret|].
  rewrite bool_decide_eq_false_2 by (intros []; done).
  destruct (ZSK z) as [old|] eqn:Hk; [|by eapply ends_ret].
  apply wp_bind. eapply wp_key_op; [done|]. intros [] w1 HR1 Hc1 Hb.
  apply wp_bind. eapply wp_time; [done|]. intros t w2 HR2 Hc2 Ht2 Hk2.
  apply wp_bind. eapply wp_key_op; [done|]. intros new w3 HR3 Hc3 Hg.
  apply wp_bind. eapply wp_time; [done|]. intros now w4 HR4 Hc4 Ht4 Hk4.
  assert (KeyState.ID new <> KeyState.ID old) as Hne.
  { eapply StageKey_fresh; [exact Hg|]. rewrite Hk2. by eapply BackupKey_backs_up. }
  apply Run_clock in HR3. eapply wp_record; [done| | |].
  - eapply (rsteps_one _ _ _ _ _ _ now); [lia|]. apply rs_start_zsk; auto.
  - intros n. apply (steps_undone _ _ n); [lia|done|by destruct z; cbn in *; subst].
  - intros n w5 HR5. by eapply ends_activate.
Qed.

Lemma CheckZSKRollover_explained w z :
  (Rollover z = None -> starts) -> Run w z -> ends (CheckZSKRollover cfg domain) w.
Proof.
  intros Hst HR. eapply ends_get_zone; [done|]. cbv beta iota.
  destruct (ZSK z) as [zsk|] eqn:Hk; [|by eapply ends_ret].
  apply wp_bind. eapply wp_time; [done|]. intros now w1 HR1 Hc1 Ht1 _. cbv zeta.
  destruct (Rollover z) as [r|] eqn:Hr.
  - destruct (String.eqb_spec (RType r) "zsk"); [by eapply handleZSKRolloverState_explained|].
    destruct (f64_le _ _); [|by eapply ends_ret].
    eapply ends_mutate_save; [done|].
    edestruct AddWarning_eq as [ws ->]. apply rsteps_warn. by eapply Run_clock.
  - destruct (f64_le _ _); [by eapply startZSKRollover_explained; [intros; apply Hst|..] | by eapply ends_ret].
Qed.

(** ** The algorithm methods *)

Lemma AlgorithmFromName_nonempty target : is_Some (AlgorithmFromName target) -> target <> "".
Proof. intros [a Ha] ->. by vm_compute in Ha. Qed.

Lemma StartAlgorithmRollover_explained target w z :
  (Rollover z = None -> starts) -> is_Some (AlgorithmFromName target) -> Run w z -> ends (StartAlgorithmRollover domain target) w.
Proof.
  intros Hst Htgt HR. pose proof (AlgorithmFromName_nonempty _ Htgt).
  eapply ends_get_zone; [done|]. cbv beta iota.
  destruct (Rollover z) eqn:Hr; [by eapply ends_fail|].
  rewrite bool_decide_eq_false_2 by (intros []; done).
  destruct (KSK z) as [oldK|] eqn:HK; [|by eapply ends_fail].
  destruct (ZSK z) as [oldZ|] eqn:HZ; [|by eapply ends_fail]. cbv zeta.
  destruct (String.eqb_spec (KeyState.Algorithm oldK) target) as [|Halg]; [by eapply ends_fail|].
  apply wp_bind. eapply wp_key_op; [done|]. intros [] w1 HR1 Hc1 Hb1.
  apply wp_bind. eapply wp_key_op; [done|]. intros [] w2 HR2 Hc2 Hb2.
  apply wp_bind. eapply wp_time; [done|]. intros t w3 HR3 Hc3 Ht3 Hk3.
  apply wp_bind. eapply wp_key_op; [done|]. intros newK w4 HR4 Hc4 Hg4.
  apply wp_bind. eapply wp_time; [done|]. intros t' w5 HR5 Hc5 Ht5 Hk5.
  apply wp_bind. eapply wp_key_op; [done|]. intros newZ w6 HR6 Hc6 Hg6.
  apply wp_bind. eapply wp_time; [done|]. intros now w7 HR7 Hc7 Ht7 Hk7.
  rewrite Hk3 in Hg4. rewrite Hk5 in Hg6.
  assert (KeyState.ID newK <> KeyState.ID oldK) as HneK.
  { eapply StageKey_fresh; [exact Hg4|]. eapply BackupKey_keeps, BackupKey_backs_up; eauto. }
  assert (KeyState.ID newZ <> KeyState.ID oldZ) as HneZ.
  { eapply StageKey_fresh; [exact Hg6|]. eapply StageKey_keeps; [exact Hg4|]. by eapply BackupKey_backs_up. }
  apply Run_clock in HR6. eapply wp_record; [done| | |].
  - eapply (rsteps_one _ _ _ _ _ _ now); [lia|]. eapply rs_start_algorithm; try done; [by apply Hst|..]; by eapply StageKey_algorithm.
  - intros n. apply (steps_undone _ _ n); [lia|done|by destruct z; cbn in *; subst].
  - intros n w8 HR8. apply wp_bind. eapply wp_key_op; [done|]. intros [] w9 HR9 _ _.
    by eapply ends_activate.
Qed.

Lemma CompleteAlgorithmRollover_explained observed ttl w z :
  ttl = 0 \/ ttl_ok ttl -> Run w z -> ends (CompleteAlgorithmRollover cfg domain observed ttl) w.
Proof.
  intros Httl HR. eapply ends_get_zone; [done|]. cbv beta iota.
  destruct (Rollover z) as [r|] eqn:Hr; [|by eapply ends_fail].
  destruct (String.eqb_spec (RType r) "algorithm") as [Ht|]; [cbn [negb]|by eapply ends_fail].
  destruct (String.eqb_spec (RState r) AlgoRolloverStateDSAddWait) as [Hs|]; [cbn [negb]|by eapply ends_fail].
  apply recorded_ttl_ok in Httl. cbv zeta.
  apply wp_bind. eapply wp_stamp; [done..|]. intros n pf ph w1 HR1 Hc1.
  apply wp_bind. eapply wp_time; [done|]. intros now w2 HR2 Hc2 Ht2 _.
  eapply ends_mutate_save; [exact HR2|]. edestruct ClearTransientWarnings_eq as [ws ->]. roll_view.
  eapply (rsteps_then_warn _ _ _ _ _ _ now); [apply Run_clock in HR1; lia|].
  by apply rs_algo_complete.
Qed.

Lemma advanceAlgorithmDSAdd_explained now w z r :
  Run w z -> Rollover z = Some r -> RType r = "algorithm" -> RState r = AlgoRolloverStateDSAddWait ->
  clock w0 <= now <= clock w -> ends (advanceAlgorithmDSAdd domain now) w.
Proof.
  intros HR Hr Ht Hs Hn. unfold advanceAlgorithmDSAdd. eapply wp_with_rollover; [done|congruence|].
  intros r' Hr'. rewrite Hr in Hr'. injection Hr' as <-. cbv zeta. apply wp_bind.
  (* the advice, once chosen, is written if it is new *)
  match goal with |- wp _ (fun a w1 => wp (@?k a) _ _ w1) _ _ => set (K := k) end.
  assert (forall a w1 z1, Run w1 z1 -> clock w <= clock w1 -> ends (K a) w1) as Hset.
  { intros a w1 z1 HR1 Hc1. subst K. cbv beta. eapply wp_with_rollover; [done|intros; by eapply Run_explained|].
    intros r1 Hr1. destruct (String.eqb _ _ && _); [by eapply ends_ret|].
    eapply ends_mutate_save; [done|]. roll_view.
    eapply (rsteps_one _ _ _ _ _ _ now); [lia|]. by apply rs_action. }
  destruct (newKeysPropagated z now) eqn:Enk; [apply wp_ret; eapply Hset; [done|lia]|].
  destruct (negb (IsZero (DSAddPushedAt r))); [apply wp_ret; eapply Hset; [done|lia]|].
  destruct (negb has_publisher); [apply wp_ret; eapply Hset; [done|lia]|].
  apply wp_bind. eapply wp_publish; [done|done|rewrite Ht; set_solver|by right|done|done|]. intros reply n ws w2 HR2 Hc2.
  destruct reply as [[]|e]; [|apply wp_ret; eapply Hset; [done|lia]..].
  apply wp_bind. eapply wp_mutate; [exact HR2| |].
  - roll_view. eapply (rsteps_one _ _ _ _ _ _ now); [lia|]. apply rs_add_pushed; [done..|].
    unfold newKeysPropagated in *. rewrite Hr in Enk. cbn. rewrite Hr. exact Enk.
  - intros w3 HR3 Hc3 _. apply wp_ret. eapply Hset; [exact HR3|lia].
Qed.

Lemma noteBlockedPhase_explained reason w z : Run w z -> ends (noteBlockedPhase domain reason) w.
Proof.
  intros HR. eapply ends_get_zone; [done|]. cbv beta iota zeta.
  destruct (blocked_warnings _ _) as [kept changed]. apply wp_bind.
  eapply wp_mutate; [done|apply rsteps_warn; by eapply Run_clock|]. intros w1 HR1 _ _.
  destruct changed; [by eapply wp_save_end | by eapply ends_ret].
Qed.

Lemma wp_clearBlockedPhase w z Q :
  Run w z ->
  (forall n ws w', Run w' (z <| Revision := n |> <| Warnings := ws |>) -> clock w' = clock w -> Q tt w') ->
  wp (clearBlockedPhase domain) Q (fun _ => explained) w.
Proof.
  intros HR HQ. unfold clearBlockedPhase. apply wp_bind. eapply wp_get_zone; [done|]. cbv beta iota.
  destruct (existsb _ _).
  - apply wp_bind. eapply wp_mutate; [done|apply rsteps_warn; by eapply Run_clock|]. intros w1 HR1 Hc1 _.
    eapply wp_save; [done|]. intros n w2 HR2 Hc2 _. eapply HQ; [exact HR2|lia].
  - apply wp_ret. eapply (HQ (Revision z) (Warnings z)); [|done]. by destruct z.
Qed.

Lemma algo_await_old_ds_gone_explained now w z r r0 :
  Run w z -> Rollover z = Some r -> RType r = "algorithm" -> RState r = AlgoRolloverStateOldDSRemoval ->
  OldDSRemovedAt r = 0 -> OldKeyID r0 = OldKeyID r -> ParentDSTTL r0 = ParentDSTTL r ->
  clock w0 <= now <= clock w -> ends (algo_await_old_ds_gone domain now r0) w.
Proof.
  intros HR Hr Ht Hs Hz Hid Httl Hn. unfold algo_await_old_ds_gone. rewrite Hid, Httl.
  apply wp_bind. eapply wp_push; [done|done|rewrite Ht; set_solver|left; split; [done|rewrite Hs; set_solver]|]. intros settled n1 ws1 pu a w1 z1 HR1 Hc1 _.
  destruct (negb has_probe); [by eapply ends_ret|].
  apply wp_bind. eapply wp_key_op; [done|]. intros oldKSK w2 HR2 Hc2 Hload.
  apply wp_bind. eapply wp_probe; [done|]. intros reply x w3 HR3 Hc3 Hp.
  destruct reply as [obs|e]; [|by eapply noteBlockedPhase_explained].
  apply wp_bind. eapply wp_clearBlockedPhase; [done|]. intros n4 ws4 w4 HR4 Hc4.
  destruct (AbsentOnAll obs (OldKeyID r)) eqn:Ea; [cbn [negb]|by eapply ends_ret]. cbv zeta.
  eapply ends_mutate_save; [exact HR4|]. roll_view.
  eapply (rsteps_one _ _ _ _ _ _ now); [lia|].
  eapply rs_algo_gone; [reflexivity|done|done|done| |].
  - by exists (keys w1), oldKSK, (keys w2), (ext w2), obs, x.
  - cbn. destruct (Z.eqb_spec (ObsTTL obs) 0); [left; by destruct (_ <? _)|].
    destruct (Z.ltb_spec (ParentDSTTL r) (ObsTTL obs)); [right|by left]. split; [done|].
    by eapply probe_ok.
Qed.

Lemma CheckAlgorithmRollover_explained w z : Run w z -> ends (CheckAlgorithmRollover cfg domain) w.
Proof.
  intros HR. unfold CheckAlgorithmRollover.
  eapply wp_with_rollover; [done | intros; by eapply Run_explained |]. intros r Hr.
  destruct (String.eqb_spec (RType r) "algorithm") as [Ht|]; [cbn [negb]|by eapply ends_ret].
  apply wp_bind. eapply wp_time; [done|]. intros now w1 HR1 Hc1 Ht1 _. cbv zeta.
  apply wp_bind. eapply wp_stamp; [done..|]. intros n2 pf ph w2 HR2 Hc2. apply Run_clock in HR.
  destruct (String.eqb_spec (RState r) AlgoRolloverStateDSAddWait).
  { eapply advanceAlgorithmDSAdd_explained; [exact HR2|done..|lia]. }
  destruct (String.eqb_spec (RState r) AlgoRolloverStateDSPropagation).
  { destruct (Before now _) eqn:Eb; [by eapply ends_ret|]. apply Before_ge in Eb.
    apply wp_bind. eapply wp_mutate; [exact HR2| |].
    - cbv beta zeta. roll_view. eapply (rsteps_one _ _ _ _ _ _ now); [lia|]. by apply rs_algo_old_ds.
    - intros w3 HR3 Hc3 _. cbv beta zeta in HR3.
      do 2 erewrite on_rollover_eq in HR3 by reflexivity.
      apply wp_bind. eapply wp_save; [exact HR3|]. intros n4 w4 HR4 Hc4 _.
      apply wp_bind. eapply wp_push; [exact HR4|done|cbn; rewrite Ht; set_solver|left; split; [done|cbn; set_solver]|]. intros settled n5 ws5 pu a w5 z5 HR5 _ _.
      by eapply ends_ret. }
  destruct (String.eqb_spec (RState r) AlgoRolloverStateOldDSRemoval).
  { destruct (IsZero (OldDSRemovedAt r)) eqn:Ez.
    - apply IsZero_eq in Ez. eapply algo_await_old_ds_gone_explained; [exact HR2|done..|lia].
    - apply IsZero_neq in Ez. destruct (Before now _) eqn:Eb; [by eapply ends_ret|]. apply Before_ge in Eb.
      eapply ends_mutate_save; [exact HR2|]. roll_view.
      eapply (rsteps_one _ _ _ _ _ _ now); [lia|]. by eapply rs_algo_retire. }
  destruct (String.eqb_spec (RState r) AlgoRolloverStateRetiring); [|by eapply ends_ret].
  destruct (PublishedSince z (PhaseStarted r)) eqn:Ep; [cbn [negb]|by eapply ends_ret]. apply After_lt in Ep.
  eapply ends_mutate_save; [exact HR2|]. edestruct ClearTransientWarnings_eq as [ws ->].
  eapply (rsteps_then_warn _ _ _ _ _ _ now); [lia|]. by eapply rs_algo_done.
Qed.

(** ** Every operation *)

(** What the callers guarantee (main.go): the target algorithm was recognised,
    the TTL is absent or acceptable. *)
Definition op_ok (op : roll_op) : Prop :=
  match op with
  | OpStartAlgorithm target => is_Some (AlgorithmFromName target)
  | OpCompleteKSK _ ttl | OpCompleteAlgorithm _ ttl => ttl = 0 \/ ttl_ok ttl
  | _ => True
  end.

Lemma run_op_explained op w z :
  op_ok op -> (Rollover z = None -> starts) -> Run w z -> ends (run_op cfg domain op) w.
Proof.
  destruct op; cbn [op_ok run_op]; eauto using StartKSKRollover_explained,
    CompleteKSKRollover_explained, CheckKSKRollover_explained, CheckZSKRollover_explained,
    StartAlgorithmRollover_explained, CompleteAlgorithmRollover_explained, CheckAlgorithmRollover_explained.
Qed.
End refine.
