(* ===== verification/RolloverSafety.v ===== *)
(** * RolloverSafety: the invariants of the rollover specification

    Proved by induction over [rstep] and [SysStep]: a record stays one the state
    store accepts ([zone_wf]), a stamped cache horizon covers everything cached of
    the generations before the phase ([cache_inv]), and every phase was entered
    after its wait ([timeline]). *)

From stdpp Require Import base list strings gmap relations.
From Stdlib Require Import ZArith Lia Ascii.
From S2P Require Import Prelude GoTime Config ZoneState StateStore StateMerge KeyOps Rollover RolloverSpec RolloverRefine.
Import KeyState RolloverState ZoneState.
Local Open Scope Z_scope.
Local Open Scope sig_scope.

(** ** Well-formed zone records *)

Definition key_named (k : KeyState.t) : Prop := TrimSpace (KeyState.Algorithm k) <> "".

Definition zone_wf (z : ZoneState.t) : Prop :=
  zone_rollover_wf z /\ (forall k, KSK z = Some k -> key_named k) /\ (forall k, ZSK z = Some k -> key_named k).

Lemma TrimSpace_nonspace c s : is_space_byte c = false -> TrimSpace (String c s) <> "".
Proof.
  intros Hc. unfold TrimSpace. cbn [trim_left]. rewrite Hc. cbn [trim_right].
  destruct (trim_right s); rewrite ?Hc; done.
Qed.

Lemma TrimSpace_empty s : TrimSpace s <> "" -> s <> "".
Proof. by intros H ->. Qed.

Lemma AlgorithmName_named alg : TrimSpace (AlgorithmName alg) <> "".
Proof. unfold AlgorithmName. repeat destr_match; by apply TrimSpace_nonspace. Qed.

Lemma AlgorithmFromName_named target : is_Some (AlgorithmFromName target) -> TrimSpace target <> "".
Proof.
  intros [a Ha]. unfold AlgorithmFromName in Ha. eqb_strings.
  repeat match type of Ha with context [String.eqb ?s ?t] => destruct (String.eqb_spec s t) as [->|] end; done.
Qed.

Ltac roll_cases := unfold with_roll in *; cbn in *; simplify_eq.

Section wf.
Context {F X : Type} `{KeyStore F} `{Seams X} (cfg : Config) (ttl_ok : Z -> Prop) (starts : Prop) (domain : string).
Hypothesis ttl_bound : forall t, ttl_ok t -> t <= maxDNSTTLSeconds.
Abbreviation step := (rstep cfg ttl_ok starts domain).
Abbreviation steps := (rsteps cfg ttl_ok starts domain).

(** A record that differs in timing fields only. *)
Lemma rollover_wf_same z z' r r' :
  rollover_wf z r ->
  RType r' = RType r -> RState r' = RState r -> ParentDSTTL r' <= maxDNSTTLSeconds ->
  OldKeyID r' = OldKeyID r -> NewKeyID r' = NewKeyID r -> OldZSKID r' = OldZSKID r ->
  NewZSKID r' = NewZSKID r -> OldAlgorithm r' = OldAlgorithm r -> NewAlgorithm r' = NewAlgorithm r ->
  KSK z' = KSK z -> ZSK z' = ZSK z -> rollover_wf z' r'.
Proof.
  intros Hwf Et Es Htt E1 E2 E3 E4 E5 E6 E7 E8.
  destruct Hwf; [eapply wf_ksk|eapply wf_zsk_prepublish|eapply wf_zsk_signing|eapply wf_algorithm];
    rewrite ?Et, ?Es, ?E1, ?E2, ?E3, ?E4, ?E5, ?E6, ?E7, ?E8; eauto.
Qed.

(** The phase may also move within its kind. *)
Lemma rollover_wf_phase z z' r r' states :
  rollover_wf z r -> RType r' = RType r -> ParentDSTTL r' <= maxDNSTTLSeconds ->
  (RType r = "ksk" /\ states = [KSKRolloverStateDSAddWait; KSKRolloverStateDSPropagation; KSKRolloverStateRetiring]
   \/ RType r = "algorithm" /\ states = [AlgoRolloverStateDSAddWait; AlgoRolloverStateDSPropagation;
              AlgoRolloverStateOldDSRemoval; AlgoRolloverStateRetiring]) ->
  RState r' ∈ states ->
  OldKeyID r' = OldKeyID r -> NewKeyID r' = NewKeyID r -> OldZSKID r' = OldZSKID r ->
  NewZSKID r' = NewZSKID r -> OldAlgorithm r' = OldAlgorithm r -> NewAlgorithm r' = NewAlgorithm r ->
  KSK z' = KSK z -> ZSK z' = ZSK z -> rollover_wf z' r'.
Proof.
  intros Hwf Et Htt Hst Hs E1 E2 E3 E4 E5 E6 E7 E8.
  destruct Hwf; destruct Hst as [[Hk ->]|[Hk ->]]; try congruence;
    [eapply wf_ksk|eapply wf_algorithm];
    rewrite ?Et, ?E1, ?E2, ?E3, ?E4, ?E5, ?E6, ?E7, ?E8; eauto.
Qed.

Lemma rollover_wf_ttl z r : rollover_wf z r -> ParentDSTTL r <= maxDNSTTLSeconds.
Proof. by destruct 1. Qed.

Lemma rollover_wf_zsk z r :
  rollover_wf z r -> RType r = "zsk" -> OldKeyID r <> NewKeyID r.
Proof. by destruct 1. Qed.

(** Steps that only touch the record's times and texts. *)
Ltac same_record Hr Hx :=
  pose proof (Hr _ Hx) as Hwf; eapply rollover_wf_same; [exact Hwf|..];
  first [reflexivity | exact (rollover_wf_ttl _ _ Hwf) | idtac].
(** Steps that move to another phase of the same kind. *)
Ltac next_phase Hr Hx :=
  pose proof (Hr _ Hx) as Hwf; eapply rollover_wf_phase;
  [exact Hwf | reflexivity | first [exact (rollover_wf_ttl _ _ Hwf) | by apply ttl_bound]
  | first [left; split; [assumption | reflexivity] | right; split; [assumption | reflexivity]] | cbn; set_solver | reflexivity..].

Lemma rstep_rollover_wf now z l z' :
  step now z l z' -> zone_wf z -> zone_rollover_wf z'.
Proof.
  intros Hs (Hr & Hk & Hz) r' Hr'. unfold zone_rollover_wf in Hr.
  destruct Hs as [z n ws|z r a Hx|z r op Hx|z old new a _ Hx Ho Hne|z old new a _ Hx Ho Hne
    |z oK oZ nK nZ target a _ Hx HK HZ HnK HnZ Ha Hsup HaK HaZ|z Hx|z r Hx|z r a Hx|z r Hx|z r ob ttl a Hx Ht Hst Httl
    |z r a Hx Ht Hst|z r Hx|z r Hx|z r k a Hx Ht Hst|z r Hx|z r ob ttl a Hx Ht Hst Httl|z r a Hx Ht Hst
    |z r ttl a Hx Ht Hst Hz0 Hab Httl|z r a Hx Ht Hst|z r Hx];
    try (change (Rollover z = Some r') in Hr'; by same_record Hr Hr');
    try (cbn in Hr'; discriminate Hr'); injection Hr' as <-;
    try (by same_record Hr Hx).
  - eapply wf_ksk; [done|done|cbn; set_solver|cbn; congruence|reflexivity|done].
  - eapply wf_zsk_prepublish; [done|done|done|cbn; congruence|exact Ho|done].
  - eapply wf_algorithm; [done|done|cbn; set_solver|cbn; congruence|cbn; congruence|by apply Hk
      |by apply AlgorithmFromName_named|done|reflexivity|reflexivity|done|done].
  - by next_phase Hr Hx.
  - by next_phase Hr Hx.
  - pose proof (Hr _ Hx) as Hwf. eapply wf_zsk_signing; [exact (rollover_wf_ttl _ _ Hwf)|done|done| |reflexivity|done].
    exact (rollover_wf_zsk _ _ Hwf Ht).
  - by next_phase Hr Hx.
  - by next_phase Hr Hx.
  - same_record Hr Hx. destruct Httl as [->|[_ ?]]; [exact (rollover_wf_ttl _ _ Hwf) | by apply ttl_bound].
  - by next_phase Hr Hx.
Qed.

Lemma rstep_keys_named now z l z' :
  step now z l z' -> zone_wf z ->
  (forall k, KSK z' = Some k -> key_named k) /\ (forall k, ZSK z' = Some k -> key_named k).
Proof.
  intros Hs (Hr & Hk & Hz).
  destruct Hs as [z n ws|z r a Hx|z r op Hx|z old new a _ Hx Ho Hne Halg|z old new a _ Hx Ho Hne
    |z oK oZ nK nZ target a _ Hx HK HZ HnK HnZ Ha Hsup HaK HaZ|z Hx|z r Hx|z r a Hx|z r Hx|z r ob ttl a Hx Ht Hst Httl
    |z r a Hx Ht Hst|z r Hx|z r Hx|z r k a Hx Ht Hst Hd Hs Hh Hid Hal|z r Hx|z r ob ttl a Hx Ht Hst Httl|z r a Hx Ht Hst
    |z r ttl a Hx Ht Hst Hz0 Hab Httl|z r a Hx Ht Hst|z r Hx];
    try (split; [exact Hk | exact Hz]); (split; [|try exact Hz]); try exact Hk; intros k' [= <-]; unfold key_named.
  - pose proof (Hk _ Ho). rewrite Halg; [done|]. by apply TrimSpace_empty.
  - rewrite HaK. by apply AlgorithmFromName_named.
  - rewrite HaZ. by apply AlgorithmFromName_named.
  - destruct Hal as [alg ->]. apply AlgorithmName_named.
Qed.

Lemma rstep_wf now z l z' : step now z l z' -> zone_wf z -> zone_wf z'.
Proof.
  intros Hs Hwf. split; [by eapply rstep_rollover_wf | by eapply rstep_keys_named].
Qed.

Lemma rsteps_wf lo hi z l z' : steps lo hi z l z' -> zone_wf z -> zone_wf z'.
Proof. induction 1; eauto using rstep_wf. Qed.
End wf.

(** ** Cache cover: what a stamped phase horizon is worth *)

(** The phases whose horizon also covers cached signatures. *)
Definition needs_rrsig (r : RolloverState.t) : Prop :=
  RType r = "algorithm" \/ RType r = "zsk" /\ RState r = ZSKRolloverStateSigning.

(** No resolver holds, past [t], data of a generation signed before [since]. *)
Definition caches_clear (hist : list superseded) (since t : Time) (rrsig : Prop) : Prop :=
  forall e, e ∈ hist -> sup_signed e <= since -> sup_dnskey e <= t /\ (rrsig -> sup_rrsig e <= t).

(** A stamped phase was stamped after a later generation was confirmed, with a
    horizon past everything cached of the generations before the phase. *)
Definition phase_covered (hist : list superseded) (z : ZoneState.t) (r : RolloverState.t) : Prop :=
  stamped r ->
  phase_base r < PublishedGenerationSignedAt z /\
  caches_clear hist (phase_base r) (PhaseHorizon r) (needs_rrsig r).

Definition cache_inv (s : ZoneState.t * list superseded) : Prop :=
  (forall e, e ∈ snd s -> sup_dnskey e <= DNSKEYCacheHorizon (fst s) /\ sup_rrsig e <= RRSIGCacheHorizon (fst s)) /\
  (forall r, Rollover (fst s) = Some r -> phase_covered (snd s) (fst s) r).

Lemma caches_clear_all (hist : list superseded) since t (b : Prop) dk rr :
  (forall e, e ∈ hist -> sup_dnskey e <= dk /\ sup_rrsig e <= rr) ->
  dk <= t -> (b -> rr <= t) -> caches_clear hist since t b.
Proof. intros Hh Hd Hr e He _. destruct (Hh e He). split; [lia|]. intros Hb. specialize (Hr Hb). lia. Qed.

Lemma propagation_horizon_covers cfg z r :
  DNSKEYCacheHorizon z <= propagation_horizon cfg z r /\
  (RType r = "algorithm" -> RRSIGCacheHorizon z <= propagation_horizon cfg z r) /\
  PublishedAt z + newKeyFloor cfg z r <= propagation_horizon cfg z r.
Proof.
  unfold propagation_horizon, TAdd. cbv zeta.
  destruct (After (DNSKEYCacheHorizon z) _) eqn:E1; time_to_prop;
    destruct (String.eqb_spec (RType r) "algorithm"); cbn [andb]; try (split; [lia|split; [congruence|lia]]);
    destruct (After (RRSIGCacheHorizon z) _) eqn:E2; time_to_prop; lia.
Qed.

Section cover.
Context {F X : Type} `{KeyStore F} `{Seams X} (cfg : Config) (ttl_ok : Z -> Prop) (starts : Prop) (domain : string).
Abbreviation step := (rstep cfg ttl_ok starts domain).
Abbreviation steps := (rsteps cfg ttl_ok starts domain).
Abbreviation SStep := (SysStep cfg ttl_ok starts domain).
Abbreviation Reach := (Reachable cfg ttl_ok starts domain).

(** A change of the record that keeps its kind, base and horizon. *)
Lemma phase_covered_same hist z z' r r' :
  phase_covered hist z r -> PublishedGenerationSignedAt z' = PublishedGenerationSignedAt z ->
  RType r' = RType r -> phase_base r' = phase_base r -> PhaseFirstSigned r' = PhaseFirstSigned r ->
  PhaseHorizon r' = PhaseHorizon r -> (needs_rrsig r' -> needs_rrsig r) -> phase_covered hist z' r'.
Proof.
  unfold phase_covered, stamped. intros Hc -> Ht -> -> -> Hn Hs. destruct (Hc Hs) as [? Hcc].
  split; [done|]. intros e He Hle. destruct (Hcc e He Hle). auto.
Qed.

Lemma phase_base_not_zsk r : RType r <> "zsk" -> phase_base r = Started r.
Proof. unfold phase_base. intros Hn. by apply String.eqb_neq in Hn as ->. Qed.

Lemma rstep_cache_inv now z l z' hist :
  step now z l z' -> cache_inv (z, hist) -> cache_inv (z', hist).
Proof.
  intros Hs [Hh Hc]. cbn [fst snd] in *. split; [by destruct Hs|]. cbn [fst snd].
  intros r' Hr'.
  destruct Hs as [z n ws|z r a Hx|z r op Hx|z old new a _ Hx Ho Hne|z old new a _ Hx Ho Hne
    |z oK oZ nK nZ target a _ Hx HK HZ|z Hx|z r Hx Ht Hz0 Hp|z r a Hx|z r Hx|z r ob ttl a Hx Ht Hst Httl
    |z r a Hx Ht Hst|z r Hx|z r Hx Ht Hst Hz0 Hp|z r k a Hx Ht Hst|z r Hx|z r ob ttl a Hx Ht Hst Httl|z r a Hx Ht Hst
    |z r ttl a Hx Ht Hst Hz0 Hab Httl|z r a Hx Ht Hst|z r Hx];
    try (change (Rollover z = Some r') in Hr'; exact (Hc _ Hr'));
    try (cbn in Hr'; discriminate Hr'); injection Hr' as <-;
    try (intros [?|?]; done);
    try (eapply phase_covered_same; [exact (Hc _ Hx)|reflexivity..|]; by intros [?|[? ?]]; [left|right]);
    try (eapply phase_covered_same; [exact (Hc _ Hx)|reflexivity|reflexivity| |reflexivity|reflexivity|];
         [by rewrite !phase_base_not_zsk by (cbn; congruence) | by intros [?|[? ?]]; [left|right; cbn in *; congruence]]).
  - intros _. cbn [PublishedGenerationSignedAt with_roll set].
    destruct (propagation_horizon_covers cfg z r) as (Hd & Hr & _).
    assert (RType r <> "zsk") as Hz by (intros E; rewrite E in Ht; set_solver).
    rewrite phase_base_not_zsk by done. split; [exact Hp|].
    eapply caches_clear_all; [exact Hh|exact Hd|]. intros [?|[? _]]; [by apply Hr|done].
  - intros _. change (phase_base _) with (phase_base r). split; [exact Hp|].
    destruct (phase_horizon_ge (PublishedAt z) (zsk_floor cfg z r) (zsk_horizons z r)) as [_ Hf].
    rewrite Forall_forall in Hf.
    eapply caches_clear_all; [exact Hh| |].
    + apply Hf. unfold zsk_horizons. destruct (String.eqb _ _); set_solver.
    + intros [?|[_ ?]]; [cbn in *; congruence|]. apply Hf. unfold zsk_horizons. cbn in *.
      match goal with Hs : RState r = _ |- _ => rewrite Hs end. cbn. set_solver.
Qed.

Lemma SysStep_cache_inv s l s' : SStep s l s' -> cache_inv s -> cache_inv s'.
Proof.
  intros Hs. destruct Hs as [z hist signedAt now Hle|z hist signedAt now Hlt|z z' hist Hp Ha Hr|z z' l hist now Hs].
  - intros [Hh Hc]. cbn [fst snd] in *. rewrite ConfirmPublication_fresh by done. split; cbn [fst snd].
    + intros e [->|He]%elem_of_cons; cbn; [lia|]. destruct (Hh e He). lia.
    + intros r Hr Hst. cbn in *. destruct (Hc r Hr Hst) as [Hb Hcc]. split; [lia|].
      intros e [->|He]%elem_of_cons Hle'; [cbn in Hle'; lia|]. by apply Hcc.
  - by rewrite ConfirmPublication_stale.
  - intros [Hh Hc]. destruct Hp as (E1 & E2 & _ & _ & E5). split; cbn [fst snd] in *.
    + rewrite E1, E2. exact Hh.
    + rewrite Hr. intros r Hx Hst. unfold phase_covered in Hc. rewrite E5. exact (Hc r Hx Hst).
  - by eapply rstep_cache_inv.
Qed.

Lemma Reachable_cache_inv z0 s : Rollover z0 = None -> Reach z0 s -> cache_inv s.
Proof.
  intros Hz. induction 1; [|by eapply SysStep_cache_inv].
  split; cbn [fst snd]; [intros e He; by apply elem_of_nil in He | congruence].
Qed.

Lemma Reachable_rsteps z0 lo hi z l z' hist :
  steps lo hi z l z' -> Reach z0 (z, hist) -> Reach z0 (z', hist).
Proof.
  induction 1 as [|now z1 l1 z2 l2 z3 Hs IH Hn Hst]; [done|]. intros Hr.
  eapply reach_step; [by apply IH|]. by eapply sys_rollover.
Qed.

(** A log entry of a run was written by a publication step in between. *)
Lemma rsteps_entry lo hi z l z' e :
  steps lo hi z l z' -> e ∈ l ->
  exists l1 zm r, steps lo hi z l1 zm /\ lo <= e.1 <= hi /\ Rollover zm = Some r /\
    RType r ∈ ["ksk"; "algorithm"] /\ newKeysPropagated zm e.1 = None /\ publish_phase r e.2.
Proof.
  induction 1 as [|now z1 l1 z2 l2 z3 Hs IH Hn Hst]; [by intros ?%elem_of_nil|].
  intros [He|He]%elem_of_app; [by apply IH|].
  destruct Hst; try by apply elem_of_nil in He. apply list_elem_of_singleton in He as ->. eauto 10.
Qed.

Lemma rstep_published now z l z' : step now z l z' -> PublishedGenerationSignedAt z' = PublishedGenerationSignedAt z.
Proof. by destruct 1. Qed.
Lemma rsteps_published lo hi z l z' : steps lo hi z l z' -> PublishedGenerationSignedAt z' = PublishedGenerationSignedAt z.
Proof. induction 1; [done|]. erewrite rstep_published; eauto. Qed.

(** A record there at the end was there at the start, or was started since. *)
Lemma rsteps_origin lo hi z l z' r' :
  steps lo hi z l z' -> Rollover z' = Some r' ->
  lo <= Started r' \/ exists r, Rollover z = Some r /\ RType r' = RType r /\ Started r' = Started r.
Proof.
  intros Hs. revert r'. induction Hs as [|now z1 l1 z2 l2 z3 Hs IH Hn Hst]; intros r' Hr'; [right; eauto|].
  assert (Started r' = now \/ exists r2, Rollover z2 = Some r2 /\ RType r' = RType r2 /\ Started r' = Started r2) as [->|(r2 & Hr2 & Et & Es)].
  { destruct Hst; cbn in Hr'; simplify_eq; eauto. }
  - left. lia.
  - destruct (IH _ Hr2) as [?|(r & Hr & Et' & Es')]; [left; lia|]. right. exists r. split; [done|]. split; congruence.
Qed.

Lemma newKeysPropagated_None z r now :
  Rollover z = Some r -> newKeysPropagated z now = None -> PhaseHorizon r <> 0 /\ PhaseHorizon r <= now.
Proof.
  intros Hr. unfold newKeysPropagated. rewrite Hr.
  destruct (_ || _) eqn:E; [done|]. apply orb_false_iff in E as [_ Hz]. apply IsZero_neq in Hz.
  destruct (Before _ _) eqn:E; [done|]. by apply Before_ge in E.
Qed.

Lemma caches_clear_later hist since t t' (b b' : Prop) :
  caches_clear hist since t b -> t <= t' -> (b' -> b) -> caches_clear hist since t' b'.
Proof. intros Hc Ht Hb e He Hle. destruct (Hc e He Hle) as [? Hr]. split; [lia|]. intros Hb'. specialize (Hr (Hb Hb')). lia. Qed.

(** ** The order and the dwell of the phases

    One constructor per phase, with the wait that led to it. *)
Inductive timeline (r : RolloverState.t) : Prop :=
| tl_ksk_wait : RType r = "ksk" -> RState r = KSKRolloverStateDSAddWait -> timeline r
| tl_ksk_propagation : RType r = "ksk" -> RState r = KSKRolloverStateDSPropagation -> timeline r
| tl_ksk_retiring :
    RType r = "ksk" -> RState r = KSKRolloverStateRetiring ->
    DSObservedAt r + effTTL r <= PhaseStarted r -> timeline r
| tl_zsk_prepublish : RType r = "zsk" -> RState r = ZSKRolloverStatePrePublish -> timeline r
| tl_zsk_signing :
    RType r = "zsk" -> RState r = ZSKRolloverStateSigning ->
    Started r + cfg_RolloverSwitch (DNSSEC cfg) <= PhaseStarted r -> timeline r
| tl_algo_wait :
    RType r = "algorithm" -> RState r = AlgoRolloverStateDSAddWait -> OldDSRemovedAt r = 0 -> timeline r
| tl_algo_propagation :
    RType r = "algorithm" -> RState r = AlgoRolloverStateDSPropagation -> OldDSRemovedAt r = 0 -> timeline r
| tl_algo_removal :
    RType r = "algorithm" -> RState r = AlgoRolloverStateOldDSRemoval ->
    DSObservedAt r + effTTL r <= PhaseStarted r \/ seen_absent domain (OldKeyID r) ->
    (OldDSRemovedAt r <> 0 -> seen_absent domain (OldKeyID r)) -> timeline r
| tl_algo_retiring :
    RType r = "algorithm" -> RState r = AlgoRolloverStateRetiring ->
    seen_absent domain (OldKeyID r) -> OldDSRemovedAt r <> 0 ->
    OldDSRemovedAt r + effTTL r <= PhaseStarted r -> timeline r.

Lemma timeline_same r r' :
  timeline r -> RType r' = RType r -> RState r' = RState r -> OldKeyID r' = OldKeyID r ->
  Started r' = Started r -> PhaseStarted r' = PhaseStarted r -> DSObservedAt r' = DSObservedAt r ->
  ParentDSTTL r' = ParentDSTTL r -> OldDSRemovedAt r' = OldDSRemovedAt r -> timeline r'.
Proof.
  unfold effTTL. intros Ht E1 E2 E3 E4 E5 E6 E7 E8.
  destruct Ht;
    [eapply tl_ksk_wait|eapply tl_ksk_propagation|eapply tl_ksk_retiring|eapply tl_zsk_prepublish|eapply tl_zsk_signing
    |eapply tl_algo_wait|eapply tl_algo_propagation|eapply tl_algo_removal|eapply tl_algo_retiring];
    unfold effTTL in *; rewrite ?E1, ?E2, ?E3, ?E4, ?E5, ?E6, ?E7, ?E8; assumption.
Qed.

(** What the timeline says in a known phase. *)
Lemma timeline_algo r :
  timeline r -> RType r = "algorithm" ->
  (RState r = AlgoRolloverStateDSAddWait \/ RState r = AlgoRolloverStateDSPropagation -> OldDSRemovedAt r = 0) /\
  (RState r = AlgoRolloverStateOldDSRemoval -> OldDSRemovedAt r <> 0 -> seen_absent domain (OldKeyID r)).
Proof.
  intros Ht Hty. destruct Ht as [E Es|E Es|E Es|E Es|E Es|E Es|E Es|E Es _|E Es]; rewrite Hty in E; try discriminate E;
    rewrite Es; (split; [by intros [?|?]|intros ?]); done.
Qed.

Lemma timeline_ksk r :
  timeline r -> RType r = "ksk" -> RState r = KSKRolloverStateRetiring -> DSObservedAt r + effTTL r <= PhaseStarted r.
Proof.
  intros Ht Hty Hst. destruct Ht as [E Es|E Es|E Es Hd|E Es|E Es|E Es|E Es|E Es|E Es]; rewrite Hty in E; rewrite Hst in Es; done.
Qed.

Lemma timeline_retiring r :
  timeline r -> RType r = "algorithm" -> RState r = AlgoRolloverStateRetiring ->
  seen_absent domain (OldKeyID r) /\ OldDSRemovedAt r + effTTL r <= PhaseStarted r.
Proof.
  intros Ht Hty Hst. destruct Ht as [E Es|E Es|E Es Hd|E Es|E Es|E Es|E Es|E Es|E Es]; rewrite Hty in E; rewrite Hst in Es; done.
Qed.

Lemma rstep_timeline now z l z' :
  int64_min < cfg_RolloverSwitch (DNSSEC cfg) ->
  step now z l z' -> (forall r, Rollover z = Some r -> timeline r) ->
  forall r', Rollover z' = Some r' -> timeline r'.
Proof.
  intros Hsw Hs Ht r' Hr'.
  destruct Hs as [z n ws|z r a Hx|z r op Hx|z old new a _ Hx Ho Hne|z old new a _ Hx Ho Hne
    |z oK oZ nK nZ target a _ Hx HK HZ|z Hx|z r Hx Ht' Hz0 Hp|z r a Hx|z r Hx|z r ob ttl a Hx Ht' Hst Httl
    |z r a Hx Ht' Hst Hgate|z r Hx|z r Hx Ht' Hst Hz0 Hp|z r k a Hx Ht' Hst Hd|z r Hx|z r ob ttl a Hx Ht' Hst Httl|z r a Hx Ht' Hst
    |z r ttl a Hx Ht' Hst Hz0 Hab Httl|z r a Hx Ht' Hst Hrm Hgate|z r Hx];
    try (change (Rollover z = Some r') in Hr'; exact (Ht _ Hr'));
    try (cbn in Hr'; discriminate Hr'); injection Hr' as <-;
    try (eapply timeline_same; [exact (Ht _ Hx)|reflexivity..]).
  - by apply tl_ksk_wait.
  - by apply tl_zsk_prepublish.
  - by apply tl_algo_wait.
  - by apply tl_ksk_propagation.
  - by apply tl_ksk_retiring.
  - apply tl_zsk_signing; [done|done|]. cbn. by apply TSub_ge_elapsed.
  - destruct (timeline_algo r (Ht _ Hx) Ht') as [Hz _]. apply tl_algo_propagation; [done|done|]. cbn. auto.
  - destruct (timeline_algo r (Ht _ Hx) Ht') as [Hz _]. apply tl_algo_removal; [done|done|by left|]. cbn. rewrite Hz; [done|auto].
  - apply tl_algo_removal; [done|done|by right|done].
  - destruct (timeline_algo r (Ht _ Hx) Ht') as [_ Hz]. apply tl_algo_retiring; try done. by apply Hz.
Qed.

Lemma SysStep_timeline s l s' :
  int64_min < cfg_RolloverSwitch (DNSSEC cfg) -> SStep s l s' ->
  (forall r, Rollover (fst s) = Some r -> timeline r) -> forall r, Rollover (fst s') = Some r -> timeline r.
Proof.
  intros Hsw Hs. destruct Hs as [z hist signedAt now Hle|z hist signedAt now Hlt|z z' hist Hp Ha Hr|z z' l hist now Hs];
    cbn [fst].
  - by rewrite ConfirmPublication_fresh.
  - by rewrite ConfirmPublication_stale.
  - by rewrite Hr.
  - by eapply rstep_timeline.
Qed.

Lemma Reachable_timeline z0 s :
  int64_min < cfg_RolloverSwitch (DNSSEC cfg) -> Rollover z0 = None -> Reach z0 s ->
  forall r, Rollover (fst s) = Some r -> timeline r.
Proof.
  intros Hsw Hz. induction 1; [cbn; congruence|]. by eapply SysStep_timeline.
Qed.
End cover.

(** ** Paths without a start: one rollover from beginning to end *)

#[export] Instance KeyState_eq_dec : EqDecision KeyState.t.
Proof. solve_decision. Defined.

Section paths.
Context {F X : Type} `{KeyStore F} `{Seams X} (cfg : Config) (ttl_ok : Z -> Prop) (domain : string).
Abbreviation steps := (rsteps cfg ttl_ok False domain).
Abbreviation step := (rstep cfg ttl_ok False domain).

Lemma rstep_mono now z l z' (starts : Prop) : step now z l z' -> rstep cfg ttl_ok starts domain now z l z'.
Proof.
  destruct 1; [eapply rs_noise|eapply rs_action|eapply rs_publish|eapply rs_start_ksk|eapply rs_start_zsk
     |eapply rs_start_algorithm|eapply rs_start_undone|eapply rs_stamp|eapply rs_removal_pushed|eapply rs_add_pushed
     |eapply rs_ksk_complete|eapply rs_ksk_retire|eapply rs_ksk_done|eapply rs_zsk_stamp|eapply rs_zsk_switch
     |eapply rs_zsk_done|eapply rs_algo_complete|eapply rs_algo_old_ds|eapply rs_algo_gone|eapply rs_algo_retire
     |eapply rs_algo_done];
    first [eassumption | contradiction].
Qed.

Lemma rsteps_mono lo hi z l z' (starts : Prop) : steps lo hi z l z' -> rsteps cfg ttl_ok starts domain lo hi z l z'.
Proof. induction 1; econstructor; eauto using rstep_mono. Qed.

(** Every change happens at some step. *)
Lemma rsteps_change `{EqDecision A} (f : ZoneState.t -> A) lo hi z l z' :
  steps lo hi z l z' -> f z' <> f z ->
  exists zm lm now ln zn, steps lo hi z lm zm /\ lo <= now <= hi /\ step now zm ln zn /\ f zn <> f zm.
Proof.
  induction 1 as [|now z1 l1 z2 l2 z3 Hs IH Hn Hst]; [done|]. intros Hne.
  destruct (decide (f z3 = f z2)) as [E|E]; [apply IH; congruence|]. eauto 10.
Qed.

(** Without a start, a rollover record keeps its identity until it is gone. *)
Definition same_roll (r r' : RolloverState.t) : Prop :=
  RType r' = RType r /\ Started r' = Started r /\ OldKeyID r' = OldKeyID r.

Lemma rstep_same_roll now z l z' r' :
  step now z l z' -> Rollover z' = Some r' -> exists r, Rollover z = Some r /\ same_roll r r'.
Proof.
  intros Hs. destruct Hs; try done; cbn; intros Hr'; simplify_eq;
    eexists; (split; [eassumption || done|]); by repeat split.
Qed.

Lemma rsteps_same_roll lo hi z l z' r' :
  steps lo hi z l z' -> Rollover z' = Some r' -> exists r, Rollover z = Some r /\ same_roll r r'.
Proof.
  intros Hs. revert r'. induction Hs as [|now z1 l1 z2 l2 z3 Hs IH Hn Hst]; intros r' Hr'.
  - exists r'. by repeat split.
  - destruct (rstep_same_roll _ _ _ _ _ Hst Hr') as (r2 & Hr2 & E1 & E2 & E3).
    destruct (IH _ Hr2) as (r1 & Hr1 & F1 & F2 & F3). exists r1. split; [done|].
    repeat split; congruence.
Qed.

(** Without a start, either a phase was entered since [lo] or the record is in the
    phase it was in, with the observations that phase rests on. *)
Definition same_phase (r r' : RolloverState.t) : Prop :=
  RState r' = RState r /\ PhaseStarted r' = PhaseStarted r /\ DSObservedAt r' = DSObservedAt r /\
  (RState r <> AlgoRolloverStateOldDSRemoval -> OldDSRemovedAt r' = OldDSRemovedAt r /\ ParentDSTTL r' = ParentDSTTL r).

Lemma rstep_phase now z l z' r r' :
  step now z l z' -> Rollover z = Some r -> Rollover z' = Some r' -> PhaseStarted r' = now \/ same_phase r r'.
Proof.
  intros Hs Hr Hr'. destruct Hs; cbn in Hr'; simplify_eq; try (by left); right; by repeat split.
Qed.

Lemma rsteps_phase lo hi z l z' r r' :
  steps lo hi z l z' -> Rollover z = Some r -> Rollover z' = Some r' -> lo <= PhaseStarted r' \/ same_phase r r'.
Proof.
  intros Hs Hr. revert r'. induction Hs as [|now z1 l1 z2 l2 z3 Hs IH Hn Hst]; intros r' Hr'.
  { right. simplify_eq. by repeat split. }
  destruct (rstep_same_roll _ _ _ _ _ Hst Hr') as (r2 & Hr2 & _).
  destruct (rstep_phase _ _ _ _ _ _ Hst Hr2 Hr') as [->|(E1 & E2 & E3 & E4)]; [left; lia|].
  destruct (IH Hr _ Hr2) as [?|(F1 & F2 & F3 & F4)]; [left; lia|]. right.
  split_and!; [congruence..|]. intros Hne. destruct (F4 Hne), E4 as [? ?]; [congruence|]. split; congruence.
Qed.

(** The step that ends a rollover, by kind. *)
Lemma rstep_done now z l z' r :
  step now z l z' -> Rollover z = Some r -> Rollover z' = None ->
  (RType r = "ksk" /\ RState r = KSKRolloverStateRetiring /\ PhaseStarted r < PublishedGenerationSignedAt z
     /\ (has_publisher = true -> DSRemovalPushedAt r <> 0 \/ newKeysPropagated z now = None))
  \/ (RType r = "zsk" /\ RState r = ZSKRolloverStateSigning /\ signingDuration cfg <= TSub now (phase_base r)
     /\ stamped r /\ PhaseHorizon r <= now)
  \/ (RType r = "algorithm" /\ RState r = AlgoRolloverStateRetiring /\ PhaseStarted r < PublishedGenerationSignedAt z).
Proof.
  intros Hs Hr Hn. destruct Hs; cbn in Hn; simplify_eq; auto 10.
Qed.

(** A rollover that was there and is gone was there until some step. *)
Lemma rsteps_last lo hi z l z' r :
  steps lo hi z l z' -> Rollover z = Some r -> Rollover z' = None ->
  exists zm lm now ln zn rm, steps lo hi z lm zm /\ lo <= now <= hi /\ step now zm ln zn /\
    Rollover zm = Some rm /\ Rollover zn = None.
Proof.
  intros Hs Hr Hn. destruct (rsteps_change (fun z => bool_decide (Rollover z = None)) _ _ _ _ _ Hs)
    as (zm & lm & now & ln & zn & Hs1 & Hnow & Hst & Hch).
  { rewrite bool_decide_eq_true_2, bool_decide_eq_false_2 by congruence. done. }
  exists zm, lm, now, ln, zn. destruct (Rollover zn) as [rn|] eqn:Hrn.
  - exfalso. apply Hch. destruct (rstep_same_roll _ _ _ _ _ Hst Hrn) as (? & -> & _).
    by rewrite !bool_decide_eq_false_2.
  - destruct (Rollover zm) as [rm|] eqn:Hrm; [by exists rm|done].
Qed.

(** The step that replaces the ZSK. *)
Lemma rstep_zsk_switch now z l z' :
  step now z l z' -> ZSK z' <> ZSK z ->
  exists r, Rollover z = Some r /\ RType r = "zsk" /\ RState r = ZSKRolloverStatePrePublish /\
    cfg_RolloverSwitch (DNSSEC cfg) <= TSub now (Started r) /\ stamped r /\ PhaseHorizon r <= now /\
    ZSK z' <> None.
Proof. intros Hs. destruct Hs; try done; intros _; eauto 10. Qed.
End paths.
