(* ===== verification/RolloverTheorems.v ===== *)
(** * RolloverTheorems: what rollover.go guarantees

    The refinement of RolloverRefine.v and the invariants of RolloverSafety.v put
    together, as theorems about the methods themselves: the record written is one
    the state store accepts again, DS updates and key retirements wait for the
    caches that could still need the old keys, the phases keep their order and
    dwell, and a start that cannot be recorded leaves no trace. *)

From stdpp Require Import base list strings gmap relations.
From Stdlib Require Import ZArith Lia Ascii.
From S2P Require Import Prelude GoTime Config ZoneState StateStore StateMerge KeyOps Rollover RolloverSpec RolloverRefine RolloverSafety.
Import KeyState RolloverState ZoneState.
Local Open Scope Z_scope.
Local Open Scope sig_scope.

(** ** A concrete key store and outside world, for the instances

    Keys are numbered upwards, so a fresh tag exceeds every tag in use. *)

Definition counter_store : KeyStore Z := {|
  StageKey _ _ alg now := fun n => (Ok (KeyState.mk n alg now (now + Hour) false now), n + 1);
  BackupKey _ _ tag := fun n => (Ok tt, Z.max n (tag + 1));
  ActivateKeyPair _ _ _ := fun n => (Ok tt, n);
  EnsureLiveKey _ _ tag := fun n => (Ok (mkDNSKEY "" tag 3 15 ""), n);
  LoadPublicKeyByID _ _ tag := fun n => (Ok (mkDNSKEY "" tag 3 15 ""), n);
  KeyTag := Flags
|}.
#[local] Existing Instance counter_store.

#[local] Instance counter_laws : KeyStoreLaws Z.
Proof.
  refine {| backed_up n _ _ tag := tag < n |}; cbn; intros; simplify_eq; cbn; try done; lia.
Defined.

(** A parent that answers every probe with "absent everywhere", and a registrar
    that performs every update. *)
#[local] Instance sample_seams : Seams unit := {|
  has_probe := true;
  has_publisher := true;
  ProbeParentDS _ _ x := (Ok (mkObs (fun _ => true) (fun _ => true) 3600), x);
  PublishDS_ext _ _ x := (mkReply [] (Ok true), x)
|}.

Definition sample_config : Config := {|
  OutputDir := OutputDir DefaultConfig; DataDir := DataDir DefaultConfig; PollInterval := 5 * Minute;
  DNSSEC := {| cfg_Algorithm := "ED25519"; cfg_KSKLifetime := 8760 * Hour; cfg_ZSKLifetime := 2160 * Hour;
               cfg_SignatureValidity := 336 * Hour; cfg_SignatureRefresh := 72 * Hour;
               cfg_NSECVersion := "nsec3"; cfg_NSEC3Iterations := 0; cfg_NSEC3Salt := ""; cfg_DNSKEYTtl := 3600;
               cfg_RolloverPrepublish := 336 * Hour; cfg_RolloverSwitch := 24 * Hour;
               cfg_SerialPolicy := "epoch"; cfg_Publication := ""; cfg_ParentDSTTL := 0 |};
  Web := Web DefaultConfig; Health := Health DefaultConfig; Heartbeat := Heartbeat DefaultConfig;
  Validation := Validation DefaultConfig; cfg_Zones := ∅; Hooks := Hooks DefaultConfig; Registrar := Registrar DefaultConfig
|}.

(** The world around one zone, at a time. *)
Definition sample_rworld (z : ZoneState.t) (now : Time) : RWorld Z unit :=
  mkRWorld (mkWorld (mkState {["a.example" := z]} ∅ true {["a.example" := z]}) FAbsent [])
    40 now [] tt [].


Section theorems.
Context {F X : Type} `{KeyStoreLaws F} `{Seams X} (cfg : Config) (domain : string).

Lemma run_op_steps (ttl_ok : Z -> Prop) (starts : Prop) op w res w' z :
  ttl_ok (ParentDSTTLFallbackSeconds cfg) ->
  (forall k x obs x', ProbeParentDS domain k x = (Ok obs, x') -> ttl_ok (ObsTTL obs)) ->
  op_ok ttl_ok op -> (Rollover z = None -> starts) ->
  GetZone domain (mem (store w)) = Some z -> run_op cfg domain op w = (res, w') ->
  exists z' log, GetZone domain (mem (store w')) = Some z' /\ published w' = published w ++ log /\
    clock w <= clock w' /\ rsteps cfg ttl_ok starts domain (clock w) (clock w') z log z' /\
    others_kept domain w w'.
Proof.
  intros Hf Hp Hop Hst Hz Hrun.
  assert (Run cfg ttl_ok starts domain w z w z) as HR.
  { exists []. split; [|constructor]. split; [lia|]. split; [done|].
    split; [|by rewrite app_nil_r]. intros d _. destruct (GetZone d _); constructor. reflexivity. }
  pose proof (run_op_explained cfg ttl_ok starts domain w z Hf Hp op w z Hop Hst HR) as Hw.
  apply (wp_run _ _ _ _ _ Hw) in Hrun. destruct Hrun as (z' & log & (Hc & Hz' & Ho & Hpub) & Hs).
  eauto 10.
Qed.

(** ** The store during a start *)

Lemma wp_time_store (w : RWorld F X) (Q : Time -> RWorld F X -> Prop) (R : roll_error -> RWorld F X -> Prop) :
  (forall t w', store w' = store w -> Q t w') -> wp time_now Q R w.
Proof. intros HQ. unfold wp, time_now. destruct (ticks w); by apply HQ. Qed.

Lemma wp_key_store {A} (m : St F key_error A) wrap (w : RWorld F X) Q R :
  (forall a w', store w' = store w -> Q a w') -> (forall e w', store w' = store w -> R (wrap e) w') ->
  wp (key_op m wrap) Q R w.
Proof.
  intros HQ HR. unfold key_op, wp, bind, on_keys. destruct (m (keys w)) as [[a|e] f]; cbn; [by apply HQ | by apply HR].
Qed.

Lemma wp_get_store (w : RWorld F X) z k Q R :
  GetZone domain (mem (store w)) = Some z -> wp (E:=roll_error) (A:=unit) (k (Some z)) Q R w ->
  wp (oz <-- get_zone domain ;; k oz) Q R w.
Proof. intros Hz Hk. apply wp_bind. unfold wp at 1, get_zone, gets. by rewrite Hz. Qed.

(** The record written with its save: on disk, or undone with the disk as it was. *)
Lemma wp_record_store (w : RWorld F X) z f undo (k : unit -> St (RWorld F X) roll_error unit) Q R :
  GetZone domain (mem (store w)) = Some z ->
  (forall n w', GetZone domain (mem (store w')) = Some ((f z) <| Revision := n |>) ->
     disk (store w') = FDoc (marshal (mem (store w'))) -> wp (k tt) Q R w') ->
  (forall e n w', GetZone domain (mem (store w')) = Some (undo ((f z) <| Revision := n |>)) ->
     disk (store w') = disk (store w) -> R (SaveRolledBack e) w') ->
  wp (mutate domain f ;;; u <-- save_record domain undo ;; k u) Q R w.
Proof.
  intros Hz Hc Hu. apply wp_bind. unfold wp at 1, mutate, modify.
  set (w1 := w <| store := _ |>).
  assert (GetZone domain (mem (store w1)) = Some (f z)) as Hz1.
  { unfold GetZone, UpdateZone in *. cbn. by rewrite lookup_alter_eq, Hz. }
  apply wp_bind. unfold save_record. apply wp_bind. unfold wp at 1, save_raw.
  destruct (Save (store w1)) as [r s] eqn:HS.
  pose proof (Save_zone _ _ _ domain HS) as Hd. rewrite Hz1 in Hd. destruct Hd as [n Hd].
  assert (r = Ok tt \/ r = Err WriteUncertain -> disk s = FDoc (marshal (mem s))) as Hdisk.
  { intros Hr. destruct (Save_committed _ _ _ HS Hr) as (_ & _ & _ & _ & ?). done. }
  destruct r as [[]|e]; [apply wp_ret; eapply Hc; [exact Hd|]; by apply Hdisk; left|].
  destruct (IsCommitted e) eqn:Ec.
  - apply wp_ret. eapply Hc; [exact Hd|]. apply Hdisk. right. by destruct e.
  - apply wp_bind. unfold wp at 1, mutate, modify. apply wp_fail. apply (Hu e n); cbn.
    + unfold GetZone, UpdateZone in *. cbn. by rewrite lookup_alter_eq, Hd.
    + by destruct (Save_uncommitted _ _ _ HS Ec) as [-> _].
Qed.

(** ** Properties *)

(** C14: Refinement: whatever an operation of the rollover manager returns,
    what it did to its zone is a sequence of the specification's steps, at times
    within the call, each with its gate open; the DS updates it asked of the
    registrar are exactly those the steps log; and no other zone changed but
    for its revision. *)
Theorem rollover_refines (ttl_ok : Z -> Prop) op w res w' z :
  ttl_ok (ParentDSTTLFallbackSeconds cfg) ->
  (forall k x obs x', ProbeParentDS domain k x = (Ok obs, x') -> ttl_ok (ObsTTL obs)) ->
  op_ok ttl_ok op ->
  GetZone domain (mem (store w)) = Some z -> run_op cfg domain op w = (res, w') ->
  exists z' log, GetZone domain (mem (store w')) = Some z' /\ published w' = published w ++ log /\
    rsteps cfg ttl_ok (Rollover z = None) domain (clock w) (clock w') z log z' /\
    (forall d, d <> domain ->
       option_Forall2 same_content (GetZone d (mem (store w))) (GetZone d (mem (store w')))).
Proof.
  intros Hf Hp Hop Hz Hrun.
  destruct (run_op_steps ttl_ok (Rollover z = None) op w res w' z Hf Hp Hop) as (z' & log & ? & ? & _ & ? & ?);
    eauto 10.
Qed.

(** C34: Operations keep a record the state store accepts: from a zone whose rollover
    record and keys are well formed, and where every parent DS TTL that is reported or
    given is at most 2^31 - 1, any operation, also one that fails part-way, leaves such
    a zone, whose record [validateRolloverState] accepts. *)
Theorem rollover_preserves_wf op w res w' z z' r' :
  (forall k x obs x', ProbeParentDS domain k x = (Ok obs, x') -> ObsTTL obs <= maxDNSTTLSeconds) ->
  op_ok (fun t => t <= maxDNSTTLSeconds) op -> zone_wf z ->
  GetZone domain (mem (store w)) = Some z -> run_op cfg domain op w = (res, w') ->
  GetZone domain (mem (store w')) = Some z' -> Rollover z' = Some r' ->
  validateRolloverState z' r' = Ok tt /\ zone_wf z'.
Proof.
  intros Hp Hop Hwf Hz Hrun Hz' Hr'.
  destruct (run_op_steps (fun t => t <= maxDNSTTLSeconds) True op w res w' z) as (z2 & log & Hz2 & _ & _ & Hs & _); try done.
  { pose proof (parent_ds_ttl_bounds cfg). unfold maxDNSTTLSeconds. lia. }
  rewrite Hz' in Hz2. injection Hz2 as <-.
  assert (zone_wf z') as Hwf' by (by eapply (rsteps_wf cfg (fun t => t <= maxDNSTTLSeconds))).
  split; [|done]. apply validateRolloverState_complete. by apply Hwf'.
Qed.

(** Everything that can happen to a zone before an operation, from a state
    without a rollover. *)
Abbreviation Life := (Reachable cfg (fun _ => True) True domain).


(** C33: The phases that have a wait are entered after it: whatever an operation
    leaves of a rollover, in any life of the zone, a retiring KSK had its new DS observed
    at the parent for a whole parent DS TTL; a ZSK that signs was pre-published for the
    switch delay; the removal of an old algorithm's DS began a parent DS TTL after the
    new one was observed, until the old one is seen gone (which may raise the recorded
    TTL); and a retiring algorithm had its old DS seen gone from every parent server for
    a whole TTL. *)
Theorem rollover_timeline z0 hist op w res w' z z' r' :
  int64_min < cfg_RolloverSwitch (DNSSEC cfg) ->
  Rollover z0 = None -> Life z0 (z, hist) -> op_ok (fun _ => True) op ->
  GetZone domain (mem (store w)) = Some z -> run_op cfg domain op w = (res, w') ->
  GetZone domain (mem (store w')) = Some z' -> Rollover z' = Some r' ->
  timeline cfg domain r'.
Proof.
  intros Hsw Hz0 Hl Hop Hz Hrun Hz' Hr'.
  destruct (run_op_steps (fun _ => True) True op w res w' z) as (z2 & log & Hz2 & _ & _ & Hs & _); try done.
  rewrite Hz' in Hz2. injection Hz2 as <-.
  eapply (Reachable_timeline _ _ _ _ z0 (z', hist)); [done|done| |done].
  by eapply Reachable_rsteps.
Qed.

(** The operation on a zone with a rollover takes a path without a start. *)
Lemma run_op_path op w res w' z z' r :
  op_ok (fun _ => True) op -> Rollover z = Some r ->
  GetZone domain (mem (store w)) = Some z -> run_op cfg domain op w = (res, w') ->
  GetZone domain (mem (store w')) = Some z' ->
  exists log, rsteps cfg (fun _ => True) False domain (clock w) (clock w') z log z'.
Proof.
  intros Hop Hr Hz Hrun Hz'.
  destruct (run_op_steps (fun _ => True) False op w res w' z) as (z2 & log & Hz2 & _ & _ & Hs & _);
    try done; [congruence|]. rewrite Hz' in Hz2. injection Hz2 as <-. eauto.
Qed.

(** C18: A zone starts signing with a new ZSK only when every resolver
    can know it: if an operation replaces the ZSK while a rollover is recorded,
    the rollover is a ZSK rollover whose switch delay has passed, and every
    DNSKEY RRset of a generation signed before the rollover has expired. *)
Theorem zsk_switch_waits_for_caches z0 hist op w res w' z z' r :
  int64_min < cfg_RolloverSwitch (DNSSEC cfg) ->
  Rollover z0 = None -> Life z0 (z, hist) -> op_ok (fun _ => True) op -> Rollover z = Some r ->
  GetZone domain (mem (store w)) = Some z -> run_op cfg domain op w = (res, w') ->
  GetZone domain (mem (store w')) = Some z' -> ZSK z' <> ZSK z ->
  RType r = "zsk" /\ Started r + cfg_RolloverSwitch (DNSSEC cfg) <= clock w' /\
  caches_clear hist (Started r) (clock w') False.
Proof.
  intros Hsw Hz0 Hl Hop Hr Hz Hrun Hz' Hne.
  destruct (run_op_path op w res w' z z' r Hop Hr Hz Hrun Hz') as [log Hs].
  destruct (rsteps_change _ _ _ ZSK _ _ _ _ _ Hs Hne) as (zm & lm & now & ln & zn & Hs1 & Hnow & Hst & Hch).
  destruct (rstep_zsk_switch _ _ _ _ _ _ _ Hst Hch) as (rm & Hrm & Hty & Hph & Hdw & Hstm & Hle & _).
  destruct (rsteps_same_roll _ _ _ _ _ _ _ _ _ Hs1 Hrm) as (r0 & Hr0 & Et & Es & _).
  rewrite Hr in Hr0. injection Hr0 as <-. split; [congruence|].
  apply TSub_ge_elapsed in Hdw; [|done]. rewrite Es in Hdw. split; [lia|].
  pose proof (Reachable_rsteps _ _ _ _ _ _ _ _ _ _ _ (rsteps_mono _ _ _ _ _ _ _ _ True Hs1) Hl) as Hlm.
  destruct (Reachable_cache_inv _ _ _ _ _ _ Hz0 Hlm) as [_ Hc].
  destruct (Hc rm Hrm Hstm) as [_ Hcc].
  replace (phase_base rm) with (Started r) in Hcc by (unfold phase_base; by rewrite Hph, andb_false_r).
  eapply caches_clear_later; [exact Hcc|lia|done].
Qed.

(** C25: A rollover ends only when its old keys are provably unused.  If an operation
    clears the recorded rollover, in any life of the zone, then that record was, when
    the operation began, retiring (or, for a ZSK, signing), and a generation signed
    after that phase began was confirmed served; for a KSK the new DS had been observed
    a parent DS TTL before the phase; for an algorithm the old DS had been seen gone
    from every parent server and a TTL had passed before it; for a ZSK every DNSKEY
    RRset and signature of the generations before the switch has expired and the
    signing phase lasted.  The confirmed generation is not one signed in the future. *)
Theorem completion_is_earned z0 hist op w res w' z z' r :
  int64_min < cfg_RolloverSwitch (DNSSEC cfg) -> int64_min < signingDuration cfg ->
  Rollover z0 = None -> Life z0 (z, hist) -> op_ok (fun _ => True) op -> Rollover z = Some r ->
  0 < clock w -> PublishedGenerationSignedAt z <= clock w ->
  GetZone domain (mem (store w)) = Some z -> run_op cfg domain op w = (res, w') ->
  GetZone domain (mem (store w')) = Some z' -> Rollover z' = None ->
  RType r = "ksk" /\ RState r = KSKRolloverStateRetiring /\ PhaseStarted r < PublishedGenerationSignedAt z /\
    DSObservedAt r + effTTL r <= PhaseStarted r
  \/ RType r = "algorithm" /\ RState r = AlgoRolloverStateRetiring /\ PhaseStarted r < PublishedGenerationSignedAt z /\
    seen_absent domain (OldKeyID r) /\ OldDSRemovedAt r + effTTL r <= PhaseStarted r
  \/ RType r = "zsk" /\ RState r = ZSKRolloverStateSigning /\ phase_base r < PublishedGenerationSignedAt z /\
    phase_base r + signingDuration cfg <= clock w' /\ caches_clear hist (phase_base r) (clock w') True.
Proof.
  intros Hsw Hsd Hz0 Hl Hop Hr Hpos Hpast Hz Hrun Hz' Hnone.
  destruct (run_op_path op w res w' z z' r Hop Hr Hz Hrun Hz') as [log Hs].
  destruct (rsteps_last _ _ _ _ _ _ _ _ _ Hs Hr Hnone) as (zm & lm & now & ln & zn & rm & Hs1 & Hnow & Hst & Hrm & Hn).
  destruct (rsteps_same_roll _ _ _ _ _ _ _ _ _ Hs1 Hrm) as (r0 & Hr0 & Et & Es & _). rewrite Hr in Hr0. injection Hr0 as <-.
  pose proof (rsteps_published _ _ _ _ _ _ _ _ _ Hs1) as Epub.
  pose proof (Reachable_rsteps _ _ _ _ _ _ _ _ _ _ _ (rsteps_mono _ _ _ _ _ _ _ _ True Hs1) Hl) as Hlm.
  pose proof (Reachable_timeline _ _ _ _ z0 (z, hist) Hsw Hz0 Hl r Hr) as Htl.
  destruct (Reachable_cache_inv _ _ _ _ _ _ Hz0 Hlm) as [_ Hc]. cbn [fst snd] in Hc.
  pose proof (rsteps_phase _ _ _ _ _ _ _ _ _ _ Hs1 Hr Hrm) as Hph.
  destruct (rstep_done _ _ _ _ _ _ _ rm Hst Hrm Hn)
    as [(Hty & Hsm & Hp & _)|[(Hty & Hsm & Hdw & Hstm & Hle)|(Hty & Hsm & Hp)]].
  - destruct Hph as [?|(F1 & F2 & F3 & F4)]; [lia|]. left.
    apply timeline_ksk in Htl; [split_and!; congruence || lia || done | congruence..].
  - destruct (Hc rm Hrm Hstm) as [Hb Hcc].
    assert (phase_base rm = phase_base r /\ RState r = RState rm) as [Eb F1].
    { destruct Hph as [?|(F1 & F2 & _)]; [|split; [unfold phase_base; by rewrite Et, Es, F1, F2 | done]]. exfalso.
      revert Hb. unfold phase_base. rewrite Hty, Hsm, Epub. cbn. destruct (IsZero (PhaseStarted rm)) eqn:E; time_to_prop; lia. }
    right; right. rewrite <-Eb, <-Epub. apply TSub_ge_elapsed in Hdw; [|done].
    split_and!; [congruence..|done|lia|]. eapply caches_clear_later; [exact Hcc|lia|]. intros _. by right.
  - destruct Hph as [?|(F1 & F2 & F3 & F4)]; [lia|]. right; left.
    apply timeline_retiring in Htl as [? ?]; [split_and!; congruence || lia || done | congruence..].
Qed.

(** What a start leaves behind, by its result. *)
Definition start_atomic (z : ZoneState.t) (w : RWorld F X) (res : res roll_error unit) (w' : RWorld F X) : Prop :=
  exists z', GetZone domain (mem (store w')) = Some z' /\
  match res with
  | Ok _ | Err (ActivateFailed _) =>
      disk (store w') = FDoc (marshal (mem (store w'))) /\ ForceResign z' = true /\
      exists r old new, Rollover z = None /\ KSK z = Some old /\ Rollover z' = Some r /\ KSK z' = Some new /\
        OldKeyID r = KeyState.ID old /\ NewKeyID r = KeyState.ID new /\
        PhaseHorizon r = 0 /\ DSObservedAt r = 0 /\ DSRemovalPushedAt r = 0
  | Err _ =>
      KSK z' = KSK z /\ ZSK z' = ZSK z /\ Rollover z' = Rollover z /\ disk (store w') = disk (store w)
  end.

Lemma start_refused z (w : RWorld F X) e w' :
  GetZone domain (mem (store w)) = Some z -> store w' = store w ->
  match e with ActivateFailed _ => False | _ => True end -> start_atomic z w (Err e) w'.
Proof. intros Hz Hs He. exists z. rewrite Hs. split; [done|]. by destruct e. Qed.

Abbreviation atomically z w m :=
  (wp m (fun a w' => start_atomic z w (Ok a) w') (fun e w' => start_atomic z w (Err e) w') w).

Lemma start_committed z (w : RWorld F X) w' res z1 r old new :
  GetZone domain (mem (store w')) = Some z1 -> disk (store w') = FDoc (marshal (mem (store w'))) ->
  ForceResign z1 = true -> Rollover z = None -> KSK z = Some old -> Rollover z1 = Some r -> KSK z1 = Some new ->
  OldKeyID r = KeyState.ID old -> NewKeyID r = KeyState.ID new ->
  PhaseHorizon r = 0 -> DSObservedAt r = 0 -> DSRemovalPushedAt r = 0 ->
  match res with Ok _ | Err (ActivateFailed _) => True | _ => False end -> start_atomic z w res w'.
Proof.
  intros ?????????????. exists z1. split; [done|].
  destruct res as [?|[]]; try done; (split; [done|split; [done|]]); by exists r, old, new.
Qed.

Lemma StartKSKRollover_atomic w z :
  GetZone domain (mem (store w)) = Some z -> atomically z w (StartKSKRollover domain).
Proof.
  intros Hz. eapply wp_get_store; [done|]. cbv beta iota.
  destruct (Rollover z) eqn:Hr; [apply wp_fail; by apply start_refused|].
  rewrite bool_decide_eq_false_2 by (intros []; done).
  destruct (KSK z) as [old|] eqn:Hk; [|apply wp_fail; by apply start_refused].
  apply wp_bind, wp_key_store; [|intros; by apply start_refused]. intros _ w1 E1.
  apply wp_bind, wp_time_store. intros t w2 E2.
  apply wp_bind, wp_key_store; [|intros; apply start_refused; congruence || done]. intros new w3 E3.
  apply wp_bind, wp_time_store. intros now w4 E4.
  assert (store w4 = store w) as E by congruence.
  eapply wp_record_store; [by rewrite E| |].
  - intros n w5 Hz5 Hd. apply wp_key_store; intros x w6 E6;
      (eapply start_committed; [rewrite E6; exact Hz5|by rewrite E6|reflexivity|done|exact Hk|reflexivity..|done]).
  - intros e n w5 Hz5 Hd. exists (z <| ForceResign := false |> <| Revision := n |>).
    split; [rewrite Hz5; f_equal; by destruct z; cbn in *; subst|].
    cbn. by rewrite Hd, E, Hr, Hk.
Qed.

Lemma StartAlgorithmRollover_atomic target w z :
  GetZone domain (mem (store w)) = Some z -> atomically z w (StartAlgorithmRollover domain target).
Proof.
  intros Hz. eapply wp_get_store; [done|]. cbv beta iota.
  destruct (Rollover z) eqn:Hr; [apply wp_fail; by apply start_refused|].
  rewrite bool_decide_eq_false_2 by (intros []; done).
  destruct (KSK z) as [oldK|] eqn:HK; [|apply wp_fail; by apply start_refused].
  destruct (ZSK z) as [oldZ|] eqn:HZ; [|apply wp_fail; by apply start_refused]. cbv zeta.
  destruct (String.eqb _ _); [apply wp_fail; by apply start_refused|].
  apply wp_bind, wp_key_store; [|intros; by apply start_refused]. intros _ w1 E1.
  apply wp_bind, wp_key_store; [|intros; apply start_refused; congruence || done]. intros _ w2 E2.
  apply wp_bind, wp_time_store. intros t w3 E3.
  apply wp_bind, wp_key_store; [|intros; apply start_refused; congruence || done]. intros newK w4 E4.
  apply wp_bind, wp_time_store. intros t' w5 E5.
  apply wp_bind, wp_key_store; [|intros; apply start_refused; congruence || done]. intros newZ w6 E6.
  apply wp_bind, wp_time_store. intros now w7 E7.
  assert (store w7 = store w) as E by congruence.
  eapply wp_record_store; [by rewrite E| |].
  - intros n w8 Hz8 Hd. apply wp_bind, wp_key_store.
    + intros _ w9 E9. apply wp_key_store; intros x w10 E10;
      (eapply start_committed; [rewrite E10, E9; exact Hz8|by rewrite E10, E9|reflexivity|done|exact HK|reflexivity..|done]).
    + intros x w9 E9.
      eapply start_committed; [rewrite E9; exact Hz8|by rewrite E9|reflexivity|done|exact HK|reflexivity..|done].
  - intros e n w8 Hz8 Hd. exists (z <| ForceResign := false |> <| Revision := n |>).
    split; [rewrite Hz8; f_equal; by destruct z; cbn in *; subst|].
    cbn. by rewrite Hd, E, Hr, HK, HZ.
Qed.

(** C32: Starting a KSK or algorithm rollover is all or nothing: if it
    succeeds, or fails only in activating the new key files, the new key is the
    recorded one, the record names both generations, and the disk holds it; on
    every other error the recorded keys and the rollover are those from before
    and the state file is untouched. *)
Theorem start_is_atomic op w res w' z :
  (match op with OpStartKSK | OpStartAlgorithm _ => True | _ => False end) ->
  GetZone domain (mem (store w)) = Some z -> run_op cfg domain op w = (res, w') ->
  start_atomic z w res w'.
Proof.
  intros Hop Hz Hrun.
  assert (atomically z w (run_op cfg domain op)) as Hw
    by (destruct op; try done; [by apply StartKSKRollover_atomic | by apply StartAlgorithmRollover_atomic]).
  destruct res; [by eapply (wp_ok _ _ _ _ _ _ Hw) | by eapply (wp_err _ _ _ _ _ _ Hw)].
Qed.

(** ** Progress *)

(** The registrar has nothing left to do for this rollover. *)
Definition registrar_settled (r : RolloverState.t) : Prop :=
  has_publisher = false \/ DSRemovalPushedAt r <> 0.

Lemma run_at_rest (w : RWorld F X) z :
  ticks w = [] -> GetZone domain (mem (store w)) = Some z ->
  time_now w = (Ok (clock w), w) /\ get_zone domain w = (Ok (Some z), w).
Proof. intros Ht Hz. unfold time_now, get_zone, gets. by rewrite Ht, Hz. Qed.

Lemma with_rollover_run {A} (d : A) (w : RWorld F X) z r k :
  GetZone domain (mem (store w)) = Some z -> Rollover z = Some r ->
  with_rollover domain d k w = k z r w.
Proof. intros Hz Hr. unfold with_rollover, bind, get_zone, gets. by rewrite Hz, Hr. Qed.

Lemma stamp_done (w : RWorld F X) z r :
  GetZone domain (mem (store w)) = Some z -> Rollover z = Some r -> PhaseHorizon r <> 0 ->
  stampNewKeyPropagation cfg domain w = (Ok tt, w).
Proof.
  intros Hz Hr Hn. unfold stampNewKeyPropagation. erewrite with_rollover_run by done.
  apply IsZero_neq in Hn as ->. by rewrite orb_true_r.
Qed.

Lemma push_settled (w : RWorld F X) z r :
  GetZone domain (mem (store w)) = Some z -> Rollover z = Some r -> registrar_settled r ->
  pushOldDSRemoval domain w = (Ok true, w).
Proof.
  intros Hz Hr Hs. unfold pushOldDSRemoval. destruct Hs as [->|Hn]; [done|].
  destruct has_publisher; [|done]. cbn [negb]. erewrite with_rollover_run by done.
  by apply IsZero_neq in Hn as ->.
Qed.

Lemma mutate_save_zone (w : RWorld F X) z f :
  GetZone domain (mem (store w)) = Some z ->
  exists n, GetZone domain (mem (store (snd ((mutate domain f ;;; save) w)))) = Some ((f z) <| Revision := n |>).
Proof.
  intros Hz. unfold bind at 1, mutate, modify, save, bind, save_raw.
  set (w1 := w <| store := _ |>).
  assert (GetZone domain (mem (store w1)) = Some (f z)) as Hz1.
  { unfold GetZone, UpdateZone in *. cbn. by rewrite lookup_alter_eq, Hz. }
  destruct (Save (store w1)) as [r s] eqn:HS.
  pose proof (Save_zone _ _ _ domain HS) as Hd. rewrite Hz1 in Hd. destruct Hd as [n Hd].
  exists n. by destruct r as [[]|e].
Qed.

(** C37: A KSK rollover is not stuck: once the parent DS TTL has passed
    since the new DS was observed, the next check retires the old KSK and asks for
    a re-sign; once that zone is confirmed served and the registrar is settled,
    the next check ends the rollover. *)
Theorem ksk_rollover_progresses (w : RWorld F X) z r :
  ticks w = [] -> GetZone domain (mem (store w)) = Some z -> Rollover z = Some r -> RType r = "ksk" ->
  PhaseHorizon r <> 0 -> registrar_settled r ->
  (RState r = KSKRolloverStateDSPropagation -> DSObservedAt r + effTTL r <= clock w ->
     exists z' r', GetZone domain (mem (store (snd (CheckKSKRollover cfg domain w)))) = Some z' /\
       Rollover z' = Some r' /\ RState r' = KSKRolloverStateRetiring /\ PhaseStarted r' = clock w /\
       ForceResign z' = true) /\
  (RState r = KSKRolloverStateRetiring -> PhaseStarted r < PublishedGenerationSignedAt z ->
     exists z', GetZone domain (mem (store (snd (CheckKSKRollover cfg domain w)))) = Some z' /\
       Rollover z' = None).
Proof.
  intros Ht Hz Hr Hty Hh Hset. destruct (run_at_rest w z Ht Hz) as [Hnow _].
  assert (CheckKSKRollover cfg domain w = CheckKSKRollover cfg domain w) as Hrun by done.
  unfold CheckKSKRollover at 2 in Hrun. erewrite with_rollover_run in Hrun by done.
  rewrite Hty in Hrun. cbn [negb String.eqb Ascii.eqb Bool.eqb] in Hrun.
  unfold bind at 1 in Hrun. rewrite Hnow in Hrun.
  unfold bind at 1 in Hrun. rewrite (stamp_done w z r Hz Hr Hh) in Hrun.
  split; intros Hs Hgate; rewrite Hs in Hrun;
    cbn [String.eqb Ascii.eqb Bool.eqb KSKRolloverStateRetiring KSKRolloverStateDSPropagation] in Hrun;
    unfold bind at 1 in Hrun; rewrite (push_settled w z r Hz Hr Hset) in Hrun.
  - assert (Before (clock w) (TAdd (DSObservedAt r) (effectiveParentDSTTL (ParentDSTTL r))) = false) as Hb
      by (by apply Before_ge).
    rewrite Hb in Hrun. rewrite Hrun. edestruct mutate_save_zone as [n Hn]; [exact Hz|].
    eexists _, _. split; [exact Hn|]. cbn. rewrite Hr. done.
  - assert (PublishedSince z (PhaseStarted r) = true) as Hp by (by apply After_lt).
    rewrite Hp in Hrun. cbn [negb] in Hrun.
    rewrite Hrun. edestruct mutate_save_zone as [n Hn]; [exact Hz|].
    eexists. split; [exact Hn|]. edestruct ClearTransientWarnings_eq as [ws ->]. done.
Qed.

(** ** Refusals *)

(** Why a start or a completion is refused for a zone in a given state. *)
Definition refusal (op : roll_op) (oz : option ZoneState.t) : option roll_error :=
  match op, oz with
  | (OpCheckKSK | OpCheckZSK | OpCheckAlgorithm), _ => None
  | _, None => Some ZoneNotFound
  | OpStartKSK, Some z =>
      match Rollover z, KSK z with
      | Some _, _ => Some RolloverInProgress
      | None, None => Some NoKSKFound
      | None, Some _ => None
      end
  | OpStartAlgorithm target, Some z =>
      match Rollover z, KSK z, ZSK z with
      | Some _, _, _ => Some RolloverInProgress
      | None, Some k, Some _ => if String.eqb (KeyState.Algorithm k) target then Some AlreadyAlgorithm else None
      | None, _, _ => Some NoUsableKeys
      end
  | OpCompleteKSK _ _, Some z =>
      match Rollover z with
      | None => Some NoRolloverInProgress
      | Some r => if negb (String.eqb (RType r) "ksk") then Some WrongRolloverType
                  else if negb (String.eqb (RState r) KSKRolloverStateDSAddWait) then Some (WrongPhase (RState r))
                  else None
      end
  | OpCompleteAlgorithm _ _, Some z =>
      match Rollover z with
      | None => Some NoRolloverInProgress
      | Some r => if negb (String.eqb (RType r) "algorithm") then Some WrongRolloverType
                  else if negb (String.eqb (RState r) AlgoRolloverStateDSAddWait) then Some (WrongPhase (RState r))
                  else None
      end
  end.

Definition is_check (op : roll_op) : bool :=
  match op with OpCheckKSK | OpCheckZSK | OpCheckAlgorithm => true | _ => false end.

(** Every refusal is without effect: an unknown zone, a rollover
    already (or not) in progress, of another kind or in another phase, missing
    keys or an unchanged algorithm give exactly that error and leave the whole
    world, key files included, as it was; a check of an unknown zone or of a zone
    without a rollover of its kind does nothing and succeeds. *)
Theorem rollover_refusals op (w : RWorld F X) :
  (forall e, refusal op (GetZone domain (mem (store w))) = Some e -> run_op cfg domain op w = (Err e, w)) /\
  (is_check op = true -> GetZone domain (mem (store w)) = None -> run_op cfg domain op w = (Ok tt, w)) /\
  (forall z, (op = OpCheckKSK \/ op = OpCheckAlgorithm) -> GetZone domain (mem (store w)) = Some z ->
     Rollover z = None -> run_op cfg domain op w = (Ok tt, w)).
Proof.
  repeat split.
  - intros e He. destruct op; cbn [refusal run_op] in *; try done;
      unfold StartKSKRollover, CompleteKSKRollover, StartAlgorithmRollover, CompleteAlgorithmRollover,
        bind at 1, get_zone, gets;
      destruct (GetZone domain (mem (store w))) as [z|]; try (by simplify_eq);
      (destruct (Rollover z) as [r|] eqn:Hr; [try rewrite bool_decide_eq_true_2 by eauto
         |try rewrite bool_decide_eq_false_2 by (intros []; done)]); try (by simplify_eq).
    + by destruct (KSK z); simplify_eq.
    + destruct (negb (String.eqb (RType r) "ksk")); [by simplify_eq|].
      by destruct (negb (String.eqb (RState r) KSKRolloverStateDSAddWait)); simplify_eq.
    + destruct (KSK z) as [k|], (ZSK z); try (by simplify_eq). cbv zeta.
      by destruct (String.eqb _ _); simplify_eq.
    + destruct (negb (String.eqb (RType r) "algorithm")); [by simplify_eq|].
      by destruct (negb (String.eqb (RState r) AlgoRolloverStateDSAddWait)); simplify_eq.
  - intros Hop Hz. destruct op; try done; cbn [run_op];
      unfold CheckKSKRollover, CheckZSKRollover, CheckAlgorithmRollover, with_rollover, bind at 1, get_zone, gets;
      by rewrite Hz.
  - intros z Hop Hz Hr. destruct Hop as [->| ->]; cbn [run_op];
      unfold CheckKSKRollover, CheckAlgorithmRollover, with_rollover, bind at 1, get_zone, gets;
      by rewrite Hz, Hr.
Qed.

(** ** Blocked phases *)

(** The explanation of a stalled phase replaces every earlier one:
    afterwards the list holds the message, none of the other "waiting" warnings,
    and all unrelated warnings; and the state is saved exactly when that changed
    the list. *)
Theorem blocked_warning_is_unique ws reason :
  let msg := blockedPhasePrefix +:+ reason in
  let '(kept, changed) := blocked_warnings ws msg in
  (forall x, x ∈ kept <-> x = msg \/ (x ∈ ws /\ HasPrefix x blockedPhasePrefix = false)) /\
  (changed = false <-> kept = ws).
Proof.
  intros msg. unfold blocked_warnings.
  assert (HasPrefix msg blockedPhasePrefix = true) as Hp by apply HasPrefix_app.
  set (keep := fun w => _ || _). set (drop := fun w => _ && _).
  set (kept := List.filter keep ws).
  assert (forall x, x ∈ kept <-> x ∈ ws /\ (HasPrefix x blockedPhasePrefix = false \/ x = msg)) as Hk.
  { intros x. subst kept keep. rewrite filter_In_bool, orb_true_iff, negb_true_iff, String.eqb_eq. done. }
  assert (existsb drop ws = false -> kept = ws) as Hdrop.
  { intros Hd. apply filter_all_id. intros x Hx. subst keep drop. cbn.
    destruct (HasPrefix x _) eqn:E; [|done]. cbn. destruct (String.eqb_spec x msg); [done|].
    exfalso. assert (existsb (fun w => HasPrefix w blockedPhasePrefix && negb (String.eqb w msg)) ws = true); [|congruence].
    apply existsb_exists. exists x. rewrite <- list_elem_of_In, E. split; [done|].
    by apply negb_true_iff, String.eqb_neq. }
  destruct (str_in kept msg) eqn:Ein.
  - apply str_in_spec in Ein. split.
    + intros x. rewrite Hk. apply Hk in Ein as [Ein _]. split; [|intros [->|?]; tauto]. tauto.
    + split; [exact Hdrop|]. intros Heq. apply not_true_is_false. intros Hd.
      apply existsb_exists in Hd as (x & Hx & Hdx). rewrite <- list_elem_of_In, <- Heq in Hx.
      apply Hk in Hx as [_ Hx]. subst drop. cbn in Hdx. apply andb_true_iff in Hdx as [E1 E2].
      destruct Hx as [Hx|Hx]; [congruence|]. rewrite Hx, String.eqb_refl in E2. done.
  - apply str_in_false in Ein. split.
    + intros x. rewrite elem_of_app, list_elem_of_singleton, Hk. split; [|tauto].
      intros [[? [?|?]]|?]; tauto.
    + split; [done|]. intros Heq. exfalso. apply Ein, Hk. split; [|by right].
      rewrite <- Heq. apply elem_of_app. right. by apply list_elem_of_singleton.
Qed.

(** ** The recorded parent DS TTL *)

Lemma validate_large_ttl z r :
  maxDNSTTLSeconds < ParentDSTTL r -> validateRolloverState z r = Err (ParentDSTTLTooLarge (ParentDSTTL r)).
Proof. intros Hl. unfold validateRolloverState. by apply Z.ltb_lt in Hl as ->. Qed.

Lemma completion_zone (f1 : RolloverState.t -> RolloverState.t) (f2 : ZoneState.t -> RolloverState.t -> RolloverState.t)
    (w : RWorld F X) z ttl :
  GetZone domain (mem (store w)) = Some z -> Rollover z <> None -> maxDNSTTLSeconds < ttl ->
  (forall r, ParentDSTTL (f1 r) = ttl) -> (forall z r, ParentDSTTL (f2 z r) = ParentDSTTL r) ->
  wp (E:=roll_error) (mutate domain (fun z => ClearTransientWarnings (on_rollover (f2 z) (on_rollover f1 z))) ;;; save)
    (fun _ w' => exists z' r', GetZone domain (mem (store w')) = Some z' /\
       Rollover z' = Some r' /\ validateRolloverState z' r' = Err (ParentDSTTLTooLarge ttl))
    (fun _ _ => True) w.
Proof.
  intros Hz Hr Httl Hf1 Hf2. destruct (Rollover z) as [r|] eqn:Er; [|done]. unfold wp.
  match goal with |- context [mutate domain ?f] => set (g := f) end.
  destruct (mutate_save_zone w z g Hz) as [n Hn].
  destruct ((mutate domain g ;;; save) w) as [[[]|] w3]; [|done]. cbn [snd] in Hn.
  eexists _, (f2 z (f1 r)). split; [exact Hn|]. split.
  - subst g. cbv beta. edestruct ClearTransientWarnings_eq as [ws ->].
    unfold on_rollover. cbn. by rewrite Er.
  - assert (ParentDSTTL (f2 z (f1 r)) = ttl) as E by by rewrite Hf2.
    rewrite validate_large_ttl by lia. by rewrite E.
Qed.

(** The completion of a KSK rollover records whatever TTL the probe
    reported: above the DNS maximum it succeeds, and leaves a record that
    [validateRolloverState], and with it every later load of the state file,
    rejects. *)
Theorem complete_records_any_ttl observed ttl (w : RWorld F X) w' z r :
  GetZone domain (mem (store w)) = Some z -> Rollover z = Some r -> maxDNSTTLSeconds < ttl ->
  CompleteKSKRollover cfg domain observed ttl w = (Ok tt, w') ->
  exists z' r', GetZone domain (mem (store w')) = Some z' /\ Rollover z' = Some r' /\
    validateRolloverState z' r' = Err (ParentDSTTLTooLarge ttl).
Proof.
  intros Hz Hr Httl Hrun.
  assert (Run cfg (fun _ => True) True domain w z w z) as HR.
  { exists []. split; [|constructor]. split; [lia|]. split; [done|].
    split; [|by rewrite app_nil_r]. intros d _. destruct (GetZone d _); constructor. reflexivity. }
  set (Q := fun (_ : unit) (w' : RWorld F X) => exists z' r', GetZone domain (mem (store w')) = Some z' /\
    Rollover z' = Some r' /\ validateRolloverState z' r' = Err (ParentDSTTLTooLarge ttl)).
  assert (wp (CompleteKSKRollover cfg domain observed ttl) Q (fun _ _ => True) w) as Hw;
    [|exact (wp_ok _ _ _ _ _ _ Hw Hrun)].
  eapply wp_get_store; [done|]. cbv beta iota. rewrite Hr.
  destruct (negb _); [done|]. destruct (negb _); [done|]. cbv zeta.
  assert (ttl =? 0 = false) as -> by (apply Z.eqb_neq; unfold maxDNSTTLSeconds in Httl; lia).
  apply wp_bind. eapply wp_mono; [eapply (wp_stamp cfg (fun _ => True) True domain w z w z r
    (fun _ w' => exists z', Run cfg (fun _ => True) True domain w z w' z' /\ Rollover z' <> None)); [done|done|]| |done].
  { intros n pf ph w1 HR1 _. eexists. split; [exact HR1|]. done. }
  intros [] w1 (z1 & HR1 & Hn1). destruct (Rollover z1) as [r1|] eqn:Hr1; [|done].
  apply wp_bind. eapply wp_time; [done|]. intros now w2 HR2 _ _ _.
  destruct HR2 as (log & (_ & Hz2 & _) & _).
  eapply completion_zone; [exact Hz2|congruence|exact Httl| |]; intros; reflexivity.
Qed.
End theorems.

(** ** Instances

    A zone in [ds_propagation_wait] whose keys have propagated, and one whose ZSK
    rollover may switch, in the sample world. *)

Definition sample_ksk_roll : RolloverState.t :=
  RolloverState.zero <| RType := "ksk" |> <| RState := KSKRolloverStateDSPropagation |>
    <| OldKeyID := 10 |> <| NewKeyID := 11 |> <| Started := 90 * Hour |> <| PhaseStarted := 105 * Hour |>
    <| PhaseFirstSigned := 101 * Hour |> <| PhaseHorizon := 103 * Hour |>
    <| DSObservedAt := 105 * Hour |> <| ParentDSTTL := 3600 |>.
Definition sample_ksk_zone : ZoneState.t := sample_zone <| Rollover := Some sample_ksk_roll |>.
Definition ksk_check := run_op (F:=Z) (X:=unit) sample_config "a.example" OpCheckKSK.

(** The life that leads a fresh zone through a KSK start, a signing, its
    confirmation, the stamp and the completion. *)
Definition life0 : ZoneState.t := sample_zone <| PublishedGenerationSignedAt := 80 * Hour |>.

Abbreviation sample_life := (Reachable (F:=Z) (X:=unit) sample_config (fun _ => True) True "a.example").

Ltac by_compute := vm_compute; first [reflexivity | discriminate | intuition discriminate].

(** Any record reached by its own steps, from a zone without a rollover. *)
Definition roll_started : RolloverState.t :=
  RolloverState.zero <| RType := "ksk" |> <| RState := KSKRolloverStateDSAddWait |>
    <| OldKeyID := 11 |> <| NewKeyID := 33 |> <| Started := 90 * Hour |> <| Action := "" |>.
Definition zone_started : ZoneState.t :=
  life0 <| Rollover := Some roll_started |> <| KSK := Some (sample_key 33) |> <| ForceResign := true |>.
Definition zone_confirmed : ZoneState.t := ConfirmPublication (100 * Hour) (101 * Hour) zone_started.
Definition hist1 : list superseded :=
  [mkSup (80 * Hour) (101 * Hour + 3600 * Second) (101 * Hour + 7200 * Second)].
Definition roll_stamped : RolloverState.t :=
  roll_started <| PhaseFirstSigned := PublishedAt zone_confirmed |>
    <| PhaseHorizon := propagation_horizon sample_config zone_confirmed roll_started |>.
Definition zone_propagating : ZoneState.t :=
  with_roll (with_roll zone_confirmed roll_stamped)
    (roll_stamped <| RState := KSKRolloverStateDSPropagation |> <| DSObservedAt := 104 * Hour |>
       <| ParentDSTTL := 3600 |> <| PhaseStarted := 105 * Hour |> <| Action := "" |>).

Lemma life_started : sample_life life0 (zone_started, []).
Proof.
  eapply reach_step; [apply reach_init|]. eapply sys_rollover.
  eapply (rs_start_ksk sample_config (fun _ => True) True "a.example" (90 * Hour) life0 (sample_key 11) (sample_key 33) "");
    [done|done|done|done|done].
Qed.

Lemma life_confirmed : sample_life life0 (zone_confirmed, hist1).
Proof.
  eapply reach_step; [exact life_started|].
  exact (sys_confirm sample_config (fun _ => True) True "a.example" zone_started [] (100 * Hour) (101 * Hour) ltac:(by_compute)).
Qed.

Lemma life_stamped : sample_life life0 (with_roll zone_confirmed roll_stamped, hist1).
Proof.
  eapply reach_step; [exact life_confirmed|]. eapply (sys_rollover _ _ _ _ _ _ _ _ (102 * Hour)).
  refine (rs_stamp sample_config (fun _ => True) True "a.example" (102 * Hour) zone_confirmed roll_started _ _ _ _);
    [reflexivity|by apply elem_of_cons; left|reflexivity|by_compute].
Qed.

Lemma life_propagating : sample_life life0 (zone_propagating, hist1).
Proof.
  eapply reach_step; [exact life_stamped|]. eapply (sys_rollover _ _ _ _ _ _ _ _ (105 * Hour)).
  refine (rs_ksk_complete sample_config (fun _ => True) True "a.example" (105 * Hour)
    (with_roll zone_confirmed roll_stamped) roll_stamped (104 * Hour) 3600 "" _ _ _ _); reflexivity || exact I.
Qed.

(** What a check leaves of the zone's rollover record in the sample world. *)
Definition after_check (op : roll_op) (z : ZoneState.t) (now : Time) : RWorld Z unit :=
  snd (run_op (F:=Z) (X:=unit) sample_config "a.example" op (sample_rworld z now)).
Definition result_of (op : roll_op) (z : ZoneState.t) (now : Time) : res roll_error unit :=
  fst (run_op (F:=Z) (X:=unit) sample_config "a.example" op (sample_rworld z now)).
Lemma ran op z now :
  run_op sample_config "a.example" op (sample_rworld z now) = (result_of op z now, after_check op z now).
Proof. apply surjective_pairing. Qed.
Definition zone_after (op : roll_op) (z : ZoneState.t) (now : Time) : ZoneState.t :=
  default z (GetZone "a.example" (mem (store (after_check op z now)))).

Lemma zone_after_some op z now :
  is_Some (GetZone "a.example" (mem (store (after_check op z now)))) ->
  GetZone "a.example" (mem (store (after_check op z now))) = Some (zone_after op z now).
Proof. unfold zone_after. by intros [z' ->]. Qed.

Ltac some_zone := apply zone_after_some; vm_compute; eexists; reflexivity.

Lemma rollover_refines_witness :
  exists z' log, published (after_check OpCheckKSK sample_ksk_zone (200 * Hour)) = log /\
    rsteps sample_config (fun _ => True) (Rollover sample_ksk_zone = None) "a.example"
      (200 * Hour) (clock (after_check OpCheckKSK sample_ksk_zone (200 * Hour))) sample_ksk_zone log z'.
Proof.
  destruct (rollover_refines (F:=Z) (X:=unit) sample_config "a.example" (fun _ => True) OpCheckKSK
    (sample_rworld sample_ksk_zone (200 * Hour))
    (result_of OpCheckKSK sample_ksk_zone (200 * Hour))
    (after_check OpCheckKSK sample_ksk_zone (200 * Hour)) sample_ksk_zone) as (z' & log & H1 & H2 & H3 & _);
    [exact I|intros; exact I|exact I|vm_compute; reflexivity|apply ran|].
  exists z', log. split; [exact H2|exact H3].
Defined.

Lemma rollover_preserves_wf_witness :
  match Rollover (zone_after OpCheckKSK sample_ksk_zone (200 * Hour)) with
  | Some r' => validateRolloverState (zone_after OpCheckKSK sample_ksk_zone (200 * Hour)) r' = Ok tt
  | None => False
  end.
Proof.
  destruct (Rollover (zone_after OpCheckKSK sample_ksk_zone (200 * Hour))) as [r'|] eqn:Hr;
    [|vm_compute in Hr; discriminate Hr].
  refine (proj1 (rollover_preserves_wf (F:=Z) (X:=unit) sample_config "a.example" OpCheckKSK
    (sample_rworld sample_ksk_zone (200 * Hour)) (result_of OpCheckKSK sample_ksk_zone (200 * Hour)) (after_check OpCheckKSK sample_ksk_zone (200 * Hour))
    sample_ksk_zone _ _ _ _ _ _ _ _ Hr)).
  - intros k x obs x' Hp. injection Hp as <- _. by_compute.
  - exact I.
  - split; [|split].
    + intros r Hx. injection Hx as <-. apply validateRolloverState_sound. vm_compute. reflexivity.
    + intros k Hk. injection Hk as <-. by_compute.
    + intros k Hk. injection Hk as <-. by_compute.
  - vm_compute. reflexivity.
  - apply ran.
  - some_zone.
Defined.


Lemma rollover_timeline_witness :
  match Rollover (zone_after OpCheckKSK zone_propagating (200 * Hour)) with
  | Some r' => timeline (F:=Z) (X:=unit) sample_config "a.example" r'
  | None => False
  end.
Proof.
  destruct (Rollover (zone_after OpCheckKSK zone_propagating (200 * Hour))) as [r'|] eqn:Hr;
    [|vm_compute in Hr; discriminate Hr].
  refine (rollover_timeline (F:=Z) (X:=unit) sample_config "a.example" life0 hist1 OpCheckKSK
    (sample_rworld zone_propagating (200 * Hour)) (result_of OpCheckKSK zone_propagating (200 * Hour)) (after_check OpCheckKSK zone_propagating (200 * Hour))
    zone_propagating _ r' _ _ life_propagating I _ _ _ Hr).
  - by_compute.
  - vm_compute. reflexivity.
  - vm_compute. reflexivity.
  - apply ran.
  - some_zone.
Defined.

(** A ZSK rollover whose key set has been confirmed served. *)
Definition zsk_roll : RolloverState.t :=
  RolloverState.zero <| RType := "zsk" |> <| RState := ZSKRolloverStatePrePublish |>
    <| OldKeyID := 22 |> <| NewKeyID := 44 |> <| Started := 90 * Hour |> <| Action := "" |>.
Definition zsk_started : ZoneState.t := life0 <| Rollover := Some zsk_roll |> <| ForceResign := true |>.
Definition zsk_confirmed : ZoneState.t := ConfirmPublication (100 * Hour) (101 * Hour) zsk_started.

Lemma life_zsk_confirmed : sample_life life0 (zsk_confirmed, hist1).
Proof.
  eapply reach_step; [eapply (reach_step _ _ _ _ _ (life0, []) [] (zsk_started, [])); [apply reach_init|]|].
  - eapply (sys_rollover _ _ _ _ _ _ _ _ (90 * Hour)).
    refine (rs_start_zsk sample_config (fun _ => True) True "a.example" (90 * Hour) life0 (sample_key 22) 44 "" _ _ _ _);
      first [exact I | reflexivity | discriminate].
  - exact (sys_confirm sample_config (fun _ => True) True "a.example" zsk_started [] (100 * Hour) (101 * Hour) ltac:(by_compute)).
Qed.

Lemma zsk_switch_waits_for_caches_witness : caches_clear hist1 (90 * Hour) (200 * Hour) False.
Proof.
  refine (proj2 (proj2 (zsk_switch_waits_for_caches (F:=Z) (X:=unit) sample_config "a.example" life0 hist1 OpCheckZSK
    (sample_rworld zsk_confirmed (200 * Hour)) (result_of OpCheckZSK zsk_confirmed (200 * Hour))
    (after_check OpCheckZSK zsk_confirmed (200 * Hour)) zsk_confirmed
    (zone_after OpCheckZSK zsk_confirmed (200 * Hour)) zsk_roll _ _ life_zsk_confirmed I _ _ _ _ _))).
  - by_compute.
  - vm_compute. reflexivity.
  - vm_compute. reflexivity.
  - vm_compute. reflexivity.
  - apply ran.
  - some_zone.
  - vm_compute. discriminate.
Defined.

(** The KSK rollover, retired and confirmed. *)
Definition ksk_retired : ZoneState.t :=
  (with_roll zone_propagating (roll_stamped <| RState := KSKRolloverStateDSPropagation |>
     <| DSObservedAt := 104 * Hour |> <| ParentDSTTL := 3600 |> <| PhaseStarted := 105 * Hour |> <| Action := "" |>
     <| RState := KSKRolloverStateRetiring |> <| PhaseStarted := 200 * Hour |> <| Action := "" |>))
  <| ForceResign := true |>.
Definition hist2 : list superseded :=
  mkSup (100 * Hour) (206 * Hour + 3600 * Second) (206 * Hour + 7200 * Second) :: hist1.
Definition ksk_served : ZoneState.t := ConfirmPublication (205 * Hour) (206 * Hour) ksk_retired.

Lemma life_ksk_served : sample_life life0 (ksk_served, hist2).
Proof.
  eapply (reach_step _ _ _ _ _ (ksk_retired, hist1) []).
  - eapply reach_step; [exact life_propagating|]. eapply (sys_rollover _ _ _ _ _ _ _ _ (200 * Hour)).
    refine (rs_ksk_retire sample_config (fun _ => True) True "a.example" (200 * Hour) zone_propagating _ "" _ _ _ _);
      first [reflexivity | by_compute].
  - exact (sys_confirm sample_config (fun _ => True) True "a.example" ksk_retired hist1 (205 * Hour) (206 * Hour) ltac:(by_compute)).
Qed.

Lemma completion_is_earned_witness :
  Rollover (zone_after OpCheckKSK ksk_served (300 * Hour)) = None /\
  exists r, Rollover ksk_served = Some r /\ RState r = KSKRolloverStateRetiring /\ DSObservedAt r + effTTL r <= PhaseStarted r.
Proof.
  assert (Rollover (zone_after OpCheckKSK ksk_served (300 * Hour)) = None) as Hn by (vm_compute; reflexivity).
  split; [exact Hn|]. destruct (Rollover ksk_served) as [r|] eqn:Hr; [|vm_compute in Hr; discriminate Hr].
  exists r. split; [reflexivity|].
  destruct (completion_is_earned (F:=Z) (X:=unit) sample_config "a.example" life0 hist2 OpCheckKSK
    (sample_rworld ksk_served (300 * Hour)) (result_of OpCheckKSK ksk_served (300 * Hour))
    (after_check OpCheckKSK ksk_served (300 * Hour)) ksk_served
    (zone_after OpCheckKSK ksk_served (300 * Hour)) r ltac:(by_compute) ltac:(by_compute)
    ltac:(vm_compute; reflexivity) life_ksk_served I Hr ltac:(by_compute) ltac:(by_compute) ltac:(vm_compute; reflexivity) ltac:(apply ran) ltac:(some_zone) Hn)
    as [(_ & Hst & _ & H)|[(H & _)|(H & _)]]; [split; [exact Hst | exact H] | |];
    exfalso; vm_compute in Hr; injection Hr as <-; discriminate H.
Defined.

Lemma start_is_atomic_witness :
  start_atomic "a.example" sample_zone
    (sample_rworld sample_zone (200 * Hour)) (result_of OpStartKSK sample_zone (200 * Hour))
    (after_check OpStartKSK sample_zone (200 * Hour)).
Proof.
  refine (start_is_atomic (F:=Z) (X:=unit) sample_config "a.example" OpStartKSK
    (sample_rworld sample_zone (200 * Hour)) (result_of OpStartKSK sample_zone (200 * Hour))
    (after_check OpStartKSK sample_zone (200 * Hour)) sample_zone I _ _).
  - vm_compute. reflexivity.
  - apply ran.
Defined.

Definition settled_zone : ZoneState.t :=
  sample_zone <| Rollover := Some (sample_ksk_roll <| DSRemovalPushedAt := 106 * Hour |>) |>.

Lemma ksk_rollover_progresses_witness :
  exists z' r', GetZone "a.example" (mem (store (snd (CheckKSKRollover sample_config "a.example"
      (sample_rworld settled_zone (200 * Hour)))))) = Some z' /\
    Rollover z' = Some r' /\ RState r' = KSKRolloverStateRetiring.
Proof.
  destruct (ksk_rollover_progresses (F:=Z) (X:=unit) sample_config "a.example"
    (sample_rworld settled_zone (200 * Hour)) settled_zone (sample_ksk_roll <| DSRemovalPushedAt := 106 * Hour |>))
    as [H _]; [reflexivity|vm_compute; reflexivity|reflexivity|reflexivity|by_compute|right; by_compute|].
  destruct H as (z' & r' & H1 & H2 & H3 & _); [reflexivity|by_compute|].
  exists z', r'. split; [exact H1|]. split; [exact H2|exact H3].
Defined.

Lemma rollover_refusals_witness :
  run_op (F:=Z) (X:=unit) sample_config "a.example" OpStartKSK (sample_rworld sample_ksk_zone (200 * Hour))
  = (Err RolloverInProgress, sample_rworld sample_ksk_zone (200 * Hour)).
Proof.
  refine (proj1 (rollover_refusals (F:=Z) (X:=unit) sample_config "a.example" OpStartKSK
    (sample_rworld sample_ksk_zone (200 * Hour))) RolloverInProgress _).
  vm_compute. reflexivity.
Defined.

Definition waiting_zone : ZoneState.t :=
  sample_zone <| Rollover := Some (sample_ksk_roll <| RState := KSKRolloverStateDSAddWait |>) |>.

Lemma complete_records_any_ttl_witness :
  exists z' r', GetZone "a.example" (mem (store (after_check (OpCompleteKSK 0 (2 ^ 31)) waiting_zone (200 * Hour)))) = Some z' /\
    Rollover z' = Some r' /\ validateRolloverState z' r' = Err (ParentDSTTLTooLarge (2 ^ 31)).
Proof.
  refine (complete_records_any_ttl (F:=Z) (X:=unit) sample_config "a.example" 0 (2 ^ 31)
    (sample_rworld waiting_zone (200 * Hour)) _ waiting_zone _ _ eq_refl _ _); [vm_compute; reflexivity|by_compute|].
  refine (eq_trans (ran (OpCompleteKSK 0 (2 ^ 31)) waiting_zone (200 * Hour)) _).
  assert (result_of (OpCompleteKSK 0 (2 ^ 31)) waiting_zone (200 * Hour) = Ok tt) as -> by (vm_compute; reflexivity).
  reflexivity.
Defined.
