(* ===== verification/Order.v ===== *)
(** * Order: three-way comparisons and circular intervals

    The orders the validator walks: byte strings, label sequences and hashes are
    all compared lexicographically, and NSEC and NSEC3 records cover circular
    intervals of such an order.  [Ordered] states the laws of a three-way
    comparison; [lex_compare] is the lexicographic comparison of lists, with the
    lemma that a subtree (all lists with a given prefix) is contiguous. *)

From stdpp Require Import base list sets.
From Stdlib Require Import ZArith Lia Sorted.
From S2P Require Import Prelude.

(** A total three-way comparison whose [Eq] is equality. *)
Class Ordered {A} (cmp : A -> A -> comparison) : Prop := {
  cmp_eq : forall x y, cmp x y = Eq <-> x = y;
  cmp_opp : forall x y, cmp y x = CompOpp (cmp x y);
  cmp_lt_trans : forall x y z, cmp x y = Lt -> cmp y z = Lt -> cmp x z = Lt
}.
Arguments cmp_eq {A} cmp {_} x y.
Arguments cmp_opp {A} cmp {_} x y.
Arguments cmp_lt_trans {A} cmp {_} x y z.

Section laws.
Context {A} (cmp : A -> A -> comparison) `{Ordered A cmp}.

Lemma cmp_refl x : cmp x x = Eq.
Proof. by apply (cmp_eq cmp). Qed.

Lemma cmp_gt_lt x y : cmp x y = Gt <-> cmp y x = Lt.
Proof. rewrite (cmp_opp cmp x y). by destruct (cmp x y). Qed.

Lemma cmp_lt_not x y : cmp x y = Lt -> cmp y x <> Lt.
Proof. intros E. rewrite (cmp_opp cmp x y), E. done. Qed.

Lemma cmp_le_lt_trans x y z : cmp x y <> Gt -> cmp y z = Lt -> cmp x z = Lt.
Proof.
  destruct (cmp x y) eqn:E; [apply (cmp_eq cmp) in E as ->; done| |done]. intros _. by apply (cmp_lt_trans cmp).
Qed.

Lemma cmp_lt_le_trans x y z : cmp x y = Lt -> cmp y z <> Gt -> cmp x z = Lt.
Proof.
  destruct (cmp y z) eqn:E; [apply (cmp_eq cmp) in E as ->; done| |done]. intros ? _. by eapply (cmp_lt_trans cmp).
Qed.
End laws.

(** ** Circular intervals *)

(** [x] lies strictly between [s] and [e] on the circle; an interval from a point
    to itself covers everything else. *)
Definition between {A} (cmp : A -> A -> comparison) (x s e : A) : bool :=
  match cmp s e with
  | Lt => match cmp x s, cmp x e with Gt, Lt => true | _, _ => false end
  | Gt => match cmp x s, cmp x e with Gt, _ => true | _, Lt => true | _, _ => false end
  | Eq => match cmp x s with Eq => false | _ => true end
  end.

Section circle.
Context {A} (cmp : A -> A -> comparison) `{Ordered A cmp}.

Lemma between_endpoints x s e : between cmp x s e = true -> x <> s /\ x <> e.
Proof.
  unfold between. intros Hb. split; intros ->; rewrite (cmp_refl cmp) in Hb.
  - by destruct (cmp s e).
  - destruct (cmp s e) eqn:E; [|by destruct (cmp e s)|].
    + apply (cmp_eq cmp) in E as ->. by rewrite (cmp_refl cmp) in Hb.
    + rewrite (cmp_opp cmp s e), E in Hb. done.
Qed.

(** A point that compares with the endpoints like another is covered like it. *)
Lemma between_same x y s e :
  cmp x s = cmp y s -> cmp x e = cmp y e -> between cmp x s e = between cmp y s e.
Proof. unfold between. by intros -> ->. Qed.

(** The predecessor of a covered point: a point that is not covered, and is below
    the covered one, is no later than the interval's start. *)
Lemma between_pred d x s e :
  between cmp x s e = true -> between cmp d s e = false -> cmp d x = Lt ->
  d = s \/ (cmp d s = Lt /\ cmp s x = Lt).
Proof.
  unfold between. intros Hx Hd Hlt. destruct (cmp s e) eqn:Ese.
  - destruct (cmp d s) eqn:E; try done. apply (cmp_eq cmp) in E. by left.
  - destruct (cmp x s) eqn:Exs; try done. destruct (cmp x e) eqn:Exe; try done.
    assert (cmp d e = Lt) as Ede by (by eapply (cmp_lt_trans cmp)). rewrite Ede in Hd.
    apply (cmp_gt_lt cmp) in Exs. destruct (cmp d s) eqn:Eds; [apply (cmp_eq cmp) in Eds; by left|by right|done].
  - destruct (cmp d s) eqn:Eds; [apply (cmp_eq cmp) in Eds; by left| |by destruct (cmp d e)].
    right. split; [done|].
    assert (cmp x e = Lt -> False) as Hxe.
    { intros E. rewrite (cmp_lt_trans cmp _ _ _ Hlt E) in Hd. done. }
    destruct (cmp x s) eqn:Exs; [|..|by apply (cmp_gt_lt cmp)]; destruct (cmp x e); by try destruct (Hxe eq_refl).
Qed.
End circle.

(** ** Rings

    The links of a chain: each point of a list with its successor, the last with
    [h]. *)
Fixpoint links {A} (l : list A) (h : A) : list (A * A) :=
  match l with
  | [] => []
  | [x] => [(x, h)]
  | x :: (y :: _) as l' => (x, y) :: links l' h
  end.

(** A ring: a list linked back to its first point. *)
Definition ring {A} (l : list A) : list (A * A) :=
  match l with [] => [] | h :: _ => links l h end.

(** Membership in a ring. *)
Lemma links_cons {A} (x y h : A) l : links (x :: y :: l) h = (x, y) :: links (y :: l) h.
Proof. done. Qed.

Lemma links_elem {A} (l : list A) h s e : (s, e) ∈ links l h -> s ∈ l /\ (e ∈ l \/ e = h).
Proof.
  induction l as [|x [|y l] IH]; [set_solver| |].
  - cbn. intros Hin. apply list_elem_of_singleton in Hin as [= -> ->]. set_solver.
  - rewrite links_cons. intros Hin. apply elem_of_cons in Hin as [[= -> ->]|Hin]; [set_solver|].
    destruct (IH Hin). set_solver.
Qed.

Lemma ring_elem {A} (l : list A) s e : (s, e) ∈ ring l -> s ∈ l /\ e ∈ l.
Proof.
  destruct l as [|h l]; [set_solver|]. intros Hin. apply links_elem in Hin as [? [?|?]]; set_solver.
Qed.

Lemma links_linked {A} (l : list A) h x : x ∈ l -> exists e, (x, e) ∈ links l h.
Proof.
  induction l as [|a [|b l] IH]; intros Hx; [set_solver| |].
  - apply list_elem_of_singleton in Hx as ->. exists h. cbn. set_solver.
  - rewrite links_cons. apply elem_of_cons in Hx as [->|Hx]; [exists b; set_solver|].
    destruct (IH Hx) as [e He]. exists e. set_solver.
Qed.

Lemma ring_linked {A} (l : list A) x : x ∈ l -> exists e, (x, e) ∈ ring l.
Proof. destruct l as [|h l]; [set_solver|]. apply links_linked. Qed.

Section ring_lemmas.
Context {A} (cmp : A -> A -> comparison) `{Ordered A cmp}.
Notation sorted := (StronglySorted (fun x y => cmp x y = Lt)).

Lemma sorted_tail a b l : sorted (a :: b :: l) -> cmp a b = Lt /\ sorted (b :: l).
Proof. intros Hs. inversion Hs as [|? ? Hs' Hf]; subst. inversion Hf; subst. done. Qed.

Lemma links_above l a h x :
  sorted (a :: l) -> cmp h a <> Gt -> cmp a x = Lt -> x ∉ l ->
  exists s e, (s, e) ∈ links (a :: l) h /\ between cmp x s e = true.
Proof.
  revert a. induction l as [|b l IH]; intros a Hs Hh Hax Hx.
  - exists a, h. split; [cbn; set_solver|]. unfold between. rewrite (cmp_opp cmp h a), (cmp_opp cmp a x), Hax.
    by destruct (cmp h a).
  - apply sorted_tail in Hs as [Hab Hs]. rewrite links_cons. destruct (cmp x b) eqn:E.
    + apply (cmp_eq cmp) in E as ->. set_solver.
    + exists a, b. split; [set_solver|]. unfold between. by rewrite Hab, (cmp_opp cmp a x), Hax, E.
    + destruct (IH b Hs) as (s & e & Hin & Hb); [|by apply (cmp_gt_lt cmp)|set_solver|].
      * rewrite (cmp_opp cmp b h). intros Hc. destruct (cmp b h) eqn:Ebh; try done.
        apply Hh. rewrite (cmp_opp cmp a h). by rewrite (cmp_lt_trans cmp _ _ _ Hab Ebh).
      * exists s, e. split; [set_solver|done].
Qed.

Lemma links_below l a h x :
  cmp x h = Lt -> sorted (a :: l) -> cmp h a <> Gt ->
  exists s e, (s, e) ∈ links (a :: l) h /\ between cmp x s e = true.
Proof.
  intros Hxh. revert a. induction l as [|b l IH]; intros a Hs Hh.
  - exists a, h. split; [cbn; set_solver|]. assert (cmp x a = Lt) as Hxa by (by eapply (cmp_lt_le_trans cmp)).
    unfold between. rewrite (cmp_opp cmp h a), Hxa, Hxh. by destruct (cmp h a).
  - apply sorted_tail in Hs as [Hab Hs]. destruct (IH b Hs) as (s & e & Hin & Hb).
    + rewrite (cmp_le_lt_trans cmp _ _ _ Hh Hab). done.
    + exists s, e. rewrite links_cons. split; [set_solver|done].
Qed.

Lemma links_gap l a h y s e :
  sorted (a :: l) -> cmp h a <> Gt -> cmp h y <> Gt -> (cmp y a <> Gt \/ y ∈ l) ->
  (s, e) ∈ links (a :: l) h -> between cmp y s e = false.
Proof.
  revert a. induction l as [|b l IH]; intros a Hs Hh Hy Hor Hin.
  - cbn in Hin. apply list_elem_of_singleton in Hin as [= -> ->]. destruct Hor as [Hor|Hor]; [|set_solver].
    unfold between. rewrite (cmp_opp cmp h a), (cmp_opp cmp h y).
    destruct (cmp h a) eqn:E1; [|..|done]; cbn.
    + apply (cmp_eq cmp) in E1 as ->. destruct (cmp a y) eqn:E2; [| |done].
      * apply (cmp_eq cmp) in E2 as ->. by rewrite (cmp_refl cmp).
      * rewrite (cmp_opp cmp a y), E2 in Hor. by destruct Hor.
    + destruct (cmp y a) eqn:?, (cmp h y) eqn:?; done.
  - apply sorted_tail in Hs as [Hab Hs']. rewrite links_cons in Hin. apply elem_of_cons in Hin as [[= -> ->]|Hin].
    + unfold between. rewrite Hab. destruct Hor as [Hor|Hor]; [by destruct (cmp y a) eqn:?|].
      assert (cmp b y <> Gt) as Hby.
      { apply elem_of_cons in Hor as [->|Hor]; [by rewrite (cmp_refl cmp)|].
        inversion Hs' as [|? ? _ Hf]; subst. rewrite Forall_forall in Hf. by rewrite (Hf y Hor). }
      rewrite (cmp_opp cmp b y). destruct (cmp b y) eqn:?, (cmp y a) eqn:?; done.
    + apply (IH b Hs'); [|done| |done].
      * by rewrite (cmp_le_lt_trans cmp _ _ _ Hh Hab).
      * destruct Hor as [Hor|Hor]; [left; by rewrite (cmp_le_lt_trans cmp _ _ _ Hor Hab)|].
        apply elem_of_cons in Hor as [->|Hor]; [left; by rewrite (cmp_refl cmp)|by right].
Qed.

(** The intervals of a sorted ring cover exactly the points off the ring. *)
Lemma ring_covers l x :
  sorted l -> l <> [] -> x ∉ l -> exists s e, (s, e) ∈ ring l /\ between cmp x s e = true.
Proof.
  destruct l as [|h l]; [done|]. intros Hs _ Hx. cbn [ring]. destruct (cmp h x) eqn:E.
  - apply (cmp_eq cmp) in E as ->. set_solver.
  - apply links_above; [done|by rewrite (cmp_refl cmp)|done|set_solver].
  - apply links_below; [by apply (cmp_gt_lt cmp)|done|by rewrite (cmp_refl cmp)].
Qed.

Lemma ring_gap l y s e : sorted l -> y ∈ l -> (s, e) ∈ ring l -> between cmp y s e = false.
Proof.
  destruct l as [|h l]; [set_solver|]. intros Hs Hy Hin. cbn [ring] in Hin.
  eapply links_gap; [done|by rewrite (cmp_refl cmp)| | |done].
  - apply elem_of_cons in Hy as [->|Hy]; [by rewrite (cmp_refl cmp)|].
    inversion Hs as [|? ? _ Hf]; subst. rewrite Forall_forall in Hf. by rewrite (Hf y Hy).
  - apply elem_of_cons in Hy as [->|Hy]; [left; by rewrite (cmp_refl cmp)|by right].
Qed.

End ring_lemmas.

(** ** Lexicographic comparison *)

Fixpoint lex_compare {A} (cmp : A -> A -> comparison) (a b : list A) : comparison :=
  match a, b with
  | [], [] => Eq
  | [], _ :: _ => Lt
  | _ :: _, [] => Gt
  | x :: a, y :: b => match cmp x y with Eq => lex_compare cmp a b | c => c end
  end.

Section lex.
Context {A} (cmp : A -> A -> comparison) `{Ordered A cmp}.

#[export] Instance lex_ordered : Ordered (lex_compare cmp).
Proof.
  split.
  - induction x as [|a x IH]; intros [|b y]; cbn; try done.
    destruct (cmp a b) eqn:E.
    + apply (cmp_eq cmp) in E as ->. rewrite IH. split; [by intros ->|by intros [= ->]].
    + split; [done|]. intros [= -> ->]. by rewrite (cmp_refl cmp) in E.
    + split; [done|]. intros [= -> ->]. by rewrite (cmp_refl cmp) in E.
  - induction x as [|a x IH]; intros [|b y]; cbn; try done.
    rewrite (cmp_opp cmp a b). destruct (cmp a b); cbn; [apply IH|done|done].
  - induction x as [|a x IH]; intros [|b y] [|c z]; cbn; try done.
    destruct (cmp a b) eqn:E1; [apply (cmp_eq cmp) in E1 as ->| |done].
    + destruct (cmp b c) eqn:E2; [|done|done]. by apply IH.
    + intros _. destruct (cmp b c) eqn:E2; [apply (cmp_eq cmp) in E2 as ->; by rewrite E1| |done].
      by rewrite (cmp_lt_trans cmp _ _ _ E1 E2).
Qed.

Lemma lex_prefix_le p x : lex_compare cmp p (p ++ x) <> Gt.
Proof. induction p as [|a p IH]; cbn; [by destruct x|]. by rewrite (cmp_refl cmp). Qed.

Lemma lex_prefix_lt p x : x <> [] -> lex_compare cmp p (p ++ x) = Lt.
Proof. intros Hx. induction p as [|a p IH]; cbn; [by destruct x|]. by rewrite (cmp_refl cmp). Qed.

(** A subtree is contiguous: a list outside it compares alike with all of it. *)
Lemma lex_subtree p a x y :
  ~ p `prefix_of` a -> lex_compare cmp (p ++ x) a = lex_compare cmp (p ++ y) a.
Proof.
  revert a. induction p as [|b p IH]; intros a Hp; [by destruct Hp; apply prefix_nil|].
  destruct a as [|c a]; [done|]. cbn. destruct (cmp b c) eqn:E; [|done|done].
  apply (cmp_eq cmp) in E as ->. apply IH. intros Hpa. apply Hp. by apply prefix_cons.
Qed.

(** So a circular interval with both ends outside a subtree covers all of the
    subtree or none of it. *)
Lemma between_subtree p s e x y :
  ~ p `prefix_of` s -> ~ p `prefix_of` e ->
  between (lex_compare cmp) (p ++ x) s e = between (lex_compare cmp) (p ++ y) s e.
Proof. intros Hs He. apply between_same; by apply lex_subtree. Qed.
End lex.
