(* ===== verification/Names.v ===== *)
(** * Names: domain names as the denial checks handle them
    (validator/internal/validator/nsec.go, chain.go)

    Presentation-form names are Go strings; [canonicalizeName] and its helpers
    are translated as written.  The DNS library's name functions are the class
    [DnsLib]; [DnsLibLaws] states what they do on plain names (labels without
    escapes), from their documentation.  The theorems speak about plain names: a
    list of labels, most specific first, presented by [fqdn]. *)

From stdpp Require Import base list strings.
From Stdlib Require Import ZArith Lia Ascii.
From S2P Require Import Prelude Order.
Local Open Scope Z_scope.

(** A Go byte slice. *)
Definition byte_of_ascii (c : ascii) : Z := Z.of_N (N_of_ascii c).
Definition bytes_of_string (s : string) : list Z := map byte_of_ascii (String.list_ascii_of_string s).

(** [bytes.Compare], and Go's comparison of strings *)
Definition bytes_compare : list Z -> list Z -> comparison := lex_compare Z.compare.
Definition string_compare (a b : string) : comparison := bytes_compare (bytes_of_string a) (bytes_of_string b).

(** The name functions of the DNS library (github.com/miekg/dns). *)
Class DnsLib := {
  SplitDomainName : string -> list string;
  IsSubDomain : string -> string -> bool;
  CanonicalName : string -> string;
  Fqdn : string -> string;
  TypeString : Z -> string
}.

(** ** chain.go *)

(** [strings.Count(s, ".")] *)
Fixpoint count_dots (s : string) : nat :=
  match s with
  | EmptyString => 0
  | String c s' => (if Ascii.eqb c "." then 1 else 0) + count_dots s'
  end.

Definition GetZoneLabels (zone : string) : nat :=
  let zone := TrimSpace zone in
  let zone := if negb (HasSuffix zone ".") then zone +:+ "." else zone in
  if String.eqb zone "." then 0%nat
  else (count_dots (TrimSuffix zone ".") + 1)%nat.

(** ** nsec.go: names *)

Definition canonicalizeName (name : string) : string :=
  let name := ToLower (TrimSpace name) in
  if negb (String.eqb name "") && negb (HasSuffix name ".") then name +:+ "." else name.

Definition is_digit (c : ascii) : bool := byte_in_range "0" "9" c.
Definition digit (c : ascii) : Z := byte_of_ascii c - 48.
Definition lower_octet (b : Z) : Z := if (65 <=? b) && (b <=? 90) then b + 32 else b.

(** The octets a label denotes: escapes resolved, ASCII lowered. *)
Fixpoint label_octets (l : list ascii) : list Z :=
  match l with
  | [] => []
  | b :: rest =>
      let plain := lower_octet (byte_of_ascii b) :: label_octets rest in
      if Ascii.eqb b "\" then
        match rest with
        | d1 :: ((d2 :: d3 :: rest3) as rest1) =>
            if is_digit d1 && is_digit d2 && is_digit d3 then
              lower_octet ((digit d1 * 100 + digit d2 * 10 + digit d3) mod 256) :: label_octets rest3
            else lower_octet (byte_of_ascii d1) :: label_octets rest1
        | x :: rest1 => lower_octet (byte_of_ascii x) :: label_octets rest1
        | [] => plain
        end
      else plain
  end.

Definition canonicalLabelBytes (label : string) : list Z := label_octets (String.list_ascii_of_string label).

(** [splitLabels]: right to left *)
Definition splitLabels (name : string) : list string :=
  let name := TrimSuffix (ToLower name) "." in
  if String.eqb name "" then [] else rev (Split "." name).

(** [compareCanonical] of two label slices, by Go's string order *)
Definition compareCanonical : list string -> list string -> comparison := lex_compare string_compare.

Definition lastNLabels (qname : string) (n : Z) : string :=
  let qname := canonicalizeName qname in
  if (n <=? 0) || String.eqb qname "." || String.eqb qname "" then "."
  else
    let labels := Split "." (TrimSuffix qname ".") in
    if Z.of_nat (length labels) <=? n then qname
    else Join (drop (length labels - Z.to_nat n) labels) "." +:+ ".".

(** The labels two label slices share at their start. *)
Fixpoint common_prefix (a b : list string) : list string :=
  match a, b with
  | x :: a, y :: b => if String.eqb x y then x :: common_prefix a b else []
  | _, _ => []
  end.

Definition commonSuffixLabels (a b : string) : string :=
  match common_prefix (splitLabels a) (splitLabels b) with
  | [] => "."
  | shared => Join (rev shared) "." +:+ "."
  end.

Definition closestEncloserFromNSEC (qname owner next : string) : string :=
  let ceOwner := commonSuffixLabels qname owner in
  let ceNext := commonSuffixLabels qname next in
  if Nat.ltb (GetZoneLabels ceOwner) (GetZoneLabels ceNext) then ceNext else ceOwner.

Definition wildcardName (encloser : string) : string :=
  if String.eqb encloser "." || String.eqb encloser "" then "*." else "*." +:+ encloser.

Definition HasTypeInBitmap (typeName : string) (bitmap : list string) : bool :=
  existsb (fun t => String.eqb t typeName) bitmap.

Definition nextCloserName (qname ce : string) : string :=
  let qname := canonicalizeName qname in
  let ce := canonicalizeName ce in
  if String.eqb ce qname then qname
  else lastNLabels qname (Z.of_nat (GetZoneLabels ce + 1)).

Section lib.
Context `{DnsLib}.

(** The labels of a name as [compareCanonicalNames] walks them: right to left,
    each as its octets. *)
Definition name_key (name : string) : list (list Z) :=
  map canonicalLabelBytes (rev (SplitDomainName name)).

Definition compareCanonicalNames (a b : string) : comparison :=
  lex_compare bytes_compare (name_key a) (name_key b).

Definition canonicallyBetween (name start end_ : string) : bool :=
  match compareCanonicalNames start end_ with
  | Lt => match compareCanonicalNames name start, compareCanonicalNames name end_ with
          | Gt, Lt => true | _, _ => false end
  | Gt => match compareCanonicalNames name start, compareCanonicalNames name end_ with
          | Gt, _ => true | _, Lt => true | _, _ => false end
  | Eq => match compareCanonicalNames name start with Eq => false | _ => true end
  end.

Definition nsecEndpointBelow (name endpoint : string) : bool :=
  let name := canonicalizeName name in
  let endpoint := canonicalizeName endpoint in
  negb (String.eqb endpoint name) && IsSubDomain name endpoint.

Definition qnameWithinZone (qname zone : string) : bool :=
  if String.eqb zone "" then true
  else IsSubDomain (CanonicalName zone) (CanonicalName qname).

(** [toWireFormat]: length-prefixed octets of each label, then the root. *)
Definition toWireFormat (name : string) : list Z :=
  let name := TrimSpace name in
  if String.eqb name "" || String.eqb name "." then [0]
  else
    concat (map (fun label =>
      let octets := canonicalLabelBytes label in
      Z.of_nat (length octets) mod 256 :: octets) (SplitDomainName (Fqdn name))) ++ [0].
End lib.

(** ** Plain names *)

(** A byte that presents itself: printable, no separator, escape or capital. *)
Definition plain_byte (c : ascii) : bool :=
  let n := N_of_ascii c in
  ((33 <=? n) && (n <=? 126) && negb (n =? 46) && negb (n =? 92) && negb ((65 <=? n) && (n <=? 90)))%N.

Definition plain_label (l : string) : Prop :=
  l <> "" /\ Forall (fun c => plain_byte c = true) (String.list_ascii_of_string l).

(** A plain name: its labels, most specific first. *)
Definition plain_name (ls : list string) : Prop := Forall plain_label ls.

(** Its presentation. *)
Definition fqdn (ls : list string) : string :=
  match ls with [] => "." | _ => Join ls "." +:+ "." end.

(** What the library documents, on plain names. *)
Class DnsLibLaws `{DnsLib} : Prop := {
  SplitDomainName_plain : forall ls, plain_name ls -> SplitDomainName (fqdn ls) = ls;
  IsSubDomain_plain : forall parent child, plain_name parent -> plain_name child ->
    (IsSubDomain (fqdn parent) (fqdn child) = true <-> parent `suffix_of` child);
  Fqdn_plain : forall ls, plain_name ls -> Fqdn (fqdn ls) = fqdn ls
}.

(** The order of plain names: labels from the root down, as octets. *)
Definition label_key (l : string) : list Z := bytes_of_string l.
Definition plain_key (ls : list string) : list (list Z) := map label_key (rev ls).
Definition name_compare (a b : list string) : comparison :=
  lex_compare bytes_compare (plain_key a) (plain_key b).
