(* ===== verification/PlainNames.v ===== *)
(** * PlainNames: the name functions of nsec.go on plain names

    On a plain name every string function of Names.v is the evident function on
    its list of labels: splitting, counting, ancestors, common suffixes, the
    wildcard, and the canonical order. *)

From stdpp Require Import base list strings.
From Stdlib Require Import ZArith Lia Ascii.
From S2P Require Import Prelude Order Names.

Abbreviation chars := String.list_ascii_of_string.

(** ** Strings as lists of bytes *)

Lemma chars_app a b : chars (a +:+ b) = chars a ++ chars b.
Proof. induction a as [|c a IH]; [done|]. change (c :: chars (a +:+ b) = c :: (chars a ++ chars b)). by rewrite IH. Qed.

Lemma chars_inj a b : chars a = chars b -> a = b.
Proof.
  intros Hc. rewrite <- (String.string_of_list_ascii_of_string a), <- (String.string_of_list_ascii_of_string b).
  by rewrite Hc.
Qed.

Lemma str_app_inj_r a b t : a +:+ t = b +:+ t -> a = b.
Proof.
  intros Heq. apply chars_inj. apply (app_inv_tail (chars t)). by rewrite <- !chars_app, Heq.
Qed.

Lemma substring_app s t : String.substring 0 (String.length s) (s +:+ t) = s.
Proof.
  induction s as [|c s IH]; [by destruct t|]. change (String c s +:+ t) with (String c (s +:+ t)).
  cbn. f_equal. exact IH.
Qed.

Lemma length_dot s : String.length (s +:+ ".") = S (String.length s).
Proof.
  induction s as [|c s IH]; [done|]. change (String c s +:+ ".") with (String c (s +:+ ".")).
  cbn. f_equal. exact IH.
Qed.

Lemma HasSuffix_dot s : HasSuffix (s +:+ ".") "." = true.
Proof.
  unfold HasSuffix, str_rev. rewrite chars_app, rev_app_distr. cbn.
  unfold HasPrefix. cbn. by destruct (String.string_of_list_ascii _).
Qed.

Lemma TrimSuffix_dot s : TrimSuffix (s +:+ ".") "." = s.
Proof.
  unfold TrimSuffix. rewrite HasSuffix_dot, length_dot. unfold str_take.
  replace (S (String.length s) - String.length ".") with (String.length s) by (cbn; lia).
  apply substring_app.
Qed.

Lemma trim_right_dot s : trim_right (s +:+ ".") = s +:+ ".".
Proof.
  induction s as [|c s IH]; [done|]. change (trim_right (String c (s +:+ ".")) = String c (s +:+ ".")).
  cbn [trim_right]. rewrite IH. by destruct s.
Qed.

Lemma ToLower_id s : Forall (fun c => lower_byte c = c) (chars s) -> ToLower s = s.
Proof.
  unfold ToLower. induction s as [|c s IH]; [done|]. cbn. intros Hf. inversion Hf; subst. f_equal; auto.
Qed.

(** ** Bytes of a plain name *)

Lemma plain_byte_lower c : plain_byte c = true -> lower_byte c = c.
Proof.
  unfold plain_byte, lower_byte. intros Hc. apply andb_true_iff in Hc as [_ Hc].
  apply negb_true_iff in Hc. by rewrite Hc.
Qed.

Lemma plain_byte_not_space c : plain_byte c = true -> is_space_byte c = false.
Proof.
  unfold plain_byte, is_space_byte. intros Hc. repeat (apply andb_true_iff in Hc as [Hc ?]).
  apply N.leb_le in Hc. apply orb_false_iff. split.
  - apply andb_false_iff. right. apply N.leb_gt. lia.
  - apply N.eqb_neq. lia.
Qed.

Lemma plain_byte_not_dot c : plain_byte c = true -> Ascii.eqb c "." = false.
Proof.
  intros Hc. apply Ascii.eqb_neq. intros ->. discriminate Hc.
Qed.

Lemma plain_byte_not_escape c : plain_byte c = true -> Ascii.eqb c "\" = false.
Proof. intros Hc. apply Ascii.eqb_neq. intros ->. discriminate Hc. Qed.

Definition name_byte (c : ascii) : Prop := plain_byte c = true \/ c = "."%char.

Lemma dot_bytes : Forall name_byte (chars ".").
Proof. constructor; [by right|constructor]. Qed.

Lemma Join_cons l ls : ls <> [] -> Join (l :: ls) "." = l +:+ "." +:+ Join ls ".".
Proof. by destruct ls. Qed.

Lemma Join_bytes ls : plain_name ls -> Forall name_byte (chars (Join ls ".")).
Proof.
  induction 1 as [|l ls [Hne Hl] Hls IH]; [constructor|].
  assert (Forall name_byte (chars l)) as Hl' by (eapply Forall_impl; [exact Hl|]; by left).
  destruct (decide (ls = [])) as [->|Hn]; [done|].
  rewrite Join_cons, !chars_app by done. apply Forall_app. split; [done|].
  apply Forall_app. split; [|done]. apply dot_bytes.
Qed.

Lemma fqdn_dot ls : ls <> [] -> fqdn ls = Join ls "." +:+ ".".
Proof. by destruct ls. Qed.

Lemma fqdn_bytes ls : plain_name ls -> Forall name_byte (chars (fqdn ls)).
Proof.
  intros Hp. destruct (decide (ls = [])) as [->|Hn]; [apply dot_bytes|].
  rewrite fqdn_dot, chars_app by done. apply Forall_app. split; [by apply Join_bytes|apply dot_bytes].
Qed.

(** Every presentation ends in the root's dot. *)
Lemma fqdn_ends ls : exists s, fqdn ls = s +:+ ".".
Proof. destruct ls; [by exists ""|]. by eexists. Qed.

Lemma ToLower_fqdn ls : plain_name ls -> ToLower (fqdn ls) = fqdn ls.
Proof.
  intros Hp. apply ToLower_id. eapply Forall_impl; [by apply fqdn_bytes|].
  intros c [Hc| ->]; [by apply plain_byte_lower|done].
Qed.

Lemma TrimSpace_fqdn ls : plain_name ls -> TrimSpace (fqdn ls) = fqdn ls.
Proof.
  intros Hp. unfold TrimSpace. pose proof (fqdn_bytes ls Hp) as Hb.
  assert (trim_left (fqdn ls) = fqdn ls) as ->.
  { destruct (fqdn ls) as [|c s]; [done|]. inversion Hb as [|? ? Hc _]; subst. cbn.
    destruct Hc as [Hc| ->]; [by rewrite plain_byte_not_space|done]. }
  destruct (fqdn_ends ls) as [s ->]. apply trim_right_dot.
Qed.

Lemma canonicalizeName_fqdn ls : plain_name ls -> canonicalizeName (fqdn ls) = fqdn ls.
Proof.
  intros Hp. unfold canonicalizeName. rewrite TrimSpace_fqdn, ToLower_fqdn by done.
  destruct (fqdn_ends ls) as [s ->]. rewrite HasSuffix_dot. by rewrite andb_false_r.
Qed.

(** ** Splitting and joining *)

Lemma Split_plain l : Forall (fun c => Ascii.eqb c "." = false) (chars l) -> Split "." l = [l].
Proof.
  induction l as [|c l IH]; [done|]. cbn. intros Hf. inversion Hf as [|? ? Hc Hl]; subst.
  rewrite IH by done. by rewrite Hc.
Qed.

Lemma Split_app l t :
  Forall (fun c => Ascii.eqb c "." = false) (chars l) -> Split "." (l +:+ "." +:+ t) = l :: Split "." t.
Proof.
  induction l as [|c l IH]; intros Hf.
  - change (Split "." (String "." t) = "" :: Split "." t). cbn.
    pose proof (Split_nonempty "."%char t). by destruct (Split "." t).
  - inversion Hf as [|? ? Hc Hl]; subst. change (Split "." (String c (l +:+ "." +:+ t)) = String c l :: Split "." t).
    cbn [Split]. rewrite IH by done. by rewrite Hc.
Qed.

Lemma plain_label_no_dot l : plain_label l -> Forall (fun c => Ascii.eqb c "." = false) (chars l).
Proof. intros [_ Hl]. eapply Forall_impl; [exact Hl|]. apply plain_byte_not_dot. Qed.

Lemma Split_Join ls : plain_name ls -> ls <> [] -> Split "." (Join ls ".") = ls.
Proof.
  induction 1 as [|l ls Hl Hls IH]; [done|]. intros _.
  destruct (decide (ls = [])) as [->|Hn]; [by apply Split_plain, plain_label_no_dot|].
  rewrite Join_cons, Split_app, IH; auto using plain_label_no_dot.
Qed.

Lemma Join_nonempty ls : plain_name ls -> ls <> [] -> Join ls "." <> "".
Proof.
  destruct ls as [|l ls]; [done|]. intros Hp _ Heq. inversion Hp as [|? ? [Hne _] _]; subst.
  destruct ls; [done|]. rewrite Join_cons in Heq by done. by destruct l.
Qed.

Lemma splitLabels_fqdn ls : plain_name ls -> splitLabels (fqdn ls) = rev ls.
Proof.
  intros Hp. unfold splitLabels. rewrite ToLower_fqdn by done.
  destruct (decide (ls = [])) as [->|Hn]; [done|]. rewrite fqdn_dot, TrimSuffix_dot by done.
  pose proof (Join_nonempty ls Hp Hn) as Hj. apply String.eqb_neq in Hj as ->. by rewrite Split_Join.
Qed.

Lemma fqdn_inj a b : plain_name a -> plain_name b -> fqdn a = fqdn b -> a = b.
Proof.
  intros Ha Hb Heq. rewrite <- (rev_involutive a), <- (rev_involutive b).
  by rewrite <- (splitLabels_fqdn a), <- (splitLabels_fqdn b), Heq.
Qed.

(** ** Counting and ancestors *)

Lemma count_dots_app a b : count_dots (a +:+ b) = (count_dots a + count_dots b)%nat.
Proof.
  induction a as [|c a IH]; [done|]. change (count_dots (String c (a +:+ b)) = (count_dots (String c a) + count_dots b)%nat).
  cbn [count_dots]. rewrite IH. lia.
Qed.

Lemma count_dots_plain l : Forall (fun c => Ascii.eqb c "." = false) (chars l) -> count_dots l = 0%nat.
Proof.
  induction l as [|c l IH]; [done|]. cbn. intros Hf. inversion Hf as [|? ? Hc Hl]; subst. by rewrite Hc, IH.
Qed.

Lemma count_dots_Join ls : plain_name ls -> ls <> [] -> S (count_dots (Join ls ".")) = length ls.
Proof.
  induction 1 as [|l ls Hl Hls IH]; [done|]. intros _.
  destruct (decide (ls = [])) as [->|Hn]; [cbn; by rewrite count_dots_plain by by apply plain_label_no_dot|].
  rewrite Join_cons, !count_dots_app by done. rewrite count_dots_plain by by apply plain_label_no_dot.
  cbn [length]. rewrite <- IH by done. cbn. lia.
Qed.

Lemma fqdn_not_root ls : plain_name ls -> ls <> [] -> fqdn ls <> ".".
Proof.
  intros Hp Hn Heq. apply Hn. by apply (fqdn_inj ls []); [|constructor|].
Qed.

Lemma GetZoneLabels_fqdn ls : plain_name ls -> GetZoneLabels (fqdn ls) = length ls.
Proof.
  intros Hp. unfold GetZoneLabels. rewrite TrimSpace_fqdn by done.
  destruct (decide (ls = [])) as [->|Hn]; [done|].
  pose proof (fqdn_not_root ls Hp Hn) as Hr.
  rewrite fqdn_dot in * by done. rewrite HasSuffix_dot. cbn [negb].
  apply String.eqb_neq in Hr as ->. rewrite TrimSuffix_dot, <- (count_dots_Join ls) by done. lia.
Qed.

Lemma plain_name_drop n ls : plain_name ls -> plain_name (drop n ls).
Proof. apply Forall_drop. Qed.

Lemma drop_nonempty {A} n (l : list A) : (n < length l)%nat -> drop n l <> [].
Proof. intros Hl Heq. apply (f_equal length) in Heq. rewrite length_drop in Heq. cbn in Heq. lia. Qed.

Lemma lastNLabels_fqdn ls n :
  plain_name ls -> lastNLabels (fqdn ls) (Z.of_nat n) = fqdn (drop (length ls - n) ls).
Proof.
  intros Hp. unfold lastNLabels. rewrite canonicalizeName_fqdn by done.
  destruct (decide (ls = [])) as [->|Hn]; [by rewrite orb_true_r|].
  pose proof (fqdn_not_root ls Hp Hn) as Hr. apply String.eqb_neq in Hr as ->.
  destruct (Z.leb_spec (Z.of_nat n) 0).
  { replace n with 0%nat by lia. rewrite Nat.sub_0_r. cbn. by rewrite drop_ge by lia. }
  rewrite fqdn_dot by done. assert (Join ls "." +:+ "." <> "") as Hne by (by destruct (Join ls ".")).
  apply String.eqb_neq in Hne as ->. cbn [orb].
  rewrite TrimSuffix_dot, Split_Join by done.
  destruct (Z.leb_spec (Z.of_nat (length ls)) (Z.of_nat n)).
  - replace (length ls - n)%nat with 0%nat by lia. rewrite drop_0. by rewrite fqdn_dot.
  - rewrite Nat2Z.id, (fqdn_dot (drop _ ls)); [done|]. apply drop_nonempty.
    assert (length ls <> 0%nat) by (by destruct ls). lia.
Qed.

(** ** Common suffixes *)

Lemma common_prefix_spec a b :
  common_prefix a b `prefix_of` a /\ common_prefix a b `prefix_of` b /\
  forall p, p `prefix_of` a -> p `prefix_of` b -> p `prefix_of` common_prefix a b.
Proof.
  revert b. induction a as [|x a IH]; intros b; cbn.
  - split; [apply prefix_nil|]. split; [apply prefix_nil|]. by intros p Hp _.
  - destruct b as [|y b]; [split; [apply prefix_nil|split; [apply prefix_nil|by intros p _ Hp]]|].
    destruct (String.eqb_spec x y) as [->|Hne].
    + destruct (IH b) as (H1 & H2 & H3). split; [by apply prefix_cons|]. split; [by apply prefix_cons|].
      intros [|z p] Hpa Hpb; [apply prefix_nil|].
      apply prefix_cons_inv_1 in Hpa as Hz. subst z. apply prefix_cons. apply H3.
      * by apply prefix_cons_inv_2 in Hpa.
      * by apply prefix_cons_inv_2 in Hpb.
    + split; [apply prefix_nil|]. split; [apply prefix_nil|].
      intros [|z p] Hpa Hpb; [done|]. apply prefix_cons_inv_1 in Hpa. apply prefix_cons_inv_1 in Hpb. congruence.
Qed.

(** The deepest common ancestor of two names, as labels. *)
Definition common_ancestor (a b : list string) : list string := rev (common_prefix (rev a) (rev b)).

Lemma prefix_rev_suffix {A} (p a : list A) : p `prefix_of` rev a <-> rev p `suffix_of` a.
Proof.
  split; intros [k Hk].
  - exists (rev k). apply (f_equal (@rev A)) in Hk. rewrite rev_involutive, rev_app_distr in Hk. done.
  - exists (rev k). apply (f_equal (@rev A)) in Hk. rewrite rev_app_distr, rev_involutive in Hk. done.
Qed.

Lemma common_ancestor_spec a b :
  common_ancestor a b `suffix_of` a /\ common_ancestor a b `suffix_of` b /\
  forall s, s `suffix_of` a -> s `suffix_of` b -> s `suffix_of` common_ancestor a b.
Proof.
  destruct (common_prefix_spec (rev a) (rev b)) as (H1 & H2 & H3). unfold common_ancestor.
  split; [by apply prefix_rev_suffix|]. split; [by apply prefix_rev_suffix|].
  intros s Ha Hb. rewrite <- (rev_involutive s) in *. apply prefix_rev_suffix in Ha, Hb.
  rewrite <- prefix_rev_suffix, rev_involutive. by apply H3.
Qed.

Lemma plain_name_suffix s ls : s `suffix_of` ls -> plain_name ls -> plain_name s.
Proof. intros [k ->] Hp. by apply Forall_app in Hp as [_ ?]. Qed.

Lemma common_ancestor_plain a b : plain_name a -> plain_name (common_ancestor a b).
Proof. apply plain_name_suffix. by destruct (common_ancestor_spec a b). Qed.

Lemma commonSuffixLabels_fqdn a b :
  plain_name a -> plain_name b -> commonSuffixLabels (fqdn a) (fqdn b) = fqdn (common_ancestor a b).
Proof.
  intros Ha Hb. unfold commonSuffixLabels, common_ancestor. rewrite !splitLabels_fqdn by done.
  destruct (common_prefix (rev a) (rev b)) as [|x l] eqn:E; [done|]. rewrite fqdn_dot; [done|].
  intros Hr. apply (f_equal length) in Hr. rewrite length_rev in Hr. done.
Qed.

Definition deeper (a b : list string) : list string := if Nat.ltb (length a) (length b) then b else a.

Lemma closestEncloser_fqdn q o n :
  plain_name q -> plain_name o -> plain_name n ->
  closestEncloserFromNSEC (fqdn q) (fqdn o) (fqdn n) = fqdn (deeper (common_ancestor q o) (common_ancestor q n)).
Proof.
  intros Hq Ho Hn. unfold closestEncloserFromNSEC, deeper.
  rewrite !commonSuffixLabels_fqdn by done.
  rewrite !GetZoneLabels_fqdn by by apply common_ancestor_plain.
  by destruct (Nat.ltb _ _).
Qed.

Lemma wildcardName_fqdn ls : plain_name ls -> wildcardName (fqdn ls) = fqdn ("*" :: ls).
Proof.
  intros Hp. unfold wildcardName. destruct (decide (ls = [])) as [->|Hn]; [done|].
  pose proof (fqdn_not_root ls Hp Hn) as Hr. apply String.eqb_neq in Hr as ->.
  rewrite (fqdn_dot ls), (fqdn_dot ("*" :: ls)) by done.
  assert (Join ls "." +:+ "." <> "") as Hne by (by destruct (Join ls ".")).
  apply String.eqb_neq in Hne as ->. cbn [orb]. rewrite Join_cons by done. done.
Qed.

Lemma wildcard_label_plain ls : plain_name ls -> plain_name ("*" :: ls).
Proof. intros. constructor; [|done]. split; [done|]. repeat constructor. Qed.

(** ** The canonical order *)

Lemma plain_octets l :
  Forall (fun c => plain_byte c = true) l -> label_octets l = map byte_of_ascii l.
Proof.
  induction l as [|c l IH]; [done|]. intros Hf. inversion Hf as [|? ? Hc Hl]; subst.
  cbn [label_octets map]. rewrite plain_byte_not_escape by done. f_equal; [|by apply IH].
  unfold lower_octet, byte_of_ascii. unfold plain_byte in Hc. apply andb_true_iff in Hc as [_ Hc].
  apply negb_true_iff, andb_false_iff in Hc.
  destruct Hc as [Hc|Hc]; apply N.leb_gt in Hc.
  - assert (65 <=? Z.of_N (N_of_ascii c) = false)%Z as -> by (apply Z.leb_gt; lia). done.
  - assert (Z.of_N (N_of_ascii c) <=? 90 = false)%Z as -> by (apply Z.leb_gt; lia). by rewrite andb_false_r.
Qed.

Lemma canonicalLabelBytes_plain l : plain_label l -> canonicalLabelBytes l = label_key l.
Proof. intros [_ Hl]. by apply plain_octets. Qed.

#[export] Instance Z_ordered : Ordered Z.compare.
Proof.
  split.
  - apply Z.compare_eq_iff.
  - intros x y. apply Z.compare_antisym.
  - intros x y z. rewrite !Z.compare_lt_iff. lia.
Qed.
#[export] Instance bytes_ordered : Ordered bytes_compare.
Proof. apply lex_ordered, Z_ordered. Qed.

Lemma byte_of_ascii_inj a b : byte_of_ascii a = byte_of_ascii b -> a = b.
Proof.
  unfold byte_of_ascii. intros Heq. apply N2Z.inj in Heq.
  rewrite <- (ascii_N_embedding a), <- (ascii_N_embedding b). by rewrite Heq.
Qed.

Lemma label_key_inj a b : label_key a = label_key b -> a = b.
Proof.
  unfold label_key, bytes_of_string. intros Heq. apply chars_inj. revert Heq.
  generalize (chars a) (chars b). intros la. induction la as [|x la IH]; intros [|y lb]; try done.
  cbn. intros [= Hx Hl]. f_equal; [by apply byte_of_ascii_inj|by apply IH].
Qed.

Lemma plain_key_inj a b : plain_key a = plain_key b -> a = b.
Proof.
  unfold plain_key. intros Heq. rewrite <- (rev_involutive a), <- (rev_involutive b). f_equal.
  revert Heq. generalize (rev a) (rev b). intros la. induction la as [|x la IH]; intros [|y lb]; try done.
  cbn. intros [= Hx Hl]. f_equal; [by apply label_key_inj|by apply IH].
Qed.

#[export] Instance name_ordered : Ordered name_compare.
Proof.
  unfold name_compare. split.
  - intros x y. rewrite (cmp_eq (lex_compare bytes_compare)). split; [apply plain_key_inj|by intros ->].
  - intros x y. apply (cmp_opp (lex_compare bytes_compare)).
  - intros x y z. apply (cmp_lt_trans (lex_compare bytes_compare)).
Qed.

(** Ancestors are prefixes of the key. *)
Lemma plain_key_suffix s a : s `suffix_of` a -> plain_key s `prefix_of` plain_key a.
Proof.
  intros [k ->]. unfold plain_key. rewrite rev_app_distr, map_app. by eexists.
Qed.

Lemma map_inj_prefix {A B} (f : A -> B) (p a : list A) :
  (forall x y, f x = f y -> x = y) -> map f p `prefix_of` map f a -> p `prefix_of` a.
Proof.
  intros Hf. revert a. induction p as [|x p IH]; intros a Hp; [apply prefix_nil|].
  destruct a as [|y a]; [by apply prefix_nil_inv in Hp|]. cbn in Hp.
  apply prefix_cons_inv_1 in Hp as Hx. apply Hf in Hx as ->. apply prefix_cons. apply IH.
  by apply prefix_cons_inv_2 in Hp.
Qed.

Lemma plain_key_suffix_inv s a : plain_key s `prefix_of` plain_key a -> s `suffix_of` a.
Proof.
  intros Hp. apply map_inj_prefix in Hp; [|apply label_key_inj].
  rewrite prefix_rev_suffix in Hp. by rewrite rev_involutive in Hp.
Qed.

(** The names at or below an ancestor are covered by an interval with both ends
    elsewhere either all or not at all. *)
Lemma covered_subtree anc x y s e :
  ~ anc `suffix_of` s -> ~ anc `suffix_of` e -> anc `suffix_of` x -> anc `suffix_of` y ->
  between name_compare x s e = between name_compare y s e.
Proof.
  intros Hs He Hx Hy.
  destruct (plain_key_suffix _ _ Hx) as [kx Hkx]. destruct (plain_key_suffix _ _ Hy) as [ky Hky].
  apply between_same; unfold name_compare; rewrite Hkx, Hky; apply lex_subtree;
    try apply _; intros Hp; by apply plain_key_suffix_inv in Hp.
Qed.

(** A point between an ancestor and one of its descendants is below the ancestor. *)
Lemma between_ancestor anc o x :
  anc `suffix_of` x -> name_compare anc o = Lt -> name_compare o x = Lt -> anc `suffix_of` o.
Proof.
  intros Hx H1 H2. destruct (decide (anc `suffix_of` o)) as [|Hn]; [done|]. exfalso.
  destruct (plain_key_suffix _ _ Hx) as [kx Hkx]. unfold name_compare in *.
  pose proof (lex_subtree bytes_compare (plain_key anc) (plain_key o) [] kx
    ltac:(intros Hp; by apply plain_key_suffix_inv in Hp)) as Hsub.
  rewrite app_nil_r, <- Hkx in Hsub. rewrite H1 in Hsub.
  rewrite (cmp_opp (lex_compare bytes_compare)), H2 in Hsub. done.
Qed.

Lemma ancestor_le anc x : anc `suffix_of` x -> anc <> x -> name_compare anc x = Lt.
Proof.
  intros Hs Hne. destruct (plain_key_suffix _ _ Hs) as [k Hk]. unfold name_compare. rewrite Hk.
  apply lex_prefix_lt; [apply _|]. intros ->. rewrite app_nil_r in Hk.
  apply Hne. symmetry. by apply plain_key_inj.
Qed.

Section lib.
Context `{DnsLibLaws}.

Lemma name_key_fqdn ls : plain_name ls -> name_key (fqdn ls) = plain_key ls.
Proof.
  intros Hp. unfold name_key, plain_key. rewrite SplitDomainName_plain by done.
  apply Forall_rev in Hp. induction Hp; [done|]. cbn. rewrite canonicalLabelBytes_plain by done. by f_equal.
Qed.

Lemma canonicallyBetween_fqdn x s e :
  plain_name x -> plain_name s -> plain_name e ->
  canonicallyBetween (fqdn x) (fqdn s) (fqdn e) = between name_compare x s e.
Proof.
  intros Hx Hs He. unfold canonicallyBetween, compareCanonicalNames. by rewrite !name_key_fqdn.
Qed.

Lemma compareCanonicalNames_fqdn a b :
  plain_name a -> plain_name b -> compareCanonicalNames (fqdn a) (fqdn b) = name_compare a b.
Proof. intros Ha Hb. unfold compareCanonicalNames. by rewrite !name_key_fqdn. Qed.

Lemma nsecEndpointBelow_fqdn a b :
  plain_name a -> plain_name b ->
  (nsecEndpointBelow (fqdn a) (fqdn b) = true <-> a <> b /\ a `suffix_of` b).
Proof.
  intros Ha Hb. unfold nsecEndpointBelow. rewrite !canonicalizeName_fqdn by done.
  rewrite andb_true_iff, negb_true_iff, String.eqb_neq, IsSubDomain_plain by done.
  split; intros [H1 H2]; (split; [|done]); [by intros ->|]. intros Heq. by apply H1, fqdn_inj.
Qed.
End lib.
