(* ===== verification/DnsZone.v ===== *)
(** * DnsZone: what a signed zone is, for the denial proofs

    The ground truth the NSEC and NSEC3 proofs speak about: a zone's
    authoritative names with their types, the names that exist (RFC 4592: a name
    with a descendant exists too), the cuts, the closest encloser.  No code is
    modelled here. *)

From stdpp Require Import base list strings gmap.
From Stdlib Require Import ZArith Lia.
From S2P Require Import Prelude Order Names PlainNames.

Abbreviation name := (list string).

(** The names that own authoritative data or a delegation, with their types;
    names are label lists, most specific first.  Glue is not part of it. *)
Record zone_data := { apex : name; nodes : gmap name (list string) }.

Section zone.
Context (z : zone_data).

Definition owns (n : name) : Prop := is_Some (nodes z !! n).
Definition types_at (n : name) : list string := default [] (nodes z !! n).
Definition name_exists (n : name) : Prop := exists m, owns m /\ n `suffix_of` m.

(** The names of the zone's own tree: from the apex down. *)
Definition in_zone (n : name) : Prop := name_exists n /\ apex z `suffix_of` n.

(** Names strictly below a cut belong to the child zone, or are redirected. *)
Definition cut (n : name) : Prop :=
  owns n /\ ("DNAME" ∈ types_at n \/ ("NS" ∈ types_at n /\ "SOA" ∉ types_at n)).
Definition below_cut (q : name) : Prop := exists c, cut c /\ c `suffix_of` q /\ c <> q.

Definition closest_encloser (q ce : name) : Prop :=
  ce `suffix_of` q /\ name_exists ce /\
  forall s, s `suffix_of` q -> name_exists s -> s `suffix_of` ce.

(** What every loaded zone satisfies. *)
Record zone_ok : Prop := {
  zone_plain : forall n, owns n -> plain_name n;
  zone_apex : owns (apex z);
  zone_soa : "SOA" ∈ types_at (apex z);
  zone_within : forall n, owns n -> apex z `suffix_of` n;
  zone_cuts : forall c n, cut c -> owns n -> c `suffix_of` n -> n = c
}.

(** ** Suffixes *)

Lemma suffix_linear (a b q : name) : a `suffix_of` q -> b `suffix_of` q -> a `suffix_of` b \/ b `suffix_of` a.
Proof.
  intros [ka ->] [kb Hb]. apply app_eq_app in Hb as (k & [[Hk1 Hk2]|[Hk1 Hk2]]).
  - left. by exists k.
  - right. by exists k.
Qed.

Lemma suffix_length_le (a b q : name) :
  a `suffix_of` q -> b `suffix_of` q -> length a <= length b -> a `suffix_of` b.
Proof.
  intros Ha Hb Hl. destruct (suffix_linear a b q Ha Hb) as [|Hs]; [done|].
  destruct Hs as [k ->]. rewrite length_app in Hl. destruct k; [|cbn in Hl; lia]. by exists [].
Qed.

Lemma suffix_antisym (a b : name) : a `suffix_of` b -> b `suffix_of` a -> a = b.
Proof.
  intros [k ->] [k' Hk']. apply (f_equal length) in Hk'. rewrite !length_app in Hk'.
  destruct k; [done|]. cbn in Hk'. lia.
Qed.

Lemma owns_exists n : owns n -> name_exists n.
Proof. intros. by exists n. Qed.

Lemma exists_ancestor s n : s `suffix_of` n -> name_exists n -> name_exists s.
Proof. intros Hs (m & Hm & Hn). exists m. split; [done|]. by etrans. Qed.
End zone.
