(* ===== verification/SampleZone.v ===== *)
(** * SampleZone: a concrete name library and a concrete zone

    [plain_lib] implements the name functions of the DNS library for names without
    escapes and satisfies [DnsLibLaws]; [sample_zone] has a wildcard, an empty
    non-terminal and a delegation.  The witnesses of the denial theorems use
    them. *)

From stdpp Require Import base list strings gmap pretty.
From Stdlib Require Import ZArith Lia Sorted Ascii.
From S2P Require Import Prelude Order Names PlainNames DnsZone.

(** ** The library on plain names *)

Definition plain_type_string (t : Z) : string :=
  match t with
  | 1%Z => "A" | 2%Z => "NS" | 5%Z => "CNAME" | 6%Z => "SOA" | 16%Z => "TXT" | 28%Z => "AAAA"
  | 39%Z => "DNAME" | 43%Z => "DS" | 46%Z => "RRSIG" | 47%Z => "NSEC" | 48%Z => "DNSKEY" | 50%Z => "NSEC3" | _ => "TYPE" +:+ pretty t
  end.

Definition plain_fqdn (s : string) : string := if HasSuffix s "." then s else s +:+ ".".

#[global] Instance plain_lib : DnsLib := {
  SplitDomainName s := rev (splitLabels s);
  IsSubDomain parent child := bool_decide (rev (splitLabels parent) `suffix_of` rev (splitLabels child));
  CanonicalName s := ToLower (plain_fqdn s);
  Fqdn := plain_fqdn;
  TypeString := plain_type_string
}.

#[global] Instance plain_lib_laws : DnsLibLaws.
Proof.
  split.
  - intros ls Hp. cbn. by rewrite splitLabels_fqdn, rev_involutive.
  - intros p c Hp Hc. cbn. rewrite !splitLabels_fqdn, !rev_involutive by done. apply bool_decide_eq_true.
  - intros ls Hp. cbn. unfold plain_fqdn. destruct (fqdn_ends ls) as [s ->]. by rewrite HasSuffix_dot.
Qed.

(** ** Deciding that a listed zone is well formed *)

Definition plain_labelb (l : string) : bool :=
  negb (String.eqb l "") && forallb plain_byte (chars l).
Definition plain_nameb (n : name) : bool := forallb plain_labelb n.

Lemma plain_nameb_ok n : plain_nameb n = true -> plain_name n.
Proof.
  intros Hb. apply Forall_forall. intros l Hl. apply list_elem_of_In in Hl.
  pose proof (proj1 (forallb_forall _ _) Hb l Hl) as Hlb. apply andb_true_iff in Hlb as [H1 H2].
  split; [by apply negb_true_iff, String.eqb_neq in H1|].
  apply Forall_forall. intros c Hc. apply list_elem_of_In in Hc. by apply (proj1 (forallb_forall _ _) H2).
Qed.

(** A zone given as a list of owners with their types. *)
Definition zone_of (a : name) (l : list (name * list string)) : zone_data :=
  {| apex := a; nodes := list_to_map l |}.

Definition cut_types (ts : list string) : bool :=
  HasTypeInBitmap "DNAME" ts || (HasTypeInBitmap "NS" ts && negb (HasTypeInBitmap "SOA" ts)).

Definition zone_check (a : name) (l : list (name * list string)) : bool :=
  bool_decide (NoDup l.*1) && existsb (fun '(n, ts) => bool_decide (n = a) && bool_decide ("SOA" ∈ ts)) l &&
  forallb (fun '(n, _) => plain_nameb n && bool_decide (a `suffix_of` n)) l &&
  forallb (fun '(c, ts) => negb (cut_types ts) ||
    forallb (fun '(n, _) => negb (bool_decide (c `suffix_of` n)) || bool_decide (n = c)) l) l.

Section listed.
Context (a : name) (l : list (name * list string)).

Lemma zone_of_owns n : NoDup l.*1 -> owns (zone_of a l) n <-> n ∈ l.*1.
Proof.
  intros Hd. unfold owns. cbn. split.
  - intros [ts Ht]. apply elem_of_list_to_map in Ht; [|done]. apply list_elem_of_fmap. by exists (n, ts).
  - intros Hin. apply list_elem_of_fmap in Hin as ([n' ts] & -> & Hin). exists ts. by apply elem_of_list_to_map.
Qed.

Lemma zone_of_types n ts : NoDup l.*1 -> (n, ts) ∈ l -> types_at (zone_of a l) n = ts.
Proof.
  intros Hd Hin. unfold types_at. cbn. by rewrite (proj1 (elem_of_list_to_map l n ts Hd) Hin).
Qed.

Lemma zone_check_ok : zone_check a l = true -> zone_ok (zone_of a l).
Proof.
  unfold zone_check. rewrite !andb_true_iff, bool_decide_eq_true, existsb_exists. intros [[[Hd Ha] Hn] Hc].
  rewrite forallb_forall in Hn, Hc. destruct Ha as ([a' ta] & Hain & Ha).
  apply andb_true_iff in Ha as [Ha Hsoa]. apply bool_decide_eq_true in Ha as ->. apply bool_decide_eq_true in Hsoa.
  apply list_elem_of_In in Hain.
  assert (forall n, owns (zone_of a l) n -> exists ts, (n, ts) ∈ l) as Hown.
  { intros n Hn'. apply zone_of_owns, list_elem_of_fmap in Hn' as ([n' ts] & -> & Hin); [|done]. by exists ts. }
  assert (forall n, owns (zone_of a l) n -> plain_nameb n = true /\ a `suffix_of` n) as Hw.
  { intros n Ho. destruct (Hown n Ho) as [ts Hin]. apply list_elem_of_In in Hin. specialize (Hn _ Hin).
    cbn in Hn. apply andb_true_iff in Hn as [? Hs]. by apply bool_decide_eq_true in Hs. }
  split.
  - intros n Ho. by apply plain_nameb_ok, Hw.
  - apply zone_of_owns, list_elem_of_fmap; [done|]. by exists (a, ta).
  - cbn. by rewrite (zone_of_types a ta Hd Hain).
  - intros n Ho. by apply Hw.
  - intros c n [Ho Hcut] Hon Hs. destruct (Hown c Ho) as [ts Hin]. destruct (Hown n Hon) as [tn Hinn].
    rewrite (zone_of_types c ts Hd Hin) in Hcut. apply list_elem_of_In in Hin, Hinn. specialize (Hc _ Hin). cbn in Hc.
    apply orb_true_iff in Hc as [Hc|Hc].
    + exfalso. unfold cut_types in Hc. apply negb_true_iff, orb_false_iff in Hc as [H1 H2].
      unfold HasTypeInBitmap in *. fold (str_in ts "DNAME") (str_in ts "NS") (str_in ts "SOA") in *.
      rewrite str_in_false in H1. destruct Hcut as [?|[H3 H4]]; [done|].
      apply str_in_spec in H3. apply str_in_false in H4. by rewrite H3, H4 in H2.
    + rewrite forallb_forall in Hc. specialize (Hc _ Hinn). cbn in Hc.
      apply orb_true_iff in Hc as [Hc|Hc]; [|by apply bool_decide_eq_true in Hc].
      by apply negb_true_iff, bool_decide_eq_false in Hc.
Qed.
End listed.

(** ** The sample *)

Definition sample_nodes : list (name * list string) := [
  (["example"], ["NS"; "SOA"; "RRSIG"; "NSEC"; "DNSKEY"]);
  (["a"; "ent"; "example"], ["A"; "RRSIG"; "NSEC"]);
  (["sub"; "example"], ["NS"; "DS"; "RRSIG"; "NSEC"]);
  (["*"; "wild"; "example"], ["TXT"; "RRSIG"; "NSEC"]);
  (["www"; "example"], ["A"; "RRSIG"; "NSEC"])].

Definition sample_zone : zone_data := zone_of ["example"] sample_nodes.

Lemma sample_zone_ok : zone_ok sample_zone.
Proof. apply zone_check_ok. vm_compute. reflexivity. Qed.

Lemma sample_owns n : owns sample_zone n <-> n ∈ sample_nodes.*1.
Proof. apply zone_of_owns. apply (bool_decide_unpack _). vm_compute. exact I. Qed.

(** Sortedness, decided. *)
Fixpoint sortedb (l : list name) : bool :=
  match l with
  | [] => true
  | x :: l' => forallb (fun y => match name_compare x y with Lt => true | _ => false end) l' && sortedb l'
  end.

Lemma sortedb_ok l : sortedb l = true -> StronglySorted (fun x y => name_compare x y = Lt) l.
Proof.
  induction l as [|x l IH]; [constructor|]. cbn [sortedb]. intros Hs. apply andb_true_iff in Hs as [Hx Hs].
  constructor; [by apply IH|]. apply Forall_forall. intros y Hy. apply list_elem_of_In in Hy.
  rewrite forallb_forall in Hx. specialize (Hx _ Hy). cbn in Hx. by destruct (name_compare x y).
Qed.

Lemma sample_sorted : StronglySorted (fun x y => name_compare x y = Lt) (sample_nodes.*1).
Proof. apply sortedb_ok. vm_compute. reflexivity. Qed.

(** ** The names of the sample, empty non-terminals included *)

Fixpoint tails (n : name) : list name :=
  n :: match n with [] => [] | _ :: n' => tails n' end.

Lemma tails_spec s n : s ∈ tails n <-> s `suffix_of` n.
Proof.
  induction n as [|x n IH]; cbn [tails].
  - rewrite list_elem_of_singleton. split; [by intros ->|by intros ?%suffix_nil_inv].
  - rewrite elem_of_cons, IH. split.
    + intros [->|[k ->]]; [done|by exists (x :: k)].
    + intros [[|y k] Hk]; [by left; cbn in Hk|right]. injection Hk as _ ->. by exists k.
Qed.

(** The names of a listed zone's tree. *)
Definition tree_of (a : name) (l : list (name * list string)) : list name :=
  List.filter (fun n => bool_decide (a `suffix_of` n)) (concat (map tails l.*1)).

Lemma tree_of_spec a l n : NoDup l.*1 -> in_zone (zone_of a l) n <-> n ∈ tree_of a l.
Proof.
  intros Hd. unfold in_zone, name_exists, tree_of. rewrite filter_In_bool, bool_decide_eq_true. cbn [apex zone_of].
  assert ((exists m, owns (zone_of a l) m /\ n `suffix_of` m) <-> n ∈ concat (map tails l.*1)) as ->; [|done].
  rewrite list_elem_of_In, in_concat. split.
  - intros (m & Hm & Hs). apply zone_of_owns in Hm; [|done]. exists (tails m). split.
    + apply in_map. by apply list_elem_of_In.
    + by apply list_elem_of_In, tails_spec.
  - intros (t & Ht & Hn). apply in_map_iff in Ht as (m & <- & Hm). exists m.
    split; [apply zone_of_owns, list_elem_of_In; done|]. by apply tails_spec, list_elem_of_In.
Qed.

Lemma sample_nodup : NoDup sample_nodes.*1.
Proof. apply (bool_decide_unpack _). vm_compute. exact I. Qed.
