(* ===== verification/Digests.v ===== *)
(** * Digests: the hashes and encodings of Go's standard library

    The parts NSEC3 hashing uses come first, those of the DS digests after them.

    [crypto/sha1] and [encoding/base32] (extended hex alphabet, no padding), as
    executable functions on byte lists, with their test vectors. *)

From stdpp Require Import base list strings.
From Stdlib Require Import ZArith Lia Ascii.
From S2P Require Import Prelude Names.
Local Open Scope Z_scope.

(** ** 32-bit words *)

Definition wrap32 (x : Z) : Z := x mod 2 ^ 32.
Definition add32 (x y : Z) : Z := wrap32 (x + y).
Definition rotl32 (n x : Z) : Z := Z.lor (wrap32 (Z.shiftl x n)) (Z.shiftr x (32 - n)).
Definition not32 (x : Z) : Z := Z.lxor x (2 ^ 32 - 1).

(** Big-endian bytes of a value. *)
Fixpoint be_bytes (n : nat) (x : Z) : list Z :=
  match n with
  | O => []
  | S n' => be_bytes n' (x / 256) ++ [x mod 256]
  end.
Definition be_value (bs : list Z) : Z := fold_left (fun acc b => acc * 256 + b) bs 0.

(** ** FIPS 180-4 *)

Definition sha_pad (msg : list Z) : list Z :=
  let zeros := Z.to_nat ((55 - Z.of_nat (length msg)) mod 64) in
  msg ++ 128 :: repeat 0 zeros ++ be_bytes 8 (8 * Z.of_nat (length msg)).

Fixpoint chunks {A} (fuel n : nat) (l : list A) : list (list A) :=
  match fuel, l with
  | S fuel', _ :: _ => take n l :: chunks fuel' n (drop n l)
  | _, _ => []
  end.

(** The message schedule, latest word first. *)
Fixpoint schedule (n : nat) (w : list Z) : list Z :=
  match n with
  | O => w
  | S n' =>
      let at_ i := nth i w 0 in
      schedule n' (rotl32 1 (Z.lxor (Z.lxor (at_ 2%nat) (at_ 7%nat)) (Z.lxor (at_ 13%nat) (at_ 15%nat))) :: w)
  end.

Definition round_fk (t : nat) (b c d : Z) : Z * Z :=
  if Nat.ltb t 20 then (Z.lor (Z.land b c) (Z.land (not32 b) d), 0x5A827999)
  else if Nat.ltb t 40 then (Z.lxor (Z.lxor b c) d, 0x6ED9EBA1)
  else if Nat.ltb t 60 then (Z.lor (Z.lor (Z.land b c) (Z.land b d)) (Z.land c d), 0x8F1BBCDC)
  else (Z.lxor (Z.lxor b c) d, 0xCA62C1D6).

Fixpoint rounds (t : nat) (ws : list Z) (s : Z * Z * Z * Z * Z) : Z * Z * Z * Z * Z :=
  match ws with
  | [] => s
  | w :: ws' =>
      let '(a, b, c, d, e) := s in
      let '(f, k) := round_fk t b c d in
      let tmp := add32 (add32 (add32 (rotl32 5 a) f) (add32 e k)) w in
      rounds (S t) ws' (tmp, a, rotl32 30 b, c, d)
  end.

Definition sha_block (h : list Z) (block : list Z) : list Z :=
  let words := map be_value (chunks 16 4 block) in
  match h with
  | [h0; h1; h2; h3; h4] =>
      let '(a, b, c, d, e) := rounds 0 (rev (schedule 64 (rev words))) (h0, h1, h2, h3, h4) in
      [add32 h0 a; add32 h1 b; add32 h2 c; add32 h3 d; add32 h4 e]
  | _ => h
  end.

Definition sha_init : list Z := [0x67452301; 0xEFCDAB89; 0x98BADCFE; 0x10325476; 0xC3D2E1F0].

(** [sha1.New], [Write], [Sum] over everything written. *)
Definition sha1_sum (msg : list Z) : list Z :=
  let padded := sha_pad msg in
  concat (map (be_bytes 4) (fold_left sha_block (chunks (length padded) 64 padded) sha_init)).

(** ** Base 32, extended hex alphabet, without padding *)

Fixpoint bits_of (n : nat) (x : Z) : list bool :=
  match n with
  | O => []
  | S n' => Z.testbit x (Z.of_nat n') :: bits_of n' x
  end.
Definition bits_value (bs : list bool) : Z := fold_left (fun acc b => 2 * acc + Z.b2z b) bs 0.

Definition base32_char (v : Z) : ascii :=
  ascii_of_N (Z.to_N (if v <? 10 then v + 48 else v + 55)).

Definition base32hex_encode (bs : list Z) : string :=
  let bits := concat (map (bits_of 8) bs) in
  String.string_of_list_ascii
    (map (fun g => base32_char (bits_value (g ++ repeat false (5 - length g)))) (chunks (length bits) 5 bits)).

(** ** Vectors: FIPS 180-4 and RFC 4648 *)

Example sha1_abc : sha1_sum (bytes_of_string "abc") =
  [0xA9; 0x99; 0x3E; 0x36; 0x47; 0x06; 0x81; 0x6A; 0xBA; 0x3E; 0x25; 0x71; 0x78; 0x50; 0xC2; 0x6C; 0x9C; 0xD0; 0xD8; 0x9D].
Proof. vm_compute. reflexivity. Qed.
Example sha1_two_blocks :
  be_value (take 4 (sha1_sum (bytes_of_string "abcdbcdecdefdefgefghfghighijhijkijkljklmklmnlmnomnopnopq"))) = 0x84983E44.
Proof. vm_compute. reflexivity. Qed.
Example base32hex_foobar : base32hex_encode (bytes_of_string "foobar") = "CPNMUOJ1E8".
Proof. vm_compute. reflexivity. Qed.

(** ** Shapes *)

Lemma be_bytes_length n x : length (be_bytes n x) = n.
Proof. revert x. induction n as [|n IH]; intros x; cbn; [done|]. rewrite length_app, IH. cbn. lia. Qed.

Lemma be_bytes_range n x : Forall (fun b => 0 <= b < 256) (be_bytes n x).
Proof.
  revert x. induction n as [|n IH]; intros x; cbn; [constructor|].
  apply Forall_app. split; [done|]. constructor; [|constructor]. apply Z.mod_pos_bound. lia.
Qed.

Lemma sha_block_length h block : length h = 5%nat -> length (sha_block h block) = 5%nat.
Proof.
  destruct h as [|h0 [|h1 [|h2 [|h3 [|h4 [|? ?]]]]]]; try done. intros _. unfold sha_block.
  by destruct (rounds _ _ _) as [[[[a b] c] d] e].
Qed.

Lemma sha1_words msg :
  length (fold_left sha_block (chunks (length (sha_pad msg)) 64 (sha_pad msg)) sha_init) = 5%nat.
Proof.
  generalize (chunks (length (sha_pad msg)) 64 (sha_pad msg)). intros bl.
  assert (length sha_init = 5%nat) as Hi by done. revert Hi. generalize sha_init.
  induction bl as [|b bl IH]; intros h Hh; cbn; [done|]. apply IH. by apply sha_block_length.
Qed.

(** A digest is twenty bytes. *)
Lemma sha1_length msg : length (sha1_sum msg) = 20%nat.
Proof.
  unfold sha1_sum. pose proof (sha1_words msg) as Hw. revert Hw. generalize (fold_left sha_block
    (chunks (length (sha_pad msg)) 64 (sha_pad msg)) sha_init). intros ws Hw.
  destruct ws as [|w0 [|w1 [|w2 [|w3 [|w4 [|? ?]]]]]]; done.
Qed.

Lemma sha1_range msg : Forall (fun b => 0 <= b < 256) (sha1_sum msg).
Proof.
  unfold sha1_sum. apply Forall_concat, Forall_forall. intros l Hl.
  apply list_elem_of_fmap in Hl as (w & -> & _). apply be_bytes_range.
Qed.

(** ** SHA-256, SHA-384 and base64 as the DS digests use them

    [crypto/sha256], [crypto/sha512] (Sum384), [encoding/hex] and
    [encoding/base64] (StdEncoding.DecodeString) as executable functions on byte
    lists, with their test vectors; the two hashes are one compression function at
    two widths. *)

(** ** FIPS 180-4, SHA-2 *)

(** The parameters of one width: word bits, rotation amounts, round constants. *)
Record sha2_params := {
  word_bits : Z;
  big0 : Z * Z * Z; big1 : Z * Z * Z;
  small0 : Z * Z * Z; small1 : Z * Z * Z;
  round_constants : list Z
}.

Section sha2.
Context (p : sha2_params).
Definition wrap (x : Z) : Z := x mod 2 ^ word_bits p.
Definition rotr (n x : Z) : Z := Z.lor (Z.shiftr x n) (wrap (Z.shiftl x (word_bits p - n))).
Definition big_sigma (r : Z * Z * Z) (x : Z) : Z :=
  let '(a, b, c) := r in Z.lxor (Z.lxor (rotr a x) (rotr b x)) (rotr c x).
Definition small_sigma (r : Z * Z * Z) (x : Z) : Z :=
  let '(a, b, c) := r in Z.lxor (Z.lxor (rotr a x) (rotr b x)) (Z.shiftr x c).

(** The message schedule, latest word first. *)
Fixpoint schedule2 (n : nat) (w : list Z) : list Z :=
  match n with
  | O => w
  | S n' =>
      let at_ i := nth i w 0 in
      schedule2 n' (wrap (small_sigma (small1 p) (at_ 1%nat) + at_ 6%nat + small_sigma (small0 p) (at_ 14%nat) + at_ 15%nat) :: w)
  end.

Fixpoint rounds2 (kws : list (Z * Z)) (s : list Z) : list Z :=
  match kws, s with
  | (k, w) :: rest, [a; b; c; d; e; f; g; h] =>
      let ch := Z.lxor (Z.land e f) (Z.land (Z.lxor e (2 ^ word_bits p - 1)) g) in
      let maj := Z.lxor (Z.lxor (Z.land a b) (Z.land a c)) (Z.land b c) in
      let t1 := wrap (h + big_sigma (big1 p) e + ch + k + w) in
      rounds2 rest [wrap (t1 + big_sigma (big0 p) a + maj); a; b; c; wrap (d + t1); e; f; g]
  | _, _ => s
  end.

Definition sha2_block (h : list Z) (block : list Z) : list Z :=
  let words := map be_value (chunks 16 (Z.to_nat (word_bits p / 8)) block) in
  let ws := rev (schedule2 (length (round_constants p) - 16) (rev words)) in
  zip_with (fun x y => wrap (x + y)) h (rounds2 (combine (round_constants p) ws) h).

(** Padding to blocks of sixteen words, the length in the last two words. *)
Definition sha2_pad (msg : list Z) : list Z :=
  let block := 2 * word_bits p in
  let tail := word_bits p / 4 in
  let zeros := Z.to_nat ((block - tail - 1 - Z.of_nat (length msg)) mod block) in
  msg ++ 128 :: repeat 0 zeros ++ be_bytes (Z.to_nat tail) (8 * Z.of_nat (length msg)).

Definition sha2 (init : list Z) (msg : list Z) : list Z :=
  let padded := sha2_pad msg in
  concat (map (be_bytes (Z.to_nat (word_bits p / 8)))
    (fold_left sha2_block (chunks (length padded) (Z.to_nat (2 * word_bits p)) padded) init)).
End sha2.

(** *** The constants

    FIPS 180-4 takes them from the fractional parts of the roots of the primes: the
    round constants from cube roots, the initial values from square roots. *)

Definition is_prime (n : Z) : bool := forallb (fun d => negb (n mod d =? 0)) (map Z.of_nat (seq 2 (Z.to_nat (Z.sqrt n) - 1))).
Definition primes : list Z := Eval vm_compute in take 80 (List.filter is_prime (map Z.of_nat (seq 2 420))).

(** The greatest [r] below [acc + 2^bits] whose cube is at most [n]. *)
Fixpoint cube_root (bits : nat) (n acc : Z) : Z :=
  match bits with
  | O => acc
  | S b => let r := acc + 2 ^ Z.of_nat b in cube_root b n (if r * r * r <=? n then r else acc)
  end.
Definition cube_fraction (q : Z) : Z := cube_root 70 (q * 2 ^ 192) 0 mod 2 ^ 64.
Definition square_fraction (q : Z) : Z := Z.sqrt (q * 2 ^ 128) mod 2 ^ 64.
Definition high_word (x : Z) : Z := Z.shiftr x 32.

Definition k512 : list Z := Eval vm_compute in map cube_fraction primes.
Definition k256 : list Z := Eval vm_compute in map high_word (take 64 k512).

Definition sha256_params : sha2_params := {|
  word_bits := 32; big0 := (2, 13, 22); big1 := (6, 11, 25); small0 := (7, 18, 3); small1 := (17, 19, 10);
  round_constants := k256 |}.
Definition sha512_params : sha2_params := {|
  word_bits := 64; big0 := (28, 34, 39); big1 := (14, 18, 41); small0 := (1, 8, 7); small1 := (19, 61, 6);
  round_constants := k512 |}.

Definition sha256_init : list Z := Eval vm_compute in map (fun q => high_word (square_fraction q)) (take 8 primes).
Definition sha384_init : list Z := Eval vm_compute in map square_fraction (take 8 (drop 8 primes)).

(** [sha256.Sum256] and [sha512.Sum384] *)
Definition Sum256 (data : list Z) : list Z := sha2 sha256_params sha256_init data.
Definition Sum384 (data : list Z) : list Z := firstn 48 (sha2 sha512_params sha384_init data).

(** ** Hexadecimal and base 64 *)

Definition hex_digit (d : Z) : ascii := ascii_of_N (Z.to_N (if d <? 10 then d + 48 else d + 87)).
(** [%02x] of a byte *)
Definition hex2 (b : Z) : string := String (hex_digit (b / 16)) (String (hex_digit (b mod 16)) "").
(** [hex.EncodeToString] *)
Definition hex_encode (bs : list Z) : string := String.concat "" (map hex2 bs).

Definition base64_value (c : ascii) : option Z :=
  let n := Z.of_N (N_of_ascii c) in
  if (65 <=? n) && (n <=? 90) then Some (n - 65)
  else if (97 <=? n) && (n <=? 122) then Some (n - 71)
  else if (48 <=? n) && (n <=? 57) then Some (n + 4)
  else if n =? 43 then Some 62
  else if n =? 47 then Some 63
  else None.

(** Quanta of four digits; padding only in the last quantum, after which nothing
    follows.  Trailing bits are ignored, as StdEncoding is not strict. *)
Fixpoint base64_quanta (l : list ascii) : option (list Z) :=
  match l with
  | [] => Some []
  | a :: b :: c :: d :: rest =>
      match base64_value a, base64_value b with
      | Some va, Some vb =>
          if Ascii.eqb c "=" then
            if Ascii.eqb d "=" && match rest with [] => true | _ => false end
            then Some [va * 4 + vb / 16] else None
          else
            match base64_value c with
            | None => None
            | Some vc =>
                if Ascii.eqb d "=" then
                  match rest with
                  | [] => Some [va * 4 + vb / 16; vb mod 16 * 16 + vc / 4]
                  | _ => None
                  end
                else
                  match base64_value d, base64_quanta rest with
                  | Some vd, Some bs => Some (va * 4 + vb / 16 :: vb mod 16 * 16 + vc / 4 :: vc mod 4 * 64 + vd :: bs)
                  | _, _ => None
                  end
            end
      | _, _ => None
      end
  | _ => None
  end.

(** [base64.StdEncoding.DecodeString]: line ends are skipped. *)
Definition base64_decode (s : string) : res string (list Z) :=
  let keep c := negb (Ascii.eqb c (ascii_of_N 10) || Ascii.eqb c (ascii_of_N 13)) in
  match base64_quanta (List.filter keep (String.list_ascii_of_string s)) with
  | Some bs => Ok bs
  | None => Err "illegal base64 data"
  end.

(** ** Test vectors *)

Example sha256_abc : hex_encode (Sum256 (bytes_of_string "abc")) =
  "ba7816bf8f01cfea414140de5dae2223b00361a396177a9cb410ff61f20015ad".
Proof. vm_compute. reflexivity. Qed.
Example sha384_abc : hex_encode (Sum384 (bytes_of_string "abc")) =
  "cb00753f45a35e8bb5a03d699ac65007272c32ab0eded1631a8b605a43ff5bed8086072ba1e7cc2358baeca134c825a7".
Proof. vm_compute. reflexivity. Qed.
Example base64_ex : base64_decode "Zm9vYg==" = Ok (bytes_of_string "foob").
Proof. vm_compute. reflexivity. Qed.
