(* ===== verification/Ip.v ===== *)
(** * Ip: the parts of Go's [net] and [net/netip] the resolver uses

    A [net.IP] is its bytes, four or sixteen of them.  [ParseIP], [To4], [String]
    and [SplitHostPort] are executable, with examples. *)

From stdpp Require Import base list strings pretty.
From Stdlib Require Import ZArith Lia Ascii.
From S2P Require Import Prelude Names Digests.
Local Open Scope Z_scope.

Abbreviation IP := (list Z) (only parsing).

Fixpoint bytes_eqb (a b : list Z) : bool :=
  match a, b with
  | [], [] => true
  | x :: a', y :: b' => (x =? y) && bytes_eqb a' b'
  | _, _ => false
  end.

Lemma bytes_eqb_eq a b : bytes_eqb a b = true <-> a = b.
Proof.
  revert b. induction a as [|x a IH]; intros [|y b]; cbn; try done.
  rewrite andb_true_iff, Z.eqb_eq, IH. split; [by intros [-> ->] | by intros [= -> ->]].
Qed.

Definition v4_in_v6_prefix : list Z := [0; 0; 0; 0; 0; 0; 0; 0; 0; 0; 255; 255].

(** [ip.To4()] *)
Definition To4 (ip : IP) : option IP :=
  if Nat.eqb (length ip) 4 then Some ip
  else if Nat.eqb (length ip) 16 && bytes_eqb (firstn 12 ip) v4_in_v6_prefix then Some (skipn 12 ip)
  else None.

(** [s[n:]] *)
Definition str_drop (n : nat) (s : string) : string := String.substring n (String.length s - n) s.

(** ** Text *)

Definition v4_string (ip : IP) : string := Join (map (fun b => pretty b) ip) ".".

(** The sixteen-bit groups of an IPv6 address. *)
Fixpoint groups (ip : IP) : list Z :=
  match ip with
  | a :: b :: rest => a * 256 + b :: groups rest
  | _ => []
  end.

Fixpoint hex_nat (fuel : nat) (x : Z) : string :=
  match fuel with
  | O => ""
  | S fuel' => (if x <? 16 then "" else hex_nat fuel' (x / 16)) +:+ String (hex_digit (x mod 16)) ""
  end.

(** Length of the run of zero groups at the head. *)
Fixpoint zero_run (l : list Z) : nat :=
  match l with
  | 0 :: l' => S (zero_run l')
  | _ => O
  end.

(** The first longest run of at least two zero groups: its start and length. *)
Definition longest_zero_run (gs : list Z) : nat * nat :=
  fold_left (fun '(start, len) i =>
    let r := zero_run (drop i gs) in if Nat.ltb len r && Nat.ltb 1 r then (i, r) else (start, len)) (seq 0 8) (8%nat, 0%nat).

Definition v6_string (ip : IP) : string :=
  let gs := groups ip in
  let text l := Join (map (hex_nat 4) l) ":" in
  let '(start, len) := longest_zero_run gs in
  if Nat.eqb len 0 then text gs
  else text (take start gs) +:+ "::" +:+ text (drop (start + len) gs).

(** [ip.String()] *)
Definition IPString (ip : IP) : string :=
  match To4 ip with
  | Some v4 => v4_string v4
  | None => if Nat.eqb (length ip) 16 then v6_string ip
            else if Nat.eqb (length ip) 0 then "<nil>" else "?" +:+ hex_encode ip
  end.

(** ** Parsing *)

Definition decimal_value (s : string) : Z :=
  fold_left (fun acc c => acc * 10 + digit c) (String.list_ascii_of_string s) 0.

(** A field of an IPv4 address: one to three digits, no leading zero, at most 255. *)
Definition v4_field (s : string) : option Z :=
  let n := String.length s in
  if Nat.eqb n 0 || Nat.ltb 3 n || negb (forall_bytes is_digit s) then None
  else if Nat.ltb 1 n && HasPrefix s "0" then None
  else let v := decimal_value s in if 255 <? v then None else Some v.

Definition parse_v4 (s : string) : option IP :=
  match map v4_field (Split "." s) with
  | [Some a; Some b; Some c; Some d] => Some [a; b; c; d]
  | _ => None
  end.

Definition hex_digit_value (c : ascii) : option Z :=
  if byte_in_range "0" "9" c then Some (byte_of_ascii c - 48)
  else if byte_in_range "a" "f" c then Some (byte_of_ascii c - 87)
  else if byte_in_range "A" "F" c then Some (byte_of_ascii c - 55)
  else None.

(** A group of one to four hexadecimal digits, as two bytes. *)
Definition v6_group (s : string) : option (list Z) :=
  let n := String.length s in
  if Nat.eqb n 0 || Nat.ltb 4 n then None
  else
    v ← fold_left (fun acc c => a ← acc; d ← hex_digit_value c; Some (a * 16 + d)) (String.list_ascii_of_string s) (Some 0);
    Some [v / 256; v mod 256].

(** The groups between colons; the last may be an embedded IPv4 address when
    [tail] allows it. *)
Fixpoint v6_groups (tail : bool) (fields : list string) : option (list Z) :=
  match fields with
  | [] => Some []
  | [f] => if tail && Contains f "." then parse_v4 f else v6_group f
  | f :: rest => g ← v6_group f; gs ← v6_groups tail rest; Some (g ++ gs)
  end.

(** Before and after the first "::". *)
Fixpoint split_ellipsis (s : string) : option (string * string) :=
  match s with
  | String c s' =>
      if HasPrefix s "::" then Some ("", str_drop 2 s)
      else '(a, b) ← split_ellipsis s'; Some (String c a, b)
  | EmptyString => None
  end.

Definition fields_of (s : string) : list string := if String.eqb s "" then [] else Split ":" s.

(** An ellipsis stands for at least one group. *)
Definition parse_v6 (s : string) : option IP :=
  match split_ellipsis s with
  | None => bs ← v6_groups true (Split ":" s); if Nat.eqb (length bs) 16 then Some bs else None
  | Some (a, b) =>
      bs ← v6_groups false (fields_of a); cs ← v6_groups true (fields_of b);
      if Nat.ltb (length bs + length cs) 15 then Some (bs ++ repeat 0 (16 - length bs - length cs) ++ cs) else None
  end.

(** [net.ParseIP]: an IPv4 address is returned in its sixteen-byte form; zones are
    refused. *)
Definition ParseIP (s : string) : option IP :=
  if Contains s "%" then None
  else if Contains s ":" then parse_v6 s
  else a ← parse_v4 s; Some (v4_in_v6_prefix ++ a).

(** ** [net.SplitHostPort], the host *)

Fixpoint last_colon (s : string) : option (string * string) :=
  match s with
  | String c s' =>
      match last_colon s' with
      | Some (a, b) => Some (String c a, b)
      | None => if Ascii.eqb c ":" then Some ("", s') else None
      end
  | EmptyString => None
  end.
Fixpoint split_at (c0 : ascii) (s : string) : option (string * string) :=
  match s with
  | String c s' => if Ascii.eqb c c0 then Some ("", s') else '(a, b) ← split_at c0 s'; Some (String c a, b)
  | EmptyString => None
  end.

Definition SplitHost (hostport : string) : option string :=
  '(before, port) ← last_colon hostport;
  match hostport with
  | String c rest =>
      if Ascii.eqb c "[" then
        '(host, after) ← split_at "]" rest;
        if HasPrefix after ":" && String.eqb (str_drop 1 after) port && negb (Contains rest "[") && negb (Contains after "]")
        then Some host else None
      else if Contains before ":" || Contains hostport "[" || Contains hostport "]" then None
      else Some before
  | EmptyString => None
  end.

(** ** Examples *)

Example ip_v6 : IPString [0x20; 0x01; 0x0d; 0xb8; 0; 0; 0; 0; 0; 0; 0; 0; 0; 0; 0; 1] = "2001:db8::1".
Proof. vm_compute. reflexivity. Qed.
Example parse_mapped : option_map IPString (ParseIP "::ffff:192.0.2.1") = Some "192.0.2.1".
Proof. vm_compute. reflexivity. Qed.
Example parse_round : option_map IPString (ParseIP "2001:500:2::C") = Some "2001:500:2::c".
Proof. vm_compute. reflexivity. Qed.
Example parse_leading_zero : ParseIP "192.0.02.1" = None.
Proof. vm_compute. reflexivity. Qed.
Example split_v6 : SplitHost "[2001:db8::1]:5353" = Some "2001:db8::1" /\ SplitHost "2001:db8::1" = None /\ SplitHost "192.0.2.1:53" = Some "192.0.2.1".
Proof. vm_compute. done. Qed.
