(* ===== verification/Egress.v ===== *)
(** * Egress: which destinations the querier may contact
    (validator/internal/dns/egress.go)

    Prefixes are bytes with a bit length, as [netip.MustParsePrefix] reads the
    literals of the source. *)

From stdpp Require Import base list strings pretty.
From Stdlib Require Import ZArith Lia Ascii.
From S2P Require Import Prelude Names Ip.
Local Open Scope Z_scope.

(** A network with a mask ([net.IPNet]) and a prefix ([netip.Prefix]). *)
Module IPNet.
Record t := mk { net_ip : list Z; Mask : list Z }.
End IPNet.
Module Prefix.
Record t := mk { addr : list Z; bits : Z }.
End Prefix.

Module EgressPolicy.
Record t := mk { AllowPrivate : bool; Allow : list IPNet.t; Trusted : list string }.
End EgressPolicy.

(** The leading [bits] bits of two byte strings agree. *)
Fixpoint same_bits (bits : Z) (a b : list Z) : bool :=
  if bits <=? 0 then true
  else match a, b with
       | x :: a', y :: b' =>
           if 8 <=? bits then (x =? y) && same_bits (bits - 8) a' b'
           else Z.shiftr x (8 - bits) =? Z.shiftr y (8 - bits)
       | _, _ => false
       end.

(** [Prefix.Contains]: same family, same leading bits. *)
Definition prefix_contains (p : Prefix.t) (addr : list Z) : bool :=
  Nat.eqb (length (Prefix.addr p)) (length addr) && same_bits (Prefix.bits p) (Prefix.addr p) addr.

Definition reservedV4 : list Prefix.t := [
  Prefix.mk [0; 0; 0; 0] 8; Prefix.mk [10; 0; 0; 0] 8; Prefix.mk [100; 64; 0; 0] 10; Prefix.mk [127; 0; 0; 0] 8;
  Prefix.mk [169; 254; 0; 0] 16; Prefix.mk [172; 16; 0; 0] 12; Prefix.mk [192; 0; 0; 0] 24; Prefix.mk [192; 0; 2; 0] 24;
  Prefix.mk [192; 88; 99; 0] 24; Prefix.mk [192; 168; 0; 0] 16; Prefix.mk [198; 18; 0; 0] 15; Prefix.mk [198; 51; 100; 0] 24;
  Prefix.mk [203; 0; 113; 0] 24; Prefix.mk [224; 0; 0; 0] 4; Prefix.mk [240; 0; 0; 0] 4; Prefix.mk [255; 255; 255; 255] 32].

(** An IPv6 address from its leading bytes. *)
Definition v6 (bs : list Z) : list Z := bs ++ repeat 0 (16 - length bs).

Definition reservedV6 : list Prefix.t := [
  Prefix.mk (v6 []) 128; Prefix.mk (repeat 0 15 ++ [1]) 128; Prefix.mk (v6 v4_in_v6_prefix) 96;
  Prefix.mk (v6 [0; 0x64; 0xff; 0x9b]) 96; Prefix.mk (v6 [0; 0x64; 0xff; 0x9b; 0; 1]) 48; Prefix.mk (v6 [1; 0]) 64;
  Prefix.mk (v6 [0x20; 1; 0; 0]) 32; Prefix.mk (v6 [0x20; 1; 0; 2; 0; 0]) 48; Prefix.mk (v6 [0x20; 1; 0; 0x10]) 28;
  Prefix.mk (v6 [0x20; 1; 0; 0x20]) 28; Prefix.mk (v6 [0x20; 1; 0x0d; 0xb8]) 32; Prefix.mk (v6 [0x3f; 0xff; 0]) 20;
  Prefix.mk (v6 [0x5f; 0]) 16; Prefix.mk (v6 [0xfc]) 7; Prefix.mk (v6 [0xfe; 0x80]) 10; Prefix.mk (v6 [0xfe; 0xc0]) 10;
  Prefix.mk (v6 [0xff]) 8].

Definition sixToFourPrefix : Prefix.t := Prefix.mk (v6 [0x20; 2]) 16.

(** [netip.Addr.IsGlobalUnicast] and [IsPrivate], on an unmapped address. *)
Definition IsGlobalUnicast (addr : list Z) : bool :=
  let inside p := prefix_contains p addr in
  if Nat.eqb (length addr) 4 then
    negb (inside (Prefix.mk [0; 0; 0; 0] 32) || inside (Prefix.mk [255; 255; 255; 255] 32) || inside (Prefix.mk [127; 0; 0; 0] 8) ||
      inside (Prefix.mk [224; 0; 0; 0] 4) || inside (Prefix.mk [169; 254; 0; 0] 16))
  else
    negb (inside (Prefix.mk (v6 []) 128) || inside (Prefix.mk (repeat 0 15 ++ [1]) 128) || inside (Prefix.mk (v6 [0xff]) 8) ||
      inside (Prefix.mk (v6 [0xfe; 0x80]) 10)).
Definition IsPrivate (addr : list Z) : bool :=
  let inside p := prefix_contains p addr in
  inside (Prefix.mk [10; 0; 0; 0] 8) || inside (Prefix.mk [172; 16; 0; 0] 12) || inside (Prefix.mk [192; 168; 0; 0] 16) ||
  inside (Prefix.mk (v6 [0xfc]) 7).

(** [addr.Unmap()] *)
Definition Unmap (addr : list Z) : list Z := default addr (To4 addr).

Definition embedded_v4 (addr : list Z) : list Z := firstn 4 (skipn 2 addr).

(** The IPv4 half of [nonPublicAddr]; an embedded address is of this kind. *)
Definition nonPublicV4 (addr : list Z) : bool :=
  negb (IsGlobalUnicast addr) || IsPrivate addr || existsb (fun p => prefix_contains p addr) reservedV4.

Definition nonPublicAddr (addr : list Z) : bool :=
  if negb (IsGlobalUnicast addr) || IsPrivate addr then true
  else if Nat.eqb (length addr) 4 then existsb (fun p => prefix_contains p addr) reservedV4
  else if prefix_contains sixToFourPrefix addr then nonPublicV4 (embedded_v4 addr)
  else existsb (fun p => prefix_contains p addr) reservedV6.

(** [netip.AddrFromSlice] takes four or sixteen bytes. *)
Definition NonPublic (ip : list Z) : bool :=
  if Nat.eqb (length ip) 4 || Nat.eqb (length ip) 16 then nonPublicAddr (Unmap ip) else true.

(** [strings.Trim(host, "[]")] *)
Definition is_bracket (c : ascii) : bool := Ascii.eqb c "[" || Ascii.eqb c "]".
Fixpoint drop_while (f : ascii -> bool) (l : list ascii) : list ascii :=
  match l with
  | c :: l' => if f c then drop_while f l' else l
  | [] => []
  end.
Definition trim_brackets (s : string) : string :=
  String.string_of_list_ascii (rev (drop_while is_bracket (rev (drop_while is_bracket (String.list_ascii_of_string s))))).

Definition canonicalHost (server : string) : string :=
  let host := trim_brackets (default server (SplitHost server)) in
  match ParseIP host with
  | Some ip => IPString (default ip (To4 ip))
  | None => ToLower (TrimSuffix host ".")
  end.

(** [IPNet.Contains]: same length after [To4], equal under the mask. *)
Fixpoint masked_eq (net ip mask : list Z) : bool :=
  match net, ip, mask with
  | n :: net', i :: ip', m :: mask' => (Z.land n m =? Z.land i m) && masked_eq net' ip' mask'
  | [], [], _ => true
  | _, _, _ => false
  end.
Definition net_contains (n : IPNet.t) (ip : list Z) : bool :=
  masked_eq (IPNet.net_ip n) (default ip (To4 ip)) (IPNet.Mask n).

(** [Permit]: no error, or the reason. *)
Definition Permit (policy : option EgressPolicy.t) (server : string) : option string :=
  match policy with
  | None => None
  | Some p =>
      let host := canonicalHost server in
      if str_in (EgressPolicy.Trusted p) host then None
      else
        match ParseIP host with
        | None => Some (Sprintf "egress policy: refusing to query %q: not an IP address and not a trusted destination" [server])
        | Some ip =>
            let ip := default ip (To4 ip) in
            if EgressPolicy.AllowPrivate p || negb (NonPublic ip) then None
            else if existsb (fun n => net_contains n ip) (EgressPolicy.Allow p) then None
            else Some (Sprintf "egress policy: refusing to query %s: non-public destination (loopback, link-local, private or reserved address); allow it with private_destination_allowlist if this deployment should reach it" [IPString ip])
        end
  end.

(** The policy of the public service. *)
Definition PublicOnlyPolicy (trusted : list string) : EgressPolicy.t :=
  EgressPolicy.mk false []
    (map canonicalHost (List.filter (fun h => negb (String.eqb h "")) (map TrimSpace trusted))).

(** ** What the public policy lets through *)

(** The addresses an IP literal stands for: itself, and the IPv4 address it maps or
    embeds. *)
Inductive denotes : list Z -> list Z -> Prop :=
| denotes_self a : denotes a a
| denotes_mapped a v4 : To4 a = Some v4 -> denotes a v4
| denotes_embedded a : length a = 16%nat -> prefix_contains sixToFourPrefix a = true -> denotes a (embedded_v4 a).

(** Prefixes no public destination lies in. *)
Definition special (p : Prefix.t) : Prop := p ∈ reservedV4 \/ p ∈ reservedV6.

Lemma To4_length ip v : To4 ip = Some v -> length v = 4%nat.
Proof.
  unfold To4. destruct (Nat.eqb_spec (length ip) 4); [by intros [= <-]|].
  destruct (Nat.eqb_spec (length ip) 16) as [Hl|]; cbn [andb]; [|done].
  destruct (bytes_eqb _ _); [|done]. intros [= <-]. rewrite length_skipn, Hl. done.
Qed.

Lemma To4_of_4 ip : length ip = 4%nat -> To4 ip = Some ip.
Proof. intros Hl. unfold To4. by rewrite Hl. Qed.

Lemma existsb_false {A} (f : A -> bool) l x : existsb f l = false -> x ∈ l -> f x = false.
Proof.
  intros He Hx. destruct (f x) eqn:E; [|done]. exfalso. rewrite <- not_true_iff_false in He. apply He.
  apply existsb_exists. exists x. by rewrite <- list_elem_of_In.
Qed.

Lemma contains_length p a : prefix_contains p a = true -> length (Prefix.addr p) = length a.
Proof. unfold prefix_contains. intros [Hl%Nat.eqb_eq _]%andb_true_iff. done. Qed.

Lemma reserved_lengths : Forall (fun p => length (Prefix.addr p) = 4%nat) reservedV4 /\
  Forall (fun p => length (Prefix.addr p) = 16%nat) reservedV6.
Proof. split; repeat (apply List.Forall_cons; [reflexivity|]); apply List.Forall_nil. Qed.

(** A public address lies in no special prefix of its family. *)
Lemma public_v4 a p : length a = 4%nat -> NonPublic a = false -> special p -> prefix_contains p a = false.
Proof.
  intros Hl Hn Hp. destruct (prefix_contains p a) eqn:E; [|done]. exfalso. apply contains_length in E as Hpl.
  destruct reserved_lengths as [H4 H6]. rewrite Forall_forall in H4, H6.
  destruct Hp as [Hp|Hp]; [|specialize (H6 p Hp); congruence].
  unfold NonPublic, Unmap in Hn. rewrite To4_of_4, Hl in Hn by done. change (nonPublicAddr a = false) in Hn.
  unfold nonPublicAddr in Hn. rewrite Hl in Hn. destruct (_ || _); [done|]. cbn [Nat.eqb] in Hn.
  apply (existsb_false _ _ p) in Hn; [|done]. congruence.
Qed.

(** The 6to4 range meets no special range. *)
Lemma six_to_four_apart b p : prefix_contains sixToFourPrefix b = true -> p ∈ reservedV6 -> prefix_contains p b = false.
Proof.
  unfold prefix_contains. intros [_ Hb]%andb_true_iff Hp. apply andb_false_iff. right.
  destruct b as [|x0 [|x1 b]]; [done | cbn in Hb; by rewrite andb_false_r in Hb|].
  cbn [Prefix.bits Prefix.addr sixToFourPrefix v6 app same_bits] in Hb. change (((0x20 =? x0) && ((2 =? x1) && same_bits 0 (repeat 0 14) b)) = true) in Hb.
  bool_to_prop. subst x0 x1. revert p Hp. apply Forall_forall.
  repeat (apply List.Forall_cons; [reflexivity|]). apply List.Forall_nil.
Qed.

(** The sixteen-byte case: the address, or the IPv4 address it stands for. *)
Lemma public_v6 a p : length a = 16%nat -> NonPublic a = false -> special p ->
  forall b, denotes a b -> To4 a = None -> prefix_contains p b = false.
Proof.
  intros Hl Hn Hp b Hb Hto. unfold NonPublic, Unmap in Hn. rewrite Hto, Hl in Hn. change (nonPublicAddr a = false) in Hn.
  unfold nonPublicAddr in Hn. rewrite Hl in Hn. destruct (_ || _); [done|]. cbn [Nat.eqb] in Hn.
  destruct (prefix_contains p b) eqn:E; [|done]. exfalso. apply contains_length in E as Hpl.
  destruct reserved_lengths as [H4 H6]. rewrite Forall_forall in H4, H6.
  destruct Hb as [b|b v4 Hv|b _ Hsix]; [|congruence|].
  - destruct Hp as [Hp|Hp]; [specialize (H4 p Hp); congruence|]. destruct (prefix_contains sixToFourPrefix b) eqn:Es.
    + by rewrite (six_to_four_apart b p) in E.
    + apply (existsb_false _ _ p) in Hn; [|done]. congruence.
  - rewrite Hsix in Hn. unfold nonPublicV4 in Hn. apply orb_false_iff in Hn as [_ Hn].
    destruct Hp as [Hp|Hp].
    + apply (existsb_false _ _ p) in Hn; [|done]. congruence.
    + specialize (H6 p Hp). rewrite Hpl in H6. unfold embedded_v4 in H6. rewrite length_firstn, length_skipn, Hl in H6. done.
Qed.

(** What the public policy permits, beyond the trusted hosts, is the literal of an
    address outside every range of the policy's own tables, also as the IPv4 address it
    maps or, for 6to4, embeds.  The tables are not all of the special-purpose space
    ([unlisted_ranges_permitted]). *)
Theorem permit_is_public trusted server :
  Permit (Some (PublicOnlyPolicy trusted)) server = None ->
  canonicalHost server ∈ EgressPolicy.Trusted (PublicOnlyPolicy trusted) \/
  exists ip, ParseIP (canonicalHost server) = Some ip /\
    forall p b, special p -> denotes (default ip (To4 ip)) b -> prefix_contains p b = false.
Proof.
  unfold Permit. set (host := canonicalHost server). destruct (str_in _ host) eqn:Et; [intros _; left; by apply str_in_spec|].
  destruct (ParseIP host) as [ip|] eqn:Ep; [|done]. cbn [EgressPolicy.AllowPrivate PublicOnlyPolicy EgressPolicy.Allow orb existsb].
  set (a := default ip (To4 ip)). destruct (NonPublic a) eqn:En; cbn [negb]; [done|]. intros _. right. exists ip. split; [done|].
  intros p b Hp Hb. change (denotes a b) in Hb.
  destruct (To4 a) as [v4|] eqn:E4.
  - assert (v4 = a) as ->.
    { unfold a in *. destruct (To4 ip) as [w|] eqn:E; cbn in *; [|congruence]. pose proof (To4_length _ _ E). rewrite To4_of_4 in E4 by done. congruence. }
    pose proof (To4_length _ _ E4) as Hl. clearbody a. revert En E4 Hl. destruct Hb as [c|c v4 Hv|c Hl6 _]; intros En E4 Hl; [by apply (public_v4 c p) | | congruence].
    assert (v4 = c) as -> by congruence. by apply public_v4.
  - apply (public_v6 a); try done. unfold NonPublic in En. destruct (Nat.eqb_spec (length a) 4) as [Hl|]; [by rewrite To4_of_4 in E4|].
    by destruct (Nat.eqb_spec (length a) 16).
Qed.

(** [unlisted_ranges_permitted] Neither 2001::/23 nor the IPv4-compatible form is in
    the tables. *)
Lemma unlisted_ranges_permitted :
  Permit (Some (PublicOnlyPolicy [])) "2001:5::1" = None /\ Permit (Some (PublicOnlyPolicy [])) "::10.0.0.1" = None.
Proof. split; vm_compute; reflexivity. Qed.

Lemma permit_is_public_witness :
  Permit (Some (PublicOnlyPolicy ["127.0.0.1"])) "198.41.0.4" = None /\
  Permit (Some (PublicOnlyPolicy ["127.0.0.1"])) "127.0.0.1:53" = None /\
  Permit (Some (PublicOnlyPolicy ["127.0.0.1"])) "2002:a00:1::1" <> None /\
  exists ip, ParseIP "198.41.0.4" = Some ip /\ prefix_contains (Prefix.mk [10; 0; 0; 0] 8) (default ip (To4 ip)) = false.
Proof.
  split; [vm_compute; reflexivity|]. split; [vm_compute; reflexivity|]. split; [vm_compute; discriminate|].
  destruct (permit_is_public ["127.0.0.1"] "198.41.0.4") as [Ht|(ip & Hp & Hall)]; [vm_compute; reflexivity | |].
  - apply str_in_spec in Ht. vm_compute in Ht. discriminate Ht.
  - exists ip. split; [exact Hp|]. apply Hall; [left; right; left | apply denotes_self].
Defined.
