(* ===== verification/Nsec.v ===== *)
(** * Nsec: NSEC denial of existence (validator/internal/validator/nsec.go)

    The NXDOMAIN, NODATA and wildcard-answer proofs over a set of NSEC records,
    with their loops, early returns and messages.  [nil, nil] is [Ok None]. *)

From stdpp Require Import base list strings pretty.
From Stdlib Require Import ZArith Lia.
From S2P Require Import Prelude Order Names.
Local Open Scope Z_scope.

Module NSECRecord.
Record t := mk {
  Owner : string;
  Class_ : Z;
  Section_ : string;
  NextDomain : string;
  TypeBitmap : list string
}.
End NSECRecord.

Module NSECProof.
Record t := mk {
  ProofType : string;
  ResponseType : string;
  Verified : bool;
  Records : list string;
  CoveringNSEC : string;
  Explanation : string;
  Error : string;
  OptOut : bool;
  ClosestEncloser : string;
  NextCloser : string;
  Ignored : list string
}.
Definition zero : t := mk "" "" false [] "" "" "" false "" "" [].
#[global] Instance eta : Eta t := { eta r := mk (ProofType r) (ResponseType r) (Verified r)
  (Records r) (CoveringNSEC r) (Explanation r) (Error r) (OptOut r) (ClosestEncloser r)
  (NextCloser r) (Ignored r); eta_id r := ltac:(by destruct r) }.
End NSECProof.

(** NS set, SOA clear: the parent side of a zone cut. *)
Definition delegation_bitmap (bitmap : list string) : bool :=
  HasTypeInBitmap "NS" bitmap && negb (HasTypeInBitmap "SOA" bitmap).

(** [(p *NSECProof) adopt(basic)]; a nil [basic] is [None]. *)
Definition adopt (p : NSECProof.t) (basic : option NSECProof.t) : NSECProof.t :=
  match basic with
  | None => p
  | Some b =>
      let p := (((((p <| NSECProof.CoveringNSEC := NSECProof.CoveringNSEC b |>)
        <| NSECProof.Explanation := NSECProof.Explanation b |>)
        <| NSECProof.OptOut := NSECProof.OptOut b |>)
        <| NSECProof.ClosestEncloser := NSECProof.ClosestEncloser b |>)
        <| NSECProof.NextCloser := NSECProof.NextCloser b |>) in
      match NSECProof.Ignored b with
      | [] => p
      | ign => p <| NSECProof.Ignored := NSECProof.Ignored p ++ ign |>
      end
  end.

Section nsec.
Context `{DnsLib}.

Definition canonical_owner (r : NSECRecord.t) : string := canonicalizeName (NSECRecord.Owner r).
Definition canonical_next (r : NSECRecord.t) : string := canonicalizeName (NSECRecord.NextDomain r).

Fixpoint nsec_boundary_loop (qname : string) (nsecRecords : list NSECRecord.t) : res string unit :=
  match nsecRecords with
  | [] => Ok tt
  | nsec :: rest =>
      let owner := canonical_owner nsec in
      if String.eqb owner qname || negb (IsSubDomain owner qname) then nsec_boundary_loop qname rest
      else if HasTypeInBitmap "DNAME" (NSECRecord.TypeBitmap nsec) then
        Err (Sprintf "NSEC at %s, an ancestor of %s, has the DNAME bit set: names below it are redirected and cannot be denied by this zone" [owner; qname])
      else if delegation_bitmap (NSECRecord.TypeBitmap nsec) then
        Err (Sprintf "NSEC at %s, an ancestor of %s, is a delegation point (NS set, SOA clear): this zone cannot deny names below the zone cut (RFC 6840 §4.1)" [owner; qname])
      else nsec_boundary_loop qname rest
  end.

Definition nsecAncestorBoundary (qname : string) (nsecRecords : list NSECRecord.t) : res string unit :=
  nsec_boundary_loop (canonicalizeName qname) nsecRecords.

(** The two loops of [verifyNSECNXDOMAIN]: the first record that covers [name],
    unless a record before it is owned by [name]. *)
Fixpoint nxdomain_cover (name owned_by_name : string) (nsecRecords : list NSECRecord.t)
    : res string (option NSECRecord.t) :=
  match nsecRecords with
  | [] => Ok None
  | nsec :: rest =>
      if String.eqb (canonical_owner nsec) name then Err owned_by_name
      else if canonicallyBetween name (canonical_owner nsec) (canonical_next nsec) then Ok (Some nsec)
      else nxdomain_cover name owned_by_name rest
  end.

Definition verifyNSECNXDOMAIN (qname : string) (nsecRecords : list NSECRecord.t) : res string NSECProof.t :=
  let qname := canonicalizeName qname in
  check nsecAncestorBoundary qname nsecRecords;
  try covering <- nxdomain_cover qname
    (Sprintf "NSEC owned by %s proves the name exists; it cannot prove NXDOMAIN" [qname]) nsecRecords;
  match covering with
  | None => Err (Sprintf "no NSEC record proves %s doesn't exist" [qname])
  | Some covering =>
      let owner := canonical_owner covering in
      let next := canonical_next covering in
      if nsecEndpointBelow qname next then
        Err (Sprintf "NSEC %s -> %s: the next name is below %s, which therefore exists as an empty non-terminal; NXDOMAIN is not proven (RFC 7129 §5.5)" [owner; next; qname])
      else
        let ce := closestEncloserFromNSEC qname owner next in
        if String.eqb ce qname then
          Err (Sprintf "NSEC %s -> %s proves %s exists; NXDOMAIN is not proven" [owner; next; qname])
        else
          let wildcard := wildcardName ce in
          try wc <- nxdomain_cover wildcard
            (Sprintf "NSEC owned by %s proves the wildcard exists; NXDOMAIN is not proven" [wildcard]) nsecRecords;
          match wc with
          | None => Err (Sprintf "NXDOMAIN proof incomplete: no NSEC covers the wildcard %s (RFC 4035 §5.4)" [wildcard])
          | Some wc =>
              Ok (((((NSECProof.zero
                <| NSECProof.ProofType := "nxdomain" |>)
                <| NSECProof.CoveringNSEC := Sprintf "%s -> %s" [owner; next] |>)
                <| NSECProof.ClosestEncloser := ce |>)
                <| NSECProof.NextCloser := nextCloserName qname ce |>)
                <| NSECProof.Explanation := Sprintf "NSEC proves %s does not exist (covered by %s -> %s) and no wildcard %s exists (covered by %s -> %s)"
                     [qname; owner; next; wildcard; canonical_owner wc; canonical_next wc] |>)
          end
  end.

(** The record [verifyNSECNODATA] finds owned by [name], by its loops' order. *)
Definition owned_by (name : string) (nsecRecords : list NSECRecord.t) : option NSECRecord.t :=
  List.find (fun nsec => String.eqb (canonical_owner nsec) name) nsecRecords.

Definition verifyNSECNODATA (qname : string) (qtype : Z) (nsecRecords : list NSECRecord.t)
    : res string NSECProof.t :=
  let typeName := TypeString qtype in
  let qname := canonicalizeName qname in
  check nsecAncestorBoundary qname nsecRecords;
  match owned_by qname nsecRecords with
  | Some nsec =>
      let owner := canonical_owner nsec in
      let bitmap := NSECRecord.TypeBitmap nsec in
      if HasTypeInBitmap "CNAME" bitmap then
        Err (Sprintf "NSEC at %s has the CNAME bit set: a CNAME was expected, not NODATA for %s (RFC 6840 §4.3)" [owner; typeName])
      else if delegation_bitmap bitmap then
        Err (Sprintf "NSEC at %s is a delegation point (NS set, SOA clear): a parent referral, not authoritative NODATA for %s (R-030)" [owner; typeName])
      else if negb (HasTypeInBitmap typeName bitmap) then
        Ok (((NSECProof.zero
          <| NSECProof.ProofType := "nodata" |>)
          <| NSECProof.CoveringNSEC := Sprintf "%s types: %v" [owner; show_strings bitmap] |>)
          <| NSECProof.Explanation := Sprintf "NSEC at %s proves type %s does not exist (not in type bitmap)" [owner; typeName] |>)
      else Err (Sprintf "NSEC at %s lists type %s: NODATA is not proven" [owner; typeName])
  | None =>
      match List.find (fun nsec => canonicallyBetween qname (canonical_owner nsec) (canonical_next nsec)) nsecRecords with
      | None => Err (Sprintf "no NSEC record proves type %s doesn't exist for %s" [typeName; qname])
      | Some covering =>
          let owner := canonical_owner covering in
          let next := canonical_next covering in
          if nsecEndpointBelow qname next &&
             match compareCanonicalNames owner next with Lt => true | _ => false end then
            Ok ((((NSECProof.zero
              <| NSECProof.ProofType := "nodata" |>)
              <| NSECProof.CoveringNSEC := Sprintf "%s -> %s" [owner; next] |>)
              <| NSECProof.ClosestEncloser := qname |>)
              <| NSECProof.Explanation := Sprintf "NSEC %s -> %s proves %s exists as an empty non-terminal (next name is below it), which has no %s data (RFC 7129 §5.5)"
                   [owner; next; qname; typeName] |>)
          else
            let ce := closestEncloserFromNSEC qname owner next in
            let wildcard := wildcardName ce in
            match owned_by wildcard nsecRecords with
            | None => Err (Sprintf "no NSEC record proves type %s doesn't exist for %s (no exact match, empty non-terminal, or wildcard NODATA proof)" [typeName; qname])
            | Some nsec =>
                let bitmap := NSECRecord.TypeBitmap nsec in
                if HasTypeInBitmap "CNAME" bitmap then
                  Err (Sprintf "NSEC at %s has the CNAME bit set: a CNAME was expected, not NODATA for %s (RFC 6840 §4.3)" [wildcard; typeName])
                else if delegation_bitmap bitmap then
                  Err (Sprintf "NSEC at %s is a delegation point (NS set, SOA clear): not authoritative NODATA for %s" [wildcard; typeName])
                else if HasTypeInBitmap typeName bitmap then
                  Err (Sprintf "NSEC at %s lists type %s: wildcard NODATA is not proven for %s" [wildcard; typeName; qname])
                else
                  Ok (((((NSECProof.zero
                    <| NSECProof.ProofType := "nodata" |>)
                    <| NSECProof.CoveringNSEC := Sprintf "%s types: %v" [wildcard; show_strings bitmap] |>)
                    <| NSECProof.ClosestEncloser := ce |>)
                    <| NSECProof.NextCloser := nextCloserName qname ce |>)
                    <| NSECProof.Explanation := Sprintf "NSEC %s -> %s proves %s has no exact match (closest encloser %s); NSEC at %s proves the matching wildcard has no type %s (RFC 7129 §5.6)"
                         [owner; next; qname; ce; wildcard; typeName] |>)
            end
      end
  end.

Definition VerifyNSECDenial (qname : string) (qtype : Z) (nsecRecords : list NSECRecord.t) (rcode : Z)
    : res string (option NSECProof.t) :=
  match nsecRecords with
  | [] => Ok None
  | _ =>
      let qname := canonicalizeName qname in
      try proof <- (if rcode =? 3 then verifyNSECNXDOMAIN qname nsecRecords
                    else verifyNSECNODATA qname qtype nsecRecords);
      Ok (Some proof)
  end.

(** The NSEC branch of [VerifyWildcardDenial]: [proof] carries the claimed names. *)
Fixpoint wildcard_nsec_loop (qname claimedCE nextCloser : string) (proof : NSECProof.t)
    (nsecRecords : list NSECRecord.t) : NSECProof.t :=
  match nsecRecords with
  | [] => proof <| NSECProof.Error := Sprintf "no NSEC proves %s has no exact match for the wildcard expansion" [qname] |>
  | nsec :: rest =>
      let owner := canonical_owner nsec in
      let next := canonical_next nsec in
      let proof := proof <| NSECProof.Records := NSECProof.Records proof ++ [Sprintf "%s → %s" [owner; next]] |> in
      if String.eqb owner qname then
        proof <| NSECProof.Error := Sprintf "NSEC owned by %s proves an exact match exists; wildcard expansion from %s is not valid" [owner; wildcardName claimedCE] |>
      else if String.eqb owner nextCloser then
        proof <| NSECProof.Error := Sprintf "NSEC owned by %s proves the next closer name exists, so the closest encloser of %s is deeper than %s claimed by the signature; wildcard expansion from %s is not valid (RFC 4035 §5.3.4)"
          [owner; qname; claimedCE; wildcardName claimedCE] |>
      else if negb (canonicallyBetween qname owner next) then
        wildcard_nsec_loop qname claimedCE nextCloser proof rest
      else if nsecEndpointBelow qname next then
        proof <| NSECProof.Error := Sprintf "NSEC %s -> %s proves %s exists as an empty non-terminal; wildcard expansion is not valid" [owner; next; qname] |>
      else
        let provenCE := closestEncloserFromNSEC qname owner next in
        if negb (String.eqb provenCE claimedCE) then
          proof <| NSECProof.Error := Sprintf "NSEC %s -> %s proves the closest encloser of %s is %s, but the signature claims expansion from %s (closest encloser %s); the proof and signature disagree (RFC 4035 §5.3.4)"
            [owner; next; qname; provenCE; wildcardName claimedCE; claimedCE] |>
        else
          (((proof <| NSECProof.CoveringNSEC := Sprintf "%s -> %s" [owner; next] |>)
            <| NSECProof.Explanation := Sprintf "NSEC proves %s has no exact match (falls between %s and %s) with closest encloser %s; wildcard expansion from %s is valid"
                 [qname; owner; next; claimedCE; wildcardName claimedCE] |>)
            <| NSECProof.Verified := true |>)
  end.

Definition wildcard_nsec (qname claimedCE nextCloser : string) (proof : NSECProof.t)
    (nsecRecords : list NSECRecord.t) : NSECProof.t :=
  let proof := proof <| NSECProof.ProofType := "NSEC" |> in
  match nsecAncestorBoundary qname nsecRecords with
  | Err e => proof <| NSECProof.Error := e |>
  | Ok _ => wildcard_nsec_loop qname claimedCE nextCloser proof nsecRecords
  end.
End nsec.
