(* ===== verification/NsecSound.v ===== *)
(** * NsecSound: what an accepted NSEC proof says about the zone

    Against a zone and records it would publish ([authentic]: what the verified
    signatures give), each accepted proof is true of the zone; and with the
    complete chain every true denial is accepted. *)

From stdpp Require Import base list strings gmap.
From Stdlib Require Import ZArith Lia Sorted.
From S2P Require Import Prelude Order Names PlainNames DnsZone SampleZone Nsec.

(** [r] is the NSEC record of [o], pointing at [n]. *)
Record nsec_at (z : zone_data) (r : NSECRecord.t) (o n : name) : Prop := {
  nsec_owner : canonicalizeName (NSECRecord.Owner r) = fqdn o;
  nsec_next : canonicalizeName (NSECRecord.NextDomain r) = fqdn n;
  nsec_owns : owns z o;
  nsec_next_owns : owns z n;
  nsec_types : forall t, t ∈ NSECRecord.TypeBitmap r <-> t ∈ types_at z o;
  nsec_gap : forall x, owns z x -> between name_compare x o n = false
}.
Definition authentic (z : zone_data) (r : NSECRecord.t) : Prop := exists o n, nsec_at z r o n.

Lemma HasTypeInBitmap_spec t l : HasTypeInBitmap t l = true <-> t ∈ l.
Proof.
  unfold HasTypeInBitmap. rewrite existsb_exists. split.
  - intros (x & Hx & He). apply String.eqb_eq in He as ->. by apply list_elem_of_In.
  - intros Hin. exists t. rewrite <- list_elem_of_In. by rewrite String.eqb_refl.
Qed.

Lemma HasTypeInBitmap_false t l : HasTypeInBitmap t l = false <-> t ∉ l.
Proof. rewrite <- HasTypeInBitmap_spec. by destruct (HasTypeInBitmap t l). Qed.

Lemma delegation_bitmap_spec l :
  delegation_bitmap l = true <-> "NS" ∈ l /\ "SOA" ∉ l.
Proof.
  unfold delegation_bitmap. rewrite andb_true_iff, negb_true_iff.
  by rewrite HasTypeInBitmap_spec, HasTypeInBitmap_false.
Qed.

(** ** The geometry of one covering record *)

Section geometry.
Context (z : zone_data) (Hz : zone_ok z).
Context (r : NSECRecord.t) (o n : name) (Hr : nsec_at z r o n).
Context (q : name) (Hapex : apex z `suffix_of` q) (Hcov : between name_compare q o n = true).

Lemma covered_not_owned : ~ owns z q.
Proof. intros Ho. pose proof (nsec_gap _ _ _ _ Hr q Ho). congruence. Qed.

Lemma apex_neq_covered : apex z <> q.
Proof. intros Heq. apply covered_not_owned. rewrite <- Heq. by apply zone_apex. Qed.

Lemma apex_lt_covered : name_compare (apex z) q = Lt.
Proof. apply ancestor_le; [done|]. apply apex_neq_covered. Qed.

(** An endpoint below the covered name is only ever the next name, of a record
    that does not wrap. *)
Lemma endpoint_below x :
  (x = o \/ x = n) -> q `suffix_of` x -> x = n /\ name_compare o n = Lt.
Proof.
  intros Hx Hs. destruct (between_endpoints name_compare q o n Hcov) as [Hqo Hqn].
  assert (q <> x) as Hqx by (by destruct Hx; subst).
  pose proof (ancestor_le q x Hs Hqx) as Hlt.
  pose proof (nsec_gap _ _ _ _ Hr (apex z) (zone_apex _ Hz)) as Hgap.
  assert (name_compare (apex z) x = Lt) as Hax by (eapply (cmp_lt_trans name_compare); [apply apex_lt_covered|done]).
  pose proof apex_lt_covered as Haq. pose proof Hcov as Hcov'.
  unfold between in Hgap, Hcov'. destruct (name_compare o n) eqn:Eon.
  - exfalso. apply (cmp_eq name_compare) in Eon as Hon. assert (x = o) as -> by (destruct Hx; congruence).
    by rewrite Hax in Hgap.
  - destruct Hx as [-> | ->]; [|done]. exfalso. by rewrite Hlt in Hcov'.
  - exfalso. destruct Hx as [-> | ->].
    + rewrite Hlt in Hcov'. rewrite Hax in Hgap.
      destruct (name_compare q n) eqn:Eqn; try done.
      by rewrite (cmp_lt_trans name_compare _ _ _ Haq Eqn) in Hgap.
    + rewrite Hax in Hgap. by destruct (name_compare (apex z) o).
Qed.

(** A covered name exists exactly when the next name is below it. *)
Lemma covered_exists : name_exists z q -> q `suffix_of` n.
Proof.
  intros (m & Hm & Hs). destruct (decide (q `suffix_of` n)) as [|Hn]; [done|]. exfalso.
  destruct (decide (q `suffix_of` o)) as [Ho|Ho].
  { destruct (endpoint_below o) as [Heq _]; [by left|done|]. subst. done. }
  pose proof (covered_subtree q q m o n Ho Hn ltac:(done) Hs) as Hcm.
  by rewrite Hcov, (nsec_gap _ _ _ _ Hr m Hm) in Hcm.
Qed.

(** The closest encloser of a covered name that does not exist. *)
Lemma covered_encloser :
  ~ q `suffix_of` n ->
  closest_encloser z q (deeper (common_ancestor q o) (common_ancestor q n)).
Proof.
  intros Hqn. destruct (common_ancestor_spec q o) as (Ho1 & Ho2 & Ho3).
  destruct (common_ancestor_spec q n) as (Hn1 & Hn2 & Hn3).
  set (ce := deeper _ _). assert (ce = common_ancestor q o \/ ce = common_ancestor q n) as Hce.
  { unfold ce, deeper. destruct (Nat.ltb _ _); auto. }
  assert (ce `suffix_of` q) as Hceq by (by destruct Hce as [-> | ->]).
  split; [done|]. split.
  { destruct Hce as [-> | ->]; [exists o|exists n]; (split; [|done]); apply Hr. }
  intros s Hs (m & Hm & Hsm). apply (suffix_length_le s ce q); [done..|].
  assert (s `suffix_of` common_ancestor q o \/ s `suffix_of` common_ancestor q n) as Hor.
  { destruct (decide (s `suffix_of` o)) as [|Hno]; [left; auto|].
    destruct (decide (s `suffix_of` n)) as [|Hnn]; [right; auto|]. exfalso.
    pose proof (covered_subtree s q m o n Hno Hnn Hs Hsm) as Hcm.
    by rewrite Hcov, (nsec_gap _ _ _ _ Hr m Hm) in Hcm. }
  assert (length (common_ancestor q o) <= length ce /\ length (common_ancestor q n) <= length ce) as [H1 H2].
  { unfold ce, deeper. destruct (Nat.ltb_spec (length (common_ancestor q o)) (length (common_ancestor q n))); lia. }
  destruct Hor as [Hor|Hor]; apply suffix_length in Hor; lia.
Qed.

(** A cut above a covered name is the record's owner. *)
Lemma covered_below_cut c : cut z c -> c `suffix_of` q -> c = o.
Proof.
  intros Hc Hs. assert (c <> q) as Hne by (intros ->; apply covered_not_owned; apply Hc).
  pose proof (nsec_gap _ _ _ _ Hr c (proj1 Hc)) as Hgap.
  destruct (between_pred name_compare c q o n Hcov Hgap (ancestor_le c q Hs Hne)) as [|[H1 H2]]; [done|].
  pose proof (between_ancestor c o q Hs H1 H2) as Hco.
  by rewrite (zone_cuts _ Hz c o Hc (nsec_owns _ _ _ _ Hr) Hco).
Qed.
End geometry.

(** ** The loops *)

Section proofs.
Context `{DnsLibLaws}.

(** What [nsecAncestorBoundary] refuses: a record at a cut above [qname]. *)
Definition boundary_record (qname : string) (r : NSECRecord.t) : bool :=
  negb (String.eqb (canonical_owner r) qname) && IsSubDomain (canonical_owner r) qname &&
  (HasTypeInBitmap "DNAME" (NSECRecord.TypeBitmap r) || delegation_bitmap (NSECRecord.TypeBitmap r)).

Lemma boundary_loop_spec qname recs :
  nsec_boundary_loop qname recs = Ok tt <-> existsb (boundary_record qname) recs = false.
Proof.
  unfold boundary_record. induction recs as [|r recs IH]; cbn; [done|].
  destruct (String.eqb _ _), (IsSubDomain _ _), (HasTypeInBitmap _ _), (delegation_bitmap _); cbn; by try rewrite IH.
Qed.

Lemma boundary_err qname recs e :
  nsecAncestorBoundary qname recs = Err e -> existsb (boundary_record (canonicalizeName qname)) recs = true.
Proof.
  intros He. destruct (existsb _ recs) eqn:E; [done|]. apply boundary_loop_spec in E.
  unfold nsecAncestorBoundary in He. congruence.
Qed.

Lemma nxdomain_cover_some name e recs c :
  nxdomain_cover name e recs = Ok (Some c) ->
  c ∈ recs /\ canonicallyBetween name (canonical_owner c) (canonical_next c) = true.
Proof.
  induction recs as [|r recs IH]; cbn; [done|]. destruct (String.eqb _ _); [done|].
  destruct (canonicallyBetween name (canonical_owner r) (canonical_next r)) eqn:E; intros Hc.
  - simplify_eq. split; [set_solver|done].
  - destruct (IH Hc). split; [set_solver|done].
Qed.

(** With no record owned by the name, the first covering one is found. *)
Lemma nxdomain_cover_finds name e recs c :
  (forall r, r ∈ recs -> canonical_owner r <> name) -> c ∈ recs ->
  canonicallyBetween name (canonical_owner c) (canonical_next c) = true ->
  exists r, nxdomain_cover name e recs = Ok (Some r).
Proof.
  induction recs as [|r recs IH]; cbn; intros Hne Hin Hc; [set_solver|].
  assert (canonical_owner r <> name) as Hr by (apply Hne; set_solver). apply String.eqb_neq in Hr as ->.
  destruct (canonicallyBetween name (canonical_owner r) _) eqn:E; [by eexists|].
  apply IH; [intros; apply Hne; set_solver| |done].
  apply elem_of_cons in Hin as [->|]; [congruence|done].
Qed.

(** ** Records of a zone *)

Section zone.
Context (z : zone_data) (Hz : zone_ok z).

Lemma nsec_at_plain r o n : nsec_at z r o n -> plain_name o /\ plain_name n.
Proof. intros Hr. split; apply (zone_plain _ Hz); apply Hr. Qed.

Lemma nsec_at_owner r o n : nsec_at z r o n -> canonical_owner r = fqdn o.
Proof. by intros [Ho _ _ _ _ _]. Qed.
Lemma nsec_at_next r o n : nsec_at z r o n -> canonical_next r = fqdn n.
Proof. by intros [_ Hn _ _ _ _]. Qed.

Lemma nsec_at_covers r o n q :
  nsec_at z r o n -> plain_name q ->
  canonicallyBetween (fqdn q) (canonical_owner r) (canonical_next r) = between name_compare q o n.
Proof.
  intros Hr Hq. destruct (nsec_at_plain _ _ _ Hr). rewrite (nsec_at_owner _ _ _ Hr), (nsec_at_next _ _ _ Hr).
  by apply canonicallyBetween_fqdn.
Qed.

Lemma nsec_at_delegation r o n :
  nsec_at z r o n ->
  HasTypeInBitmap "DNAME" (NSECRecord.TypeBitmap r) || delegation_bitmap (NSECRecord.TypeBitmap r) = true <-> cut z o.
Proof.
  intros Hr. rewrite orb_true_iff, HasTypeInBitmap_spec, delegation_bitmap_spec, !(nsec_types _ _ _ _ Hr).
  unfold cut. split; [intros Ht; split; [apply Hr|done]|by intros [_ Ht]].
Qed.

(** The boundary check refuses exactly when a record's owner is a cut above. *)
Lemma boundary_record_spec r o n q :
  nsec_at z r o n -> plain_name q ->
  boundary_record (fqdn q) r = true <-> cut z o /\ o `suffix_of` q /\ o <> q.
Proof.
  intros Hr Hq. destruct (nsec_at_plain _ _ _ Hr) as [Ho _]. unfold boundary_record.
  rewrite (nsec_at_owner _ _ _ Hr), !andb_true_iff, (nsec_at_delegation _ _ _ Hr), negb_true_iff, String.eqb_neq,
    IsSubDomain_plain by done.
  split.
  - intros [[Hne Hs] Hc]. repeat split; try done; try apply Hc. by intros ->.
  - intros (Hc & Hs & Hne). repeat split; try done; try apply Hc. intros Heq. by apply Hne, fqdn_inj.
Qed.

Context (q : name) (Hq : plain_name q).

Lemma boundary_ok recs r o n c :
  nsecAncestorBoundary (fqdn q) recs = Ok tt -> r ∈ recs -> nsec_at z r o n ->
  between name_compare q o n = true -> cut z c -> c `suffix_of` q -> False.
Proof.
  intros Hb Hin Hr Hcov Hc Hs. unfold nsecAncestorBoundary in Hb. rewrite canonicalizeName_fqdn in Hb by done.
  apply boundary_loop_spec in Hb.
  pose proof (covered_below_cut z Hz r o n Hr q Hcov c Hc Hs) as ->.
  assert (existsb (boundary_record (fqdn q)) recs = true); [|congruence].
  apply existsb_exists. exists r. rewrite <- list_elem_of_In. split; [done|].
  apply (boundary_record_spec r o n q Hr Hq). split; [done|]. split; [done|].
  apply (between_endpoints name_compare) in Hcov as [? _]. congruence.
Qed.

(** A covering record, and what follows when no cut was seen. *)
Lemma covering_not_below_cut recs r o n :
  nsecAncestorBoundary (fqdn q) recs = Ok tt -> r ∈ recs -> nsec_at z r o n ->
  between name_compare q o n = true -> ~ below_cut z q.
Proof. intros ? ? ? ? (c & Hc & Hs & _). by eapply boundary_ok. Qed.

(** What a covering record and the encloser the code derives from it prove. *)
Lemma covering_facts r o n :
  apex z `suffix_of` q -> nsec_at z r o n -> between name_compare q o n = true ->
  nsecEndpointBelow (fqdn q) (canonical_next r) = false ->
  exists ce, closestEncloserFromNSEC (fqdn q) (canonical_owner r) (canonical_next r) = fqdn ce /\
    plain_name ce /\ closest_encloser z q ce /\ ~ name_exists z q.
Proof.
  intros Hqa Hr Hcov Hend. destruct (nsec_at_plain r o n Hr) as [Ho Hn].
  rewrite (nsec_at_owner _ _ _ Hr), (nsec_at_next _ _ _ Hr) in *.
  assert (~ q `suffix_of` n) as Hqn.
  { intros Hs. apply not_true_iff_false in Hend. apply Hend. apply nsecEndpointBelow_fqdn; [done..|].
    split; [|done]. by apply (between_endpoints name_compare) in Hcov as [_ ?]. }
  eexists. split; [by apply closestEncloser_fqdn|].
  assert (closest_encloser z q (deeper (common_ancestor q o) (common_ancestor q n))) as Hce
    by (by eapply covered_encloser).
  split; [exact (plain_name_suffix _ _ (proj1 Hce) Hq)|]. split; [done|].
  intros Hex. apply Hqn. by eapply covered_exists.
Qed.

Lemma encloser_proper ce : closest_encloser z q ce -> ~ name_exists z q -> ce <> q.
Proof. intros (_ & Hex & _) Hn ->. done. Qed.

Lemma wildcard_not_owned ce recs r :
  plain_name ce -> Forall (authentic z) recs -> r ∈ recs ->
  canonicallyBetween (wildcardName (fqdn ce)) (canonical_owner r) (canonical_next r) = true ->
  ~ owns z ("*" :: ce).
Proof.
  intros Hce Hauth Hin Hb Ho. rewrite wildcardName_fqdn in Hb by done.
  rewrite Forall_forall in Hauth. destruct (Hauth _ Hin) as (o & n & Hr).
  rewrite (nsec_at_covers r o n) in Hb by (done || by apply wildcard_label_plain).
  by rewrite (nsec_gap _ _ _ _ Hr _ Ho) in Hb.
Qed.
End zone.

(** ** NODATA *)

(** The bitmap checks of a NODATA proof, as facts about the owner. *)
Definition lacks_type (z : zone_data) (n : name) (t : string) : Prop :=
  owns z n /\ t ∉ types_at z n /\ "CNAME" ∉ types_at z n /\
  ~ ("NS" ∈ types_at z n /\ "SOA" ∉ types_at z n).

(** The three true NODATA answers: the name lacks the type; it is an empty
    non-terminal; it does not exist and the wildcard that answers for it lacks
    the type. *)
Definition nodata_truth (z : zone_data) (q : name) (t : string) : Prop :=
  lacks_type z q t \/ (name_exists z q /\ ~ owns z q) \/
  (~ name_exists z q /\ exists ce, closest_encloser z q ce /\ lacks_type z ("*" :: ce) t).

(** The NXDOMAIN answer of RFC 4592: neither the name nor the wildcard at its
    closest encloser exists, an empty non-terminal counting as existing. *)
Definition nxdomain_truth (z : zone_data) (q : name) : Prop :=
  ~ name_exists z q /\ exists ce, closest_encloser z q ce /\ ~ name_exists z ("*" :: ce).

(** What NSEC records can be asked for by owner: that the wildcard has no record
    of its own. *)
Definition nxdomain_unowned (z : zone_data) (q : name) : Prop :=
  ~ name_exists z q /\ exists ce, closest_encloser z q ce /\ ~ owns z ("*" :: ce).

(** No wildcard of the zone is an empty non-terminal; the two readings differ on
    nothing else. *)
Definition no_empty_wildcard (z : zone_data) : Prop :=
  forall ls, name_exists z ("*" :: ls) -> owns z ("*" :: ls).

Lemma nxdomain_truth_unowned z q : nxdomain_truth z q -> nxdomain_unowned z q.
Proof. intros (Hn & ce & Hce & Hw). split; [done|]. exists ce. split; [done|]. intros Ho. by apply Hw, owns_exists. Qed.

Lemma nxdomain_unowned_truth z q : no_empty_wildcard z -> nxdomain_unowned z q <-> nxdomain_truth z q.
Proof.
  intros Hw. split; [|apply nxdomain_truth_unowned]. intros (Hn & ce & Hce & Ho).
  split; [done|]. exists ce. split; [done|]. intros He. by apply Ho, Hw.
Qed.

(** That condition, decided over a list of the owners. *)
Definition wildcards_owned (ns : list name) : bool :=
  forallb (fun n => forallb (fun s => bool_decide (head s <> Some "*") || bool_decide (s ∈ ns)) (tails n)) ns.

Lemma wildcards_owned_ok z ns : (forall x, owns z x <-> x ∈ ns) -> wildcards_owned ns = true -> no_empty_wildcard z.
Proof.
  intros Hns Hc ls (m & Ho & Hs). apply Hns. apply Hns in Ho. unfold wildcards_owned in Hc.
  rewrite forallb_forall in Hc. specialize (Hc m (proj1 (list_elem_of_In _ _) Ho)). rewrite forallb_forall in Hc.
  specialize (Hc _ (proj1 (list_elem_of_In _ _) (proj2 (tails_spec _ _) Hs))).
  apply orb_true_iff in Hc as [Hc|Hc]; apply bool_decide_eq_true in Hc; [by destruct Hc|done].
Qed.

Lemma nsec_at_lacks z r o n t :
  nsec_at z r o n ->
  (HasTypeInBitmap "CNAME" (NSECRecord.TypeBitmap r) = false /\
   delegation_bitmap (NSECRecord.TypeBitmap r) = false /\
   HasTypeInBitmap t (NSECRecord.TypeBitmap r) = false <-> lacks_type z o t).
Proof.
  intros Hr. rewrite !HasTypeInBitmap_false, <- not_true_iff_false, delegation_bitmap_spec, !(nsec_types _ _ _ _ Hr).
  unfold lacks_type. split; [intros (?&?&?); split; [apply Hr|done]|tauto].
Qed.

Lemma closest_encloser_unique z q a b : closest_encloser z q a -> closest_encloser z q b -> a = b.
Proof.
  intros (Ha1 & Ha2 & Ha3) (Hb1 & Hb2 & Hb3). apply suffix_antisym; [by apply Hb3|by apply Ha3].
Qed.

Lemma owned_by_some name recs r :
  owned_by name recs = Some r -> r ∈ recs /\ canonical_owner r = name.
Proof. intros Ho. apply find_some_bool in Ho as [? Ho]. by apply String.eqb_eq in Ho. Qed.

Lemma owned_by_none name recs r : owned_by name recs = None -> r ∈ recs -> canonical_owner r <> name.
Proof. intros Ho Hin. apply String.eqb_neq. by apply (find_none_bool _ _ r Ho). Qed.

(** The record owned by a plain name is the zone's record there. *)
Lemma owned_by_at z x recs r :
  zone_ok z -> plain_name x -> Forall (authentic z) recs ->
  owned_by (fqdn x) recs = Some r -> exists n, nsec_at z r x n.
Proof.
  intros Hz Hx Hauth Ho. apply owned_by_some in Ho as [Hin Ho].
  destruct (proj1 (Forall_forall _ _) Hauth _ Hin) as (o & n & Hr).
  rewrite (nsec_at_owner z _ _ _ Hr) in Ho. destruct (nsec_at_plain z Hz _ _ _ Hr).
  apply fqdn_inj in Ho as ->; [|done..]. by exists n.
Qed.

Lemma not_below_cut_owned z q : zone_ok z -> owns z q -> ~ below_cut z q.
Proof. intros Hz Ho (c & Hc & Hs & Hne). apply Hne. symmetry. by apply (zone_cuts _ Hz c q). Qed.

(** An accepted NSEC NXDOMAIN proof is true: the name does not exist (not even as
    an empty non-terminal), this zone is the one that says so (no cut or DNAME
    above it), the reported closest encloser is the closest encloser, and there is
    no wildcard at it to synthesise from. *)
Lemma nsec_nxdomain_sound z q qname recs proof :
  zone_ok z -> plain_name q -> apex z `suffix_of` q -> canonicalizeName qname = fqdn q ->
  Forall (authentic z) recs ->
  verifyNSECNXDOMAIN qname recs = Ok proof ->
  ~ name_exists z q /\ ~ below_cut z q /\
  exists ce, NSECProof.ClosestEncloser proof = fqdn ce /\ closest_encloser z q ce /\ ~ owns z ("*" :: ce).
Proof.
  intros Hz Hq Hqa Hqn Hauth. unfold verifyNSECNXDOMAIN. rewrite Hqn.
  destruct (nsecAncestorBoundary (fqdn q) recs) as [[]|] eqn:Hb; [cbn|done].
  destruct (nxdomain_cover (fqdn q) _ recs) as [[c|]|] eqn:Hc; cbn [res_bind]; [|done..].
  destruct (nsecEndpointBelow _ _) eqn:Hend; [done|].
  destruct (String.eqb _ (fqdn q)); [done|].
  destruct (nxdomain_cover (wildcardName _) _ recs) as [[w|]|] eqn:Hw; cbn [res_bind]; [|done..].
  intros [= <-]. apply nxdomain_cover_some in Hc as [Hin Hcov], Hw as [Hwin Hwcov].
  destruct (proj1 (Forall_forall _ _) Hauth _ Hin) as (o & n & Hr).
  rewrite (nsec_at_covers z Hz c o n) in Hcov by done.
  destruct (covering_facts z Hz q Hq c o n Hqa Hr Hcov Hend) as (ce & Hcee & Hcep & Hce & Hnex).
  split; [done|]. split; [exact (covering_not_below_cut z Hz q Hq recs c o n Hb Hin Hr Hcov)|].
  exists ce. rewrite Hcee in Hwcov. split; [done|]. split; [done|]. exact (wildcard_not_owned z Hz ce recs w Hcep Hauth Hwin Hwcov).
Qed.

(** An accepted NSEC NODATA proof is true: one of the three NODATA situations holds
    and the answer is this zone's to give. *)
Lemma nsec_nodata_sound z q qname qtype recs proof :
  zone_ok z -> plain_name q -> apex z `suffix_of` q -> canonicalizeName qname = fqdn q ->
  Forall (authentic z) recs ->
  verifyNSECNODATA qname qtype recs = Ok proof ->
  nodata_truth z q (TypeString qtype) /\ ~ below_cut z q.
Proof.
  intros Hz Hq Hqa Hqn Hauth. unfold verifyNSECNODATA. rewrite Hqn.
  destruct (nsecAncestorBoundary (fqdn q) recs) as [[]|] eqn:Hb; [cbn [res_bind]|done].
  destruct (owned_by (fqdn q) recs) as [r|] eqn:Ho.
  - destruct (owned_by_at z q recs r Hz Hq Hauth Ho) as [n Hr].
    destruct (HasTypeInBitmap "CNAME" _) eqn:H1; [done|]. destruct (delegation_bitmap _) eqn:H2; [done|].
    destruct (HasTypeInBitmap (TypeString qtype) _) eqn:H3; [done|]. intros _.
    split; [left; by eapply nsec_at_lacks|]. eapply not_below_cut_owned; [done|apply Hr].
  - destruct (List.find _ recs) as [c|] eqn:Hc; [|done]. apply find_some_bool in Hc as [Hin Hcov].
    destruct (proj1 (Forall_forall _ _) Hauth _ Hin) as (o & n & Hr).
    rewrite (nsec_at_covers z Hz c o n) in Hcov by done. destruct (nsec_at_plain z Hz c o n Hr) as [Hop Hnp].
    pose proof (covering_not_below_cut z Hz q Hq recs c o n Hb Hin Hr Hcov) as Hcut.
    destruct (nsecEndpointBelow (fqdn q) (canonical_next c)) eqn:Hend; cbn [andb].
    + rewrite (nsec_at_next z c o n Hr) in Hend. apply nsecEndpointBelow_fqdn in Hend as [_ Hqn2]; [|done..].
      destruct (endpoint_below z Hz c o n Hr q Hqa Hcov n (or_intror eq_refl) Hqn2) as [_ Hlt].
      rewrite (nsec_at_owner z c o n Hr), (nsec_at_next z c o n Hr), compareCanonicalNames_fqdn, Hlt by done.
      intros _. split; [|done]. right; left. split; [exists n; split; [apply Hr|done]|].
      by eapply covered_not_owned.
    + destruct (owned_by (wildcardName _) recs) as [w|] eqn:Hw; [|done].
      destruct (covering_facts z Hz q Hq c o n Hqa Hr Hcov Hend) as (ce & Hcee & Hcep & Hce & Hnex).
      rewrite Hcee, wildcardName_fqdn in Hw by done.
      destruct (owned_by_at z ("*" :: ce) recs w Hz (wildcard_label_plain _ Hcep) Hauth Hw) as [wn Hwr].
      destruct (HasTypeInBitmap "CNAME" _) eqn:H1; [done|]. destruct (delegation_bitmap _) eqn:H2; [done|].
      destruct (HasTypeInBitmap (TypeString qtype) _) eqn:H3; [done|]. intros _.
      split; [|done]. right; right. split; [done|]. exists ce. split; [done|]. by eapply nsec_at_lacks.
Qed.

(** ** The complete chain *)

(** The records of a whole zone: every owner has one, every other name is covered. *)
Record complete_chain (z : zone_data) (recs : list NSECRecord.t) : Prop := {
  complete_auth : Forall (authentic z) recs;
  complete_owned : forall x, owns z x -> exists r n, r ∈ recs /\ nsec_at z r x n;
  complete_covers : forall x, ~ owns z x ->
    exists r o n, r ∈ recs /\ nsec_at z r o n /\ between name_compare x o n = true
}.

(** The chain a signer links over the sorted owner names. *)
Definition chain_record (z : zone_data) (link : name * name) : NSECRecord.t :=
  NSECRecord.mk (fqdn link.1) 1 "authority" (fqdn link.2) (types_at z link.1).
Definition nsec_chain (z : zone_data) (sorted_names : list name) : list NSECRecord.t :=
  map (chain_record z) (ring sorted_names).

Lemma nsec_chain_complete z l :
  zone_ok z -> StronglySorted (fun x y => name_compare x y = Lt) l -> (forall x, x ∈ l <-> owns z x) ->
  complete_chain z (nsec_chain z l).
Proof.
  intros Hz Hs Hl.
  assert (forall s e, (s, e) ∈ ring l -> nsec_at z (chain_record z (s, e)) s e) as Hat.
  { intros s e Hin. destruct (ring_elem l s e Hin) as [Hso%Hl Heo%Hl].
    split; try done.
    - by apply canonicalizeName_fqdn, (zone_plain _ Hz).
    - by apply canonicalizeName_fqdn, (zone_plain _ Hz).
    - intros x Hx. apply (ring_gap name_compare l); [done|by apply Hl|done]. }
  assert (forall s e, (s, e) ∈ ring l -> chain_record z (s, e) ∈ nsec_chain z l) as Hmem.
  { intros s e Hin. apply list_elem_of_fmap. by exists (s, e). }
  split.
  - apply Forall_forall. intros r Hr. apply list_elem_of_fmap in Hr as ([s e] & -> & Hin).
    exists s, e. by apply Hat.
  - intros x Hx. apply Hl in Hx. destruct (ring_linked l x Hx) as [e He].
    exists (chain_record z (x, e)), e. split; [by apply Hmem|by apply Hat].
  - intros x Hx. rewrite <- Hl in Hx.
    destruct (ring_covers name_compare l x Hs) as (s & e & Hin & Hb); [|done|].
    + intros ->. pose proof (proj2 (Hl _) (zone_apex _ Hz)). set_solver.
    + exists (chain_record z (s, e)), s, e. auto.
Qed.

Lemma complete_permutation z recs recs' :
  Permutation recs recs' -> complete_chain z recs' -> complete_chain z recs.
Proof.
  intros Hp [Ha Ho Hc]. split.
  - by rewrite Hp.
  - intros x Hx. destruct (Ho x Hx) as (r & n & Hin & Hr). exists r, n. by rewrite Hp.
  - intros x Hx. destruct (Hc x Hx) as (r & o & n & Hin & Hr). exists r, o, n. by rewrite Hp.
Qed.

Section exact.
Context (z : zone_data) (Hz : zone_ok z) (recs : list NSECRecord.t) (Hc : complete_chain z recs).

Lemma record_of r : r ∈ recs -> authentic z r.
Proof. apply (proj1 (Forall_forall _ _) (complete_auth _ _ Hc)). Qed.

Lemma boundary_passes q : plain_name q -> ~ below_cut z q -> nsecAncestorBoundary (fqdn q) recs = Ok tt.
Proof.
  intros Hq Hn. unfold nsecAncestorBoundary. rewrite canonicalizeName_fqdn by done.
  apply boundary_loop_spec, not_true_iff_false. intros He. apply existsb_exists in He as (r & Hin & He).
  apply list_elem_of_In in Hin. destruct (record_of r Hin) as (o & n & Hr).
  destruct (proj1 (boundary_record_spec z Hz r o n q Hr Hq) He) as (Hcut & Hs & Hne). apply Hn. by exists o.
Qed.

Lemma owner_owns x r : plain_name x -> r ∈ recs -> canonical_owner r = fqdn x -> owns z x.
Proof.
  intros Hx Hin Ho. destruct (record_of r Hin) as (o & n & Hr).
  rewrite (nsec_at_owner z _ _ _ Hr) in Ho. destruct (nsec_at_plain z Hz _ _ _ Hr).
  apply fqdn_inj in Ho as <-; [apply Hr|done..].
Qed.

Lemma cover_found x e :
  plain_name x -> ~ owns z x -> exists r o n, nxdomain_cover (fqdn x) e recs = Ok (Some r) /\ r ∈ recs /\
    nsec_at z r o n /\ between name_compare x o n = true.
Proof.
  intros Hx Hn. destruct (complete_covers _ _ Hc x Hn) as (r & o & n & Hin & Hr & Hb).
  destruct (nxdomain_cover_finds (fqdn x) e recs r) as [r' Hr'].
  - intros r2 Hin2 Heq. apply Hn. by apply (owner_owns x r2).
  - done.
  - by rewrite (nsec_at_covers z Hz r o n x Hr Hx).
  - destruct (nxdomain_cover_some _ _ _ _ Hr') as [Hin' Hb']. destruct (record_of r' Hin') as (o' & n' & Hr2).
    exists r', o', n'. by rewrite (nsec_at_covers z Hz r' o' n' x Hr2 Hx) in Hb'.
Qed.

Lemma owned_found x : owns z x -> exists r, owned_by (fqdn x) recs = Some r.
Proof.
  intros Hx. destruct (complete_owned _ _ Hc x Hx) as (r & n & Hin & Hr).
  destruct (owned_by (fqdn x) recs) as [r'|] eqn:E; [by eexists|]. exfalso.
  apply (owned_by_none _ _ _ E Hin). by apply (nsec_at_owner z _ _ _ Hr).
Qed.

Lemma endpoint_not_below q r o n :
  plain_name q -> nsec_at z r o n -> ~ name_exists z q -> nsecEndpointBelow (fqdn q) (canonical_next r) = false.
Proof.
  intros Hq Hr Hn. apply not_true_iff_false. rewrite (nsec_at_next z r o n Hr).
  destruct (nsec_at_plain z Hz _ _ _ Hr). rewrite nsecEndpointBelow_fqdn by done.
  intros [_ Hs]. apply Hn. exists n. split; [apply Hr|done].
Qed.

Lemma nsec_nxdomain_accepts q qname :
  plain_name q -> apex z `suffix_of` q -> canonicalizeName qname = fqdn q ->
  nxdomain_unowned z q -> ~ below_cut z q -> is_ok (verifyNSECNXDOMAIN qname recs) = true.
Proof.
  intros Hq Hqa Hqn [Hnex (ce & Hce & Hw)] Hcut. unfold verifyNSECNXDOMAIN. rewrite Hqn, boundary_passes by done.
  cbn [res_bind].
  destruct (cover_found q (Sprintf "NSEC owned by %s proves the name exists; it cannot prove NXDOMAIN" [fqdn q]) Hq)
    as (r & o & n & Hr & Hin & Hat & Hb); [intros Ho; by apply Hnex, owns_exists|].
  rewrite Hr. cbn [res_bind]. rewrite (endpoint_not_below q r o n Hq Hat Hnex).
  destruct (covering_facts z Hz q Hq r o n Hqa Hat Hb (endpoint_not_below q r o n Hq Hat Hnex))
    as (ce' & -> & Hcep & Hce' & _).
  assert (ce' = ce) as -> by (by eapply closest_encloser_unique).
  assert (fqdn ce <> fqdn q) as Hne.
  { intros Heq. apply fqdn_inj in Heq; [|done..]. by eapply encloser_proper. }
  apply String.eqb_neq in Hne as ->. rewrite wildcardName_fqdn by done.
  destruct (cover_found ("*" :: ce) (Sprintf "NSEC owned by %s proves the wildcard exists; NXDOMAIN is not proven" [fqdn ("*" :: ce)])
    (wildcard_label_plain _ Hcep) Hw) as (w & ? & ? & -> & _). done.
Qed.

Lemma nsec_nodata_accepts q qname qtype :
  plain_name q -> apex z `suffix_of` q -> canonicalizeName qname = fqdn q ->
  nodata_truth z q (TypeString qtype) -> ~ below_cut z q -> is_ok (verifyNSECNODATA qname qtype recs) = true.
Proof.
  intros Hq Hqa Hqn Ht Hcut. unfold verifyNSECNODATA. rewrite Hqn, boundary_passes by done. cbn [res_bind].
  destruct (owned_by (fqdn q) recs) as [r|] eqn:Ho.
  { destruct (owned_by_at z q recs r Hz Hq (complete_auth _ _ Hc) Ho) as [n Hr].
    pose proof (nsec_owns _ _ _ _ Hr) as Hown. destruct Ht as [Ht|[[_ Ht]|[Ht _]]]; [|done|by destruct Ht; apply owns_exists].
    apply (nsec_at_lacks z r q n _ Hr) in Ht as (H1 & H2 & H3). by rewrite H1, H2, H3. }
  assert (~ owns z q) as Hno by (intros Hown; destruct (owned_found q Hown); congruence).
  destruct (List.find _ recs) as [r|] eqn:Hf.
  2: { exfalso. destruct (complete_covers _ _ Hc q Hno) as (r & o & n & Hin & Hr & Hb).
       pose proof (find_none_bool _ _ r Hf Hin) as Hx. cbn in Hx. by rewrite (nsec_at_covers z Hz r o n q Hr Hq), Hb in Hx. }
  apply find_some_bool in Hf as [Hin Hb]. destruct (record_of r Hin) as (o & n & Hr).
  rewrite (nsec_at_covers z Hz r o n q Hr Hq) in Hb. destruct (nsec_at_plain z Hz r o n Hr) as [Hop Hnp].
  destruct Ht as [Ht|[[Hex _]|[Hnex (ce & Hce & Hl)]]]; [by destruct Ht|..].
  - pose proof (covered_exists z Hz r o n Hr q Hqa Hb Hex) as Hqn2.
    destruct (endpoint_below z Hz r o n Hr q Hqa Hb n (or_intror eq_refl) Hqn2) as [_ Hlt].
    rewrite (nsec_at_owner z r o n Hr), (nsec_at_next z r o n Hr), compareCanonicalNames_fqdn, Hlt by done.
    rewrite (proj2 (nsecEndpointBelow_fqdn q n Hq Hnp)); [done|]. split; [|done].
    by apply (between_endpoints name_compare) in Hb as [_ ?].
  - pose proof (endpoint_not_below q r o n Hq Hr Hnex) as Hend. rewrite Hend. cbn [andb].
    destruct (covering_facts z Hz q Hq r o n Hqa Hr Hb Hend) as (ce' & -> & Hcep & Hce' & _).
    assert (ce' = ce) as -> by (by eapply closest_encloser_unique). rewrite wildcardName_fqdn by done.
    destruct (owned_found ("*" :: ce) (proj1 Hl)) as [w Hw]. rewrite Hw.
    destruct (owned_by_at z _ recs w Hz (wildcard_label_plain _ Hcep) (complete_auth _ _ Hc) Hw) as [wn Hwr].
    apply (nsec_at_lacks z w _ wn _ Hwr) in Hl as (H1 & H2 & H3). by rewrite H1, H2, H3.
Qed.
End exact.

(** ** The entry point *)

(** What an accepted NSEC denial says of the zone: NXDOMAIN with its closest
    encloser, in the sense of RFC 4592 unless a wildcard is an empty non-terminal,
    or NODATA, and that no cut lies above the name. *)
Definition denial_truth (z : zone_data) (q : name) (qtype rcode : Z) (proof : NSECProof.t) : Prop :=
  ~ below_cut z q /\
  if (rcode =? 3)%Z then nxdomain_unowned z q /\ (no_empty_wildcard z -> nxdomain_truth z q) /\
    (forall ce, plain_name ce -> closest_encloser z q ce -> NSECProof.ClosestEncloser proof = fqdn ce)
  else nodata_truth z q (TypeString qtype).

Lemma VerifyNSECDenial_truth z q qname qtype recs rcode proof :
  zone_ok z -> plain_name q -> apex z `suffix_of` q -> canonicalizeName qname = fqdn q ->
  Forall (authentic z) recs ->
  VerifyNSECDenial qname qtype recs rcode = Ok (Some proof) -> denial_truth z q qtype rcode proof.
Proof.
  unfold denial_truth. intros Hz Hq Hqa Hqn Hauth. unfold VerifyNSECDenial. destruct recs as [|r recs]; [done|]. rewrite Hqn.
  assert (canonicalizeName (fqdn q) = fqdn q) as Hqq by (by apply canonicalizeName_fqdn).
  destruct (rcode =? 3)%Z.
  - destruct (verifyNSECNXDOMAIN _ _) as [p|] eqn:Hv; [|done]. intros [= ->].
    destruct (nsec_nxdomain_sound z q (fqdn q) _ _ Hz Hq Hqa Hqq Hauth Hv) as (Hnex & Hcut & ce & Hp & Hce & Hw).
    assert (nxdomain_unowned z q) as Ho by (split; [done|by exists ce]).
    split; [done|]. split; [done|]. split; [intros Hx; by apply nxdomain_unowned_truth|]. intros ce' _ Hce'.
    by rewrite (closest_encloser_unique z q ce' ce).
  - destruct (verifyNSECNODATA _ _ _) as [p|] eqn:Hv; [|done]. intros _.
    destruct (nsec_nodata_sound z q (fqdn q) qtype _ _ Hz Hq Hqa Hqq Hauth Hv). done.
Qed.

(** C16: An NSEC denial accepted on authenticated records says of the zone what it
    is used for.  NXDOMAIN: the name does not exist, not even as an empty
    non-terminal, the reported closest encloser is the closest encloser, and no
    record is owned by the wildcard there; in a zone none of whose wildcards is an
    empty non-terminal that wildcard does not exist at all, so NXDOMAIN is the true
    answer (with such a wildcard it need not be, as
    [empty_wildcard_is_overlooked] shows).  NODATA: the name lacks the type, or is
    an empty non-terminal, or the wildcard answering for it lacks the type.  In all
    cases no delegation or DNAME lies above the name. *)
Theorem nsec_denial_sound z q qname qtype recs rcode proof :
  zone_ok z -> plain_name q -> apex z `suffix_of` q -> canonicalizeName qname = fqdn q ->
  Forall (authentic z) recs ->
  VerifyNSECDenial qname qtype recs rcode = Ok (Some proof) ->
  ~ below_cut z q /\
  if (rcode =? 3)%Z then nxdomain_unowned z q /\ (no_empty_wildcard z -> nxdomain_truth z q) /\
    (forall ce, plain_name ce -> closest_encloser z q ce -> NSECProof.ClosestEncloser proof = fqdn ce)
  else nodata_truth z q (TypeString qtype).
Proof. apply VerifyNSECDenial_truth. Qed.

(** On a complete chain the verdict is exact. *)
Lemma denial_verdict_exact z q qname qtype recs rcode :
  zone_ok z -> plain_name q -> apex z `suffix_of` q -> canonicalizeName qname = fqdn q -> complete_chain z recs ->
  is_ok (VerifyNSECDenial qname qtype recs rcode) = true <->
  ~ below_cut z q /\ if (rcode =? 3)%Z then nxdomain_unowned z q else nodata_truth z q (TypeString qtype).
Proof.
  intros Hz Hq Hqa Hqn Hc.
  assert (canonicalizeName (fqdn q) = fqdn q) as Hqq by (by apply canonicalizeName_fqdn).
  pose proof (complete_auth _ _ Hc) as Hauth.
  unfold VerifyNSECDenial. destruct recs as [|r recs].
  { exfalso. destruct (complete_owned _ _ Hc (apex z) (zone_apex _ Hz)) as (? & ? & ? & _). set_solver. }
  rewrite Hqn. destruct (rcode =? 3)%Z.
  - split; [|intros [? ?]].
    + destruct (verifyNSECNXDOMAIN _ _) as [p|] eqn:Hv; [|done]. intros _.
      destruct (nsec_nxdomain_sound z q (fqdn q) _ _ Hz Hq Hqa Hqq Hauth Hv) as (? & ? & ce & _ & ? & ?).
      split; [done|]. split; [done|]. by exists ce.
    + pose proof (nsec_nxdomain_accepts z Hz _ Hc q (fqdn q)) as Ha.
      destruct (verifyNSECNXDOMAIN _ _); [done|]. by apply Ha.
  - split; [|intros [? ?]].
    + destruct (verifyNSECNODATA _ _ _) as [p|] eqn:Hv; [|done]. intros _.
      by destruct (nsec_nodata_sound z q (fqdn q) qtype _ _ Hz Hq Hqa Hqq Hauth Hv).
    + pose proof (nsec_nodata_accepts z Hz _ Hc q (fqdn q) qtype) as Ha.
      destruct (verifyNSECNODATA _ _ _); [done|]. by apply Ha.
Qed.

(** On the complete chain of a zone, in any order, the verdict is
    exact: NXDOMAIN is accepted precisely when the name does not exist and the
    wildcard owns nothing, NODATA precisely when it is true, both only where no cut
    lies above the name. *)
Theorem nsec_denial_exact z q qname qtype l recs rcode :
  zone_ok z -> plain_name q -> apex z `suffix_of` q -> canonicalizeName qname = fqdn q ->
  StronglySorted (fun x y => name_compare x y = Lt) l -> (forall x, x ∈ l <-> owns z x) ->
  Permutation recs (nsec_chain z l) ->
  is_ok (VerifyNSECDenial qname qtype recs rcode) = true <->
  ~ below_cut z q /\ if (rcode =? 3)%Z then nxdomain_unowned z q else nodata_truth z q (TypeString qtype).
Proof.
  intros Hz Hq Hqa Hqn Hs Hl Hp. apply denial_verdict_exact; try done.
  exact (complete_permutation z _ _ Hp (nsec_chain_complete z l Hz Hs Hl)).
Qed.

(** ** The wildcard answer *)

(** A wildcard loop that verified found a covering record whose encloser is the
    claimed one. *)
Lemma wildcard_loop_verified qname claimedCE nextCloser proof recs :
  NSECProof.Verified proof = false ->
  NSECProof.Verified (wildcard_nsec_loop qname claimedCE nextCloser proof recs) = true ->
  exists r, r ∈ recs /\ canonicallyBetween qname (canonical_owner r) (canonical_next r) = true /\
    nsecEndpointBelow qname (canonical_next r) = false /\
    closestEncloserFromNSEC qname (canonical_owner r) (canonical_next r) = claimedCE.
Proof.
  revert proof. induction recs as [|r recs IH]; intros proof Hp; cbn [wildcard_nsec_loop]; cbv zeta.
  { cbn. by rewrite Hp. }
  destruct (String.eqb (canonical_owner r) qname); [cbn; by rewrite Hp|].
  destruct (String.eqb (canonical_owner r) nextCloser); [cbn; by rewrite Hp|].
  destruct (canonicallyBetween qname (canonical_owner r) (canonical_next r)) eqn:Hb; cbn [negb].
  - destruct (nsecEndpointBelow _ _) eqn:He; [cbn; by rewrite Hp|].
    destruct (String.eqb (closestEncloserFromNSEC _ _ _) claimedCE) eqn:Hce; cbn [negb]; [|cbn; by rewrite Hp].
    intros _. apply String.eqb_eq in Hce. exists r. split; [set_solver|done].
  - intros Hv. apply IH in Hv as (r' & ? & ?); [|done]. exists r'. split; [set_solver|done].
Qed.

(** The NSEC branch never marks opt-out. *)
Lemma wildcard_nsec_opt_out qname ce nc proof recs :
  NSECProof.OptOut proof = false -> NSECProof.OptOut (wildcard_nsec qname ce nc proof recs) = false.
Proof.
  intros Hp. unfold wildcard_nsec. destruct (nsecAncestorBoundary qname recs); [|done].
  assert (NSECProof.OptOut (proof <| NSECProof.ProofType := "NSEC" |>) = false) as Hp' by done.
  revert Hp'. generalize (proof <| NSECProof.ProofType := "NSEC" |>). clear.
  induction recs as [|r recs IH]; intros p Hp; cbn [wildcard_nsec_loop]; cbv zeta; [done|].
  destruct (String.eqb (canonical_owner r) qname); [done|]. destruct (String.eqb (canonical_owner r) nc); [done|].
  destruct (canonicallyBetween _ _ _); cbn [negb]; [|by apply IH].
  destruct (nsecEndpointBelow _ _); [done|]. by destruct (String.eqb _ ce).
Qed.

(** What a verified wildcard expansion needs: the name does not exist, and the
    wildcard the signature names is the one at its closest encloser. *)
Definition wildcard_truth (z : zone_data) (q ce : name) : Prop :=
  ~ name_exists z q /\ ~ below_cut z q /\ closest_encloser z q ce.

Lemma wildcard_nsec_sound z q ce nextCloser proof recs :
  zone_ok z -> plain_name q -> plain_name ce -> apex z `suffix_of` q ->
  Forall (authentic z) recs -> NSECProof.Verified proof = false ->
  NSECProof.Verified (wildcard_nsec (fqdn q) (fqdn ce) nextCloser proof recs) = true ->
  wildcard_truth z q ce.
Proof.
  intros Hz Hq Hcp Hqa Hauth Hp. unfold wildcard_nsec.
  destruct (nsecAncestorBoundary (fqdn q) recs) as [[]|] eqn:Hb; [|cbn; by rewrite Hp].
  intros Hv. apply wildcard_loop_verified in Hv as (r & Hin & Hcov & Hend & Hce); [|by cbn].
  destruct (proj1 (Forall_forall _ _) Hauth _ Hin) as (o & n & Hr).
  rewrite (nsec_at_covers z Hz r o n) in Hcov by done.
  destruct (covering_facts z Hz q Hq r o n Hqa Hr Hcov Hend) as (ce' & Hcee & Hcep & Hce' & Hnex).
  rewrite Hcee in Hce. apply fqdn_inj in Hce as ->; [|done..].
  split; [done|]. split; [|done]. exact (covering_not_below_cut z Hz q Hq recs r o n Hb Hin Hr Hcov).
Qed.
End proofs.

(** ** Witnesses *)

Definition sample_chain : list NSECRecord.t := nsec_chain sample_zone (sample_nodes.*1).

Lemma sample_complete : complete_chain sample_zone sample_chain.
Proof. apply (nsec_chain_complete (H:=plain_lib)); [apply sample_zone_ok|apply sample_sorted|]. intros x. by rewrite sample_owns. Qed.

Lemma sample_no_empty_wildcard : no_empty_wildcard sample_zone.
Proof. apply (wildcards_owned_ok _ (sample_nodes.*1)); [apply sample_owns|]. vm_compute. reflexivity. Qed.

(** A name that is not there; mixed case as a client might write it. *)
Definition absent_name : name := ["nope"; "example"].

Lemma nsec_denial_sound_witness :
  is_ok (VerifyNSECDenial "Nope.Example" 1 sample_chain 3) = true /\
  ~ below_cut sample_zone absent_name /\ nxdomain_truth sample_zone absent_name.
Proof.
  destruct (VerifyNSECDenial "Nope.Example" 1 sample_chain 3) as [[proof|]|] eqn:E;
    [|vm_compute in E; discriminate E..].
  split; [reflexivity|].
  destruct (nsec_denial_sound sample_zone absent_name "Nope.Example" 1 sample_chain 3 proof) as (Hc & _ & Ht & _).
  - apply sample_zone_ok.
  - apply plain_nameb_ok. reflexivity.
  - by exists ["nope"].
  - reflexivity.
  - apply complete_auth, sample_complete.
  - exact E.
  - split; [exact Hc|apply Ht, sample_no_empty_wildcard].
Defined.

Lemma nsec_denial_exact_witness :
  is_ok (VerifyNSECDenial "ent.example" 1 sample_chain 0) = true <->
  ~ below_cut sample_zone ["ent"; "example"] /\ nodata_truth sample_zone ["ent"; "example"] "A".
Proof.
  change "A" with (TypeString 1).
  change (nodata_truth sample_zone ["ent"; "example"] (TypeString 1))
    with (if (0 =? 3)%Z then nxdomain_unowned sample_zone ["ent"; "example"]
          else nodata_truth sample_zone ["ent"; "example"] (TypeString 1)).
  apply (nsec_denial_exact sample_zone ["ent"; "example"] "ent.example" 1 (sample_nodes.*1) sample_chain 0).
  - apply sample_zone_ok.
  - apply plain_nameb_ok. reflexivity.
  - by exists ["ent"].
  - reflexivity.
  - apply sample_sorted.
  - intros x. by rewrite sample_owns.
  - reflexivity.
Defined.

(** ** A wildcard that is an empty non-terminal

    RFC 4592 counts an empty non-terminal "*" as existing, so a name below its
    parent gets NODATA; verifyNSECNXDOMAIN looks only for a record owned by the
    wildcard and accepts an NXDOMAIN. *)
Definition ent_wildcard_nodes : list (name * list string) := [
  (["example"], ["NS"; "SOA"; "RRSIG"; "NSEC"; "DNSKEY"]);
  (["x"; "*"; "w"; "example"], ["A"; "RRSIG"; "NSEC"])].
Definition ent_wildcard_zone : zone_data := zone_of ["example"] ent_wildcard_nodes.

Theorem empty_wildcard_is_overlooked :
  zone_ok ent_wildcard_zone /\ name_exists ent_wildcard_zone ["*"; "w"; "example"] /\
  is_ok (VerifyNSECDenial "nope.w.example" 1 (nsec_chain ent_wildcard_zone (ent_wildcard_nodes.*1)) 3) = true.
Proof.
  split; [apply zone_check_ok; vm_compute; reflexivity|]. split.
  - exists ["x"; "*"; "w"; "example"]. split; [by eexists|by exists ["x"]].
  - vm_compute. reflexivity.
Qed.
