(* ===== verification/Nsec3.v ===== *)
(** * Nsec3: NSEC3 denial of existence (validator/internal/validator/nsec.go)

    Hashing, the grouping of records into internally consistent chains, the
    closest-encloser, NXDOMAIN, NODATA and wildcard proofs within one chain, and
    the iteration cap. *)

From stdpp Require Import base list strings gmap pretty.
From Stdlib Require Import ZArith Lia Ascii.
From S2P Require Import Prelude Order Names Digests Nsec.
Local Open Scope Z_scope.

Module NSEC3Record.
Record t := mk {
  Owner : string;
  Class_ : Z;
  Section_ : string;
  HashedOwner : string;
  Algorithm : Z;
  Flags : Z;
  Iterations : Z;
  Salt : string;
  NextHashed : string;
  TypeBitmap : list string
}.
End NSEC3Record.

Definition NSEC3HashSHA1 : Z := 1.
Definition NSEC3FlagOptOut : Z := 1.
Definition NSEC3MaxRecommendedIterations : Z := 100.

Module nsec3Chain.
Record t := mk {
  algorithm : Z;
  iterations : Z;
  salt : list Z;
  saltHex : string;
  records : list NSEC3Record.t
}.
End nsec3Chain.

(** ** Text *)

Definition quoted (s : string) : string :=
  let q := String (ascii_of_N 34) "" in q +:+ s +:+ q.

(** ** Salt and hash *)

Definition normalizeSalt (salt : string) : string :=
  let s := ToUpper (TrimSpace salt) in
  if String.eqb s "-" then "" else s.

Definition hex_value (c : ascii) : option Z :=
  if byte_in_range "0" "9" c then Some (byte_of_ascii c - 48)
  else if byte_in_range "a" "f" c then Some (byte_of_ascii c - 97 + 10)
  else None.

(** The pairs of hex digits of an even-length string. *)
Fixpoint hex_pairs (s : list ascii) : res string (list Z) :=
  match s with
  | c1 :: c2 :: rest =>
      match hex_value c1, hex_value c2 with
      | Some h, Some l => try bs <- hex_pairs rest; Ok (h * 16 + l :: bs)
      | None, _ => Err (Sprintf "invalid hex character: %s" [String c1 ""])
      | _, None => Err (Sprintf "invalid hex character: %s" [String c2 ""])
      end
  | _ => Ok []
  end.

Definition hexDecode (s : string) : res string (list Z) :=
  if String.eqb s "" || String.eqb s "-" then Ok []
  else
    let s := String.list_ascii_of_string (ToLower s) in
    if negb (Nat.even (length s)) then Err "invalid hex string length"
    else hex_pairs s.

(** [hashBetween]: Go's string order on upper-cased hashes *)
Definition hashBetween (hash start end_ : string) : bool :=
  let hash := ToUpper hash in
  let start := ToUpper start in
  let end_ := ToUpper end_ in
  match string_compare start end_ with
  | Lt => match string_compare hash start, string_compare hash end_ with
          | Gt, Lt => true | _, _ => false end
  | Gt => match string_compare hash start, string_compare hash end_ with
          | Gt, _ => true | _, Lt => true | _, _ => false end
  | Eq => negb (String.eqb hash start)
  end.

(** ** Chains *)

Definition nsec3UnknownFlags (r : NSEC3Record.t) : bool :=
  negb (Z.ldiff (NSEC3Record.Flags r) NSEC3FlagOptOut =? 0).

Definition newNSEC3Chain (records : list NSEC3Record.t) : res string nsec3Chain.t :=
  match records with
  | [] => Err "no NSEC3 records"
  | first :: rest =>
      if negb (NSEC3Record.Algorithm first =? NSEC3HashSHA1) then
        Err (Sprintf "unsupported NSEC3 hash algorithm: %d (only SHA-1 supported)" [pretty (NSEC3Record.Algorithm first)])
      else
        let saltHex := normalizeSalt (NSEC3Record.Salt first) in
        match hexDecode saltHex with
        | Err e => Err (Sprintf "invalid NSEC3 salt: %w" [e])
        | Ok salt =>
            if existsb (fun r => negb (NSEC3Record.Algorithm r =? NSEC3Record.Algorithm first) ||
                                 negb (NSEC3Record.Iterations r =? NSEC3Record.Iterations first) ||
                                 negb (String.eqb (normalizeSalt (NSEC3Record.Salt r)) saltHex)) rest then
              Err "NSEC3 records span different chains (algorithm/iterations/salt differ); refusing to combine them"
            else Ok (nsec3Chain.mk (NSEC3Record.Algorithm first) (NSEC3Record.Iterations first) salt saltHex records)
        end
  end.

(** The map key of [groupNSEC3ByParams]. *)
Definition paramKey : Type := Z * Z * string.
Definition key_of (r : NSEC3Record.t) : paramKey :=
  (NSEC3Record.Algorithm r, NSEC3Record.Iterations r, normalizeSalt (NSEC3Record.Salt r)).

Definition group_step (acc : list paramKey * gmap paramKey (list NSEC3Record.t)) (r : NSEC3Record.t) :=
  let '(order, byKey) := acc in
  let k := key_of r in
  let order := match byKey !! k with None => order ++ [k] | Some _ => order end in
  (order, <[k := default [] (byKey !! k) ++ [r]]> byKey).

Definition groupNSEC3ByParams (records : list NSEC3Record.t) : list (list NSEC3Record.t) :=
  let '(order, byKey) := fold_left group_step records ([], ∅) in
  map (fun k => default [] (byKey !! k)) order.

(** The notes on records and groups that cannot take part. *)
Definition ignored_record (r : NSEC3Record.t) : string :=
  Sprintf "NSEC3 %s has unknown flag bits 0x%s; ignored (RFC 5155 §8.2)"
    [NSEC3Record.HashedOwner r; hex2 (NSEC3Record.Flags r)].
Definition ignored_group (group : list NSEC3Record.t) (err : string) : string :=
  match group with
  | [] => err
  | g :: _ => Sprintf "NSEC3 chain (iterations %d, salt %q): %v"
                [pretty (NSEC3Record.Iterations g); quoted (NSEC3Record.Salt g); err]
  end.

Fixpoint build_chains (groups : list (list NSEC3Record.t)) (chains : list nsec3Chain.t)
    (ignored : list string) (lastErr : option string) : list nsec3Chain.t * list string * option string :=
  match groups with
  | [] => (chains, ignored, lastErr)
  | group :: groups' =>
      match newNSEC3Chain group with
      | Err err => build_chains groups' chains (ignored ++ [ignored_group group err]) (Some err)
      | Ok chain => build_chains groups' (chains ++ [chain]) ignored lastErr
      end
  end.

(** [nsec3Chains]: the chains, the notes, and the error when no chain is left. *)
Definition nsec3Chains (records : list NSEC3Record.t) : list nsec3Chain.t * list string * option string :=
  let usable := List.filter (fun r => negb (nsec3UnknownFlags r)) records in
  let ignored := map ignored_record (List.filter nsec3UnknownFlags records) in
  let '(chains, ignored, lastErr) := build_chains (groupNSEC3ByParams usable) [] ignored None in
  match chains with
  | [] => ([], ignored, Some (default (Sprintf "no usable NSEC3 records: %s" [Join ignored "; "]) lastErr))
  | _ => (chains, ignored, None)
  end.

Definition isOptOut (r : NSEC3Record.t) : bool :=
  negb (Z.land (NSEC3Record.Flags r) NSEC3FlagOptOut =? 0).

Definition nsec3IterationsOverCap (records : list NSEC3Record.t) : option Z :=
  option_map NSEC3Record.Iterations
    (List.find (fun r => NSEC3MaxRecommendedIterations <? NSEC3Record.Iterations r) records).

Definition over_cap_error (iters : Z) : string :=
  Sprintf "NSEC3 iterations=%d exceeds RFC 9276 cap of %d; refusing (CPU-amplification DoS vector)"
    [pretty iters; pretty NSEC3MaxRecommendedIterations].

(** A nil record is no boundary. *)
Definition nsec3RecordBoundary (name : string) (r : option NSEC3Record.t) : res string unit :=
  match r with
  | None => Ok tt
  | Some r =>
      if HasTypeInBitmap "DNAME" (NSEC3Record.TypeBitmap r) then
        Err (Sprintf "NSEC3 matching %s has the DNAME bit set: names below it are redirected and cannot be denied by this zone" [name])
      else if delegation_bitmap (NSEC3Record.TypeBitmap r) then
        Err (Sprintf "NSEC3 matching %s is a delegation point (NS set, SOA clear): this zone cannot deny names below the zone cut (RFC 5155 §8.3)" [name])
      else Ok tt
  end.

Definition opt_out_note : string :=
  "; the next closer name is covered by an opt-out NSEC3, so an unsigned delegation may exist there: the conclusion is insecure, not secure (RFC 5155 §9.2)".

(** The closing step of the proofs that rest on a covered next closer name. *)
Definition mark_opt_out (ncRec : NSEC3Record.t) (note : string) (proof : NSECProof.t) : NSECProof.t :=
  if isOptOut ncRec then
    (proof <| NSECProof.OptOut := true |>) <| NSECProof.Explanation := NSECProof.Explanation proof +:+ note |>
  else proof.

Section nsec3.
Context `{DnsLib}.

Definition nsec3_digest (salt : list Z) (data : list Z) : list Z := sha1_sum (data ++ salt).

Definition computeNSEC3Hash (name : string) (salt : list Z) (iterations : Z) : string :=
  let wireFormat := toWireFormat (canonicalizeName name) in
  let digest := Nat.iter (Z.to_nat iterations) (nsec3_digest salt) (nsec3_digest salt wireFormat) in
  ToUpper (base32hex_encode digest).

Definition hash (c : nsec3Chain.t) (name : string) : string :=
  computeNSEC3Hash name (nsec3Chain.salt c) (nsec3Chain.iterations c).

Definition match_ (c : nsec3Chain.t) (hash : string) : option NSEC3Record.t :=
  List.find (fun r => EqualFold (NSEC3Record.HashedOwner r) hash) (nsec3Chain.records c).

Definition cover (c : nsec3Chain.t) (hash : string) : option NSEC3Record.t :=
  List.find (fun r => hashBetween hash (NSEC3Record.HashedOwner r) (NSEC3Record.NextHashed r)) (nsec3Chain.records c).

(** The loop of [closestEncloser] over the ancestors of [qname] with fewer than [n]
    labels, longest first: the match and the name one label below it. *)
Fixpoint encloser_loop (c : nsec3Chain.t) (qname : string) (n : nat) : option (string * string * NSEC3Record.t) :=
  match n with
  | O => None
  | S k =>
      let candidate := lastNLabels qname (Z.of_nat k) in
      match match_ c (hash c candidate) with
      | Some rec => Some (candidate, lastNLabels qname (Z.of_nat (S k)), rec)
      | None => encloser_loop c qname k
      end
  end.

(** [closestEncloser]: closest encloser, next closer name, and the two records. *)
Definition closestEncloser (c : nsec3Chain.t) (qname : string)
    : res string (string * string * NSEC3Record.t * NSEC3Record.t) :=
  let qname := canonicalizeName qname in
  let labels := if String.eqb qname "." then [] else Split "." (TrimSuffix qname ".") in
  match encloser_loop c qname (length labels) with
  | None => Err (Sprintf "NSEC3 proof incomplete: no closest-encloser match for %s (RFC 5155 §8.3)" [qname])
  | Some (ce, nextCloser, ceRec) =>
      match nsec3RecordBoundary ce (Some ceRec) with
      | Err err => Err (Sprintf "closest encloser %s of %s: %v" [ce; qname; err])
      | Ok _ =>
          match cover c (hash c nextCloser) with
          | None => Err (Sprintf "NSEC3 proof incomplete: next closer name %s not covered (RFC 5155 §8.3)" [nextCloser])
          | Some ncRec => Ok (ce, nextCloser, ceRec, ncRec)
          end
      end
  end.

Definition nxdomain (c : nsec3Chain.t) (qname : string) : res string NSECProof.t :=
  let qname := canonicalizeName qname in
  match match_ c (hash c qname) with
  | Some _ => Err (Sprintf "NSEC3 matching %s proves the name exists; it cannot prove NXDOMAIN" [qname])
  | None =>
      match closestEncloser c qname with
      | Err err => Err (Sprintf "NSEC3 NXDOMAIN %v" [err])
      | Ok (ce, nextCloser, _, ncRec) =>
          let wildcard := wildcardName ce in
          match match_ c (hash c wildcard) with
          | Some _ => Err (Sprintf "NSEC3 matching wildcard %s proves it exists; NXDOMAIN is not proven" [wildcard])
          | None =>
              match cover c (hash c wildcard) with
              | None => Err (Sprintf "NSEC3 NXDOMAIN proof incomplete: wildcard %s not covered (RFC 5155 §8.4)" [wildcard])
              | Some _ =>
                  Ok (mark_opt_out ncRec opt_out_note (((((NSECProof.zero
                    <| NSECProof.ProofType := "nxdomain" |>)
                    <| NSECProof.CoveringNSEC := Sprintf "NSEC3 closest encloser %s" [ce] |>)
                    <| NSECProof.ClosestEncloser := ce |>)
                    <| NSECProof.NextCloser := nextCloser |>)
                    <| NSECProof.Explanation := Sprintf "NSEC3 proves %s does not exist: closest encloser %s matched, next closer %s covered, wildcard %s covered"
                         [qname; ce; nextCloser; wildcard] |>))
              end
          end
      end
  end.

Definition verifyNSEC3NODATAInChain (c : nsec3Chain.t) (qname : string) (qtype : Z) : res string NSECProof.t :=
  let typeName := TypeString qtype in
  match match_ c (hash c qname) with
  | Some nsec3 =>
      let bitmap := NSEC3Record.TypeBitmap nsec3 in
      if HasTypeInBitmap "CNAME" bitmap then
        Err (Sprintf "NSEC3 at %s has the CNAME bit set: a CNAME was expected, not NODATA for %s (RFC 6840 §4.3)" [NSEC3Record.HashedOwner nsec3; typeName])
      else if delegation_bitmap bitmap then
        Err (Sprintf "NSEC3 at %s is a delegation point (NS set, SOA clear): a parent referral, not authoritative NODATA for %s (R-030)" [NSEC3Record.HashedOwner nsec3; typeName])
      else if negb (HasTypeInBitmap typeName bitmap) then
        Ok ((((NSECProof.zero
          <| NSECProof.ProofType := "nodata" |>)
          <| NSECProof.CoveringNSEC := Sprintf "NSEC3 %s types: %v" [NSEC3Record.HashedOwner nsec3; show_strings bitmap] |>)
          <| NSECProof.ClosestEncloser := qname |>)
          <| NSECProof.Explanation := Sprintf "NSEC3 at %s proves type %s does not exist for %s" [NSEC3Record.HashedOwner nsec3; typeName; qname] |>)
      else Err (Sprintf "NSEC3 at %s lists type %s: NODATA is not proven for %s" [NSEC3Record.HashedOwner nsec3; typeName; qname])
  | None =>
      match closestEncloser c qname with
      | Err err => Err (Sprintf "no NSEC3 record proves type %s doesn't exist for %s (%v)" [typeName; qname; err])
      | Ok (ce, nextCloser, _, ncRec) =>
          let wildcard := wildcardName ce in
          match match_ c (hash c wildcard) with
          | None => Err (Sprintf "no NSEC3 record proves type %s doesn't exist for %s: no exact match and no NSEC3 for wildcard %s" [typeName; qname; wildcard])
          | Some wcRec =>
              let bitmap := NSEC3Record.TypeBitmap wcRec in
              if HasTypeInBitmap "CNAME" bitmap then
                Err (Sprintf "NSEC3 for wildcard %s has the CNAME bit set: a CNAME was expected, not NODATA for %s (RFC 6840 §4.3)" [wildcard; typeName])
              else if delegation_bitmap bitmap then
                Err (Sprintf "NSEC3 for wildcard %s is a delegation point (NS set, SOA clear): not authoritative NODATA for %s" [wildcard; typeName])
              else if HasTypeInBitmap typeName bitmap then
                Err (Sprintf "NSEC3 for wildcard %s lists type %s: wildcard NODATA is not proven for %s" [wildcard; typeName; qname])
              else
                Ok (mark_opt_out ncRec opt_out_note (((((NSECProof.zero
                  <| NSECProof.ProofType := "nodata" |>)
                  <| NSECProof.CoveringNSEC := Sprintf "NSEC3 %s (wildcard %s) types: %v" [NSEC3Record.HashedOwner wcRec; wildcard; show_strings bitmap] |>)
                  <| NSECProof.ClosestEncloser := ce |>)
                  <| NSECProof.NextCloser := nextCloser |>)
                  <| NSECProof.Explanation := Sprintf "NSEC3 proves %s has no exact match (closest encloser %s, next closer %s covered) and the matching wildcard %s has no type %s (RFC 5155 §8.7)"
                       [qname; ce; nextCloser; wildcard; typeName] |>))
          end
      end
  end.

Definition nodata (c : nsec3Chain.t) (qname : string) (qtype : Z) : res string NSECProof.t :=
  verifyNSEC3NODATAInChain c (canonicalizeName qname) qtype.

Definition verifyNSEC3NXDOMAIN (hashedQname qname : string) (nsec3Records : list NSEC3Record.t) : res string NSECProof.t :=
  try chain <- newNSEC3Chain nsec3Records; nxdomain chain qname.

Definition verifyNSEC3NODATA (hashedQname qname : string) (qtype : Z) (nsec3Records : list NSEC3Record.t) : res string NSECProof.t :=
  try chain <- newNSEC3Chain nsec3Records; verifyNSEC3NODATAInChain chain (canonicalizeName qname) qtype.

(** The loop of [VerifyNSEC3Denial]: the first chain that proves the denial. *)
Fixpoint try_chains (prove : nsec3Chain.t -> res string NSECProof.t) (chains : list nsec3Chain.t)
    (ignored : list string) (lastErr : option string) (none : string) : res string NSECProof.t :=
  match chains with
  | [] => Err (default none lastErr)
  | chain :: chains' =>
      match prove chain with
      | Ok proof => Ok (proof <| NSECProof.Ignored := ignored |>)
      | Err e => try_chains prove chains' ignored (Some e) none
      end
  end.

Definition VerifyNSEC3Denial (qname : string) (qtype : Z) (nsec3Records : list NSEC3Record.t) (zone : string)
    (rcode : Z) : res string (option NSECProof.t) :=
  match nsec3Records with
  | [] => Ok None
  | _ =>
      match nsec3IterationsOverCap nsec3Records with
      | Some iters => Err (over_cap_error iters)
      | None =>
          let qname := canonicalizeName qname in
          match nsec3Chains nsec3Records with
          | (_, _, Some err) => Err err
          | (chains, ignored, None) =>
              try proof <- try_chains (fun chain => if rcode =? 3 then nxdomain chain qname else nodata chain qname qtype)
                chains ignored None
                (Sprintf "no internally-consistent NSEC3 chain proves the denial for %s" [qname]);
              Ok (Some proof)
          end
      end
  end.

(** The chain loop of [VerifyWildcardDenial]. *)
Fixpoint wildcard_chain_loop (qname claimedCE nextCloser : string) (proof : NSECProof.t)
    (chains : list nsec3Chain.t) (lastErr : string) : NSECProof.t :=
  match chains with
  | [] =>
      let lastErr := if String.eqb lastErr "" then
        Sprintf "no NSEC3 covers the next closer name %s for the wildcard expansion" [nextCloser] else lastErr in
      proof <| NSECProof.Error := lastErr |>
  | chain :: chains' =>
      match match_ chain (hash chain qname), match_ chain (hash chain nextCloser) with
      | None, None =>
          match nsec3RecordBoundary claimedCE (match_ chain (hash chain claimedCE)) with
          | Err err => wildcard_chain_loop qname claimedCE nextCloser proof chains'
              (Sprintf "closest encloser %s: %v" [claimedCE; err])
          | Ok _ =>
              match cover chain (hash chain nextCloser) with
              | None => wildcard_chain_loop qname claimedCE nextCloser proof chains'
                  (Sprintf "no NSEC3 covers the next closer name %s for the wildcard expansion" [nextCloser])
              | Some ncRec =>
                  let proof := (proof
                    <| NSECProof.CoveringNSEC := Sprintf "NSEC3 %s -> %s" [NSEC3Record.HashedOwner ncRec; NSEC3Record.NextHashed ncRec] |>)
                    <| NSECProof.Explanation := Sprintf "NSEC3 covers next closer name %s (hash %s); wildcard expansion from %s is valid"
                         [nextCloser; hash chain nextCloser; wildcardName claimedCE] |> in
                  (mark_opt_out ncRec "; the cover is an opt-out NSEC3, so an unsigned delegation may exist at the next closer name: the conclusion is insecure, not secure (RFC 5155 §9.2)" proof)
                    <| NSECProof.Verified := true |>
              end
          end
      | _, _ => wildcard_chain_loop qname claimedCE nextCloser proof chains'
          (Sprintf "NSEC3 proves %s or its next closer name %s exists; wildcard expansion from %s is not valid" [qname; nextCloser; wildcardName claimedCE])
      end
  end.

Definition wildcard_nsec3 (qname claimedCE nextCloser : string) (proof : NSECProof.t)
    (nsec3Records : list NSEC3Record.t) : NSECProof.t :=
  let proof := proof <| NSECProof.ProofType := "NSEC3" |> in
  match nsec3IterationsOverCap nsec3Records with
  | Some iters => proof <| NSECProof.Error := over_cap_error iters |>
  | None =>
      let proof := proof <| NSECProof.Records := NSECProof.Records proof ++
        map (fun rec => Sprintf "%s → %s" [NSEC3Record.HashedOwner rec; NSEC3Record.NextHashed rec]) nsec3Records |> in
      match nsec3Chains nsec3Records with
      | (_, _, Some err) => proof <| NSECProof.Error := err |>
      | (chains, ignored, None) =>
          wildcard_chain_loop qname claimedCE nextCloser (proof <| NSECProof.Ignored := ignored |>) chains ""
      end
  end.

Definition VerifyWildcardDenial (qname : string) (wildcardLabels : Z) (nsecRecords : list NSECRecord.t)
    (nsec3Records : list NSEC3Record.t) : NSECProof.t :=
  let proof := (NSECProof.zero <| NSECProof.ProofType := "wildcard" |>) <| NSECProof.ResponseType := "WILDCARD" |> in
  let qname := canonicalizeName qname in
  if Z.of_nat (GetZoneLabels qname) <=? wildcardLabels then
    proof <| NSECProof.Error := Sprintf "signature Labels %d does not describe a wildcard expansion of %s" [pretty wildcardLabels; qname] |>
  else
    let claimedCE := lastNLabels qname wildcardLabels in
    let nextCloser := lastNLabels qname (wildcardLabels + 1) in
    let proof := (proof <| NSECProof.ClosestEncloser := claimedCE |>) <| NSECProof.NextCloser := nextCloser |> in
    match nsecRecords, nsec3Records with
    | _ :: _, _ => wildcard_nsec qname claimedCE nextCloser proof nsecRecords
    | [], _ :: _ => wildcard_nsec3 qname claimedCE nextCloser proof nsec3Records
    | [], [] => proof <| NSECProof.Error := "no NSEC/NSEC3 records accompany the wildcard answer" |>
    end.
End nsec3.
