(* ===== verification/Nsec3Sound.v ===== *)
(** * Nsec3Sound: what an accepted NSEC3 proof says about the zone

    The grouping of records is a partition into chains with one parameter tuple
    each, the iteration cap refuses before any hashing, and against a zone whose
    hashes do not collide on the names at hand each accepted proof is true, with
    the opt-out proofs excluding everything but unsigned delegations. *)

From stdpp Require Import base list strings gmap sets.
From Stdlib Require Import ZArith Lia Ascii.
From S2P Require Import Prelude Order Names PlainNames DnsZone SampleZone Digests Nsec NsecSound Nsec3.

(** ** Case folding *)

Lemma upper_lower_byte c : upper_byte (lower_byte c) = upper_byte c.
Proof. by destruct c as [[] [] [] [] [] [] [] []]. Qed.
Lemma upper_upper_byte c : upper_byte (upper_byte c) = upper_byte c.
Proof. by destruct c as [[] [] [] [] [] [] [] []]. Qed.

Lemma ToUpper_ToLower s : ToUpper (ToLower s) = ToUpper s.
Proof. unfold ToUpper, ToLower. induction s as [|c s IH]; cbn; [done|]. by rewrite upper_lower_byte, IH. Qed.
Lemma ToUpper_idem s : ToUpper (ToUpper s) = ToUpper s.
Proof. unfold ToUpper. induction s as [|c s IH]; cbn; [done|]. by rewrite upper_upper_byte, IH. Qed.

Lemma EqualFold_upper a b : EqualFold a b = true -> ToUpper a = ToUpper b.
Proof.
  unfold EqualFold. intros He. apply String.eqb_eq in He.
  by rewrite <- (ToUpper_ToLower a), <- (ToUpper_ToLower b), He.
Qed.

(** ** Grouping *)

(** The keys of a list of records, in order of first appearance. *)
Definition first_keys (records : list NSEC3Record.t) : list paramKey :=
  fold_left (fun ks r => if bool_decide (key_of r ∈ ks) then ks else ks ++ [key_of r]) records [].

Definition with_key (k : paramKey) (records : list NSEC3Record.t) : list NSEC3Record.t :=
  List.filter (fun r => bool_decide (key_of r = k)) records.

Lemma first_keys_snoc l r :
  first_keys (l ++ [r]) = if bool_decide (key_of r ∈ first_keys l) then first_keys l else first_keys l ++ [key_of r].
Proof. unfold first_keys. by rewrite fold_left_app. Qed.

Lemma first_keys_elem l k : k ∈ first_keys l <-> exists r, r ∈ l /\ key_of r = k.
Proof.
  induction l as [|r l IH] using rev_ind; [set_solver|]. rewrite first_keys_snoc.
  transitivity (k ∈ first_keys l \/ k = key_of r).
  - case_bool_decide; [|set_solver]. split; [auto|]. by intros [?| ->].
  - rewrite IH. set_solver.
Qed.

Lemma first_keys_nodup l : NoDup (first_keys l).
Proof.
  induction l as [|r l IH] using rev_ind; [constructor|]. rewrite first_keys_snoc.
  case_bool_decide; [done|]. apply NoDup_app. split; [done|]. split; [set_solver|]. apply NoDup_singleton.
Qed.

Lemma with_key_snoc k l r :
  with_key k (l ++ [r]) = with_key k l ++ (if bool_decide (key_of r = k) then [r] else []).
Proof. unfold with_key. rewrite List.filter_app. cbn. by destruct (bool_decide _). Qed.

(** The state of the grouping loop after the records [l]. *)
Lemma group_loop l :
  exists byKey, fold_left group_step l ([], ∅) = (first_keys l, byKey) /\
    forall k, byKey !! k = if bool_decide (k ∈ first_keys l) then Some (with_key k l) else None.
Proof.
  induction l as [|r l (byKey & Hf & Hk)] using rev_ind; [by exists ∅|].
  rewrite fold_left_app, Hf. cbn [fold_left group_step]. eexists. split.
  - f_equal. rewrite first_keys_snoc, (Hk (key_of r)). by case_bool_decide.
  - intros k. rewrite with_key_snoc. destruct (decide (key_of r = k)) as [<-|Hne].
    + rewrite lookup_insert_eq, Hk, (bool_decide_eq_true_2 (key_of r = key_of r)) by done.
      rewrite (bool_decide_eq_true_2 (key_of r ∈ first_keys (l ++ [r]))) by (apply first_keys_elem; set_solver).
      f_equal. f_equal. case_bool_decide as Hin; [done|]. cbn. symmetry.
      unfold with_key.
      destruct (List.filter _ l) as [|x xs] eqn:E; [done|]. exfalso. apply Hin, first_keys_elem. exists x.
      assert (x ∈ List.filter (fun r0 => bool_decide (key_of r0 = key_of r)) l) as Hx by (rewrite E; set_solver).
      apply filter_In_bool in Hx as [Hx Hb]. by apply bool_decide_eq_true in Hb.
    + rewrite lookup_insert_ne, Hk, (bool_decide_eq_false_2 (key_of r = k)), app_nil_r by done.
      assert (k ∈ first_keys (l ++ [r]) <-> k ∈ first_keys l) as Hiff.
      { rewrite first_keys_snoc. case_bool_decide; [done|]. set_solver. }
      by rewrite (bool_decide_ext _ _ Hiff).
Qed.

Lemma group_spec l : groupNSEC3ByParams l = map (fun k => with_key k l) (first_keys l).
Proof.
  unfold groupNSEC3ByParams. destruct (group_loop l) as (byKey & -> & Hk).
  apply map_ext_in. intros k Hin. apply list_elem_of_In in Hin. by rewrite Hk, bool_decide_eq_true_2.
Qed.

Lemma with_key_perm ks l :
  NoDup ks -> (forall r, r ∈ l -> key_of r ∈ ks) ->
  Permutation (concat (map (fun k => with_key k l) ks)) l.
Proof.
  intros Hd. induction l as [|r l IH]; intros Hk.
  { clear. induction ks; cbn; [constructor|done]. }
  transitivity (r :: concat (map (fun k => with_key k l) ks)); [|constructor; apply IH; set_solver].
  assert (key_of r ∈ ks) as Hin by set_solver. clear IH Hk.
  induction Hd as [|k ks Hk Hd IH]; [set_solver|]. cbn [map concat].
  unfold with_key at 1. cbn [List.filter]. fold (with_key k l). destruct (decide (key_of r = k)) as [<-|Hne].
  - rewrite bool_decide_eq_true_2 by done. cbn. constructor. apply Permutation_app_head.
    erewrite map_ext_in; [reflexivity|]. intros k' Hk'. apply list_elem_of_In in Hk'.
    unfold with_key. cbn. rewrite bool_decide_eq_false_2; [done|]. intros <-. done.
  - rewrite bool_decide_eq_false_2 by done. rewrite IH by set_solver. by rewrite Permutation_middle.
Qed.

(** groupNSEC3ByParams splits the records into groups:
    together the groups are exactly the records, within a group all records share
    algorithm, iterations and normalised salt, and no two groups share them. *)
Theorem nsec3_grouping_partitions l :
  Permutation (concat (groupNSEC3ByParams l)) l /\
  (forall g, g ∈ groupNSEC3ByParams l -> exists k, g <> [] /\ g = with_key k l) /\
  (forall i j g h r s, groupNSEC3ByParams l !! i = Some g -> groupNSEC3ByParams l !! j = Some h ->
     r ∈ g -> s ∈ h -> key_of r = key_of s -> i = j).
Proof.
  rewrite group_spec. split; [|split].
  - apply with_key_perm; [apply first_keys_nodup|]. intros r Hr. apply first_keys_elem. by exists r.
  - intros g Hg. apply list_elem_of_fmap in Hg as (k & -> & Hk). exists k. split; [|done].
    apply first_keys_elem in Hk as (r & Hr & <-). intros He.
    assert (r ∈ with_key (key_of r) l) as Hx.
    { unfold with_key. apply filter_In_bool. by rewrite bool_decide_eq_true_2. }
    rewrite He in Hx. set_solver.
  - intros i j g h r s Hi Hj Hr Hs Hkey.
    assert (forall n t x, map (fun k => with_key k l) (first_keys l) !! n = Some t -> x ∈ t ->
      first_keys l !! n = Some (key_of x)) as Hkeys.
    { intros n t x Hn Hx. apply list_lookup_fmap_Some in Hn as (k & -> & Hn). rewrite Hn. f_equal.
      unfold with_key in Hx. apply filter_In_bool in Hx as [_ Hx]. by apply bool_decide_eq_true in Hx. }
    eapply NoDup_lookup; [apply (first_keys_nodup l)|by eapply Hkeys|]. rewrite Hkey. by eapply Hkeys.
Qed.

(** ** Chains *)

(** The parameters of a chain are those of each of its records. *)
Definition chain_params (c : nsec3Chain.t) (r : NSEC3Record.t) : Prop :=
  nsec3UnknownFlags r = false /\ NSEC3Record.Algorithm r = NSEC3HashSHA1 /\
  NSEC3Record.Iterations r = nsec3Chain.iterations c /\
  hexDecode (normalizeSalt (NSEC3Record.Salt r)) = Ok (nsec3Chain.salt c).

Lemma newNSEC3Chain_ok g c :
  newNSEC3Chain g = Ok c ->
  nsec3Chain.records c = g /\ forall r, r ∈ g -> NSEC3Record.Algorithm r = NSEC3HashSHA1 /\
    NSEC3Record.Iterations r = nsec3Chain.iterations c /\
    hexDecode (normalizeSalt (NSEC3Record.Salt r)) = Ok (nsec3Chain.salt c).
Proof.
  unfold newNSEC3Chain. destruct g as [|first rest]; [done|].
  destruct (NSEC3Record.Algorithm first =? NSEC3HashSHA1)%Z eqn:Ha; cbn [negb]; [|done].
  destruct (hexDecode _) as [salt|] eqn:Hs; [|done]. destruct (existsb _ rest) eqn:He; [done|].
  intros [= <-]. cbn. apply Z.eqb_eq in Ha. split; [done|]. intros r Hr.
  apply elem_of_cons in Hr as [->|Hr]; [done|].
  rewrite <- not_true_iff_false, existsb_exists in He.
  assert (negb (NSEC3Record.Algorithm r =? NSEC3Record.Algorithm first)%Z ||
               negb (NSEC3Record.Iterations r =? NSEC3Record.Iterations first)%Z ||
               negb (String.eqb (normalizeSalt (NSEC3Record.Salt r)) (normalizeSalt (NSEC3Record.Salt first))) = false) as Hy
    by (apply not_true_iff_false; intros Hc; apply He; exists r; by rewrite <- list_elem_of_In).
  apply orb_false_iff in Hy as [Hy H3]. bool_to_prop. by rewrite H, H0, H3.
Qed.

Lemma build_chains_elem groups chains ignored lastErr chains' ignored' lastErr' c :
  build_chains groups chains ignored lastErr = (chains', ignored', lastErr') -> c ∈ chains' ->
  c ∈ chains \/ exists g, g ∈ groups /\ newNSEC3Chain g = Ok c.
Proof.
  revert chains ignored lastErr. induction groups as [|g groups IH]; cbn; intros chains ignored lastErr Hb Hc.
  - simplify_eq. by left.
  - destruct (newNSEC3Chain g) as [c0|] eqn:E; apply IH in Hb; try done.
    + destruct Hb as [Hb|(g' & ? & ?)]; [|right; exists g'; set_solver].
      apply elem_of_app in Hb as [?|Hb]; [by left|]. apply list_elem_of_singleton in Hb as ->.
      right. exists g. set_solver.
    + destruct Hb as [?|(g' & ? & ?)]; [by left|right; exists g'; set_solver].
Qed.

(** Every chain the validator uses is made of given records with the chain's own
    parameters. *)
Lemma nsec3Chains_spec recs chains ignored c r :
  nsec3Chains recs = (chains, ignored, None) -> c ∈ chains -> r ∈ nsec3Chain.records c ->
  r ∈ recs /\ chain_params c r.
Proof.
  unfold nsec3Chains. set (usable := List.filter (fun r => negb (nsec3UnknownFlags r)) recs). intros Hn Hc Hr.
  destruct (build_chains _ _ _ _) as [[chains' ign'] err'] eqn:Hb.
  assert (chains' = chains) as -> by (by destruct chains'; simplify_eq).
  destruct (build_chains_elem _ _ _ _ _ _ _ _ Hb Hc) as [?|(g & Hg & Hok)]; [set_solver|].
  destruct (newNSEC3Chain_ok g c Hok) as [Hrec Hall]. rewrite Hrec in Hr.
  rewrite group_spec in Hg. apply list_elem_of_fmap in Hg as (k & Hgk & _).
  assert (r ∈ usable) as Hu by (rewrite Hgk in Hr; unfold with_key in Hr; by apply filter_In_bool in Hr as [? _]).
  apply filter_In_bool in Hu as [Hin Hf]. apply negb_true_iff in Hf.
  destruct (Hall r Hr) as (? & ? & ?). by repeat split.
Qed.

(** ** Authentic records *)

Definition unsigned_delegation (z : zone_data) (n : name) : Prop :=
  "NS" ∈ types_at z n /\ "SOA" ∉ types_at z n /\ "DS" ∉ types_at z n.

(** Names an opt-out chain may leave out: nothing but unsigned delegations at or
    below them (RFC 5155 section 6). *)
Definition omittable (z : zone_data) (x : name) : Prop :=
  forall m, owns z m -> x `suffix_of` m -> unsigned_delegation z m.

Section proofs.
Context `{DnsLibLaws}.

(** [r] is the NSEC3 record of [o] under [salt]; the existing names whose hash its
    interval contains are names an opt-out span may omit. *)
Record nsec3_at (z : zone_data) (r : NSEC3Record.t) (salt : list Z) (o : name) : Prop := {
  nsec3_owner : ToUpper (NSEC3Record.HashedOwner r) = computeNSEC3Hash (fqdn o) salt (NSEC3Record.Iterations r);
  nsec3_exists : in_zone z o;
  nsec3_types : forall t, t ∈ NSEC3Record.TypeBitmap r <-> t ∈ types_at z o;
  nsec3_gap : forall x, in_zone z x ->
    hashBetween (computeNSEC3Hash (fqdn x) salt (NSEC3Record.Iterations r))
      (NSEC3Record.HashedOwner r) (NSEC3Record.NextHashed r) = true ->
    isOptOut r = true /\ omittable z x
}.
Definition authentic3 (z : zone_data) (r : NSEC3Record.t) : Prop :=
  exists salt o, hexDecode (normalizeSalt (NSEC3Record.Salt r)) = Ok salt /\ nsec3_at z r salt o.

(** The names whose hashes a proof about [q] computes. *)
Definition hashed_for (q x : name) : Prop :=
  x `suffix_of` q \/ exists ce, ce `suffix_of` q /\ x = "*" :: ce.

(** No hash of such a name is that of a different existing name. *)
Definition collision_free (z : zone_data) (q : name) (salt : list Z) (iterations : Z) : Prop :=
  forall a b, in_zone z a -> hashed_for q b ->
    computeNSEC3Hash (fqdn a) salt iterations = computeNSEC3Hash (fqdn b) salt iterations -> a = b.

Definition no_collisions (z : zone_data) (q : name) (recs : list NSEC3Record.t) : Prop :=
  forall r salt, r ∈ recs -> hexDecode (normalizeSalt (NSEC3Record.Salt r)) = Ok salt ->
    collision_free z q salt (NSEC3Record.Iterations r).

(** ** One chain *)

Section chain.
Context (z : zone_data) (Hz : zone_ok z) (q : name) (Hq : plain_name q).
Context (c : nsec3Chain.t).
Context (Hrec : forall r, r ∈ nsec3Chain.records c -> NSEC3Record.Iterations r = nsec3Chain.iterations c /\
                  exists o, nsec3_at z r (nsec3Chain.salt c) o).
Context (Hfree : collision_free z q (nsec3Chain.salt c) (nsec3Chain.iterations c)).

Lemma computeNSEC3Hash_upper n s i : ToUpper (computeNSEC3Hash n s i) = computeNSEC3Hash n s i.
Proof. apply ToUpper_idem. Qed.

(** A match is the record of the name itself, which therefore exists. *)
Lemma match_at x r :
  hashed_for q x -> match_ c (hash c (fqdn x)) = Some r ->
  r ∈ nsec3Chain.records c /\ nsec3_at z r (nsec3Chain.salt c) x.
Proof.
  intros Hx Hm. unfold match_ in Hm. apply find_some_bool in Hm as [Hin Hf]. split; [done|].
  destruct (Hrec r Hin) as (Hi & o & Ho). apply EqualFold_upper in Hf.
  unfold hash in Hf. rewrite computeNSEC3Hash_upper, (nsec3_owner _ _ _ _ Ho), Hi in Hf.
  by rewrite <- (Hfree o x (nsec3_exists _ _ _ _ Ho) Hx Hf).
Qed.

(** A covered name does not exist, unless an opt-out span omits it. *)
Lemma cover_absent x r :
  cover c (hash c (fqdn x)) = Some r ->
  r ∈ nsec3Chain.records c /\ (in_zone z x -> isOptOut r = true /\ omittable z x).
Proof.
  intros Hc. unfold cover in Hc. apply find_some_bool in Hc as [Hin Hb]. split; [done|]. intros Hx.
  destruct (Hrec r Hin) as (Hi & o & Ho). unfold hash in Hb. rewrite <- Hi in Hb.
  by apply (nsec3_gap _ _ _ _ Ho).
Qed.

Lemma encloser_loop_spec n ce nc rec :
  n <= length q -> encloser_loop c (fqdn q) n = Some (ce, nc, rec) ->
  exists k, k < n /\ ce = fqdn (drop (length q - k) q) /\ nc = fqdn (drop (length q - S k) q) /\
    match_ c (hash c ce) = Some rec.
Proof.
  induction n as [|k IH]; [done|]. intros Hn. cbn [encloser_loop]. cbv zeta.
  rewrite !lastNLabels_fqdn by done.
  destruct (match_ c (hash c (fqdn (drop (length q - k) q)))) as [r|] eqn:E; intros He.
  - injection He as <- <- <-. exists k. split; [lia|]. done.
  - destruct (IH ltac:(lia) He) as (k' & ? & ?). exists k'. split; [lia|done].
Qed.

Lemma drop_suffix {A} n (l : list A) : drop n l `suffix_of` l.
Proof. exists (take n l). symmetry. apply take_drop. Qed.

(** What the closest-encloser proof establishes, in names. *)
Record encloser_facts (ce nc : name) (ncRec : NSEC3Record.t) : Prop := {
  ef_proper : ce `suffix_of` nc /\ length nc = S (length ce);
  ef_nc : nc `suffix_of` q;
  ef_exists : name_exists z ce;
  ef_within : apex z `suffix_of` ce;
  ef_no_cut : ~ cut z ce;
  ef_absent : name_exists z nc -> isOptOut ncRec = true /\ omittable z nc
}.

Lemma closestEncloser_sound ce nc ceRec ncRec :
  closestEncloser c (fqdn q) = Ok (ce, nc, ceRec, ncRec) ->
  exists cel ncl, ce = fqdn cel /\ nc = fqdn ncl /\ encloser_facts cel ncl ncRec.
Proof.
  unfold closestEncloser. rewrite canonicalizeName_fqdn by done.
  assert (length (if String.eqb (fqdn q) "." then [] else Split "." (TrimSuffix (fqdn q) ".")) = length q) as ->.
  { destruct (decide (q = [])) as [->|Hn]; [done|].
    pose proof (fqdn_not_root q Hq Hn) as Hr. apply String.eqb_neq in Hr as ->.
    by rewrite fqdn_dot, TrimSuffix_dot, Split_Join. }
  destruct (encloser_loop c (fqdn q) (length q)) as [[[ce' nc'] rec]|] eqn:He; [|done].
  apply encloser_loop_spec in He as (k & Hk & -> & -> & Hm); [|done].
  set (cel := drop (length q - k) q) in *. set (ncl := drop (length q - S k) q) in *.
  assert (length cel = k) as Hlc by (unfold cel; rewrite length_drop; lia).
  assert (length ncl = S k) as Hln by (unfold ncl; rewrite length_drop; lia).
  assert (cel `suffix_of` q) as Hcq by apply drop_suffix. assert (ncl `suffix_of` q) as Hnq by apply drop_suffix.
  apply match_at in Hm as [Hin Hat]; [|by left].
  destruct (nsec3RecordBoundary _ _) as [|] eqn:Hb; [|done].
  destruct (cover c _) as [nr|] eqn:Hcov; [|done]. intros [= <- <- <- <-].
  exists cel, ncl. split; [done|]. split; [done|]. split.
  - split; [|lia]. apply (suffix_length_le cel ncl q); [done..|lia].
  - done.
  - apply Hat.
  - apply (nsec3_exists _ _ _ _ Hat).
  - intros [_ Hcut]. unfold nsec3RecordBoundary in Hb. rewrite <- !(nsec3_types _ _ _ _ Hat) in Hcut.
    destruct Hcut as [Hc|Hc].
    + apply HasTypeInBitmap_spec in Hc. by rewrite Hc in Hb.
    + apply delegation_bitmap_spec in Hc. rewrite Hc in Hb. by destruct (HasTypeInBitmap _ _).
  - intros Hx. apply cover_absent; [done|]. split; [done|].
    etrans; [apply (nsec3_exists _ _ _ _ Hat)|]. apply (suffix_length_le cel ncl q); [done..|lia].
Qed.

(** Without opt-out the name does not exist, its encloser is the closest and no cut
    lies above it. *)
Lemma encloser_closed ce nc ncRec :
  encloser_facts ce nc ncRec -> isOptOut ncRec = false ->
  ~ name_exists z q /\ closest_encloser z q ce /\ ~ below_cut z q.
Proof.
  intros [[Hcn Hl] Hnq Hex _ Hcut Habs] Hopt.
  assert (~ name_exists z nc) as Hnc by (intros Hx; destruct (Habs Hx); congruence).
  assert (ce `suffix_of` q) as Hcq by (by etrans).
  assert (closest_encloser z q ce) as Hce.
  { split; [done|]. split; [done|]. intros s Hs Hsx. apply (suffix_length_le s ce q); [done..|].
    destruct (decide (length s <= length ce)) as [|Hgt]; [done|]. exfalso. apply Hnc.
    apply (exists_ancestor z nc s); [|done]. apply (suffix_length_le nc s q); [done..|lia]. }
  split; [intros Hx; apply Hnc; by eapply exists_ancestor|]. split; [done|].
  intros (d & Hd & Hs & Hne). destruct Hce as (_ & _ & Hmax).
  pose proof (Hmax d Hs (owns_exists z d (proj1 Hd))) as Hdc.
  destruct Hex as (m & Hm & Hcm). assert (d `suffix_of` m) as Hdm by (by etrans).
  pose proof (zone_cuts _ Hz d m Hd Hm Hdm) as ->. apply Hcut. by rewrite (suffix_antisym ce d).
Qed.

(** With opt-out only unsigned delegations may lie at or below the name. *)
Lemma encloser_open ce nc ncRec :
  encloser_facts ce nc ncRec -> forall m, owns z m -> q `suffix_of` m -> unsigned_delegation z m.
Proof.
  intros [_ Hnq _ _ _ Habs] m Hm Hs. assert (nc `suffix_of` m) as Hnm by (by etrans).
  destruct (Habs (ex_intro _ m (conj Hm Hnm))) as [_ Ho]. by apply Ho.
Qed.
End chain.

(** ** The proofs *)

(** The NXDOMAIN answer as NSEC3 records can prove it: a wildcard inside an opt-out
    span could still be an unsigned delegation. *)
Definition nxdomain_truth3 (z : zone_data) (q : name) : Prop :=
  ~ name_exists z q /\
  exists ce, closest_encloser z q ce /\ forall m, owns z m -> ("*" :: ce) `suffix_of` m -> unsigned_delegation z m.

(** A name that exists, possibly as an empty non-terminal, without the type. *)
Definition lacks_type3 (z : zone_data) (n : name) (t : string) : Prop :=
  name_exists z n /\ t ∉ types_at z n /\ "CNAME" ∉ types_at z n /\
  ~ ("NS" ∈ types_at z n /\ "SOA" ∉ types_at z n).

Definition nodata_truth3 (z : zone_data) (q : name) (t : string) : Prop :=
  lacks_type3 z q t \/
  (~ name_exists z q /\ exists ce, closest_encloser z q ce /\ lacks_type3 z ("*" :: ce) t).

(** What an opt-out proof leaves open: unsigned delegations only. *)
Definition opt_out_truth (z : zone_data) (q : name) : Prop :=
  forall m, owns z m -> q `suffix_of` m -> unsigned_delegation z m.

Lemma mark_opt_out_flag r note p : NSECProof.OptOut p = false -> NSECProof.OptOut (mark_opt_out r note p) = isOptOut r.
Proof. unfold mark_opt_out. by destruct (isOptOut r). Qed.

Lemma nsec3_at_lacks z r salt n t :
  nsec3_at z r salt n ->
  HasTypeInBitmap "CNAME" (NSEC3Record.TypeBitmap r) = false ->
  delegation_bitmap (NSEC3Record.TypeBitmap r) = false ->
  HasTypeInBitmap t (NSEC3Record.TypeBitmap r) = false -> lacks_type3 z n t.
Proof.
  intros Hr. rewrite !HasTypeInBitmap_false, <- not_true_iff_false, delegation_bitmap_spec, !(nsec3_types _ _ _ _ Hr).
  intros. split; [apply Hr|done].
Qed.

Lemma exists_not_below_cut z q : zone_ok z -> name_exists z q -> ~ below_cut z q.
Proof.
  intros Hz (m & Hm & Hqm) (c & Hc & Hs & Hne). apply Hne.
  assert (c `suffix_of` m) as Hcm by (by etrans). pose proof (zone_cuts _ Hz c m Hc Hm Hcm) as ->.
  by apply suffix_antisym.
Qed.

Lemma ce_hashed q ce nc : ce `suffix_of` nc -> nc `suffix_of` q -> hashed_for q ("*" :: ce).
Proof. intros H1 H2. right. exists ce. split; [by etrans|done]. Qed.

Section chain_proofs.
Context (z : zone_data) (Hz : zone_ok z) (q : name) (Hq : plain_name q).
Context (c : nsec3Chain.t).
Context (Hrec : forall r, r ∈ nsec3Chain.records c -> NSEC3Record.Iterations r = nsec3Chain.iterations c /\
                  exists o, nsec3_at z r (nsec3Chain.salt c) o).
Context (Hfree : collision_free z q (nsec3Chain.salt c) (nsec3Chain.iterations c)).

Lemma nxdomain_sound proof :
  nxdomain c (fqdn q) = Ok proof ->
  opt_out_truth z q /\ (NSECProof.OptOut proof = false -> ~ below_cut z q /\ nxdomain_truth3 z q).
Proof.
  unfold nxdomain. rewrite canonicalizeName_fqdn by done. destruct (match_ c (hash c (fqdn q))); [done|].
  destruct (closestEncloser c (fqdn q)) as [[[[ce nc] ceRec] ncRec]|] eqn:He; [|done].
  apply (closestEncloser_sound z q Hq c Hrec Hfree) in He as (cel & ncl & -> & -> & Hf).
  destruct (match_ c _); [done|]. destruct (cover c _) as [w|] eqn:Hw; [|done]. intros [= <-].
  split; [intros m; by eapply encloser_open|]. rewrite mark_opt_out_flag by done. intros Hopt.
  destruct (encloser_closed z Hz q cel ncl ncRec Hf Hopt) as (Hnex & Hce & Hcut).
  split; [done|]. split; [done|]. exists cel. split; [done|]. intros m Hm Hs.
  rewrite wildcardName_fqdn in Hw by (eapply plain_name_suffix; [exact (proj1 Hce)|done]).
  destruct (cover_absent z c Hrec _ w Hw) as [_ Ho].
  destruct Ho as [_ Hom]; [|by apply Hom]. split; [by exists m|].
  etrans; [apply (ef_within _ _ _ _ _ Hf)|by exists ["*"]].
Qed.

Lemma nodata_sound qtype proof :
  verifyNSEC3NODATAInChain c (fqdn q) qtype = Ok proof ->
  (NSECProof.OptOut proof = true -> opt_out_truth z q) /\
  (NSECProof.OptOut proof = false -> ~ below_cut z q /\ nodata_truth3 z q (TypeString qtype)).
Proof.
  unfold verifyNSEC3NODATAInChain. destruct (match_ c (hash c (fqdn q))) as [r|] eqn:Hm.
  - apply (match_at z q c Hrec Hfree) in Hm as [_ Hat]; [|by left].
    destruct (HasTypeInBitmap "CNAME" _) eqn:H1; [done|]. destruct (delegation_bitmap _) eqn:H2; [done|].
    destruct (HasTypeInBitmap (TypeString qtype) _) eqn:H3; [done|]. intros [= <-]. split; [done|]. intros _.
    split; [apply exists_not_below_cut; [done|apply Hat]|]. left. by eapply nsec3_at_lacks.
  - destruct (closestEncloser c (fqdn q)) as [[[[ce nc] ceRec] ncRec]|] eqn:He; [|done].
    apply (closestEncloser_sound z q Hq c Hrec Hfree) in He as (cel & ncl & -> & -> & Hf).
    cbv zeta. destruct (match_ c (hash c (wildcardName (fqdn cel)))) as [w|] eqn:Hw; [|done].
    assert (plain_name cel) as Hcp.
    { eapply plain_name_suffix; [|exact Hq]. etrans; [apply (ef_proper _ _ _ _ _ Hf)|apply (ef_nc _ _ _ _ _ Hf)]. }
    rewrite wildcardName_fqdn in Hw by done.
    apply (match_at z q c Hrec Hfree) in Hw as [_ Hat];
      [|by apply (ce_hashed q cel ncl); apply Hf].
    destruct (HasTypeInBitmap "CNAME" _) eqn:H1; [done|]. destruct (delegation_bitmap _) eqn:H2; [done|].
    destruct (HasTypeInBitmap (TypeString qtype) _) eqn:H3; [done|]. intros [= <-].
    rewrite mark_opt_out_flag by done. split; [intros _ m; by eapply encloser_open|]. intros Hopt.
    destruct (encloser_closed z Hz q cel ncl ncRec Hf Hopt) as (Hnex & Hce & Hcut).
    split; [done|]. right. split; [done|]. exists cel. split; [done|]. by eapply nsec3_at_lacks.
Qed.
End chain_proofs.

(** The chains of authentic records are chains of the zone. *)
Lemma chains_authentic z q recs chains ignored c :
  Forall (authentic3 z) recs -> no_collisions z q recs ->
  nsec3Chains recs = (chains, ignored, None) -> c ∈ chains ->
  (forall r, r ∈ nsec3Chain.records c -> NSEC3Record.Iterations r = nsec3Chain.iterations c /\
     exists o, nsec3_at z r (nsec3Chain.salt c) o) /\
  (nsec3Chain.records c <> [] -> collision_free z q (nsec3Chain.salt c) (nsec3Chain.iterations c)).
Proof.
  intros Hauth Hfree Hn Hc. split.
  - intros r Hr. destruct (nsec3Chains_spec recs chains ignored c r Hn Hc Hr) as (Hin & _ & _ & Hi & Hs).
    split; [done|]. destruct (proj1 (Forall_forall _ _) Hauth r Hin) as (salt & o & Hs' & Hat).
    rewrite Hs in Hs'. simplify_eq. by exists o.
  - destruct (nsec3Chain.records c) as [|r rs] eqn:Hr; [done|]. intros _.
    destruct (nsec3Chains_spec recs chains ignored c r Hn Hc) as (Hin & _ & _ & Hi & Hs); [rewrite Hr; set_solver|].
    rewrite <- Hi. by apply Hfree.
Qed.

Lemma try_chains_ok prove chains ignored lastErr none proof :
  try_chains prove chains ignored lastErr none = Ok proof ->
  exists c p, c ∈ chains /\ prove c = Ok p /\ proof = p <| NSECProof.Ignored := ignored |>.
Proof.
  revert lastErr. induction chains as [|c chains IH]; intros lastErr; cbn; [done|].
  destruct (prove c) as [p|e] eqn:E.
  - intros [= <-]. exists c, p. split; [set_solver|done].
  - intros Ht. destruct (IH _ Ht) as (c' & p & ? & ?). exists c', p. split; [set_solver|done].
Qed.

(** A chain with no records proves nothing. *)
Lemma empty_chain c q :
  nsec3Chain.records c = [] -> is_ok (closestEncloser c q) = false /\ forall h, match_ c h = None.
Proof.
  intros He. assert (forall h, match_ c h = None) as Hm by (intros h; unfold match_; by rewrite He).
  split; [|done]. unfold closestEncloser.
  assert (forall qn n, encloser_loop c qn n = None) as Hl.
  { intros qn n. induction n as [|k IH]; cbn [encloser_loop]; [done|]. by rewrite Hm. }
  by rewrite Hl.
Qed.

(** ** The entry points *)

(** What an accepted NSEC3 denial says of the zone. *)
Definition denial_truth3 (z : zone_data) (q : name) (qtype rcode : Z) (proof : NSECProof.t) : Prop :=
  if NSECProof.OptOut proof then opt_out_truth z q
  else ~ below_cut z q /\
       if (rcode =? 3)%Z then nxdomain_truth3 z q else nodata_truth3 z q (TypeString qtype).

Lemma VerifyNSEC3Denial_truth z q qname qtype recs zone rcode proof :
  zone_ok z -> plain_name q -> canonicalizeName qname = fqdn q ->
  Forall (authentic3 z) recs -> no_collisions z q recs ->
  VerifyNSEC3Denial qname qtype recs zone rcode = Ok (Some proof) -> denial_truth3 z q qtype rcode proof.
Proof.
  unfold denial_truth3. intros Hz Hq Hqn Hauth Hfree. unfold VerifyNSEC3Denial. destruct recs as [|r0 recs']; [done|].
  set (recs := r0 :: recs') in *. rewrite Hqn. destruct (nsec3IterationsOverCap recs); [done|].
  destruct (nsec3Chains recs) as [[chains ignored] [err|]] eqn:Hn; [done|].
  destruct (try_chains _ _ _ _ _) as [p|] eqn:Ht; [|done]. intros [= ->].
  apply try_chains_ok in Ht as (c & p & Hc & Hp & ->).
  destruct (chains_authentic z q recs chains ignored c Hauth Hfree Hn Hc) as [Hrec Hcol].
  assert (NSECProof.OptOut (p <| NSECProof.Ignored := ignored |>) = NSECProof.OptOut p) as -> by done.
  assert (nsec3Chain.records c <> []) as Hne.
  { intros He. destruct (empty_chain c (fqdn q) He) as [H1 H2]. revert Hp. unfold nxdomain, nodata, verifyNSEC3NODATAInChain.
    rewrite !canonicalizeName_fqdn, H2 by done. destruct (closestEncloser c (fqdn q)); [done|].
    by destruct (rcode =? 3)%Z. }
  specialize (Hcol Hne). destruct (rcode =? 3)%Z.
  - destruct (nxdomain_sound z Hz q Hq c Hrec Hcol p Hp) as [Ho Hno]. destruct (NSECProof.OptOut p); auto.
  - unfold nodata in Hp. rewrite canonicalizeName_fqdn in Hp by done.
    destruct (nodata_sound z Hz q Hq c Hrec Hcol qtype p Hp) as [Ho Hno]. destruct (NSECProof.OptOut p); auto.
Qed.

(** C22: An NSEC3 denial accepted on authenticated records is true of
    the zone: without the opt-out mark, NXDOMAIN means the name does not exist and
    no signed wildcard could answer, NODATA that the name (or its wildcard) lacks
    the type, and no cut lies above the name; with the mark, at most unsigned
    delegations lie at or below the name.  The hash need only be free of collisions
    between existing names and the ancestors and wildcards of the query. *)
Theorem nsec3_denial_sound z q qname qtype recs zone rcode proof :
  zone_ok z -> plain_name q -> canonicalizeName qname = fqdn q ->
  Forall (authentic3 z) recs -> no_collisions z q recs ->
  VerifyNSEC3Denial qname qtype recs zone rcode = Ok (Some proof) ->
  if NSECProof.OptOut proof then opt_out_truth z q
  else ~ below_cut z q /\
       if (rcode =? 3)%Z then nxdomain_truth3 z q else nodata_truth3 z q (TypeString qtype).
Proof. apply VerifyNSEC3Denial_truth. Qed.

(** A single record above the RFC 9276 cap refuses the
    whole denial, whatever the other records say, and an accepted denial saw no
    record above it. *)
Theorem nsec3_iterations_capped qname qtype recs zone rcode :
  (forall i, nsec3IterationsOverCap recs = Some i ->
     (100 < i)%Z /\ VerifyNSEC3Denial qname qtype recs zone rcode = Err (over_cap_error i) /\
     forall labels, NSECProof.Verified (VerifyWildcardDenial qname labels [] recs) = false) /\
  (forall p, VerifyNSEC3Denial qname qtype recs zone rcode = Ok (Some p) ->
     forall r, r ∈ recs -> (NSEC3Record.Iterations r <= 100)%Z).
Proof.
  split.
  - intros i Hi. assert (recs <> []) as Hne by (by intros ->). split.
    { unfold nsec3IterationsOverCap in Hi. destruct (List.find _ recs) as [r|] eqn:Hf; [|done]. injection Hi as <-.
      apply find_some_bool in Hf as [_ Hf]. unfold NSEC3MaxRecommendedIterations in Hf. by bool_to_prop. }
    split; [unfold VerifyNSEC3Denial; rewrite Hi; by destruct recs|].
    intros labels. unfold VerifyWildcardDenial. destruct (Z.leb _ _); [done|].
    destruct recs as [|r rs]; [done|]. unfold wildcard_nsec3. by rewrite Hi.
  - intros p Hp r Hr. unfold VerifyNSEC3Denial in Hp. destruct recs as [|r0 rs]; [done|].
    destruct (nsec3IterationsOverCap (r0 :: rs)) as [i|] eqn:Hi; [done|]. unfold nsec3IterationsOverCap in Hi.
    destruct (List.find _ (r0 :: rs)) as [|] eqn:Hf; [done|]. apply (find_none_bool _ _ r Hf) in Hr.
    unfold NSEC3MaxRecommendedIterations in Hr. by bool_to_prop.
Qed.

Lemma wildcard_chain_verified qname ce nc proof chains lastErr :
  NSECProof.Verified proof = false -> NSECProof.OptOut proof = false ->
  NSECProof.Verified (wildcard_chain_loop qname ce nc proof chains lastErr) = true ->
  exists c r, c ∈ chains /\ cover c (hash c nc) = Some r /\
    NSECProof.OptOut (wildcard_chain_loop qname ce nc proof chains lastErr) = isOptOut r.
Proof.
  intros Hp Ho. revert lastErr. induction chains as [|c chains IH]; intros lastErr; cbn [wildcard_chain_loop].
  { cbn. by rewrite Hp. }
  assert (forall e, NSECProof.Verified (wildcard_chain_loop qname ce nc proof chains e) = true ->
    exists c0 r, c0 ∈ c :: chains /\ cover c0 (hash c0 nc) = Some r /\
      NSECProof.OptOut (wildcard_chain_loop qname ce nc proof chains e) = isOptOut r) as Hskip.
  { intros e He. destruct (IH e He) as (c' & r & ? & ?). exists c', r. split; [set_solver|done]. }
  destruct (match_ c (hash c qname)); [apply Hskip|]. destruct (match_ c (hash c nc)); [apply Hskip|].
  destruct (nsec3RecordBoundary _ _); [|apply Hskip]. destruct (cover c (hash c nc)) as [r|] eqn:Hc; [|apply Hskip].
  intros _. exists c, r. split; [set_solver|]. split; [done|]. unfold mark_opt_out. by destruct (isOptOut r).
Qed.

(** Records and a covered next closer name, under a wildcard that is owned. *)
Lemma wildcard_closed z q ce nc r :
  zone_ok z -> apex z `suffix_of` q -> ce `suffix_of` nc -> length nc = S (length ce) -> nc `suffix_of` q ->
  owns z ("*" :: ce) -> (in_zone z nc -> isOptOut r = true /\ omittable z nc) ->
  if isOptOut r then opt_out_truth z q else wildcard_truth z q ce.
Proof.
  intros Hz Hqa Hcn Hl Hnq Hw Habs.
  assert (apex z `suffix_of` ce) as Hac.
  { destruct (zone_within _ Hz _ Hw) as [[|x k] Hk]; [|by injection Hk as _ ->; exists k]. cbn in Hk.
    assert (apex z = nc) as Heq.
    { apply suffix_antisym; apply (suffix_length_le _ _ q); try done; rewrite <- Hk; cbn; lia. }
    destruct Habs as [_ Hom]; [split; [exists nc; split; [rewrite <- Heq; by apply zone_apex|done]|by rewrite Heq]|].
    destruct (Hom (apex z) (zone_apex _ Hz)) as (_ & Hs & _); [by rewrite Heq|]. destruct Hs. by apply zone_soa. }
  assert (encloser_facts z q ce nc r) as Hf.
  { split; [done|done| |done| |].
    - exists ("*" :: ce). split; [done|by exists ["*"]].
    - intros Hc. pose proof (zone_cuts _ Hz ce ("*" :: ce) Hc Hw ltac:(by exists ["*"])) as He.
      apply (f_equal length) in He. cbn in He. lia.
    - intros Hx. apply Habs. split; [done|by etrans]. }
  destruct (isOptOut r) eqn:Ho.
  - intros m. by eapply encloser_open.
  - by destruct (encloser_closed z Hz q ce nc r Hf Ho) as (? & ? & ?).
Qed.

(** A verified wildcard expansion is legitimate: the query
    name does not exist, and the wildcard the signature's label count names is the
    one at its closest encloser, with no cut between; an NSEC3 opt-out proof is
    marked and excludes all but unsigned delegations.  That the wildcard owns the
    signed data is what the accompanying signature shows. *)
Theorem wildcard_denial_sound z q qname labels nsecs nsec3s :
  let ce := drop (length q - Z.to_nat labels) q in
  zone_ok z -> plain_name q -> apex z `suffix_of` q -> canonicalizeName qname = fqdn q -> (0 <= labels)%Z ->
  Forall (authentic z) nsecs -> Forall (authentic3 z) nsec3s -> no_collisions z q nsec3s ->
  owns z ("*" :: ce) ->
  NSECProof.Verified (VerifyWildcardDenial qname labels nsecs nsec3s) = true ->
  if NSECProof.OptOut (VerifyWildcardDenial qname labels nsecs nsec3s) then opt_out_truth z q
  else wildcard_truth z q ce.
Proof.
  intros ce Hz Hq Hqa Hqn Hl Hauth Hauth3 Hfree Hw. unfold VerifyWildcardDenial. rewrite Hqn, GetZoneLabels_fqdn by done.
  destruct (Z.leb_spec (Z.of_nat (length q)) labels) as [|Hlt]; [done|]. cbv zeta.
  assert (lastNLabels (fqdn q) labels = fqdn ce) as -> by (unfold ce; rewrite <- lastNLabels_fqdn, Z2Nat.id by done; done).
  set (nc := drop (length q - S (Z.to_nat labels)) q).
  assert (lastNLabels (fqdn q) (labels + 1) = fqdn nc) as ->.
  { unfold nc. rewrite <- lastNLabels_fqdn by done. f_equal. lia. }
  assert (length ce = Z.to_nat labels) as Hlc by (unfold ce; rewrite length_drop; lia).
  assert (length nc = S (Z.to_nat labels)) as Hln by (unfold nc; rewrite length_drop; lia).
  assert (ce `suffix_of` q) as Hcq by apply drop_suffix. assert (nc `suffix_of` q) as Hnq by apply drop_suffix.
  assert (ce `suffix_of` nc) as Hcn by (apply (suffix_length_le ce nc q); [done..|lia]).
  destruct nsecs as [|n ns].
  - destruct nsec3s as [|r0 rs]; [done|]. set (recs := r0 :: rs) in *. unfold wildcard_nsec3.
    destruct (nsec3IterationsOverCap recs); [done|].
    destruct (nsec3Chains recs) as [[chains ignored] [err|]] eqn:Hn; [done|]. intros Hv.
    apply wildcard_chain_verified in Hv as (c & r & Hc & Hcov & ->); [|done..].
    destruct (chains_authentic z q recs chains ignored c Hauth3 Hfree Hn Hc) as [Hrec _].
    apply (wildcard_closed z q ce nc r); [done..|congruence|done|done|]. by apply (cover_absent z c Hrec nc r).
  - intros Hv. rewrite wildcard_nsec_opt_out by done.
    refine (wildcard_nsec_sound z q ce _ _ (n :: ns) Hz Hq (plain_name_suffix _ _ Hcq Hq) Hqa Hauth _ Hv). done.
Qed.
End proofs.

(** ** Witnesses: the sample zone's chain under salt AABB and one iteration *)

Definition sample_salt : list Z := [0xAA; 0xBB]%Z.
Definition sample_hash (n : name) : string := computeNSEC3Hash (fqdn n) sample_salt 1.

#[local] Opaque computeNSEC3Hash.

(** The sample's names in hash order. *)
Definition hash_order : list name := [
  ["ent"; "example"]; ["wild"; "example"]; ["example"]; ["a"; "ent"; "example"];
  ["*"; "wild"; "example"]; ["www"; "example"]; ["sub"; "example"]].

Definition sample_record3 (link : name * name) : NSEC3Record.t :=
  NSEC3Record.mk (ToLower (sample_hash link.1) +:+ ".example.") 1 "authority" (sample_hash link.1) 1 0 1 "AABB"
    (sample_hash link.2) (types_at sample_zone link.1).
Definition sample_chain3 : list NSEC3Record.t := map sample_record3 (ring hash_order).

(** The interval of no record contains the hash of a name of the zone. *)
Definition gaps_ok : bool :=
  let hashes := map sample_hash (tree_of ["example"] sample_nodes) in
  forallb (fun r => forallb (fun h => negb (hashBetween h (NSEC3Record.HashedOwner r) (NSEC3Record.NextHashed r))) hashes)
    sample_chain3.

Lemma gaps_checked : gaps_ok = true.
Proof. vm_compute. reflexivity. Qed.

Lemma sample_in_zone n : in_zone sample_zone n <-> n ∈ tree_of ["example"] sample_nodes.
Proof. apply tree_of_spec, sample_nodup. Qed.

Lemma sample_salt_decodes : hexDecode (normalizeSalt "AABB") = Ok sample_salt.
Proof. reflexivity. Qed.

Lemma sample_chain3_authentic : Forall (authentic3 sample_zone) sample_chain3.
Proof.
  apply Forall_forall. intros r Hr. pose proof Hr as Hr0. apply list_elem_of_fmap in Hr as ([s e] & -> & Hin).
  exists sample_salt, s. split; [apply sample_salt_decodes|]. split.
  - apply (computeNSEC3Hash_upper (fqdn s) sample_salt 1).
  - apply sample_in_zone. apply ring_elem in Hin as [Hin _].
    assert (forallb (fun n => bool_decide (n ∈ tree_of ["example"] sample_nodes)) hash_order = true) as Hall by reflexivity.
    rewrite forallb_forall in Hall. apply list_elem_of_In in Hin. exact (bool_decide_eq_true_1 _ (Hall s Hin)).
  - done.
  - intros x Hx Hb. exfalso. apply sample_in_zone in Hx. pose proof gaps_checked as Hg. unfold gaps_ok in Hg.
    rewrite forallb_forall in Hg. apply list_elem_of_In in Hr0. specialize (Hg _ Hr0). rewrite forallb_forall in Hg.
    apply list_elem_of_In in Hx. specialize (Hg (sample_hash x) (in_map sample_hash _ _ Hx)).
    apply negb_true_iff in Hg. change (computeNSEC3Hash _ _ _) with (sample_hash x) in Hb. by rewrite Hb in Hg.
Qed.

(** No collisions, checked on the finite sets of names involved. *)
Definition hashed_names (q : name) : list name := tails q ++ map (cons "*") (tails q).
Definition collisions_ok (q : name) : bool :=
  let known := map (fun n => (n, sample_hash n)) (tree_of ["example"] sample_nodes) in
  forallb (fun b => let h := sample_hash b in
    forallb (fun '(a, ha) => negb (String.eqb ha h) || bool_decide (a = b)) known) (hashed_names q).

Lemma collisions_checked q : collisions_ok q = true -> no_collisions sample_zone q sample_chain3.
Proof.
  intros Hc r salt Hr Hs a b Ha Hb Heq.
  assert (NSEC3Record.Iterations r = 1%Z /\ NSEC3Record.Salt r = "AABB") as [Hi Hsalt]
    by (apply list_elem_of_fmap in Hr as ([s e] & -> & _); done).
  rewrite Hsalt, sample_salt_decodes in Hs. injection Hs as <-. rewrite Hi in Heq.
  assert (b ∈ hashed_names q) as Hbn.
  { unfold hashed_names. apply elem_of_app. destruct Hb as [Hb|(ce & Hce & ->)]; [left; by apply tails_spec|right].
    apply list_elem_of_fmap. exists ce. split; [done|by apply tails_spec]. }
  unfold collisions_ok in Hc. rewrite forallb_forall in Hc. apply list_elem_of_In in Hbn. specialize (Hc _ Hbn). cbv zeta in Hc.
  rewrite forallb_forall in Hc. apply sample_in_zone, list_elem_of_In in Ha.
  specialize (Hc (a, sample_hash a) (in_map (fun n => (n, sample_hash n)) _ _ Ha)). cbv beta iota in Hc.
  apply orb_true_iff in Hc as [Hc|Hc]; [|by apply bool_decide_eq_true in Hc].
  apply negb_true_iff, String.eqb_neq in Hc. done.
Qed.

Definition accepted_plain (r : res string (option NSECProof.t)) : bool :=
  match r with Ok (Some p) => negb (NSECProof.OptOut p) | _ => false end.
Lemma accepted_plain_ok r :
  accepted_plain r = true -> is_ok r = true /\ exists p, r = Ok (Some p) /\ NSECProof.OptOut p = false.
Proof.
  destruct r as [[p|]|]; cbn; try done. intros Hp. apply negb_true_iff in Hp. split; [done|]. by exists p.
Qed.

Lemma nsec3_denial_sound_witness :
  is_ok (VerifyNSEC3Denial "Nope.Example" 1 sample_chain3 "example." 3) = true /\
  ~ below_cut sample_zone absent_name /\ nxdomain_truth3 sample_zone absent_name.
Proof.
  destruct (accepted_plain_ok (VerifyNSEC3Denial "Nope.Example" 1 sample_chain3 "example." 3)) as (Hok & proof & E & Ho);
    [vm_compute; reflexivity|].
  split; [exact Hok|].
  assert (if NSECProof.OptOut proof then opt_out_truth sample_zone absent_name
    else ~ below_cut sample_zone absent_name /\
         if (3 =? 3)%Z then nxdomain_truth3 sample_zone absent_name else nodata_truth3 sample_zone absent_name (TypeString 1)) as Hx.
  { apply (nsec3_denial_sound sample_zone absent_name "Nope.Example" 1 sample_chain3 "example." 3 proof).
    - apply sample_zone_ok.
    - apply plain_nameb_ok. reflexivity.
    - reflexivity.
    - apply sample_chain3_authentic.
    - apply collisions_checked. vm_compute. reflexivity.
    - exact E. }
  rewrite Ho in Hx. exact Hx.
Defined.

(** foo.wild.example, answered from *.wild.example (three labels, two below the star). *)
Definition expanded_name : name := ["foo"; "wild"; "example"].

Lemma wildcard_denial_sound_witness :
  NSECProof.Verified (VerifyWildcardDenial "foo.wild.example." 2 [] sample_chain3) = true /\
  wildcard_truth sample_zone expanded_name ["wild"; "example"].
Proof.
  assert (NSECProof.Verified (VerifyWildcardDenial "foo.wild.example." 2 [] sample_chain3) = true) as Hv
    by (vm_compute; reflexivity).
  split; [exact Hv|].
  assert (if NSECProof.OptOut (VerifyWildcardDenial "foo.wild.example." 2 [] sample_chain3)
    then opt_out_truth sample_zone expanded_name
    else wildcard_truth sample_zone expanded_name (drop (length expanded_name - Z.to_nat 2) expanded_name)) as Hx.
  { apply (wildcard_denial_sound sample_zone expanded_name "foo.wild.example." 2 [] sample_chain3).
    - apply sample_zone_ok.
    - apply plain_nameb_ok. reflexivity.
    - by exists ["foo"; "wild"].
    - reflexivity.
    - lia.
    - constructor.
    - apply sample_chain3_authentic.
    - apply collisions_checked. vm_compute. reflexivity.
    - apply sample_owns. apply (bool_decide_unpack _). vm_compute. exact I.
    - exact Hv. }
  assert (NSECProof.OptOut (VerifyWildcardDenial "foo.wild.example." 2 [] sample_chain3) = false) as Ho
    by (vm_compute; reflexivity).
  rewrite Ho in Hx. exact Hx.
Defined.
