(* ===== verification/Wire.v ===== *)
(** * Wire: resource records and the validator's record types
    (validator/internal/dns/types.go, records.go, query.go)

    The record structures of the DNS library as far as the validator reads them,
    the conversions to the validator's own record types, and the parse of a
    message into per-type slices tagged with their section. *)

From stdpp Require Import base list strings gmap pretty.
From Stdlib Require Import ZArith Lia Ascii.
From S2P Require Import Prelude GoTime Names Nsec Nsec3.
Local Open Scope Z_scope.

(** ** The DNS library's records *)

Module Hdr.
Record t := mk { Name : string; Rrtype : Z; Class_ : Z; Ttl : Z }.
End Hdr.

Module RRSIG.
Record t := mk {
  Hdr : Hdr.t; TypeCovered : Z; Algorithm : Z; Labels : Z; OrigTtl : Z; Expiration : Z;
  Inception : Z; KeyTag : Z; SignerName : string; Signature : string
}.
End RRSIG.

Module DNSKEY.
Record t := mk { Hdr : Hdr.t; Flags : Z; Protocol : Z; Algorithm : Z; PublicKey : string }.
End DNSKEY.

Module DS.
Record t := mk { Hdr : Hdr.t; KeyTag : Z; Algorithm : Z; DigestType : Z; Digest : string }.
End DS.

Module NSEC.
Record t := mk { Hdr : Hdr.t; NextDomain : string; TypeBitMap : list Z }.
End NSEC.

Module NSEC3.
Record t := mk {
  Hdr : Hdr.t; Hash : Z; Flags : Z; Iterations : Z; Salt : string; NextDomain : string; TypeBitMap : list Z
}.
End NSEC3.

Module NSEC3PARAM.
Record t := mk { Hdr : Hdr.t; Hash : Z; Flags : Z; Iterations : Z; Salt : string }.
End NSEC3PARAM.

(** [dns.RR]: the concrete types the validator and the signer switch on, and any
    other type with its rdata. *)
Inductive RR :=
| RR_RRSIG (v : RRSIG.t)
| RR_DNSKEY (v : DNSKEY.t)
| RR_DS (v : DS.t)
| RR_NSEC (v : NSEC.t)
| RR_NSEC3 (v : NSEC3.t)
| RR_NSEC3PARAM (v : NSEC3PARAM.t)
| RR_NS (h : Hdr.t) (ns : string)
| RR_A (h : Hdr.t) (A : list Z)
| RR_AAAA (h : Hdr.t) (AAAA : list Z)
| RR_CNAME (h : Hdr.t) (target : string)
| RR_DNAME (h : Hdr.t) (target : string)
| RR_PTR (h : Hdr.t) (ptr : string)
| RR_MX (h : Hdr.t) (preference : Z) (mx : string)
| RR_SRV (h : Hdr.t) (priority weight port : Z) (target : string)
| RR_SOA (h : Hdr.t) (ns mbox : string) (numbers : list Z)
| RR_NAPTR (h : Hdr.t) (order preference : Z) (flags service regexp replacement : string)
| RR_Other (h : Hdr.t) (rdata : string).

(** [rr.Header()] *)
Definition Header (rr : RR) : Hdr.t :=
  match rr with
  | RR_RRSIG v => RRSIG.Hdr v
  | RR_DNSKEY v => DNSKEY.Hdr v
  | RR_DS v => DS.Hdr v
  | RR_NSEC v => NSEC.Hdr v
  | RR_NSEC3 v => NSEC3.Hdr v
  | RR_NSEC3PARAM v => NSEC3PARAM.Hdr v
  | RR_NS h _ | RR_A h _ | RR_AAAA h _ | RR_CNAME h _ | RR_DNAME h _ | RR_PTR h _ | RR_MX h _ _ | RR_SRV h _ _ _ _
  | RR_SOA h _ _ _ | RR_NAPTR h _ _ _ _ _ _ | RR_Other h _ => h
  end.
(** The record with its header changed. *)
Definition map_header (f : Hdr.t -> Hdr.t) (rr : RR) : RR :=
  match rr with
  | RR_RRSIG v => RR_RRSIG (RRSIG.mk (f (RRSIG.Hdr v)) (RRSIG.TypeCovered v) (RRSIG.Algorithm v) (RRSIG.Labels v) (RRSIG.OrigTtl v)
      (RRSIG.Expiration v) (RRSIG.Inception v) (RRSIG.KeyTag v) (RRSIG.SignerName v) (RRSIG.Signature v))
  | RR_DNSKEY v => RR_DNSKEY (DNSKEY.mk (f (DNSKEY.Hdr v)) (DNSKEY.Flags v) (DNSKEY.Protocol v) (DNSKEY.Algorithm v) (DNSKEY.PublicKey v))
  | RR_DS v => RR_DS (DS.mk (f (DS.Hdr v)) (DS.KeyTag v) (DS.Algorithm v) (DS.DigestType v) (DS.Digest v))
  | RR_NSEC v => RR_NSEC (NSEC.mk (f (NSEC.Hdr v)) (NSEC.NextDomain v) (NSEC.TypeBitMap v))
  | RR_NSEC3 v => RR_NSEC3 (NSEC3.mk (f (NSEC3.Hdr v)) (NSEC3.Hash v) (NSEC3.Flags v) (NSEC3.Iterations v) (NSEC3.Salt v)
      (NSEC3.NextDomain v) (NSEC3.TypeBitMap v))
  | RR_NSEC3PARAM v => RR_NSEC3PARAM (NSEC3PARAM.mk (f (NSEC3PARAM.Hdr v)) (NSEC3PARAM.Hash v) (NSEC3PARAM.Flags v)
      (NSEC3PARAM.Iterations v) (NSEC3PARAM.Salt v))
  | RR_NS h t => RR_NS (f h) t
  | RR_A h ip => RR_A (f h) ip
  | RR_AAAA h ip => RR_AAAA (f h) ip
  | RR_CNAME h t => RR_CNAME (f h) t
  | RR_DNAME h t => RR_DNAME (f h) t
  | RR_PTR h p => RR_PTR (f h) p
  | RR_MX h p mx => RR_MX (f h) p mx
  | RR_SRV h p w q t => RR_SRV (f h) p w q t
  | RR_SOA h ns mbox n => RR_SOA (f h) ns mbox n
  | RR_NAPTR h o p fl s r t => RR_NAPTR (f h) o p fl s r t
  | RR_Other h d => RR_Other (f h) d
  end.
Definition rr_name (rr : RR) : string := Hdr.Name (Header rr).
Definition rr_type (rr : RR) : Z := Hdr.Rrtype (Header rr).

(** [dns.Msg], as unpacked. *)
Module Msg.
Record t := mk { Rcode : Z; Authoritative : bool; Answer : list RR; Ns : list RR; Extra : list RR }.
End Msg.

(** Type and response codes the validator names. *)
Definition TypeA : Z := 1.
Definition TypeNS : Z := 2.
Definition TypeCNAME : Z := 5.
Definition TypeAAAA : Z := 28.
Definition TypeDNAME : Z := 39.
Definition TypeDS : Z := 43.
Definition TypeNSEC : Z := 47.
Definition TypeDNSKEY : Z := 48.
Definition TypeNSEC3 : Z := 50.
Definition RcodeSuccess : Z := 0.
Definition RcodeServerFailure : Z := 2.
Definition RcodeNameError : Z := 3.
Definition RcodeYXDomain : Z := 6.

(** ** The validator's record types *)

Module DNSKEYRecord.
Record t := mk {
  Owner : string; Class_ : Z; Section_ : string; Flags : Z; Protocol : Z; Algorithm : Z;
  PublicKey : string; KeyTag : Z; IsKSK : bool; IsZSK : bool; IsRevoked : bool
}.
End DNSKEYRecord.

Module DSRecord.
Record t := mk {
  Owner : string; Class_ : Z; Section_ : string; KeyTag : Z; Algorithm : Z; DigestType : Z; Digest : string
}.
End DSRecord.

Module RRSIGRecord.
Record t := mk {
  Owner : string; Class_ : Z; Section_ : string; TypeCovered : Z; Algorithm : Z; Labels : Z;
  OriginalTTL : Z; Expiration : Time; Inception : Time; KeyTag : Z; SignerName : string;
  Signature : string; IsValid : bool; IsExpired : bool
}.
End RRSIGRecord.

Module NSRecord.
Record t := mk {
  Owner : string; Class_ : Z; Section_ : string; Name : string; Addresses : list (list Z); LookupErrors : list string
}.
End NSRecord.

Module CNAMERecord.
Record t := mk { Name : string; Class_ : Z; Section_ : string; Target : string }.
End CNAMERecord.

Module DNAMERecord.
Record t := mk { Owner : string; Class_ : Z; Section_ : string; Target : string }.
End DNAMERecord.

Module QueryResult.
Record t := mk {
  Server : string; IP : string; RTT : Duration; Truncated : bool; Authoritative : bool;
  RCode : Z; RCodeName : string; Error : string;
  DNSKEY : list DNSKEYRecord.t; DS : list DSRecord.t; RRSIG : list RRSIGRecord.t;
  NSEC : list NSECRecord.t; NSEC3 : list NSEC3Record.t; NS : list NSRecord.t; CNAME : list CNAMERecord.t;
  DNAME : list DNAMERecord.t; AnswerTypes : list Z; RawResponse : list Z
}.
#[global] Instance eta : Eta t := { eta r := mk (Server r) (IP r) (RTT r) (Truncated r) (Authoritative r)
  (RCode r) (RCodeName r) (Error r) (DNSKEY r) (DS r) (RRSIG r) (NSEC r) (NSEC3 r) (NS r) (CNAME r) (DNAME r) (AnswerTypes r) (RawResponse r);
  eta_id r := ltac:(by destruct r) }.
End QueryResult.

(** [EligibleForVerification]: protocol 3, the zone-key flag, not revoked. *)
Definition EligibleForVerification (k : DNSKEYRecord.t) : bool :=
  if negb (DNSKEYRecord.Protocol k =? 3) then false
  else if Z.land (DNSKEYRecord.Flags k) 0x0100 =? 0 then false
  else if DNSKEYRecord.IsRevoked k || negb (Z.land (DNSKEYRecord.Flags k) 0x0080 =? 0) then false
  else true.

Definition SectionAnswer : string := "answer".
Definition SectionAuthority : string := "authority".
Definition SectionAdditional : string := "additional".

Definition InSection (section : string) (allowed : list string) : bool :=
  if String.eqb section "" then match allowed with [] => false | _ => true end
  else existsb (fun a => String.eqb section a) allowed.

(** [time.Unix(int64(s), 0)] *)
Definition unix_time (s : Z) : Time := (s + 62135596800) * Second.

(** [strings.Index(s, ".")]: the bytes before the first dot. *)
Fixpoint before_dot (s : string) : option string :=
  match s with
  | EmptyString => None
  | String c s' => if Ascii.eqb c "."%char then Some "" else option_map (String c) (before_dot s')
  end.

(** The remaining library code these conversions use. *)
Class WireLib := { KeyTagOf : DNSKEY.t -> Z }.

Section conversions.
Context `{DnsLib} `{WireLib}.

Definition DNSKEYFromRR (v : DNSKEY.t) (section : string) : DNSKEYRecord.t :=
  let isZoneKey := negb (Z.land (DNSKEY.Flags v) 0x0100 =? 0) in
  let isSEP := negb (Z.land (DNSKEY.Flags v) 0x0001 =? 0) in
  DNSKEYRecord.mk (Hdr.Name (DNSKEY.Hdr v)) (Hdr.Class_ (DNSKEY.Hdr v)) section (DNSKEY.Flags v) (DNSKEY.Protocol v)
    (DNSKEY.Algorithm v) (DNSKEY.PublicKey v) (KeyTagOf v) (isZoneKey && isSEP) (isZoneKey && negb isSEP)
    (negb (Z.land (DNSKEY.Flags v) 0x0080 =? 0)).

Definition DSFromRR (v : DS.t) (section : string) : DSRecord.t :=
  DSRecord.mk (Hdr.Name (DS.Hdr v)) (Hdr.Class_ (DS.Hdr v)) section (DS.KeyTag v) (DS.Algorithm v)
    (DS.DigestType v) (ToUpper (DS.Digest v)).

Definition RRSIGFromRR (v : RRSIG.t) (section : string) (now : Time) : RRSIGRecord.t :=
  let expiration := unix_time (RRSIG.Expiration v) in
  let inception := unix_time (RRSIG.Inception v) in
  RRSIGRecord.mk (Hdr.Name (RRSIG.Hdr v)) (Hdr.Class_ (RRSIG.Hdr v)) section (RRSIG.TypeCovered v)
    (RRSIG.Algorithm v) (RRSIG.Labels v) (RRSIG.OrigTtl v) expiration inception (RRSIG.KeyTag v)
    (RRSIG.SignerName v) (RRSIG.Signature v) (After now inception && Before now expiration) (After now expiration).

Definition NSECFromRR (v : NSEC.t) (section : string) : NSECRecord.t :=
  NSECRecord.mk (Hdr.Name (NSEC.Hdr v)) (Hdr.Class_ (NSEC.Hdr v)) section (NSEC.NextDomain v)
    (map TypeString (NSEC.TypeBitMap v)).

Definition NSEC3FromRR (v : NSEC3.t) (section : string) : NSEC3Record.t :=
  let hashedOwner := match before_dot (Hdr.Name (NSEC3.Hdr v)) with
                     | Some (String c l) => ToUpper (String c l)
                     | _ => ""
                     end in
  NSEC3Record.mk (Hdr.Name (NSEC3.Hdr v)) (Hdr.Class_ (NSEC3.Hdr v)) section hashedOwner (NSEC3.Hash v)
    (NSEC3.Flags v) (NSEC3.Iterations v) (ToUpper (NSEC3.Salt v)) (ToUpper (NSEC3.NextDomain v))
    (map TypeString (NSEC3.TypeBitMap v)).

Definition NSFromRR (h : Hdr.t) (ns section : string) : NSRecord.t :=
  NSRecord.mk (Hdr.Name h) (Hdr.Class_ h) section ns [] [].
Definition CNAMEFromRR (h : Hdr.t) (target section : string) : CNAMERecord.t :=
  CNAMERecord.mk (Hdr.Name h) (Hdr.Class_ h) section target.
Definition DNAMEFromRR (h : Hdr.t) (target section : string) : DNAMERecord.t :=
  DNAMERecord.mk (Hdr.Name h) (Hdr.Class_ h) section target.

(** ** query.go: the parse of a response *)

Definition parse_record (section : string) (now : Time) (result : QueryResult.t) (rr : RR) : QueryResult.t :=
  match rr with
  | RR_DNSKEY v => result <| QueryResult.DNSKEY := QueryResult.DNSKEY result ++ [DNSKEYFromRR v section] |>
  | RR_DS v => result <| QueryResult.DS := QueryResult.DS result ++ [DSFromRR v section] |>
  | RR_RRSIG v => result <| QueryResult.RRSIG := QueryResult.RRSIG result ++ [RRSIGFromRR v section now] |>
  | RR_NSEC v => result <| QueryResult.NSEC := QueryResult.NSEC result ++ [NSECFromRR v section] |>
  | RR_NSEC3 v => result <| QueryResult.NSEC3 := QueryResult.NSEC3 result ++ [NSEC3FromRR v section] |>
  | RR_NS h ns => result <| QueryResult.NS := QueryResult.NS result ++ [NSFromRR h ns section] |>
  | RR_CNAME h t => result <| QueryResult.CNAME := QueryResult.CNAME result ++ [CNAMEFromRR h t section] |>
  | RR_DNAME h t => result <| QueryResult.DNAME := QueryResult.DNAME result ++ [DNAMEFromRR h t section] |>
  | _ => result
  end.

Definition parseSection (rrs : list RR) (section : string) (now : Time) (result : QueryResult.t) : QueryResult.t :=
  fold_left (parse_record section now) rrs result.

Definition answer_types (rrs : list RR) : list Z :=
  fold_left (fun ts rr => if existsb (Z.eqb (rr_type rr)) ts then ts else ts ++ [rr_type rr]) rrs [].

Definition parseResponse (resp : Msg.t) (now : Time) (result : QueryResult.t) : QueryResult.t :=
  let result := result <| QueryResult.AnswerTypes := QueryResult.AnswerTypes result ++ answer_types (Msg.Answer resp) |> in
  let result := parseSection (Msg.Answer resp) SectionAnswer now result in
  let result := parseSection (Msg.Ns resp) SectionAuthority now result in
  parseSection (Msg.Extra resp) SectionAdditional now result.
End conversions.
