(* ===== verification/Authenticated.v ===== *)
(** * Authenticated: signature verification under a work budget
    (validator/internal/validator/authenticated.go, budget.go, dnssec.go)

    The state of one validation is its work budget, a count of the clock and
    context readings made so far (each reading may see a new value), and a ghost
    count of signature verifications.  Unpacking and signature checking belong to
    the DNS library and are the class [ValidatorEnv], as are the clock and the
    context. *)

From stdpp Require Import base list strings gmap pretty.
From Stdlib Require Import ZArith Lia.
From S2P Require Import Prelude GoTime Names Nsec Nsec3 Wire.
Local Open Scope Z_scope.

Module VerifyBudget.
Record t := mk { limit : Z; spent : Z; exhausted : bool }.
#[global] Instance eta : Eta t := { eta r := mk (limit r) (spent r) (exhausted r); eta_id r := ltac:(by destruct r) }.
End VerifyBudget.

Module VState.
Record t := mk {
  budget : option VerifyBudget.t;
  readings : nat;
  verifications : nat
}.
#[global] Instance eta : Eta t := { eta r := mk (budget r) (readings r) (verifications r); eta_id r := ltac:(by destruct r) }.
End VState.

Class ValidatorEnv := {
  Unpack : list Z -> res string Msg.t;
  Verify : RRSIG.t -> DNSKEY.t -> list RR -> option string;
  now_at : nat -> Time;
  ctx_err : nat -> option string
}.

Module VerifiedRRset.
Record t := mk { Owner : string; Type_ : Z; Records : list RR; Signature : RRSIG.t; Key : DNSKEYRecord.t }.
End VerifiedRRset.

Definition DefaultVerificationBudget : Z := 2000.
Definition budgetExhaustedMessage : string := "verification work budget exhausted".
Definition isBudgetExhaustedText (msg : string) : bool := Contains msg budgetExhaustedMessage.
Definition ClockSkewTolerance : Duration := 5 * Minute.

Definition newVerifyBudget (limit : Z) : VerifyBudget.t := VerifyBudget.mk limit 0 false.

Section auth.
Context `{DnsLib} `{WireLib} `{ValidatorEnv}.
Local Notation V := (St VState.t string).

(** A reading of the clock or the context. *)
Definition reading : V nat := fun s =>
  (Ok (VState.readings s), s <| VState.readings := S (VState.readings s) |>).
Definition Now : V Time := n <-- reading ;; ret (now_at n).
Definition ctxErr : V (option string) := n <-- reading ;; ret (ctx_err n).

(** ** budget.go *)

Definition set_budget (b : VerifyBudget.t) : V unit := modify (fun s => s <| VState.budget := Some b |>).

Definition exhausted_error (b : VerifyBudget.t) : string :=
  Sprintf "%w (limit %d units)" [budgetExhaustedMessage; pretty (VerifyBudget.limit b)].

(** [charge]: a nil budget is unbounded. *)
Definition charge (n : Z) : V unit :=
  ob <-- gets VState.budget ;;
  match ob with
  | None => ret tt
  | Some b =>
      err <-- ctxErr ;;
      match err with
      | Some e => set_budget (b <| VerifyBudget.exhausted := true |>) ;;;
          fail (Sprintf "%w: validation cancelled (%v)" [budgetExhaustedMessage; e])
      | None =>
          if VerifyBudget.exhausted b then fail (exhausted_error b)
          else
            let b := b <| VerifyBudget.spent := VerifyBudget.spent b + n |> in
            if VerifyBudget.limit b <? VerifyBudget.spent b
            then set_budget (b <| VerifyBudget.exhausted := true |>) ;;; fail (exhausted_error b)
            else set_budget b
      end
  end.

(** ** dnssec.go: keys and times *)

Definition EligibleKeysByKeyTag (keyTag : Z) (dnskeys : list DNSKEYRecord.t) : list DNSKEYRecord.t :=
  List.filter (fun k => (DNSKEYRecord.KeyTag k =? keyTag) && EligibleForVerification k) dnskeys.

Definition rrsigWireTimeValid (sig : RRSIG.t) : V bool :=
  now <-- Now ;;
  ret (After now (TAdd (unix_time (RRSIG.Inception sig)) (- ClockSkewTolerance)) &&
       Before now (TAdd (unix_time (RRSIG.Expiration sig)) ClockSkewTolerance)).

Definition reconstructDNSKEY (zone : string) (record : DNSKEYRecord.t) : DNSKEY.t :=
  DNSKEY.mk (Hdr.mk (Fqdn zone) TypeDNSKEY 1 3600) (DNSKEYRecord.Flags record) (DNSKEYRecord.Protocol record)
    (DNSKEYRecord.Algorithm record) (DNSKEYRecord.PublicKey record).

Definition keyBelongsToZone (key : DNSKEYRecord.t) (zone : string) : bool :=
  if String.eqb (DNSKEYRecord.Owner key) "" then true
  else String.eqb (CanonicalName (DNSKEYRecord.Owner key)) (CanonicalName zone).

(** ** authenticated.go *)

Definition trustedKeyForSigner (key : DNSKEYRecord.t) (signerName : string) : res string DNSKEY.t :=
  if String.eqb (DNSKEYRecord.Owner key) "" then Ok (reconstructDNSKEY signerName key)
  else if negb (String.eqb (CanonicalName (DNSKEYRecord.Owner key)) (CanonicalName signerName)) then
    Err (Sprintf "trusted key (tag %d) belongs to zone %s, not signer %s"
      [pretty (DNSKEYRecord.KeyTag key); DNSKEYRecord.Owner key; signerName])
  else Ok (reconstructDNSKEY (DNSKEYRecord.Owner key) key).

Definition key_id (k : DNSKEYRecord.t) : string :=
  Sprintf "%s/%d/%d/%d/%s" [CanonicalName (DNSKEYRecord.Owner k); pretty (DNSKEYRecord.Flags k);
    pretty (DNSKEYRecord.Protocol k); pretty (DNSKEYRecord.Algorithm k); DNSKEYRecord.PublicKey k].

(** Keep the first of the elements with the same id. *)
Fixpoint dedupe_by {A} (id : A -> string) (seen : list string) (l : list A) : list A :=
  match l with
  | [] => []
  | x :: l' => if str_in seen (id x) then dedupe_by id seen l' else x :: dedupe_by id (id x :: seen) l'
  end.

Definition dedupeKeys (keys : list DNSKEYRecord.t) : list DNSKEYRecord.t := dedupe_by key_id [] keys.

Definition sig_id (v : RRSIG.t) : string :=
  CanonicalName (Hdr.Name (RRSIG.Hdr v)) +:+ "/" +:+ CanonicalName (RRSIG.SignerName v) +:+ "/" +:+
  Sprintf "%d %d %d %d" [pretty (RRSIG.KeyTag v); pretty (RRSIG.Labels v); pretty (RRSIG.Inception v); pretty (RRSIG.Expiration v)]
  +:+ "/" +:+ RRSIG.Signature v.

(** The covering signatures of a scan, and its records of the covered type. *)
Definition covering_sigs (typeCovered : Z) (scan : list RR) : list RRSIG.t :=
  omap (fun rr => match rr with
                  | RR_RRSIG v => if RRSIG.TypeCovered v =? typeCovered then Some v else None
                  | _ => None
                  end) scan.
Definition is_rrsig (rr : RR) : bool := match rr with RR_RRSIG _ => true | _ => false end.
Definition typed_records (typeCovered : Z) (scan : list RR) : list RR :=
  List.filter (fun rr => negb (is_rrsig rr) && (rr_type rr =? typeCovered)) scan.
(** [rrsetByOwner[owner]] and [sigsByOwner[owner]] *)
Definition rrsetByOwner (typeCovered : Z) (scan : list RR) (owner : string) : list RR :=
  List.filter (fun rr => String.eqb (CanonicalName (rr_name rr)) owner) (typed_records typeCovered scan).
Definition sigsByOwner (typeCovered : Z) (scan : list RR) (owner : string) : list RRSIG.t :=
  List.filter (fun v => String.eqb (CanonicalName (Hdr.Name (RRSIG.Hdr v))) owner) (covering_sigs typeCovered scan).

(** [sig.Verify], counted. *)
Definition verify_signature (sig : RRSIG.t) (key : DNSKEY.t) (rrset : list RR) : V (option string) :=
  modify (fun s => s <| VState.verifications := S (VState.verifications s) |>) ;;;
  ret (Verify sig key rrset).

(** The loop over the candidate keys of one signature: the verified RRset, or the
    last error. *)
Fixpoint try_keys (sig : RRSIG.t) (owner : string) (typeCovered : Z) (rrset : list RR)
    (cands : list DNSKEYRecord.t) (lastErr : option string) : V (VerifiedRRset.t + option string) :=
  match cands with
  | [] => ret (inr lastErr)
  | ck :: cands' =>
      if negb (DNSKEYRecord.Algorithm ck =? RRSIG.Algorithm sig) then
        try_keys sig owner typeCovered rrset cands'
          (Some (Sprintf "RRSIG algorithm %d does not match key %d algorithm %d"
            [pretty (RRSIG.Algorithm sig); pretty (DNSKEYRecord.KeyTag ck); pretty (DNSKEYRecord.Algorithm ck)]))
      else
        match trustedKeyForSigner ck (RRSIG.SignerName sig) with
        | Err err => try_keys sig owner typeCovered rrset cands' (Some err)
        | Ok signingKey =>
            charge 1 ;;;
            err <-- verify_signature sig signingKey rrset ;;
            match err with
            | Some e => try_keys sig owner typeCovered rrset cands'
                (Some (Sprintf "cryptographic RRset verification failed: %w" [e]))
            | None => ret (inl (VerifiedRRset.mk owner typeCovered rrset sig ck))
            end
        end
  end.

(** The loop over the candidate signatures. *)
Fixpoint try_sigs (scan : list RR) (typeCovered : Z) (keys : list DNSKEYRecord.t)
    (expectedOwner expectedSigner : string) (candidates : list RRSIG.t) (lastErr : option string) : V VerifiedRRset.t :=
  let wantOwner := if String.eqb expectedOwner "" then "" else CanonicalName expectedOwner in
  let wantSigner := if String.eqb expectedSigner "" then "" else CanonicalName expectedSigner in
  match candidates with
  | [] => fail (default (Sprintf "no verifiable RRSIG candidate for type %s" [TypeString typeCovered]) lastErr)
  | sig :: rest =>
      let skip e := try_sigs scan typeCovered keys expectedOwner expectedSigner rest (Some e) in
      let owner := CanonicalName (Hdr.Name (RRSIG.Hdr sig)) in
      if negb (String.eqb wantOwner "") && negb (String.eqb owner wantOwner) then
        skip (Sprintf "RRSIG owner %s does not match queried owner %s" [Hdr.Name (RRSIG.Hdr sig); expectedOwner])
      else if negb (String.eqb wantSigner "") && negb (String.eqb (CanonicalName (RRSIG.SignerName sig)) wantSigner) then
        skip (Sprintf "RRSIG signer %s is not the expected signing zone %s" [RRSIG.SignerName sig; expectedSigner])
      else
        let rrset := rrsetByOwner typeCovered scan owner in
        match rrset with
        | [] => skip (Sprintf "no RRset found for owner %s and type %s" [Hdr.Name (RRSIG.Hdr sig); TypeString typeCovered])
        | _ =>
            valid <-- rrsigWireTimeValid sig ;;
            if negb valid then
              skip (Sprintf "RRSIG (owner %s, key tag %d) outside its validity period (inception %s, expiration %s)"
                [Hdr.Name (RRSIG.Hdr sig); pretty (RRSIG.KeyTag sig); FormatRFC3339 (unix_time (RRSIG.Inception sig));
                 FormatRFC3339 (unix_time (RRSIG.Expiration sig))])
            else
              match EligibleKeysByKeyTag (RRSIG.KeyTag sig) keys with
              | [] => skip (Sprintf "no eligible trusted key with tag %d for RRSIG over %s %s"
                        [pretty (RRSIG.KeyTag sig); Hdr.Name (RRSIG.Hdr sig); TypeString typeCovered])
              | cands =>
                  r <-- try_keys sig owner typeCovered rrset cands lastErr ;;
                  match r with
                  | inl v => ret v
                  | inr lastErr => try_sigs scan typeCovered keys expectedOwner expectedSigner rest lastErr
                  end
              end
        end
  end.

Definition verifyRRsetInRecords (scan : list RR) (typeCovered : Z) (keys : list DNSKEYRecord.t)
    (expectedOwner expectedSigner : string) : V VerifiedRRset.t :=
  let candidates := dedupe_by sig_id [] (covering_sigs typeCovered scan) in
  let keys := dedupeKeys keys in
  match candidates with
  | [] => fail (Sprintf "no RRSIG found in response covering type %s" [TypeString typeCovered])
  | _ => try_sigs scan typeCovered keys expectedOwner expectedSigner candidates None
  end.

Definition unpack_response (rawResponse : list Z) : V Msg.t :=
  match rawResponse with
  | [] => fail "raw DNS response unavailable"
  | _ => match Unpack rawResponse with
         | Err err => fail (Sprintf "failed to unpack DNS response: %w" [err])
         | Ok msg => ret msg
         end
  end.

Definition verifyRRsetFromResponseB (rawResponse : list Z) (typeCovered : Z) (keys : list DNSKEYRecord.t)
    (expectedOwner expectedSigner : string) (answerOnly : bool) : V VerifiedRRset.t :=
  msg <-- unpack_response rawResponse ;;
  let scan := if answerOnly then Msg.Answer msg else Msg.Answer msg ++ Msg.Ns msg ++ Msg.Extra msg in
  verifyRRsetInRecords scan typeCovered keys expectedOwner expectedSigner.

Definition verifyDNSKEYRRsetFromResponseB (rawResponse : list Z) (zone : string)
    (authenticatedKeys : list DNSKEYRecord.t) : V VerifiedRRset.t :=
  match authenticatedKeys with
  | [] => fail "no parent-authenticated (DS/anchor-matched) key available to verify the DNSKEY RRset"
  | _ => verifyRRsetFromResponseB rawResponse TypeDNSKEY authenticatedKeys zone zone true
  end.

(** The owners of the records of the covered type, in order of first appearance. *)
Definition denial_owners (typeCovered : Z) (scan : list RR) : list string :=
  dedupe_by (fun o => o) [] (map (fun rr => CanonicalName (rr_name rr)) (typed_records typeCovered scan)).

(** The loop of [verifyDenialRRsetsFromResponseB] over the owners. *)
Fixpoint denial_loop (scan : list RR) (typeCovered : Z) (keys : list DNSKEYRecord.t) (expectedSigner : string)
    (order : list string) (verified : list VerifiedRRset.t) (rejected : list string)
    : V (list VerifiedRRset.t * list string) :=
  let wantZone := if String.eqb expectedSigner "" then "" else CanonicalName expectedSigner in
  match order with
  | [] => ret (verified, rejected)
  | owner :: order' =>
      let reject note := denial_loop scan typeCovered keys expectedSigner order' verified (rejected ++ [note]) in
      let rrset := rrsetByOwner typeCovered scan owner in
      match sigsByOwner typeCovered scan owner with
      | [] => reject (Sprintf "%s RRset at %s has no RRSIG" [TypeString typeCovered; owner])
      | sigs =>
          if negb (String.eqb wantZone "") && negb (IsSubDomain wantZone owner) then
            reject (Sprintf "%s RRset at %s is not within zone %s" [TypeString typeCovered; owner; expectedSigner])
          else
            r <-- catch (verifyRRsetInRecords (rrset ++ map RR_RRSIG sigs) typeCovered keys owner expectedSigner) ;;
            match r with
            | Err verr =>
                if isBudgetExhaustedText verr then fail verr
                else reject (Sprintf "%s RRset at %s: %v" [TypeString typeCovered; owner; verr])
            | Ok v => denial_loop scan typeCovered keys expectedSigner order' (verified ++ [v]) rejected
            end
      end
  end.

(** [verifyDenialRRsetsFromResponseB]: the verified RRsets and the notes on the
    rejected ones. *)
Definition verifyDenialRRsetsFromResponseB (rawResponse : list Z) (typeCovered : Z) (keys : list DNSKEYRecord.t)
    (expectedSigner : string) : V (list VerifiedRRset.t * list string) :=
  msg <-- unpack_response rawResponse ;;
  let scan := Msg.Answer msg ++ Msg.Ns msg in
  match denial_owners typeCovered scan with
  | [] => fail (Sprintf "no %s records found in the Answer or Authority section" [TypeString typeCovered])
  | order =>
      vr <-- denial_loop scan typeCovered keys expectedSigner order [] [] ;;
      match vr.1 with
      | [] => fail (Sprintf "no %s RRset verified: %s" [TypeString typeCovered; Join vr.2 "; "])
      | _ => ret vr
      end
  end.

(** ** From verified RRsets to the validator's records *)

Definition nsecRecordsFromVerified (verified : list VerifiedRRset.t) : list NSECRecord.t :=
  concat (map (fun v => omap (fun rr => match rr with
    | RR_NSEC n => Some (NSECFromRR n SectionAuthority) | _ => None end) (VerifiedRRset.Records v)) verified).

Definition nsec3RecordsFromVerified (verified : list VerifiedRRset.t) : list NSEC3Record.t :=
  concat (map (fun v => omap (fun rr => match rr with
    | RR_NSEC3 n => Some (NSEC3FromRR n SectionAuthority) | _ => None end) (VerifiedRRset.Records v)) verified).

Definition dsRecordsFromVerified (v : VerifiedRRset.t) : list DSRecord.t :=
  omap (fun rr => match rr with RR_DS d => Some (DSFromRR d SectionAnswer) | _ => None end) (VerifiedRRset.Records v).

Definition answerHasTypeAt (rawResponse : list Z) (qtype : Z) (owner : string) : bool :=
  match rawResponse with
  | [] => false
  | _ => match Unpack rawResponse with
         | Err _ => false
         | Ok msg => existsb (fun rr => (rr_type rr =? qtype) && String.eqb (CanonicalName (rr_name rr)) (CanonicalName owner))
                       (Msg.Answer msg)
         end
  end.

(** The served records of one section at one owner; an empty owner passes. *)
Definition served_at (section owner want : string) (allowed : list string) : bool :=
  InSection section allowed && (String.eqb owner "" || String.eqb (CanonicalName owner) want).

Definition answerDNSKEYsOwnedBy (keys : list DNSKEYRecord.t) (zone : string) : list DNSKEYRecord.t :=
  List.filter (fun k => served_at (DNSKEYRecord.Section_ k) (DNSKEYRecord.Owner k) (CanonicalName zone) [SectionAnswer]) keys.
Definition answerDSOwnedBy (ds : list DSRecord.t) (child : string) : list DSRecord.t :=
  List.filter (fun d => served_at (DSRecord.Section_ d) (DSRecord.Owner d) (CanonicalName child) [SectionAnswer]) ds.
Definition answerRRSIGsOwnedBy (sigs : list RRSIGRecord.t) (owner : string) : list RRSIGRecord.t :=
  List.filter (fun r => served_at (RRSIGRecord.Section_ r) (RRSIGRecord.Owner r) (CanonicalName owner) [SectionAnswer]) sigs.
Definition answerCNAMEsOwnedBy (cnames : list CNAMERecord.t) (owner : string) : list CNAMERecord.t :=
  List.filter (fun c => served_at (CNAMERecord.Section_ c) (CNAMERecord.Name c) (CanonicalName owner) [SectionAnswer]) cnames.

Definition denialNSECCandidates (records : list NSECRecord.t) : list NSECRecord.t :=
  List.filter (fun r => InSection (NSECRecord.Section_ r) [SectionAuthority; SectionAnswer]) records.
Definition denialNSEC3Candidates (records : list NSEC3Record.t) : list NSEC3Record.t :=
  List.filter (fun r => InSection (NSEC3Record.Section_ r) [SectionAuthority; SectionAnswer]) records.

(** ** nsec.go: the denial proofs with signature verification *)

(** [qnameWithinZone] *)
Definition qnameWithinZoneErr (qname zone : string) : res string unit :=
  if qnameWithinZone qname zone then Ok tt
  else Err (Sprintf "%s is not within zone %s; this zone's denial records cannot deny it" [qname; zone]).

Definition rejectedNote (rejected : list string) : string :=
  match rejected with
  | [] => ""
  | _ => Sprintf " (%d unverifiable denial RRset(s) ignored: %s)" [pretty (length rejected); Join rejected "; "]
  end.

Definition response_type (rcode : Z) : string := if rcode =? 3 then "NXDOMAIN" else "NODATA".

(** The shared ending: authenticate the RRsets of [typeCovered], then run the
    semantic proof on what verified. *)
Definition denial_with_rrsig (typeCovered : Z) (kind rawErr : string) (dnskeys : list DNSKEYRecord.t) (zone : string)
    (rawResponse : list Z) (prove : list VerifiedRRset.t -> res string (option NSECProof.t)) (proof : NSECProof.t)
    : V NSECProof.t :=
  r <-- catch (verifyDenialRRsetsFromResponseB rawResponse typeCovered dnskeys zone) ;;
  match r with
  | Err err => ret (proof <| NSECProof.Error := Sprintf rawErr [err] |>)
  | Ok (verified, rejected) =>
      match prove verified with
      | Err err => ret (proof <| NSECProof.Error := err +:+ rejectedNote rejected |>)
      | Ok basicProof => ret ((adopt proof basicProof) <| NSECProof.Verified := true |>)
      end
  end.

Definition verifyNSECDenialWithRRSIGB (qname : string) (qtype : Z) (nsecRecords : list NSECRecord.t)
    (dnskeys : list DNSKEYRecord.t) (zone : string) (rawResponse : list Z) (rcode : Z) : V NSECProof.t :=
  let proof := (NSECProof.zero <| NSECProof.ProofType := "NSEC" |>) <| NSECProof.ResponseType := response_type rcode |> in
  match nsecRecords with
  | [] => ret (proof <| NSECProof.Error := "no NSEC records in response" |>)
  | _ =>
      let proof := proof <| NSECProof.Records := map (fun nsec => Sprintf "%s → %s [%v]"
        [NSECRecord.Owner nsec; NSECRecord.NextDomain nsec; show_strings (NSECRecord.TypeBitmap nsec)]) nsecRecords |> in
      match qnameWithinZoneErr qname zone with
      | Err err => ret (proof <| NSECProof.Error := err |>)
      | Ok _ => denial_with_rrsig TypeNSEC "NSEC" "NSEC RRSIG cryptographic verification failed: %v" dnskeys zone rawResponse
                  (fun verified => VerifyNSECDenial qname qtype (nsecRecordsFromVerified verified) rcode) proof
      end
  end.

Definition verifyNSEC3DenialWithRRSIGB (qname : string) (qtype : Z) (nsec3Records : list NSEC3Record.t)
    (dnskeys : list DNSKEYRecord.t) (zone : string) (rawResponse : list Z) (rcode : Z) : V NSECProof.t :=
  let proof := (NSECProof.zero <| NSECProof.ProofType := "NSEC3" |>) <| NSECProof.ResponseType := response_type rcode |> in
  match nsec3Records with
  | [] => ret (proof <| NSECProof.Error := "no NSEC3 records in response" |>)
  | _ =>
      match nsec3IterationsOverCap nsec3Records with
      | Some iters => ret (proof <| NSECProof.Error := over_cap_error iters |>)
      | None =>
          let proof := proof <| NSECProof.Records := map (fun nsec3 => Sprintf "%s → %s [%v]%s"
            [NSEC3Record.HashedOwner nsec3; NSEC3Record.NextHashed nsec3; show_strings (NSEC3Record.TypeBitmap nsec3);
             if isOptOut nsec3 then " [opt-out]" else ""]) nsec3Records |> in
          match qnameWithinZoneErr qname zone with
          | Err err => ret (proof <| NSECProof.Error := err |>)
          | Ok _ => denial_with_rrsig TypeNSEC3 "NSEC3" "NSEC3 RRSIG cryptographic verification failed: %v" dnskeys zone rawResponse
                      (fun verified => VerifyNSEC3Denial qname qtype (nsec3RecordsFromVerified verified) zone rcode) proof
          end
      end
  end.
End auth.
