(* ===== verification/Anchors.v ===== *)
(** * Anchors: the pinned root trust anchors and what is loaded beside them
    (validator/internal/dns/anchors.go, anchors_embedded.go)

    A document is decoded elsewhere ([encoding/json], file and network access are
    the class [AnchorSources]); what follows is the pipeline every document passes,
    the order of the sources, and the filter that decides which anchors may
    establish trust. *)

From stdpp Require Import base list strings gmap pretty.
From Stdlib Require Import ZArith Lia Ascii.
From S2P Require Import Prelude GoTime Names Digests Nsec Nsec3 Wire Authenticated.
Local Open Scope Z_scope.

Module pinnedAnchor.
Record t := mk { KeyTag : Z; Algorithm : Z; DigestType : Z; Digest : string }.
End pinnedAnchor.

Module Anchor.
Record t := mk {
  ID : string; KeyTag : Z; Algorithm : Z; AlgorithmName : string; DigestType : Z; DigestTypeName : string;
  Digest : string; ValidFrom : string; ValidUntil : option string; PublicKey : string; Flags : Z
}.
End Anchor.

Module RootAnchors.
Record t := mk { Source : string; Zone : string; GeneratedAt : string; Anchors : list Anchor.t; LoadedFrom : string }.
#[global] Instance eta : Eta t := { eta r := mk (Source r) (Zone r) (GeneratedAt r) (Anchors r) (LoadedFrom r); eta_id r := ltac:(by destruct r) }.
End RootAnchors.

Definition pinnedRootAnchors : list pinnedAnchor.t := [
  pinnedAnchor.mk 20326 8 2 "E06D44B80B8F1D39A95C0B0D7C65D08458E880409BBC683457104237C7F8EC8D";
  pinnedAnchor.mk 38696 8 2 "683D2D0ACB8C9B712A1948B27F741219298D0A450D612C483AF444A4C0FB2B16"].

Definition IsPinnedRootAnchor (a : Anchor.t) : bool :=
  existsb (fun p => (Anchor.KeyTag a =? pinnedAnchor.KeyTag p) && (Anchor.Algorithm a =? pinnedAnchor.Algorithm p) &&
    (Anchor.DigestType a =? pinnedAnchor.DigestType p) && EqualFold (Anchor.Digest a) (pinnedAnchor.Digest p)) pinnedRootAnchors.

Definition hasPinnedRootAnchor (anchors : list Anchor.t) : bool := existsb IsPinnedRootAnchor anchors.

Definition digestHexLen (dt : Z) : option Z :=
  if dt =? 1 then Some 40 else if dt =? 2 then Some 64 else if dt =? 4 then Some 96 else None.

(** [hex.DecodeString] succeeds: an even number of hexadecimal digits. *)
Definition is_hex_digit (c : ascii) : bool :=
  byte_in_range "0" "9" c || byte_in_range "a" "f" c || byte_in_range "A" "F" c.
Definition hex_decodes (s : string) : bool :=
  Nat.even (String.length s) && forallb is_hex_digit (String.list_ascii_of_string s).

Definition validateAnchorStructure (a : Anchor.t) : res string unit :=
  match digestHexLen (Anchor.DigestType a) with
  | None => Err (Sprintf "anchor %q (tag %d): unsupported digest type %d"
      [Anchor.ID a; pretty (Anchor.KeyTag a); pretty (Anchor.DigestType a)])
  | Some want =>
      if negb (Z.of_nat (String.length (Anchor.Digest a)) =? want) then
        Err (Sprintf "anchor %q (tag %d): digest length %d, want %d hex chars for digest type %d"
          [Anchor.ID a; pretty (Anchor.KeyTag a); pretty (String.length (Anchor.Digest a)); pretty want; pretty (Anchor.DigestType a)])
      else if negb (hex_decodes (Anchor.Digest a)) then
        Err (Sprintf "anchor %q (tag %d): digest is not valid hex" [Anchor.ID a; pretty (Anchor.KeyTag a)])
      else Ok tt
  end.

(** ** Which anchors are active *)

(** [now] lies in the validity period of the anchor; unreadable dates never do. *)
Definition anchor_active (now : Time) (a : Anchor.t) : bool :=
  match ParseRFC3339 (Anchor.ValidFrom a) with
  | Err _ => false
  | Ok validFrom =>
      if Before now validFrom then false
      else match Anchor.ValidUntil a with
           | None => true
           | Some u => match ParseRFC3339 u with
                       | Err _ => false
                       | Ok validUntil => negb (After now validUntil)
                       end
           end
  end.

Section loading.
Context `{DnsLib} `{ValidatorEnv}.
Local Notation V := (St VState.t string).

Definition GetActiveAnchors (anchors : option RootAnchors.t) : V (list Anchor.t) :=
  match anchors with
  | None => ret []
  | Some ra => now <-- Now ;; ret (List.filter (anchor_active now) (RootAnchors.Anchors ra))
  end.

Definition GetActivePinnedAnchors (anchors : option RootAnchors.t) : V (list Anchor.t) :=
  active <-- GetActiveAnchors anchors ;; ret (List.filter IsPinnedRootAnchor active).

(** ** finalizeAnchors *)

(** The date check: the unexpired anchors, or the first unreadable date. *)
Fixpoint unexpired (source : string) (now : Time) (anchors valid : list Anchor.t) : res string (list Anchor.t) :=
  match anchors with
  | [] => Ok valid
  | a :: rest =>
      match ParseRFC3339 (Anchor.ValidFrom a) with
      | Err err => Err (Sprintf "anchors from %s: anchor %q (tag %d) has an invalid validFrom %q: %w"
          [source; Anchor.ID a; pretty (Anchor.KeyTag a); Anchor.ValidFrom a; err])
      | Ok _ =>
          match Anchor.ValidUntil a with
          | None => unexpired source now rest (valid ++ [a])
          | Some u =>
              match ParseRFC3339 u with
              | Err err => Err (Sprintf "anchors from %s: anchor %q (tag %d) has an invalid validUntil %q: %w"
                  [source; Anchor.ID a; pretty (Anchor.KeyTag a); u; err])
              | Ok validUntil => unexpired source now rest (if After validUntil now then valid ++ [a] else valid)
              end
          end
      end
  end.

(** The structure check and the duplicate check. *)
Fixpoint check_structure (source : string) (seen : list (Z * Z)) (anchors : list Anchor.t) : res string unit :=
  match anchors with
  | [] => Ok tt
  | a :: rest =>
      match validateAnchorStructure a with
      | Err err => Err (Sprintf "anchors from %s: %w" [source; err])
      | Ok _ =>
          let key := (Anchor.KeyTag a, Anchor.DigestType a) in
          if bool_decide (key ∈ seen) then
            Err (Sprintf "anchors from %s: duplicate anchor for key tag %d digest type %d"
              [source; pretty (Anchor.KeyTag a); pretty (Anchor.DigestType a)])
          else check_structure source (key :: seen) rest
      end
  end.

Definition finalizeAnchors (anchors : RootAnchors.t) (source : string) : V RootAnchors.t :=
  if negb (String.eqb (RootAnchors.Zone anchors) "") && negb (String.eqb (RootAnchors.Zone anchors) ".") then
    fail (Sprintf "anchors from %s declare zone %q, want the root zone %q" [source; RootAnchors.Zone anchors; "."])
  else
    now <-- Now ;;
    validAnchors <-- lift_res (unexpired source now (RootAnchors.Anchors anchors) []) ;;
    lift_res (check_structure source [] validAnchors) ;;;
    if negb (Nat.eqb (length validAnchors) 0) && negb (hasPinnedRootAnchor validAnchors) then
      fail (Sprintf "anchors from %s carry no authoritative pinned root KSK; refusing possible wholesale anchor swap" [source])
    else
      usable <-- GetActivePinnedAnchors (Some (RootAnchors.mk "" "" "" validAnchors "")) ;;
      match usable, validAnchors with
      | [], [] => fail (Sprintf "anchors from %s contain no unexpired anchors" [source])
      | [], _ => fail (Sprintf "anchors from %s contain no currently active pinned root anchor (all future-dated or unpinned); unusable for validation" [source])
      | _, _ => ret ((anchors <| RootAnchors.Anchors := validAnchors |>) <| RootAnchors.LoadedFrom := source |>)
      end.

(** ** The sources *)

(** Reading a file, fetching a URL, and [json.Unmarshal]. *)
Class AnchorSources := {
  ReadFile : string -> res string (list Z);
  Fetch : string -> res string (list Z);
  Unmarshal : list Z -> res string RootAnchors.t;
  embeddedAnchorsDocument : list Z
}.
Context `{AnchorSources}.

Definition ParseAnchors (data : list Z) (source : string) : V RootAnchors.t :=
  match Unmarshal data with
  | Err err => fail (Sprintf "failed to parse anchors JSON: %w" [err])
  | Ok anchors => finalizeAnchors anchors source
  end.

Definition LoadAnchors (path : string) : V RootAnchors.t :=
  match ReadFile path with
  | Err err => fail (Sprintf "failed to read anchors file: %w" [err])
  | Ok data => ParseAnchors data path
  end.

Definition EmbeddedAnchorsSource : string := "built-in".
Definition LoadEmbeddedAnchors : V RootAnchors.t := ParseAnchors embeddedAnchorsDocument EmbeddedAnchorsSource.

Definition FetchAnchors (url : string) : V (RootAnchors.t * list Z) :=
  match Fetch url with
  | Err err => fail err
  | Ok data => anchors <-- ParseAnchors data url ;; ret (anchors, data)
  end.

Definition LoadAnchorsWithCache (path cachePath url : string) : V (RootAnchors.t * option (list Z)) :=
  file <-- catch (LoadAnchors path) ;;
  match file with
  | Ok anchors => ret (anchors, None)
  | Err fileErr =>
      cache <-- (if String.eqb cachePath "" then ret (Err "") else catch (LoadAnchors cachePath)) ;;
      match cache with
      | Ok anchors => ret (anchors, None)
      | Err cacheErr =>
          builtin <-- catch LoadEmbeddedAnchors ;;
          match builtin with
          | Ok anchors => ret (anchors, None)
          | Err builtinErr =>
              fetched <-- catch (FetchAnchors url) ;;
              match fetched with
              | Ok (anchors, data) => ret (anchors, Some data)
              | Err urlErr =>
                  fail (if String.eqb cachePath ""
                    then Sprintf "failed to load anchors from file (%s: %v), the built-in document (%v) and URL (%s): %w"
                      [path; fileErr; builtinErr; url; urlErr]
                    else Sprintf "failed to load anchors from file (%s: %v), cache (%s: %v), the built-in document (%v) and URL (%s): %w"
                      [path; fileErr; cachePath; cacheErr; builtinErr; url; urlErr])
              end
          end
      end
  end.
End loading.
