(* ===== verification/Chain.v ===== *)
(** * Chain: the links of the chain of trust
    (validator/internal/validator/dnssec.go, chain.go)

    The DS digest of a key, the keys a parent's DS records or the pinned anchors
    authenticate, and the link they establish.  Packing a name to wire format is
    the DNS library's ([ChainLib]); the digests are executable. *)

From stdpp Require Import base list strings gmap pretty.
From Stdlib Require Import ZArith Lia Ascii.
From S2P Require Import Prelude GoTime Names Digests Nsec Nsec3 Wire Authenticated Anchors.
Local Open Scope Z_scope.

(** ** chain.go *)

Definition NormalizeDomain (domain : string) : string :=
  let domain := ToLower (TrimSpace domain) in
  if String.eqb domain "" then "."
  else if HasSuffix domain "." then domain else domain +:+ ".".

(** What follows the first dot: [zone[strings.Index(zone, ".")+1:]]. *)
Fixpoint after_dot (s : string) : option string :=
  match s with
  | EmptyString => None
  | String c s' => if Ascii.eqb c "."%char then Some s' else after_dot s'
  end.

Definition GetParentZone (zone : string) : string :=
  let zone := ToLower (TrimSpace zone) in
  let zone := if HasSuffix zone "." then zone else zone +:+ "." in
  if String.eqb zone "." then ""
  else match after_dot zone with
       | None | Some "" => "."
       | Some rest => rest
       end.

Definition IsSubdomainOf (child parent : string) : bool :=
  let child := ToLower (TrimSpace child) in
  let parent := ToLower (TrimSpace parent) in
  let child := if HasSuffix child "." then child else child +:+ "." in
  let parent := if HasSuffix parent "." then parent else parent +:+ "." in
  if String.eqb parent "." then true
  else HasSuffix child ("." +:+ parent) || String.eqb child parent.

Definition IsTLD (zone : string) : bool :=
  let zone := NormalizeDomain zone in
  if String.eqb zone "." then false else Nat.eqb (GetZoneLabels zone) 1.
Definition IsRootZone (zone : string) : bool := String.eqb (NormalizeDomain zone) ".".

(** [labels[i:]] joined, for [i] from the last label to the first. *)
Definition SplitIntoZoneHierarchy (domain : string) : list string :=
  let domain := ToLower (TrimSpace domain) in
  if String.eqb domain "" then ["."]
  else
    let domain := if HasSuffix domain "." then domain else domain +:+ "." in
    if String.eqb domain "." then ["."]
    else
      let labels := Split "." (TrimSuffix domain ".") in
      "." :: map (fun i => Join (drop i labels) "." +:+ ".") (rev (seq 0 (length labels))).

(** ** dnssec.go: the DS digest *)

Module ChainLink.
Record t := mk {
  ParentZone : string; ChildZone : string; ParentDS : list DSRecord.t; ChildKSK : option DNSKEYRecord.t;
  DSMatchesKSK : bool; Algorithm : string; DigestType : string; KeyTag : Z
}.
#[global] Instance eta : Eta t := { eta r := mk (ParentZone r) (ChildZone r) (ParentDS r) (ChildKSK r) (DSMatchesKSK r)
  (Algorithm r) (DigestType r) (KeyTag r); eta_id r := ltac:(by destruct r) }.
End ChainLink.

(** [dnspkg.AlgorithmName], [dnspkg.DigestTypeName] *)
Definition AlgorithmName (alg : Z) : string :=
  match alg with
  | 5 => "RSASHA1" | 7 => "RSASHA1-NSEC3-SHA1" | 8 => "RSASHA256" | 10 => "RSASHA512"
  | 13 => "ECDSAP256SHA256" | 14 => "ECDSAP384SHA384" | 15 => "ED25519" | 16 => "ED448"
  | _ => "UNKNOWN"
  end.
Definition DigestTypeName (dt : Z) : string :=
  match dt with 1 => "SHA-1" | 2 => "SHA-256" | 4 => "SHA-384" | _ => "UNKNOWN" end.

(** [dns.PackDomainName] without compression, into a buffer of 256 octets. *)
Class ChainLib := { PackDomainName : string -> res string (list Z) }.

Section chain.
Context `{DnsLib} `{ChainLib}.

(** The RDATA of a key: flags, protocol, algorithm, public key. *)
Definition dnskey_rdata (k : DNSKEYRecord.t) (publicKey : list Z) : list Z :=
  [Z.shiftr (DNSKEYRecord.Flags k) 8 mod 256; Z.land (DNSKEYRecord.Flags k) 0xFF; DNSKEYRecord.Protocol k; DNSKEYRecord.Algorithm k]
  ++ publicKey.

Definition ComputeDSDigestFromDNSKEY (zone : string) (dnskey : DNSKEYRecord.t) (digestType : Z) : res string string :=
  match PackDomainName (ToLower zone) with
  | Err err => Err (Sprintf "failed to pack zone name: %w" [err])
  | Ok wireZone =>
      match base64_decode (DNSKEYRecord.PublicKey dnskey) with
      | Err err => Err (Sprintf "failed to decode public key: %w" [err])
      | Ok publicKey =>
          let data := wireZone ++ dnskey_rdata dnskey publicKey in
          let encode digest := Ok (ToUpper (hex_encode digest)) in
          if digestType =? 1 then encode (sha1_sum data)
          else if digestType =? 2 then encode (Sum256 data)
          else if digestType =? 4 then encode (Sum384 data)
          else Err (Sprintf "unsupported digest type: %d" [pretty digestType])
      end
  end.

Definition VerifyDSMatchesDNSKEY (ds : DSRecord.t) (dnskey : DNSKEYRecord.t) (zone : string) : bool :=
  if negb (DSRecord.KeyTag ds =? DNSKEYRecord.KeyTag dnskey) then false
  else if negb (DSRecord.Algorithm ds =? DNSKEYRecord.Algorithm dnskey) then false
  else match ComputeDSDigestFromDNSKEY zone dnskey (DSRecord.DigestType ds) with
       | Err _ => false
       | Ok computedDigest => EqualFold computedDigest (DSRecord.Digest ds)
       end.

Definition SupportedDNSKEYAlgorithm (alg : Z) : bool := existsb (Z.eqb alg) [5; 7; 8; 10; 13; 14; 15].
Definition SupportedDSDigestType (dt : Z) : bool := existsb (Z.eqb dt) [1; 2; 4].

Definition supported_ds (d : DSRecord.t) : bool :=
  SupportedDNSKEYAlgorithm (DSRecord.Algorithm d) && SupportedDSDigestType (DSRecord.DigestType d).
Definition SupportedDSRecords (ds : list DSRecord.t) : list DSRecord.t * list DSRecord.t :=
  fold_left (fun '(supported, unsupported) d =>
    if supported_ds d then (supported ++ [d], unsupported) else (supported, unsupported ++ [d])) ds ([], []).

(** ** Which keys a DS RRset authenticates *)

(** The first eligible key of the DS record's tag that it matches. *)
Definition link_key (ds : DSRecord.t) (childDNSKEY : list DNSKEYRecord.t) (zone : string) : option DNSKEYRecord.t :=
  List.find (fun k => (DNSKEYRecord.KeyTag k =? DSRecord.KeyTag ds) && EligibleForVerification k &&
    VerifyDSMatchesDNSKEY ds k zone) childDNSKEY.

Fixpoint first_link (parentDS : list DSRecord.t) (childDNSKEY : list DNSKEYRecord.t) (zone : string)
    : option (DSRecord.t * DNSKEYRecord.t) :=
  match parentDS with
  | [] => None
  | ds :: rest => match link_key ds childDNSKEY zone with
                  | Some k => Some (ds, k)
                  | None => first_link rest childDNSKEY zone
                  end
  end.

(** The link, present also beside the "no matching DNSKEY" error. *)
Definition ValidateChainLink (parentDS : list DSRecord.t) (childDNSKEY : list DNSKEYRecord.t) (zone : string)
    : option ChainLink.t * option string :=
  let link := ChainLink.mk (GetParentZone zone) zone parentDS None false "" "" 0 in
  match parentDS with
  | [] => (None, Some "no DS records in parent zone")
  | _ =>
      match first_link parentDS childDNSKEY zone with
      | None => (Some link, Some "no matching DNSKEY found for any DS record")
      | Some (ds, k) =>
          (Some (((((link <| ChainLink.Algorithm := AlgorithmName (DSRecord.Algorithm ds) |>)
            <| ChainLink.DigestType := DigestTypeName (DSRecord.DigestType ds) |>)
            <| ChainLink.KeyTag := DSRecord.KeyTag ds |>)
            <| ChainLink.ChildKSK := Some k |>)
            <| ChainLink.DSMatchesKSK := true |>), None)
      end
  end.

(** The two loops over records and keys: [matches] says whether a record (a DS or an
    anchor) authenticates a key; a key is taken once, by its position. *)
Fixpoint collect_keys {A} (matches : A -> DNSKEYRecord.t -> bool) (keys : list DNSKEYRecord.t) (records : list A)
    (seen : list nat) : list (nat * DNSKEYRecord.t) :=
  match records with
  | [] => []
  | r :: rest =>
      let new := List.filter (fun '(i, k) => negb (existsb (Nat.eqb i) seen) && matches r k) (combine (seq 0 (length keys)) keys) in
      new ++ collect_keys matches keys rest (map fst new ++ seen)
  end.

Definition ds_authenticates (zone : string) (ds : DSRecord.t) (k : DNSKEYRecord.t) : bool :=
  (DNSKEYRecord.KeyTag k =? DSRecord.KeyTag ds) && keyBelongsToZone k zone && EligibleForVerification k &&
  VerifyDSMatchesDNSKEY ds k zone.

Definition CollectDSMatchedKeys (parentDS : list DSRecord.t) (childDNSKEY : list DNSKEYRecord.t) (zone : string)
    : list DNSKEYRecord.t :=
  map snd (collect_keys (ds_authenticates zone) childDNSKEY parentDS []).

(** The anchor's numbers are truncated to the width of the record's fields. *)
Definition anchor_digest_matches (anchor : Anchor.t) (k : DNSKEYRecord.t) : bool :=
  (DNSKEYRecord.KeyTag k =? uint16_mod (Anchor.KeyTag anchor)) && (DNSKEYRecord.Algorithm k =? Anchor.Algorithm anchor mod 256) &&
  match ComputeDSDigestFromDNSKEY "." k (Anchor.DigestType anchor mod 256) with
  | Err _ => false
  | Ok computedDigest => EqualFold computedDigest (Anchor.Digest anchor)
  end.

Definition anchor_authenticates (anchor : Anchor.t) (k : DNSKEYRecord.t) : bool :=
  IsPinnedRootAnchor anchor && keyBelongsToZone k "." && EligibleForVerification k && anchor_digest_matches anchor k.

Definition CollectAnchorMatchedKeys (dnskeys : list DNSKEYRecord.t) (anchors : list Anchor.t) : list DNSKEYRecord.t :=
  map snd (collect_keys anchor_authenticates dnskeys anchors []).

(** ** The root *)

Fixpoint root_link (dnskeys : list DNSKEYRecord.t) (anchors : list Anchor.t) : option (Anchor.t * DNSKEYRecord.t) :=
  match anchors with
  | [] => None
  | a :: rest =>
      if negb (IsPinnedRootAnchor a) then root_link dnskeys rest
      else match List.find (anchor_digest_matches a) dnskeys with
           | Some k => Some (a, k)
           | None => root_link dnskeys rest
           end
  end.

Definition VerifyRootTrustAnchor (dnskeys : list DNSKEYRecord.t) (anchors : list Anchor.t) : ChainLink.t * option string :=
  let link := ChainLink.mk "" "." [] None false "" "" 0 in
  match root_link dnskeys anchors with
  | Some (anchor, k) =>
      (((((link <| ChainLink.ChildKSK := Some k |>)
        <| ChainLink.DSMatchesKSK := true |>)
        <| ChainLink.Algorithm := Anchor.AlgorithmName anchor |>)
        <| ChainLink.DigestType := Anchor.DigestTypeName anchor |>)
        <| ChainLink.KeyTag := uint16_mod (Anchor.KeyTag anchor) |>, None)
  | None => (link, Some "no DNSKEY matches any trust anchor (digest verification failed)")
  end.

(** ** Wildcard answers *)

(** The source wildcard of an answer whose owner has more labels than its
    signature says; empty when it was not expanded. *)
Definition DetectWildcardSynthesis (ownerName : string) (labels : Z) : string :=
  if labels <? Z.of_nat (GetZoneLabels ownerName) then
    let ls := Split "." (TrimSuffix (NormalizeDomain ownerName) ".") in
    if labels <? Z.of_nat (length ls)
    then "*." +:+ Join (drop (length ls - Z.to_nat labels) ls) "." +:+ "."
    else ""
  else "".

(** ** Lists of keys and signatures *)

Definition GetKSKs (dnskeys : list DNSKEYRecord.t) : list DNSKEYRecord.t := List.filter DNSKEYRecord.IsKSK dnskeys.
Definition GetZSKs (dnskeys : list DNSKEYRecord.t) : list DNSKEYRecord.t := List.filter DNSKEYRecord.IsZSK dnskeys.
Definition FindRRSIGForType (rrtype : Z) (rrsigs : list RRSIGRecord.t) : option RRSIGRecord.t :=
  List.find (fun r => RRSIGRecord.TypeCovered r =? rrtype) rrsigs.
Definition FindRRSIGsForType (rrtype : Z) (rrsigs : list RRSIGRecord.t) : list RRSIGRecord.t :=
  List.filter (fun r => RRSIGRecord.TypeCovered r =? rrtype) rrsigs.
Definition FindDNSKEYByKeyTag (keyTag : Z) (dnskeys : list DNSKEYRecord.t) : option DNSKEYRecord.t :=
  List.find (fun k => DNSKEYRecord.KeyTag k =? keyTag) dnskeys.
Definition FindDSByKeyTag (keyTag : Z) (dsRecords : list DSRecord.t) : option DSRecord.t :=
  List.find (fun d => DSRecord.KeyTag d =? keyTag) dsRecords.
End chain.
