(* ===== verification/Resolver.v ===== *)
(** * Resolver: queries, nameservers and zone cuts
    (validator/internal/dns/query.go, resolver.go)

    The network is one exchange over the transport, UDP with its TCP retry, whose
    outcome may differ at every reading; the egress policy stands in front of it.
    Everything above the exchange is translated. *)

From stdpp Require Import base list strings gmap pretty.
From Stdlib Require Import ZArith Lia Ascii.
From S2P Require Import Prelude GoTime Names Ip Egress Nsec Nsec3 Wire Authenticated.
Local Open Scope Z_scope.

(** ** [sort.Slice] by a string key, on keys that differ *)

Definition string_leb (a b : string) : bool := match string_compare a b with Gt => false | _ => true end.
Fixpoint insert_by {A} (key : A -> string) (x : A) (l : list A) : list A :=
  match l with
  | [] => [x]
  | y :: l' => if string_leb (key x) (key y) then x :: l else y :: insert_by key x l'
  end.
Definition sort_by {A} (key : A -> string) (l : list A) : list A := foldr (insert_by key) [] l.

(** What one exchange brings back. *)
Module Exchanged.
Record t := mk { resp : res string Msg.t; rtt : Duration; truncated : bool }.
End Exchanged.

(** The transport at a reading; [Msg.Pack]; and the resolver's configuration. *)
Class Network := {
  ExchangeContext : nat -> string -> string -> Z -> bool -> Exchanged.t;
  Pack : Msg.t -> option (list Z);
  recursive : string;
  egress : option EgressPolicy.t
}.

Definition RCodeName (rcode : Z) : string :=
  match rcode with
  | 0 => "NOERROR" | 1 => "FORMERR" | 2 => "SERVFAIL" | 3 => "NXDOMAIN" | 4 => "NOTIMP" | 5 => "REFUSED"
  | _ => "UNKNOWN"
  end.

Definition maxAliasHops : nat := 8.
Definition MaxNameserversPerZone : nat := 32.
Definition MaxAddressesPerNameserver : nat := 16.
Definition MaxAddressesPerZone : nat := 64.

Module NSSet.
Record t := mk { Records : list NSRecord.t; Addresses : list string; Truncation : list string }.
#[global] Instance eta : Eta t := { eta r := mk (Records r) (Addresses r) (Truncation r); eta_id r := ltac:(by destruct r) }.
End NSSet.
Definition Truncated (s : NSSet.t) : bool := match NSSet.Truncation s with [] => false | _ => true end.

(** *** Addresses *)

Definition canonicalIP (ip : list Z) : string := IPString (default ip (To4 ip)).

Definition UniqueAddresses (addrs : list string) : list string :=
  dedupe_by (fun a => a) []
    (map (fun a => match ParseIP (TrimSpace a) with Some ip => canonicalIP ip | None => a end) addrs).

Definition uniqueIPs (ips : list (list Z)) : list (list Z) :=
  sort_by canonicalIP (map (fun ip => default ip (To4 ip)) (dedupe_by canonicalIP [] ips)).

Section resolver.
Context `{DnsLib} `{WireLib} `{ValidatorEnv} `{Network}.
Local Notation V := (St VState.t string).

(** ** query.go *)

Definition exchange (server qname : string) (qtype : Z) (recurse : bool) : V Exchanged.t :=
  match Permit egress server with
  | Some err => ret (Exchanged.mk (Err err) 0 false)
  | None => n <-- reading ;; ret (ExchangeContext n server (Fqdn qname) qtype recurse)
  end.

Definition empty_result (server : string) : QueryResult.t :=
  QueryResult.mk server server 0 false false 0 "" "" [] [] [] [] [] [] [] [] [] [].

(** [QueryWithRecursion]: a failed exchange is a result with its error. *)
Definition QueryWithRecursion (server qname : string) (qtype : Z) (recurse : bool) : V QueryResult.t :=
  ex <-- exchange server qname qtype recurse ;;
  let result := ((empty_result server) <| QueryResult.RTT := Exchanged.rtt ex |>) <| QueryResult.Truncated := Exchanged.truncated ex |> in
  match Exchanged.resp ex with
  | Err err => ret (result <| QueryResult.Error := err |>)
  | Ok resp =>
      let result := ((result <| QueryResult.RCode := Msg.Rcode resp |>)
        <| QueryResult.RCodeName := RCodeName (Msg.Rcode resp) |>)
        <| QueryResult.Authoritative := Msg.Authoritative resp |> in
      let result := match Pack resp with Some raw => result <| QueryResult.RawResponse := raw |> | None => result end in
      now <-- Now ;; ret (parseResponse resp now result)
  end.

Definition Query (server qname : string) (qtype : Z) : V QueryResult.t := QueryWithRecursion server qname qtype false.
Definition QueryDNSKEYAuthoritative (server zone : string) : V QueryResult.t := Query server zone TypeDNSKEY.
Definition QueryDSAuthoritative (server zone : string) : V QueryResult.t := Query server zone TypeDS.
Definition QueryRecordAuthoritative (server name : string) (qtype : Z) : V QueryResult.t := Query server name qtype.

(** ** resolver.go: nameservers *)

Definition exchangeRecursive (qname : string) (qtype : Z) : V Msg.t :=
  ex <-- exchange recursive qname qtype true ;;
  match Exchanged.resp ex with
  | Err err => fail (Sprintf "%s %s lookup at %s: %w" [qname; TypeString qtype; recursive; err])
  | Ok resp => ret resp
  end.

Definition recordsOwnedBy (rrs : list RR) (owner : string) (rrtype : Z) : list RR :=
  List.filter (fun rr => (rr_type rr =? rrtype) && String.eqb (CanonicalName (rr_name rr)) (CanonicalName owner)) rrs.

Definition canonicalNSRecords (rs : list NSRecord.t) : list NSRecord.t :=
  sort_by NSRecord.Name
    (map (fun ns => NSRecord.mk (NSRecord.Owner ns) (NSRecord.Class_ ns) (NSRecord.Section_ ns) (CanonicalName (NSRecord.Name ns))
        (NSRecord.Addresses ns) (NSRecord.LookupErrors ns))
      (dedupe_by (fun ns => CanonicalName (NSRecord.Name ns)) [] rs)).

Definition ns_records (section : string) (rrs : list RR) : list NSRecord.t :=
  omap (fun rr => match rr with RR_NS h ns => Some (NSFromRR h ns section) | _ => None end) rrs.

Definition ResolveNS (zone : string) : V (list NSRecord.t) :=
  resp <-- exchangeRecursive zone TypeNS ;;
  if Msg.Rcode resp =? RcodeNameError then ret []
  else if negb (Msg.Rcode resp =? RcodeSuccess) then
    fail (Sprintf "%s NS lookup: recursive resolver answered %s" [zone; RCodeName (Msg.Rcode resp)])
  else
    let nsRecords := ns_records SectionAnswer (recordsOwnedBy (Msg.Answer resp) zone TypeNS) in
    ret (canonicalNSRecords (match nsRecords with
                             | [] => ns_records SectionAuthority (recordsOwnedBy (Msg.Ns resp) zone TypeNS)
                             | _ => nsRecords
                             end)).

(** *** Addresses of a host *)

Definition cname_at (owner : string) (rrs : list RR) : string :=
  match List.find (fun rr => match rr with RR_CNAME h _ => String.eqb (CanonicalName (Hdr.Name h)) owner | _ => false end) rrs with
  | Some (RR_CNAME _ target) => CanonicalName target
  | _ => ""
  end.

(** The alias hops inside one answer. *)
Fixpoint alias_owner (hops : nat) (answer : list RR) (owner : string) : string :=
  match hops with
  | O => owner
  | S hops' =>
      let next := cname_at owner answer in
      if String.eqb next "" || String.eqb next owner then owner else alias_owner hops' answer next
  end.

Definition answerAddresses (msg : Msg.t) (host : string) (rrtype : Z) : list (list Z) :=
  let owner := alias_owner maxAliasHops (Msg.Answer msg) (CanonicalName host) in
  omap (fun rr => match rr with RR_A _ a => Some a | RR_AAAA _ a => Some a | _ => None end)
    (recordsOwnedBy (Msg.Answer msg) owner rrtype).

(** One address family: its addresses, or the problem. *)
Definition family_lookup (hostname name : string) (qtype : Z) : V (res string (list (list Z))) :=
  r <-- catch (exchangeRecursive hostname qtype) ;;
  match r with
  | Err ferr => ret (Err (Sprintf "%s lookup failed: %v" [name; ferr]))
  | Ok resp =>
      if Msg.Rcode resp =? RcodeSuccess then ret (Ok (answerAddresses resp hostname qtype))
      else if Msg.Rcode resp =? RcodeNameError then ret (Ok [])
      else ret (Err (Sprintf "%s lookup: recursive resolver answered %s" [name; RCodeName (Msg.Rcode resp)]))
  end.

Definition problem_of {A} (r : res string A) : list string := match r with Err e => [e] | Ok _ => [] end.
Definition found_of {A} (r : res string (list A)) : list A := match r with Err _ => [] | Ok l => l end.

(** [ResolveAddressesDetailed]: addresses, problems, and the error when neither
    family succeeded. *)
Definition ResolveAddressesDetailed (hostname : string) : V (list (list Z) * list string * option string) :=
  a <-- family_lookup hostname "A" TypeA ;;
  aaaa <-- family_lookup hostname "AAAA" TypeAAAA ;;
  let problems := problem_of a ++ problem_of aaaa in
  match a, aaaa with
  | Err _, Err _ => ret ([], problems, Some (Sprintf "address lookup for %s failed: %s" [hostname; Join problems "; "]))
  | _, _ => ret (uniqueIPs (found_of a ++ found_of aaaa), problems, None)
  end.

(** The addresses of one name kept for the zone's query list. *)
Fixpoint keep_addresses (addrs : list (list Z)) (queried : list string) (kept : list (list Z)) : list string * list (list Z) :=
  match addrs with
  | [] => (queried, kept)
  | ip :: rest =>
      let key := canonicalIP ip in
      if str_in queried key then keep_addresses rest queried (kept ++ [ip])
      else if Nat.leb MaxAddressesPerZone (length queried) then keep_addresses rest queried kept
      else keep_addresses rest (queried ++ [key]) (kept ++ [ip])
  end.

Definition add_nameserver (zone : string) (ns : NSRecord.t) (found : list (list Z) * list string * option string)
    (set : NSSet.t) : NSSet.t :=
  let '(addrs, problems, lookupErr) := found in
  let lookupErrors := match lookupErr, problems with Some e, [] => [e] | _, _ => problems end in
  let over := Nat.ltb MaxAddressesPerNameserver (length addrs) in
  let set := if over then set <| NSSet.Truncation := NSSet.Truncation set ++
      [Sprintf "nameserver %s has %d distinct addresses; only the first %d were considered"
        [NSRecord.Name ns; pretty (length addrs); pretty MaxAddressesPerNameserver]] |> else set in
  let addrs := if over then take MaxAddressesPerNameserver addrs else addrs in
  let '(queried, kept) := keep_addresses addrs (NSSet.Addresses set) [] in
  let set := set <| NSSet.Addresses := queried |> in
  let dropped := (length addrs - length kept)%nat in
  let set := if Nat.ltb 0 dropped then set <| NSSet.Truncation := NSSet.Truncation set ++
      [Sprintf "%s presents more than %d distinct nameserver addresses; %d of %s's were not considered"
        [zone; pretty MaxAddressesPerZone; pretty dropped; NSRecord.Name ns]] |> else set in
  set <| NSSet.Records := NSSet.Records set ++
    [NSRecord.mk (NSRecord.Owner ns) (NSRecord.Class_ ns) (NSRecord.Section_ ns) (NSRecord.Name ns) kept lookupErrors] |>.

Fixpoint resolve_nameservers (zone : string) (nsRecords : list NSRecord.t) (set : NSSet.t) : V NSSet.t :=
  match nsRecords with
  | [] => ret set
  | ns :: rest =>
      err <-- ctxErr ;;
      match err with
      | Some e => fail e
      | None =>
          found <-- ResolveAddressesDetailed (NSRecord.Name ns) ;;
          resolve_nameservers zone rest (add_nameserver zone ns found set)
      end
  end.

Definition ResolveNSSet (zone : string) : V NSSet.t :=
  nsRecords <-- ResolveNS zone ;;
  let set := NSSet.mk [] [] [] in
  if Nat.ltb MaxNameserversPerZone (length nsRecords) then
    resolve_nameservers zone (take MaxNameserversPerZone nsRecords)
      (set <| NSSet.Truncation := [Sprintf "%s delegates %d distinct nameservers; only the first %d by name were considered"
        [zone; pretty (length nsRecords); pretty MaxNameserversPerZone]] |>)
  else resolve_nameservers zone nsRecords set.

(** ** Zone cuts *)

Definition CheckZoneCut (domain : string) : V bool :=
  resp <-- exchangeRecursive domain TypeNS ;;
  if Msg.Rcode resp =? RcodeServerFailure then ret true
  else if negb (Msg.Rcode resp =? RcodeSuccess) then ret false
  else ret (negb (Nat.eqb (length (recordsOwnedBy (Msg.Answer resp) domain TypeNS)) 0)).

(** [interrupted]: the context, or its deadline on the clock, is over; one reading
    of the context stands for both. *)
Definition interrupted : V unit := err <-- ctxErr ;; match err with Some e => fail e | None => ret tt end.

(** The candidate of the labels from [i] on. *)
Definition cut_candidate (labels : list string) : string :=
  match labels with
  | [] => ""
  | [l] => Fqdn l
  | l :: rest => Fqdn (l +:+ "." +:+ Join rest ".")
  end.

Fixpoint zone_cuts (candidates zones : list string) : V (list string) :=
  match candidates with
  | [] => ret zones
  | candidate :: rest =>
      isZone <-- catch (CheckZoneCut candidate) ;;
      interrupted ;;;
      zone_cuts rest (match isZone with
                      | Ok false => zones
                      | _ => zones ++ [candidate]
                      end)
  end.

Definition DiscoverZoneCuts (domain : string) : V (list string) :=
  interrupted ;;;
  let domain := Fqdn domain in
  if String.eqb domain "." then ret ["."]
  else
    let labels := SplitDomainName domain in
    zone_cuts (map (fun i => cut_candidate (drop i labels)) (rev (seq 0 (length labels)))) ["."].
End resolver.
