(* ===== verification/Results.v ===== *)
(** * Results: what a validation reports
    (validator/internal/validator/result.go, warnings.go)

    The result structures without their wall-clock fields (timestamps and
    durations), and the informational RFC checks. *)

From stdpp Require Import base list strings gmap pretty.
From Stdlib Require Import ZArith Lia.
From S2P Require Import Prelude GoTime Names Nsec Nsec3 Wire Authenticated Chain.
Local Open Scope Z_scope.

Inductive ValidationStatus := StatusSecure | StatusInsecure | StatusBogus | StatusIndeterminate | StatusValidating.
#[global] Instance ValidationStatus_eq_dec : EqDecision ValidationStatus. Proof. solve_decision. Defined.

Inductive DSMatchResult := DSMatchFull | DSMatchPartial | DSMatchNone | DSMatchNoRDAP | DSMatchUnsigned.
#[global] Instance DSMatchResult_eq_dec : EqDecision DSMatchResult. Proof. solve_decision. Defined.

Module RDAPSecureDNS.
Record t := mk { DelegationSigned : bool; DSData : list DSRecord.t; DSMatch : DSMatchResult; Error : string }.
#[global] Instance eta : Eta t := { eta r := mk (DelegationSigned r) (DSData r) (DSMatch r) (Error r); eta_id r := ltac:(by destruct r) }.
End RDAPSecureDNS.

Module AddressResult.
Record t := mk { IP : string; Status : ValidationStatus; RTTNs : Duration; Error : string; Response : option QueryResult.t }.
#[global] Instance eta : Eta t := { eta r := mk (IP r) (Status r) (RTTNs r) (Error r) (Response r); eta_id r := ltac:(by destruct r) }.
End AddressResult.

Module NameserverResult.
Record t := mk { Name : string; Addresses : list AddressResult.t }.
End NameserverResult.

Module Disagreement.
Record t := mk { Server : string; IP : string; Issue : string; Expected : string; Got : string }.
End Disagreement.

Module RecordValidation.
Record t := mk {
  Name : string; RecordType : string; RecordCount : Z; RRSIGVerified : bool; SigningKeyTag : Z;
  DenialProof : option NSECProof.t; Wildcard : bool; WildcardSource : string; WildcardProofVerified : bool;
  WildcardProof : option NSECProof.t; ServerDisagreements : list string; Target : string;
  SynthesizedFrom : string; Error : string
}.
#[global] Instance eta : Eta t := { eta r := mk (Name r) (RecordType r) (RecordCount r) (RRSIGVerified r) (SigningKeyTag r)
  (DenialProof r) (Wildcard r) (WildcardSource r) (WildcardProofVerified r) (WildcardProof r) (ServerDisagreements r) (Target r)
  (SynthesizedFrom r) (Error r); eta_id r := ltac:(by destruct r) }.
Definition zero : t := mk "" "" 0 false 0 None false "" false None [] "" "" "".
End RecordValidation.

Module DSValidation.
Record t := mk { ParentZone : string; DSCount : Z; RRSIGVerified : bool; ParentSigningKey : Z; Error : string }.
#[global] Instance eta : Eta t := { eta r := mk (ParentZone r) (DSCount r) (RRSIGVerified r) (ParentSigningKey r) (Error r);
  eta_id r := ltac:(by destruct r) }.
End DSValidation.

Module ZoneResult.
Record t := mk {
  Zone : string; Status : ValidationStatus; Nameservers : list NameserverResult.t;
  DNSKEY : list DNSKEYRecord.t; DS : list DSRecord.t; RRSIG : list RRSIGRecord.t;
  NSEC : list NSECRecord.t; NSEC3 : list NSEC3Record.t; NSEC3OptOut : bool; WildcardSource : string;
  DenialProof : option NSECProof.t; RecordValidation : option RecordValidation.t; DSValidation : option DSValidation.t;
  RDAPSecureDNS : option RDAPSecureDNS.t; ChainLink : option ChainLink.t; Disagreements : list Disagreement.t;
  Warnings : list string; Errors : list string
}.
#[global] Instance eta : Eta t := { eta r := mk (Zone r) (Status r) (Nameservers r) (DNSKEY r) (DS r) (RRSIG r) (NSEC r) (NSEC3 r)
  (NSEC3OptOut r) (WildcardSource r) (DenialProof r) (RecordValidation r) (DSValidation r) (RDAPSecureDNS r) (ChainLink r)
  (Disagreements r) (Warnings r) (Errors r); eta_id r := ltac:(by destruct r) }.
End ZoneResult.

Definition NewZoneResult (zone : string) : ZoneResult.t :=
  ZoneResult.mk zone StatusValidating [] [] [] [] [] [] false "" None None None None None [] [] [].
Definition AddZoneWarning (z : ZoneResult.t) (msg : string) : ZoneResult.t :=
  z <| ZoneResult.Warnings := ZoneResult.Warnings z ++ [msg] |>.
Definition AddZoneError (z : ZoneResult.t) (msg : string) : ZoneResult.t :=
  z <| ZoneResult.Errors := ZoneResult.Errors z ++ [msg] |>.

Module CNAMEChainResult.
Record t := mk { Source : string; Target : string; Result : ValidationStatus; Chain : list ZoneResult.t; Error : string }.
End CNAMEChainResult.

Module ValidationResult.
Record t := mk {
  Domain : string; QueryType : string; Result : ValidationStatus; Chain : list ZoneResult.t;
  CNAMEChains : list CNAMEChainResult.t; Errors : list string; Warnings : list string
}.
#[global] Instance eta : Eta t := { eta r := mk (Domain r) (QueryType r) (Result r) (Chain r) (CNAMEChains r) (Errors r) (Warnings r);
  eta_id r := ltac:(by destruct r) }.
End ValidationResult.

(** ** warnings.go *)

Definition deprecatedAlgorithms (alg : Z) : option string :=
  match alg with
  | 5 => Some "RSASHA1 (RFC 8624: MUST NOT use for signing, considered weak)"
  | 7 => Some "RSASHA1-NSEC3-SHA1 (RFC 8624: MUST NOT use for signing, considered weak)"
  | _ => None
  end.
Definition deprecatedDigestTypes (dt : Z) : option string :=
  match dt with
  | 1 => Some "SHA-1 (RFC 8624: MUST NOT use, cryptographically weak)"
  | _ => None
  end.
Definition NSEC3IdealIterations : Z := 10.

(** One warning per deprecated number, in order of first appearance. *)
Fixpoint deprecation_warnings (table : Z -> option string) (format : string) (seen numbers : list Z) : list string :=
  match numbers with
  | [] => []
  | n :: rest =>
      match table n with
      | Some msg => if existsb (Z.eqb n) seen then deprecation_warnings table format seen rest
                    else Sprintf format [pretty n; msg] :: deprecation_warnings table format (n :: seen) rest
      | None => deprecation_warnings table format seen rest
      end
  end.

Definition CheckAlgorithmDeprecation (dnskeys : list DNSKEYRecord.t) : list string :=
  deprecation_warnings deprecatedAlgorithms "Zone uses deprecated algorithm %d: %s" [] (map DNSKEYRecord.Algorithm dnskeys).
Definition CheckRRSIGAlgorithmDeprecation (rrsigs : list RRSIGRecord.t) : list string :=
  deprecation_warnings deprecatedAlgorithms "RRSIG uses deprecated algorithm %d: %s" [] (map RRSIGRecord.Algorithm rrsigs).
Definition CheckDigestTypeDeprecation (dsRecords : list DSRecord.t) : list string :=
  deprecation_warnings deprecatedDigestTypes "DS uses deprecated digest type %d: %s" [] (map DSRecord.DigestType dsRecords).

(** The first record above a threshold decides. *)
Fixpoint CheckNSEC3Iterations (nsec3Records : list NSEC3Record.t) : list string :=
  match nsec3Records with
  | [] => []
  | r :: rest =>
      let i := NSEC3Record.Iterations r in
      if NSEC3MaxRecommendedIterations <? i then
        [Sprintf "NSEC3 iterations=%d exceeds RFC 9276 maximum (%d); high iterations provide no security benefit and are a DoS vector"
          [pretty i; pretty NSEC3MaxRecommendedIterations]]
      else if NSEC3IdealIterations <? i then
        [Sprintf "NSEC3 iterations=%d above RFC 9276 recommendation (%d); consider reducing" [pretty i; pretty NSEC3IdealIterations]]
      else CheckNSEC3Iterations rest
  end.

Definition CheckNSEC3OptOut (nsec3Records : list NSEC3Record.t) : bool * string :=
  if existsb (fun r => negb (Z.land (NSEC3Record.Flags r) NSEC3FlagOptOut =? 0)) nsec3Records
  then (true, "NSEC3 opt-out enabled (RFC 5155): insecure delegations may not be cryptographically proven. Common for large TLDs.")
  else (false, "").
