(* ===== verification/Rdap.v ===== *)
(** * Rdap: the registry's DS records beside the DNS ones
    (validator/internal/validator/validator.go: queryRDAPSecureDNS,
    validateRDAPDS, compareDSRecords; validator/internal/rdap/types.go)

    The RDAP client itself (HTTP and JSON) and the public suffix list are the class
    [RdapEnv]; the narrowing of the registry's integers to wire widths and the
    comparison with the DS RRset are translated. *)

From stdpp Require Import base list strings gmap pretty.
From Stdlib Require Import ZArith Lia.
From S2P Require Import Prelude GoTime Names Nsec Wire Authenticated Anchors Chain Results.
Local Open Scope Z_scope.

Module DSData.
Record t := mk { KeyTag : Z; Algorithm : Z; DigestType : Z; Digest : string }.
End DSData.
Module SecureDNS.
Record t := mk { DelegationSigned : bool; DSData : list DSData.t }.
End SecureDNS.

Class RdapEnv := {
  GetSecureDNS : nat -> string -> res string (option SecureDNS.t);
  EffectiveTLDPlusOne : string -> option string
}.

Definition rdapDigestLengths (dt : Z) : option Z :=
  match dt with 1 => Some 20 | 2 => Some 32 | 4 => Some 48 | _ => None end.

Definition out_of_range (x max : Z) : bool := (x <? 0) || (max <? x).

Definition validateRDAPDS (ds : DSData.t) : res string DSRecord.t :=
  if out_of_range (DSData.KeyTag ds) 0xFFFF then Err (Sprintf "keyTag %d out of range 0..65535" [pretty (DSData.KeyTag ds)])
  else if out_of_range (DSData.Algorithm ds) 0xFF then Err (Sprintf "algorithm %d out of range 0..255" [pretty (DSData.Algorithm ds)])
  else if out_of_range (DSData.DigestType ds) 0xFF then Err (Sprintf "digestType %d out of range 0..255" [pretty (DSData.DigestType ds)])
  else
    match rdapDigestLengths (DSData.DigestType ds) with
    | None => Err (Sprintf "digestType %d is not a supported DS digest type (1, 2 or 4)" [pretty (DSData.DigestType ds)])
    | Some want =>
        let digest := ToUpper (TrimSpace (DSData.Digest ds)) in
        if negb (hex_decodes digest) then Err "digest is not hexadecimal"
        else
          let raw := Z.of_nat (String.length digest) / 2 in
          if negb (raw =? want) then
            Err (Sprintf "digest length %d bytes does not match digest type %d (%d bytes)"
              [pretty raw; pretty (DSData.DigestType ds); pretty want])
          else Ok (DSRecord.mk "" 0 "" (DSData.KeyTag ds) (DSData.Algorithm ds) (DSData.DigestType ds) digest)
    end.

Definition rdap_key (ds : DSRecord.t) : string :=
  Sprintf "%d-%d-%d-%s" [pretty (DSRecord.KeyTag ds); pretty (DSRecord.Algorithm ds); pretty (DSRecord.DigestType ds); ToUpper (DSRecord.Digest ds)].

Definition compareDSRecords (dnsDS rdapDS : list DSRecord.t) : DSMatchResult :=
  match dnsDS, rdapDS with
  | [], _ | _, [] => DSMatchNone
  | _, _ =>
      let normalizedDNS := map rdap_key dnsDS in
      let matchCount := length (List.filter (fun ds => str_in normalizedDNS (rdap_key ds)) rdapDS) in
      if Nat.eqb matchCount 0 then DSMatchNone
      else if Nat.eqb matchCount (length rdapDS) && Nat.eqb matchCount (length dnsDS) then DSMatchFull
      else DSMatchPartial
  end.

(** The records that validate, and the notes on those that do not, numbered from
    [i]. *)
Fixpoint convert_rdap (i : nat) (data : list DSData.t) : list DSRecord.t * list string :=
  match data with
  | [] => ([], [])
  | ds :: rest =>
      let '(recs, malformed) := convert_rdap (S i) rest in
      match validateRDAPDS ds with
      | Err err => (recs, Sprintf "record %d: %v" [pretty i; err] :: malformed)
      | Ok rec => (rec :: recs, malformed)
      end
  end.

Section rdap.
Context `{DnsLib} `{WireLib} `{ValidatorEnv} `{RdapEnv}.
Local Notation V := (St VState.t string).

Definition GetRegistrableDomain (domain : string) : string :=
  let d := TrimSuffix (NormalizeDomain domain) "." in
  if String.eqb d "" then ""
  else match EffectiveTLDPlusOne d with
       | None => ""
       | Some etld1 => etld1 +:+ "."
       end.

Definition IsRegistrableDomain (zone : string) : bool :=
  let z := NormalizeDomain zone in
  if String.eqb z "." then false
  else let reg := GetRegistrableDomain z in negb (String.eqb reg "") && String.eqb reg z.

Definition queryRDAPSecureDNS (hasClient : bool) (zone : string) (dnsDS : list DSRecord.t) : V (option RDAPSecureDNS.t) :=
  if negb hasClient then ret None
  else
    n <-- reading ;;
    let result := RDAPSecureDNS.mk false [] DSMatchNoRDAP "" in
    match GetSecureDNS n zone with
    | Err err => ret (Some (result <| RDAPSecureDNS.Error := err |>))
    | Ok None => ret (Some (result <| RDAPSecureDNS.Error := "domain not found in RDAP" |>))
    | Ok (Some secureDNS) =>
        let result := result <| RDAPSecureDNS.DelegationSigned := SecureDNS.DelegationSigned secureDNS |> in
        match SecureDNS.DelegationSigned secureDNS, SecureDNS.DSData secureDNS with
        | false, _ | _, [] =>
            let result := result <| RDAPSecureDNS.DSMatch := DSMatchUnsigned |> in
            ret (Some (if Nat.ltb 0 (length dnsDS)
                       then result <| RDAPSecureDNS.Error := "RDAP reports domain as unsigned but DNS has DS records" |>
                       else result))
        | true, data =>
            let '(rdapDS, malformed) := convert_rdap 1 data in
            let result := result <| RDAPSecureDNS.DSData := rdapDS |> in
            let result := match malformed with
                          | [] => result
                          | _ => result <| RDAPSecureDNS.Error := Sprintf "%d malformed RDAP DS record(s) ignored: %s"
                                   [pretty (length malformed); Join malformed "; "] |>
                          end in
            ret (Some (result <| RDAPSecureDNS.DSMatch := compareDSRecords dnsDS rdapDS |>))
        end
    end.
End rdap.

(** ** What the conversion and the comparison promise *)

(** A record that validates fits the widths of a DS record and has a digest of its
    type's length, in hexadecimal; its numbers are the registry's. *)
Lemma validateRDAPDS_sound ds rec :
  validateRDAPDS ds = Ok rec ->
  0 <= DSRecord.KeyTag rec <= 0xFFFF /\ 0 <= DSRecord.Algorithm rec <= 0xFF /\
  DSRecord.KeyTag rec = DSData.KeyTag ds /\ DSRecord.Algorithm rec = DSData.Algorithm ds /\
  DSRecord.DigestType rec = DSData.DigestType ds /\
  hex_decodes (DSRecord.Digest rec) = true /\
  digestHexLen (DSRecord.DigestType rec) = Some (Z.of_nat (String.length (DSRecord.Digest rec))).
Proof.
  unfold validateRDAPDS, out_of_range. intros Hv.
  repeat match type of Hv with context [if ?b then _ else _] => destruct b eqn:?; try discriminate end.
  destruct (rdapDigestLengths _) as [want|] eqn:Hw; [|discriminate].
  destruct (hex_decodes _) eqn:Hhex; [|discriminate]. cbn in Hv.
  destruct (_ =? want) eqn:Hlen; [|discriminate]. simplify_eq/=.
  repeat match goal with Hb : (_ || _) = false |- _ => apply orb_false_iff in Hb as [? ?] end.
  repeat split; try (apply Z.ltb_ge in H, H0, H1, H2; lia); try lia; [done|].
  unfold hex_decodes in Hhex. apply andb_true_iff in Hhex as [Hev%Nat.even_spec _]. destruct Hev as [m Hm].
  apply Z.eqb_eq in Hlen. rewrite Hm in Hlen |- *.
  rewrite Nat2Z.inj_mul, Z.mul_comm, Z.div_mul in Hlen by done.
  unfold rdapDigestLengths in Hw. unfold digestHexLen.
  destruct (DSData.DigestType ds) as [|p|p]; try discriminate.
  repeat (destruct p as [p|p|]; try discriminate); simplify_eq/=; do 2 f_equal; lia.
Qed.
