(* ===== verification/ParentDS.v ===== *)
(** * ParentDS: what the parent says about a delegation
    (validator/internal/validator/validator.go: verifyDSRRSIGSetB, verifyDSAbsence,
    classifyParentDSAnswer, judgeParentDSServer, queryDSFromParentWithValidation,
    finalizeNoDSDelegation)

    The DS RRset served and the one authenticated, the proofs that it is absent,
    and the choice among the answers of the parent's servers. *)

From stdpp Require Import base list strings gmap pretty.
From Stdlib Require Import ZArith Lia.
From S2P Require Import Prelude GoTime Names Nsec Nsec3 Wire Authenticated Anchors Chain Resolver Results.
Local Open Scope Z_scope.

(** The configuration of a [Validator]; its resolver is the [Network], its budget is
    in the state. *)
Module Validator.
Record t := mk {
  anchors : option RootAnchors.t; quickMode : bool; queryType : Z; hasRDAP : bool;
  rootServers : list string; verificationBudget : Z
}.
End Validator.

Definition GetRootServers : list string := [
  "198.41.0.4"; "199.9.14.201"; "192.33.4.12"; "199.7.91.13"; "192.203.230.10"; "192.5.5.241"; "192.112.36.4";
  "198.97.190.53"; "192.36.148.17"; "192.58.128.30"; "193.0.14.129"; "199.7.83.42"; "202.12.27.33"].

Definition rootServerAddresses (v : Validator.t) : list string :=
  match Validator.rootServers v with [] => GetRootServers | l => l end.

Module parentDSResult.
Record t := mk {
  Observed : list DSRecord.t; Authenticated : list DSRecord.t; Validation : DSValidation.t; Response : QueryResult.t;
  Disagreements : list Disagreement.t; AbsenceProof : option NSECProof.t; AbsenceProven : bool; Truncation : list string
}.
#[global] Instance eta : Eta t := { eta r := mk (Observed r) (Authenticated r) (Validation r) (Response r) (Disagreements r)
  (AbsenceProof r) (AbsenceProven r) (Truncation r); eta_id r := ltac:(by destruct r) }.
End parentDSResult.

(** The zone before [zone] in the walked hierarchy. *)
Fixpoint zone_before (want : string) (previous : option string) (hierarchy : list string) : option string :=
  match hierarchy with
  | [] => None
  | z :: rest =>
      if String.eqb (canonicalizeName z) want then Some (match previous with None => "" | Some p => canonicalizeName p end)
      else zone_before want (Some z) rest
  end.
Definition parentZoneFromHierarchy (zone : string) (hierarchy : list string) : string :=
  default (GetParentZone zone) (zone_before (canonicalizeName zone) None hierarchy).

Definition ds_key (d : DSRecord.t) : string :=
  Sprintf "%d/%d/%d/%s" [pretty (DSRecord.KeyTag d); pretty (DSRecord.Algorithm d); pretty (DSRecord.DigestType d); ToUpper (DSRecord.Digest d)].

Definition sameDSRecords (a b : list DSRecord.t) : bool :=
  Nat.eqb (length a) (length b) && forallb (fun d => str_in (map ds_key a) (ds_key d)) b.

Definition dsSummary (ds : list DSRecord.t) : string :=
  match ds with
  | [] => "no DS"
  | _ => Sprintf "%d DS (%s)" [pretty (length ds);
      Join (map (fun d => Sprintf "%d/%d/%d" [pretty (DSRecord.KeyTag d); pretty (DSRecord.Algorithm d); pretty (DSRecord.DigestType d)]) ds) ","]
  end.

Definition ds_absence_proof (proofType : string) (records : list string) : NSECProof.t :=
  ((NSECProof.zero <| NSECProof.ProofType := proofType |>) <| NSECProof.ResponseType := "DS-ABSENCE" |>) <| NSECProof.Records := records |>.

(** The loop over the authenticated NSEC records: the delegation NSEC at [child], or
    the error of one with the DS bit. *)
Fixpoint ds_nsec_loop (child : string) (recs : list NSECRecord.t) : res string (option NSECRecord.t) :=
  match recs with
  | [] => Ok None
  | nsec :: rest =>
      if negb (String.eqb (canonicalizeName (NSECRecord.Owner nsec)) child) then ds_nsec_loop child rest
      else if HasTypeInBitmap "DS" (NSECRecord.TypeBitmap nsec) then Err "parent NSEC at the delegation point has the DS bit set"
      else if negb (HasTypeInBitmap "NS" (NSECRecord.TypeBitmap nsec)) || HasTypeInBitmap "SOA" (NSECRecord.TypeBitmap nsec)
      then ds_nsec_loop child rest
      else Ok (Some nsec)
  end.

Module dsCandidate.
Record t := mk { addr : string; answer : res string QueryResult.t; result : option parentDSResult.t; auth : bool }.
End dsCandidate.

Section parent.
Context `{DnsLib} `{WireLib} `{ValidatorEnv} `{Network} (v : Validator.t).
Local Notation V := (St VState.t string).

(** ** Authentication of a served DS RRset *)

Definition verifyDSRRSIGSetB (validation : DSValidation.t) (childZone parentZone : string)
    (parentDNSKEY : list DNSKEYRecord.t) (rawResponse : list Z) : V (list DSRecord.t * DSValidation.t) :=
  r <-- catch (verifyRRsetFromResponseB rawResponse TypeDS parentDNSKEY childZone parentZone true) ;;
  match r with
  | Err err => ret ([], validation <| DSValidation.Error := Sprintf "DS RRSIG verification failed: %v" [err] |>)
  | Ok verified =>
      ret (dsRecordsFromVerified verified,
        (validation <| DSValidation.RRSIGVerified := true |>)
          <| DSValidation.ParentSigningKey := RRSIG.KeyTag (VerifiedRRset.Signature verified) |>)
  end.

(** ** Proof of absence *)

(** One chain's word on the child: a verdict that ends the search, or the error to
    remember. *)
Definition ds_nsec3_chain (child : string) (proof : NSECProof.t) (chain : nsec3Chain.t) : (NSECProof.t * bool) + string :=
  match match_ chain (hash chain child) with
  | Some rec =>
      if HasTypeInBitmap "DS" (NSEC3Record.TypeBitmap rec) then
        inl (proof <| NSECProof.Error := "parent NSEC3 at the delegation point has the DS bit set" |>, false)
      else if negb (HasTypeInBitmap "NS" (NSEC3Record.TypeBitmap rec)) || HasTypeInBitmap "SOA" (NSEC3Record.TypeBitmap rec) then
        inr (Sprintf "NSEC3 matching %s is not a delegation point (NS clear or SOA set); it does not prove an insecure delegation" [child])
      else inl ((((proof <| NSECProof.Verified := true |>)
        <| NSECProof.ClosestEncloser := child |>)
        <| NSECProof.CoveringNSEC := Sprintf "NSEC3 %s types: %v" [NSEC3Record.HashedOwner rec; show_strings (NSEC3Record.TypeBitmap rec)] |>)
        <| NSECProof.Explanation := Sprintf "Authenticated NSEC3 matches %s with the DS bit clear (insecure delegation)" [child] |>, true)
  | None =>
      match closestEncloser chain child with
      | Err err => inr err
      | Ok (ce, nextCloser, _, ncRec) =>
          if negb (isOptOut ncRec) then
            inr (Sprintf "next closer name %s of %s is covered by a non-opt-out NSEC3: the name does not exist in the parent, so this is not an unsigned delegation" [nextCloser; child])
          else inl ((((((proof <| NSECProof.Verified := true |>)
            <| NSECProof.OptOut := true |>)
            <| NSECProof.ClosestEncloser := ce |>)
            <| NSECProof.NextCloser := nextCloser |>)
            <| NSECProof.CoveringNSEC := Sprintf "NSEC3 %s -> %s [opt-out]" [NSEC3Record.HashedOwner ncRec; NSEC3Record.NextHashed ncRec] |>)
            <| NSECProof.Explanation := Sprintf "Authenticated opt-out NSEC3 covers the next closer name %s below closest encloser %s (unsigned delegation permitted by opt-out; insecure)" [nextCloser; ce] |>, true)
      end
  end.

Fixpoint ds_nsec3_loop (child : string) (proof : NSECProof.t) (chains : list nsec3Chain.t) (rejected : list string)
    (lastErr : string) : NSECProof.t * bool :=
  match chains with
  | [] =>
      let lastErr := if String.eqb lastErr "" then Sprintf "no authenticated NSEC3 proves the DS RRset is absent for %s" [child] else lastErr in
      (proof <| NSECProof.Error := lastErr +:+ rejectedNote rejected |>, false)
  | chain :: rest =>
      match ds_nsec3_chain child proof chain with
      | inl r => r
      | inr err => ds_nsec3_loop child proof rest rejected err
      end
  end.

Definition ds_absence_nsec (child parentZone : string) (parentDNSKEY : list DNSKEYRecord.t) (qr : QueryResult.t)
    (cands : list NSECRecord.t) : V (NSECProof.t * bool) :=
  let proof := ds_absence_proof "NSEC" (map (fun nsec => Sprintf "%s types: %v"
    [NSECRecord.Owner nsec; show_strings (NSECRecord.TypeBitmap nsec)]) cands) in
  r <-- catch (verifyDenialRRsetsFromResponseB (QueryResult.RawResponse qr) TypeNSEC parentDNSKEY parentZone) ;;
  match r with
  | Err err => ret (proof <| NSECProof.Error := Sprintf "NSEC RRSIG verification failed: %v" [err] |>, false)
  | Ok (verified, rejected) =>
      match ds_nsec_loop child (nsecRecordsFromVerified verified) with
      | Err err => ret (proof <| NSECProof.Error := err |>, false)
      | Ok None => ret (proof <| NSECProof.Error :=
          Sprintf "no authenticated NSEC at %s proves the DS RRset is absent%s" [child; rejectedNote rejected] |>, false)
      | Ok (Some nsec) =>
          ret (((proof <| NSECProof.CoveringNSEC := Sprintf "%s types: %v"
              [NSECRecord.Owner nsec; show_strings (NSECRecord.TypeBitmap nsec)] |>)
            <| NSECProof.Verified := true |>)
            <| NSECProof.Explanation := Sprintf "Authenticated NSEC proves no DS at %s (insecure delegation)" [child] |>, true)
      end
  end.

Definition ds_absence_nsec3 (child parentZone : string) (parentDNSKEY : list DNSKEYRecord.t) (qr : QueryResult.t)
    (cands : list NSEC3Record.t) : V (NSECProof.t * bool) :=
  match nsec3IterationsOverCap cands with
  | Some iters => ret ((ds_absence_proof "NSEC3" []) <| NSECProof.Error := over_cap_error iters |>, false)
  | None =>
      let proof := ds_absence_proof "NSEC3" (map (fun rec => Sprintf "%s → %s types: %v"
        [NSEC3Record.HashedOwner rec; NSEC3Record.NextHashed rec; show_strings (NSEC3Record.TypeBitmap rec)]) cands) in
      r <-- catch (verifyDenialRRsetsFromResponseB (QueryResult.RawResponse qr) TypeNSEC3 parentDNSKEY parentZone) ;;
      match r with
      | Err err => ret (proof <| NSECProof.Error := Sprintf "NSEC3 RRSIG verification failed: %v" [err] |>, false)
      | Ok (verified, rejected) =>
          match nsec3Chains (nsec3RecordsFromVerified verified) with
          | (_, _, Some err) => ret (proof <| NSECProof.Error := Sprintf "no usable NSEC3 chain: %v" [err] |>, false)
          | (chains, ignored, None) => ret (ds_nsec3_loop child (proof <| NSECProof.Ignored := ignored |>) chains rejected "")
          end
      end
  end.

Definition verifyDSAbsence (childName parentZone : string) (parentDNSKEY : list DNSKEYRecord.t) (qr : QueryResult.t)
    : V (NSECProof.t * bool) :=
  let child := canonicalizeName childName in
  match denialNSECCandidates (QueryResult.NSEC qr), denialNSEC3Candidates (QueryResult.NSEC3 qr) with
  | (_ :: _) as cands, _ => ds_absence_nsec child parentZone parentDNSKEY qr cands
  | [], (_ :: _) as cands => ds_absence_nsec3 child parentZone parentDNSKEY qr cands
  | [], [] => ret ((NSECProof.zero <| NSECProof.ResponseType := "DS-ABSENCE" |>)
      <| NSECProof.Error := "no NSEC/NSEC3 records accompany the DS-absent response" |>, false)
  end.

(** ** One server's answer *)

Definition classifyParentDSAnswer (qr : QueryResult.t) (zone parentZone : string) (parentDNSKEY : list DNSKEYRecord.t)
    : V (parentDSResult.t * bool) :=
  let observed := if QueryResult.RCode qr =? RcodeSuccess then answerDSOwnedBy (QueryResult.DS qr) zone else [] in
  let validation := DSValidation.mk parentZone (Z.of_nat (length observed)) false 0 "" in
  let out := parentDSResult.mk observed [] validation qr [] None false [] in
  match parentDNSKEY, observed with
  | [], _ => ret (out, false)
  | _, _ :: _ =>
      r <-- verifyDSRRSIGSetB validation zone parentZone parentDNSKEY (QueryResult.RawResponse qr) ;;
      ret ((out <| parentDSResult.Authenticated := r.1 |>) <| parentDSResult.Validation := r.2 |>, negb (Nat.eqb (length r.1) 0))
  | _, [] =>
      p <-- verifyDSAbsence zone parentZone parentDNSKEY qr ;;
      ret ((out <| parentDSResult.AbsenceProof := Some p.1 |>) <| parentDSResult.AbsenceProven := p.2 |>, p.2)
  end.

(** Another server's answer beside the chosen one; no verdict once the budget is
    out. *)
Definition judgeParentDSServer (chosen : parentDSResult.t) (addr : string) (answer : res string QueryResult.t)
    (zone parentZone : string) (parentDNSKEY : list DNSKEYRecord.t) : V (option Disagreement.t) :=
  let d issue expected got := Some (Disagreement.mk ("parent " +:+ parentZone) addr issue expected got) in
  match answer with
  | Err err => ret (d "parent server did not answer the DS query" "DS answer" err)
  | Ok qr =>
      if negb (String.eqb (QueryResult.Error qr) "") then
        ret (d "parent server did not answer the DS query" "DS answer" (QueryResult.Error qr))
      else if negb (QueryResult.RCode qr =? RcodeSuccess) then
        ret (d "parent server answered the DS query with an error" "NOERROR" (QueryResult.RCodeName qr))
      else
        let observed := answerDSOwnedBy (QueryResult.DS qr) zone in
        if negb (sameDSRecords observed (parentDSResult.Observed chosen)) then
          ret (d "parent server served a different DS RRset" (dsSummary (parentDSResult.Observed chosen)) (dsSummary observed))
        else
          match parentDNSKEY, observed with
          | [], _ => ret None
          | _, _ :: _ =>
              r <-- verifyDSRRSIGSetB (DSValidation.mk parentZone 0 false 0 "") zone parentZone parentDNSKEY (QueryResult.RawResponse qr) ;;
              if DSValidation.RRSIGVerified r.2 then ret None
              else if isBudgetExhaustedText (DSValidation.Error r.2) then ret None
              else ret (d "parent server's DS RRSIG does not verify" "valid signature" (DSValidation.Error r.2))
          | _, [] =>
              p <-- verifyDSAbsence zone parentZone parentDNSKEY qr ;;
              if p.2 then ret None
              else if isBudgetExhaustedText (NSECProof.Error p.1) then ret None
              else ret (d "parent server's proof of DS absence does not verify" "authenticated NSEC/NSEC3 proof of DS absence" (NSECProof.Error p.1))
          end
  end.

(** ** The choice among the parent's servers *)

(** One candidate per queried server; querying stops at cancellation and, in quick
    mode, at the first that authenticates. *)
Fixpoint ds_candidates (servers : list string) (zone parentZone : string) (parentDNSKEY : list DNSKEYRecord.t)
    (authenticated : bool) (acc : list dsCandidate.t) : V (list dsCandidate.t) :=
  match servers with
  | [] => ret acc
  | addr :: rest =>
      done_ <-- ctxErr ;;
      match done_ with
      | Some _ => ret acc
      | None =>
          answer <-- catch (QueryDSAuthoritative addr zone) ;;
          classified <-- match answer with
            | Ok qr =>
                if String.eqb (QueryResult.Error qr) "" &&
                   ((QueryResult.RCode qr =? RcodeSuccess) || (QueryResult.RCode qr =? RcodeNameError))
                then r <-- classifyParentDSAnswer qr zone parentZone parentDNSKEY ;; ret (Some r.1, r.2)
                else ret (None, false)
            | Err _ => ret (None, false)
            end ;;
          let acc := acc ++ [dsCandidate.mk addr answer classified.1 classified.2] in
          if classified.2 && negb authenticated && Validator.quickMode v then ret acc
          else ds_candidates rest zone parentZone parentDNSKEY (authenticated || classified.2) acc
      end
  end.

(** The position of the first candidate that satisfies [p]. *)
Fixpoint first_index {A} (p : A -> bool) (i : nat) (l : list A) : option nat :=
  match l with
  | [] => None
  | x :: l' => if p x then Some i else first_index p (S i) l'
  end.

Definition chosen_candidate (candidates : list dsCandidate.t) : option nat :=
  match first_index dsCandidate.auth 0 candidates with
  | Some i => Some i
  | None => first_index (fun c => match dsCandidate.result c with Some _ => true | None => false end) 0 candidates
  end.

Fixpoint judge_candidates (i chosenIdx : nat) (candidates : list dsCandidate.t) (out : parentDSResult.t)
    (zone parentZone : string) (parentDNSKEY : list DNSKEYRecord.t) : V parentDSResult.t :=
  match candidates with
  | [] => ret out
  | c :: rest =>
      if Nat.eqb i chosenIdx then judge_candidates (S i) chosenIdx rest out zone parentZone parentDNSKEY
      else
        d <-- judgeParentDSServer out (dsCandidate.addr c) (dsCandidate.answer c) zone parentZone parentDNSKEY ;;
        judge_candidates (S i) chosenIdx rest
          (match d with Some d => out <| parentDSResult.Disagreements := parentDSResult.Disagreements out ++ [d] |> | None => out end)
          zone parentZone parentDNSKEY
  end.

Definition queryDSFromParentWithValidation (zone parentZone : string) (fallbackServers : list string)
    (parentDNSKEY : list DNSKEYRecord.t) : V parentDSResult.t :=
  ns <-- (if String.eqb parentZone "." then ret (rootServerAddresses v, [])
          else r <-- catch (ResolveNSSet parentZone) ;;
               ret (match r with Ok set => (NSSet.Addresses set, NSSet.Truncation set) | Err _ => ([], []) end)) ;;
  let parentNS := match ns.1 with [] => fallbackServers | l => l end in
  candidates <-- ds_candidates parentNS zone parentZone parentDNSKEY false [] ;;
  match chosen_candidate candidates with
  | None => fail "failed to query DS from parent zone"
  | Some chosenIdx =>
      match candidates !! chosenIdx ≫= dsCandidate.result with
      | None => fail "failed to query DS from parent zone"
      | Some out =>
          judge_candidates 0 chosenIdx candidates (out <| parentDSResult.Truncation := ns.2 |>) zone parentZone parentDNSKEY
      end
  end.

(** ** A delegation without DS *)

Definition finalizeNoDSDelegation (result : ZoneResult.t) (zone parentZone : string) (parentDNSKEY : list DNSKEYRecord.t)
    (ds : parentDSResult.t) : V ZoneResult.t :=
  match parentDNSKEY with
  | [] => ret (AddZoneError (result <| ZoneResult.Status := StatusIndeterminate |>)
      "no authenticated parent DNSKEY set is available to verify the absence of a DS record")
  | _ =>
      let qr := parentDSResult.Response ds in
      p <-- match parentDSResult.AbsenceProof ds with
            | Some proof => ret (proof, parentDSResult.AbsenceProven ds)
            | None => verifyDSAbsence zone parentZone parentDNSKEY qr
            end ;;
      let proof := p.1 in
      let result := result <| ZoneResult.DenialProof := Some proof |> in
      if p.2 then ret (result <| ZoneResult.Status := StatusInsecure |>)
      else
        match QueryResult.NSEC qr, QueryResult.NSEC3 qr with
        | [], [] => ret (AddZoneError (result <| ZoneResult.Status := StatusIndeterminate |>)
            "insecure delegation claimed but the parent returned no authenticated proof of DS absence (possible downgrade attack)")
        | _, _ =>
            if isBudgetExhaustedText (NSECProof.Error proof) then
              ret (AddZoneError (result <| ZoneResult.Status := StatusIndeterminate |>) (NSECProof.Error proof))
            else
              ret (AddZoneError (result <| ZoneResult.Status := StatusBogus |>)
                (if String.eqb (NSECProof.Error proof) "" then "the parent's proof of DS absence did not verify (possible downgrade attack)"
                 else Sprintf "the parent's proof of DS absence did not verify: %s" [NSECProof.Error proof]))
        end
  end.
End parent.
