(* ===== verification/ZoneAuth.v ===== *)
(** * ZoneAuth: the verdict on one zone
    (validator/internal/validator/validator.go: ValidateMultipleServers,
    judgeDNSKEYServers, validateZone, nextParentDNSKEY)

    [validateZone] is one handler with early returns; the steps between them are
    definitions of their own, composed in [validateZone] in the order of the code.
    Events and timings are not part of the result. *)

From stdpp Require Import base list strings gmap pretty.
From Stdlib Require Import ZArith Lia.
From S2P Require Import Prelude GoTime Names Ip Nsec Nsec3 Wire Authenticated Anchors Chain Resolver Results Rdap ParentDS.
Local Open Scope Z_scope.

(** ** Key sets *)

Definition dnskeyMaterialSet `{DnsLib} (keys : list DNSKEYRecord.t) : gset string := list_to_set (map key_id keys).
Definition sameDNSKEYMaterial `{DnsLib} (a b : list DNSKEYRecord.t) : bool :=
  let sa := dnskeyMaterialSet a in
  let sb := dnskeyMaterialSet b in
  Nat.eqb (size sa) (size sb) && bool_decide (sa ⊆ sb).

Definition keyTagSummary (keys : list DNSKEYRecord.t) : string :=
  match keys with
  | [] => "no DNSKEY"
  | _ => Sprintf "%d keys (tags %s)" [pretty (length keys); Join (map (fun k => pretty (DNSKEYRecord.KeyTag k)) keys) ","]
  end.

(** ** Server results *)

Definition answered (sr : AddressResult.t) : bool := match AddressResult.Response sr with Some _ => true | None => false end.
Definition served_keys `{DnsLib} (zone : string) (sr : AddressResult.t) : list DNSKEYRecord.t :=
  match AddressResult.Response sr with
  | Some qr => answerDNSKEYsOwnedBy (QueryResult.DNSKEY qr) zone
  | None => []
  end.
Definition serves_keys `{DnsLib} (zone : string) (sr : AddressResult.t) : bool :=
  match served_keys zone sr with [] => false | _ => true end.

Definition judged (status : ValidationStatus) (err : string) (sr : AddressResult.t) : AddressResult.t :=
  (sr <| AddressResult.Status := status |>) <| AddressResult.Error := err |>.

(** The last result of an address. *)
Definition result_of (serverResults : list AddressResult.t) (ip : string) : option AddressResult.t :=
  List.find (fun sr => String.eqb (AddressResult.IP sr) ip) (rev serverResults).

Definition applyServerResults (serverResults : list AddressResult.t) (result : ZoneResult.t) : ZoneResult.t :=
  result <| ZoneResult.Nameservers := map (fun ns => NameserverResult.mk (NameserverResult.Name ns)
      (map (fun addr => default addr (result_of serverResults (AddressResult.IP addr))) (NameserverResult.Addresses ns)))
    (ZoneResult.Nameservers result) |>.

(** [markUsable] *)
Definition mark_usable (status : ValidationStatus) (reason : string) (serverResults : list AddressResult.t) : list AddressResult.t :=
  map (fun sr => if answered sr then
      let sr := sr <| AddressResult.Status := status |> in
      if String.eqb reason "" then sr else sr <| AddressResult.Error := reason |>
    else sr) serverResults.
Definition markUsable (status : ValidationStatus) (reason : string) (serverResults : list AddressResult.t) (result : ZoneResult.t)
    : ZoneResult.t := applyServerResults (mark_usable status reason serverResults) result.

(** Those still awaiting a judgement get this one. *)
Definition settle (usableOnly : bool) (status : ValidationStatus) (err : string) (serverResults : list AddressResult.t) : list AddressResult.t :=
  map (fun sr => if (negb usableOnly || answered sr) && bool_decide (AddressResult.Status sr = StatusValidating)
                 then judged status err sr else sr) serverResults.

Definition warn (result : ZoneResult.t) (msgs : list string) : ZoneResult.t :=
  result <| ZoneResult.Warnings := ZoneResult.Warnings result ++ msgs |>.
Definition verdict (status : ValidationStatus) (result : ZoneResult.t) : ZoneResult.t := result <| ZoneResult.Status := status |>.

Definition nextParentDNSKEY (zr : ZoneResult.t) : list DNSKEYRecord.t :=
  match ZoneResult.Status zr with StatusSecure => ZoneResult.DNSKEY zr | _ => [] end.

Section zone.
Context `{DnsLib} `{WireLib} `{ValidatorEnv} `{Network} `{ChainLib} `{RdapEnv} (v : Validator.t).
Local Notation V := (St VState.t string).

(** ** The servers' DNSKEY answers *)

Definition not_queried (srv : string) : AddressResult.t :=
  AddressResult.mk srv StatusIndeterminate 0 "not queried: validation ended before this server's turn" None.

Definition server_result (srv : string) (queryResult : QueryResult.t) : AddressResult.t :=
  if negb (String.eqb (QueryResult.Error queryResult) "") then AddressResult.mk srv StatusIndeterminate 0 (QueryResult.Error queryResult) None
  else if negb (QueryResult.RCode queryResult =? 0) then AddressResult.mk srv StatusIndeterminate 0 (QueryResult.RCodeName queryResult) None
  else AddressResult.mk srv StatusValidating (QueryResult.RTT queryResult) "" (Some queryResult).

(** The jobs [runBounded] starts are a prefix of the servers, in order; one that
    starts fills its own slot. *)
Fixpoint query_servers (zone : string) (servers : list string) : V (list AddressResult.t) :=
  match servers with
  | [] => ret []
  | srv :: rest =>
      done_ <-- ctxErr ;;
      match done_ with
      | Some _ => ret (map not_queried servers)
      | None =>
          queryResult <-- QueryDNSKEYAuthoritative srv zone ;;
          results <-- query_servers zone rest ;;
          ret (server_result srv queryResult :: results)
      end
  end.

Definition ValidateMultipleServers (zone : string) (servers : list string) : V (list AddressResult.t) :=
  let queryServers := UniqueAddresses servers in
  query_servers zone (if Validator.quickMode v && Nat.ltb 2 (length queryServers) then take 2 queryServers else queryServers).

(** ** Judging every server against the authenticated chain *)

Definition judge_server (zone : string) (authenticatedRRset authenticatedKeys : list DNSKEYRecord.t) (sr : AddressResult.t)
    : V (AddressResult.t * option Disagreement.t) :=
  match AddressResult.Response sr with
  | None => ret (sr, None)
  | Some qr =>
      let keys := answerDNSKEYsOwnedBy (QueryResult.DNSKEY qr) zone in
      let ip := AddressResult.IP sr in
      if negb (sameDNSKEYMaterial keys authenticatedRRset) then
        ret (judged StatusBogus (match keys with
                                 | [] => "served no DNSKEY RRset while the zone's authenticated DNSKEY RRset exists"
                                 | _ => "served a DNSKEY RRset that differs from the authenticated RRset"
                                 end) sr,
             Some (Disagreement.mk ip ip "DNSKEY RRset differs from the authenticated RRset"
               (keyTagSummary authenticatedRRset) (keyTagSummary keys)))
      else
        match QueryResult.RawResponse qr with
        | [] => ret (judged StatusIndeterminate "DNSKEY response could not be retained in wire form" sr, None)
        | raw =>
            r <-- catch (verifyDNSKEYRRsetFromResponseB raw zone authenticatedKeys) ;;
            match r with
            | Ok _ => ret (judged StatusSecure "" sr, None)
            | Err err =>
                if isBudgetExhaustedText err then ret (judged StatusIndeterminate err sr, None)
                else ret (judged StatusBogus (Sprintf "DNSKEY RRSIG verification failed: %v" [err]) sr,
                  Some (Disagreement.mk ip ip "DNSKEY RRSIG does not verify under the authenticated keys" "valid signature" err))
            end
        end
  end.

Fixpoint judge_servers (zone : string) (authenticatedRRset authenticatedKeys : list DNSKEYRecord.t) (serverResults : list AddressResult.t)
    : V (list AddressResult.t * list Disagreement.t) :=
  match serverResults with
  | [] => ret ([], [])
  | sr :: rest =>
      j <-- judge_server zone authenticatedRRset authenticatedKeys sr ;;
      js <-- judge_servers zone authenticatedRRset authenticatedKeys rest ;;
      ret (j.1 :: js.1, option_list j.2 ++ js.2)
  end.

Definition judgeDNSKEYServers (result : ZoneResult.t) (serverResults : list AddressResult.t) (zone : string)
    (authenticatedRRset authenticatedKeys : list DNSKEYRecord.t) : V (list AddressResult.t * ZoneResult.t) :=
  js <-- judge_servers zone authenticatedRRset authenticatedKeys serverResults ;;
  let result := result <| ZoneResult.Disagreements := ZoneResult.Disagreements result ++ js.2 |> in
  ret (js.1, warn result (map (fun d => Sprintf "Nameserver %s: %s (expected %s, got %s)"
    [Disagreement.IP d; Disagreement.Issue d; Disagreement.Expected d; Disagreement.Got d]) (ZoneResult.Disagreements result))).

(** ** The zone's nameservers *)

Definition pending (ip : string) : AddressResult.t := AddressResult.mk ip StatusValidating 0 "" None.

(** The entry for a zone: its result with the nameserver table and the lookup
    warnings, the query list, and the truncation notes. *)
Definition zone_nameservers (zone : string) : V (ZoneResult.t * list string * list string) :=
  let result := NewZoneResult zone in
  if String.eqb zone "." then
    let nsAddresses := rootServerAddresses v in
    ret (result <| ZoneResult.Nameservers := [NameserverResult.mk "root-servers" (map pending nsAddresses)] |>, nsAddresses, [])
  else
    r <-- catch (ResolveNSSet zone) ;;
    match r with
    | Err err => fail (Sprintf "failed to resolve NS for %s: %w" [zone; err])
    | Ok nsSet =>
        let problems := concat (map (fun ns => map (fun p => Sprintf "nameserver %s: %s" [NSRecord.Name ns; p]) (NSRecord.LookupErrors ns))
                                  (NSSet.Records nsSet)) in
        let notes := map (fun note => "fan-out bound exceeded: " +:+ note) (NSSet.Truncation nsSet) in
        let nameservers := map (fun ns => NameserverResult.mk (NSRecord.Name ns) (map (fun a => pending (IPString a)) (NSRecord.Addresses ns)))
                             (NSSet.Records nsSet) in
        ret (warn (result <| ZoneResult.Nameservers := nameservers |>) (problems ++ notes), NSSet.Addresses nsSet, NSSet.Truncation nsSet)
    end.

(** The zone's diagnostics: from the first server with keys, else the first that
    answered. *)
Definition diagnostics (zone : string) (serverResults : list AddressResult.t) (result : ZoneResult.t) : ZoneResult.t :=
  let diag := match List.find (serves_keys zone) serverResults with
              | Some sr => Some sr
              | None => List.find answered serverResults
              end in
  match diag ≫= AddressResult.Response with
  | None => result
  | Some qr => (((result <| ZoneResult.DNSKEY := answerDNSKEYsOwnedBy (QueryResult.DNSKEY qr) zone |>)
      <| ZoneResult.RRSIG := QueryResult.RRSIG qr |>)
      <| ZoneResult.NSEC := QueryResult.NSEC qr |>)
      <| ZoneResult.NSEC3 := QueryResult.NSEC3 qr |>
  end.

(** ** The trust source *)

Definition trust_source : Type := list DNSKEYRecord.t -> V (ChainLink.t * list DNSKEYRecord.t).

Definition root_trust (activeAnchors : list Anchor.t) : trust_source := fun keys =>
  let keys := dedupeKeys keys in
  charge (Z.of_nat (length activeAnchors) * Z.of_nat (length keys) * 2) ;;;
  match VerifyRootTrustAnchor keys activeAnchors with
  | (_, Some err) => fail (Sprintf "root trust anchor verification failed: %v" [err])
  | (link, None) => ret (link, CollectAnchorMatchedKeys keys activeAnchors)
  end.

Definition ds_trust (supportedDS : list DSRecord.t) (zone : string) : trust_source := fun keys =>
  let keys := dedupeKeys keys in
  charge (Z.of_nat (length supportedDS) * Z.of_nat (length keys) * 2) ;;;
  match ValidateChainLink supportedDS keys zone with
  | (Some link, None) => ret (link, CollectDSMatchedKeys supportedDS keys zone)
  | (_, err) => fail (Sprintf "chain of trust validation failed: %v" [default "" err])
  end.

(** What the walk of the parent's word on a zone with keys ends in: a verdict, or
    the DS records that establish trust. *)
Definition parent_ds (zone : string) (hierarchy nsAddresses : list string) (parentDNSKEY : list DNSKEYRecord.t)
    (serverResults : list AddressResult.t) (result : ZoneResult.t) : V (ZoneResult.t + ZoneResult.t * list DSRecord.t) :=
  let parentZone := parentZoneFromHierarchy zone hierarchy in
  r <-- catch (queryDSFromParentWithValidation v zone parentZone nsAddresses parentDNSKEY) ;;
  match r with
  | Err err => ret (inl (AddZoneError (verdict StatusIndeterminate result) (Sprintf "failed to query DS from parent: %v" [err])))
  | Ok ds =>
      let result := result <| ZoneResult.Disagreements := ZoneResult.Disagreements result ++ parentDSResult.Disagreements ds |> in
      let result := warn result (map (fun note => "parent fan-out bound exceeded: " +:+ note) (parentDSResult.Truncation ds)) in
      let validation := parentDSResult.Validation ds in
      let result := result <| ZoneResult.DSValidation := Some validation |> in
      match parentDSResult.Observed ds with
      | [] =>
          result <-- finalizeNoDSDelegation result zone parentZone parentDNSKEY ds ;;
          ret (inl (if bool_decide (ZoneResult.Status result = StatusInsecure) then markUsable StatusInsecure "" serverResults result else result))
      | observed =>
          let result := result <| ZoneResult.DS := observed |> in
          if isBudgetExhaustedText (DSValidation.Error validation) then
            ret (inl (AddZoneError (verdict StatusIndeterminate result) (DSValidation.Error validation)))
          else if negb (DSValidation.RRSIGVerified validation) || Nat.eqb (length (parentDSResult.Authenticated ds)) 0 then
            ret (inl (AddZoneError (verdict StatusBogus result)
              (if String.eqb (DSValidation.Error validation) "" then "DS RRset is not signed by the parent (no verified DS RRSIG)"
               else Sprintf "DS RRSIG verification failed: %s" [DSValidation.Error validation])))
          else
            let '(supportedDS, unsupportedDS) := SupportedDSRecords (parentDSResult.Authenticated ds) in
            let result := warn result (map (fun d => Sprintf
              "parent DS (key tag %d, algorithm %d, digest type %d) uses an algorithm or digest type this validator does not support; it cannot serve as an authentication path"
              [pretty (DSRecord.KeyTag d); pretty (DSRecord.Algorithm d); pretty (DSRecord.DigestType d)]) unsupportedDS) in
            match supportedDS with
            | [] => ret (inl (markUsable StatusInsecure "" serverResults (warn (verdict StatusInsecure result)
                ["the authenticated DS RRset contains only unsupported algorithms/digest types: no supported authentication path, so the zone is treated as unsigned (RFC 4035 §5.2 / RFC 6840 §5.2)"])))
            | _ =>
                if Validator.hasRDAP v && IsRegistrableDomain zone then
                  rdapResult <-- queryRDAPSecureDNS (Validator.hasRDAP v) zone (parentDSResult.Authenticated ds) ;;
                  let result := result <| ZoneResult.RDAPSecureDNS := rdapResult |> in
                  ret (inr (match rdapResult with
                            | Some rd => if bool_decide (RDAPSecureDNS.DSMatch rd = DSMatchNone)
                                         then warn result ["RDAP DS records do not match DNS DS records"] else result
                            | None => result
                            end, supportedDS))
                else ret (inr (result, supportedDS))
            end
      end
  end.

(** A zone that served no keys. *)
Definition zone_without_keys (zone : string) (hierarchy nsAddresses : list string) (parentDNSKEY : list DNSKEYRecord.t)
    (serverResults : list AddressResult.t) (result : ZoneResult.t) : V ZoneResult.t :=
  if String.eqb zone "." then
    ret (markUsable StatusBogus "served no DNSKEY RRset for the root" serverResults
      (AddZoneError (verdict StatusBogus result) "root zone has no DNSKEY"))
  else
    let parentZone := parentZoneFromHierarchy zone hierarchy in
    r <-- catch (queryDSFromParentWithValidation v zone parentZone nsAddresses parentDNSKEY) ;;
    match r with
    | Err err => ret (AddZoneError (verdict StatusIndeterminate result) (Sprintf "failed to query DS from parent: %v" [err]))
    | Ok ds =>
        let result := result <| ZoneResult.Disagreements := ZoneResult.Disagreements result ++ parentDSResult.Disagreements ds |> in
        let result := warn result (map (fun note => "parent fan-out bound exceeded: " +:+ note) (parentDSResult.Truncation ds)) in
        match parentDSResult.Observed ds with
        | [] =>
            result <-- finalizeNoDSDelegation result zone parentZone parentDNSKEY ds ;;
            ret (if bool_decide (ZoneResult.Status result = StatusInsecure) then markUsable StatusInsecure "" serverResults result
                 else markUsable (ZoneResult.Status result) "zone served no DNSKEY RRset" serverResults result)
        | _ =>
            ret (markUsable StatusBogus "DS exists in parent but this server served no DNSKEY RRset" serverResults
              (AddZoneError (verdict StatusBogus result) "DS exists in parent but zone has no DNSKEY"))
        end
    end.

(** ** The first server that chains to the trust source *)

(** One server: trust in its keys, then the signature over its DNSKEY RRset. *)
Definition authenticate_server (trust : trust_source) (zone : string) (qr : QueryResult.t) (keys : list DNSKEYRecord.t)
    : V (ChainLink.t * list DNSKEYRecord.t) :=
  linked <-- trust keys ;;
  match QueryResult.RawResponse qr with
  | [] => fail "DNSKEY response could not be retained in wire form; cannot verify the DNSKEY RRset"
  | raw =>
      r <-- catch (verifyDNSKEYRRsetFromResponseB raw zone linked.2) ;;
      match r with
      | Err verr => fail (Sprintf "DNSKEY RRSIG verification failed: %v" [verr])
      | Ok _ => ret linked
      end
  end.

(** How the search ends: a chosen server, a resource limit, or the first error. *)
Inductive auth_outcome :=
| Chosen (link : ChainLink.t) (authed keys : list DNSKEYRecord.t) (response : QueryResult.t)
| Exhausted (err : string)
| NoneChained (firstErr : string).

Fixpoint authenticate_servers (trust : trust_source) (zone : string) (firstErr : option string)
    (serverResults : list AddressResult.t) : V (list AddressResult.t * auth_outcome) :=
  match serverResults with
  | [] => ret ([], NoneChained (default "" firstErr))
  | sr :: rest =>
      let skip sr firstErr :=
        r <-- authenticate_servers trust zone firstErr rest ;; ret (sr :: r.1, r.2) in
      match AddressResult.Response sr, served_keys zone sr with
      | Some qr, (_ :: _) as keys =>
          r <-- catch (authenticate_server trust zone qr keys) ;;
          match r with
          | Ok linked => ret (sr :: rest, Chosen linked.1 linked.2 keys qr)
          | Err err =>
              if isBudgetExhaustedText err then ret (sr :: rest, Exhausted err)
              else skip (judged StatusBogus err sr) (Some (default err firstErr))
          end
      | _, _ => skip sr firstErr
      end
  end.

(** The informational checks of an authenticated zone. *)
Definition compliance (zone : string) (result : ZoneResult.t) : ZoneResult.t :=
  let result :=
    match FindRRSIGForType TypeDNSKEY (ZoneResult.RRSIG result) with
    | None => result
    | Some rrsig =>
        let wildcard := DetectWildcardSynthesis zone (RRSIGRecord.Labels rrsig) in
        if String.eqb wildcard "" then result
        else warn (result <| ZoneResult.WildcardSource := wildcard |>) [Sprintf "Response synthesized from wildcard %s" [wildcard]]
    end in
  let result := warn result (CheckAlgorithmDeprecation (ZoneResult.DNSKEY result)) in
  let result := warn result (CheckRRSIGAlgorithmDeprecation (ZoneResult.RRSIG result)) in
  let result := warn result (CheckDigestTypeDeprecation (ZoneResult.DS result)) in
  let result := warn result (CheckNSEC3Iterations (ZoneResult.NSEC3 result)) in
  let '(optOut, explanation) := CheckNSEC3OptOut (ZoneResult.NSEC3 result) in
  if optOut then warn (result <| ZoneResult.NSEC3OptOut := true |>) [explanation] else result.

(** From a trust source to the verdict. *)
Definition authenticate_zone (trust : trust_source) (zone : string) (serverResults : list AddressResult.t) (result : ZoneResult.t)
    : V ZoneResult.t :=
  r <-- authenticate_servers trust zone None serverResults ;;
  let '(serverResults, outcome) := r in
  match outcome with
  | Exhausted err => ret (applyServerResults serverResults (AddZoneError (verdict StatusIndeterminate result) err))
  | NoneChained firstErr =>
      ret (applyServerResults (settle true StatusBogus "served no DNSKEY RRset while other servers did" serverResults)
        (AddZoneError (verdict StatusBogus result) firstErr))
  | Chosen link authed keys qr =>
      let result := ((((result <| ZoneResult.ChainLink := Some link |>)
        <| ZoneResult.DNSKEY := keys |>)
        <| ZoneResult.RRSIG := QueryResult.RRSIG qr |>)
        <| ZoneResult.NSEC := QueryResult.NSEC qr |>)
        <| ZoneResult.NSEC3 := QueryResult.NSEC3 qr |> in
      j <-- judgeDNSKEYServers result serverResults zone keys authed ;;
      ret (verdict StatusSecure (compliance zone (applyServerResults j.1 j.2)))
  end.

(** ** The handler *)

Definition validateZone (zone : string) (hierarchy : list string) (parentDNSKEY : list DNSKEYRecord.t)
    (parentInsecure : bool) (indeterminateAncestor : string) : V ZoneResult.t :=
  entry <-- zone_nameservers zone ;;
  let '(result, nsAddresses, nsTruncation) := entry in
  match nsAddresses with
  | [] => fail (Sprintf "no nameserver addresses found for %s" [zone])
  | _ =>
      serverResults <-- ValidateMultipleServers zone nsAddresses ;;
      let result := applyServerResults serverResults result in
      match nsTruncation with
      | _ :: _ =>
          let result := AddZoneError (verdict StatusIndeterminate result)
            (Sprintf "the nameserver set exceeds the fan-out bounds; only a disclosed subset was queried (%s)" [Join nsTruncation "; "]) in
          ret (applyServerResults (settle false StatusIndeterminate "not judged: the zone's nameserver set was truncated" serverResults) result)
      | [] =>
          if negb (existsb answered serverResults) then
            ret (AddZoneError (verdict StatusIndeterminate result) "failed to query DNSKEY from any nameserver")
          else
            let result := diagnostics zone serverResults result in
            let isRoot := String.eqb zone "." in
            if negb isRoot && parentInsecure then
              ret (markUsable StatusInsecure "" serverResults (warn (verdict StatusInsecure result)
                ["delegation is below an insecure (unsigned) ancestor; no authenticated chain to the root — treated as insecure"]))
            else if negb isRoot && negb (String.eqb indeterminateAncestor "") then
              ret (markUsable StatusIndeterminate "no authenticated chain of trust reaches this zone" serverResults
                (AddZoneError (verdict StatusIndeterminate result)
                  (Sprintf "ancestor zone %s could not be authenticated; no authenticated chain of trust reaches this zone" [indeterminateAncestor])))
            else if negb (existsb (serves_keys zone) serverResults) then
              zone_without_keys zone hierarchy nsAddresses parentDNSKEY serverResults result
            else if isRoot then
              activeAnchors <-- GetActivePinnedAnchors (Validator.anchors v) ;;
              match activeAnchors with
              | [] => ret (AddZoneError (verdict StatusIndeterminate result)
                  "no currently-active pinned root trust anchor available (check anchor validity dates / refresh the anchor set); cannot establish trust")
              | _ => authenticate_zone (root_trust activeAnchors) zone serverResults result
              end
            else
              source <-- parent_ds zone hierarchy nsAddresses parentDNSKEY serverResults result ;;
              match source with
              | inl result => ret result
              | inr (result, supportedDS) => authenticate_zone (ds_trust supportedDS zone) zone serverResults result
              end
      end
  end.
End zone.
