(* ===== verification/Leaf.v ===== *)
(** * Leaf: the answer at the end of the chain
    (validator/internal/validator/validator.go: verifyActualRecord,
    queryLeafAllServers, leafCandidateError, verifyWildcard, verifyDNAMEAnswer,
    recordValidationVerdict, discoverAliasTarget)

    The choice among the leaf servers' answers, the authentication of a positive
    answer, an alias, a DNAME redirection or a denial, and the verdict it adds. *)

From stdpp Require Import base list strings gmap pretty.
From Stdlib Require Import ZArith Lia.
From S2P Require Import Prelude GoTime Names Nsec Nsec3 Wire Authenticated Anchors Chain Resolver Results Rdap ParentDS ZoneAuth.
Local Open Scope Z_scope.

(** More of the DNS library: name syntax, the type table, and a record's text. *)
Class LeafLib := {
  IsDomainName : string -> bool;
  TypeToString : Z -> option string;
  StringToType : string -> option Z;
  RR_String : RR -> string
}.

(** ** Query types *)

Definition leafType (v : Validator.t) : Z := if Validator.queryType v =? 0 then TypeA else Validator.queryType v.
Definition leafTypeName `{LeafLib} (v : Validator.t) : string := default "A" (TypeToString (leafType v)).

(** A, AAAA, MX, TXT, NS, SOA, SRV, CAA, PTR, NAPTR, CNAME, SPF *)
Definition supported_types : list Z := [1; 28; 15; 16; 2; 6; 33; 257; 12; 35; 5; 99].
Definition SupportedQueryType `{LeafLib} (s : string) : Z * bool :=
  if String.eqb s "" then (TypeA, true)
  else match StringToType (ToUpper s) with
       | None => (0, false)
       | Some t => if existsb (Z.eqb t) supported_types then (t, true) else (0, false)
       end.

(** ** Shapes of an answer *)

Definition answerContainsType (qr : QueryResult.t) (qtype : Z) : bool := existsb (fun t => t =? qtype) (QueryResult.AnswerTypes qr).

Definition isDenialForType `{DnsLib} (qr : QueryResult.t) (domain : string) (qtype : Z) : bool :=
  if QueryResult.RCode qr =? RcodeNameError then Nat.eqb (length (answerCNAMEsOwnedBy (QueryResult.CNAME qr) domain)) 0
  else (QueryResult.RCode qr =? RcodeSuccess) && Nat.eqb (length (QueryResult.CNAME qr)) 0 && negb (answerContainsType qr qtype).

Definition dname_above `{DnsLib} (want : string) (d : DNAMERecord.t) : bool :=
  InSection (DNAMERecord.Section_ d) [SectionAnswer] &&
  negb (String.eqb (CanonicalName (DNAMERecord.Owner d)) want) && IsSubDomain (CanonicalName (DNAMERecord.Owner d)) want.
Definition dnameAncestorInAnswer `{DnsLib} (qr : QueryResult.t) (qname : string) : string :=
  match List.find (dname_above (CanonicalName qname)) (QueryResult.DNAME qr) with
  | Some d => CanonicalName (DNAMERecord.Owner d)
  | None => ""
  end.

Definition substituteDNAME `{DnsLib} `{LeafLib} (qname owner target : string) : res string string :=
  let qname := CanonicalName qname in
  let owner := CanonicalName owner in
  if String.eqb owner qname || negb (IsSubDomain owner qname) then Err (Sprintf "%s is not below DNAME owner %s" [qname; owner])
  else
    let qLabels := SplitDomainName qname in
    let oLabels := SplitDomainName owner in
    let prefix := take (length qLabels - length oLabels) qLabels in
    let synthesized :=
      if String.eqb target "." || String.eqb (Fqdn target) "." then Fqdn (Join prefix ".")
      else Fqdn (Join (prefix ++ [TrimSuffix (Fqdn target) "."]) ".") in
    if negb (IsDomainName synthesized) || Nat.ltb 255 (String.length synthesized + 1) then
      Err (Sprintf "DNAME substitution of %s by %s -> %s exceeds the DNS name length limit (RFC 6672 §2.2, YXDOMAIN)" [qname; owner; target])
    else Ok synthesized.

(** The single target of a DNAME RRset. *)
Fixpoint dname_target (several : string) (target : string) (records : list RR) : res string string :=
  match records with
  | [] => Ok target
  | RR_DNAME _ t :: rest => if negb (String.eqb target "") then Err several else dname_target several t rest
  | _ :: rest => dname_target several target rest
  end.

(** ** The verdict of a leaf *)

Definition isUnqueryableRecordError (errText : string) : bool :=
  HasPrefix errText "failed to resolve nameservers" || HasPrefix errText "failed to query" || Contains errText "YXDOMAIN".

Definition proof_error (p : option NSECProof.t) : string := match p with Some p => NSECProof.Error p | None => "" end.
Definition proof_opt_out (p : option NSECProof.t) : option string :=
  match p with
  | Some p => if NSECProof.Verified p && NSECProof.OptOut p then Some (NSECProof.NextCloser p) else None
  | None => None
  end.
(** The first text that is not empty. *)
Definition first_text (l : list string) : string := default "" (List.find (fun s => negb (String.eqb s "")) l).

Definition recordValidationVerdict (rv : option RecordValidation.t) : ValidationStatus * string :=
  match rv with
  | None => (StatusSecure, "")
  | Some rv =>
      let err := RecordValidation.Error rv in
      let denial := RecordValidation.DenialProof rv in
      let wildcard := RecordValidation.WildcardProof rv in
      if RecordValidation.Wildcard rv && RecordValidation.RRSIGVerified rv && negb (RecordValidation.WildcardProofVerified rv) then
        let msg := first_text [err; "wildcard answer lacks a verified no-exact-match (NSEC/NSEC3) proof"] in
        if isUnqueryableRecordError msg || isBudgetExhaustedText msg || isBudgetExhaustedText (proof_error wildcard)
        then (StatusIndeterminate, msg) else (StatusBogus, msg)
      else if RecordValidation.RRSIGVerified rv then
        match proof_opt_out denial, (if RecordValidation.Wildcard rv then proof_opt_out wildcard else None) with
        | Some nc, _ => (StatusInsecure, Sprintf "denial rests on an opt-out NSEC3 covering %s: an unsigned delegation may exist, so the answer is insecure rather than secure (RFC 5155 §9.2)" [nc])
        | None, Some nc => (StatusInsecure, Sprintf "wildcard proof rests on an opt-out NSEC3 covering %s: an unsigned delegation may exist, so the answer is insecure rather than secure (RFC 5155 §9.2)" [nc])
        | None, None => (StatusSecure, "")
        end
      else if isUnqueryableRecordError err then
        (StatusIndeterminate, first_text [err; "record could not be queried from authoritative servers"])
      else if isBudgetExhaustedText err || isBudgetExhaustedText (proof_error denial) || isBudgetExhaustedText (proof_error wildcard) then
        (StatusIndeterminate, first_text [err; proof_error denial; proof_error wildcard])
      else (StatusBogus, first_text [err; proof_error denial; "record RRSIG could not be verified"])
  end.

(** ** Comparing servers *)

(** [canonicalRRString]: the names of the record in lower case, no TTL. *)
Definition canonicalRR `{DnsLib} (rr : RR) : RR :=
  let rr := map_header (fun h => Hdr.mk (CanonicalName (Hdr.Name h)) (Hdr.Rrtype h) (Hdr.Class_ h) 0) rr in
  match rr with
  | RR_CNAME h t => RR_CNAME h (CanonicalName t)
  | RR_DNAME h t => RR_DNAME h (CanonicalName t)
  | RR_NS h ns => RR_NS h (CanonicalName ns)
  | RR_PTR h p => RR_PTR h (CanonicalName p)
  | RR_MX h p mx => RR_MX h p (CanonicalName mx)
  | RR_SRV h p w q t => RR_SRV h p w q (CanonicalName t)
  | RR_SOA h ns mbox n => RR_SOA h (CanonicalName ns) (CanonicalName mbox) n
  | RR_NAPTR h o p fl s r t => RR_NAPTR h o p fl s r (CanonicalName t)
  | _ => rr
  end.
Definition canonicalRRString `{DnsLib} `{LeafLib} (rr : RR) : string := RR_String (canonicalRR rr).

Section leaf.
Context `{DnsLib} `{WireLib} `{ValidatorEnv} `{Network} `{LeafLib} (v : Validator.t).
Local Notation V := (St VState.t string).

Definition leafFingerprint (qr : QueryResult.t) : string :=
  let rrs := match QueryResult.RawResponse qr with
             | [] => []
             | raw =>
                 match Unpack raw with
                 | Err _ => []
                 | Ok msg =>
                     sort_by (fun s => s) (dedupe_by (fun s => s) [] (map canonicalRRString
                       (List.filter (fun rr => (rr_type rr =? leafType v) || (rr_type rr =? TypeCNAME)) (Msg.Answer msg))))
                 end
             end in
  Join (QueryResult.RCodeName qr :: rrs) "|".

(** ** Wildcard answers *)

(** The denial records of a response that authenticate: both lists, at most one of
    them filled. *)
Definition authenticated_denial (zone : string) (queryResult : QueryResult.t) (dnskeys : list DNSKEYRecord.t)
    : V (list NSECRecord.t * list NSEC3Record.t) :=
  match denialNSECCandidates (QueryResult.NSEC queryResult), denialNSEC3Candidates (QueryResult.NSEC3 queryResult) with
  | _ :: _, _ =>
      r <-- verifyDenialRRsetsFromResponseB (QueryResult.RawResponse queryResult) TypeNSEC dnskeys zone ;;
      ret (nsecRecordsFromVerified r.1, [])
  | [], _ :: _ =>
      r <-- verifyDenialRRsetsFromResponseB (QueryResult.RawResponse queryResult) TypeNSEC3 dnskeys zone ;;
      ret ([], nsec3RecordsFromVerified r.1)
  | [], [] => ret ([], [])
  end.

(** [if validation.Error == "" { validation.Error = msg }] *)
Definition note_error (msg : string) (validation : RecordValidation.t) : RecordValidation.t :=
  if String.eqb (RecordValidation.Error validation) "" then validation <| RecordValidation.Error := msg |> else validation.

Definition verifyWildcard (validation : RecordValidation.t) (qname zone : string) (rrsig : RRSIGRecord.t)
    (queryResult : QueryResult.t) (dnskeys : list DNSKEYRecord.t) : V RecordValidation.t :=
  let wildcard := DetectWildcardSynthesis qname (RRSIGRecord.Labels rrsig) in
  if String.eqb wildcard "" then ret validation
  else
    let validation := (validation <| RecordValidation.Wildcard := true |>) <| RecordValidation.WildcardSource := wildcard |> in
    r <-- catch (authenticated_denial zone queryResult dnskeys) ;;
    match r with
    | Err cryptoErr =>
        let err := Sprintf "wildcard denial RRSIG cryptographic verification failed: %v" [cryptoErr] in
        let proof := ((NSECProof.zero <| NSECProof.ProofType := "wildcard" |>)
          <| NSECProof.ResponseType := "WILDCARD" |>) <| NSECProof.Error := err |> in
        ret (note_error (Sprintf "wildcard answer from %s: %s" [wildcard; err])
          (validation <| RecordValidation.WildcardProof := Some proof |>))
    | Ok (authNSEC, authNSEC3) =>
        let proof := VerifyWildcardDenial qname (RRSIGRecord.Labels rrsig) authNSEC authNSEC3 in
        let validation := validation <| RecordValidation.WildcardProof := Some proof |> in
        if NSECProof.Verified proof then ret (validation <| RecordValidation.WildcardProofVerified := true |>)
        else
          let msg := Sprintf "wildcard answer from %s lacks a verified no-exact-match proof" [wildcard] in
          ret (note_error (if String.eqb (NSECProof.Error proof) "" then msg else msg +:+ ": " +:+ NSECProof.Error proof) validation)
    end.

(** The record form of a verified signature. *)
Definition signature_record (verified : VerifiedRRset.t) : V RRSIGRecord.t :=
  now <-- Now ;; ret (RRSIGFromRR (VerifiedRRset.Signature verified) SectionAnswer now).

(** [wildcardPathError]: fails as the code's error. *)
Definition wildcardPathError (verified : VerifiedRRset.t) (domain zone : string) (qr : QueryResult.t)
    (dnskeys : list DNSKEYRecord.t) : V unit :=
  sig <-- signature_record verified ;;
  scratch <-- verifyWildcard RecordValidation.zero domain zone sig qr dnskeys ;;
  if String.eqb (RecordValidation.Error scratch) "" then ret tt else fail (RecordValidation.Error scratch).

Definition first_cname (records : list RR) : option string :=
  head (omap (fun rr => match rr with RR_CNAME _ t => Some t | _ => None end) records).

Definition recordVerifiedLeaf (validation : RecordValidation.t) (verified : VerifiedRRset.t) (domain zone : string)
    (queryResult : QueryResult.t) (dnskeys : list DNSKEYRecord.t) : V RecordValidation.t :=
  let validation := ((validation <| RecordValidation.RRSIGVerified := true |>)
    <| RecordValidation.SigningKeyTag := RRSIG.KeyTag (VerifiedRRset.Signature verified) |>)
    <| RecordValidation.RecordCount := Z.of_nat (length (VerifiedRRset.Records verified)) |> in
  let validation :=
    if VerifiedRRset.Type_ verified =? TypeCNAME then
      match first_cname (VerifiedRRset.Records verified) with
      | Some t => validation <| RecordValidation.Target := t |>
      | None => validation
      end
    else validation in
  sig <-- signature_record verified ;;
  verifyWildcard validation domain zone sig queryResult dnskeys.

(** ** DNAME redirections *)

Definition authenticatedDNAMETarget (qr : QueryResult.t) (zone dnameOwner : string) (dnskeys : list DNSKEYRecord.t) : V string :=
  r <-- catch (verifyRRsetFromResponseB (QueryResult.RawResponse qr) TypeDNAME dnskeys dnameOwner zone true) ;;
  match r with
  | Err err => fail (Sprintf "DNAME RRSIG verification failed for %s: %w" [dnameOwner; err])
  | Ok verified =>
      match dname_target (Sprintf "DNAME RRset at %s holds more than one record" [dnameOwner]) "" (VerifiedRRset.Records verified) with
      | Err err => fail err
      | Ok "" => fail (Sprintf "verified DNAME RRset at %s holds no DNAME record" [dnameOwner])
      | Ok target => ret target
      end
  end.

(** [cnames] is exactly one record with the substitution as its target. *)
Definition is_substitution (cnames : list CNAMERecord.t) (expected : string) : bool :=
  match cnames with
  | [c] => String.eqb (CanonicalName (CNAMERecord.Target c)) (CanonicalName expected)
  | _ => false
  end.

Definition verifyDNAMEAnswer (validation : RecordValidation.t) (domain zone dnameOwner : string) (cnames : list CNAMERecord.t)
    (queryResult : QueryResult.t) (dnskeys : list DNSKEYRecord.t) : V RecordValidation.t :=
  let validation := (validation <| RecordValidation.RecordType := "DNAME" |>) <| RecordValidation.SynthesizedFrom := dnameOwner |> in
  let error msg := ret (validation <| RecordValidation.Error := msg |>) in
  r <-- catch (verifyRRsetFromResponseB (QueryResult.RawResponse queryResult) TypeDNAME dnskeys dnameOwner zone true) ;;
  match r with
  | Err err => error (Sprintf "DNAME RRSIG verification failed for %s: %v" [dnameOwner; err])
  | Ok verified =>
      match dname_target (Sprintf "DNAME RRset at %s holds more than one record (RFC 6672 §2.4)" [dnameOwner]) ""
              (VerifiedRRset.Records verified) with
      | Err err => error err
      | Ok "" => error (Sprintf "verified DNAME RRset at %s holds no DNAME record" [dnameOwner])
      | Ok target =>
          match substituteDNAME domain dnameOwner target with
          | Err err => error (Sprintf "authenticated DNAME %s -> %s cannot be applied: %v" [dnameOwner; target; err])
          | Ok expected =>
              if QueryResult.RCode queryResult =? RcodeYXDomain then
                error (Sprintf "authenticated DNAME %s -> %s answered YXDOMAIN although the substitution %s fits the name length limit"
                  [dnameOwner; target; expected])
              else if negb (is_substitution cnames expected) then
                error (Sprintf "synthesized CNAME target %v does not match the DNAME substitution %s -> %s of %s (expected %s)"
                  [show_strings (map CNAMERecord.Target cnames); dnameOwner; target; domain; expected])
              else
                let validation := (((validation <| RecordValidation.RRSIGVerified := true |>)
                  <| RecordValidation.SigningKeyTag := RRSIG.KeyTag (VerifiedRRset.Signature verified) |>)
                  <| RecordValidation.RecordCount := 1 |>)
                  <| RecordValidation.Target := expected |> in
                sig <-- signature_record verified ;;
                verifyWildcard validation dnameOwner zone sig queryResult dnskeys
          end
      end
  end.

(** ** The choice among the leaf's servers *)

(** A denial's proof, when the response carries denial records. *)
Definition denial_proof (domain zone : string) (qr : QueryResult.t) (dnskeys : list DNSKEYRecord.t) : V (option (string * NSECProof.t)) :=
  match denialNSECCandidates (QueryResult.NSEC qr), denialNSEC3Candidates (QueryResult.NSEC3 qr) with
  | (_ :: _) as cands, _ =>
      p <-- verifyNSECDenialWithRRSIGB domain (leafType v) cands dnskeys zone (QueryResult.RawResponse qr) (QueryResult.RCode qr) ;;
      ret (Some ("NSEC", p))
  | [], (_ :: _) as cands =>
      p <-- verifyNSEC3DenialWithRRSIGB domain (leafType v) cands dnskeys zone (QueryResult.RawResponse qr) (QueryResult.RCode qr) ;;
      ret (Some ("NSEC3", p))
  | [], [] => ret None
  end.

(** [leafCandidateError]: succeeds when the candidate's complete path
    authenticates, fails as the code's error otherwise. *)
Definition leafCandidateError (qr : QueryResult.t) (domain zone : string) (dnskeys : list DNSKEYRecord.t) : V unit :=
  match QueryResult.RawResponse qr with
  | [] => fail "no raw response to authenticate"
  | raw =>
      let leafCNAMEs := answerCNAMEsOwnedBy (QueryResult.CNAME qr) domain in
      let dnameOwner := dnameAncestorInAnswer qr domain in
      if QueryResult.RCode qr =? RcodeYXDomain then
        if String.eqb dnameOwner "" then fail "YXDOMAIN without a DNAME in the answer"
        else
          target <-- authenticatedDNAMETarget qr zone dnameOwner dnskeys ;;
          match substituteDNAME domain dnameOwner target with
          | Ok _ => fail "YXDOMAIN although the DNAME substitution fits the name length limit"
          | Err _ => ret tt
          end
      else if isDenialForType qr domain (leafType v) then
        p <-- denial_proof domain zone qr dnskeys ;;
        match p with
        | Some (kind, proof) =>
            if NSECProof.Verified proof then ret tt else fail (Sprintf "%s denial does not verify: %s" [kind; NSECProof.Error proof])
        | None => fail (Sprintf "%s denial without NSEC/NSEC3 records" [QueryResult.RCodeName qr])
        end
      else if answerHasTypeAt raw (leafType v) domain then
        verified <-- verifyRRsetFromResponseB raw (leafType v) dnskeys domain zone true ;;
        wildcardPathError verified domain zone qr dnskeys
      else
        match leafCNAMEs with
        | [] => fail (Sprintf "no %s RRset, CNAME, DNAME or denial records for %s in the answer" [leafTypeName v; domain])
        | _ =>
            if negb (String.eqb dnameOwner "") then
              target <-- authenticatedDNAMETarget qr zone dnameOwner dnskeys ;;
              expected <-- lift_res (substituteDNAME domain dnameOwner target) ;;
              if is_substitution leafCNAMEs expected then ret tt
              else fail (Sprintf "synthesized CNAME does not match the authenticated DNAME substitution %s" [expected])
            else
              verified <-- verifyRRsetFromResponseB raw TypeCNAME dnskeys domain zone true ;;
              wildcardPathError verified domain zone qr dnskeys
        end
  end.

(** The usable answers, each with the error of its path; in quick mode up to the
    first whose path authenticates. *)
Fixpoint leaf_candidates (nsAddresses : list string) (domain zone : string) (dnskeys : list DNSKEYRecord.t)
    (authenticated : bool) (usable : list (QueryResult.t * option string)) : V (list (QueryResult.t * option string)) :=
  match nsAddresses with
  | [] => ret usable
  | addr :: rest =>
      done_ <-- ctxErr ;;
      match done_ with
      | Some _ => ret usable
      | None =>
          result <-- QueryRecordAuthoritative addr domain (leafType v) ;;
          if negb (String.eqb (QueryResult.Error result) "") then leaf_candidates rest domain zone dnskeys authenticated usable
          else
            r <-- catch (leafCandidateError result domain zone dnskeys) ;;
            let err := match r with Ok _ => None | Err e => Some e end in
            let usable := usable ++ [(result, err)] in
            let first := bool_decide (err = None) && negb authenticated in
            if first && Validator.quickMode v then ret usable
            else leaf_candidates rest domain zone dnskeys (authenticated || bool_decide (err = None)) usable
      end
  end.

Definition leaf_disagreement (chosen : QueryResult.t) (c : QueryResult.t * option string) : option string :=
  let '(qr, err) := c in
  if negb (String.eqb (leafFingerprint qr) (leafFingerprint chosen)) then
    Some (Sprintf "%s (%s) returned a different %s answer (%s) than %s (%s) (%s)"
      [QueryResult.Server qr; QueryResult.IP qr; leafTypeName v; QueryResult.RCodeName qr;
       QueryResult.Server chosen; QueryResult.IP chosen; QueryResult.RCodeName chosen])
  else
    match err with
    | Some e => Some (Sprintf "%s (%s) returned the same %s answer as %s (%s) but its signature does not verify: %v"
        [QueryResult.Server qr; QueryResult.IP qr; leafTypeName v; QueryResult.Server chosen; QueryResult.IP chosen; e])
    | None => None
    end.

Definition queryLeafAllServers (nsAddresses : list string) (domain zone : string) (dnskeys : list DNSKEYRecord.t)
    : V (option QueryResult.t * list string) :=
  usable <-- leaf_candidates nsAddresses domain zone dnskeys false [] ;;
  let chosenIdx := default 0%nat (first_index (fun c => bool_decide (c.2 = None)) 0 usable) in
  match usable !! chosenIdx with
  | None => ret (None, [])
  | Some (chosen, _) => ret (Some chosen, omap (leaf_disagreement chosen) (take chosenIdx usable ++ drop (S chosenIdx) usable))
  end.

(** ** The leaf record *)

(** [&RecordValidation{Name, RecordType}] *)
Definition leaf_validation (domain : string) : RecordValidation.t :=
  (RecordValidation.zero <| RecordValidation.Name := NormalizeDomain domain |>) <| RecordValidation.RecordType := leafTypeName v |>.

(** The verification of the answer chosen. *)
Definition verify_answer (validation : RecordValidation.t) (domain zone : string) (dnskeys : list DNSKEYRecord.t)
    (queryResult : QueryResult.t) : V RecordValidation.t :=
  let error msg := ret (validation <| RecordValidation.Error := msg |>) in
  let leafCNAMEs := answerCNAMEsOwnedBy (QueryResult.CNAME queryResult) domain in
  let dnameOwner := dnameAncestorInAnswer queryResult domain in
  let raw := QueryResult.RawResponse queryResult in
  denial <-- (if isDenialForType queryResult domain (leafType v) then denial_proof domain zone queryResult dnskeys else ret None) ;;
  match denial with
  | Some (_, proof) =>
      let validation := validation <| RecordValidation.DenialProof := Some proof |> in
      ret (if NSECProof.Verified proof then validation <| RecordValidation.RRSIGVerified := true |>
           else if String.eqb (NSECProof.Error proof) "" then validation
           else validation <| RecordValidation.Error := NSECProof.Error proof |>)
  | None =>
      if QueryResult.RCode queryResult =? RcodeYXDomain then
        if String.eqb dnameOwner "" then error (Sprintf "YXDOMAIN for %s without a DNAME in the answer" [domain])
        else verifyDNAMEAnswer validation domain zone dnameOwner leafCNAMEs queryResult dnskeys
      else if answerHasTypeAt raw (leafType v) domain then
        r <-- catch (verifyRRsetFromResponseB raw (leafType v) dnskeys domain zone true) ;;
        match r with
        | Err err => error (Sprintf "%s record RRSIG verification failed: %v" [leafTypeName v; err])
        | Ok verified => recordVerifiedLeaf validation verified domain zone queryResult dnskeys
        end
      else
        match leafCNAMEs with
        | [] => error (Sprintf "no %s RRset or CNAME for %s in the answer and no NSEC/NSEC3 denial records" [leafTypeName v; domain])
        | _ =>
            if negb (String.eqb dnameOwner "") then
              verifyDNAMEAnswer validation domain zone dnameOwner leafCNAMEs queryResult dnskeys
            else
              let validation := validation <| RecordValidation.RecordType := "CNAME" |> in
              r <-- catch (verifyRRsetFromResponseB raw TypeCNAME dnskeys domain zone true) ;;
              match r with
              | Err err => ret (validation <| RecordValidation.Error := Sprintf "CNAME RRSIG verification failed: %v" [err] |>)
              | Ok verified => recordVerifiedLeaf validation verified domain zone queryResult dnskeys
              end
        end
  end.

Definition verifyActualRecord (domain zone : string) (dnskeys : list DNSKEYRecord.t) : V (option RecordValidation.t) :=
  let error msg := ret (Some ((leaf_validation domain) <| RecordValidation.Error := msg |>)) in
  match dnskeys with
  | [] => ret None
  | _ =>
      r <-- catch (ResolveNSSet zone) ;;
      match r with
      | Err err => error (Sprintf "failed to resolve nameservers: %v" [err])
      | Ok nsSet =>
          if Nat.eqb (length (NSSet.Records nsSet)) 0 then error "failed to resolve nameservers: <nil>"
          else if Truncated nsSet then
            error (Sprintf "failed to resolve nameservers: the nameserver set exceeds the fan-out bounds (%s)" [Join (NSSet.Truncation nsSet) "; "])
          else
            chosen <-- queryLeafAllServers (NSSet.Addresses nsSet) domain zone dnskeys ;;
            match chosen.1 with
            | None => error (Sprintf "failed to query %s record from authoritative servers" [leafTypeName v])
            | Some queryResult =>
                rv <-- verify_answer ((leaf_validation domain) <| RecordValidation.ServerDisagreements := chosen.2 |>)
                         domain zone dnskeys queryResult ;;
                ret (Some rv)
            end
      end
  end.

(** ** An alias below an unauthenticated chain *)

Definition plain_target (target : string) : bool :=
  IsDomainName target && negb (Contains target "\") && negb (Contains target "..").

Fixpoint alias_targets (nsAddresses : list string) (domain : string) : V string :=
  match nsAddresses with
  | [] => ret ""
  | addr :: rest =>
      done_ <-- ctxErr ;;
      match done_ with
      | Some _ => ret ""
      | None =>
          qr <-- QueryRecordAuthoritative addr domain (leafType v) ;;
          if negb (String.eqb (QueryResult.Error qr) "") ||
             (negb (QueryResult.RCode qr =? RcodeSuccess) && negb (QueryResult.RCode qr =? RcodeNameError))
          then alias_targets rest domain
          else
            match List.find plain_target (map (fun c => Fqdn (CNAMERecord.Target c)) (answerCNAMEsOwnedBy (QueryResult.CNAME qr) domain)) with
            | Some target => ret target
            | None => alias_targets rest domain
            end
      end
  end.

Definition discoverAliasTarget (domain leafZone : string) : V string :=
  r <-- catch (ResolveNSSet leafZone) ;;
  match r with
  | Err _ => ret ""
  | Ok nsSet => if Nat.eqb (length (NSSet.Records nsSet)) 0 then ret "" else alias_targets (NSSet.Addresses nsSet) domain
  end.
End leaf.
