(* ===== verification/Walk.v ===== *)
(** * Walk: one validation
    (validator/internal/validator/validator.go: validateWithCache, cnameGuard,
    followAlias)

    The walk from the root to the leaf zone, the leaf's verdict, and the recursion
    through aliases.  The visited names and the cache of zones are maps the nested
    validations share, so they are state.  The fuel counts nested validations;
    [WalkBounds] shows that [maxCNAMEDepth] is enough.  Events and durations are not
    part of the result. *)

From stdpp Require Import base list strings gmap pretty.
From Stdlib Require Import ZArith Lia.
From S2P Require Import Prelude GoTime Names Nsec Wire Authenticated Anchors Chain Resolver Results Rdap ParentDS ZoneAuth Leaf.
Local Open Scope Z_scope.

Definition maxCNAMEDepth : nat := 10.

Module WState.
Record t := mk { base : VState.t; visited : gset string; validatedZones : gmap string ZoneResult.t }.
#[global] Instance eta : Eta t := { eta r := mk (base r) (visited r) (validatedZones r); eta_id r := ltac:(by destruct r) }.
End WState.

(** The variables of the loop over the zones. *)
Module Track.
Record t := mk {
  result : ValidationResult.t; lastStatus : ValidationStatus; parentDNSKEY : list DNSKEYRecord.t;
  ancestorInsecure : bool; indeterminateAncestor : string
}.
#[global] Instance eta : Eta t := { eta r := mk (result r) (lastStatus r) (parentDNSKEY r) (ancestorInsecure r) (indeterminateAncestor r);
  eta_id r := ltac:(by destruct r) }.
End Track.

Definition vwarn (r : ValidationResult.t) (msgs : list string) : ValidationResult.t :=
  r <| ValidationResult.Warnings := ValidationResult.Warnings r ++ msgs |>.
Definition verr (r : ValidationResult.t) (msgs : list string) : ValidationResult.t :=
  r <| ValidationResult.Errors := ValidationResult.Errors r ++ msgs |>.

(** A validation's outcome: the result and the error beside it. *)
Definition outcome : Type := ValidationResult.t * option string.

(** [switch zoneResult.Status]: the status a zone adds; [None] stops the walk. *)
Definition track_status (zone : string) (status : ValidationStatus) (t : Track.t) : option Track.t :=
  match status with
  | StatusBogus => None
  | StatusInsecure =>
      Some ((t <| Track.ancestorInsecure := true |>)
        <| Track.lastStatus := match Track.lastStatus t with StatusSecure => StatusInsecure | s => s end |>)
  | StatusIndeterminate =>
      Some ((t <| Track.lastStatus := match Track.lastStatus t with StatusSecure | StatusInsecure => StatusIndeterminate | s => s end |>)
        <| Track.indeterminateAncestor := if String.eqb (Track.indeterminateAncestor t) "" then zone else Track.indeterminateAncestor t |>)
  | _ => Some t
  end.

(** A zone's result joins the chain and hands down its keys. *)
Definition add_zone (zr : ZoneResult.t) (t : Track.t) : Track.t :=
  (t <| Track.result := (Track.result t) <| ValidationResult.Chain := ValidationResult.Chain (Track.result t) ++ [zr] |> |>)
    <| Track.parentDNSKEY := nextParentDNSKEY zr |>.

(** [cnameGuard] *)
Definition cnameGuard (domain target : string) (depth maxDepth : nat) (visited : gset string)
    : option CNAMEChainResult.t * gset string :=
  let ct := canonicalizeName target in
  if bool_decide (ct ∈ visited) then
    (Some (CNAMEChainResult.mk domain target StatusBogus []
      (Sprintf "CNAME loop detected: %s points back to an already-visited name %s" [domain; target])), visited)
  else if Nat.leb maxDepth (depth + 1) then
    (Some (CNAMEChainResult.mk domain target StatusIndeterminate []
      (Sprintf "CNAME chain exceeded maximum depth (%d) at %s without resolving; terminal target not validated" [pretty maxDepth; target])), visited)
  else (None, {[ ct ]} ∪ visited).

(** What the outcome of an alias adds to the verdict. *)
Definition alias_verdict (cname : CNAMEChainResult.t) (lastStatus : ValidationStatus) (result : ValidationResult.t)
    : ValidationStatus * ValidationResult.t :=
  let result := result <| ValidationResult.CNAMEChains := ValidationResult.CNAMEChains result ++ [cname] |> in
  let target := CNAMEChainResult.Target cname in
  match CNAMEChainResult.Result cname with
  | StatusBogus => (StatusBogus, verr result [Sprintf "CNAME target %s is bogus" [target]])
  | StatusInsecure =>
      match lastStatus with
      | StatusSecure => (StatusInsecure, vwarn result [Sprintf "CNAME target %s is insecure" [target]])
      | s => (s, result)
      end
  | StatusIndeterminate =>
      match lastStatus with
      | StatusSecure | StatusInsecure =>
          (StatusIndeterminate, vwarn result [
            if String.eqb (CNAMEChainResult.Error cname) "" then Sprintf "CNAME target %s is indeterminate" [target]
            else Sprintf "CNAME target %s could not be validated: %s" [target; CNAMEChainResult.Error cname]])
      | s => (s, result)
      end
  | _ => (lastStatus, result)
  end.

(** The leaf's record validation folded into the result: the status, the result
    and the alias target. *)
Definition fold_leaf (rv : RecordValidation.t) (leafZone : ZoneResult.t) (chain : list ZoneResult.t) (result : ValidationResult.t)
    : ValidationStatus * ValidationResult.t * string :=
  let leafZone := leafZone <| ZoneResult.RecordValidation := Some rv |> in
  let leafZone :=
    if RecordValidation.Wildcard rv && negb (RecordValidation.WildcardProofVerified rv) then
      AddZoneWarning leafZone (Sprintf "wildcard-synthesized answer from %s lacks a verified closest-encloser proof of no direct match"
        [RecordValidation.WildcardSource rv])
    else leafZone in
  let '(verdict, msg) := recordValidationVerdict (Some rv) in
  let note := Sprintf "%s: %s" [ZoneResult.Zone leafZone; msg] in
  let '(leafZone, result) :=
    if bool_decide (verdict = StatusSecure) || String.eqb msg "" then (leafZone, result)
    else if bool_decide (verdict = StatusInsecure) then (AddZoneWarning leafZone msg, vwarn result [note])
    else (leafZone, verr result [note]) in
  let target := if bool_decide (verdict = StatusSecure) && RecordValidation.RRSIGVerified rv then RecordValidation.Target rv else "" in
  (verdict, result <| ValidationResult.Chain := chain ++ [leafZone] |>, target).

Section walk.
Context `{DnsLib} `{WireLib} `{ValidatorEnv} `{Network} `{ChainLib} `{RdapEnv} `{LeafLib} (v : Validator.t).
Local Notation V := (St VState.t string).
Local Notation W := (St WState.t string).

Definition in_base {A} (m : V A) : W A := fun w =>
  let '(r, s) := m (WState.base w) in (r, w <| WState.base := s |>).

(** A zone's result, from the cache or validated now and cached; the last is
    whether it was cached. *)
Definition zone_result (zone : string) (zones : list string) (t : Track.t) : W (ZoneResult.t * bool) :=
  cache <-- gets WState.validatedZones ;;
  match cache !! zone with
  | Some cachedResult => ret (cachedResult, true)
  | None =>
      r <-- in_base (catch (validateZone v zone zones (Track.parentDNSKEY t) (Track.ancestorInsecure t) (Track.indeterminateAncestor t))) ;;
      let zoneResult := match r with
                        | Ok zr => zr
                        | Err err => AddZoneError (verdict StatusIndeterminate (NewZoneResult zone)) err
                        end in
      modify (fun w => w <| WState.validatedZones := <[zone := zoneResult]> (WState.validatedZones w) |>) ;;;
      ret (zoneResult, false)
  end.

(** The errors of an exhausted budget, raised to the top level. *)
Definition budget_errors (zone : string) (zr : ZoneResult.t) : list string :=
  map (fun e => Sprintf "%s: %s" [zone; e]) (List.filter isBudgetExhaustedText (ZoneResult.Errors zr)).

(** The loop over the zones: the end of the validation, or the variables after it. *)
Fixpoint walk_zones (zones todo : list string) (t : Track.t) : W (outcome + Track.t) :=
  match todo with
  | [] => ret (inr t)
  | zone :: rest =>
      done_ <-- in_base ctxErr ;;
      match done_ with
      | Some err =>
          ret (inl (verr ((Track.result t) <| ValidationResult.Result := StatusIndeterminate |>) ["validation timeout"], Some err))
      | None =>
          zc <-- zone_result zone zones t ;;
          let '(zr, cached) := zc in
          let t := add_zone zr t in
          match track_status zone (ZoneResult.Status zr) t with
          | None => ret (inl ((Track.result t) <| ValidationResult.Result := StatusBogus |>, None))
          | Some t =>
              walk_zones zones rest
                (if bool_decide (ZoneResult.Status zr = StatusIndeterminate) && negb cached
                 then t <| Track.result := verr (Track.result t) (budget_errors zone zr) |> else t)
          end
      end
  end.

(** The leaf: the status and result after it, and the alias target. *)
Definition leaf_step (domain : string) (zones : list string) (t : Track.t) : W (ValidationStatus * ValidationResult.t * string) :=
  let result := Track.result t in
  match Track.lastStatus t, rev (ValidationResult.Chain result), rev zones with
  | StatusSecure, leafZone :: others, _ =>
      rv <-- in_base (verifyActualRecord v domain (ZoneResult.Zone leafZone) (ZoneResult.DNSKEY leafZone)) ;;
      match rv with
      | None => ret (StatusSecure, result, "")
      | Some rv => ret (fold_leaf rv leafZone (rev others) result)
      end
  | StatusBogus, _, _ => ret (StatusBogus, result, "")
  | s, _, leafZoneName :: _ =>
      if String.eqb leafZoneName "" then ret (s, result, "")
      else target <-- in_base (discoverAliasTarget v domain leafZoneName) ;; ret (s, result, target)
  | s, _, [] => ret (s, result, "")
  end.

Definition new_result (domain : string) : ValidationResult.t :=
  ValidationResult.mk (NormalizeDomain domain) (leafTypeName v) StatusValidating [] [] [] [].

Definition no_anchors : bool :=
  match Validator.anchors v with
  | None => true
  | Some ra => match RootAnchors.Anchors ra with [] => true | _ => false end
  end.

(** A new budget for a top-level validation, or when there is none. *)
Definition start_budget (depth : nat) : V unit :=
  ob <-- gets VState.budget ;;
  if Nat.eqb depth 0 || match ob with None => true | Some _ => false end then
    set_budget (newVerifyBudget (if Validator.verificationBudget v <=? 0 then DefaultVerificationBudget else Validator.verificationBudget v))
  else ret tt.

Definition discover_zones (domain : string) (result : ValidationResult.t) : V (list string * ValidationResult.t) :=
  r <-- catch (DiscoverZoneCuts domain) ;;
  ret (match r with
       | Ok zones => (zones, result)
       | Err err => (SplitIntoZoneHierarchy domain, vwarn result [Sprintf "zone cut discovery failed, using simple hierarchy: %v" [err]])
       end).

(** [followAlias], given the validation of its target. *)
Definition followAlias (validate : string -> nat -> W outcome) (domain target : string) (depth : nat) : W CNAMEChainResult.t :=
  modify (fun w => w <| WState.visited := {[ canonicalizeName domain ]} ∪ WState.visited w |>) ;;;
  visited <-- gets WState.visited ;;
  let '(term, visited) := cnameGuard domain target depth maxCNAMEDepth visited in
  modify (fun w => w <| WState.visited := visited |>) ;;;
  match term with
  | Some t => ret t
  | None =>
      r <-- validate target (S depth) ;;
      match r with
      | (_, Some err) => ret (CNAMEChainResult.mk domain target StatusIndeterminate []
          (Sprintf "alias target validation failed: %v" [err]))
      | (targetResult, None) =>
          ret (CNAMEChainResult.mk domain target (ValidationResult.Result targetResult) (ValidationResult.Chain targetResult) "")
      end
  end.

Definition out_of_fuel : string := "out of fuel".

Fixpoint validateWithCache (fuel : nat) (domain : string) (depth : nat) {struct fuel} : W outcome :=
  match fuel with
  | O => fail out_of_fuel
  | S fuel =>
      let result := new_result domain in
      if no_anchors then
        let err := "no root trust anchors available" in
        ret (verr (result <| ValidationResult.Result := StatusIndeterminate |>) [err], Some err)
      else
        in_base (start_budget depth) ;;;
        found <-- in_base (discover_zones domain result) ;;
        let '(zones, result) := found in
        walked <-- walk_zones zones zones (Track.mk result StatusSecure [] false "") ;;
        match walked with
        | inl out => ret out
        | inr t =>
            leaf <-- leaf_step domain zones t ;;
            let '(lastStatus, result, aliasTarget) := leaf in
            if negb (String.eqb aliasTarget "") && negb (leafType v =? TypeCNAME) then
              cname <-- followAlias (validateWithCache fuel) domain aliasTarget depth ;;
              let '(lastStatus, result) := alias_verdict cname lastStatus result in
              ret (result <| ValidationResult.Result := lastStatus |>, None)
            else ret (result <| ValidationResult.Result := lastStatus |>, None)
        end
  end.

(** [Validate]: a top-level validation. *)
Definition Validate (domain : string) : V outcome := fun s =>
  let '(r, w) := validateWithCache maxCNAMEDepth domain 0 (WState.mk s ∅ ∅) in (r, WState.base w).
End walk.
