(* ===== verification/RunBounded.v ===== *)
(** * RunBounded: the worker pool
    (validator/internal/validator/validator.go: runBounded, workerCount)

    The feeder and the workers share an unbuffered channel; the context may end at
    any moment.  One step is one choice of a [select], one hand-over, or one job's
    end, in any interleaving.  A job's result goes to its own slot, so a run is
    described by the jobs handed out and those finished. *)

From stdpp Require Import base list sets relations.
From Stdlib Require Import ZArith Lia.
From S2P Require Import Prelude ParentDS.

Definition workerCount (maxConcurrent : Z) : Z := if (maxConcurrent <=? 0)%Z then 1%Z else maxConcurrent.

(** The clamp of the pool's size. *)
Definition pool_size (n : nat) (workers : Z) : nat :=
  let workers := if (Z.of_nat n <? workers)%Z then Z.of_nat n else workers in
  Z.to_nat (if (workers <? 1)%Z then 1%Z else workers).

Inductive worker := Idle | Running (idx : nat) | Exited.
#[global] Instance worker_eq_dec : EqDecision worker. Proof. solve_decision. Defined.

Module Pool.
Record t := mk {
  next : nat;             (* the next index to hand over *)
  feeding : bool;         (* the feeder's loop has not closed the channel *)
  cancelled : bool;       (* the context has ended *)
  workers : list worker;
  finished : list nat     (* the indices whose job has returned *)
}.
End Pool.

Definition start (n : nat) (workers : Z) : Pool.t :=
  Pool.mk 0 true false (replicate (pool_size n workers) Idle) [].

Inductive step (n : nat) : Pool.t -> Pool.t -> Prop :=
| step_cancel i f ws fin :
    step n (Pool.mk i f false ws fin) (Pool.mk i f true ws fin)
| step_hand i c ws fin w :
    i < n -> ws !! w = Some Idle ->
    step n (Pool.mk i true c ws fin) (Pool.mk (S i) true c (<[w := Running i]> ws) fin)
| step_feeder_cancelled i ws fin :
    i < n -> step n (Pool.mk i true true ws fin) (Pool.mk i false true ws fin)
| step_feeder_done c ws fin :
    step n (Pool.mk n true c ws fin) (Pool.mk n false c ws fin)
| step_finish i f c ws fin w idx :
    ws !! w = Some (Running idx) ->
    step n (Pool.mk i f c ws fin) (Pool.mk i f c (<[w := Idle]> ws) (fin ++ [idx]))
| step_exit i f c ws fin w :
    ws !! w = Some Idle -> c = true \/ f = false ->
    step n (Pool.mk i f c ws fin) (Pool.mk i f c (<[w := Exited]> ws) fin).

(** [wg.Wait] returns. *)
Definition returned (p : Pool.t) : Prop := Pool.feeding p = false /\ Forall (eq Exited) (Pool.workers p).

Definition running (ws : list worker) : list nat := omap (fun w => match w with Running i => Some i | _ => None end) ws.

(** ** The invariant *)

(** What is handed out is the indices below [next], each to one worker or already
    finished; a worker leaves only after the end of the context or of the feeder;
    the feeder ends early only after the end of the context. *)
Record inv (n size : nat) (p : Pool.t) : Prop := {
  inv_handed : Pool.finished p ++ running (Pool.workers p) ≡ₚ seq 0 (Pool.next p);
  inv_next : Pool.next p <= n;
  inv_size : length (Pool.workers p) = size;
  inv_exited : Exited ∈ Pool.workers p -> Pool.cancelled p = true \/ Pool.feeding p = false;
  inv_fed : Pool.feeding p = false -> Pool.cancelled p = false -> Pool.next p = n
}.

Lemma running_insert_none (ws : list worker) (w : nat) x y :
  ws !! w = Some x -> running [x] = [] -> running (<[w := y]> ws) ≡ₚ running [y] ++ running ws.
Proof.
  intros Hw Hx. rewrite <-(take_drop_middle ws w x Hw) at 2. rewrite insert_take_drop by eauto using lookup_lt_Some.
  unfold running in *. change (y :: drop (S w) ws) with ([y] ++ drop (S w) ws). change (x :: drop (S w) ws) with ([x] ++ drop (S w) ws).
  rewrite !omap_app, Hx. solve_Permutation.
Qed.

Lemma running_insert_some (ws : list worker) (w : nat) idx y :
  ws !! w = Some (Running idx) -> running [y] = [] -> running ws ≡ₚ idx :: running (<[w := y]> ws).
Proof.
  intros Hw Hy. rewrite <-(take_drop_middle ws w _ Hw) at 1. rewrite insert_take_drop by eauto using lookup_lt_Some.
  unfold running in *. change (y :: drop (S w) ws) with ([y] ++ drop (S w) ws).
  change (Running idx :: drop (S w) ws) with ([Running idx] ++ drop (S w) ws).
  rewrite !omap_app, Hy. cbn. by rewrite <-Permutation_middle.
Qed.

Lemma exited_insert (ws : list worker) (w : nat) y : y <> Exited -> Exited ∈ <[w := y]> ws -> Exited ∈ ws.
Proof.
  intros Hy [j Hj]%list_elem_of_lookup. apply list_lookup_insert_Some in Hj as [(_ & He & _)|[_ Hj]].
  - by subst.
  - by eapply list_elem_of_lookup_2.
Qed.

Ltac pool_cbn := cbn [Pool.next Pool.feeding Pool.cancelled Pool.workers Pool.finished] in *.

Lemma inv_step n size p q : inv n size p -> step n p q -> inv n size q.
Proof.
  intros [Hh Hn Hs He Hf] Hstep. destruct Hstep; pool_cbn; constructor; pool_cbn; rewrite ?length_insert; try done; try lia; try by eauto.
  - rewrite seq_S, <-Hh, (running_insert_none _ _ _ (Running i) H0) by done. cbn. solve_Permutation.
  - intros Hx. apply exited_insert in Hx; [by apply He | done].
  - rewrite <-Hh, (running_insert_some _ _ _ Idle H) by done. rewrite <-app_assoc. cbn. done.
  - intros Hx. apply exited_insert in Hx; [by apply He | done].
  - by rewrite (running_insert_none _ _ _ Exited H).
Qed.

Lemma inv_start n workers : inv n (pool_size n workers) (start n workers).
Proof.
  unfold start. constructor; pool_cbn; rewrite ?length_replicate; try done; try lia.
  - cbn. by induction (pool_size n workers).
  - intros [? Hw]%list_elem_of_lookup. by apply lookup_replicate in Hw as [? _].
Qed.

Lemma inv_reachable n workers p : rtc (step n) (start n workers) p -> inv n (pool_size n workers) p.
Proof.
  intros Hr. pose proof (inv_start n workers) as Hi. revert Hi. generalize (pool_size n workers). intros size Hi.
  induction Hr as [|p q r Hpq _ IH]; [done|]. apply IH. by eapply inv_step.
Qed.

(** ** Termination *)

Definition weight (w : worker) : nat := match w with Idle => 1 | Running _ => 2 | Exited => 0 end.
Definition measure (n : nat) (p : Pool.t) : nat :=
  (if Pool.cancelled p then 0 else 1) + (if Pool.feeding p then 1 else 0) + 2 * (n - Pool.next p)
  + sum_list_with weight (Pool.workers p).

Lemma weight_insert ws w x y :
  ws !! w = Some x -> sum_list_with weight (<[w := y]> ws) + weight x = sum_list_with weight ws + weight y.
Proof.
  intros Hw. rewrite <-(take_drop_middle ws w x Hw) at 2. rewrite insert_take_drop by eauto using lookup_lt_Some.
  rewrite !sum_list_with_app. cbn. lia.
Qed.

Lemma step_decreases n p q : step n p q -> measure n q < measure n p.
Proof.
  destruct 1; unfold measure; pool_cbn; try lia.
  - pose proof (weight_insert _ _ _ (Running i) H0). cbn in *. lia.
  - pose proof (weight_insert _ _ _ Idle H). cbn in *. lia.
  - pose proof (weight_insert _ _ _ Exited H). cbn in *. lia.
Qed.

Lemma step_bound n k p q : nsteps (step n) k p q -> k + measure n q <= measure n p.
Proof.
  induction 1 as [|k p q r Hpq _ IH]; [lia|]. apply step_decreases in Hpq. lia.
Qed.

Lemma measure_start n workers : measure n (start n workers) = 2 + 2 * n + pool_size n workers.
Proof.
  unfold measure, start. pool_cbn. rewrite Nat.sub_0_r. enough (sum_list_with weight (replicate (pool_size n workers) Idle) = pool_size n workers) by lia.
  induction (pool_size n workers); cbn; lia.
Qed.

(** No interleaving gets stuck before the pool returns. *)
Lemma progress n size p : inv n size p -> 0 < size -> ~ returned p -> exists q, step n p q.
Proof.
  intros [Hh Hn Hs He Hf] Hpos Hnot. destruct p as [i f c ws fin]. unfold returned in Hnot. pool_cbn.
  destruct (decide (Forall (eq Exited) ws)) as [Hall|Hsome].
  - destruct f; [|by destruct Hnot]. destruct c.
    + destruct (decide (i = n)) as [->|]; eexists; [apply step_feeder_done | apply step_feeder_cancelled; lia].
    + destruct ws as [|w ws]; [cbn in Hs; lia|]. apply Forall_cons in Hall as [<- _].
      destruct He as [?|?]; [by left | done..].
  - apply not_Forall_Exists in Hsome; [|by intros; apply decide_rel; solve_decision].
    apply Exists_exists in Hsome as (w & [j Hj]%list_elem_of_lookup & Hw).
    destruct w as [|idx|]; [|by eexists; eapply step_finish | done].
    destruct f; [|eexists; eapply step_exit; eauto].
    destruct c; [eexists; eapply step_exit; eauto|].
    destruct (decide (i = n)) as [->|]; eexists; [apply step_feeder_done | eapply step_hand; [lia | done]].
Qed.

Lemma pool_size_pos n workers : 0 < pool_size n workers.
Proof. unfold pool_size. case_match; lia. Qed.

Lemma running_exited ws : Forall (eq Exited) ws -> running ws = [].
Proof. unfold running. induction 1 as [|? ? <- _ IH]; by cbn. Qed.

Lemma running_length ws : length (running ws) <= length ws.
Proof. unfold running. induction ws as [|[] ws IH]; cbn; lia. Qed.

(** ** The pool *)

(** C27: Whatever the interleaving and whenever the context
    ends: the pool never gets stuck, every run takes at most 2n + workers + 2 steps,
    at most [workers] jobs run at once, and when it returns the jobs that ran are a
    prefix of the indices, each run exactly once, and all of them unless the context
    ended. *)
Theorem runBounded_runs_every_job n workers p k :
  nsteps (step n) k (start n workers) p ->
  k <= 2 + 2 * n + pool_size n workers /\
  length (running (Pool.workers p)) <= pool_size n workers /\
  (returned p \/ exists q, step n p q) /\
  (returned p ->
    exists m, m <= n /\ Pool.finished p ≡ₚ seq 0 m /\ (Pool.cancelled p = false -> m = n)).
Proof.
  intros Hrun. pose proof (inv_reachable n workers p ltac:(apply rtc_nsteps; eauto)) as Hinv.
  split; [|split; [|split]].
  - apply step_bound in Hrun. rewrite measure_start in Hrun. lia.
  - rewrite <-(inv_size _ _ _ Hinv). apply running_length.
  - destruct (decide (returned p)) as [?|Hnot]; [by left | right]. eapply progress; eauto using pool_size_pos.
  - intros [Hf Hall]. exists (Pool.next p). pose proof (inv_handed _ _ _ Hinv) as Hh.
    rewrite running_exited, app_nil_r in Hh by done. split; [apply Hinv | split; [done|]]. by apply Hinv.
Qed.

(** Two workers over three jobs: the second job's worker finishes first, and the
    context ends before the third job is handed over. *)
Definition sample_run : Pool.t := Pool.mk 2 false true [Exited; Exited] [1; 0].

Lemma sample_run_reachable : nsteps (step 3) 8 (start 3 2) sample_run.
Proof.
  change (start 3 2) with (Pool.mk 0 true false [Idle; Idle] []).
  eapply nsteps_l; [apply (step_hand 3 0 false [Idle; Idle] [] 0); [lia | done]|]. cbn.
  eapply nsteps_l; [apply (step_hand 3 1 false [Running 0; Idle] [] 1); [lia | done]|]. cbn.
  eapply nsteps_l; [apply (step_finish 3 2 true false [Running 0; Running 1] [] 1 1); done|]. cbn.
  eapply nsteps_l; [apply step_cancel|].
  eapply nsteps_l; [apply step_feeder_cancelled; lia|].
  eapply nsteps_l; [apply (step_finish 3 2 false true [Running 0; Idle] [1] 0 0); done|]. cbn.
  eapply nsteps_l; [apply (step_exit 3 2 false true [Idle; Idle] [1; 0] 0); [done | by left]|]. cbn.
  eapply nsteps_l; [apply (step_exit 3 2 false true [Exited; Idle] [1; 0] 1); [done | by left]|]. cbn.
  apply nsteps_O.
Qed.

Theorem runBounded_runs_every_job_witness :
  exists p, nsteps (step 3) 8 (start 3 2) p /\ returned p /\
    exists m, m <= 3 /\ Pool.finished p ≡ₚ seq 0 m /\ (Pool.cancelled p = false -> m = 3).
Proof.
  exists sample_run. split; [exact sample_run_reachable|].
  assert (returned sample_run) as Hret by (split; [reflexivity | repeat constructor]).
  split; [exact Hret|].
  exact (proj2 (proj2 (proj2 (runBounded_runs_every_job 3 2 sample_run 8 sample_run_reachable))) Hret).
Defined.
