(* ===== verification/Serial.v ===== *)
(** * Serial: SOA serials (signer/internal/signer/sign.go)

    Serials are 32-bit and compared in RFC 1982 arithmetic; the published serial is
    derived from the unsigned one, the clock and the serial published before. *)

From stdpp Require Import base list strings pretty.
From Stdlib Require Import ZArith Lia Ascii.
From S2P Require Import Prelude GoTime Digests Wire.
Local Open Scope Z_scope.

Definition serialGt (a b : Z) : bool := (b <? a) && (a - b <? 2 ^ 31) || (a <? b) && (2 ^ 31 <? b - a).

Definition epochSerialFloor : Z := 946684800.

(** [%q] of a printable string *)
Definition quoted (s : string) : string := String (ascii_of_N 34) (s +:+ String (ascii_of_N 34) "").

(** [uint32(t.Unix())] *)
Definition unix32 (t : Time) : Z := wrap32 (t / Second - 62135596800).

Definition nextPublishedSerial (domain policy : string) (serial previous : Z) (now : Time) : res string Z :=
  if negb (String.eqb policy "epoch") then Ok serial
  else
    let nowSerial := unix32 now in
    if (serial <? epochSerialFloor) || (add32 nowSerial 86400 <? serial) then
      Err (Sprintf "zone %s: serial_policy %q requires a unix epoch SOA serial in the unsigned zone, got %d (expected %d..%d); set the serial to epoch seconds, e.g. `date +%s`"
        [domain; quoted policy; pretty serial; pretty epochSerialFloor; pretty (add32 nowSerial 86400); "%s"])
    else
      let next := if negb (serialGt nowSerial serial) then add32 serial 1 else nowSerial in
      Ok (if negb (previous =? 0) && negb (serialGt next previous) then add32 previous 1 else next).

(** The projected serial is returned with an error too. *)
Definition ValidateImportSerial (domain policy : string) (source : Z) (served : list Z) (now : Time) : Z * option string :=
  match nextPublishedSerial domain policy source 0 now with
  | Err err => (0, Some err)
  | Ok projected =>
      match List.find (fun current => negb (serialGt projected current)) served with
      | None => (projected, None)
      | Some current =>
          (projected, Some
            (if String.eqb policy "epoch" then
               Sprintf "projected SOA serial %d under serial_policy %q does not advance the currently served serial %d; correct the source serial or clock before importing"
                 [pretty projected; quoted policy; pretty current]
             else
               Sprintf "source SOA serial %d under serial_policy %q does not advance the currently served serial %d; update the source serial or use serial_policy = %q before importing"
                 [pretty source; quoted policy; pretty current; quoted "epoch"]))
      end
  end.

Definition set_serial (serial : Z) (numbers : list Z) : list Z := match numbers with _ :: rest => serial :: rest | [] => [] end.

(** The first SOA only. *)
Fixpoint setSOASerial (records : list RR) (serial : Z) : list RR :=
  match records with
  | [] => []
  | RR_SOA h ns mbox numbers :: rest => RR_SOA h ns mbox (set_serial serial numbers) :: rest
  | rr :: rest => rr :: setSOASerial rest serial
  end.

(** ** RFC 1982 *)

Definition uint32 (x : Z) : Prop := 0 <= x < 2 ^ 32.

(** [a] is ahead of [b] by less than half the circle. *)
Lemma serialGt_spec a b : uint32 a -> uint32 b -> serialGt a b = true <-> 0 < (a - b) mod 2 ^ 32 < 2 ^ 31.
Proof.
  unfold uint32, serialGt. intros Ha Hb.
  rewrite orb_true_iff, !andb_true_iff, !Z.ltb_lt.
  destruct (Z_lt_le_dec a b).
  - replace ((a - b) mod 2 ^ 32) with (a - b + 2 ^ 32) by (apply Zmod_unique with (-1); lia). lia.
  - rewrite Z.mod_small by lia. lia.
Qed.

Lemma unix32_uint32 t : uint32 (unix32 t).
Proof. apply Z.mod_pos_bound. lia. Qed.
Lemma add32_uint32 x y : uint32 (add32 x y).
Proof. apply Z.mod_pos_bound. lia. Qed.

Lemma serialGt_succ x : uint32 x -> serialGt (add32 x 1) x = true.
Proof.
  intros Hx. apply serialGt_spec; [apply add32_uint32 | done|].
  unfold add32, wrap32. rewrite Zminus_mod_idemp_l. replace (x + 1 - x) with 1 by lia. rewrite Z.mod_small; lia.
Qed.

(** One past a serial ahead of [b] by [d]. *)
Lemma serialGt_succ_ahead x b : uint32 x -> uint32 b -> (x - b) mod 2 ^ 32 < 2 ^ 31 - 1 -> serialGt (add32 x 1) b = true.
Proof.
  intros Hx Hb Hd. apply serialGt_spec; [apply add32_uint32 | done|].
  unfold add32, wrap32. rewrite Zminus_mod_idemp_l. replace (x + 1 - b) with (x - b + 1) by lia.
  rewrite <-Zplus_mod_idemp_l. pose proof (Z.mod_pos_bound (x - b) (2 ^ 32)). rewrite Z.mod_small; lia.
Qed.

(** C38: Under the epoch policy an accepted serial advances
    what secondaries hold: always past the serial published last, and past the
    unsigned file's serial too, unless the last published one is half the circle
    away from that. Other policies publish the unsigned serial. *)
Theorem published_serial_advances domain policy serial previous now next :
  uint32 serial -> uint32 previous ->
  nextPublishedSerial domain policy serial previous now = Ok next ->
  if String.eqb policy "epoch" then
    uint32 next /\ epochSerialFloor <= serial /\
    (previous <> 0 -> serialGt next previous = true) /\
    (previous = 0 \/ (previous - serial) mod 2 ^ 32 < 2 ^ 31 - 1 -> serialGt next serial = true)
  else next = serial.
Proof.
  intros Hs Hp. unfold nextPublishedSerial. destruct (String.eqb policy "epoch"); cbn [negb]; [|by intros [= ->]].
  destruct (Z.ltb_spec serial epochSerialFloor) as [?|Hfloor]; [done|]. cbn [orb]. destruct (_ <? serial); [done|]. intros [= <-].
  set (next0 := if negb (serialGt (unix32 now) serial) then _ else _).
  assert (uint32 next0 /\ serialGt next0 serial = true) as [Hn0 Hg0].
  { subst next0. destruct (serialGt (unix32 now) serial) eqn:Hg; cbn [negb].
    - split; [apply unix32_uint32 | done].
    - split; [apply add32_uint32 | by apply serialGt_succ]. }
  destruct (Z.eqb_spec previous 0) as [->|Hne]; cbn [negb andb]; [by split_and!|].
  destruct (serialGt next0 previous) eqn:Hgp; cbn [negb]; [by split_and!|].
  split_and!; [apply add32_uint32 | done | by intros; apply serialGt_succ|].
  intros [?|Hd]; [done|]. by apply serialGt_succ_ahead.
Qed.

(** The epoch floor is 2000-01-01; the clock is behind the last published serial. *)
Lemma published_serial_advances_witness :
  nextPublishedSerial "example" "epoch" 1700000000 1700000500 (unix_time 1700000400) = Ok 1700000501 /\
  serialGt 1700000501 1700000500 = true /\ serialGt 1700000501 1700000000 = true.
Proof.
  assert (nextPublishedSerial "example" "epoch" 1700000000 1700000500 (unix_time 1700000400) = Ok 1700000501) as Hr by (vm_compute; reflexivity).
  split; [exact Hr|].
  pose proof (published_serial_advances "example" "epoch" 1700000000 1700000500 (unix_time 1700000400) 1700000501
    ltac:(unfold uint32; lia) ltac:(unfold uint32; lia) Hr) as (_ & _ & Hp & Hs).
  split; [apply Hp; lia | apply Hs; right; vm_compute; reflexivity].
Defined.

(** An import is accepted exactly when the first serial it
    would publish advances every serial served now. *)
Theorem import_serial_advances domain policy source served now projected :
  ValidateImportSerial domain policy source served now = (projected, None) <->
  nextPublishedSerial domain policy source 0 now = Ok projected /\
  Forall (fun current => serialGt projected current = true) served.
Proof.
  unfold ValidateImportSerial. destruct (nextPublishedSerial _ _ _ _ _) as [p|e]; [|naive_solver].
  destruct (List.find _ served) as [c|] eqn:Hf.
  - apply find_some in Hf as [Hin Hg]. split; [done|]. intros [[= ->] Hall]. rewrite Forall_forall in Hall.
    rewrite (Hall c) in Hg; [done | by apply list_elem_of_In].
  - split.
    + intros [= ->]. split; [done|]. apply Forall_forall. intros c Hc. apply list_elem_of_In in Hc.
      pose proof (find_none _ _ Hf c Hc) as Hg. by apply negb_false_iff in Hg.
    + by intros [[= ->] _].
Qed.
