(* ===== verification/KeyMaterial.v ===== *)
(** * KeyMaterial: DNSSEC key pairs in memory and in files
    (signer/internal/signer/keys.go, rsa.go)

    A private key travels as bytes: an Ed25519 seed or expanded key, an ECDSA scalar,
    or the PKCS #1 encoding of an RSA key.  [CryptoLib] is what Go's crypto packages
    and the DNS library's key functions provide; everything the signer itself decides
    about a pair is here: whether its halves correspond, whether a key may serve a
    zone in a role, and the BIND file format, both ways. *)

From stdpp Require Import base list strings gmap pretty.
From Stdlib Require Import ZArith Lia Ascii.
From S2P Require Import Prelude GoTime KeyOps Names Digests Wire Serial.
Local Open Scope Z_scope.

Inductive Curve := P256 | P384.

Module RSAKey.
Record t := mk { N : Z; E : Z; D : Z; P : Z; Q : Z }.
End RSAKey.

(** A [crypto.Signer] *)
Inductive CryptoSigner :=
| EdSigner (key : list Z)
| EcSigner (curve : Curve) (D X Y : Z)
| RsaSigner (key : RSAKey.t).

Class CryptoLib := {
  (** [ed25519.NewKeyFromSeed]: seed and public key, 64 bytes *)
  NewKeyFromSeed : list Z -> list Z;
  (** [curve.ScalarBaseMult], [curve.Params().N] *)
  ScalarBaseMult : Curve -> list Z -> Z * Z;
  CurveN : Curve -> Z;
  (** [x509.ParsePKCS1PrivateKey], [x509.MarshalPKCS1PrivateKey], and
      [key.Validate] after [key.Precompute] *)
  ParsePKCS1PrivateKey : list Z -> res string RSAKey.t;
  MarshalPKCS1PrivateKey : RSAKey.t -> list Z;
  ValidateRSA : RSAKey.t -> option string;
  (** [dns.NewRR], [dnskey.String], [dnskey.PrivateKeyString] *)
  NewRR : string -> res string RR;
  DNSKEYString : DNSKEY.t -> string;
  PrivateKeyString : DNSKEY.t -> RSAKey.t -> string;
  (** The random keys, by the number of draws so far: [ed25519.GenerateKey],
      [ecdsa.GenerateKey] (D, X, Y), [dnskey.Generate] (public key field, key) *)
  GenerateEd25519 : nat -> res string (list Z * list Z);
  GenerateECDSA : nat -> Curve -> res string (Z * Z * Z);
  GenerateRSA : nat -> DNSKEY.t -> Z -> res string (string * RSAKey.t)
}.

(** Algorithm numbers *)
Definition RSASHA1 : Z := 5.
Definition RSASHA1NSEC3SHA1 : Z := 7.
Definition RSASHA256 : Z := 8.
Definition RSASHA512 : Z := 10.
Definition ECDSAP256SHA256 : Z := 13.
Definition ECDSAP384SHA384 : Z := 14.
Definition ED25519 : Z := 15.

Definition SeedSize : nat := 32.
Definition PrivateKeySize : nat := 64.
Definition PublicKeySize : nat := 32.

(** [x.BitLen()] of a non-negative number *)
Definition BitLen (x : Z) : Z := if x <=? 0 then 0 else Z.log2 x + 1.

(** [bytes.Equal] *)
Definition bytes_equal (a b : list Z) : bool := bool_decide (a = b).

(** [base64.StdEncoding.EncodeToString] *)
Definition base64_char (v : Z) : ascii :=
  ascii_of_N (Z.to_N (if v <? 26 then v + 65 else if v <? 52 then v + 71 else if v <? 62 then v - 4 else if v =? 62 then 43 else 47)).
Fixpoint base64_chars (bs : list Z) : list ascii :=
  match bs with
  | a :: b :: c :: rest =>
      base64_char (a / 4) :: base64_char (a mod 4 * 16 + b / 16) :: base64_char (b mod 16 * 4 + c / 64) ::
      base64_char (c mod 64) :: base64_chars rest
  | [a; b] => [base64_char (a / 4); base64_char (a mod 4 * 16 + b / 16); base64_char (b mod 16 * 4); "="%char]
  | [a] => [base64_char (a / 4); base64_char (a mod 4 * 16); "="%char; "="%char]
  | [] => []
  end.
Definition base64_encode (bs : list Z) : string := String.string_of_list_ascii (base64_chars bs).

(** The end of a line. *)
Definition NL : string := String (ascii_of_N 10) "".

Section material.
Context `{DnsLib} `{WireLib} `{CryptoLib}.

(** ** rsa.go *)

Definition rsaMinBits : Z := 512.
Definition rsaMaxBits : Z := 4096.
Definition rsaGeneratedBits : Z := 2048.

Definition isRSA (alg : Z) : bool := (alg =? RSASHA256) || (alg =? RSASHA512).
Definition isSHA1RSA (alg : Z) : bool := (alg =? RSASHA1) || (alg =? RSASHA1NSEC3SHA1).

Definition checkRSABits (bits : Z) : res string unit :=
  if bits <? rsaMinBits then Err (Sprintf "RSA key is %d bits; at least %d bits are required" [pretty bits; pretty rsaMinBits])
  else if rsaMaxBits <? bits then Err (Sprintf "RSA key is %d bits; at most %d bits are supported" [pretty bits; pretty rsaMaxBits])
  else Ok tt.

(** The modulus and exponent of an RSA public key. *)
Definition rsaPublicKeyFromDNSKEY (dnskey : DNSKEY.t) : res string (Z * Z) :=
  match base64_decode (DNSKEY.PublicKey dnskey) with
  | Err err => Err (Sprintf "decoding DNSKEY public key: %w" [err])
  | Ok raw =>
      match raw with
      | r0 :: r1 :: r2 :: _ =>
          let '(expLen, off) := if r0 =? 0 then (Z.lor (Z.shiftl r1 8) r2, 3) else (r0, 1) in
          if (expLen =? 0) || (Z.of_nat (length raw) <? off + expLen + 1) then
            Err "RSA DNSKEY public key has a malformed exponent length"
          else
            let e := be_value (take (Z.to_nat expLen) (drop (Z.to_nat off) raw)) in
            if 31 <? BitLen e then Err (Sprintf "RSA DNSKEY public exponent is too large (%d bits)" [pretty (BitLen e)])
            else Ok (be_value (drop (Z.to_nat (off + expLen)) raw), e)
      | _ => Err (Sprintf "RSA DNSKEY public key is too short (%d bytes)" [pretty (length raw)])
      end
  end.

Definition rsa_field (fields : gmap string string) (name : string) : res string Z :=
  match fields !! name with
  | None => Err (Sprintf "no %s field in RSA private key file" [name])
  | Some v =>
      match base64_decode v with
      | Err err => Err (Sprintf "decoding %s: %w" [name; err])
      | Ok [] => Err (Sprintf "%s field is empty" [name])
      | Ok b => Ok (be_value b)
      end
  end.

Definition parseBindRSAPrivateKey (fields : gmap string string) : res string (list Z) :=
  try n <- rsa_field fields "modulus";
  try e <- rsa_field fields "publicexponent";
  try d <- rsa_field fields "privateexponent";
  try p <- rsa_field fields "prime1";
  try q <- rsa_field fields "prime2";
  check checkRSABits (BitLen n);
  if 31 <? BitLen e then Err (Sprintf "RSA public exponent is too large (%d bits)" [pretty (BitLen e)])
  else
    let key := RSAKey.mk n e d p q in
    match ValidateRSA key with
    | Some err => Err (Sprintf "RSA private key is inconsistent: %w" [err])
    | None => Ok (MarshalPKCS1PrivateKey key)
    end.

Definition rsaPrivateKeyFromBytes (privateKey : list Z) : res string RSAKey.t :=
  match ParsePKCS1PrivateKey privateKey with
  | Err err => Err (Sprintf "invalid RSA private key: %w" [err])
  | Ok key => check checkRSABits (BitLen (RSAKey.N key)); Ok key
  end.

Definition verifyRSACorrespondence (dnskey : DNSKEY.t) (privateKey : list Z) : res string unit :=
  try priv <- rsaPrivateKeyFromBytes privateKey;
  try pub <- rsaPublicKeyFromDNSKEY dnskey;
  if negb (pub.1 =? RSAKey.N priv) || negb (pub.2 =? RSAKey.E priv) then
    Err (Sprintf "RSA private key does not correspond to the DNSKEY public key (key tag %d)" [pretty (KeyTagOf dnskey)])
  else Ok tt.

Definition RSAKeyBits (dnskey : option DNSKEY.t) : Z :=
  match dnskey with
  | None => 0
  | Some dnskey =>
      if negb (isRSA (DNSKEY.Algorithm dnskey)) && negb (isSHA1RSA (DNSKEY.Algorithm dnskey)) then 0
      else match rsaPublicKeyFromDNSKEY dnskey with Ok pub => BitLen pub.1 | Err _ => 0 end
  end.

(** The key with its public key field filled in, and the private half. *)
Definition set_public (dnskey : DNSKEY.t) (pub : string) : DNSKEY.t :=
  DNSKEY.mk (DNSKEY.Hdr dnskey) (DNSKEY.Flags dnskey) (DNSKEY.Protocol dnskey) (DNSKEY.Algorithm dnskey) pub.
Definition generateRSAKey (draw : nat) (dnskey : DNSKEY.t) : res string (DNSKEY.t * list Z) :=
  match GenerateRSA draw dnskey rsaGeneratedBits with
  | Err err => Err (Sprintf "generating %s key: %w" [AlgorithmName (DNSKEY.Algorithm dnskey); err])
  | Ok (pub, key) => Ok (set_public dnskey pub, MarshalPKCS1PrivateKey key)
  end.

Definition formatRSAPrivateKey (dnskey : DNSKEY.t) (privateKey : list Z) (created : string) : res string string :=
  try priv <- rsaPrivateKeyFromBytes privateKey;
  Ok (PrivateKeyString dnskey priv +:+ "Created: " +:+ created +:+ NL).

(** ** keys.go: correspondence of the halves *)

(** [ed25519.PrivateKey.Public] *)
Definition ed_public (key : list Z) : list Z := drop SeedSize key.

(** The public key an Ed25519 private key of either length stands for. *)
Definition ed_derived (keyTag : Z) (privateKey : list Z) : res string (list Z) :=
  if Nat.eqb (length privateKey) SeedSize then Ok (ed_public (NewKeyFromSeed privateKey))
  else if Nat.eqb (length privateKey) PrivateKeySize then
    let fromSeed := NewKeyFromSeed (take SeedSize privateKey) in
    if negb (bytes_equal (drop SeedSize fromSeed) (drop SeedSize privateKey)) then
      Err (Sprintf "expanded ED25519 private key is inconsistent: its public suffix does not match the key derived from its seed (key tag %d)" [pretty keyTag])
    else Ok (ed_public fromSeed)
  else Err (Sprintf "invalid ED25519 private key length %d (want %d or %d)" [pretty (length privateKey); pretty SeedSize; pretty PrivateKeySize]).

Definition verifyECDSACorrespondence (curve : Curve) (size : nat) (privateKey pubBytes : list Z) (keyTag : Z) : res string unit :=
  if negb (Nat.eqb (length privateKey) size) then
    Err (Sprintf "invalid ECDSA private key length %d (want %d)" [pretty (length privateKey); pretty size])
  else if negb (Nat.eqb (length pubBytes) (2 * size)) then
    Err (Sprintf "invalid ECDSA public key length %d (want %d)" [pretty (length pubBytes); pretty (2 * size)%nat])
  else
    let d := be_value privateKey in
    if (d =? 0) || (CurveN curve <=? d) then Err (Sprintf "ECDSA private scalar is out of range [1, n-1] (key tag %d)" [pretty keyTag])
    else
      let '(x, y) := ScalarBaseMult curve privateKey in
      if negb (bytes_equal (be_bytes size x ++ be_bytes size y) pubBytes) then
        Err (Sprintf "ECDSA private key does not correspond to the DNSKEY public key (key tag %d)" [pretty keyTag])
      else Ok tt.

Definition VerifyKeyPairCorrespondence (dnskey : DNSKEY.t) (privateKey : list Z) : res string unit :=
  let alg := DNSKEY.Algorithm dnskey in
  if isRSA alg || isSHA1RSA alg then verifyRSACorrespondence dnskey privateKey
  else
    match base64_decode (DNSKEY.PublicKey dnskey) with
    | Err err => Err (Sprintf "decoding DNSKEY public key: %w" [err])
    | Ok pubBytes =>
        if alg =? ED25519 then
          try derived <- ed_derived (KeyTagOf dnskey) privateKey;
          if negb (Nat.eqb (length pubBytes) PublicKeySize) || negb (bytes_equal derived pubBytes) then
            Err (Sprintf "ED25519 private key does not correspond to the DNSKEY public key (key tag %d)" [pretty (KeyTagOf dnskey)])
          else Ok tt
        else if alg =? ECDSAP256SHA256 then verifyECDSACorrespondence P256 32 privateKey pubBytes (KeyTagOf dnskey)
        else if alg =? ECDSAP384SHA384 then verifyECDSACorrespondence P384 48 privateKey pubBytes (KeyTagOf dnskey)
        else Err (Sprintf "unsupported algorithm %d for key-pair verification" [pretty alg])
    end.

(** ** Admission to a role *)

Definition validateLoadedKey (dnskey : DNSKEY.t) (domain keyType : string) : res string unit :=
  let owner := Hdr.Name (DNSKEY.Hdr dnskey) in
  let alg := DNSKEY.Algorithm dnskey in
  if negb (EqualFold owner (Fqdn domain)) then
    Err (Sprintf "key owner %q does not match zone %q" [quoted owner; quoted (Fqdn domain)])
  else
    try wantFlags <- (if String.eqb keyType "ksk" then Ok 257 else if String.eqb keyType "zsk" then Ok 256
                      else Err (Sprintf "unknown key role %q" [quoted keyType]));
    if negb (DNSKEY.Flags dnskey =? wantFlags) then
      Err (Sprintf "key flags %d do not match role %q (want %d)" [pretty (DNSKEY.Flags dnskey); quoted keyType; pretty wantFlags])
    else if (alg =? ED25519) || (alg =? ECDSAP256SHA256) || (alg =? ECDSAP384SHA384) || (alg =? RSASHA256) || (alg =? RSASHA512) then Ok tt
    else if (alg =? RSASHA1) || (alg =? RSASHA1NSEC3SHA1) then
      Err (Sprintf "%s key for %s uses %s (algorithm %d): SHA-1 signatures are no longer treated as secure by validating resolvers (RFC 8624 §3.1), so this signer will not sign with it; roll the zone to RSASHA256 or a current algorithm with its present signer first, or import a key of a current algorithm whose DS the parent already holds"
        [keyType; domain; AlgorithmName alg; pretty alg])
    else Err (Sprintf "unsupported key algorithm %d in %s key for %s" [pretty alg; keyType; domain]).

Definition checkKeyTag (dnskey : DNSKEY.t) (want : Z) : res string unit :=
  let got := KeyTagOf dnskey in
  if negb (got =? want) then Err (Sprintf "file named for key tag %d holds key tag %d" [pretty want; pretty got]) else Ok tt.

(** The same key material for the same owner and role. *)
Definition samePublicKey (a b : DNSKEY.t) : bool :=
  String.eqb (DNSKEY.PublicKey a) (DNSKEY.PublicKey b) && (DNSKEY.Algorithm a =? DNSKEY.Algorithm b) &&
  (DNSKEY.Flags a =? DNSKEY.Flags b) && (DNSKEY.Protocol a =? DNSKEY.Protocol b) &&
  EqualFold (Hdr.Name (DNSKEY.Hdr a)) (Hdr.Name (DNSKEY.Hdr b)).

(** ** Files *)

Definition splitLines (content : string) : list string := Split (ascii_of_N 10) content.

(** The first line that parses as a DNSKEY. *)
Fixpoint find_dnskey (lines : list string) : res string DNSKEY.t :=
  match lines with
  | [] => Err "no DNSKEY record found in file"
  | line :: rest =>
      if String.eqb line "" || HasPrefix line ";" then find_dnskey rest
      else match NewRR line with
           | Ok (RR_DNSKEY dnskey) => Ok dnskey
           | _ => find_dnskey rest
           end
  end.
Definition ParseDNSKEYFromFile (content : string) : res string DNSKEY.t := find_dnskey (splitLines content).

(** [strings.Cut(s, sep)] for a one-byte separator *)
Fixpoint Cut (s : string) (sep : ascii) : option (string * string) :=
  match s with
  | EmptyString => None
  | String c s' =>
      if Ascii.eqb c sep then Some ("", s')
      else match Cut s' sep with Some (a, b) => Some (String c a, b) | None => None end
  end.

Definition parse_field (fields : gmap string string) (line : string) : gmap string string :=
  match Cut line ":" with
  | Some (name, value) => <[ToLower (TrimSpace name) := TrimSpace value]> fields
  | None => fields
  end.
Definition parsePrivateKeyFields (content : string) : gmap string string := fold_left parse_field (splitLines content) ∅.

(** [strconv.ParseUint(s, 10, bits)] *)
Definition ParseUint (s : string) (bits : Z) : option Z :=
  match span_digits s with
  | (d :: ds, "") =>
      let n := fold_left (fun acc d => acc * 10 + d) (d :: ds) 0 in
      if n <? 2 ^ bits then Some n else None
  | _ => None
  end.

Definition privateKeyFileAlgorithm (fields : gmap string string) : option Z :=
  match fields !! "algorithm" with
  | None => None
  | Some v => ParseUint (match Cut v " " with Some (num, _) => num | None => v end) 8
  end.

Definition ParsePrivateKeyFromFile (content : string) : res string (list Z) :=
  let fields := parsePrivateKeyFields content in
  let single :=
    match fields !! "privatekey" with
    | Some v => base64_decode v
    | None => Err "no PrivateKey field found in file"
    end in
  match privateKeyFileAlgorithm fields with
  | Some alg => if isRSA alg || isSHA1RSA alg then parseBindRSAPrivateKey fields else single
  | None => single
  end.

(** [t.Format("20060102150405")] of a UTC time *)
Definition format_compact (t : Time) : string :=
  let s := t / Second in
  let '(y, mo, d) := civil_of_days (s / 86400) in
  let sod := s mod 86400 in
  fmt_0d 4 y +:+ fmt_0d 2 mo +:+ fmt_0d 2 d +:+ fmt_0d 2 (sod / 3600) +:+ fmt_0d 2 (sod / 60 mod 60) +:+ fmt_0d 2 (sod mod 60).

(** The seed of an expanded Ed25519 key that is consistent with it, else the key. *)
Definition stored_private (dnskey : DNSKEY.t) (privateKey : list Z) : list Z :=
  if (DNSKEY.Algorithm dnskey =? ED25519) && Nat.eqb (length privateKey) PrivateKeySize then
    let seed := take SeedSize privateKey in
    if bytes_equal (drop SeedSize (NewKeyFromSeed seed)) (drop SeedSize privateKey) then seed else privateKey
  else privateKey.

Definition formatPrivateKey (dnskey : DNSKEY.t) (privateKey : list Z) (now : Time) : res string string :=
  let created := format_compact now in
  if isRSA (DNSKEY.Algorithm dnskey) then formatRSAPrivateKey dnskey privateKey created
  else
    Ok (Join ["Private-key-format: v1.3";
              Sprintf "Algorithm: %d (%s)" [pretty (DNSKEY.Algorithm dnskey); AlgorithmName (DNSKEY.Algorithm dnskey)];
              "PrivateKey: " +:+ base64_encode (stored_private dnskey privateKey);
              "Created: " +:+ created; ""] NL).

Definition format_public_key (dnskey : DNSKEY.t) (now : Time) : string :=
  Join ["; Key tag: " +:+ pretty (KeyTagOf dnskey); "; Algorithm: " +:+ AlgorithmName (DNSKEY.Algorithm dnskey);
        "; Created: " +:+ FormatRFC3339 now; DNSKEYString dnskey; ""] NL.

(** ** Generation *)

Definition new_dnskey (domain : string) (flags alg : Z) (pub : string) : DNSKEY.t :=
  DNSKEY.mk (Hdr.mk (Fqdn domain) TypeDNSKEY 1 3600) flags 3 alg pub.

Definition generate_ecdsa (draw : nat) (domain : string) (flags alg : Z) (curve : Curve) (size : nat) (name : string) :
    res string (DNSKEY.t * list Z) :=
  match GenerateECDSA draw curve with
  | Err err => Err (Sprintf "generating ECDSA %s key: %w" [name; err])
  | Ok (d, x, y) => Ok (new_dnskey domain flags alg (base64_encode (be_bytes size x ++ be_bytes size y)), be_bytes size d)
  end.

Definition generateDNSSECKey (draw : nat) (domain algorithm : string) (flags : Z) : res string (DNSKEY.t * list Z) :=
  if String.eqb algorithm "ED25519" then
    match GenerateEd25519 draw with
    | Err err => Err (Sprintf "generating ED25519 key: %w" [err])
    | Ok (pub, priv) => Ok (new_dnskey domain flags ED25519 (base64_encode pub), priv)
    end
  else if String.eqb algorithm "ECDSAP256SHA256" then generate_ecdsa draw domain flags ECDSAP256SHA256 P256 32 "P-256"
  else if String.eqb algorithm "ECDSAP384SHA384" then generate_ecdsa draw domain flags ECDSAP384SHA384 P384 48 "P-384"
  else if String.eqb algorithm "RSASHA256" || String.eqb algorithm "RSASHA512" then
    generateRSAKey draw (new_dnskey domain flags (if String.eqb algorithm "RSASHA512" then RSASHA512 else RSASHA256) "")
  else Err (Sprintf "unsupported algorithm: %s" [algorithm]).
End material.
