(* ===== verification/ZoneModel.v ===== *)
(** * ZoneModel: owner identity and the index of one zone snapshot
    (signer/internal/signer/zonemodel.go, and canonicalLess of sign.go)

    Owners are compared by their wire form: [canonicalName] gives every spelling of
    a name one presentation.  [zoneModel] indexes a snapshot by it.  Go's memo of
    occlusion answers is left out: the index does not change once built, so the memo
    always holds the answer computed.  Sorting the keys of a map is insertion into a
    sorted list: the keys differ, so every correct sort gives this list. *)

From stdpp Require Import base list strings gmap.
From Stdlib Require Import ZArith Lia Ascii.
From S2P Require Import Prelude Names Wire.
Local Open Scope Z_scope.

(** ** Types of the records the signer handles *)

Definition TypeSOA : Z := 6.
Definition TypeRRSIG : Z := 46.
Definition TypeNSEC3PARAM : Z := 51.

(** ** Sorting *)

Section sort.
Context {A : Type} (less : A -> A -> bool).
Fixpoint insert_sorted (x : A) (l : list A) : list A :=
  match l with
  | [] => [x]
  | y :: l' => if less y x then y :: insert_sorted x l' else x :: l
  end.
Definition sort_slice (l : list A) : list A := foldr insert_sorted [] l.
End sort.

(** ** Canonical names *)

Definition canonicalLabelBytes (label : string) : list Z := label_octets (String.list_ascii_of_string label).

Definition char_of (n : Z) : ascii := ascii_of_N (Z.to_N n).
Definition decimal_digit (n : Z) : ascii := char_of (48 + n).

(** The presentation of one octet. *)
Definition present_octet (c : Z) : string :=
  if c =? 46 then "\."
  else if c =? 92 then "\\"
  else if c =? 42 then "\*"
  else if (c <? 33) || (126 <? c) then
    String "\" (String (decimal_digit (c / 100)) (String (decimal_digit (c / 10 mod 10)) (String (decimal_digit (c mod 10)) "")))
  else String (char_of c) "".

Definition canonicalLabel (label : string) : string :=
  let raw := canonicalLabelBytes label in
  if bool_decide (raw = [42]) then "*" else String.concat "" (map present_octet raw).

Definition joinLabels (labels : list string) : string :=
  match labels with [] => "." | _ => Join labels "." +:+ "." end.

(** [labelsWithin]: the labels of [apex] end those of [name]. *)
Definition labelsWithin (name apex : list string) : bool :=
  if Nat.ltb (length name) (length apex) then false
  else bool_decide (drop (length name - length apex) name = apex).

Module ownerInfo.
Record t := mk { name : string; labels : list string; types : gmap Z nat }.
End ownerInfo.

Module zoneModel.
Record t := mk {
  apex : string; apexLabels : list string; owners : gmap string ownerInfo.t;
  delegations : gset string; dnames : gset string
}.
#[global] Instance eta : Eta t := { eta r := mk (apex r) (apexLabels r) (owners r) (delegations r) (dnames r); eta_id r := ltac:(by destruct r) }.
End zoneModel.

Section model.
Context `{DnsLib}.
Implicit Types (m : zoneModel.t).

Definition canonicalName (name : string) : string :=
  let name := Fqdn name in
  if String.eqb name "." then "."
  else String.concat "" (map (fun label => canonicalLabel label +:+ ".") (SplitDomainName name)).

Definition canonicalLabels (name : string) : list string :=
  let canon := canonicalName name in
  if String.eqb canon "." then [] else SplitDomainName canon.

(** Right to left, each label as its octets. *)
Fixpoint labels_less (a b : list string) : bool :=
  match a, b with
  | [], [] => false
  | [], _ => true
  | _, [] => false
  | x :: a', y :: b' =>
      match bytes_compare (canonicalLabelBytes x) (canonicalLabelBytes y) with
      | Lt => true
      | Gt => false
      | Eq => labels_less a' b'
      end
  end.
Definition canonicalLess (a b : string) : bool := labels_less (rev (SplitDomainName a)) (rev (SplitDomainName b)).

(** ** The index *)

Definition add_type (t : Z) (oi : ownerInfo.t) : ownerInfo.t :=
  ownerInfo.mk (ownerInfo.name oi) (ownerInfo.labels oi) (partial_alter (fun n => Some (S (default 0%nat n))) t (ownerInfo.types oi)).

Definition add m (rr : RR) : zoneModel.t :=
  let name := canonicalName (rr_name rr) in
  let oi := default (ownerInfo.mk name (SplitDomainName name) ∅) (zoneModel.owners m !! name) in
  let m' := m <| zoneModel.owners := <[name := add_type (rr_type rr) oi]> (zoneModel.owners m) |> in
  if rr_type rr =? TypeNS then
    if negb (String.eqb name (zoneModel.apex m)) then m' <| zoneModel.delegations := zoneModel.delegations m ∪ {[name]} |> else m'
  else if rr_type rr =? TypeDNAME then m' <| zoneModel.dnames := zoneModel.dnames m ∪ {[name]} |>
  else m'.

Definition newZoneModel (domain : string) (records : list RR) : zoneModel.t :=
  let apex := canonicalName domain in
  fold_left add records (zoneModel.mk apex (SplitDomainName apex) ∅ ∅ ∅).

Definition canon (rr : RR) : string := canonicalName (rr_name rr).
Definition within m (name : string) : bool := labelsWithin (SplitDomainName name) (zoneModel.apexLabels m).
Definition isDelegation m (name : string) : bool := bool_decide (name ∈ zoneModel.delegations m).

(** The proper ancestors strictly below the apex, nearest first. *)
Definition inner_ancestors m (name : string) : list string :=
  let labels := SplitDomainName name in
  map (fun i => joinLabels (drop i labels)) (seq 1 (length labels - length (zoneModel.apexLabels m) - 1)).

Definition isOccluded m (name : string) : bool :=
  if bool_decide (zoneModel.delegations m = ∅) && bool_decide (zoneModel.dnames m = ∅) then false
  else existsb (fun anc => bool_decide (anc ∈ zoneModel.delegations m) || bool_decide (anc ∈ zoneModel.dnames m)) (inner_ancestors m name).

Definition occludingDNAME m (name : string) : option string :=
  if bool_decide (zoneModel.dnames m = ∅) then None
  else List.find (fun anc => bool_decide (anc ∈ zoneModel.dnames m)) (inner_ancestors m name).

Definition signable m (name : string) (rrtype : Z) : bool :=
  if isOccluded m name then false
  else if isDelegation m name && negb (rrtype =? TypeDS) && negb (rrtype =? TypeNSEC) then false
  else true.

Definition authoritativeOwners m : list string :=
  sort_slice canonicalLess (List.filter (fun name => negb (isOccluded m name)) (elements (dom (zoneModel.owners m)))).

Definition emptyNonTerminals m : list string :=
  let ents : gset string := list_to_set (concat (map (fun name =>
    List.filter (fun anc => negb (bool_decide (is_Some (zoneModel.owners m !! anc)))) (inner_ancestors m name)) (authoritativeOwners m))) in
  sort_slice canonicalLess (elements ents).

(** The count of a type at an owner. *)
Definition type_count (oi : ownerInfo.t) (t : Z) : nat := default 0%nat (ownerInfo.types oi !! t).
Definition has_type (oi : ownerInfo.t) (t : Z) : bool := Nat.ltb 0 (type_count oi t).

Definition denial_set m (name : string) (nsec3 : bool) : gset Z :=
  match zoneModel.owners m !! name with
  | None => ∅
  | Some oi =>
      if isDelegation m name then
        {[TypeNS]} ∪ (if has_type oi TypeDS then {[TypeDS]} ∪ (if nsec3 then {[TypeRRSIG]} else ∅) else ∅)
      else dom (ownerInfo.types oi) ∪ (if nsec3 then {[TypeRRSIG]} else ∅)
  end ∪
  (if nsec3 then (if String.eqb name (zoneModel.apex m) && bool_decide (is_Some (zoneModel.owners m !! name)) then {[TypeNSEC3PARAM]} else ∅)
   else {[TypeNSEC; TypeRRSIG]}).

Definition denialTypes m (name : string) (nsec3 : bool) : list Z := sort_slice Z.ltb (elements (denial_set m name nsec3)).

(** ** RRsets *)

(** [rrsetKey] *)
Definition rrsetKey : Type := string * Z.

Definition group_record (acc : gmap rrsetKey (list RR) * list RRSIG.t) (rr : RR) : gmap rrsetKey (list RR) * list RRSIG.t :=
  match rr with
  | RR_RRSIG sig => (acc.1, acc.2 ++ [sig])
  | _ => (partial_alter (fun l => Some (default [] l ++ [rr])) (canonicalName (rr_name rr), rr_type rr) acc.1, acc.2)
  end.
Definition groupRRsets (records : list RR) : gmap rrsetKey (list RR) * list RRSIG.t := fold_left group_record records (∅, []).

Definition canonicalRRset (rrset : list RR) : list RR :=
  map (map_header (fun h => Hdr.mk (canonicalName (Hdr.Name h)) (Hdr.Rrtype h) (Hdr.Class_ h) (Hdr.Ttl h))) rrset.

Definition key_less (a b : rrsetKey) : bool :=
  if negb (String.eqb a.1 b.1) then canonicalLess a.1 b.1 else a.2 <? b.2.
Definition sortedRRsetKeys (rrsets : gmap rrsetKey (list RR)) : list rrsetKey := sort_slice key_less (elements (dom rrsets)).
End model.
