(* ===== verification/NsecChain.v ===== *)
(** * NsecChain: the NSEC and NSEC3 chains the signer writes, and its checks of them
    (signer/internal/signer/sign.go: generateNSECChainWithModel,
    verifyNSECExpectations, compareTypeBitmap) *)

From stdpp Require Import base list strings gmap pretty.
From Stdlib Require Import ZArith Lia.
From S2P Require Import Prelude Names Wire ZoneModel.
Local Open Scope Z_scope.

(** [l[(i+1)%len(l)]] *)
Definition next_of (l : list string) (i : nat) : string := nth ((i + 1) mod length l) l "".

Section chain.
Context `{DnsLib}.
Implicit Types (m : zoneModel.t).

(** Owners that are not occluded, with their types. *)
Definition collect_type m (acc : gmap string (gset Z)) (rr : RR) : gmap string (gset Z) :=
  let name := canonicalName (rr_name rr) in
  if isOccluded m name then acc else partial_alter (fun ts => Some (default ∅ ts ∪ {[rr_type rr]})) name acc.
Definition typesByName m (records : list RR) : gmap string (gset Z) := fold_left (collect_type m) records ∅.

Definition types_of (types : gmap string (gset Z)) (name : string) : gset Z := default ∅ (types !! name).

(** The bitmap of one owner; the list appends NSEC and RRSIG to the types collected. *)
Definition bitmap_types m (types : gmap string (gset Z)) (name : string) : list Z :=
  sort_slice Z.ltb
    ((if isDelegation m name then TypeNS :: (if bool_decide (TypeDS ∈ types_of types name) then [TypeDS] else [])
      else elements (types_of types name)) ++ [TypeNSEC; TypeRRSIG]).

Definition nsec_record m (types : gmap string (gset Z)) (soaMinTTL : Z) (name nextName : string) : NSEC.t :=
  NSEC.mk (Hdr.mk name TypeNSEC 1 soaMinTTL) nextName (bitmap_types m types name).

Definition generateNSECChainWithModel m (records : list RR) (soaMinTTL : Z) : list RR :=
  let types := typesByName m records in
  let sortedNames := sort_slice canonicalLess (elements (dom types)) in
  imap (fun i name => RR_NSEC (nsec_record m types soaMinTTL name (next_of sortedNames i))) sortedNames.

Definition generateNSECChain (domain : string) (records : list RR) (soaMinTTL : Z) : list RR :=
  generateNSECChainWithModel (newZoneModel domain records) records soaMinTTL.

(** ** The check *)

Definition typeList (types : list Z) : string := "[" +:+ Join (map TypeString types) " " +:+ "]".

Definition compareTypeBitmap (owner : string) (got want : list Z) : res string unit :=
  let g := sort_slice Z.ltb got in
  if bool_decide (g = want) then Ok tt
  else Err (Sprintf "denial record for %s lists types %s, expected %s" [owner; typeList g; typeList want]).

Fixpoint index_nsecs (nsecs : list NSEC.t) (byOwner : gmap string NSEC.t) : res string (gmap string NSEC.t) :=
  match nsecs with
  | [] => Ok byOwner
  | n :: rest =>
      let owner := canonicalName (Hdr.Name (NSEC.Hdr n)) in
      if bool_decide (is_Some (byOwner !! owner)) then Err (Sprintf "NSEC chain has a duplicate owner %s" [owner])
      else index_nsecs rest (<[owner := n]> byOwner)
  end.

Definition owner_known m (owner : string) : bool :=
  bool_decide (is_Some (zoneModel.owners m !! owner)) && negb (isOccluded m owner).

Fixpoint check_nsecs m (expected : list string) (byOwner : gmap string NSEC.t) (i : nat) (owners : list string) : res string unit :=
  match owners with
  | [] => Ok tt
  | owner :: rest =>
      match byOwner !! owner with
      | None => Err "" (* not reached: membership is checked before *)
      | Some n =>
          let next := next_of expected i in
          let got := canonicalName (NSEC.NextDomain n) in
          if negb (String.eqb got next) then
            Err (Sprintf "NSEC at %s points at %s, expected %s (canonical order)" [owner; got; next])
          else
            check compareTypeBitmap owner (NSEC.TypeBitMap n) (denialTypes m owner false);
            check_nsecs m expected byOwner (S i) rest
      end
  end.

Definition verifyNSECExpectations m (nsecs : list NSEC.t) : res string unit :=
  let expected := authoritativeOwners m in
  match nsecs with
  | [] => Err (Sprintf "NSEC chain is missing: expected %d NSEC records, found none" [pretty (length expected)])
  | _ =>
      try byOwner <- index_nsecs nsecs ∅;
      match List.find (fun owner => negb (bool_decide (is_Some (byOwner !! owner)))) expected with
      | Some owner => Err (Sprintf "NSEC chain is missing the record for authoritative owner %s" [owner])
      | None =>
          match List.find (fun owner => negb (owner_known m owner)) (elements (dom byOwner)) with
          | Some owner => Err (Sprintf "NSEC chain has a record at %s, which is not an authoritative owner of the zone" [owner])
          | None => check_nsecs m expected byOwner 0 expected
          end
      end
  end.
End chain.

(** ** The NSEC3 chain the signer writes, and its check of it
    (signer/internal/signer/sign.go: generateNSEC3ChainWithModel,
    addEmptyNonTerminals, verifyNSEC3Expectations)

    [dns.HashName] belongs to the DNS library.  The sets [names] and
    [typesByName] of the code have the same keys and are one map here.  The salt and
    hash length octets of the records are those of their fields and are left out, as
    in Wire.  Sorting by hash is stable here; the hashes differ, or
    the chain is refused by the check. *)

(** [dns.HashName(label, ha, iter, salt)] *)
Class HashLib := { HashName : string -> Z -> Z -> string -> string }.

(** [dns.SHA1] *)
Definition SHA1 : Z := 1.

(** Go's [a < b] on strings *)
Definition string_less (a b : string) : bool := match string_compare a b with Lt => true | _ => false end.

(** [l[(i+1)%len(l)]] of a list of pairs *)
Definition next_hash (l : list (string * string)) (i : nat) : string := next_of (map snd l) i.

Section chain3.
Context `{DnsLib} `{HashLib}.
Implicit Types (m : zoneModel.t) (types : gmap string (gset Z)).

(** ** Generation *)

(** The ancestors of [name] strictly between it and the apex. *)
Definition ent_parents (apexLabels : list string) (name : string) : list string :=
  let labels := SplitDomainName name in
  map (fun i => joinLabels (drop i labels)) (seq 1 (length labels - length apexLabels - 1)).

Definition add_parent types (parent : string) : gmap string (gset Z) :=
  if bool_decide (is_Some (types !! parent)) then types else <[parent := ∅]> types.

Definition addEmptyNonTerminals types (apex : string) : gmap string (gset Z) :=
  let apexLabels := SplitDomainName (canonicalName apex) in
  fold_left (fun types name => fold_left add_parent (ent_parents apexLabels name) types) (elements (dom types)) types.

(** The bitmap of one owner: the NSEC3 record and its signature are elsewhere. *)
Definition bitmap_types3 m types (name : string) : list Z :=
  sort_slice Z.ltb
    (if isDelegation m name then TypeNS :: (if bool_decide (TypeDS ∈ types_of types name) then [TypeDS; TypeRRSIG] else [])
     else if bool_decide (types_of types name = ∅) then []
     else elements (types_of types name) ++ [TypeRRSIG]).

Definition nsec3_record m types (iterations : Z) (salt : string) (soaMinTTL : Z) (original hashed nextHash : string) : NSEC3.t :=
  NSEC3.mk (Hdr.mk (hashed +:+ "." +:+ zoneModel.apex m) TypeNSEC3 1 soaMinTTL) SHA1 0 iterations salt nextHash
    (bitmap_types3 m types original).

Definition collected_types m (records : list RR) : gmap string (gset Z) :=
  let apex := zoneModel.apex m in
  let types := typesByName m records in
  let types := match types !! apex with Some ts => <[apex := ts ∪ {[TypeNSEC3PARAM]}]> types | None => types end in
  addEmptyNonTerminals types apex.

Definition hashed_names (iterations : Z) (salt : string) (names : list string) : list (string * string) :=
  sort_slice (fun a b => string_less a.2 b.2) (map (fun name => (name, HashName name SHA1 iterations salt)) names).

Definition generateNSEC3ChainWithModel (iterations : Z) (salt : string) m (records : list RR) (soaMinTTL : Z) : list RR :=
  let types := collected_types m records in
  let hashedNames := hashed_names iterations salt (elements (dom types)) in
  RR_NSEC3PARAM (NSEC3PARAM.mk (Hdr.mk (zoneModel.apex m) TypeNSEC3PARAM 1 0) SHA1 0 iterations salt) ::
  imap (fun i hn => RR_NSEC3 (nsec3_record m types iterations salt soaMinTTL hn.1 hn.2 (next_hash hashedNames i))) hashedNames.

Definition generateNSEC3Chain (iterations : Z) (salt domain : string) (records : list RR) (soaMinTTL : Z) : list RR :=
  generateNSEC3ChainWithModel iterations salt (newZoneModel domain records) records soaMinTTL.

(** ** The check *)

Definition normSalt (v : string) : string := let v := ToUpper v in if String.eqb v "" then "-" else v.

Definition check_param m (iterations : Z) (salt : string) (p : NSEC3PARAM.t) : res string unit :=
  if negb (String.eqb (canonicalName (Hdr.Name (NSEC3PARAM.Hdr p))) (zoneModel.apex m)) then
    Err (Sprintf "NSEC3PARAM is at %s, not at the apex %s" [Hdr.Name (NSEC3PARAM.Hdr p); zoneModel.apex m])
  else if negb (NSEC3PARAM.Hash p =? SHA1) || negb (NSEC3PARAM.Flags p =? 0) || negb (NSEC3PARAM.Iterations p =? iterations)
          || negb (String.eqb (normSalt (NSEC3PARAM.Salt p)) salt) then
    Err (Sprintf "NSEC3PARAM (hash %d, flags %d, iterations %d, salt %s) does not match the configured parameters (hash 1, flags 0, iterations %d, salt %s)"
      [pretty (NSEC3PARAM.Hash p); pretty (NSEC3PARAM.Flags p); pretty (NSEC3PARAM.Iterations p); normSalt (NSEC3PARAM.Salt p);
       pretty iterations; salt])
  else Ok tt.

(** The owners a chain must have, with their hashes, in hash order. *)
Definition expected_hashes m (iterations : Z) (salt : string) : list (string * string) :=
  sort_slice (fun a b => string_less a.2 b.2)
    (map (fun owner => (owner, ToUpper (HashName owner SHA1 iterations (TrimSuffix salt "-"))))
      (authoritativeOwners m ++ emptyNonTerminals m)).

(** The hash label of a record of this zone's chain. *)
Definition nsec3_hash m (iterations : Z) (salt : string) (n : NSEC3.t) : res string string :=
  match SplitDomainName (Hdr.Name (NSEC3.Hdr n)) with
  | first :: ((_ :: _) as rest) =>
      if negb (String.eqb (joinLabels rest) (zoneModel.apex m)) then
        Err (Sprintf "NSEC3 owner %s is not <hash>.%s" [Hdr.Name (NSEC3.Hdr n); zoneModel.apex m])
      else if negb (NSEC3.Hash n =? SHA1) || negb (NSEC3.Flags n =? 0) || negb (NSEC3.Iterations n =? iterations)
              || negb (String.eqb (normSalt (NSEC3.Salt n)) salt) then
        Err (Sprintf "NSEC3 at %s (hash %d, flags %d, iterations %d, salt %s) does not match the NSEC3PARAM parameters"
          [Hdr.Name (NSEC3.Hdr n); pretty (NSEC3.Hash n); pretty (NSEC3.Flags n); pretty (NSEC3.Iterations n); normSalt (NSEC3.Salt n)])
      else Ok (ToUpper first)
  | _ => Err (Sprintf "NSEC3 owner %s is not <hash>.%s" [Hdr.Name (NSEC3.Hdr n); zoneModel.apex m])
  end.

Fixpoint index_nsec3s m (iterations : Z) (salt : string) (nsec3s : list NSEC3.t) (byHash : gmap string NSEC3.t) :
    res string (gmap string NSEC3.t) :=
  match nsec3s with
  | [] => Ok byHash
  | n :: rest =>
      try hash <- nsec3_hash m iterations salt n;
      if bool_decide (is_Some (byHash !! hash)) then Err (Sprintf "NSEC3 chain has a duplicate owner hash %s" [hash])
      else index_nsec3s m iterations salt rest (<[hash := n]> byHash)
  end.

Fixpoint check_nsec3s m (expected : list (string * string)) (byHash : gmap string NSEC3.t) (i : nat)
    (todo : list (string * string)) : res string unit :=
  match todo with
  | [] => Ok tt
  | (owner, hash) :: rest =>
      match byHash !! hash with
      | None => Err "" (* not reached: membership is checked before *)
      | Some n =>
          let next := next_hash expected i in
          let got := ToUpper (NSEC3.NextDomain n) in
          if negb (String.eqb got next) then
            Err (Sprintf "NSEC3 for %s points at %s, expected %s (hash order)" [owner; got; next])
          else
            check compareTypeBitmap owner (NSEC3.TypeBitMap n) (denialTypes m owner true);
            check_nsec3s m expected byHash (S i) rest
      end
  end.

Definition verifyNSEC3Expectations m (nsec3s : list NSEC3.t) (params : list NSEC3PARAM.t) (iterations : Z) (salt : string) : res string unit :=
  let salt := normSalt salt in
  match params with
  | [p] =>
      check check_param m iterations salt p;
      let expected := expected_hashes m iterations salt in
      match nsec3s with
      | [] => Err (Sprintf "NSEC3 chain is missing: expected %d NSEC3 records, found none" [pretty (length expected)])
      | _ =>
          try byHash <- index_nsec3s m iterations salt nsec3s ∅;
          match List.find (fun e => negb (bool_decide (is_Some (byHash !! e.2)))) expected with
          | Some e => Err (Sprintf "NSEC3 chain is missing the record for %s (hash %s)" [e.1; e.2])
          | None =>
              match List.find (fun hash => negb (existsb (fun e => String.eqb e.2 hash) expected)) (elements (dom byHash)) with
              | Some hash => Err (Sprintf "NSEC3 chain has a record for hash %s, which is not the hash of any authoritative owner or empty non-terminal" [hash])
              | None => check_nsec3s m expected byHash 0 expected
              end
          end
      end
  | _ => Err (Sprintf "expected exactly one NSEC3PARAM at the apex, found %d" [pretty (length params)])
  end.
End chain3.
