(* ===== verification/Signatures.v ===== *)
(** * Signatures: signing the RRsets of a zone and verifying the result
    (signer/internal/signer/sign.go)

    [signingKeys] says which keys are published and which sign what; signing makes
    one RRSIG per signable RRset and signing key; the self-verification derives what
    must be there from the input snapshot and refuses anything else.  Signing and
    signature checking themselves belong to the DNS library ([SignLib]).  An unknown
    type is printed as TYPEn in messages. *)

From stdpp Require Import base list strings gmap pretty.
From Stdlib Require Import ZArith Lia.
From S2P Require Import Prelude GoTime Config KeyOps Names Digests Wire Serial KeyMaterial ZoneModel NsecChain.
Local Open Scope Z_scope.

Class SignLib := {
  (** [dns.CountLabel], [dns.TimeToString] *)
  CountLabel : string -> Z;
  TimeToString : Z -> string;
  (** [rrsig.Sign(key, rrset)], with the fields the library fills in *)
  Sign : CryptoSigner -> RRSIG.t -> list RR -> res string RRSIG.t;
  (** [rrsig.Verify(key, rrset)]; [None] is success *)
  VerifyRRSIG : RRSIG.t -> DNSKEY.t -> list RR -> option string;
  (** [rrsig.ValidityPeriod(t)] *)
  ValidityPeriod : RRSIG.t -> Time -> bool
}.

(** [signingKeys]; each private key is at the index of its public half. *)
Module signingKeys.
Record t := mk {
  dnskeys : list DNSKEY.t;
  signingKSKs : list DNSKEY.t; signingKSKPs : list (list Z);
  signingZSKs : list DNSKEY.t; signingZSKPs : list (list Z)
}.
#[global] Instance eta : Eta t := { eta r := mk (dnskeys r) (signingKSKs r) (signingKSKPs r) (signingZSKs r) (signingZSKPs r);
  eta_id r := ltac:(by destruct r) }.
End signingKeys.

(** [int32(x)] of a 32-bit difference *)
Definition int32 (x : Z) : Z := (x + 2 ^ 31) mod 2 ^ 32 - 2 ^ 31.
(** [a - b] on uint32 *)
Definition sub32 (a b : Z) : Z := (a - b) mod 2 ^ 32.
(** [t.Unix()] *)
Definition unix_seconds (t : Time) : Z := t / Second - 62135596800.

(** [map[rrsetKey]map[uint8]int]: the roles that sign an RRset, by algorithm *)
Abbreviation covered_map := (gmap rrsetKey (gmap Z Z)).

Section signatures.
Context `{DnsLib} `{WireLib} `{CryptoLib} `{HashLib} `{SignLib}.
Implicit Types (m : zoneModel.t) (keys : signingKeys.t).

(** ** Key sets *)

Definition published_tag keys (sk : DNSKEY.t) : bool := existsb (fun dk => KeyTagOf dk =? KeyTagOf sk) (signingKeys.dnskeys keys).

Definition validateConsistency keys : res string unit :=
  match List.find (fun sk => negb (published_tag keys sk)) (signingKeys.signingKSKs keys) with
  | Some sk => Err (Sprintf "signing KSK keytag %d is not in the published DNSKEY RRset; signing would emit a bogus zone" [pretty (KeyTagOf sk)])
  | None =>
      match List.find (fun sk => negb (published_tag keys sk)) (signingKeys.signingZSKs keys) with
      | Some sk => Err (Sprintf "signing ZSK keytag %d is not in the published DNSKEY RRset; signing would emit a bogus zone" [pretty (KeyTagOf sk)])
      | None => Ok tt
      end
  end.

(** ** One signature *)

Definition rrsigLabels (name : string) : Z :=
  let canon := canonicalName name in
  let labels := CountLabel canon in
  (if String.eqb canon "*." || HasPrefix canon "*." then labels - 1 else labels) mod 256.

(** [rrset[0].Header()] *)
Definition first_header (rrset : list RR) : Hdr.t :=
  match rrset with rr :: _ => Header rr | [] => Hdr.mk "" 0 0 0 end.

Definition createRRSIG (rrset : list RR) (signingKey : DNSKEY.t) (domain : string) (inception expiration : Time) : RRSIG.t :=
  let h := first_header rrset in
  RRSIG.mk (Hdr.mk (Hdr.Name h) TypeRRSIG 1 (Hdr.Ttl h)) (Hdr.Rrtype h) (DNSKEY.Algorithm signingKey) (rrsigLabels (Hdr.Name h))
    (Hdr.Ttl h) (unix32 expiration) (unix32 inception) (KeyTagOf signingKey) (Fqdn domain) "".

Definition ecdsa_signer (curve : Curve) (privateKey : list Z) : CryptoSigner :=
  let '(x, y) := ScalarBaseMult curve privateKey in EcSigner curve (be_value privateKey) x y.

(** The [crypto.Signer] a private key is turned into. *)
Definition signer_of (alg : Z) (privateKey : list Z) : res string CryptoSigner :=
  let len := length privateKey in
  if alg =? ED25519 then
    if Nat.eqb len SeedSize then Ok (EdSigner (NewKeyFromSeed privateKey))
    else if Nat.eqb len PrivateKeySize then Ok (EdSigner (NewKeyFromSeed (take SeedSize privateKey)))
    else Err (Sprintf "invalid ED25519 private key length %d (want %d or %d)" [pretty len; pretty SeedSize; pretty PrivateKeySize])
  else if alg =? ECDSAP256SHA256 then
    if negb (Nat.eqb len 32) then Err (Sprintf "invalid ECDSA P-256 private key length %d (want 32)" [pretty len])
    else Ok (ecdsa_signer P256 privateKey)
  else if alg =? ECDSAP384SHA384 then
    if negb (Nat.eqb len 48) then Err (Sprintf "invalid ECDSA P-384 private key length %d (want 48)" [pretty len])
    else Ok (ecdsa_signer P384 privateKey)
  else if (alg =? RSASHA256) || (alg =? RSASHA512) then try key <- rsaPrivateKeyFromBytes privateKey; Ok (RsaSigner key)
  else Err (Sprintf "unsupported algorithm: %d" [pretty alg]).

Definition signRRSIGWithAlgorithm (rrsig : RRSIG.t) (rrset : list RR) (key : DNSKEY.t) (privateKey : list Z) : res string RRSIG.t :=
  try signer <- signer_of (DNSKEY.Algorithm key) privateKey;
  Sign signer rrsig rrset.

Definition signRRSIG (rrsig : RRSIG.t) (rrset : list RR) (key : DNSKEY.t) (privateKey : list Z) : res string RRSIG.t :=
  let want := RRSIG.Labels rrsig in
  try rrsig <- signRRSIGWithAlgorithm rrsig rrset key privateKey;
  if negb (RRSIG.Labels rrsig =? want) then
    Err (Sprintf "RRSIG for %s %s: signing library set Labels=%d, want %d (RFC 4592 §2.1.1)"
      [Hdr.Name (RRSIG.Hdr rrsig); TypeString (RRSIG.TypeCovered rrsig); pretty (RRSIG.Labels rrsig); pretty want])
  else Ok rrsig.

(** ** The whole zone *)

(** One RRSIG per key. *)
Fixpoint sign_with (failed : DNSKEY.t -> string -> string) (wire : list RR) (domain : string) (inception expiration : Time)
    (keys : list (DNSKEY.t * list Z)) : res string (list RR) :=
  match keys with
  | [] => Ok []
  | (key, priv) :: rest =>
      match signRRSIG (createRRSIG wire key domain inception expiration) wire key priv with
      | Err err => Err (failed key err)
      | Ok rrsig => try sigs <- sign_with failed wire domain inception expiration rest; Ok (RR_RRSIG rrsig :: sigs)
      end
  end.

(** The RRSIGs of one RRset: the KSKs sign the DNSKEY RRset, the ZSKs the others. *)
Definition sign_rrset keys (domain : string) (inception expiration : Time) (k : rrsetKey) (rrset : list RR) : res string (list RR) :=
  let wire := canonicalRRset rrset in
  if k.2 =? TypeDNSKEY then
    sign_with (fun key err => Sprintf "signing DNSKEY RRset with key %d: %w" [pretty (KeyTagOf key); err])
      wire domain inception expiration (combine (signingKeys.signingKSKs keys) (signingKeys.signingKSKPs keys))
  else
    sign_with (fun key err => Sprintf "signing RRset %s with key %d: %w" [Hdr.Name (first_header rrset); pretty (KeyTagOf key); err])
      wire domain inception expiration (combine (signingKeys.signingZSKs keys) (signingKeys.signingZSKPs keys)).

Fixpoint sign_rrsets m keys (domain : string) (inception expiration : Time) (rrsets : gmap rrsetKey (list RR))
    (keysInOrder : list rrsetKey) : res string (list RR) :=
  match keysInOrder with
  | [] => Ok []
  | k :: rest =>
      try sigs <- (match default [] (rrsets !! k) with
                  | [] => Ok []
                  | rrset => if negb (signable m k.1 k.2) then Ok [] else sign_rrset keys domain inception expiration k rrset
                  end);
      try more <- sign_rrsets m keys domain inception expiration rrsets rest;
      Ok (sigs ++ more)
  end.

(** [now] is the one clock reading of the pass. *)
Definition signRecordsWithModel (cfg : Config) m (domain : string) (records : list RR) keys (now : Time) : res string (list RR) :=
  let rrsets := (groupRRsets records).1 in
  let inception := TAdd now (- SignatureInceptionBackdate) in
  let expiration := TAdd now (cfg_SignatureValidity (DNSSEC cfg)) in
  try sigs <- sign_rrsets m keys domain inception expiration rrsets (sortedRRsetKeys rrsets);
  Ok (records ++ sigs).

Definition signRecordsWithKeys (cfg : Config) (domain : string) (records : list RR) keys (now : Time) : res string (list RR) :=
  signRecordsWithModel cfg (newZoneModel domain records) domain records keys now.

(** ** Times of signatures *)

Definition serialTime (serial : Z) (ref : Time) : Time := unix_time (unix_seconds ref + int32 (sub32 serial (unix32 ref))).

(** Zero when there is no RRSIG. *)
Definition earliestRRSIGExpiration (records : list RR) (now : Time) : Time :=
  fold_left (fun earliest rr =>
    match rr with
    | RR_RRSIG sig =>
        let exp := serialTime (RRSIG.Expiration sig) now in
        if IsZero earliest || Before exp earliest then exp else earliest
    | _ => earliest
    end) records 0.

Definition signingWindowTolerance : Duration := 10 * Minute.

Definition checkRRSIGWindow (cfg : Config) (sig : RRSIG.t) (now : Time) : res string unit :=
  let where_ := Sprintf "RRSIG for %s %s (keytag %d)" [Hdr.Name (RRSIG.Hdr sig); TypeString (RRSIG.TypeCovered sig); pretty (RRSIG.KeyTag sig)] in
  if negb (ValidityPeriod sig now) then
    Err (Sprintf "%s is not currently valid: inception %s, expiration %s, now %s"
      [where_; TimeToString (RRSIG.Inception sig); TimeToString (RRSIG.Expiration sig); FormatRFC3339 now])
  else
    let validity := cfg_SignatureValidity (DNSSEC cfg) in
    let tol := Z.quot signingWindowTolerance Second in
    let span := sub32 (RRSIG.Expiration sig) (RRSIG.Inception sig) in
    let wantSpan := Z.quot (SignatureInceptionBackdate + validity) Second in
    if (span <=? 0) || (2 ^ 31 <=? span) then
      Err (Sprintf "%s has a wrapped validity window: inception %s, expiration %s"
        [where_; TimeToString (RRSIG.Inception sig); TimeToString (RRSIG.Expiration sig)])
    else if (tol <? span - wantSpan) || (tol <? wantSpan - span) then
      Err (Sprintf "%s has an unexpected validity window of %s, want %s (signature_validity %s plus the %s inception backdate)"
        [where_; fmt_duration (seconds span); fmt_duration (seconds wantSpan); fmt_duration validity; fmt_duration SignatureInceptionBackdate])
    else
      let wantInception := unix32 (TAdd now (- SignatureInceptionBackdate)) in
      let d := int32 (sub32 (RRSIG.Inception sig) wantInception) in
      if (tol <? d) || (tol <? - d) then
        Err (Sprintf "%s has an inception %s away from the intended %s" [where_; fmt_duration (seconds d); TimeToString wantInception])
      else
        let wantExpiration := unix32 (TAdd now validity) in
        let d := int32 (sub32 (RRSIG.Expiration sig) wantExpiration) in
        if (tol <? d) || (tol <? - d) then
          Err (Sprintf "%s has an expiration %s away from the intended %s" [where_; fmt_duration (seconds d); TimeToString wantExpiration])
        else Ok tt.

(** ** Self-verification *)

Definition roleKSK : Z := 1.
Definition roleZSK : Z := 2.

(** The first candidate of the algorithm the signature verifies under. *)
Fixpoint find_signer (sig : RRSIG.t) (wire : list RR) (candidates : list DNSKEY.t) (lastErr : string) : string + DNSKEY.t :=
  match candidates with
  | [] => inl lastErr
  | dk :: rest =>
      if negb (DNSKEY.Algorithm dk =? RRSIG.Algorithm sig) then find_signer sig wire rest lastErr
      else match VerifyRRSIG sig dk wire with
           | None => inr dk
           | Some err => find_signer sig wire rest err
           end
  end.

Definition mark_covered (covered : covered_map) (k : rrsetKey) (alg role : Z) : covered_map :=
  let byAlg := default ∅ (covered !! k) in
  <[k := <[alg := Z.lor (default 0 (byAlg !! alg)) role]> byAlg]> covered.

(** The role of the key a signature verifies under, when everything about the
    signature is as intended. *)
Definition check_rrsig (cfg : Config) keys (rrsets : gmap rrsetKey (list RR)) (verifyNow : Time) (sig : RRSIG.t) : res string Z :=
  let owner := Hdr.Name (RRSIG.Hdr sig) in
  let k := (canonicalName owner, RRSIG.TypeCovered sig) in
  match default [] (rrsets !! k) with
  | [] => Err (Sprintf "RRSIG for %s %s covers no RRset in the signed zone" [owner; TypeString (RRSIG.TypeCovered sig)])
  | rrset =>
      check checkRRSIGWindow cfg sig verifyNow;
      let want := rrsigLabels k.1 in
      if negb (RRSIG.Labels sig =? want) then
        Err (Sprintf "RRSIG for %s %s carries Labels=%d, want %d (RFC 4034 §3.1.3)"
          [owner; TypeString (RRSIG.TypeCovered sig); pretty (RRSIG.Labels sig); pretty want])
      else
        match List.filter (fun dk => KeyTagOf dk =? RRSIG.KeyTag sig) (signingKeys.dnskeys keys) with
        | [] => Err (Sprintf "RRSIG for %s %s references keytag %d absent from the published DNSKEY RRset"
                  [owner; TypeString (RRSIG.TypeCovered sig); pretty (RRSIG.KeyTag sig)])
        | candidates =>
            match find_signer sig (canonicalRRset rrset) candidates "<nil>" with
            | inl lastErr => Err (Sprintf "RRSIG for %s %s (keytag %d) does not verify against the published DNSKEY: %v"
                [owner; TypeString (RRSIG.TypeCovered sig); pretty (RRSIG.KeyTag sig); lastErr])
            | inr signer => Ok (if Z.land (DNSKEY.Flags signer) 1 =? 1 then roleKSK else roleZSK)
            end
        end
  end.

Fixpoint check_rrsigs (cfg : Config) keys (rrsets : gmap rrsetKey (list RR)) (verifyNow : Time) (sigs : list RRSIG.t)
    (covered : covered_map) : res string covered_map :=
  match sigs with
  | [] => Ok covered
  | sig :: rest =>
      try role <- check_rrsig cfg keys rrsets verifyNow sig;
      check_rrsigs cfg keys rrsets verifyNow rest
        (mark_covered covered (canonicalName (Hdr.Name (RRSIG.Hdr sig)), RRSIG.TypeCovered sig) (RRSIG.Algorithm sig) role)
  end.

(** Every RRset of the input survives; which missing one is named is Go's choice. *)
Definition check_input (rrsets inputSets : gmap rrsetKey (list RR)) : res string unit :=
  match List.find (fun kv => Nat.ltb (length (default [] (rrsets !! kv.1))) (length kv.2)) (map_to_list inputSets) with
  | Some (k, _) => Err (Sprintf "RRset %s %s from the input is missing or incomplete in the signed zone" [k.1; TypeString k.2])
  | None => Ok tt
  end.

(** A signable RRset is signed in the wanted role under every published algorithm. *)
Definition check_covered (algorithms : gset Z) (covered : covered_map) (k : rrsetKey) : res string unit :=
  let byAlg := default ∅ (covered !! k) in
  if bool_decide (byAlg = ∅) then Err (Sprintf "authoritative RRset %s %s has no covering RRSIG" [k.1; TypeString k.2])
  else
    let '(want, roleName) := if k.2 =? TypeDNSKEY then (roleKSK, "KSK") else (roleZSK, "ZSK") in
    match List.find (fun alg => Z.land (default 0 (byAlg !! alg)) want =? 0) (elements algorithms) with
    | Some alg => Err (Sprintf "RRset %s %s is not signed by a %s of algorithm %s although the DNSKEY RRset advertises that algorithm (RFC 6840 §5.11)"
        [k.1; TypeString k.2; roleName; AlgorithmName alg])
    | None => Ok tt
    end.

Fixpoint check_all_covered m (algorithms : gset Z) (covered : covered_map) (ks : list rrsetKey) : res string unit :=
  match ks with
  | [] => Ok tt
  | k :: rest =>
      check (if negb (signable m k.1 k.2) then Ok tt else check_covered algorithms covered k);
      check_all_covered m algorithms covered rest
  end.

Definition nsecs_in (rrs : list RR) : list NSEC.t := omap (fun rr => match rr with RR_NSEC v => Some v | _ => None end) rrs.
Definition nsec3s_in (rrs : list RR) : list NSEC3.t := omap (fun rr => match rr with RR_NSEC3 v => Some v | _ => None end) rrs.
Definition nsec3params_in (rrs : list RR) : list NSEC3PARAM.t := omap (fun rr => match rr with RR_NSEC3PARAM v => Some v | _ => None end) rrs.

Definition verifySignedZoneWithModel (cfg : Config) m (input signedRecords : list RR) keys (verifyNow : Time) : res string unit :=
  let algorithms : gset Z := list_to_set (map DNSKEY.Algorithm (signingKeys.dnskeys keys)) in
  let '(rrsets, rrsigs) := groupRRsets signedRecords in
  let nsecs := nsecs_in signedRecords in
  let nsec3s := nsec3s_in signedRecords in
  let nsec3params := nsec3params_in signedRecords in
  try covered <- check_rrsigs cfg keys rrsets verifyNow rrsigs ∅;
  check check_input rrsets (groupRRsets input).1;
  check check_all_covered m algorithms covered (sortedRRsetKeys rrsets);
  if String.eqb (cfg_NSECVersion (DNSSEC cfg)) "nsec3" then
    match nsecs with
    | _ :: _ => Err "NSEC records present in an NSEC3-signed zone"
    | [] => verifyNSEC3Expectations m nsec3s nsec3params (uint16_mod (cfg_NSEC3Iterations (DNSSEC cfg))) (cfg_NSEC3Salt (DNSSEC cfg))
    end
  else
    match nsec3s, nsec3params with
    | [], [] => verifyNSECExpectations m nsecs
    | _, _ => Err "NSEC3 records present in an NSEC-signed zone"
    end.

Definition verifySignedZone (cfg : Config) (domain : string) (input signedRecords : list RR) keys (verifyNow : Time) : res string unit :=
  verifySignedZoneWithModel cfg (newZoneModel domain input) input signedRecords keys verifyNow.
End signatures.
