(* ===== verification/KeyFiles.v ===== *)
(** * KeyFiles: the key directory and its transactions
    (signer/internal/signer/keytx.go, keys.go)

    A generation is written to its tag-named slot, verified by loading it as signing
    would, and only then copied over the live slot, whose occupant is kept under another
    name first.  Every function is a computation over the file system of FileSys.v, in
    the order of the source's system calls; the fault-injection seams of its tests are
    the faults of that file system.  [time.Now] is the clock of the calls made so far,
    or an argument; a freshly drawn key is numbered by [Disk.draws]. *)

From stdpp Require Import base list strings gmap pretty.
From Stdlib Require Import ZArith Lia Ascii.
From S2P Require Import Prelude Paths GoTime Config ZoneState FileSys KeyOps Names Digests Wire Serial KeyMaterial ZoneModel Signatures.
Local Open Scope Z_scope.

(** What one call generated. *)
Module KeyGeneration.
Record t := mk { KSK : option KeyState.t; ZSK : option KeyState.t }.
End KeyGeneration.

Section keyfiles.
Context `{OS} `{DnsLib} `{WireLib} `{CryptoLib}.

(** The result of a function that touches no file. *)
Definition of_res {A} (r : res string A) : FS A :=
  match r with Ok a => ret a | Err msg => fail (GoError.mk msg Plain) end.

(** [time.Now().UTC()] *)
Definition TimeNow : FS Time := fun d => (Ok (clock (Disk.calls d)), tick d).

(** ** Names *)

Definition KeysDir (cfg : Config) : string := JoinPath (DataDir cfg) "keys".
Definition liveBase (cfg : Config) (domain keyType : string) : string :=
  JoinPath (KeysDir cfg) (domain +:+ "." +:+ keyType).
Definition taggedBase (cfg : Config) (domain keyType : string) (tag : Z) : string :=
  JoinPath (KeysDir cfg) (domain +:+ "." +:+ keyType +:+ "." +:+ pretty tag).

(** ** Loading *)

Definition pairFiles (base : string) : FS (bool * bool) :=
  keyExists <-- wrapf "stat %s.key: %w" [base] (statExists (base +:+ ".key")) ;;
  privExists <-- wrapf "stat %s.private: %w" [base] (statExists (base +:+ ".private")) ;;
  ret (keyExists, privExists).

Definition loadPublicKeyFromPath (base : string) : FS DNSKEY.t :=
  keyData <-- wrapf "reading public key: %w" [] (ReadFile (base +:+ ".key")) ;;
  wrapf "parsing public key: %w" [] (of_res (ParseDNSKEYFromFile keyData)).

Definition loadKeyPairFromPath (base : string) : FS (DNSKEY.t * list Z) :=
  keyData <-- wrapf "reading public key: %w" [] (ReadFile (base +:+ ".key")) ;;
  dnskey <-- wrapf "parsing public key: %w" [] (of_res (ParseDNSKEYFromFile keyData)) ;;
  privData <-- wrapf "reading private key: %w" [] (ReadFile (base +:+ ".private")) ;;
  privateKey <-- wrapf "parsing private key: %w" [] (of_res (ParsePrivateKeyFromFile privData)) ;;
  wrapf "key pair at %s: %w" [base] (of_res (VerifyKeyPairCorrespondence dnskey privateKey)) ;;;
  ret (dnskey, privateKey).

Definition loadVerifiedPair (base domain keyType : string) : FS (DNSKEY.t * list Z) :=
  kp <-- loadKeyPairFromPath base ;;
  wrapf "%s key for %s at %s: %w" [keyType; domain; base] (of_res (validateLoadedKey kp.1 domain keyType)) ;;;
  ret kp.

Definition LoadKeyPair (cfg : Config) (domain keyType : string) : FS (DNSKEY.t * list Z) :=
  loadVerifiedPair (liveBase cfg domain keyType) domain keyType.

Definition LoadKeyPairByID (cfg : Config) (domain keyType : string) (keyID : Z) : FS (DNSKEY.t * list Z) :=
  let context := [keyType; pretty keyID; domain] in
  kp <-- wrapf "%s key %d for %s: %w" context (loadVerifiedPair (taggedBase cfg domain keyType keyID) domain keyType) ;;
  wrapf "%s key %d for %s: %w" context (of_res (checkKeyTag kp.1 keyID)) ;;;
  ret kp.

Definition LoadPublicKey (cfg : Config) (domain keyType : string) : FS DNSKEY.t :=
  dnskey <-- loadPublicKeyFromPath (liveBase cfg domain keyType) ;;
  wrapf "%s key for %s: %w" [keyType; domain] (of_res (validateLoadedKey dnskey domain keyType)) ;;;
  ret dnskey.

Definition LoadPublicKeyByID (cfg : Config) (domain keyType : string) (keyID : Z) : FS DNSKEY.t :=
  let context := [keyType; pretty keyID; domain] in
  dnskey <-- loadPublicKeyFromPath (taggedBase cfg domain keyType keyID) ;;
  wrapf "%s key %d for %s: %w" context (of_res (validateLoadedKey dnskey domain keyType)) ;;;
  wrapf "%s key %d for %s: %w" context (of_res (checkKeyTag dnskey keyID)) ;;;
  ret dnskey.

Definition LivePairHoldsKeyTag (cfg : Config) (domain keyType : string) (tag : Z) : FS bool :=
  r <-- catch (loadPublicKeyFromPath (liveBase cfg domain keyType)) ;;
  ret match r with Ok pub => KeyTagOf pub =? tag | Err _ => false end.

(** ** Names nothing occupies *)

Definition linkUnsupported (err : GoError.t) : bool :=
  is_errno (Hard EPERM) err || is_errno (Hard ENOTSUP) err || is_errno (Hard EOPNOTSUPP) err ||
  is_errno (Hard EXDEV) err || is_errno (Hard EMLINK) err.

(** The candidates from number [i] on. *)
Fixpoint set_aside_from (fuel : nat) (i : Z) (path reason : string) : FS string :=
  match fuel with
  | O => fail (errorf "could not allocate a name to set aside %s" [path])
  | S fuel =>
      let dst := path +:+ "." +:+ reason +:+ "." +:+ pretty i in
      r <-- catch (Link path dst) ;;
      match r with
      | Ok _ => catch (Remove path) ;;; ret dst
      | Err err =>
          if is_errno EEXIST err then set_aside_from fuel (i + 1) path reason
          else if negb (linkUnsupported err) then fail (Errorf "setting aside %s as %s: %w" [path; dst] err)
          else
            exists_ <-- wrapf "setting aside %s: stat %s: %w" [path; dst] (statExists dst) ;;
            if exists_ : bool then set_aside_from fuel (i + 1) path reason
            else wrapf "setting aside %s: %w" [path] (Rename path dst) ;;; ret dst
      end
  end.
Definition setAside (path reason : string) : FS string := set_aside_from (Z.to_nat 10000) 0 path reason.

Definition reserveFile (path : string) : FS bool :=
  r <-- catch (OpenExcl path 384) ;;
  match r with
  | Err err => if is_errno EEXIST err then ret false else fail (Errorf "reserving %s: %w" [path] err)
  | Ok _ => wrapf "reserving %s: %w" [path] (Close path) ;;; ret true
  end.

Definition releaseReservation (path : string) : FS unit :=
  r <-- catch (Lstat path) ;;
  match r with
  | Err _ => ret tt
  | Ok info =>
      if negb (bool_decide (Node.Kind info = Regular)) || negb (String.eqb (Node.Data info) "") then ret tt
      else catch (Remove path) ;;; ret tt
  end.

Definition reservePair (base : string) : FS bool :=
  claimed <-- reserveFile (base +:+ ".key") ;;
  if negb claimed then ret false
  else
    r <-- catch (reserveFile (base +:+ ".private")) ;;
    match r with
    | Ok true => ret true
    | Ok false => releaseReservation (base +:+ ".key") ;;; ret false
    | Err err => releaseReservation (base +:+ ".key") ;;; fail err
    end.

Fixpoint unique_base_from (fuel : nat) (i : Z) (prefix : string) : FS string :=
  match fuel with
  | O => fail (errorf "could not allocate a unique backup path for %s" [prefix])
  | S fuel =>
      let candidate := prefix +:+ "." +:+ pretty i in
      claimed <-- reservePair candidate ;;
      if claimed : bool then ret candidate else unique_base_from fuel (i + 1) prefix
  end.
Definition uniqueBackupBase (prefix : string) : FS string := unique_base_from (Z.to_nat 10000) 0 prefix.

Definition copyDurable (src dst : string) : FS unit := wrapf "copying %s to %s: %w" [src; dst] (CopyFile src dst).

Definition copy_half (srcBase dst ext : string) : FS unit :=
  exists_ <-- wrapf "stat %s%s: %w" [srcBase; ext] (statExists (srcBase +:+ ext)) ;;
  if negb exists_ then releaseReservation (dst +:+ ext) else copyDurable (srcBase +:+ ext) (dst +:+ ext).
Definition copyPairUnique (srcBase prefix : string) : FS string :=
  dst <-- uniqueBackupBase prefix ;;
  copy_half srcBase dst ".key" ;;;
  copy_half srcBase dst ".private" ;;;
  ret dst.

(** ** Staging *)

(** The slot of a generation: [true] when the generation is there already. *)
Definition prepare_slot (domain keyType : string) (tag : Z) (base : string) (dnskey : DNSKEY.t) : FS bool :=
  halves <-- pairFiles base ;;
  let '(keyExists, privExists) := halves in
  if keyExists : bool then
    r <-- catch (loadPublicKeyFromPath base) ;;
    if negb match r with Ok existing => samePublicKey existing dnskey | Err _ => false end then
      fail (errorf "refusing to stage %s key %d for %s: %s.key already holds a different key (key-tag collision); leaving it untouched"
        [keyType; pretty tag; domain; base])
    else if privExists : bool then
      r <-- catch (loadVerifiedPair base domain keyType) ;;
      match r with
      | Ok _ => ret true
      | Err _ => setAside (base +:+ ".private") "invalid" ;;; ret false
      end
    else ret false
  else if privExists : bool then setAside (base +:+ ".private") "orphan" ;;; ret false
  else ret false.

Definition write_generation (domain keyType : string) (tag : Z) (base : string) (dnskey : DNSKEY.t) (privateKey : list Z) : FS unit :=
  now <-- TimeNow ;;
  let keyContent := format_public_key dnskey now in
  now' <-- TimeNow ;;
  privContent <-- wrapf "formatting %s private key %d for %s: %w" [keyType; pretty tag; domain] (of_res (formatPrivateKey dnskey privateKey now')) ;;
  wrapf "staging private key %s.private: %w" [base] (WriteFileAtomicOwned (base +:+ ".private") privContent 384) ;;;
  wrapf "staging public key %s.key: %w" [base] (WriteFileAtomicOwned (base +:+ ".key") keyContent 420).

Definition StageKeyPair (cfg : Config) (domain keyType : string) (dnskey : DNSKEY.t) (privateKey : list Z) : FS string :=
  wrapf "refusing to stage %s key for %s: %w" [keyType; domain] (of_res (validateLoadedKey dnskey domain keyType)) ;;;
  wrapf "refusing to stage %s key for %s: %w" [keyType; domain] (of_res (VerifyKeyPairCorrespondence dnskey privateKey)) ;;;
  EnsureDirSecure (KeysDir cfg) ;;;
  let tag := KeyTagOf dnskey in
  let base := taggedBase cfg domain keyType tag in
  there <-- prepare_slot domain keyType tag base dnskey ;;
  if there : bool then ret base
  else
    write_generation domain keyType tag base dnskey privateKey ;;;
    staged <-- wrapf "staged %s key %d for %s does not reload: %w" [keyType; pretty tag; domain] (loadVerifiedPair base domain keyType) ;;
    if negb (samePublicKey staged.1 dnskey) || negb (KeyTagOf staged.1 =? tag) then
      fail (errorf "staged %s key for %s at %s does not match the generated key" [keyType; domain; base])
    else ret base.

(** ** Backups *)

(** The private half of a backup corresponds to the live public key. *)
Definition backup_private_valid (want : DNSKEY.t) (data : string) : bool :=
  match ParsePrivateKeyFromFile data with
  | Ok priv => is_ok (VerifyKeyPairCorrespondence want priv)
  | Err _ => false
  end.

Definition ensureBackupAt (domain keyType live backup : string) (want : DNSKEY.t) : FS unit :=
  halves <-- pairFiles backup ;;
  let '(keyExists, privExists) := halves in
  privExists <--
    (if keyExists : bool then
       data <-- wrapf "reading backup %s.key: %w" [backup] (ReadFile (backup +:+ ".key")) ;;
       if negb match ParseDNSKEYFromFile data with Ok parsed => samePublicKey parsed want | Err _ => false end then
         fail (GoError.mk (Sprintf "backup %s.key already holds a different key (key-tag %d collision); refusing to overwrite it" [backup; pretty (KeyTagOf want)])
                 (BackupConflict backup (KeyTagOf want)))
       else ret privExists
     else
       when privExists (setAside (backup +:+ ".private") "orphan" ;;; ret tt) ;;;
       wrapf "backing up %s public key for %s: %w" [keyType; domain] (copyDurable (live +:+ ".key") (backup +:+ ".key")) ;;;
       ret false) ;;
  privExists <--
    (if privExists : bool then
       data <-- wrapf "reading backup %s.private: %w" [backup] (ReadFile (backup +:+ ".private")) ;;
       if negb (backup_private_valid want data) then setAside (backup +:+ ".private") "invalid" ;;; ret false
       else ret true
     else ret false) ;;
  when (negb privExists) (wrapf "backing up %s private key for %s: %w" [keyType; domain] (copyDurable (live +:+ ".private") (backup +:+ ".private"))) ;;;
  got <-- wrapf "backup of %s key %d for %s at %s does not verify: %w" [keyType; pretty (KeyTagOf want); domain; backup] (loadVerifiedPair backup domain keyType) ;;
  if negb (samePublicKey got.1 want) then
    fail (errorf "backup of %s key for %s at %s does not hold the live key" [keyType; domain; backup])
  else ret tt.

Definition ensureVerifiedBackup (cfg : Config) (domain keyType : string) : FS DNSKEY.t :=
  let live := liveBase cfg domain keyType in
  r <-- catch (loadVerifiedPair live domain keyType) ;;
  match r with
  | Err err => fail (GoError.mk (Sprintf "%w: %s pair for %s: %w" ["live key pair does not verify"; keyType; domain; GoError.Text err]) LiveUnverifiable)
  | Ok (dnskey, _) =>
      ensureBackupAt domain keyType live (taggedBase cfg domain keyType (KeyTagOf dnskey)) dnskey ;;;
      ret dnskey
  end.

Definition preserveLivePair (cfg : Config) (domain keyType : string) : FS unit :=
  let live := liveBase cfg domain keyType in
  halves <-- pairFiles live ;;
  match halves with
  | (false, false) => ret tt
  | (true, true) =>
      r <-- catch (ensureVerifiedBackup cfg domain keyType) ;;
      match r with
      | Ok _ => ret tt
      | Err err =>
          match GoError.Cause err with
          | BackupConflict base _ => copyPairUnique live base ;;; ret tt
          | LiveUnverifiable => copyPairUnique live (live +:+ ".bak") ;;; ret tt
          | _ => fail err
          end
      end
  | _ => copyPairUnique live (live +:+ ".bak") ;;; ret tt
  end.

(** ** Activation *)

(** A copy that is visible goes on, durable or not. *)
Definition copy_visible (src dst : string) (message : string) (args : list string) : FS unit :=
  r <-- catch (CopyFile src dst) ;;
  match r with
  | Ok _ => ret tt
  | Err err => if IsDurability err then ret tt else fail (Errorf message args err)
  end.

Definition ActivateKeyPair (cfg : Config) (domain keyType : string) (tag : Z) : FS unit :=
  let staged := taggedBase cfg domain keyType tag in
  stagedPair <-- wrapf "cannot activate %s key %d for %s: staged pair at %s does not verify: %w" [keyType; pretty tag; domain; staged]
                   (loadVerifiedPair staged domain keyType) ;;
  let stagedKey := stagedPair.1 in
  if negb (KeyTagOf stagedKey =? tag) then
    fail (errorf "cannot activate %s key %d for %s: %s holds key tag %d" [keyType; pretty tag; domain; staged; pretty (KeyTagOf stagedKey)])
  else
    let live := liveBase cfg domain keyType in
    r <-- catch (loadVerifiedPair live domain keyType) ;;
    if match r with Ok cur => samePublicKey cur.1 stagedKey | Err _ => false end then ret tt
    else
      wrapf "preserving the current live %s key for %s before activation: %w" [keyType; domain] (preserveLivePair cfg domain keyType) ;;;
      copy_visible (staged +:+ ".private") (live +:+ ".private") "activating %s private key for %s: %w" [keyType; domain] ;;;
      copy_visible (staged +:+ ".key") (live +:+ ".key") "activating %s public key for %s: %w" [keyType; domain] ;;;
      now <-- wrapf "live %s key for %s does not verify after activation: %w" [keyType; domain] (loadVerifiedPair live domain keyType) ;;
      if negb (samePublicKey now.1 stagedKey) then
        fail (errorf "live %s key for %s does not match the activated generation %d" [keyType; domain; pretty tag])
      else ret tt.

(** The tag-named copy of the expected generation takes the place of a live pair that
    is another one. *)
Definition reactivate (cfg : Config) (domain keyType : string) (expected : Z) (liveDetail : string) : FS (DNSKEY.t * list Z) :=
  let tagged := taggedBase cfg domain keyType expected in
  let refuse terr :=
    fail (errorf "%s key for %s: state expects key tag %d but %s, and no verified copy of key %d exists (%v); refusing to sign with a key the recorded state does not name"
      [keyType; domain; pretty expected; liveDetail; pretty expected; terr]) in
  r <-- catch (loadVerifiedPair tagged domain keyType) ;;
  match r with
  | Err terr => refuse (GoError.Text terr)
  | Ok tk =>
      if negb (KeyTagOf tk.1 =? expected) then refuse (Sprintf "%s holds key tag %d" [tagged; pretty (KeyTagOf tk.1)])
      else
        wrapf "re-activating %s key %d for %s: %w" [keyType; pretty expected; domain] (ActivateKeyPair cfg domain keyType expected) ;;;
        kp <-- wrapf "%s key for %s after re-activation: %w" [keyType; domain] (loadVerifiedPair (liveBase cfg domain keyType) domain keyType) ;;
        if negb (KeyTagOf kp.1 =? expected) then
          fail (errorf "%s key for %s after re-activation holds key tag %d, expected %d" [keyType; domain; pretty (KeyTagOf kp.1); pretty expected])
        else ret kp
  end.
Definition EnsureLiveKey (cfg : Config) (domain keyType : string) (expected : Z) : FS (DNSKEY.t * list Z) :=
  r <-- catch (loadVerifiedPair (liveBase cfg domain keyType) domain keyType) ;;
  match r with
  | Ok kp =>
      if KeyTagOf kp.1 =? expected then ret kp
      else reactivate cfg domain keyType expected (Sprintf "the live pair holds key tag %d" [pretty (KeyTagOf kp.1)])
  | Err liveErr => reactivate cfg domain keyType expected (Sprintf "the live pair does not verify (%v)" [GoError.Text liveErr])
  end.

(** rollover.go: the live pair is the recorded key and has a verified copy. *)
Definition BackupKey (cfg : Config) (domain keyType : string) (keyID : Z) : FS unit :=
  live <-- ensureVerifiedBackup cfg domain keyType ;;
  if negb (KeyTagOf live =? keyID) then
    fail (errorf "live %s key for %s has key tag %d but the recorded state names key %d; refusing to roll over an unrecorded key (run `sigillum-signer sign` to reconcile first)"
      [keyType; domain; pretty (KeyTagOf live); pretty keyID])
  else ret tt.

Definition SaveKeyFiles (cfg : Config) (domain keyType : string) (dnskey : DNSKEY.t) (privateKey : list Z) : FS unit :=
  StageKeyPair cfg domain keyType dnskey privateKey ;;;
  ActivateKeyPair cfg domain keyType (KeyTagOf dnskey).

(** ** Generation *)

Definition str_drop (n : nat) (s : string) : string := String.substring n (String.length s - n) s.
(** [strings.TrimPrefix] *)
Definition TrimPrefix (s p : string) : string := if HasPrefix s p then str_drop (String.length p) s else s.

(** The tag in a backup's file name, for one role. *)
Definition tag_in_name (domain kt name : string) : option Z :=
  let prefix := domain +:+ "." +:+ kt +:+ "." in
  if negb (HasSuffix name ".key") || negb (HasPrefix name prefix) then None
  else ParseUint (TrimSuffix (TrimPrefix name prefix) ".key") 16.

Definition live_tag (cfg : Config) (domain kt : string) : FS (list Z) :=
  r <-- catch (loadPublicKeyFromPath (liveBase cfg domain kt)) ;;
  ret match r with Ok dk => [KeyTagOf dk] | Err _ => [] end.

Definition existingKeyTags (cfg : Config) (domain : string) : FS (gset Z) :=
  entries <-- catch (ReadDir (KeysDir cfg)) ;;
  let names := match entries with Ok names => names | Err _ => [] end in
  ksk <-- live_tag cfg domain "ksk" ;;
  zsk <-- live_tag cfg domain "zsk" ;;
  ret (list_to_set (omap (tag_in_name domain "ksk") names ++ omap (tag_in_name domain "zsk") names ++ ksk ++ zsk)).

Definition tagInUse (keyTag : Z) (existingTags : gset Z) : bool := bool_decide (keyTag ∈ existingTags).

(** One draw of key material. *)
Definition draw_key (domain algorithm : string) (flags : Z) : FS (DNSKEY.t * list Z) := fun d =>
  (match generateDNSSECKey (Disk.draws d) domain algorithm flags with
   | Ok kp => Ok kp
   | Err msg => Err (GoError.mk msg Plain)
   end, Disk.mk (Disk.nodes d) (Disk.past d) (Disk.calls d) (S (Disk.draws d))).

Definition maxTagAttempts : Z := 10.

(** Attempt number [attempt], with [fuel] attempts behind it. *)
Fixpoint draw_unused (fuel : nat) (attempt : Z) (domain keyType algorithm : string) (flags : Z) (existingTags : gset Z) : FS (DNSKEY.t * list Z) :=
  kp <-- wrapf "generating %s: %w" [keyType] (draw_key domain algorithm flags) ;;
  let keyTag := KeyTagOf kp.1 in
  if negb (tagInUse keyTag existingTags) then ret kp
  else
    let give_up_ := fail (errorf "could not generate a %s for %q with a unique key tag after %d attempts (last colliding tag %d); aborting without changing any key or state"
                            [keyType; quoted domain; pretty attempt; pretty keyTag]) in
    match fuel with
    | O => give_up_
    | S fuel => if maxTagAttempts <=? attempt then give_up_ else draw_unused fuel (attempt + 1) domain keyType algorithm flags existingTags
    end.

(** Minted key material and its record; [now] is the clock reading of the record. *)
Definition generateKeyMaterial (cfg : Config) (domain : string) (isKSK : bool) (algorithmOverride : string) (now : Time) :
    FS (DNSKEY.t * list Z * KeyState.t) :=
  let algorithm := if String.eqb algorithmOverride "" then GetZoneAlgorithm cfg domain else algorithmOverride in
  let keyType := role_name (keyRole isKSK) in
  let lifetime := if isKSK then GetZoneKSKLifetime cfg domain else GetZoneZSKLifetime cfg domain in
  let flags := if isKSK then 257 else 256 in
  existingTags <-- existingKeyTags cfg domain ;;
  kp <-- draw_unused (Z.to_nat maxTagAttempts) 1 domain keyType algorithm flags existingTags ;;
  ret (kp, KeyState.mk (KeyTagOf kp.1) algorithm now (TAdd now lifetime) false (TAdd now (three_quarters lifetime))).

Definition stageNewKey (cfg : Config) (domain : string) (isKSK : bool) (algorithmOverride : string) (now : Time) : FS KeyState.t :=
  m <-- generateKeyMaterial cfg domain isKSK algorithmOverride now ;;
  let '(dnskey, privateKey, ks) := m in
  StageKeyPair cfg domain (role_name (keyRole isKSK)) dnskey privateKey ;;;
  ret ks.
Definition StageKSK cfg domain algorithm now : FS KeyState.t := stageNewKey cfg domain true algorithm now.
Definition StageZSK cfg domain algorithm now : FS KeyState.t := stageNewKey cfg domain false algorithm now.

Definition generateKey (cfg : Config) (domain : string) (isKSK : bool) (algorithmOverride : string) (now : Time) : FS KeyState.t :=
  m <-- generateKeyMaterial cfg domain isKSK algorithmOverride now ;;
  let '(dnskey, privateKey, ks) := m in
  wrapf "saving key files: %w" [] (SaveKeyFiles cfg domain (role_name (keyRole isKSK)) dnskey privateKey) ;;;
  ret ks.
Definition GenerateKSK cfg domain now : FS KeyState.t := generateKey cfg domain true "" now.
Definition GenerateZSK cfg domain now : FS KeyState.t := generateKey cfg domain false "" now.
Definition GenerateKSKWithAlgorithm cfg domain algorithm now : FS KeyState.t := generateKey cfg domain true algorithm now.
Definition GenerateZSKWithAlgorithm cfg domain algorithm now : FS KeyState.t := generateKey cfg domain false algorithm now.

(** ** Recovery *)

Definition keyFileMtime (path : string) : FS Time :=
  r <-- catch (Stat path) ;;
  match r with Ok info => ret (Node.ModTime info) | Err _ => TimeNow end.

Fixpoint created_in (lines : list string) : option Time :=
  match lines with
  | [] => None
  | line :: rest =>
      if HasPrefix line "; Created: " then
        match ParseRFC3339 (TrimPrefix line "; Created: ") with Ok t => Some t | Err _ => created_in rest end
      else created_in rest
  end.
Definition parseKeyFileCreatedDate (keyFile : string) : FS Time :=
  r <-- catch (ReadFile keyFile) ;;
  match r with
  | Err _ => keyFileMtime keyFile
  | Ok data => match created_in (splitLines data) with Some t => ret t | None => keyFileMtime keyFile end
  end.

(** The state of an existing live pair; [None]: no half exists. *)
Definition RecoverKeyState (cfg : Config) (domain : string) (isKSK : bool) : FS (option KeyState.t) :=
  let keyType := role_name (keyRole isKSK) in
  let lifetime := if isKSK then GetZoneKSKLifetime cfg domain else GetZoneZSKLifetime cfg domain in
  let baseName := liveBase cfg domain keyType in
  let keyFile := baseName +:+ ".key" in
  let privFile := baseName +:+ ".private" in
  keyExists <-- wrapf "stat %s: %w" [keyFile] (statExists keyFile) ;;
  privExists <-- wrapf "stat %s: %w" [privFile] (statExists privFile) ;;
  if negb keyExists && negb privExists then ret None
  else if negb (Bool.eqb keyExists privExists) then
    let '(present, missing) := if keyExists : bool then (keyFile, privFile) else (privFile, keyFile) in
    fail (errorf "incomplete %s key pair: %s exists but %s is missing; refusing to regenerate (restore the missing half, or remove the zone and re-add to mint fresh keys)"
      [keyType; present; missing])
  else
    kp <-- wrapf "cannot read existing %s key files: %w" [keyType] (loadKeyPairFromPath baseName) ;;
    created <-- parseKeyFileCreatedDate keyFile ;;
    ret (Some (KeyState.mk (KeyTagOf kp.1) (AlgorithmName (DNSKEY.Algorithm kp.1)) created (TAdd created lifetime) false
                 (TAdd created (three_quarters lifetime)))).

(** One role: its recovered or generated state, and the generated one. *)
Definition recover_or_generate (cfg : Config) (domain : string) (isKSK : bool) (now : Time) : FS (KeyState.t * option KeyState.t) :=
  let name := if isKSK then "KSK" else "ZSK" in
  recovered <-- wrapf (name +:+ " recovery failed for %s (refusing to regenerate): %w") [domain] (RecoverKeyState cfg domain isKSK) ;;
  match recovered with
  | Some ks => ret (ks, None)
  | None => ks <-- wrapf ("generating " +:+ name +:+ " for %s: %w") [domain] (generateKey cfg domain isKSK "" now) ;; ret (ks, Some ks)
  end.
(** The states of both roles, or the error, with the record of what was generated. *)
Definition RecoverOrGenerateKeysReport (cfg : Config) (domain : string) (now1 now2 : Time) :
    FS (res GoError.t (KeyState.t * KeyState.t) * KeyGeneration.t) :=
  r <-- catch (recover_or_generate cfg domain true now1) ;;
  match r with
  | Err err => ret (Err err, KeyGeneration.mk None None)
  | Ok (ksk, generatedKSK) =>
      r <-- catch (recover_or_generate cfg domain false now2) ;;
      match r with
      | Err err => ret (Err err, KeyGeneration.mk generatedKSK None)
      | Ok (zsk, generatedZSK) => ret (Ok (ksk, zsk), KeyGeneration.mk generatedKSK generatedZSK)
      end
  end.
Definition RecoverOrGenerateKeys (cfg : Config) (domain : string) (now1 now2 : Time) : FS (KeyState.t * KeyState.t) :=
  r <-- RecoverOrGenerateKeysReport cfg domain now1 now2 ;; lift_res r.1.

(** ** Import *)

Context `{HashLib} `{SignLib}.
Definition ValidateKeyForImport (domain keyType : string) (dnskey : option DNSKEY.t) (privateKey : list Z) (now : Time) : res string unit :=
  match dnskey with
  | None => Err (Sprintf "%s for %s: no DNSKEY" [keyType; domain])
  | Some dnskey =>
      let explain {A} (r : res string A) : res string A :=
        match r with Ok a => Ok a | Err err => Err (Sprintf "%s for %s: %w" [keyType; domain; err]) end in
      check explain (validateLoadedKey dnskey domain keyType);
      if negb (DNSKEY.Protocol dnskey =? 3) then
        Err (Sprintf "%s for %s: DNSKEY protocol %d is not 3 (RFC 4034 §2.1.2)" [keyType; domain; pretty (DNSKEY.Protocol dnskey)])
      else
        check explain (VerifyKeyPairCorrespondence dnskey privateKey);
        let probe := [RR_Other (Hdr.mk (Fqdn domain) 16 1 60) "sigillum-signer import signing probe"] in
        let rrsig := createRRSIG probe dnskey (Fqdn domain) (TAdd now (- Hour)) (TAdd now Hour) in
        match signRRSIG rrsig probe dnskey privateKey with
        | Err err => Err (Sprintf "%s for %s cannot sign: %w" [keyType; domain; err])
        | Ok rrsig =>
            match VerifyRRSIG rrsig dnskey probe with
            | Some err => Err (Sprintf "%s for %s: a signature made with the private key does not verify under the public key: %w" [keyType; domain; err])
            | None => Ok tt
            end
        end
  end.
End keyfiles.
