(* ===== verification/ParentProbe.v ===== *)
(** * ParentProbe: asking every authoritative server
    (signer/internal/validate/parentds.go; [queryDirect] of validate.go)

    A transport answers one exchange, over UDP or TCP, with a message or an error, and
    may answer the same question differently each time: [Exchange] takes the number of
    the exchange.  The probes are functions in the state-and-error monad over that
    number.  A transport error tells, besides its text, whether it is a timeout and
    which error of the socket layer it wraps. *)

From stdpp Require Import base list strings gmap pretty.
From Stdlib Require Import ZArith Lia Ascii.
From S2P Require Import Prelude GoTime Names Ip Egress Wire Authenticated Resolver Serial KeyMaterial ZoneModel Signatures.
Local Open Scope Z_scope.

(** ** Exchanges *)

Inductive NetErrno := ENETUNREACH | EHOSTUNREACH | EADDRNOTAVAIL | EAFNOSUPPORT | OtherErrno.

Module NetError.
Record t := mk { Text : string; Timeout : bool; Errno : option NetErrno }.
End NetError.

(** [fmt.Errorf] with a last [%w], and without one *)
Definition wrap_net (format : string) (args : list string) (err : NetError.t) : NetError.t :=
  NetError.mk (Sprintf format (args ++ [NetError.Text err])) (NetError.Timeout err) (NetError.Errno err).
Definition net_errorf (format : string) (args : list string) : NetError.t := NetError.mk (Sprintf format args) false None.

Module Question.
Record t := mk { Name : string; Qtype : Z; Qclass : Z }.
End Question.

(** A query: its question and the RD, CD and DO bits. *)
Module QueryMsg.
Record t := mk { question : Question.t; RecursionDesired : bool; CheckingDisabled : bool; DO : bool }.
End QueryMsg.

(** A response, with what the client looks at before the records. *)
Module Reply.
Record t := mk { questions : list Question.t; Truncated : bool; msg : Msg.t }.
End Reply.

Class Transport := {
  Exchange : nat -> bool -> string -> QueryMsg.t -> res NetError.t Reply.t;
  (** [dns.TypeToString], [dns.RcodeToString] *)
  TypeToString : Z -> string;
  RcodeToString : Z -> string;
  (** [v.resolverAddr()], [v.portOr()] *)
  resolverAddr : string;
  authPort : string
}.

Abbreviation Net := (St nat NetError.t).

(** One delegated nameserver and the addresses it resolved to. *)
Module nsTarget.
Record t := mk { name : string; addrs : list string }.
End nsTarget.
(** An address a probe could not use, with the identities it serves. *)
Module probeFailure.
Record t := mk { server : string; names : list string; err : NetError.t }.
End probeFailure.
Module answeredServer.
Record t := mk { server : string; msg : Msg.t }.
End answeredServer.

(** [k.ToDS(digest)] of the DNS library *)
Class DsLib := { ToDS : DNSKEY.t -> Z -> option DS.t }.
Definition SHA256 : Z := 2.
Definition SHA384 : Z := 4.

(** What all servers of the parent hold (rollover.go: ParentDSObservation). *)
Module Observation.
Record t := mk {
  PresentOnAll : gmap Z bool; AbsentOnAll : gmap Z bool; TTL : Z; Servers : list string; DSRecords : list DS.t;
  ByNameserver : gmap string (list string); Skipped : list string
}.
End Observation.

(** What the servers of a zone publish (bindkeys.go). *)
Module ServedKeys.
Record t := mk {
  Servers : list string; Unreachable : list string; DNSKEYs : list DNSKEY.t; DNSKEYTTL : Z; SOASigners : list Z; DNSKEYSigners : list Z;
  SOASerials : list Z; StaleSignatures : bool
}.
End ServedKeys.

Section probe.
Context `{DnsLib} `{Transport}.

Definition one_exchange (tcp : bool) (server : string) (q : QueryMsg.t) : Net Reply.t := fun n => (Exchange n tcp server q, S n).
Definition wrapping {A} (format : string) (args : list string) (m : Net A) : Net A := fun n =>
  match m n with
  | (Err err, n') => (Err (wrap_net format args err), n')
  | (Ok a, n') => (Ok a, n')
  end.

Definition checkQuestion (r : Reply.t) (q : QueryMsg.t) : res NetError.t unit :=
  match Reply.questions r with
  | [got] =>
      let want := QueryMsg.question q in
      if negb (EqualFold (Fqdn (Question.Name got)) (Fqdn (Question.Name want))) || negb (Question.Qtype got =? Question.Qtype want)
         || negb (Question.Qclass got =? Question.Qclass want)
      then Err (net_errorf "response answers %s/%s, not the query %s/%s"
             [Question.Name got; TypeToString (Question.Qtype got); Question.Name want; TypeToString (Question.Qtype want)])
      else Ok tt
  | l => Err (net_errorf "response carries %d questions, want exactly the one asked" [pretty (Z.of_nat (length l))])
  end.

Definition exchangeTC (q : QueryMsg.t) (server : string) : Net Msg.t :=
  r <-- one_exchange false server q ;;
  r <-- (if Reply.Truncated r then wrapping "TCP retry after a truncated answer: %w" [] (one_exchange true server q) else ret r) ;;
  match checkQuestion r q with
  | Err err => fail err
  | Ok _ => ret (Reply.msg r)
  end.

Definition direct_query (qname : string) (qtype : Z) : QueryMsg.t := QueryMsg.mk (Question.mk (Fqdn qname) qtype 1) false false true.
Definition queryDirect (server qname : string) (qtype : Z) : Net Msg.t :=
  r <-- exchangeTC (direct_query qname qtype) server ;;
  if negb (Msg.Rcode r =? RcodeSuccess) then fail (net_errorf "DNS response code: %s" [RcodeToString (Msg.Rcode r)])
  else if negb (Msg.Authoritative r) then
    fail (net_errorf "non-authoritative answer from %s for %s/%s" [server; Fqdn qname; TypeToString qtype])
  else ret r.

Definition resolverQueryWithCD (checkingDisabled : bool) (qname : string) (qtype : Z) : Net Msg.t :=
  let q := QueryMsg.mk (Question.mk (Fqdn qname) qtype 1) true checkingDisabled false in
  r <-- wrapping "%s %s lookup: %w" [qname; TypeToString qtype] (exchangeTC q resolverAddr) ;;
  if negb (Msg.Rcode r =? RcodeSuccess) then
    fail (net_errorf "%s %s lookup: %s" [qname; TypeToString qtype; RcodeToString (Msg.Rcode r)])
  else ret r.
Definition resolverQuery : string -> Z -> Net Msg.t := resolverQueryWithCD false.
Definition resolverQueryUnchecked : string -> Z -> Net Msg.t := resolverQueryWithCD true.

(** ** Discovery *)

Definition sort_strings (l : list string) : list string := sort_by (fun s => s) l.

Definition collect_ns (rrs : list RR) (zone : string) : list string :=
  sort_strings (dedupe_by (fun s => s) []
    (omap (fun rr => match rr with
                     | RR_NS h ns => if String.eqb (CanonicalName (Hdr.Name h)) (CanonicalName zone) then Some (CanonicalName ns) else None
                     | _ => None
                     end) rrs)).
Definition nsNamesOf (r : Msg.t) (zone : string) : list string :=
  match collect_ns (Msg.Answer r) zone with
  | [] => collect_ns (Msg.Ns r) zone
  | names => names
  end.


(** The addresses of one family that records hold, with their owners. *)
Definition address_of (qtype : Z) (rr : RR) : option (string * string) :=
  match rr with
  | RR_A h ip => if qtype =? TypeA then Some (CanonicalName (Hdr.Name h), IPString ip) else None
  | RR_AAAA h ip => if qtype =? TypeAAAA then Some (CanonicalName (Hdr.Name h), IPString ip) else None
  | _ => None
  end.
Definition addresses_at (name : string) (qtype : Z) (rrs : list RR) : list string :=
  omap (fun rr => match address_of qtype rr with
                  | Some (owner, ip) => if String.eqb owner name then Some ip else None
                  | None => None
                  end) rrs.
(** [glue[name][qtype]] *)
Definition glue (zone name : string) (qtype : Z) (extra : list RR) : list string :=
  if IsSubDomain zone name then addresses_at name qtype extra else [].

Definition JoinHostPort (host port : string) : string :=
  if Contains host ":" then "[" +:+ host +:+ "]:" +:+ port else host +:+ ":" +:+ port.

Definition family_addresses (query : string -> Z -> Net Msg.t) (zone name : string) (extra : list RR) (qtype : Z) : Net (list string) :=
  match glue zone name qtype extra with
  | [] =>
      ar <-- wrapping "nameserver %s of %s could not be resolved (delegation coverage incomplete): %w" [name; zone] (query name qtype) ;;
      ret (addresses_at name qtype (Msg.Answer ar))
  | ips => ret ips
  end.

Definition target_of (query : string -> Z -> Net Msg.t) (zone : string) (extra : list RR) (name : string) : Net nsTarget.t :=
  v4 <-- family_addresses query zone name extra TypeA ;;
  v6 <-- family_addresses query zone name extra TypeAAAA ;;
  match dedupe_by (fun s => s) [] (map (fun ip => JoinHostPort ip authPort) (v4 ++ v6)) with
  | [] => fail (net_errorf "nameserver %s of %s resolved to no IPv4 or IPv6 address (delegation coverage incomplete)" [name; zone])
  | addrs => ret (nsTarget.mk name (sort_strings addrs))
  end.
Fixpoint targets_of (query : string -> Z -> Net Msg.t) (zone : string) (extra : list RR) (names : list string) : Net (list nsTarget.t) :=
  match names with
  | [] => ret []
  | name :: rest => t <-- target_of query zone extra name ;; ts <-- targets_of query zone extra rest ;; ret (t :: ts)
  end.

Definition discoverNSWith (zone : string) (query : string -> Z -> Net Msg.t) : Net (list nsTarget.t) :=
  let zone := Fqdn zone in
  r <-- wrapping "NS lookup for %s: %w" [zone] (query zone TypeNS) ;;
  match nsNamesOf r zone with
  | [] => fail (net_errorf "no NS records found for %s" [zone])
  | names => targets_of query zone (Msg.Extra r) names
  end.
Definition discoverNS (zone : string) : Net (list nsTarget.t) := discoverNSWith zone resolverQuery.
Definition discoverNSUnchecked (zone : string) : Net (list nsTarget.t) := discoverNSWith zone resolverQueryUnchecked.

(** ** Probing *)

Definition isLocalRouteError (err : NetError.t) : bool :=
  if NetError.Timeout err then false
  else match NetError.Errno err with
       | Some ENETUNREACH | Some EHOSTUNREACH | Some EADDRNOTAVAIL | Some EAFNOSUPPORT => true
       | _ => false
       end.

Definition failure_text (e : probeFailure.t) : string :=
  Sprintf "%s (%s) failed: %v" [probeFailure.server e; Join (probeFailure.names e) ","; NetError.Text (probeFailure.err e)].

(** The unique addresses of all targets, and the names each one serves. *)
Definition flat_addrs (targets : list nsTarget.t) : list string :=
  sort_strings (dedupe_by (fun s => s) [] (concat (map nsTarget.addrs targets))).
Definition names_of (targets : list nsTarget.t) (addr : string) : list string :=
  concat (map (fun t => omap (fun a => if String.eqb a addr then Some (nsTarget.name t) else None) (nsTarget.addrs t)) targets).
Definition by_name (targets : list nsTarget.t) : gmap string (list string) :=
  fold_left (fun m t => <[nsTarget.name t := nsTarget.addrs t]> m) targets ∅.
Definition flattenTargets (targets : list nsTarget.t) : list string * gmap string (list string) * (string -> list string) :=
  (flat_addrs targets, by_name targets, names_of targets).

Definition resolveAllNS (zone : string) : Net (list string) :=
  targets <-- discoverNS zone ;; ret (flat_addrs targets).

(** Each address in order, with its answer or its error. *)
Fixpoint ask_each (addrs : list string) (qname : string) (qtype : Z) : Net (list (string * res NetError.t Msg.t)) :=
  match addrs with
  | [] => ret []
  | server :: rest =>
      r <-- catch (queryDirect server qname qtype) ;;
      more <-- ask_each rest qname qtype ;;
      ret ((server, r) :: more)
  end.
Definition outcome_at (outcomes : list (string * res NetError.t Msg.t)) (server : string) : option (res NetError.t Msg.t) :=
  match List.find (fun o => String.eqb o.1 server) outcomes with Some o => Some o.2 | None => None end.

(** The addresses of one identity: whether one answered, and the first without a route. *)
Fixpoint judge_addrs (outcomes : list (string * res NetError.t Msg.t)) (names : string -> list string) (addrs : list string)
    (answered : bool) (unreachable : option probeFailure.t) : res probeFailure.t (bool * option probeFailure.t) :=
  match addrs with
  | [] => Ok (answered, unreachable)
  | a :: rest =>
      match outcome_at outcomes a with
      | Some (Ok _) => judge_addrs outcomes names rest true unreachable
      | Some (Err err) =>
          if negb (isLocalRouteError err) then Err (probeFailure.mk a (names a) err)
          else judge_addrs outcomes names rest answered
                 (match unreachable with None => Some (probeFailure.mk a (names a) err) | u => u end)
      | None => Err (probeFailure.mk a (names a) (net_errorf "<nil>" []))
      end
  end.
Definition judge_target (outcomes : list (string * res NetError.t Msg.t)) (names : string -> list string)
    (addrs : list string) (name : string) : res probeFailure.t unit :=
  try judged <- judge_addrs outcomes names addrs false None;
  match judged with
  | (true, _) => Ok tt
  | (false, Some u) =>
      Err (probeFailure.mk (probeFailure.server u) (probeFailure.names u)
             (wrap_net "no address of nameserver %s is reachable from this host: %w" [name] (probeFailure.err u)))
  | (false, None) => Err (probeFailure.mk "" [] (net_errorf "" []))
  end.
Fixpoint judge_targets (outcomes : list (string * res NetError.t Msg.t)) (all targets : list nsTarget.t) : res probeFailure.t unit :=
  match targets with
  | [] => Ok tt
  | t :: rest =>
      check judge_target outcomes (names_of all) (default [] (by_name all !! nsTarget.name t)) (nsTarget.name t);
      judge_targets outcomes all rest
  end.


(** The answers in the order of the addresses, and the addresses skipped; or the failure. *)
Definition probeIdentities (targets : list nsTarget.t) (qname : string) (qtype : Z) : Net (res probeFailure.t (list answeredServer.t * list string)) :=
  outcomes <-- ask_each (flat_addrs targets) qname qtype ;;
  ret (check judge_targets outcomes targets targets;
       Ok (omap (fun o => match o.2 with Ok msg => Some (answeredServer.mk o.1 msg) | Err _ => None end) outcomes,
           omap (fun o => match o.2 with Ok _ => None | Err _ => Some o.1 end) outcomes)).

(** [ownerRecords] of one type *)
Definition ownerRecords {A} (get : RR -> option A) (msg : Msg.t) (qname : string) : list A :=
  omap (fun rr => if String.eqb (CanonicalName (rr_name rr)) (CanonicalName qname) then get rr else None) (Msg.Answer msg).
Definition get_ds (rr : RR) : option DS.t := match rr with RR_DS v => Some v | _ => None end.
Definition get_dnskey (rr : RR) : option DNSKEY.t := match rr with RR_DNSKEY v => Some v | _ => None end.
Definition get_rrsig (rr : RR) : option RRSIG.t := match rr with RR_RRSIG v => Some v | _ => None end.
Definition get_serial (rr : RR) : option Z := match rr with RR_SOA _ _ _ numbers => Some (nth 0 numbers 0) | _ => None end.

(** ** The parent's DS records *)

Context `{WireLib} `{SignLib} `{DsLib}.

(** The DS records of a key, and of all keys with a tag. *)
Definition ds_of (k : DNSKEY.t) : list DS.t := omap (ToDS k) [SHA256; SHA384].
Definition expected_ds (ksks : list DNSKEY.t) : gmap Z (list DS.t) :=
  fold_left (fun m k => let ds := ds_of k in
    if bool_decide (ds = []) then m else <[KeyTagOf k := default [] (m !! KeyTagOf k) ++ ds]> m) ksks ∅.
Definition algorithm_of (ksks : list DNSKEY.t) : gmap Z Z := fold_left (fun m k => <[KeyTagOf k := DNSKEY.Algorithm k]> m) ksks ∅.

Definition ds_id (ds : DS.t) : string :=
  Sprintf "%d %d %d %s" [pretty (DS.KeyTag ds); pretty (DS.Algorithm ds); pretty (DS.DigestType ds); ToLower (DS.Digest ds)].
Definition selects (tag alg : Z) (ds : DS.t) : bool := (DS.KeyTag ds =? tag) && (DS.Algorithm ds =? alg).
Definition same_digest (a b : DS.t) : bool := (DS.DigestType a =? DS.DigestType b) && EqualFold (DS.Digest a) (DS.Digest b).
(** The records of one server hold any DS of the key, an exact one. *)
Definition holds_any (tag alg : Z) (records : list DS.t) : bool := existsb (selects tag alg) records.
Definition holds_exact (tag alg : Z) (expected records : list DS.t) : bool :=
  existsb (fun ds => selects tag alg ds && existsb (same_digest ds) expected) records.

Definition max_ds_ttl (records : list DS.t) : Z :=
  fold_left (fun acc ds => if acc <? Hdr.Ttl (DS.Hdr ds) then Hdr.Ttl (DS.Hdr ds) else acc) records 0.
Definition count_if {A} (p : A -> bool) (l : list A) : nat := length (List.filter p l).

Definition findParentZone (domain : string) : string :=
  match SplitDomainName (Fqdn domain) with
  | [] | [_] => "."
  | _ :: parents => Fqdn (Join parents ".")
  end.

Definition observe (targets : list nsTarget.t) (ksks : list DNSKEY.t) (qname : string) (answers : list answeredServer.t) (skipped : list string) : Observation.t :=
  let held := map (fun a => ownerRecords get_ds (answeredServer.msg a) qname) answers in
  let expected tag := default [] (expected_ds ksks !! tag) in
  Observation.mk
    (map_imap (fun tag alg => Some (negb (bool_decide (expected tag = [])) && Nat.eqb (count_if (holds_exact tag alg (expected tag)) held) (length answers))) (algorithm_of ksks))
    (map_imap (fun tag alg => Some (Nat.eqb (count_if (holds_any tag alg) held) 0)) (algorithm_of ksks))
    (max_ds_ttl (concat held)) (map answeredServer.server answers) (dedupe_by ds_id [] (concat held)) (by_name targets) skipped.

Definition ProbeParentDS (domain : string) (ksks : list (option DNSKEY.t)) : Net Observation.t :=
  targets <-- discoverNS (findParentZone domain) ;;
  let qname := Fqdn domain in
  probed <-- probeIdentities targets qname TypeDS ;;
  match probed with
  | Err e =>
      let err := probeFailure.err e in
      fail (NetError.mk ("DS query to parent server " +:+ failure_text e) (NetError.Timeout err) (NetError.Errno err))
  | Ok (answers, skipped) => ret (observe targets (omap id ksks) qname answers skipped)
  end.

(** ** The published serial *)

Fixpoint serial_served (qname : string) (serial : Z) (answers : list answeredServer.t) : option string :=
  match answers with
  | [] => None
  | a :: rest =>
      match last (ownerRecords get_serial (answeredServer.msg a) qname) with
      | None => Some (Sprintf "%s returned no SOA" [answeredServer.server a])
      | Some served =>
          if negb (served =? serial) then
            Some (Sprintf "%s serves serial %d, published %d" [answeredServer.server a; pretty served; pretty serial])
          else serial_served qname serial rest
      end
  end.
Definition ProbePublishedSerial (domain : string) (serial : Z) : Net (bool * string) :=
  let qname := Fqdn domain in
  targets <-- discoverNS qname ;;
  probed <-- probeIdentities targets qname TypeSOA ;;
  match probed with
  | Err e => ret (false, "SOA query to " +:+ failure_text e)
  | Ok (answers, skipped) =>
      match serial_served qname serial answers with
      | Some details => ret (false, details)
      | None =>
          let details := Sprintf "serial %d served by %d server(s)" [pretty serial; pretty (Z.of_nat (length answers))] in
          ret (true, match skipped with
                     | [] => details
                     | _ => details +:+ Sprintf "; %d address(es) skipped, no local route: %s" [pretty (Z.of_nat (length skipped)); Join skipped ", "]
                     end)
      end
  end.

(** ** The served keys *)

Definition append_new (l : list Z) (x : Z) : list Z := if bool_decide (x ∈ l) then l else l ++ [x].
Definition key_material_id (k : DNSKEY.t) : string :=
  Sprintf "%d %d %d %s" [pretty (DNSKEY.Flags k); pretty (DNSKEY.Protocol k); pretty (DNSKEY.Algorithm k); DNSKEY.PublicKey k].

(** Both answers of each server, or the reason there are none. *)
Fixpoint ask_served (addrs : list string) (qname : string) : Net (list (string * res NetError.t (Msg.t * Msg.t))) :=
  match addrs with
  | [] => ret []
  | server :: rest =>
      r <-- catch (dnskeyMsg <-- queryDirect server qname TypeDNSKEY ;; soaMsg <-- queryDirect server qname TypeSOA ;; ret (dnskeyMsg, soaMsg)) ;;
      more <-- ask_served rest qname ;;
      ret ((server, r) :: more)
  end.
Definition sigs_over (covered : Z) (msg : Msg.t) (qname : string) : list RRSIG.t :=
  List.filter (fun sig => RRSIG.TypeCovered sig =? covered) (ownerRecords get_rrsig msg qname).

Definition served_summary (names : string -> list string) (qname : string) (now : Time) (outcomes : list (string * res NetError.t (Msg.t * Msg.t))) : ServedKeys.t :=
  let answered := omap (fun o => match o.2 with Ok msgs => Some (o.1, msgs) | Err _ => None end) outcomes in
  let keys := concat (map (fun a => ownerRecords get_dnskey a.2.1 qname) answered) in
  let key_sigs := concat (map (fun a => sigs_over TypeDNSKEY a.2.1 qname) answered) in
  let soa_sigs := concat (map (fun a => sigs_over TypeSOA a.2.2 qname) answered) in
  let sigs := key_sigs ++ soa_sigs in
  ServedKeys.mk (map fst answered)
    (omap (fun o => match o.2 with Ok _ => None | Err err => Some (Sprintf "%s (%s): %v" [o.1; Join (names o.1) ","; NetError.Text err]) end) outcomes)
    (dedupe_by key_material_id [] keys)
    (fold_left (fun acc k => if acc <? Hdr.Ttl (DNSKEY.Hdr k) then Hdr.Ttl (DNSKEY.Hdr k) else acc) keys 0)
    (fold_left append_new (map RRSIG.KeyTag soa_sigs) []) (fold_left append_new (map RRSIG.KeyTag key_sigs) [])
    (fold_left append_new (concat (map (fun a => ownerRecords get_serial a.2.2 qname) answered)) [])
    (negb (bool_decide (sigs = [])) && negb (existsb (fun sig => ValidityPeriod sig now) sigs)).

Definition ProbeServedKeys (domain : string) (now : Time) : Net ServedKeys.t :=
  let qname := Fqdn domain in
  targets <-- discoverNSUnchecked qname ;;
  outcomes <-- ask_served (flat_addrs targets) qname ;;
  let served := served_summary (names_of targets) qname now outcomes in
  match ServedKeys.Servers served with
  | [] => fail (net_errorf "no authoritative server of %s answered: %s" [domain; Join (ServedKeys.Unreachable served) "; "])
  | _ => ret served
  end.
End probe.
