(* ===== verification/Validate.v ===== *)
(** * Validate: what resolvers make of a signed zone
    (signer/internal/validate/validate.go)

    The checks of one zone against its parent and one of its servers, and the verdict
    over them.  The keys are loaded from the key directory first; the queries are those
    of ParentProbe.  The lists of DS records are kept as records, not as text. *)

From stdpp Require Import base list strings gmap pretty.
From Stdlib Require Import ZArith Lia Ascii.
From S2P Require Import Prelude GoTime Config ZoneState StateStore FileSys KeyOps Names Ip Egress Wire Authenticated Resolver Serial KeyMaterial ZoneModel Signatures KeyFiles ParentProbe.
Local Open Scope Z_scope.

(** ** Results *)

Module DSCheckResult.
Record t := mk { Status : string; Found : bool; MatchesKSK : bool; ParentNS : string; DSRecords : list DS.t; ExpectedDS : list DS.t; Details : string }.
#[export] Instance eta_t : Eta t.
Proof. refine {| eta r := mk (Status r) (Found r) (MatchesKSK r) (ParentNS r) (DSRecords r) (ExpectedDS r) (Details r) |}. by intros []. Defined.
End DSCheckResult.
Module DNSKEYCheckResult.
Record t := mk { Status : string; KSKFound : bool; ZSKFound : bool; AuthNS : string; KeyTags : list Z; MaterialMatched : bool; Details : string }.
#[export] Instance eta_t : Eta t.
Proof. refine {| eta r := mk (Status r) (KSKFound r) (ZSKFound r) (AuthNS r) (KeyTags r) (MaterialMatched r) (Details r) |}. by intros []. Defined.
End DNSKEYCheckResult.
Module RRSIGCheckResult.
Record t := mk { Status : string; SOASigned : bool; DNSKEYSigned : bool; Verified : bool; Broken : bool; Details : string }.
End RRSIGCheckResult.
Module SOACheckResult.
Record t := mk { Status : string; LocalSerial : Z; RemoteSerial : Z; AuthNS : string; Details : string }.
End SOACheckResult.
(** [ValidationResult] of validate.go *)
Module ZoneValidation.
Record t := mk {
  Domain : string; DSCheck : DSCheckResult.t; DNSKEYCheck : DNSKEYCheckResult.t; RRSIGCheck : RRSIGCheckResult.t; SOACheck : SOACheckResult.t;
  Overall : string; Servfail : bool; ResolverOutage : bool; Errors : list string
}.
#[export] Instance eta_t : Eta t.
Proof.
  refine {| eta r := mk (Domain r) (DSCheck r) (DNSKEYCheck r) (RRSIGCheck r) (SOACheck r) (Overall r) (Servfail r) (ResolverOutage r) (Errors r) |}. by intros [].
Defined.
End ZoneValidation.
#[export] Existing Instance DSCheckResult.eta_t.
#[export] Existing Instance DNSKEYCheckResult.eta_t.
#[export] Existing Instance ZoneValidation.eta_t.

Module ValidateSummary.
Record t := mk { Total : Z; Pass : Z; Fail : Z; Partial : Z; Error : Z }.
#[export] Instance eta_t : Eta t.
Proof. refine {| eta r := mk (Total r) (Pass r) (Fail r) (Partial r) (Error r) |}. by intros []. Defined.
End ValidateSummary.
#[export] Existing Instance ValidateSummary.eta_t.

(** The RRSIGs over one RRset of an answer. *)
Module rrsigEval.
Record t := mk { present : bool; valid : bool; expired : bool; broken : bool; validExp : Time; expiredExp : Time }.
#[export] Instance eta_t : Eta t.
Proof. refine {| eta r := mk (present r) (valid r) (expired r) (broken r) (validExp r) (expiredExp r) |}. by intros []. Defined.
End rrsigEval.
#[export] Existing Instance rrsigEval.eta_t.

(** The keys a zone is checked with. *)
Module LocalKeys.
Record t := mk { kskTag : Z; zskTag : Z; ksk : option DNSKEY.t; zsk : option DNSKEY.t; signingKSKs : list DNSKEY.t; signingZSKs : list DNSKEY.t; kskUnloadable : bool }.
End LocalKeys.

(** ** The verdict *)

Definition count_status (want : string) (statuses : list string) : nat := count_if (String.eqb want) statuses.
Definition computeOverall (statuses : list string) : string :=
  let passes := count_status "pass" statuses in
  let fails := count_status "fail" statuses in
  let errors := count_status "error" statuses in
  let total := length statuses in
  if Nat.eqb passes total then "pass"
  else if Nat.eqb errors total then "error"
  else if Nat.eqb fails total then "fail"
  else if Nat.eqb passes 0 && Nat.ltb 0 errors && Nat.eqb fails 0 then "error"
  else "partial".

Definition bogusWhenDSPresent (ds : DSCheckResult.t) (dnskey : DNSKEYCheckResult.t) (rrsig : RRSIGCheckResult.t) : bool :=
  if negb (DSCheckResult.Found ds) then false
  else if String.eqb (DSCheckResult.Status ds) "fail" && negb (DSCheckResult.MatchesKSK ds) then true
  else if String.eqb (DNSKEYCheckResult.Status dnskey) "fail" then true
  else String.eqb (RRSIGCheckResult.Status rrsig) "fail" || RRSIGCheckResult.Broken rrsig.

Section checks.
Context `{DnsLib} `{Transport} `{WireLib} `{SignLib} `{DsLib}.

(** ** The parent's DS *)

Definition same_ds (ds exp : DS.t) : bool :=
  (DS.KeyTag ds =? DS.KeyTag exp) && (DS.Algorithm ds =? DS.Algorithm exp) && (DS.DigestType ds =? DS.DigestType exp)
  && EqualFold (DS.Digest ds) (DS.Digest exp).
(** The tag of the first record of the parent that is expected. *)
Definition matched_tag (dsRecords expected : list DS.t) : option Z :=
  head (omap (fun ds => DS.KeyTag <$> List.find (same_ds ds) expected) dsRecords).

Definition evaluateDSMatch (result : DSCheckResult.t) (dsRecords : list DS.t) (acceptableKSKs : list DNSKEY.t) (kskUnloadable : bool) : DSCheckResult.t :=
  let expected := concat (map ds_of acceptableKSKs) in
  let result := result <| DSCheckResult.ExpectedDS := DSCheckResult.ExpectedDS result ++ expected |> in
  let count := pretty (Z.of_nat (length dsRecords)) in
  match dsRecords with
  | [] => ((result <| DSCheckResult.Status := "fail" |>) <| DSCheckResult.Found := false |>) <| DSCheckResult.Details := "no DS records found at parent" |>
  | _ =>
      let result := result <| DSCheckResult.Found := true |> in
      match expected with
      | [] =>
          if kskUnloadable then
            (result <| DSCheckResult.Status := "error" |>)
              <| DSCheckResult.Details := Sprintf "%d DS record(s) at parent but the local KSK could not be loaded for comparison" [count] |>
          else
            (result <| DSCheckResult.Status := "pass" |>)
              <| DSCheckResult.Details := Sprintf "%d DS record(s) found (no local KSK to compare)" [count] |>
      | _ =>
          match matched_tag dsRecords expected with
          | Some tag =>
              ((result <| DSCheckResult.MatchesKSK := true |>) <| DSCheckResult.Status := "pass" |>)
                <| DSCheckResult.Details := Sprintf "DS at parent matches local KSK (tag %d)" [pretty tag] |>
          | None =>
              (result <| DSCheckResult.Status := "fail" |>)
                <| DSCheckResult.Details := "DS records found at parent but none match the local KSK(s)" |>
          end
      end
  end.

(** ** One server of a zone *)

Definition first_address (rrs : list RR) : option string :=
  head (omap (fun rr => match rr with RR_A _ ip | RR_AAAA _ ip => Some (IPString ip) | _ => None end) rrs).
Definition glue_address (nsName : string) (extra : list RR) : option string :=
  first_address (List.filter (fun rr => match rr with
    | RR_A h _ | RR_AAAA h _ => String.eqb (CanonicalName (Hdr.Name h)) (CanonicalName nsName)
    | _ => false
    end) extra).
Definition ns_targets (rrs : list RR) : list string := omap (fun rr => match rr with RR_NS _ ns => Some ns | _ => None end) rrs.
Definition recursive_query (name : string) (qtype : Z) : QueryMsg.t := QueryMsg.mk (Question.mk (Fqdn name) qtype 1) true false false.

(** The first address of a family, from the resolver; a failed exchange has none. *)
Definition lookup_address (nsName : string) (qtype : Z) : Net (option string) :=
  r <-- catch (one_exchange false resolverAddr (recursive_query nsName qtype)) ;;
  ret match r with Ok ar => first_address (Msg.Answer (Reply.msg ar)) | Err _ => None end.
Fixpoint first_resolved (names : list string) (extra : list RR) : Net (option string) :=
  match names with
  | [] => ret None
  | nsName :: rest =>
      match glue_address nsName extra with
      | Some ip => ret (Some ip)
      | None =>
          v4 <-- lookup_address nsName TypeA ;;
          match v4 with
          | Some ip => ret (Some ip)
          | None =>
              v6 <-- lookup_address nsName TypeAAAA ;;
              match v6 with Some ip => ret (Some ip) | None => first_resolved rest extra end
          end
      end
  end.
Definition resolveNS (zone : string) : Net string :=
  r <-- wrapping "NS lookup for %s: %w" [zone] (one_exchange false resolverAddr (recursive_query zone TypeNS)) ;;
  let msg := Reply.msg r in
  match (match ns_targets (Msg.Answer msg) with [] => ns_targets (Msg.Ns msg) | names => names end) with
  | [] => fail (net_errorf "no NS records found for %s" [zone])
  | names =>
      found <-- first_resolved names (Msg.Extra msg) ;;
      match found with
      | Some ip => ret (JoinHostPort ip authPort)
      | None => fail (net_errorf "could not resolve any NS for %s to an IP address" [zone])
      end
  end.
Definition resolverReachable : Net bool :=
  r <-- catch (one_exchange false resolverAddr (QueryMsg.mk (Question.mk "." TypeNS 1) true false false)) ;; ret (is_ok r).

Definition CheckDSAtParent (domain : string) (acceptableKSKs : list DNSKEY.t) (kskUnloadable : bool) : Net DSCheckResult.t :=
  let result := DSCheckResult.mk "error" false false "" [] [] "" in
  let parentZone := findParentZone domain in
  r <-- catch (resolveNS parentZone) ;;
  match r with
  | Err err => ret (result <| DSCheckResult.Details := Sprintf "failed to resolve parent NS for %s: %v" [parentZone; NetError.Text err] |>)
  | Ok parentNS =>
      let result := result <| DSCheckResult.ParentNS := parentNS |> in
      r <-- catch (queryDirect parentNS (Fqdn domain) TypeDS) ;;
      match r with
      | Err err => ret (result <| DSCheckResult.Details := Sprintf "DS query to %s failed: %v" [parentNS; NetError.Text err] |>)
      | Ok msg =>
          let dsRecords := omap get_ds (Msg.Answer msg) in
          ret (evaluateDSMatch (result <| DSCheckResult.DSRecords := dsRecords |>) dsRecords acceptableKSKs kskUnloadable)
      end
  end.

(** ** The served keys *)

Definition sameKeyMaterial (a b : DNSKEY.t) : bool :=
  String.eqb (CanonicalName (Hdr.Name (DNSKEY.Hdr a))) (CanonicalName (Hdr.Name (DNSKEY.Hdr b)))
  && (DNSKEY.Flags a =? DNSKEY.Flags b) && (DNSKEY.Protocol a =? DNSKEY.Protocol b) && (DNSKEY.Algorithm a =? DNSKEY.Algorithm b)
  && String.eqb (DNSKEY.PublicKey a) (DNSKEY.PublicKey b).
(** A served key is a local one: by its material, by its tag when there is none. *)
Definition is_local (local : option DNSKEY.t) (tag : Z) (served : DNSKEY.t) : bool :=
  match local with Some k => sameKeyMaterial served k | None => KeyTagOf served =? tag end.

Definition judge_served (result : DNSKEYCheckResult.t) (kskTag zskTag : Z) (localKSK localZSK : option DNSKEY.t) (served : list DNSKEY.t) : DNSKEYCheckResult.t :=
  let kskFound := existsb (is_local localKSK kskTag) served in
  let zskFound := existsb (is_local localZSK zskTag) served in
  let result := ((result <| DNSKEYCheckResult.KeyTags := map KeyTagOf served |>) <| DNSKEYCheckResult.KSKFound := kskFound |>)
                  <| DNSKEYCheckResult.ZSKFound := zskFound |> in
  let say status details := (result <| DNSKEYCheckResult.Status := status |>) <| DNSKEYCheckResult.Details := details |> in
  match served with
  | [] => say "fail" "no DNSKEY records found at authoritative NS"
  | _ =>
      if kskFound && zskFound then say "pass" (Sprintf "KSK (tag %d) and ZSK (tag %d) visible" [pretty kskTag; pretty zskTag])
      else if kskFound || zskFound then
        say "partial" (Sprintf "%s (expected tag) not found in DNSKEY set" [if negb kskFound then "KSK" else "ZSK"])
      else say "fail" (Sprintf "DNSKEY records found but neither KSK (tag %d) nor ZSK (tag %d) match" [pretty kskTag; pretty zskTag])
  end.
Definition checkDNSKEYVisible (domain : string) (kskTag zskTag : Z) (localKSK localZSK : option DNSKEY.t) : Net DNSKEYCheckResult.t :=
  let matched := match localKSK, localZSK with None, None => false | _, _ => true end in
  let result := DNSKEYCheckResult.mk "error" false false "" [] matched "" in
  r <-- catch (resolveNS (Fqdn domain)) ;;
  match r with
  | Err err => ret (result <| DNSKEYCheckResult.Details := Sprintf "failed to resolve NS for %s: %v" [domain; NetError.Text err] |>)
  | Ok authNS =>
      let result := result <| DNSKEYCheckResult.AuthNS := authNS |> in
      r <-- catch (queryDirect authNS (Fqdn domain) TypeDNSKEY) ;;
      match r with
      | Err err => ret (result <| DNSKEYCheckResult.Details := Sprintf "DNSKEY query to %s failed: %v" [authNS; NetError.Text err] |>)
      | Ok msg => ret (judge_served result kskTag zskTag localKSK localZSK (omap get_dnskey (Msg.Answer msg)))
      end
  end.

(** ** Signatures *)

(** The served RRset, bound to the owner of its first record. *)
Definition served_rrset (answer : list RR) (covered : Z) : list RR :=
  match List.filter (fun rr => rr_type rr =? covered) answer with
  | [] => []
  | first :: rest => first :: List.filter (fun rr => String.eqb (CanonicalName (rr_name rr)) (CanonicalName (rr_name first))) rest
  end.
Definition expected_key (keys : list DNSKEY.t) (sig : RRSIG.t) : option DNSKEY.t :=
  List.find (fun k => (KeyTagOf k =? RRSIG.KeyTag sig) && (DNSKEY.Algorithm k =? RRSIG.Algorithm sig)) keys.
(** A signature over the RRset by its owner. *)
Definition covers (covered : Z) (owner : string) (sig : RRSIG.t) : bool :=
  (RRSIG.TypeCovered sig =? covered) && String.eqb (CanonicalName (Hdr.Name (RRSIG.Hdr sig))) owner && String.eqb (CanonicalName (RRSIG.SignerName sig)) owner.

Fixpoint eval_sigs (covered : Z) (owner : string) (rrset : list RR) (keys : list DNSKEY.t) (now : Time) (answer : list RR) (e : rrsigEval.t) : rrsigEval.t :=
  match answer with
  | [] => e
  | RR_RRSIG sig :: rest =>
      let next := eval_sigs covered owner rrset keys now rest in
      if negb (covers covered owner sig) then next e
      else
        match expected_key keys sig with
        | None => next e
        | Some key =>
            let e := e <| rrsigEval.present := true |> in
            let exp := unix_time (RRSIG.Expiration sig) in
            if negb (ValidityPeriod sig now) then
              next (if negb (rrsigEval.valid e) then
                      let e := e <| rrsigEval.expired := true |> in
                      if IsZero (rrsigEval.expiredExp e) || Before exp (rrsigEval.expiredExp e) then e <| rrsigEval.expiredExp := exp |> else e
                    else e)
            else
              match VerifyRRSIG sig key rrset with
              | Some _ => next (if negb (rrsigEval.valid e) then e <| rrsigEval.broken := true |> else e)
              | None =>
                  ((((e <| rrsigEval.valid := true |>) <| rrsigEval.validExp := exp |>) <| rrsigEval.expired := false |>) <| rrsigEval.broken := false |>)
                    <| rrsigEval.expiredExp := 0 |>
              end
        end
  | _ :: rest => eval_sigs covered owner rrset keys now rest e
  end.
Definition no_eval : rrsigEval.t := rrsigEval.mk false false false false 0 0.
Definition evalRRSIGCover (answer : list RR) (covered : Z) (keys : list DNSKEY.t) (now : Time) : rrsigEval.t :=
  match served_rrset answer covered with
  | [] => no_eval
  | first :: rest => eval_sigs covered (CanonicalName (rr_name first)) (first :: rest) keys now answer no_eval
  end.

(** The earlier of two instants, a zero one ignored. *)
Definition sooner (a b : Time) : Time := if IsZero a || (negb (IsZero b) && Before b a) then b else a.

Definition judge_signatures (refresh : Duration) (now : Time) (soa dnskey : rrsigEval.t) : RRSIGCheckResult.t :=
  let result status broken details := RRSIGCheckResult.mk status (rrsigEval.valid soa) (rrsigEval.valid dnskey) true broken details in
  if rrsigEval.broken soa || rrsigEval.broken dnskey then
    result "fail" true (Sprintf "RRSIG over %s is present and in window but does not verify against the served RRset and expected key; resolvers will SERVFAIL"
      [if negb (rrsigEval.broken soa) then "DNSKEY" else "SOA"])
  else if rrsigEval.expired soa || rrsigEval.expired dnskey then
    result "fail" true (Sprintf "RRSIG present but outside its validity window (expired %s); resolvers will SERVFAIL"
      [FormatRFC3339 (sooner (rrsigEval.expiredExp soa) (rrsigEval.expiredExp dnskey))])
  else if rrsigEval.valid soa && rrsigEval.valid dnskey then
    let soonest := sooner (rrsigEval.validExp soa) (rrsigEval.validExp dnskey) in
    if (0 <? refresh) && negb (IsZero soonest) && (TSub soonest now <? refresh) then
      result "partial" false (Sprintf "RRSIG valid but within the refresh window (expires %s)" [FormatRFC3339 soonest])
    else result "pass" false "valid RRSIG found for both SOA and DNSKEY"
  else if rrsigEval.valid soa || rrsigEval.valid dnskey then
    result "partial" true (Sprintf "valid RRSIG missing for %s" [if negb (rrsigEval.valid soa) then "SOA" else "DNSKEY"])
  else result "fail" true "no valid RRSIG records found for SOA or DNSKEY".

(** Without local keys of a role the served ones stand in. *)
Definition checkRRSIGPresent (refresh : Duration) (domain : string) (kskKeys zskKeys : list DNSKEY.t) (now : Time) : Net RRSIGCheckResult.t :=
  let failed details := RRSIGCheckResult.mk "error" false false false false details in
  r <-- catch (resolveNS (Fqdn domain)) ;;
  match r with
  | Err err => ret (failed (Sprintf "failed to resolve NS for %s: %v" [domain; NetError.Text err]))
  | Ok authNS =>
      r <-- catch (queryDirect authNS (Fqdn domain) TypeSOA) ;;
      match r with
      | Err err => ret (failed (Sprintf "SOA query to %s failed: %v" [authNS; NetError.Text err]))
      | Ok soaMsg =>
          r <-- catch (queryDirect authNS (Fqdn domain) TypeDNSKEY) ;;
          match r with
          | Err err => ret (failed (Sprintf "DNSKEY query to %s failed: %v" [authNS; NetError.Text err]))
          | Ok dnskeyMsg =>
              let served := omap get_dnskey (Msg.Answer dnskeyMsg) in
              let or_served keys := match keys with [] => served | _ => keys end in
              ret (judge_signatures refresh now (evalRRSIGCover (Msg.Answer soaMsg) TypeSOA (or_served zskKeys) now)
                     (evalRRSIGCover (Msg.Answer dnskeyMsg) TypeDNSKEY (or_served kskKeys) now))
          end
      end
  end.

Definition checkSOASerial (domain : string) (localSerial : Z) : Net SOACheckResult.t :=
  let result status remote authNS details := SOACheckResult.mk status localSerial remote authNS details in
  r <-- catch (resolveNS (Fqdn domain)) ;;
  match r with
  | Err err => ret (result "error" 0 "" (Sprintf "failed to resolve NS for %s: %v" [domain; NetError.Text err]))
  | Ok authNS =>
      r <-- catch (queryDirect authNS (Fqdn domain) TypeSOA) ;;
      match r with
      | Err err => ret (result "error" 0 authNS (Sprintf "SOA query to %s failed: %v" [authNS; NetError.Text err]))
      | Ok msg =>
          ret match omap get_serial (Msg.Answer msg) with
              | [] => result "error" 0 authNS "no SOA record in response"
              | serial :: _ =>
                  if serial =? localSerial then result "pass" serial authNS (Sprintf "serial %d matches" [pretty localSerial])
                  else result "fail" serial authNS (Sprintf "serial mismatch: local=%d remote=%d" [pretty localSerial; pretty serial])
              end
      end
  end.

(** ** One zone *)

Section keys.
Context `{OS} `{CryptoLib}.

Definition or_none {A} (m : FS A) : FS (option A) := r <-- catch m ;; ret match r with Ok a => Some a | Err _ => None end.
Definition load_live (cfg : Config) (domain keyType : string) (recorded : option KeyState.t) : FS (option DNSKEY.t) :=
  match recorded with Some _ => or_none (KeyFiles.LoadPublicKey cfg domain keyType) | None => ret None end.
Definition to_list (k : option DNSKEY.t) : list DNSKEY.t := match k with Some k => [k] | None => [] end.

(** The keys whose DS and signatures are accepted, the old ones of a rollover with them. *)
Definition local_keys (cfg : Config) (domain : string) (z : ZoneState.t) : FS LocalKeys.t :=
  ksk <-- load_live cfg domain "ksk" (ZoneState.KSK z) ;;
  zsk <-- load_live cfg domain "zsk" (ZoneState.ZSK z) ;;
  let is_type t := match ZoneState.Rollover z with Some r => String.eqb (RolloverState.RType r) t | None => false end in
  let old_id get := match ZoneState.Rollover z with Some r => get r | None => 0 end in
  let oldKSKID := if is_type "ksk" || is_type "algorithm" then old_id RolloverState.OldKeyID else 0 in
  oldKSK <-- (if negb (oldKSKID =? 0) then or_none (KeyFiles.LoadPublicKeyByID cfg domain "ksk" oldKSKID) else ret None) ;;
  let oldZSKID := if is_type "zsk" then old_id RolloverState.OldKeyID else if is_type "algorithm" then old_id RolloverState.OldZSKID else 0 in
  oldZSK <-- (if negb (oldZSKID =? 0) then or_none (KeyFiles.LoadPublicKeyByID cfg domain "zsk" oldZSKID) else ret None) ;;
  let acceptableKSKs := to_list ksk ++ to_list oldKSK in
  let tag (k : option KeyState.t) := match k with Some k => KeyState.ID k | None => 0 end in
  ret (LocalKeys.mk (tag (ZoneState.KSK z)) (tag (ZoneState.ZSK z)) ksk zsk acceptableKSKs (to_list zsk ++ to_list oldZSK)
         (match ZoneState.KSK z with Some _ => bool_decide (acceptableKSKs = []) | None => false end)).
End keys.

Definition all_errors (dnskey : DNSKEYCheckResult.t) (rrsig : RRSIGCheckResult.t) (soa : SOACheckResult.t) : bool :=
  String.eqb (DNSKEYCheckResult.Status dnskey) "error" && String.eqb (RRSIGCheckResult.Status rrsig) "error" && String.eqb (SOACheckResult.Status soa) "error".
Definition outage_text : string :=
  "all checks errored and the local resolver did not respond — this is likely a validator-side resolver problem, not a zone failure".

(** The checks of a zone whose keys are loaded; [now] is read before the signatures. *)
Definition validate_zone (refresh : Duration) (domain : string) (z : ZoneState.t) (k : LocalKeys.t) (now : Time) : Net ZoneValidation.t :=
  let localSerial := if negb (ZoneState.PublishedSerial z =? 0) then ZoneState.PublishedSerial z else ZoneState.Serial z in
  ds <-- CheckDSAtParent domain (LocalKeys.signingKSKs k) (LocalKeys.kskUnloadable k) ;;
  dnskey <-- checkDNSKEYVisible domain (LocalKeys.kskTag k) (LocalKeys.zskTag k) (LocalKeys.ksk k) (LocalKeys.zsk k) ;;
  rrsig <-- checkRRSIGPresent refresh domain (LocalKeys.signingKSKs k) (LocalKeys.signingZSKs k) now ;;
  soa <-- checkSOASerial domain localSerial ;;
  let overall := computeOverall [DSCheckResult.Status ds; DNSKEYCheckResult.Status dnskey; RRSIGCheckResult.Status rrsig; SOACheckResult.Status soa] in
  let result := ZoneValidation.mk domain ds dnskey rrsig soa overall false false [] in
  result <-- (if all_errors dnskey rrsig soa then
                reachable <-- resolverReachable ;;
                ret (if reachable : bool then (result <| ZoneValidation.Overall := "fail" |>) <| ZoneValidation.Servfail := true |>
                     else ((result <| ZoneValidation.Overall := "error" |>) <| ZoneValidation.ResolverOutage := true |>)
                            <| ZoneValidation.Errors := [outage_text] |>)
              else ret result) ;;
  ret (if bogusWhenDSPresent ds dnskey rrsig then (result <| ZoneValidation.Overall := "fail" |>) <| ZoneValidation.Servfail := true |> else result).

Definition unmanaged (domain : string) : ZoneValidation.t :=
  ZoneValidation.mk domain (DSCheckResult.mk "error" false false "" [] [] "zone not in state") (DNSKEYCheckResult.mk "error" false false "" [] false "zone not in state")
    (RRSIGCheckResult.mk "error" false false false false "zone not in state") (SOACheckResult.mk "error" 0 0 "" "zone not in state")
    "error" false false ["zone not found in state"].

Context `{OS} `{CryptoLib}.
(** The network part of a zone's validation, once its keys are read. *)
Definition ValidateZone (cfg : Config) (domain : string) (zoneState : option ZoneState.t) (now : Time) : FS (Net ZoneValidation.t) :=
  match zoneState with
  | None => ret (ret (unmanaged domain))
  | Some z => k <-- local_keys cfg domain z ;; ret (validate_zone (cfg_SignatureRefresh (DNSSEC cfg)) domain z k now)
  end.

Definition summarize (s : ValidateSummary.t) (overall : string) : ValidateSummary.t :=
  let s := s <| ValidateSummary.Total := ValidateSummary.Total s + 1 |> in
  if String.eqb overall "pass" then s <| ValidateSummary.Pass := ValidateSummary.Pass s + 1 |>
  else if String.eqb overall "fail" then s <| ValidateSummary.Fail := ValidateSummary.Fail s + 1 |>
  else if String.eqb overall "partial" then s <| ValidateSummary.Partial := ValidateSummary.Partial s + 1 |>
  else if String.eqb overall "error" then s <| ValidateSummary.Error := ValidateSummary.Error s + 1 |>
  else s.
(** The zones in the order of the state's names. *)
Fixpoint validate_each (cfg : Config) (state : StateStore.State) (now : string -> Time) (domains : list string) : FS (Net (list ZoneValidation.t)) :=
  match domains with
  | [] => ret (ret [])
  | domain :: rest =>
      one <-- ValidateZone cfg domain (StateStore.GetZoneCopy domain state) (now domain) ;;
      more <-- validate_each cfg state now rest ;;
      ret (r <-- one ;; rs <-- more ;; ret (r :: rs))
  end.
Definition ValidateAll (cfg : Config) (state : StateStore.State) (now : string -> Time) (domains : list string) : FS (Net (list ZoneValidation.t * ValidateSummary.t)) :=
  results <-- validate_each cfg state now domains ;;
  ret (rs <-- results ;; ret (rs, fold_left (fun s r => summarize s (ZoneValidation.Overall r)) rs (ValidateSummary.mk 0 0 0 0 0))).
End checks.
