(* ===== verification/FileSysSound.v ===== *)
(** * FileSysSound: what a file operation can leave behind

    [always I m Q d]: running [m] from [d], every state of the files that it goes
    through satisfies [I], and its result and final disk satisfy [Q].  A crash stops a
    run at one of those states, so an [always] statement is a statement about crashes.
    [completes] is the complement: [m] succeeds.  The rules follow the monad; the
    replacement functions of fsutil.go are specified with them. *)

From stdpp Require Import base list strings gmap pretty.
From Stdlib Require Import ZArith Lia Ascii.
From S2P Require Import Prelude Paths GoTime FileSys.
Local Open Scope Z_scope.

Definition always {A} (I : Files -> Prop) (m : FS A) (Q : res GoError.t A -> Disk.t -> Prop) (d : Disk.t) : Prop :=
  let '(r, d') := m d in
  (exists new, Disk.past d' = new ++ Disk.past d /\ Forall I new) /\ I (Disk.nodes d') /\
  (Disk.draws d <= Disk.draws d')%nat /\ Q r d'.

Lemma always_mono {A} (I J : Files -> Prop) (m : FS A) (Q Q' : res GoError.t A -> Disk.t -> Prop) d :
  always I m Q d -> (forall fs, I fs -> J fs) -> (forall r d', I (Disk.nodes d') -> Q r d' -> Q' r d') -> always J m Q' d.
Proof.
  unfold always. destruct (m d) as [r d']. intros ((new & Hp & Hnew) & HI & Hd & HQ) HIJ HQQ.
  split_and!; eauto. exists new. split; [done|]. eapply Forall_impl; [exact Hnew | done].
Qed.

Lemma always_post {A} (I : Files -> Prop) (m : FS A) (Q Q' : res GoError.t A -> Disk.t -> Prop) d :
  always I m Q d -> (forall r d', I (Disk.nodes d') -> Q r d' -> Q' r d') -> always I m Q' d.
Proof. intros Hm HQ. eapply always_mono; eauto. Qed.

Lemma always_later {A} (I : Files -> Prop) (m : FS A) (Q Q' : res GoError.t A -> Disk.t -> Prop) d :
  always I m Q d -> (forall r d', I (Disk.nodes d') -> (Disk.draws d <= Disk.draws d')%nat -> Q r d' -> Q' r d') -> always I m Q' d.
Proof. unfold always. destruct (m d) as [r d']. intros (Hp & HI & Hd & HQ) HQQ. split_and!; auto. Qed.

(** The states of the files a run of [m] goes through, the last one included: what a
    crash during the run, or its end, can leave. *)
Definition crash_states {A} (m : FS A) (d : Disk.t) (fs : Files) : Prop :=
  fs = Disk.nodes (m d).2 \/ exists new, Disk.past (m d).2 = new ++ Disk.past d /\ fs ∈ new.
Lemma always_crash {A} (I : Files -> Prop) (m : FS A) (Q : res GoError.t A -> Disk.t -> Prop) d fs :
  always I m Q d -> crash_states m d fs -> I fs.
Proof.
  unfold always, crash_states. destruct (m d) as [r d']. cbn. intros ((new & Hp & Hnew) & HI & _) [->|(new' & Hp' & Hin)]; [done|].
  rewrite Hp in Hp'. apply app_inv_tail in Hp' as <-. rewrite Forall_forall in Hnew. auto.
Qed.

Lemma always_ret {A} I (a : A) (Q : res GoError.t A -> Disk.t -> Prop) d : I (Disk.nodes d) -> Q (Ok a) d -> always I (ret a) Q d.
Proof. intros. unfold always, ret. split_and!; [by exists [] | done..]. Qed.
Lemma always_fail {A} I e (Q : res GoError.t A -> Disk.t -> Prop) d : I (Disk.nodes d) -> Q (Err e) d -> always I (fail e) Q d.
Proof. intros. unfold always, fail. split_and!; [by exists [] | done..]. Qed.

Lemma always_bind {A B} I (m : FS A) (k : A -> FS B) Q d :
  always I m (fun r d1 => match r with Ok a => always I (k a) Q d1 | Err e => Q (Err e) d1 end) d -> always I (bind m k) Q d.
Proof.
  unfold always, bind. destruct (m d) as [[a|e] d1]; intros ((new & Hp & Hnew) & HI & Hd & HQ).
  - destruct (k a d1) as [r d']. destruct HQ as ((new' & Hp' & Hnew') & HI' & Hd' & HQ).
    split_and!; [|done|lia|done]. exists (new' ++ new). rewrite Hp', Hp, app_assoc. split; [done|]. by apply Forall_app.
  - split_and!; [by exists new | done..].
Qed.

Lemma always_catch {A} I (m : FS A) (Q : res GoError.t (res GoError.t A) -> Disk.t -> Prop) d :
  always I m (fun r d1 => Q (Ok r) d1) d -> always I (catch m) Q d.
Proof. unfold always, catch. by destruct (m d). Qed.

Definition map_err {A} (f : GoError.t -> GoError.t) (r : res GoError.t A) : res GoError.t A :=
  match r with Ok a => Ok a | Err e => Err (f e) end.
Lemma always_wrapf {A} I format args (m : FS A) Q d :
  always I m (fun r d1 => Q (map_err (Errorf format args) r) d1) d -> always I (wrapf format args m) Q d.
Proof. unfold always, wrapf. by destruct (m d) as [[a|e] d1]. Qed.

Lemma always_when I (c : bool) (m : FS unit) Q d :
  (c = true -> always I m Q d) -> (c = false -> I (Disk.nodes d) /\ Q (Ok tt) d) -> always I (when c m) Q d.
Proof. destruct c; cbn; [auto|]. intros _ Hc. by apply always_ret; destruct Hc. Qed.

(** A computation that leaves the files alone, and what its result says of them. *)
Definition observes {A} (m : FS A) (P : Files -> res GoError.t A -> Prop) : Prop := forall d,
  let '(r, d') := m d in
  Disk.nodes d' = Disk.nodes d /\ Disk.past d' = Disk.past d /\ Disk.draws d' = Disk.draws d /\ P (Disk.nodes d) r.

Lemma always_observes {A} I (m : FS A) P (Q : res GoError.t A -> Disk.t -> Prop) d :
  observes m P -> I (Disk.nodes d) ->
  (forall r d', Disk.nodes d' = Disk.nodes d -> Disk.draws d' = Disk.draws d -> P (Disk.nodes d) r -> Q r d') -> always I m Q d.
Proof.
  intros Hm HI HQ. specialize (Hm d). unfold always. destruct (m d) as [r d']. destruct Hm as (Hn & Hp & Hd & HP).
  split_and!; [exists []; by rewrite Hp | by rewrite Hn | lia | by apply HQ].
Qed.

Lemma observes_mono {A} (m : FS A) (P P' : Files -> res GoError.t A -> Prop) :
  observes m P -> (forall fs r, P fs r -> P' fs r) -> observes m P'.
Proof. intros Hm HP d. specialize (Hm d). destruct (m d) as [r d']. destruct Hm as (? & ? & ? & ?). auto. Qed.
Lemma observes_ret {A} (a : A) (P : Files -> res GoError.t A -> Prop) : (forall fs, P fs (Ok a)) -> observes (ret a) P.
Proof. intros HP d. cbn. auto. Qed.
Lemma observes_fail {A} e (P : Files -> res GoError.t A -> Prop) : (forall fs, P fs (Err e)) -> observes (fail e) P.
Proof. intros HP d. cbn. auto. Qed.
Lemma observes_bind {A B} (m : FS A) (k : A -> FS B) P (P' : Files -> res GoError.t B -> Prop) :
  observes m P -> (forall fs e, P fs (Err e) -> P' fs (Err e)) ->
  (forall a, observes (k a) (fun fs r => P fs (Ok a) -> P' fs r)) -> observes (bind m k) P'.
Proof.
  intros Hm He Hk d. specialize (Hm d). unfold bind. destruct (m d) as [[a|e] d1]; destruct Hm as (Hn & Hp & Hd & HP); [|auto].
  specialize (Hk a d1). destruct (k a d1) as [r d']. destruct Hk as (Hn' & Hp' & Hd' & HP').
  rewrite Hn', Hp', Hd'. rewrite Hn in HP' |- *. auto.
Qed.
Lemma observes_catch {A} (m : FS A) (P : Files -> res GoError.t (res GoError.t A) -> Prop) :
  observes m (fun fs r => P fs (Ok r)) -> observes (catch m) P.
Proof. intros Hm d. specialize (Hm d). unfold catch. by destruct (m d). Qed.
Lemma observes_bind_catch {A B} (m : FS A) (k : res GoError.t A -> FS B) P (P' : Files -> res GoError.t B -> Prop) :
  observes m P -> (forall r, observes (k r) (fun fs x => P fs r -> P' fs x)) -> observes (bind (catch m) k) P'.
Proof.
  intros Hm Hk d. specialize (Hm d). unfold bind, catch. destruct (m d) as [r d1]. destruct Hm as (Hn & Hp & Hd & HP).
  specialize (Hk r d1). destruct (k r d1) as [x d']. destruct Hk as (Hn' & Hp' & Hd' & HP').
  rewrite Hn', Hp', Hd'. rewrite Hn in HP' |- *. auto.
Qed.
Lemma observes_wrapf {A} format args (m : FS A) (P : Files -> res GoError.t A -> Prop) :
  observes m (fun fs r => P fs (map_err (Errorf format args) r)) -> observes (wrapf format args m) P.
Proof. intros Hm d. specialize (Hm d). unfold wrapf. by destruct (m d) as [[a|e] d1]. Qed.

(** ** Success *)

Definition completes {A} (m : FS A) (Q : A -> Files -> Prop) (fs : Files) : Prop := forall d, Disk.nodes d = fs ->
  exists a d', m d = (Ok a, d') /\ Q a (Disk.nodes d').

Lemma completes_mono {A} (m : FS A) (Q Q' : A -> Files -> Prop) fs : completes m Q fs -> (forall a fs', Q a fs' -> Q' a fs') -> completes m Q' fs.
Proof. intros Hm HQ d Hd. destruct (Hm d Hd) as (a & d' & ? & ?). eauto. Qed.
Lemma completes_ret {A} (a : A) (Q : A -> Files -> Prop) fs : Q a fs -> completes (ret a) Q fs.
Proof. intros HQ d <-. by exists a, d. Qed.
Lemma completes_bind {A B} (m : FS A) (k : A -> FS B) Q fs :
  completes m (fun a fs' => completes (k a) Q fs') fs -> completes (bind m k) Q fs.
Proof.
  intros Hm d Hd. destruct (Hm d Hd) as (a & d1 & Hrun & Hk). destruct (Hk d1 eq_refl) as (b & d' & Hrun' & HQ).
  exists b, d'. unfold bind. by rewrite Hrun.
Qed.
Lemma completes_wrapf {A} format args (m : FS A) Q fs : completes m Q fs -> completes (wrapf format args m) Q fs.
Proof. intros Hm d Hd. destruct (Hm d Hd) as (a & d' & Hrun & HQ). exists a, d'. unfold wrapf. by rewrite Hrun. Qed.
Lemma completes_catch {A} (m : FS A) (Q : res GoError.t A -> Files -> Prop) fs :
  completes m (fun a fs' => Q (Ok a) fs') fs -> completes (catch m) Q fs.
Proof. intros Hm d Hd. destruct (Hm d Hd) as (a & d' & Hrun & HQ). exists (Ok a), d'. unfold catch. by rewrite Hrun. Qed.
(** A caught computation that leaves the files alone may fail. *)
Lemma completes_catch_observes {A} (m : FS A) P (Q : res GoError.t A -> Files -> Prop) fs :
  observes m P -> (forall r, P fs r -> Q r fs) -> completes (catch m) Q fs.
Proof.
  intros Hm HQ d <-. specialize (Hm d). unfold catch. destruct (m d) as [r d']. destruct Hm as (Hn & _ & _ & HP).
  exists r, d'. rewrite Hn. auto.
Qed.
Lemma completes_when (c : bool) (m : FS unit) Q fs : (c = true -> completes m Q fs) -> (c = false -> Q tt fs) -> completes (when c m) Q fs.
Proof. destruct c; cbn; [auto|]. intros _ HQ. apply completes_ret. auto. Qed.
(** A completed computation read through what it always does. *)
Lemma completes_always {A} I (m : FS A) Q Q' fs :
  completes m Q fs -> (forall d, Disk.nodes d = fs -> always I m Q' d) ->
  completes m (fun a fs' => Q a fs' /\ exists d', Disk.nodes d' = fs' /\ Q' (Ok a) d') fs.
Proof.
  intros Hm HI d Hd. destruct (Hm d Hd) as (a & d' & Hrun & HQ). specialize (HI d Hd). unfold always in HI.
  rewrite Hrun in HI. exists a, d'. split; [done|]. split; [done|]. exists d'. by destruct HI as (_ & _ & _ & ?).
Qed.

(** ** System calls *)

Class NoFaults `{OS} : Prop := no_fault : forall n, fault n = None.

(** An error of a system call is no [*DurabilityError]. *)
Definition os_error (e : GoError.t) : Prop := exists errno, GoError.Cause e = OsError errno.
Definition names_error (errno : Errno) (e : GoError.t) : Prop := GoError.Cause e = OsError errno.

Lemma sys_error_os op path e : os_error (sys_error op path e).
Proof. by exists e. Qed.
Lemma Errorf_os format args e : os_error (Errorf format args e) <-> os_error e.
Proof. done. Qed.
#[export] Hint Resolve sys_error_os : core.

Lemma is_errno_spec errno e : is_errno errno e = true <-> names_error errno e.
Proof.
  unfold is_errno, names_error. destruct (GoError.Cause e); try (split; congruence).
  rewrite bool_decide_eq_true. split; congruence.
Qed.

Section os.
Context `{OS}.

Lemma always_syscall {A} (I : Files -> Prop) op path (f : Time -> Files -> res Errno (A * option Files)) Q d :
  I (Disk.nodes d) ->
  (forall e, Q (Err (sys_error op path (Hard e))) (tick d)) ->
  match f (clock (Disk.calls d)) (Disk.nodes d) with
  | Err e => Q (Err (sys_error op path e)) (tick d)
  | Ok (a, None) => Q (Ok a) (tick d)
  | Ok (a, Some fs) => I fs /\ Q (Ok a) (commit fs (tick d))
  end -> always I (syscall op path f) Q d.
Proof.
  intros HI He Hf. unfold always, syscall. destruct (fault (Disk.calls d)) as [e|].
  - split_and!; [by exists [] | done | done | done].
  - destruct (f _ _) as [[a [fs|]]|e]; [destruct Hf as [? ?]| |]; (split_and!; [|done|done|done]).
    + exists [Disk.nodes d]. split; [done|]. by constructor.
    + by exists [].
    + by exists [].
Qed.

Lemma observes_syscall {A} op path (f : Time -> Files -> res Errno (A * option Files)) (P : Files -> res GoError.t A -> Prop) :
  (forall fs e, P fs (Err (sys_error op path (Hard e)))) ->
  (forall now fs, match f now fs with
             | Err e => P fs (Err (sys_error op path e))
             | Ok (a, None) => P fs (Ok a)
             | Ok (_, Some _) => False
             end) -> observes (syscall op path f) P.
Proof.
  intros He Hf d. unfold syscall. destruct (fault (Disk.calls d)) as [e|]; [by cbn; auto|].
  specialize (Hf (clock (Disk.calls d)) (Disk.nodes d)). destruct (f _ _) as [[a [fs|]]|e]; cbn; auto; done.
Qed.

Lemma completes_syscall `{!NoFaults} {A} op path (f : Time -> Files -> res Errno (A * option Files)) (Q : A -> Files -> Prop) fs :
  (forall now, match f now fs with
          | Err _ => False
          | Ok (a, None) => Q a fs
          | Ok (a, Some fs') => Q a fs'
          end) -> completes (syscall op path f) Q fs.
Proof.
  intros Hf d <-. specialize (Hf (clock (Disk.calls d))). unfold syscall. rewrite no_fault.
  destruct (f _ _) as [[a [fs|]]|e]; [..|done]; eauto.
Qed.

(** *** Reading *)

(** What reading a path gives. *)
Definition file_at (fs : Files) (path data : string) : Prop := exists n, fs !! path = Some n /\ Node.Kind n = Regular /\ Node.Data n = data.

Lemma file_at_inj fs path data data' : file_at fs path data -> file_at fs path data' -> data = data'.
Proof. intros (n & Hn & _ & <-) (n' & Hn' & _ & <-). congruence. Qed.

Lemma Stat_observes path : observes (Stat path) (fun fs r =>
  match r with Ok n => resolve fs path = Ok n | Err e => os_error e /\ (names_error ENOENT e -> resolve fs path = Err ENOENT) end).
Proof.
  apply observes_syscall; [intros; split; [auto | done]|]. intros now fs. unfold res_bind.
  destruct (resolve fs path) as [n|e]; [done|]. split; [by eexists|]. intros E. unfold names_error in E. cbn in E. congruence.
Qed.

Lemma statExists_observes path : observes (statExists path) (fun fs r =>
  match r with Ok b => if b then is_Some (fs !! path) else resolve fs path = Err ENOENT | Err e => os_error e end).
Proof.
  unfold statExists. eapply observes_bind_catch; [apply Stat_observes|]. intros [n|e].
  - apply observes_ret. intros fs Hn. unfold resolve in Hn. by destruct (fs !! path).
  - destruct (is_errno ENOENT e) eqn:E.
    + apply observes_ret. intros fs [_ Hn]. apply Hn. by apply is_errno_spec.
    + apply observes_fail. by intros fs [? _].
Qed.

Lemma ReadFile_observes path : observes (ReadFile path) (fun fs r => forall data, r = Ok data -> file_at fs path data).
Proof.
  unfold ReadFile. eapply (observes_bind _ _ (fun fs r => forall n, r = Ok n -> resolve fs path = Ok n)).
  - apply observes_syscall; [done|]. intros now fs. unfold res_bind. destruct (resolve fs path); [|done]. by intros n' [= <-].
  - done.
  - intros n. apply observes_syscall; [done|]. intros now fs. unfold res_bind, file_data.
    destruct (Node.Kind n) eqn:K; [|done..]. intros Hn data [= <-]. specialize (Hn _ eq_refl). exists n. split_and!; [|done..].
    unfold resolve in Hn. destruct (fs !! path) as [n'|]; [|done]. by destruct (Node.Kind n'); simplify_eq.
Qed.

Lemma ReadFile_total `{!NoFaults} path data fs (Q : string -> Files -> Prop) : file_at fs path data -> Q data fs -> completes (ReadFile path) Q fs.
Proof.
  intros (n & Hn & K & <-) HQ. unfold ReadFile. apply completes_bind, completes_syscall. intros now. unfold resolve, res_bind.
  rewrite Hn, K. apply completes_syscall. intros now'. unfold file_data, res_bind. by rewrite K.
Qed.

(** Regular files and free names *)
Definition plain_at (fs : Files) (path : string) : Prop := forall n, fs !! path = Some n -> Node.Kind n = Regular.

Lemma statExists_total `{!NoFaults} path fs (Q : bool -> Files -> Prop) :
  plain_at fs path -> Q (bool_decide (is_Some (fs !! path))) fs -> completes (statExists path) Q fs.
Proof.
  intros Hp HQ. unfold statExists. apply completes_bind. intros d <-. unfold catch, Stat, syscall, resolve, res_bind. rewrite no_fault.
  destruct (Disk.nodes d !! path) as [n|] eqn:E.
  - rewrite (Hp n E). exists (Ok n), (tick d). split; [done|]. apply completes_ret. by rewrite bool_decide_true in HQ by eauto.
  - exists (Err (sys_error "stat" path ENOENT)), (tick d). split; [done|]. cbn. apply completes_ret.
    rewrite bool_decide_false in HQ; [done|]. by intros [? ?].
Qed.

(** ** Replacing a file *)

(** The name of a temporary file. *)
Definition temp_name (tmp : string) : Prop := exists q, tmp = q +:+ ".tmp".

(** What a replacement of [path] by a node of [P] shows: the old files, beside them
    one temporary file, or the new files. *)
Definition replacing (fs0 : Files) (path : string) (P : Node.t -> Prop) (fs : Files) : Prop :=
  fs = fs0 \/ (exists tmp n, fs0 !! tmp = None /\ temp_name tmp /\ fs = <[tmp := n]> fs0) \/ (exists n, P n /\ fs = <[path := n]> fs0).
(** ... and how it ends. *)
Definition replaced {A} (fs0 : Files) (path : string) (P : Node.t -> Prop) (r : res GoError.t A) (d : Disk.t) : Prop :=
  match r with
  | Ok _ => exists n, P n /\ Disk.nodes d = <[path := n]> fs0
  | Err e =>
      if IsDurability e then exists n, P n /\ Disk.nodes d = <[path := n]> fs0
      else os_error e /\ (Disk.nodes d = fs0 \/ exists tmp n, fs0 !! tmp = None /\ temp_name tmp /\ Disk.nodes d = <[tmp := n]> fs0)
  end.

(** One temporary file with what [P] says of it. *)
Definition staged_at (fs0 : Files) (tmp : string) (P : Node.t -> Prop) (fs : Files) : Prop := exists n, P n /\ fs = <[tmp := n]> fs0.

Lemma always_update I op path f Q d n :
  Disk.nodes d !! path = Some n -> Node.Kind n = Regular -> I (Disk.nodes d) -> I (<[path := f n]> (Disk.nodes d)) ->
  (forall e, Q (Err (sys_error op path (Hard e))) (tick d)) ->
  Q (Ok tt) (commit (<[path := f n]> (Disk.nodes d)) (tick d)) -> always I (update op path f) Q d.
Proof. intros Hn K HI HI' He HQ. apply always_syscall; [done..|]. unfold resolve, res_bind. by rewrite Hn, K. Qed.

(** A new file of this process, and an empty one. *)
Definition own_new (n : Node.t) : Prop := Node.Kind n = Regular /\ Node.Uid n = Euid /\ Node.Gid n = Egid.
Definition blank (n : Node.t) : Prop := own_new n /\ Node.Data n = "".

Lemma create_temp_always fs0 path P attempts dir prefix suffix d :
  Disk.nodes d = fs0 -> (exists q, suffix = q +:+ ".tmp") ->
  always (replacing fs0 path P) (create_temp attempts dir prefix suffix)
    (fun r d' => match r with
       | Ok tmp => fs0 !! tmp = None /\ temp_name tmp /\
                   staged_at fs0 tmp blank (Disk.nodes d')
       | Err e => os_error e /\ Disk.nodes d' = fs0
       end) d.
Proof.
  intros <- [q ->]. set (fs0 := Disk.nodes d). assert (Disk.nodes d = fs0) as Hd by done. clearbody fs0.
  revert d Hd. induction attempts as [|attempts IH]; intros d Hd; cbn [create_temp].
  { apply always_fail; [by left|]. split; [auto | done]. }
  unfold always at 1. cbv beta zeta. set (name := temp_path _ _ _ _).
  assert (temp_name name) as Hname.
  { unfold name, temp_path. eexists. rewrite <- !string_app_assoc. reflexivity. }
  clearbody name.
  assert (always (replacing fs0 path P) (OpenExcl name 384) (fun r d' => match r with
       | Ok _ => fs0 !! name = None /\ staged_at fs0 name blank (Disk.nodes d')
       | Err e => os_error e /\ Disk.nodes d' = fs0 end) d) as Hop.
  { apply always_syscall; [rewrite Hd; by left | auto |]. unfold create, res_bind. rewrite Hd.
    destruct (negb _); [auto|]. destruct (fs0 !! name) eqn:E; [auto|]. split.
    - right; left. eauto.
    - split; [done|]. eexists. split; [|reflexivity]. done. }
  unfold always in Hop. destruct (OpenExcl name 384 d) as [[[]|err] d1].
  - destruct Hop as (? & ? & ? & ? & ?). split_and!; auto.
  - destruct Hop as ((new & Hp & Hnew) & ? & Hdr & He & Hd1). destruct (is_errno EEXIST err); [|by split_and!; eauto].
    specialize (IH d1 Hd1). unfold always in IH. destruct (create_temp _ _ _ _ d1) as [r d'].
    destruct IH as ((new' & Hp' & Hnew') & ? & ? & ?). split_and!; [|done|lia|done].
    exists (new' ++ new). rewrite Hp', Hp, app_assoc. split; [done|]. by apply Forall_app.
Qed.
End os.

(** *** The body of a replacement

    From the moment the temporary file exists until it is renamed, each step keeps the
    files of [fs0] and changes that file only. *)
Section replacement.
Context `{OS} (fs0 : Files) (path : string) (P : Node.t -> Prop) (tmp : string).
Context (Hfree : fs0 !! tmp = None) (Htemp : temp_name tmp).

Definition installed (fs : Files) : Prop := exists n, P n /\ fs = <[path := n]> fs0.

Definition body_step (Pre Post : Files -> Prop) (m : FS unit) : Prop := forall d, Pre (Disk.nodes d) ->
  always (replacing fs0 path P) m (fun r d' => match r with
    | Ok _ => Post (Disk.nodes d')
    | Err e => os_error e /\ staged_at fs0 tmp (fun _ => True) (Disk.nodes d')
    end) d.

Lemma staged_replacing P1 fs : staged_at fs0 tmp P1 fs -> replacing fs0 path P fs.
Proof. intros (n & _ & ->). right; left. eauto. Qed.
Lemma staged_any P1 fs : staged_at fs0 tmp P1 fs -> staged_at fs0 tmp (fun _ => True) fs.
Proof. intros (n & _ & ->). by exists n. Qed.
#[local] Hint Resolve staged_replacing staged_any : core.

Lemma body_then Pre Mid Post m k : body_step Pre Mid m -> body_step Mid Post k -> body_step Pre Post (m ;;; k).
Proof.
  intros Hm Hk d Hd. apply always_bind. eapply always_post; [by apply Hm|]. intros [[]|e] d' _ HQ; [by apply Hk | done].
Qed.
Lemma body_wrapf Pre Post format args m : body_step Pre Post m -> body_step Pre Post (wrapf format args m).
Proof. intros Hm d Hd. apply always_wrapf. eapply always_post; [by apply Hm|]. by intros [[]|e] d' _. Qed.

Lemma body_update op f (P1 P2 : Node.t -> Prop) :
  (forall n, P1 n -> Node.Kind n = Regular) -> (forall n, P1 n -> P2 (f n)) ->
  body_step (staged_at fs0 tmp P1) (staged_at fs0 tmp P2) (update op tmp f).
Proof.
  intros K HP d Hd. pose proof Hd as (n & Hn & E). apply (always_update _ _ _ _ _ _ n); try rewrite E.
  - by rewrite lookup_insert_eq.
  - by apply K.
  - rewrite <- E. eauto.
  - rewrite insert_insert_eq. right; left. eauto.
  - intros e. split; [auto|]. cbn. rewrite E. by exists n.
  - cbn. rewrite insert_insert_eq. exists (f n). auto.
Qed.

Lemma body_same op p (P1 : Node.t -> Prop) :
  body_step (staged_at fs0 tmp P1) (staged_at fs0 tmp P1) (syscall op p (fun _ _ => Ok (tt, None))).
Proof. intros d Hd. apply always_syscall; [eauto | split; [auto|]; eauto | exact Hd]. Qed.

Lemma put_data_staged data now n : put_data tmp data now (<[tmp := n]> fs0) = <[tmp := n <| Node.Data := data |> <| Node.ModTime := now |>]> fs0.
Proof. unfold put_data. by rewrite alter_insert_eq. Qed.

Lemma body_Write data (P1 P2 : Node.t -> Prop) :
  (forall n now, P1 n -> P2 (n <| Node.Data := data |> <| Node.ModTime := now |>)) ->
  body_step (staged_at fs0 tmp P1) (staged_at fs0 tmp P2) (Write tmp data).
Proof.
  intros HP d (n & Hn & E). unfold always, Write. cbn zeta.
  assert (forall m, replacing fs0 path P (<[tmp := m]> fs0)) as Hr by (intros m; right; left; eauto).
  destruct (fault (Disk.calls d)) as [e|]; cbn; rewrite !E, !put_data_staged; split_and!; try done; try lia.
  - exists [<[tmp := n]> fs0]. split; [done | auto].
  - by eexists.
  - eexists [_; _]. split; [reflexivity | auto].
  - eexists. split; [|reflexivity]. exact (HP _ _ Hn).
Qed.

Lemma body_ChownToTarget (P1 P2 : Node.t -> Prop) :
  (forall n, P1 n -> Node.Kind n = Regular) ->
  (forall n, P1 n -> Ownership.active ownership = false -> P2 n) ->
  (forall n, P1 n -> Ownership.active ownership = true -> P2 (n <| Node.Uid := Ownership.uid ownership |> <| Node.Gid := Ownership.gid ownership |>)) ->
  body_step (staged_at fs0 tmp P1) (staged_at fs0 tmp P2) (ChownToTarget tmp).
Proof.
  intros K Hoff Hon. unfold ChownToTarget. destruct (Ownership.active ownership); cbn [negb].
  - apply body_wrapf, body_update; [done|]. intros n Hn. by apply Hon.
  - intros d Hd. apply always_ret; [eauto|]. destruct Hd as (n & Hn & ->). exists n. split; [by apply Hoff | done].
Qed.

Lemma body_Rename (P1 : Node.t -> Prop) :
  (forall n, P1 n -> P n) -> body_step (staged_at fs0 tmp P1) installed (Rename tmp path).
Proof.
  intros HP d Hd. pose proof Hd as (n & Hn & E).
  apply always_syscall; [eauto | intros e; split; [auto|]; cbn; eauto |].
  cbv beta. rewrite E, lookup_insert_eq.
  repeat case_match; simplify_eq; try (split; [auto|]; cbn; rewrite E; by exists n).
  rewrite delete_insert_id by done. split; [right; right; eauto|]. exists n. auto.
Qed.
End replacement.

Section replacements.
Context `{OS} (fs0 : Files) (path : string) (P : Node.t -> Prop).

Lemma SyncDir_observes dir : observes (SyncDir dir) (fun _ _ => True).
Proof.
  unfold SyncDir, syncDirectory. eapply (observes_bind _ _ (fun _ _ => True)); [|done|].
  - apply observes_wrapf, observes_syscall; [done|]. intros now fs. unfold res_bind. by destruct (resolve fs dir).
  - intros _. eapply observes_bind_catch; [by apply (observes_syscall _ _ _ (fun _ _ => True))|].
    intros [|err]; [by apply observes_ret|]. destruct (dirSyncUnsupported err); [by apply observes_ret | by apply observes_fail].
Qed.

(** A temporary file of its own, or an error with the files as they were. *)
Definition yields_temp (temp : FS string) : Prop := forall d, Disk.nodes d = fs0 ->
  always (replacing fs0 path P) temp
    (fun r d' => match r with
       | Ok tmp => fs0 !! tmp = None /\ temp_name tmp /\ staged_at fs0 tmp blank (Disk.nodes d')
       | Err e => os_error e /\ Disk.nodes d' = fs0
       end) d.

Lemma new_temp_yields dir base : yields_temp (new_temp dir base).
Proof. intros d Hd. eapply always_post; [apply create_temp_always; [done | by exists ""]|]. by intros [tmp|e] d' _. Qed.
Lemma wrapf_temp_yields format args temp : yields_temp temp -> yields_temp (wrapf format args temp).
Proof. intros Ht d Hd. apply always_wrapf. eapply always_post; [by apply Ht|]. by intros [tmp|e] d' _. Qed.

Lemma replacement_always temp dir' body d :
  Disk.nodes d = fs0 -> yields_temp temp ->
  (forall tmp, fs0 !! tmp = None -> temp_name tmp -> body_step fs0 path P tmp (staged_at fs0 tmp blank) (installed fs0 path P) (body tmp)) ->
  always (replacing fs0 path P) (temp_filled temp body ;;; sync_replaced dir' path) (replaced fs0 path P) d.
Proof.
  intros Hd Htemp Hbody. apply always_bind. unfold temp_filled. apply always_bind.
  eapply always_post; [by apply Htemp|].
  intros [tmp|e] d1 _; [|intros [[errno He] Hd1]; unfold replaced, IsDurability; rewrite He; split; [by exists errno | by left]].
  intros (Hfree & Hname & Hstaged). apply always_bind, always_catch.
  eapply always_post; [by apply Hbody|]. intros [[]|e] d2 Hr HQ; cbn beta iota.
  - apply always_ret; [done|]. unfold sync_replaced. apply always_bind, always_catch.
    eapply always_observes; [apply SyncDir_observes | done|]. intros [[]|e] d3 Hn _ _; cbn beta iota.
    + apply always_ret; [by rewrite Hn|]. destruct HQ as (n & ? & ?). exists n. by rewrite Hn.
    + apply always_fail; [by rewrite Hn|]. cbn. destruct HQ as (n & ? & ?). exists n. by rewrite Hn.
  - destruct HQ as [[errno He] (n & _ & Hn)]. apply always_bind, always_catch.
    assert (IsDurability e = false) as Hdur by (unfold IsDurability; by rewrite He).
    apply always_syscall; [done| |].
    + intros e'. apply always_fail; [done|]. unfold replaced. rewrite Hdur. split; [by exists errno|]. right. cbn. eauto.
    + rewrite Hn, lookup_insert_eq. destruct (is_dir _ tmp).
      * apply always_fail; [done|]. unfold replaced. rewrite Hdur. split; [by exists errno|]. right. cbn. eauto.
      * rewrite delete_insert_id by done. split; [by left|]. apply always_fail; [by left|].
        unfold replaced. rewrite Hdur. split; [by exists errno|]. by left.
Qed.
End replacements.

(** *** The replacement functions *)
Section functions.
Context `{OS}.

(** A file as this process writes it. *)
Definition owned (n : Node.t) : Prop :=
  if Ownership.active ownership then Node.Uid n = Ownership.uid ownership /\ Node.Gid n = Ownership.gid ownership
  else Node.Uid n = Euid /\ Node.Gid n = Egid.
Definition written (data : string) (perm : Z) (n : Node.t) : Prop :=
  Node.Kind n = Regular /\ Node.Data n = data /\ Node.Perm n = perm /\ owned n.

Definition new_with (P : Node.t -> Prop) (n : Node.t) : Prop := own_new n /\ P n.

Lemma chown_new tmp fs0 path P Q :
  (forall n u g, Q n -> Q (n <| Node.Uid := u |> <| Node.Gid := g |>)) -> fs0 !! tmp = None -> temp_name tmp ->
  body_step fs0 path P tmp (staged_at fs0 tmp (new_with Q)) (staged_at fs0 tmp (fun n => Node.Kind n = Regular /\ owned n /\ Q n)) (ChownToTarget tmp).
Proof.
  intros HQ Hf Ht. apply body_ChownToTarget; [done|done|..].
  - by intros n [(? & ? & ?) ?].
  - intros n [(? & ? & ?) ?] Ha. unfold owned. by rewrite Ha.
  - intros n [(? & ? & ?) ?] Ha. unfold owned. rewrite Ha. split_and!; [done..|by apply HQ].
Qed.

Lemma WriteFile_body fs0 path data perm tmp :
  fs0 !! tmp = None -> temp_name tmp ->
  body_step fs0 path (written data perm) tmp (staged_at fs0 tmp blank) (installed fs0 path (written data perm))
    (wrapf "chmod temp file: %w" [] (Chmod tmp perm) ;;;
     wrapf "writing temp file: %w" [] (Write tmp data) ;;;
     wrapf "syncing temp file: %w" [] (Sync tmp) ;;;
     wrapf "closing temp file: %w" [] (Close tmp) ;;;
     wrapf "assigning daemon ownership to the staged replacement for %s (predecessor left in place): %w" [path] (ChownToTarget tmp) ;;;
     wrapf "renaming temp file over %s: %w" [path] (Rename tmp path)).
Proof.
  intros Hf Ht.
  eapply (body_then _ _ _ _ _ (staged_at fs0 tmp (new_with (fun n => Node.Perm n = perm)))).
  { apply body_wrapf, body_update; [done..| |]; unfold new_with, blank, own_new; naive_solver. }
  eapply (body_then _ _ _ _ _ (staged_at fs0 tmp (new_with (fun n => Node.Perm n = perm /\ Node.Data n = data)))).
  { apply body_wrapf, body_Write; [done..|]. unfold new_with, blank, own_new; naive_solver. }
  eapply body_then; [apply body_wrapf, body_same; done|].
  eapply body_then; [apply body_wrapf, body_same; done|].
  eapply body_then; [apply body_wrapf, chown_new; naive_solver|].
  apply body_wrapf, body_Rename; [done..|]. unfold written. naive_solver.
Qed.

Lemma WriteFileAtomicOwned_always path data perm d :
  always (replacing (Disk.nodes d) path (written data perm)) (WriteFileAtomicOwned path data perm)
    (replaced (Disk.nodes d) path (written data perm)) d.
Proof. apply replacement_always; [done | by apply wrapf_temp_yields, new_temp_yields|]. intros tmp Hf Ht. by apply WriteFile_body. Qed.

(** The copy of a regular file. *)
Definition copied (fs : Files) (src : string) (n : Node.t) : Prop :=
  exists s, fs !! src = Some s /\ Node.Kind s = Regular /\ written (Node.Data s) (mode_perm s) n.

Lemma Open_observes path : observes (Open path) (fun fs r => match r with Ok n => resolve fs path = Ok n | Err e => os_error e end).
Proof. apply observes_syscall; [auto|]. intros now fs. unfold res_bind. destruct (resolve fs path); auto. Qed.

Lemma body_bind {A} fs0 path P tmp Pre (Q : A -> Prop) Post (m : FS A) k :
  fs0 !! tmp = None -> temp_name tmp ->
  observes m (fun _ r => match r with Ok a => Q a | Err e => os_error e end) ->
  (forall a, Q a -> body_step fs0 path P tmp (staged_at fs0 tmp Pre) Post (k a)) ->
  body_step fs0 path P tmp (staged_at fs0 tmp Pre) Post (bind m k).
Proof.
  intros Hf Ht Hm Hk d Hd. apply always_bind. eapply always_observes; [exact Hm | by eapply staged_replacing|].
  intros [a|e] d' Hn _ HQ; cbn beta iota.
  - apply Hk; [done | by rewrite Hn].
  - split; [done|]. rewrite Hn. by eapply staged_any.
Qed.

Lemma CopyFile_body fs0 src dst info tmp :
  resolve fs0 src = Ok info -> fs0 !! tmp = None -> temp_name tmp ->
  body_step fs0 dst (copied fs0 src) tmp (staged_at fs0 tmp blank) (installed fs0 dst (copied fs0 src))
    (wrapf "chmod temp file: %w" [] (Chmod tmp (mode_perm info)) ;;;
     wrapf "copying %s: %w" [src] (data <-- ReadAll src info ;; Write tmp data) ;;;
     wrapf "syncing temp file: %w" [] (Sync tmp) ;;;
     wrapf "closing temp file: %w" [] (Close tmp) ;;;
     wrapf "assigning daemon ownership to the staged copy of %s: %w" [src] (ChownToTarget tmp) ;;;
     wrapf "renaming temp file over %s: %w" [dst] (Rename tmp dst)).
Proof.
  intros Hinfo Hf Ht.
  eapply (body_then _ _ _ _ _ (staged_at fs0 tmp (new_with (fun n => Node.Perm n = mode_perm info)))).
  { apply body_wrapf, body_update; [done..| |]; unfold new_with, blank, own_new; naive_solver. }
  eapply (body_then _ _ _ _ _ (staged_at fs0 tmp (new_with (fun n => Node.Perm n = mode_perm info /\ file_data info = Ok (Node.Data n))))).
  { apply body_wrapf, (body_bind _ _ _ _ _ (fun data => file_data info = Ok data)); [done..| |].
    - apply observes_syscall; [auto|]. intros now fs. unfold res_bind. destruct (file_data info); auto.
    - intros data Hdata. apply body_Write; [done..|]. unfold new_with, blank, own_new; naive_solver. }
  eapply body_then; [apply body_wrapf, body_same; done|].
  eapply body_then; [apply body_wrapf, body_same; done|].
  eapply body_then; [apply body_wrapf, chown_new; naive_solver|].
  apply body_wrapf, body_Rename; [done..|]. intros m (K & Ho & Hp & Hdata). exists info. unfold resolve, file_data in *.
  destruct (fs0 !! src) as [s|]; [|done]. destruct (Node.Kind s) eqn:E; simplify_eq; rewrite E in Hdata; simplify_eq.
  split_and!; [done..|]. unfold written. naive_solver.
Qed.

Lemma CopyFile_always src dst d :
  always (replacing (Disk.nodes d) dst (copied (Disk.nodes d) src)) (CopyFile src dst)
    (replaced (Disk.nodes d) dst (copied (Disk.nodes d) src)) d.
Proof.
  set (fs0 := Disk.nodes d). unfold CopyFile. apply always_bind. eapply always_observes; [apply Stat_observes | by left|].
  intros [info|e] d1 Hd1 _ Hinfo; cbn beta iota.
  2: { destruct Hinfo as [[errno He] _]. unfold replaced, IsDurability. rewrite He. split; [by exists errno | by left]. }
  apply always_bind. eapply always_observes; [apply Open_observes | by left|].
  intros [n|e] d2 Hd2 _ Hn; cbn beta iota.
  2: { destruct Hn as [errno He]. unfold replaced, IsDurability. rewrite He. split; [by exists errno |]. left. by rewrite Hd2, Hd1. }
  rewrite Hd1, Hinfo in Hn. injection Hn as <-. cbn zeta.
  apply replacement_always; [by rewrite Hd2, Hd1 | by apply wrapf_temp_yields, new_temp_yields|]. intros tmp Hf Ht. by apply CopyFile_body.
Qed.

(** The configuration keeps its mode and, replaced by root, its owner. *)
Definition reconfigured (fs : Files) (path data : string) (n : Node.t) : Prop :=
  Node.Kind n = Regular /\ Node.Data n = data /\
  exists info, resolve fs path = Ok info /\ Node.Perm n = mode_perm info /\
    (Euid = 0 -> Node.Uid n = Node.Uid info /\ Node.Gid n = Node.Gid info).

Lemma WriteConfigFileAtomic_always path data d :
  always (replacing (Disk.nodes d) path (reconfigured (Disk.nodes d) path data)) (WriteConfigFileAtomic path data)
    (replaced (Disk.nodes d) path (reconfigured (Disk.nodes d) path data)) d.
Proof.
  set (fs0 := Disk.nodes d). unfold WriteConfigFileAtomic. apply always_bind, always_wrapf.
  eapply always_observes; [apply Stat_observes | by left|].
  intros [info|e] d1 Hd1 _ Hinfo; cbn [map_err]; cbn beta iota.
  2: { destruct Hinfo as [[errno He] _]. unfold replaced, IsDurability. cbn. rewrite He. split; [by exists errno | by left]. }
  cbn zeta. apply replacement_always; [by rewrite Hd1 | by apply wrapf_temp_yields, new_temp_yields|]. intros tmp Hf Ht.
  eapply (body_then _ _ _ _ _ (staged_at fs0 tmp (new_with (fun n => Node.Perm n = mode_perm info)))).
  { apply body_wrapf, body_update; [done..| |]; unfold new_with, blank, own_new; naive_solver. }
  eapply (body_then _ _ _ _ _ (staged_at fs0 tmp (new_with (fun n => Node.Perm n = mode_perm info /\ Node.Data n = data)))).
  { apply body_wrapf, body_Write; [done..|]. unfold new_with, blank, own_new; naive_solver. }
  eapply body_then; [apply body_wrapf, body_same; done|].
  eapply body_then; [apply body_wrapf, body_same; done|].
  eapply (body_then _ _ _ _ _ (staged_at fs0 tmp (fun n => Node.Kind n = Regular /\ Node.Perm n = mode_perm info /\ Node.Data n = data /\
           (Euid = 0 -> Node.Uid n = Node.Uid info /\ Node.Gid n = Node.Gid info)))).
  { apply body_wrapf. unfold preserveOwner. destruct (Euid =? 0) eqn:E; cbn [negb].
    - apply body_update; [done..| |]; unfold new_with, blank, own_new; naive_solver.
    - intros d2 Hd2. apply always_ret; [by eapply staged_replacing|]. destruct Hd2 as (n & Hn & ->). exists n. split; [|done].
      apply Z.eqb_neq in E. unfold new_with, own_new in Hn. naive_solver. }
  apply body_wrapf, body_Rename; [done..|]. unfold reconfigured. naive_solver.
Qed.
End functions.

(** ** File operations succeed where no system call fails

    The replacement functions succeed where no call fails, the directory exists, and
    fewer names are taken than a temporary name has attempts; [completes] of FileSysSound.v
    then gives the files they end with. *)

(** The random numbers of any 10000 calls in a row differ. *)
Class FreshNames `{OS} : Prop := fresh_names : forall i j, (i < j)%nat -> (j < i + Z.to_nat 10000)%nat -> nextRandom i <> nextRandom j.

Definition roomy (fs : Files) : Prop := Z.of_nat (size fs) < 10000.

(** Distinct names that are all taken are no more than the files. *)
Lemma free_name (fs : Files) (name : nat -> string) (n : nat) :
  (forall i j, (i < j < n)%nat -> name i <> name j) -> (size fs < n)%nat -> exists k, (k < n)%nat /\ fs !! name k = None.
Proof.
  intros Hinj Hn. destruct (decide (Exists (fun k => fs !! name k = None) (seq 0 n))) as [He|He].
  { apply Exists_exists in He as (k & Hk & ?). apply elem_of_seq in Hk. exists k. split; [lia | done]. }
  apply not_Exists_Forall in He; [|intros k; apply _].
  enough (length (map name (seq 0 n)) <= length (map_to_list fs).*1)%nat as Hle.
  { rewrite length_map, length_seq, length_fmap, length_map_to_list in Hle. lia. }
  apply submseteq_length, NoDup_submseteq.
  - apply NoDup_fmap_2_strong; [|apply NoDup_seq]. intros i j Hi Hj E. apply elem_of_seq in Hi, Hj.
    destruct (decide (i < j)%nat); [by destruct (Hinj i j); [lia|]|]. destruct (decide (j < i)%nat); [by destruct (Hinj j i); [lia|]|]. lia.
  - intros x Hx. apply list_elem_of_fmap in Hx as (k & -> & Hk). rewrite Forall_forall in He. specialize (He k Hk).
    destruct (fs !! name k) as [n'|] eqn:E; [|done]. apply list_elem_of_fmap. exists (name k, n'). split; [done|]. by apply elem_of_map_to_list.
Qed.

Section succeeding.
Context `{OS} `{!NoFaults} `{!FreshNames}.

Definition succeeds {A} (m : FS A) (fs : Files) : Prop := forall d, Disk.nodes d = fs -> is_ok (m d).1 = true.

Lemma completes_succeeds {A} I (m : FS A) Q (Q' : A -> Files -> Prop) fs :
  succeeds m fs -> (forall d, Disk.nodes d = fs -> always I m Q d) -> (forall a d', Q (Ok a) d' -> Q' a (Disk.nodes d')) -> completes m Q' fs.
Proof.
  intros Hm HI HQ d Hd. specialize (Hm d Hd). specialize (HI d Hd). unfold always in HI. destruct (m d) as [[a|e] d']; [|done].
  exists a, d'. split; [done|]. apply HQ. by destruct HI as (_ & _ & _ & ?).
Qed.

Lemma succeeds_bind {A B} I (m : FS A) Q (k : A -> FS B) fs :
  succeeds m fs -> (forall d, Disk.nodes d = fs -> always I m Q d) ->
  (forall a d', Q (Ok a) d' -> succeeds (k a) (Disk.nodes d')) -> succeeds (bind m k) fs.
Proof.
  intros Hm HI Hk d Hd. specialize (Hm d Hd). specialize (HI d Hd). unfold always, bind in *. destruct (m d) as [[a|e] d1]; [|done].
  destruct HI as (_ & _ & _ & HQ). by eapply Hk.
Qed.
Lemma succeeds_wrapf {A} format args (m : FS A) fs : succeeds m fs -> succeeds (wrapf format args m) fs.
Proof. intros Hm d Hd. specialize (Hm d Hd). unfold wrapf. by destruct (m d) as [[a|e] d1]. Qed.

(** The directory takes new files. *)
Definition takes_files (fs : Files) (dir : string) : Prop := clean_path dir /\ HasSuffix dir "/" = false /\ is_dir fs dir = true.

Lemma no_slash_pretty (z : Z) : no_slash (pretty z).
Proof. apply pretty_free; [done|]. intros x. unfold pretty_N_char. by repeat case_match. Qed.

Lemma create_temp_succeeds fs dir prefix suffix :
  takes_files fs dir -> no_slash prefix -> no_slash suffix -> roomy fs -> succeeds (CreateTemp dir prefix suffix) fs.
Proof.
  intros (HK & Hsuf & Hdir) Hp Hs Hroom d Hd. unfold CreateTemp.
  set (name c := temp_path dir prefix suffix (nextRandom c)).
  assert (forall c, is_dir fs (Dir (name c)) = true) as Hparent.
  { intros c. unfold name, temp_path. rewrite Hsuf, string_app_assoc, Dir_child; [done..|].
    rewrite !free_of_app. split_and!; [done | apply no_slash_pretty | done]. }
  destruct (free_name fs (fun k => name (Disk.calls d + k)%nat) (Z.to_nat 10000)) as (k & Hk & Hfree); [|unfold roomy in Hroom; lia|].
  { intros i j Hij E. unfold name, temp_path in E. apply (inj _) in E. apply (inj _) in E.
    apply app_inj_length in E as [E _]; [|done]. apply (inj _) in E. revert E. apply fresh_names; lia. }
  revert d k Hd Hk Hfree. induction (Z.to_nat 10000) as [|attempts IH]; intros d k Hd Hk Hfree; [lia|]. cbn [create_temp].
  fold (name (Disk.calls d)). unfold OpenExcl, syscall. rewrite no_fault. unfold create, res_bind. rewrite Hd, Hparent. cbn [negb].
  destruct (fs !! name (Disk.calls d)) as [n|] eqn:E; [|done].
  destruct k as [|k]; [rewrite Nat.add_0_r in Hfree; congruence|]. apply (IH (tick d) k); [done | lia|].
  rewrite <- Hfree. f_equal. unfold name. cbn. do 2 f_equal. lia.
Qed.

Lemma resolve_dir fs dir : is_dir fs dir = true -> exists n, resolve fs dir = Ok n.
Proof.
  unfold is_dir, resolve. destruct (fs !! dir) as [n|]; [|done]. intros K%bool_decide_eq_true. rewrite K. eauto.
Qed.

Lemma SyncDir_succeeds fs dir : is_dir fs dir = true -> succeeds (SyncDir dir) fs.
Proof.
  intros (n & Hn)%resolve_dir d Hd. unfold SyncDir, syncDirectory, wrapf, Open, Sync, catch, bind, syscall.
  rewrite !no_fault, Hd. unfold res_bind. rewrite Hn. cbn. by rewrite no_fault.
Qed.

(** The steps of a body succeed on any regular temporary file. *)
Section body.
Context (fs0 : Files) (path tmp : string) (Hfree : fs0 !! tmp = None).
Definition staged (fs : Files) : Prop := staged_at fs0 tmp (fun n => Node.Kind n = Regular) fs.

Definition body_ok (m : FS unit) : Prop := forall d, staged (Disk.nodes d) -> let '(r, d') := m d in is_ok r = true /\ staged (Disk.nodes d').
Definition body_ends (m : FS unit) : Prop := forall d, staged (Disk.nodes d) -> is_ok (m d).1 = true.

Lemma body_ends_then m k : body_ok m -> body_ends k -> body_ends (m ;;; k).
Proof. intros Hm Hk d Hd. specialize (Hm d Hd). unfold bind. destruct (m d) as [[[]|e] d1]; destruct Hm as [? ?]; [by apply Hk | done]. Qed.
Lemma body_ok_wrapf format args m : body_ok m -> body_ok (wrapf format args m).
Proof. intros Hm d Hd. specialize (Hm d Hd). unfold wrapf. by destruct (m d) as [[[]|e] d1]. Qed.
Lemma body_ok_update op f : (forall n, Node.Kind (f n) = Node.Kind n) -> body_ok (update op tmp f).
Proof.
  intros Hf d (n & K & E). unfold update, syscall. rewrite no_fault, E. unfold resolve, res_bind. rewrite lookup_insert_eq, K. cbn.
  split; [done|]. rewrite insert_insert_eq. exists (f n). split; [by rewrite Hf | done].
Qed.
Lemma body_ok_same op p : body_ok (syscall op p (fun _ _ => Ok (tt, None))).
Proof. intros d Hd. unfold syscall. by rewrite no_fault. Qed.
Lemma body_ok_Write data : body_ok (Write tmp data).
Proof.
  intros d (n & K & E). unfold Write. rewrite no_fault. cbn. rewrite E, !put_data_staged. split; [done|].
  eexists. split; [|reflexivity]. exact K.
Qed.
Lemma body_ok_Chown : body_ok (ChownToTarget tmp).
Proof. unfold ChownToTarget. destruct (negb _); [by intros d Hd | by apply body_ok_wrapf, body_ok_update]. Qed.
Lemma body_ok_copy src n data : file_data n = Ok data -> body_ok (data <-- ReadAll src n ;; Write tmp data).
Proof.
  intros Hdata d Hd. unfold bind, ReadAll, syscall. rewrite no_fault. unfold res_bind. rewrite Hdata. by apply body_ok_Write.
Qed.
Lemma body_ends_Rename format args :
  is_dir fs0 (Dir path) = true -> is_dir fs0 path = false -> body_ends (wrapf format args (Rename tmp path)).
Proof.
  intros Hdir Hpath d (n & K & E). unfold wrapf, Rename, syscall. rewrite no_fault, E, lookup_insert_eq.
  assert (forall p, is_dir (<[tmp := n]> fs0) p = is_dir fs0 p) as Hsame.
  { intros p. unfold is_dir. destruct (decide (p = tmp)) as [->|Hp]; [|by rewrite lookup_insert_ne].
    rewrite lookup_insert_eq, Hfree. by rewrite K. }
  by rewrite !Hsame, Hdir, Hpath.
Qed.
End body.

Ltac body_ok_step :=
  apply body_ok_wrapf;
  first [by apply body_ok_update | by apply body_ok_same | by apply body_ok_Write | by apply body_ok_Chown | by eapply body_ok_copy].

Lemma replacement_succeeds fs0 path P message base body :
  takes_files fs0 (Dir path) -> is_dir fs0 path = false -> no_slash base -> roomy fs0 ->
  (forall tmp, fs0 !! tmp = None -> temp_name tmp ->
     body_step fs0 path P tmp (staged_at fs0 tmp blank) (installed fs0 path P) (body tmp) /\ body_ends fs0 tmp (body tmp)) ->
  succeeds (with_temp message (Dir path) base body ;;; sync_replaced (Dir path) path) fs0.
Proof.
  intros Htakes Hpath Hbase Hroom Hbody. pose proof Htakes as (_ & _ & Hdir). unfold with_temp, temp_filled, new_temp.
  assert (no_slash ("." +:+ base +:+ ".")) as Hprefix by (rewrite !free_of_app; split_and!; [by repeat constructor | done | by repeat constructor]).
  intros d Hd. pose proof (create_temp_succeeds fs0 (Dir path) _ ".tmp" Htakes Hprefix ltac:(by repeat constructor) Hroom d Hd) as Htmp.
  pose proof (create_temp_always fs0 path P (Z.to_nat 10000) (Dir path) ("." +:+ base +:+ ".") ".tmp" d Hd ltac:(by exists "")) as Halw.
  unfold bind, catch, wrapf, always, filled, CreateTemp in *. destruct (create_temp _ _ _ _ d) as [[tmp|e] d1]; [|done].
  destruct Halw as (_ & _ & _ & Hfree & Htemp & Hstaged). destruct (Hbody tmp Hfree Htemp) as [Hstep Hends].
  assert (staged fs0 tmp (Disk.nodes d1)) as Hreg by (destruct Hstaged as (n & ((K & _) & _) & E); by exists n).
  specialize (Hends d1 Hreg). specialize (Hstep d1 Hstaged). unfold always in Hstep. unfold filled, bind, catch. destruct (body tmp d1) as [[[]|e] d2]; [|done].
  destruct Hstep as (_ & _ & _ & n & _ & Hn). cbn. unfold sync_replaced, bind, catch.
  assert (is_dir (Disk.nodes d2) (Dir path) = true) as Hdir'.
  { rewrite Hn. unfold is_dir. rewrite lookup_insert_ne; [exact Hdir|]. intros E. congruence. }
  pose proof (SyncDir_succeeds _ _ Hdir' d2 eq_refl) as Hsync. by destruct (SyncDir (Dir path) d2) as [[[]|e] d3].
Qed.

Lemma WriteFileAtomicOwned_total path data perm fs (Q : unit -> Files -> Prop) :
  takes_files fs (Dir path) -> is_dir fs path = false -> no_slash (Base path) -> roomy fs ->
  (forall n, written data perm n -> Q tt (<[path := n]> fs)) -> completes (WriteFileAtomicOwned path data perm) Q fs.
Proof.
  intros Htakes Hpath Hbase Hroom HQ. apply (completes_succeeds (replacing fs path (written data perm)) _ (replaced fs path (written data perm))).
  - eapply replacement_succeeds; [done..|]. intros tmp Hf Ht. split; [by apply WriteFile_body|].
    do 5 (apply body_ends_then; [body_ok_step|]).
    apply body_ends_Rename; [done| |done]. by destruct Htakes as (_ & _ & ?).
  - intros d <-. apply WriteFileAtomicOwned_always.
  - intros [] d' (n & Hn & ->). by apply HQ.
Qed.

Lemma CopyFile_total src dst s fs (Q : unit -> Files -> Prop) :
  fs !! src = Some s -> Node.Kind s = Regular ->
  takes_files fs (Dir dst) -> is_dir fs dst = false -> no_slash (Base dst) -> roomy fs ->
  (forall n, written (Node.Data s) (mode_perm s) n -> Q tt (<[dst := n]> fs)) -> completes (CopyFile src dst) Q fs.
Proof.
  intros Hs K Htakes Hpath Hbase Hroom HQ. apply (completes_succeeds (replacing fs dst (copied fs src)) _ (replaced fs dst (copied fs src))).
  - unfold CopyFile. assert (resolve fs src = Ok s) as Hr by (unfold resolve; by rewrite Hs, K).
    intros d Hd. unfold bind at 1 2, Stat, Open, syscall at 1 2.
    rewrite no_fault, Hd. unfold res_bind. rewrite Hr. cbn. rewrite no_fault, Hd, Hr.
    refine (replacement_succeeds fs dst (copied fs src) _ _ _ Htakes Hpath Hbase Hroom _ (tick (tick d)) Hd).
    intros tmp Hf Ht. split; [by apply CopyFile_body|].
    assert (file_data s = Ok (Node.Data s)) as Hdata by (unfold file_data; by rewrite K).
    do 5 (apply body_ends_then; [body_ok_step|]).
    apply body_ends_Rename; [done| |done]. by destruct Htakes as (_ & _ & ?).
  - intros d <-. apply CopyFile_always.
  - intros [] d' (n & (s' & Hs' & _ & Hn) & ->). rewrite Hs in Hs'. injection Hs' as <-. by apply HQ.
Qed.
End succeeding.
