(* ===== verification/KeyFilesSound.v ===== *)
(** * KeyFilesSound: no transaction on the key directory loses a generation

    [pair_at fs base k p]: the two files at [base] load as the key [k] with the private
    half [p].  Whatever calls fail, and wherever a run stops, a pair that exists when a
    transaction starts can be loaded at every state it goes through: under its own name,
    or, for the live pair, under the name it was backed up to. *)

From stdpp Require Import base list strings gmap pretty.
From Stdlib Require Import ZArith Lia Ascii.
From S2P Require Import Prelude Paths GoTime Config ZoneState FileSys KeyOps Names Digests Wire Serial KeyMaterial Signatures KeyFiles FileSysSound.
Local Open Scope Z_scope.

(** An error cannot be a success; a success stays one. *)
Ltac ok_only := let E := fresh in intros E; first [discriminate E | exact E].

Section sound.
Context `{OS} `{DnsLib} `{WireLib} `{CryptoLib}.

(** ** Loading *)

Definition key_at (fs : Files) (base : string) (k : DNSKEY.t) : Prop :=
  exists data, file_at fs (base +:+ ".key") data /\ ParseDNSKEYFromFile data = Ok k.
Definition priv_at (fs : Files) (base : string) (p : list Z) : Prop :=
  exists data, file_at fs (base +:+ ".private") data /\ ParsePrivateKeyFromFile data = Ok p.
Definition pair_at (fs : Files) (base : string) (k : DNSKEY.t) (p : list Z) : Prop :=
  key_at fs base k /\ priv_at fs base p /\ VerifyKeyPairCorrespondence k p = Ok tt.
Definition verified_at (fs : Files) (base domain keyType : string) (k : DNSKEY.t) (p : list Z) : Prop :=
  pair_at fs base k p /\ validateLoadedKey k domain keyType = Ok tt.

Lemma key_at_inj fs base k k' : key_at fs base k -> key_at fs base k' -> k = k'.
Proof. intros (data & Hd & Hk) (data' & Hd' & Hk'). pose proof (file_at_inj _ _ _ _ Hd Hd'). congruence. Qed.
Lemma priv_at_inj fs base p p' : priv_at fs base p -> priv_at fs base p' -> p = p'.
Proof. intros (data & Hd & Hk) (data' & Hd' & Hk'). pose proof (file_at_inj _ _ _ _ Hd Hd'). congruence. Qed.

Lemma of_res_observes {A} (r : res string A) : observes (of_res r) (fun _ x => forall a, x = Ok a -> r = Ok a).
Proof. destruct r; [apply observes_ret | apply observes_fail]; intros; congruence. Qed.

(** What a computation that only reads has seen when it succeeds. *)
Definition sees {A} (m : FS A) (P : Files -> A -> Prop) : Prop := observes m (fun fs r => forall a, r = Ok a -> P fs a).
Lemma sees_bind {A B} (m : FS A) (k : A -> FS B) P (P' : Files -> B -> Prop) :
  sees m P -> (forall a, sees (k a) (fun fs b => P fs a -> P' fs b)) -> sees (bind m k) P'.
Proof.
  intros Hm Hk. eapply observes_bind; [exact Hm | done|]. intros a. eapply observes_mono; [apply Hk|].
  intros fs r HQ HP b ->. apply HQ; auto.
Qed.
Lemma sees_wrapf {A} format args (m : FS A) P : sees m P -> sees (wrapf format args m) P.
Proof. intros Hm. apply observes_wrapf. eapply observes_mono; [exact Hm|]. intros fs [a|e] HP b Hb; [by apply HP | done]. Qed.
Lemma sees_ret {A} (a : A) (P : Files -> A -> Prop) : (forall fs, P fs a) -> sees (ret a) P.
Proof. intros HP. apply observes_ret. by intros fs b [= <-]. Qed.

Lemma loadKeyPair_sees base : sees (loadKeyPairFromPath base) (fun fs kp => pair_at fs base kp.1 kp.2).
Proof.
  unfold loadKeyPairFromPath. eapply sees_bind; [apply sees_wrapf, ReadFile_observes|]. intros keyData.
  eapply sees_bind; [apply sees_wrapf, of_res_observes|]. intros k.
  eapply sees_bind; [apply sees_wrapf, ReadFile_observes|]. intros privData.
  eapply sees_bind; [apply sees_wrapf, of_res_observes|]. intros p.
  eapply sees_bind; [apply sees_wrapf, of_res_observes|]. intros [].
  apply sees_ret. intros fs Hc Hp Hpf Hk Hkf. split_and!; [by exists keyData | by exists privData | done].
Qed.
Lemma loadVerifiedPair_sees base domain keyType :
  sees (loadVerifiedPair base domain keyType) (fun fs kp => verified_at fs base domain keyType kp.1 kp.2).
Proof.
  unfold loadVerifiedPair. eapply sees_bind; [apply loadKeyPair_sees|]. intros kp.
  eapply sees_bind; [apply sees_wrapf, of_res_observes|]. intros []. by apply sees_ret.
Qed.
Lemma loadPublicKey_sees base : sees (loadPublicKeyFromPath base) (fun fs k => key_at fs base k).
Proof.
  unfold loadPublicKeyFromPath. eapply sees_bind; [apply sees_wrapf, ReadFile_observes|]. intros keyData.
  eapply observes_mono; [apply sees_wrapf, of_res_observes|]. intros fs r Hr k Hk Hf. exists keyData. auto.
Qed.

(** A name that stat reports: taken, or without a file behind it. *)
Definition stat_says (fs : Files) (path : string) (b : bool) : Prop := if b then is_Some (fs !! path) else resolve fs path = Err ENOENT.
Lemma statExists_sees path : sees (statExists path) (fun fs b => stat_says fs path b).
Proof. eapply observes_mono; [apply statExists_observes|]. by intros fs [b|e] Hb a [= <-]. Qed.
Lemma pairFiles_sees base :
  sees (pairFiles base) (fun fs h => stat_says fs (base +:+ ".key") h.1 /\ stat_says fs (base +:+ ".private") h.2).
Proof.
  unfold pairFiles. eapply sees_bind; [apply sees_wrapf, statExists_sees|]. intros b1.
  eapply sees_bind; [apply sees_wrapf, statExists_sees|]. intros b2. by apply sees_ret.
Qed.

Lemma stat_says_file fs path data b : file_at fs path data -> stat_says fs path b -> b = true.
Proof. intros (n & Hn & K & _). destruct b; [done|]. unfold stat_says, resolve. by rewrite Hn, K. Qed.

Lemma always_sees {A} I (m : FS A) P (Q : res GoError.t A -> Disk.t -> Prop) d :
  sees m P -> I (Disk.nodes d) ->
  (forall a d', Disk.nodes d' = Disk.nodes d -> P (Disk.nodes d) a -> Q (Ok a) d') ->
  (forall e d', Disk.nodes d' = Disk.nodes d -> Q (Err e) d') -> always I m Q d.
Proof. intros Hm HI HQ He. eapply always_observes; [exact Hm | done|]. intros [a|e] d' Hd _ HP; auto. Qed.

(** What a success returns, whatever happened before. *)
Lemma loaded_yields base domain keyType d kp d' :
  loadVerifiedPair base domain keyType d = (Ok kp, d') -> verified_at (Disk.nodes d') base domain keyType kp.1 kp.2.
Proof.
  intros Hrun. pose proof (loadVerifiedPair_sees base domain keyType d) as Hs. rewrite Hrun in Hs.
  destruct Hs as (Hn & _ & _ & Hv). rewrite Hn. by apply Hv.
Qed.
Lemma wrapf_ok {A} format args (m : FS A) d a d' : wrapf format args m d = (Ok a, d') -> m d = (Ok a, d').
Proof. unfold wrapf. destruct (m d) as [[?|e] d1]; congruence. Qed.

Lemma catch_sees {A} (m : FS A) P d r d' : sees m P -> catch m d = (Ok r, d') ->
  Disk.nodes d' = Disk.nodes d /\ forall a, r = Ok a -> P (Disk.nodes d) a.
Proof.
  intros Hm. specialize (Hm d). unfold catch. destruct (m d) as [x d1]. destruct Hm as (Hn & _ & _ & HP). intros [= <- <-]. by split.
Qed.

(** ** The same key *)

Lemma samePublicKey_spec a b : samePublicKey a b = true <->
  DNSKEY.PublicKey a = DNSKEY.PublicKey b /\ DNSKEY.Algorithm a = DNSKEY.Algorithm b /\ DNSKEY.Flags a = DNSKEY.Flags b /\
  DNSKEY.Protocol a = DNSKEY.Protocol b /\ ToLower (Hdr.Name (DNSKEY.Hdr a)) = ToLower (Hdr.Name (DNSKEY.Hdr b)).
Proof.
  unfold samePublicKey, EqualFold. rewrite !andb_true_iff, !String.eqb_eq, !Z.eqb_eq. tauto.
Qed.
Lemma samePublicKey_refl a : samePublicKey a a = true.
Proof. by apply samePublicKey_spec. Qed.
Lemma samePublicKey_sym a b : samePublicKey a b = true -> samePublicKey b a = true.
Proof. rewrite !samePublicKey_spec. naive_solver. Qed.
Lemma samePublicKey_trans a b c : samePublicKey a b = true -> samePublicKey b c = true -> samePublicKey a c = true.
Proof. rewrite !samePublicKey_spec. intros (-> & -> & -> & -> & ->) (-> & -> & -> & -> & ->). done. Qed.

(** Correspondence and admission depend on the key material only. *)
Lemma ed_derived_tag t t' p x : ed_derived t p = Ok x -> ed_derived t' p = Ok x.
Proof. unfold ed_derived. destruct (Nat.eqb _ SeedSize); [ok_only|]. destruct (Nat.eqb _ PrivateKeySize); [|ok_only]. destruct (negb _); ok_only. Qed.
Lemma verifyECDSA_tag t t' curve size p pub : verifyECDSACorrespondence curve size p pub t = Ok tt -> verifyECDSACorrespondence curve size p pub t' = Ok tt.
Proof.
  unfold verifyECDSACorrespondence. destruct (negb _); [ok_only|]. destruct (negb _); [ok_only|]. destruct (_ || _); [ok_only|].
  destruct (ScalarBaseMult curve p). destruct (negb _); ok_only.
Qed.
Lemma same_corresponds a b p : samePublicKey a b = true -> VerifyKeyPairCorrespondence a p = Ok tt -> VerifyKeyPairCorrespondence b p = Ok tt.
Proof.
  rewrite samePublicKey_spec. intros (Hp & Ha & _). unfold VerifyKeyPairCorrespondence. rewrite Hp, Ha.
  assert (rsaPublicKeyFromDNSKEY a = rsaPublicKeyFromDNSKEY b) as Hr by (unfold rsaPublicKeyFromDNSKEY; by rewrite Hp).
  destruct (isRSA _ || _).
  { unfold verifyRSACorrespondence, res_bind. rewrite Hr. destruct (rsaPrivateKeyFromBytes p); [|ok_only].
    destruct (rsaPublicKeyFromDNSKEY b); [|ok_only]. destruct (_ || _); ok_only. }
  destruct (base64_decode _) as [pub|]; [|ok_only]. destruct (_ =? ED25519).
  { unfold res_bind. destruct (ed_derived (KeyTagOf a) p) as [x|] eqn:E; [|ok_only]. rewrite (ed_derived_tag _ (KeyTagOf b) _ _ E).
    destruct (_ || _); ok_only. }
  destruct (_ =? ECDSAP256SHA256); [apply verifyECDSA_tag|]. destruct (_ =? ECDSAP384SHA384); [apply verifyECDSA_tag | ok_only].
Qed.
Lemma same_admitted a b domain keyType : samePublicKey a b = true -> validateLoadedKey a domain keyType = Ok tt -> validateLoadedKey b domain keyType = Ok tt.
Proof.
  rewrite samePublicKey_spec. intros (_ & Ha & Hf & _ & Hn). unfold validateLoadedKey, EqualFold, res_bind. rewrite Ha, Hf, Hn.
  destruct (negb _); [ok_only|].
  destruct (String.eqb keyType "ksk"); [|destruct (String.eqb keyType "zsk"); [|ok_only]];
    (destruct (negb _); [ok_only|]; destruct (_ || _); [ok_only|]; destruct (_ || _); ok_only).
Qed.
End sound.

(** ** The transactions keep every pair that loads

    One pair, at the names [b.key] and [b.private], is followed through each operation:
    nothing replaces, moves or removes its files unless they are the live slot being
    replaced, and then only after the pair has been copied elsewhere. *)

(** The two extensions name different files. *)
Lemma key_private_ne a b : a +:+ ".key" <> b +:+ ".private".
Proof.
  intros E. change (".private") with (".pri" +:+ "vate") in E. rewrite <- string_app_assoc in E.
  apply app_inj_length in E as [_ E]; [done|]. reflexivity.
Qed.
Lemma ext_inj a b ext : a +:+ ext = b +:+ ext -> a = b.
Proof. intros E. by apply app_inj_length in E as [-> _]. Qed.

(** The outcome of a step, put into what follows it. *)
Ltac outcome := cbn [map_err]; cbn beta iota.

Section kept.
Context `{OS} `{DnsLib} `{WireLib} `{CryptoLib}.
Context (b : string) (nk np : Node.t) (k : DNSKEY.t) (p : list Z).
Context (Rk : Node.Kind nk = Regular) (Rp : Node.Kind np = Regular).
Context (Pk : ParseDNSKEYFromFile (Node.Data nk) = Ok k) (Pp : ParsePrivateKeyFromFile (Node.Data np) = Ok p).
Context (Cor : VerifyKeyPairCorrespondence k p = Ok tt).

Definition kept (fs : Files) : Prop := fs !! (b +:+ ".key") = Some nk /\ fs !! (b +:+ ".private") = Some np.
(** Another name than those of the pair. *)
Definition safe (path : string) : Prop := path <> b +:+ ".key" /\ path <> b +:+ ".private".

Lemma kept_pair fs : kept fs -> pair_at fs b k p.
Proof. intros [E1 E2]. split_and!; [exists (Node.Data nk) | exists (Node.Data np) | done]; (split; [by eexists | done]). Qed.

Lemma kept_insert fs path n : kept fs -> safe path -> kept (<[path := n]> fs).
Proof. intros [? ?] [? ?]. split; by rewrite lookup_insert_ne. Qed.
Lemma kept_delete fs path : kept fs -> safe path -> kept (delete path fs).
Proof. intros [? ?] [? ?]. split; by rewrite lookup_delete_ne. Qed.
(** A name without a readable file behind it is another name. *)
Lemma safe_free fs path : kept fs -> fs !! path = None -> safe path.
Proof. intros [E1 E2] Hn. split; intros ->; congruence. Qed.
Lemma safe_absent fs path : kept fs -> resolve fs path = Err ENOENT -> safe path.
Proof. intros [E1 E2] Hn. unfold resolve in Hn. split; intros ->; [rewrite E1, Rk in Hn | rewrite E2, Rp in Hn]; done. Qed.
#[local] Hint Resolve kept_insert kept_delete safe_free safe_absent : core.

Lemma kept_replacing fs0 path P fs : kept fs0 -> safe path -> replacing fs0 path P fs -> kept fs.
Proof. intros Hk Hs [->|[(tmp & n & Hf & _ & ->)|(n & _ & ->)]]; eauto. Qed.

Lemma CopyFile_kept src dst (Q : res GoError.t unit -> Disk.t -> Prop) d :
  kept (Disk.nodes d) -> safe dst ->
  (forall r d', kept (Disk.nodes d') -> replaced (Disk.nodes d) dst (copied (Disk.nodes d) src) r d' -> Q r d') ->
  always kept (CopyFile src dst) Q d.
Proof.
  intros Hk Hs HQ. eapply always_mono; [apply CopyFile_always|..].
  - intros fs. by apply kept_replacing.
  - intros r d' Hr. apply HQ. by eapply kept_replacing.
Qed.
Lemma WriteFile_kept path data perm (Q : res GoError.t unit -> Disk.t -> Prop) d :
  kept (Disk.nodes d) -> safe path ->
  (forall r d', kept (Disk.nodes d') -> replaced (Disk.nodes d) path (written data perm) r d' -> Q r d') ->
  always kept (WriteFileAtomicOwned path data perm) Q d.
Proof.
  intros Hk Hs HQ. eapply always_mono; [apply WriteFileAtomicOwned_always|..].
  - intros fs. by apply kept_replacing.
  - intros r d' Hr. apply HQ. by eapply kept_replacing.
Qed.

Lemma Remove_kept path (Q : res GoError.t unit -> Disk.t -> Prop) d :
  kept (Disk.nodes d) -> safe path -> (forall r d', kept (Disk.nodes d') -> Q r d') -> always kept (Remove path) Q d.
Proof.
  intros Hk Hs HQ. apply always_syscall; [done | intros; by apply HQ|].
  destruct (Disk.nodes d !! path); [|by apply HQ]. destruct (is_dir _ path); [by apply HQ|]. split; [auto | apply HQ; cbn; auto].
Qed.

Lemma set_aside_kept fuel i path reason (Q : res GoError.t string -> Disk.t -> Prop) d :
  kept (Disk.nodes d) -> safe path -> (forall r d', kept (Disk.nodes d') -> Q r d') ->
  always kept (set_aside_from fuel i path reason) Q d.
Proof.
  intros Hk Hs HQ. revert i d Hk. induction fuel as [|fuel IH]; intros i d Hk; cbn [set_aside_from].
  { by apply always_fail; [|apply HQ]. }
  set (dst := path +:+ "." +:+ reason +:+ "." +:+ pretty i). apply always_bind, always_catch.
  apply (always_post _ _ (fun _ d' => kept (Disk.nodes d'))).
  { apply always_syscall; [done..|]. destruct (Disk.nodes d !! path); [|done]. destruct (negb _); [done|].
    destruct (Disk.nodes d !! dst) eqn:E; [done|]. destruct (is_dir _ path); [done|]. split; cbn; eauto. }
  intros [[]|err] d1 _ Hk1; cbn beta iota.
  - apply always_bind, always_catch, Remove_kept; [done..|]. intros r d2 Hk2. by apply always_ret; [|apply HQ].
  - destruct (is_errno EEXIST err); [by apply IH|]. destruct (negb _); [by apply always_fail; [|apply HQ]|].
    apply always_bind, always_wrapf. eapply always_sees; [apply statExists_sees | done| |].
    + intros [] d2 Hd2 Hstat; outcome; [apply IH; by rewrite Hd2|].
      assert (safe dst) as Hdst by (eapply safe_absent; [exact Hk1 | exact Hstat]).
      apply always_bind, always_wrapf. rewrite <- Hd2 in Hk1.
      apply (always_post _ _ (fun _ d' => kept (Disk.nodes d'))).
      { apply always_syscall; [done..|]. destruct (Disk.nodes d2 !! path); [|done]. destruct (negb _); [done|].
        destruct (is_dir _ dst); [done|]. split; cbn; auto. }
      intros [[]|err'] d3 _ Hk3; outcome; [by apply always_ret; [|apply HQ] | by apply HQ].
    + intros e d2 Hd2. cbn. apply HQ. by rewrite Hd2.
Qed.
Lemma setAside_kept path reason (Q : res GoError.t string -> Disk.t -> Prop) d :
  kept (Disk.nodes d) -> safe path -> (forall r d', kept (Disk.nodes d') -> Q r d') -> always kept (setAside path reason) Q d.
Proof. apply set_aside_kept. Qed.

(** ** Claimed names *)

Lemma reserveFile_kept path (Q : res GoError.t bool -> Disk.t -> Prop) d :
  kept (Disk.nodes d) ->
  (forall r d', kept (Disk.nodes d') -> (r = Ok true -> safe path) -> Q r d') -> always kept (reserveFile path) Q d.
Proof.
  intros Hk HQ. unfold reserveFile. apply always_bind, always_catch.
  apply (always_post _ _ (fun r d' => kept (Disk.nodes d') /\ (r = Ok tt -> safe path))).
  { apply always_syscall; [done | done|]. unfold create, res_bind. destruct (negb _); [done|].
    destruct (Disk.nodes d !! path) eqn:E; [done|]. split; [eauto|]. split; cbn; eauto. }
  intros [[]|err] d1 _ [Hk1 Hs]; cbn beta iota.
  - specialize (Hs eq_refl). apply always_bind, always_wrapf, always_syscall; [done| |].
    + intros e. cbn. by apply HQ.
    + outcome. apply always_ret; [done|]. by apply HQ.
  - destruct (is_errno EEXIST err); [by apply always_ret; [|apply HQ] | by apply always_fail; [|apply HQ]].
Qed.

(** An empty file is no half of a pair. *)
Lemma pair_not_empty : Node.Data nk <> "" /\ Node.Data np <> "".
Proof. split; intros E; [rewrite E in Pk; done | rewrite E in Pp; by vm_compute in Pp]. Qed.

Definition contents_stay (except : string -> Prop) (fs fs' : Files) : Prop :=
  forall path data, file_at fs path data -> data <> "" -> ~ except path -> file_at fs' path data.

Lemma contents_stay_refl except fs : contents_stay except fs fs.
Proof. by intros path data. Qed.
#[local] Hint Resolve contents_stay_refl : core.

Lemma releaseReservation_kept path (Q : res GoError.t unit -> Disk.t -> Prop) d :
  kept (Disk.nodes d) ->
  (forall r d', kept (Disk.nodes d') -> contents_stay (fun _ => False) (Disk.nodes d) (Disk.nodes d') -> Q r d') ->
  always kept (releaseReservation path) Q d.
Proof.
  intros Hk HQ. unfold releaseReservation. apply always_bind, always_catch.
  eapply (always_sees _ _ (fun fs n => fs !! path = Some n)); [| done| |].
  - apply observes_syscall; [done|]. intros _ fs. destruct (fs !! path); [congruence | done].
  - intros info d1 Hd1 Hinfo. cbn beta iota. rewrite <- Hd1 in Hk, HQ, Hinfo. clear Hd1 d. rename d1 into d.
    destruct (negb _ || negb _) eqn:E; [apply always_ret; auto|].
    apply orb_false_iff in E as [_ E]. apply negb_false_iff, String.eqb_eq in E. destruct pair_not_empty as [N1 N2].
    assert (safe path) as Hs by (destruct Hk as [E1 E2]; split; intros ->; congruence).
    assert (contents_stay (fun _ => False) (Disk.nodes d) (delete path (Disk.nodes d))) as Hdel.
    { intros q data (m & Hm & K & D) Hne _. exists m. rewrite lookup_delete_ne by congruence. done. }
    apply always_bind, always_catch, always_syscall; [done| |].
    + intros e. apply always_ret; auto.
    + rewrite Hinfo. destruct (is_dir _ path); [apply always_ret; auto|].
      split; [auto|]. apply always_ret; [cbn; auto|]. apply HQ; cbn; auto.
  - intros e d1 Hd1. outcome. apply always_ret; [by rewrite Hd1|]. apply HQ; rewrite Hd1; auto.
Qed.

Lemma reservePair_kept base (Q : res GoError.t bool -> Disk.t -> Prop) d :
  kept (Disk.nodes d) ->
  (forall r d', kept (Disk.nodes d') -> (r = Ok true -> safe (base +:+ ".key") /\ safe (base +:+ ".private")) -> Q r d') ->
  always kept (reservePair base) Q d.
Proof.
  intros Hk HQ. unfold reservePair. apply always_bind, reserveFile_kept; [done|]. intros [[]|e] d1 Hk1 Hs; cbn beta iota.
  - specialize (Hs eq_refl). cbn [negb]. apply always_bind, always_catch, reserveFile_kept; [done|].
    intros [[]|e] d2 Hk2 Hs2; cbn beta iota.
    + apply always_ret; [done|]. apply HQ; [done|]. auto.
    + apply always_bind, releaseReservation_kept; [done|]. intros [[]|e] d3 Hk3 _; outcome; [by apply always_ret; [|apply HQ] | by apply HQ].
    + apply always_bind, releaseReservation_kept; [done|]. intros [[]|e'] d3 Hk3 _; outcome; [by apply always_fail; [|apply HQ] | by apply HQ].
  - cbn [negb]. by apply always_ret; [|apply HQ].
  - by apply HQ.
Qed.

Lemma uniqueBackupBase_kept prefix (Q : res GoError.t string -> Disk.t -> Prop) d :
  kept (Disk.nodes d) ->
  (forall r d', kept (Disk.nodes d') -> (forall dst, r = Ok dst -> safe (dst +:+ ".key") /\ safe (dst +:+ ".private")) -> Q r d') ->
  always kept (uniqueBackupBase prefix) Q d.
Proof.
  unfold uniqueBackupBase. generalize 0. generalize (Z.to_nat 10000). intros fuel i Hk HQ. revert i d Hk.
  induction fuel as [|fuel IH]; intros i d Hk; cbn [unique_base_from]; [by apply always_fail; [|apply HQ]|].
  apply always_bind, reservePair_kept; [done|]. intros [[]|e] d1 Hk1 Hs; cbn beta iota.
  - apply always_ret; [done|]. apply HQ; [done|]. intros dst [= <-]. auto.
  - by apply IH.
  - by apply HQ.
Qed.

(** ** Copies of the pair itself *)

(** Copying one half: nothing of the pair changes, other files stay, and the half
    arrives where it exists. *)
Lemma copy_half_kept srcBase dst ext (Q : res GoError.t unit -> Disk.t -> Prop) d :
  kept (Disk.nodes d) -> safe (dst +:+ ext) ->
  (forall r d', kept (Disk.nodes d') ->
     (r = Ok tt -> contents_stay (fun path => path = dst +:+ ext) (Disk.nodes d) (Disk.nodes d') /\
        forall data, file_at (Disk.nodes d) (srcBase +:+ ext) data -> file_at (Disk.nodes d') (dst +:+ ext) data) -> Q r d') ->
  always kept (copy_half srcBase dst ext) Q d.
Proof.
  intros Hk Hs HQ. unfold copy_half. apply always_bind, always_wrapf. eapply always_sees; [apply statExists_sees | done| |].
  - intros exists_ d1 Hd1 Hstat. outcome. rewrite <- Hd1 in Hk, HQ, Hstat. clear Hd1 d. rename d1 into d. destruct exists_; cbn [negb].
    + unfold copyDurable. apply always_wrapf, CopyFile_kept; [done..|]. intros r d2 Hk2 Hr. apply HQ; [done|].
      destruct r as [[]|e]; [|done]. intros _. destruct Hr as (n & (s & Hsrc & Ks & (Kn & Dn & _)) & Hd2). split.
      * intros path data (m & Hm & Km & Dm) _ Hne. exists m. by rewrite Hd2, lookup_insert_ne by done.
      * intros data (m & Hm & Km & Dm). exists n. rewrite Hd2, lookup_insert_eq. split_and!; [done..|]. congruence.
    + apply releaseReservation_kept; [done|]. intros r d2 Hk2 Hstay. apply HQ; [done|]. intros _. split.
      * intros path data Hf Hne _. apply Hstay; [done..|]. by intros [].
      * intros data Hf. by pose proof (stat_says_file _ _ _ _ Hf Hstat).
  - intros e d1 Hd1. cbn. apply HQ; [by rewrite Hd1 | done].
Qed.

Lemma copyPairUnique_kept srcBase prefix (Q : res GoError.t string -> Disk.t -> Prop) d :
  kept (Disk.nodes d) ->
  (forall r d', kept (Disk.nodes d') ->
     (forall dst, r = Ok dst -> safe (dst +:+ ".key") /\ safe (dst +:+ ".private") /\ (b = srcBase -> pair_at (Disk.nodes d') dst k p)) -> Q r d') ->
  always kept (copyPairUnique srcBase prefix) Q d.
Proof.
  intros Hk HQ. unfold copyPairUnique. apply always_bind, uniqueBackupBase_kept; [done|].
  intros [dst|e] d1 Hk1 Hs; outcome; [|by apply HQ]. destruct (Hs dst eq_refl) as [Hs1 Hs2].
  apply always_bind, copy_half_kept; [done..|]. intros [[]|e] d2 Hk2 Hc2; outcome; [|by apply HQ].
  destruct (Hc2 eq_refl) as [_ Ha2]. apply always_bind, copy_half_kept; [done..|].
  intros [[]|e] d3 Hk3 Hc3; outcome; [|by apply HQ]. destruct (Hc3 eq_refl) as [Hst3 Ha3].
  apply always_ret; [done|]. apply HQ; [done|]. intros dst' [= <-]. split; [exact Hs1|]. split; [exact Hs2|].
  intros <-. destruct pair_not_empty as [N1 _]. split_and!; [exists (Node.Data nk) | exists (Node.Data np) | done]; (split; [|done]).
  - apply Hst3; [|done | apply key_private_ne]. apply Ha2. destruct Hk1 as [E _]. by exists nk.
  - apply Ha3. destruct Hk2 as [_ E]. by exists np.
Qed.

Lemma safe_key base : base <> b -> safe (base +:+ ".key").
Proof. intros Hb. split; [intros E; by apply ext_inj in E | apply key_private_ne]. Qed.
Lemma safe_private base : base <> b -> safe (base +:+ ".private").
Proof. intros Hb. split; [intros E; by apply (key_private_ne b base) | intros E; by apply ext_inj in E]. Qed.
#[local] Hint Resolve safe_key safe_private : core.

(** ** Backups *)

Definition backed_up_at (domain keyType backup : string) (want : DNSKEY.t) (r : res GoError.t unit) (fs : Files) : Prop :=
  r = Ok tt -> exists k' p', verified_at fs backup domain keyType k' p' /\ samePublicKey k' want = true.

(** The last step of a backup: the copy is loaded. *)
Lemma backup_loaded_kept domain keyType backup want format args message (Q : res GoError.t unit -> Disk.t -> Prop) d :
  kept (Disk.nodes d) ->
  (forall r d', kept (Disk.nodes d') -> backed_up_at domain keyType backup want r (Disk.nodes d') -> Q r d') ->
  always kept (got <-- wrapf format args (loadVerifiedPair backup domain keyType) ;;
               if negb (samePublicKey got.1 want) then fail message else ret tt) Q d.
Proof.
  intros Hk HQ. apply always_bind, always_wrapf. eapply always_sees; [apply loadVerifiedPair_sees | done| |].
  - intros [k' p'] d1 Hd1 Hv. outcome. rewrite <- Hd1 in Hk, Hv. cbn [fst] in *.
    destruct (samePublicKey k' want) eqn:E; cbn [negb]; [apply always_ret | apply always_fail]; try done; apply HQ; try done.
    intros _. by exists k', p'.
  - intros e d1 Hd1. outcome. apply HQ; [by rewrite Hd1 | done].
Qed.

Lemma ensureBackupAt_other domain keyType live backup want (Q : res GoError.t unit -> Disk.t -> Prop) d :
  backup <> b -> kept (Disk.nodes d) ->
  (forall r d', kept (Disk.nodes d') -> backed_up_at domain keyType backup want r (Disk.nodes d') -> Q r d') ->
  always kept (ensureBackupAt domain keyType live backup want) Q d.
Proof.
  intros Hb Hk HQ. unfold ensureBackupAt. assert (forall e d', kept (Disk.nodes d') -> Q (Err e) d') as He by (intros; by apply HQ).
  apply always_bind. eapply always_sees; [apply pairFiles_sees | done | | intros e d1 Hd1; apply He; by rewrite Hd1].
  intros [keyExists privExists] d1 Hd1 _. rewrite <- Hd1 in Hk. clear Hd1 d.
  apply always_bind. apply (always_post _ _ (fun _ d' => kept (Disk.nodes d'))).
  { destruct keyExists.
    - apply always_bind, always_wrapf. eapply always_sees; [apply ReadFile_observes | done | | intros e d2 Hd2; outcome; by rewrite Hd2].
      intros data d2 Hd2 _. outcome. rewrite <- Hd2 in Hk. destruct (negb _); [by apply always_fail | by apply always_ret].
    - apply always_bind, always_when.
      + intros _. apply always_bind, setAside_kept; [auto..|]. intros [?|e] d2 Hk2; outcome; [|done]. apply always_ret; [done|].
        apply always_bind, always_wrapf. unfold copyDurable. apply always_wrapf, CopyFile_kept; [auto..|].
        intros [[]|e] d3 Hk3 _; outcome; [by apply always_ret | done].
      + intros _. split; [done|]. apply always_bind, always_wrapf. unfold copyDurable. apply always_wrapf, CopyFile_kept; [auto..|].
        intros [[]|e] d3 Hk3 _; outcome; [by apply always_ret | done]. }
  intros [privExists'|e] d2 _ Hk2; [|by apply He]. apply always_bind. apply (always_post _ _ (fun _ d' => kept (Disk.nodes d'))).
  { destruct privExists'; [|by apply always_ret]. apply always_bind, always_wrapf.
    eapply always_sees; [apply ReadFile_observes | done | | intros e d3 Hd3; outcome; by rewrite Hd3].
    intros data d3 Hd3 _. outcome. rewrite <- Hd3 in Hk2. destruct (negb _); [|by apply always_ret].
    apply always_bind, setAside_kept; [auto..|]. intros [?|e] d4 Hk4; outcome; [by apply always_ret | done]. }
  intros [privExists''|e] d3 _ Hk3; [|by apply He]. apply always_bind, always_when.
  - intros _. unfold copyDurable. apply always_wrapf, always_wrapf, CopyFile_kept; [auto..|].
    intros [[]|e] d4 Hk4 _; outcome; [by apply backup_loaded_kept | by apply He].
  - intros _. split; [done|]. by apply backup_loaded_kept.
Qed.

(** The slot that holds the pair already is not written to. *)
Lemma ensureBackupAt_same domain keyType live want (Q : res GoError.t unit -> Disk.t -> Prop) d :
  kept (Disk.nodes d) ->
  (forall r d', kept (Disk.nodes d') -> backed_up_at domain keyType b want r (Disk.nodes d') -> Q r d') ->
  always kept (ensureBackupAt domain keyType live b want) Q d.
Proof.
  intros Hk HQ. unfold ensureBackupAt. assert (forall e d', kept (Disk.nodes d') -> Q (Err e) d') as He by (intros; by apply HQ).
  apply always_bind. eapply always_sees; [apply pairFiles_sees | done | | intros e d1 Hd1; apply He; by rewrite Hd1].
  intros [keyExists privExists] d1 Hd1 [S1 S2]. cbn [fst snd] in *. pose proof Hk as [E1 E2].
  assert (keyExists = true) as -> by (eapply stat_says_file; [|exact S1]; by exists nk).
  assert (privExists = true) as -> by (eapply stat_says_file; [|exact S2]; by exists np).
  rewrite <- Hd1 in Hk, E1, E2. clear Hd1 S1 S2 d.
  apply always_bind, always_bind, always_wrapf. eapply always_sees; [apply ReadFile_observes | done | | intros e d2 Hd2; outcome; apply He; by rewrite Hd2].
  intros data d2 Hd2 Hdata. outcome. rewrite <- Hd2 in Hk, E1, E2, Hdata. clear Hd2 d1.
  assert (data = Node.Data nk) as -> by (eapply file_at_inj; [exact Hdata | by exists nk]). rewrite Pk.
  destruct (samePublicKey k want) eqn:Es; cbn [negb]; [apply always_ret; [done|] | apply always_fail; [done | by apply He]].
  apply always_bind, always_bind, always_wrapf. eapply always_sees; [apply ReadFile_observes | done | | intros e d3 Hd3; outcome; apply He; by rewrite Hd3].
  intros data d3 Hd3 Hdata'. outcome. rewrite <- Hd3 in Hk, E2, Hdata'. clear Hd3.
  assert (data = Node.Data np) as -> by (eapply file_at_inj; [exact Hdata' | by exists np]).
  unfold backup_private_valid. rewrite Pp, (same_corresponds _ _ _ Es Cor). cbn [is_ok negb].
  apply always_ret; [done|]. apply always_bind. apply always_when; [done|]. intros _. split; [done|]. by apply backup_loaded_kept.
Qed.

Lemma ensureBackupAt_kept domain keyType live backup want (Q : res GoError.t unit -> Disk.t -> Prop) d :
  kept (Disk.nodes d) ->
  (forall r d', kept (Disk.nodes d') -> backed_up_at domain keyType backup want r (Disk.nodes d') -> Q r d') ->
  always kept (ensureBackupAt domain keyType live backup want) Q d.
Proof. destruct (decide (backup = b)) as [->|Hb]; [apply ensureBackupAt_same | by apply ensureBackupAt_other]. Qed.

(** ** The live slot *)

(** What a verified backup of the live pair is. *)
Definition live_backup (cfg : Config) (domain keyType : string) (dk : DNSKEY.t) (fs0 fs : Files) : Prop :=
  let backup := taggedBase cfg domain keyType (KeyTagOf dk) in
  (exists p0, verified_at fs0 (liveBase cfg domain keyType) domain keyType dk p0) /\
  exists k' p', verified_at fs backup domain keyType k' p' /\ samePublicKey k' dk = true.

Lemma ensureVerifiedBackup_kept cfg domain keyType (Q : res GoError.t DNSKEY.t -> Disk.t -> Prop) d :
  kept (Disk.nodes d) ->
  (forall r d', kept (Disk.nodes d') ->
     (forall dk, r = Ok dk -> live_backup cfg domain keyType dk (Disk.nodes d) (Disk.nodes d')) -> Q r d') ->
  always kept (ensureVerifiedBackup cfg domain keyType) Q d.
Proof.
  intros Hk HQ. unfold ensureVerifiedBackup. apply always_bind, always_catch.
  eapply always_sees; [apply loadVerifiedPair_sees | done | |].
  - intros [dk p0] d1 Hd1 Hv. outcome. cbn [fst snd] in *. rewrite <- Hd1 in Hk, HQ, Hv. clear Hd1 d.
    apply always_bind, ensureBackupAt_kept; [done|]. intros [[]|e] d2 Hk2 Hb2; outcome; [|by apply HQ].
    apply always_ret; [done|]. apply HQ; [done|]. intros dk' [= <-]. split; [by exists p0 | by apply Hb2].
  - intros e d1 Hd1. outcome. apply always_fail; [by rewrite Hd1|]. apply HQ; [by rewrite Hd1 | done].
Qed.

(** The live pair under another name. *)
Definition elsewhere (live : string) (fs : Files) : Prop :=
  exists b' k' p', b' <> live /\ pair_at fs b' k' p' /\ samePublicKey k' k = true.

Lemma preserveLivePair_kept cfg domain keyType (Q : res GoError.t unit -> Disk.t -> Prop) d :
  (forall tag, taggedBase cfg domain keyType tag <> liveBase cfg domain keyType) ->
  kept (Disk.nodes d) ->
  (forall r d', kept (Disk.nodes d') ->
     (r = Ok tt -> b = liveBase cfg domain keyType -> elsewhere b (Disk.nodes d')) -> Q r d') ->
  always kept (preserveLivePair cfg domain keyType) Q d.
Proof.
  intros Htag Hk HQ. unfold preserveLivePair. set (live := liveBase cfg domain keyType) in *.
  assert (forall e d', kept (Disk.nodes d') -> Q (Err e) d') as He by (intros; by apply HQ).
  assert (forall prefix d', kept (Disk.nodes d') -> always kept (copyPairUnique live prefix ;;; ret tt) Q d') as Hcopy.
  { intros prefix d' Hk'. apply always_bind, copyPairUnique_kept; [done|]. intros [dst|e] d2 Hk2 Hc; outcome; [|by apply He].
    destruct (Hc dst eq_refl) as (Hs & _ & Hpair). apply always_ret; [done|]. apply HQ; [done|]. intros _ Hb.
    exists dst, k, p. split_and!; [|by apply Hpair | apply samePublicKey_refl]. intros ->. by destruct Hs as [[] _]. }
  apply always_bind. eapply always_sees; [apply pairFiles_sees | done | | intros e d1 Hd1; apply He; by rewrite Hd1].
  intros [keyExists privExists] d1 Hd1 [S1 S2]. cbn [fst snd] in *. rewrite <- Hd1 in Hk, S1, S2. clear Hd1 d.
  assert (b = live -> keyExists = true) as Hb1.
  { intros <-. destruct Hk as [E _]. eapply stat_says_file; [|exact S1]. by exists nk. }
  destruct keyExists, privExists; [|by apply Hcopy|by apply Hcopy|].
  - apply always_bind, always_catch, ensureVerifiedBackup_kept; [done|]. intros [dk|err] d2 Hk2 Hb2; outcome.
    + apply always_ret; [done|]. apply HQ; [done|]. intros _ Hb. destruct (Hb2 dk eq_refl) as [[p0 [Hv _]] (k' & p' & [Hv' _] & Hsame)].
      exists (taggedBase cfg domain keyType (KeyTagOf dk)), k', p'. split_and!; [rewrite Hb; apply Htag | done|].
      replace k with dk; [done|]. destruct Hv as [Hv _]. apply kept_pair in Hk as [Hk _]. fold live in Hv. rewrite <- Hb in Hv.
      by eapply key_at_inj.
    + destruct (GoError.Cause err); [apply always_fail | apply always_fail | apply always_fail | by apply Hcopy | by apply Hcopy]; auto.
  - apply always_ret; [done|]. apply HQ; [done|]. intros _ Hb. by specialize (Hb1 Hb).
Qed.

Lemma copy_visible_kept src dst message args (Q : res GoError.t unit -> Disk.t -> Prop) d :
  kept (Disk.nodes d) -> safe dst -> (forall r d', kept (Disk.nodes d') -> Q r d') ->
  always kept (copy_visible src dst message args) Q d.
Proof.
  intros Hk Hs HQ. unfold copy_visible. apply always_bind, always_catch, CopyFile_kept; [done..|].
  intros [[]|err] d1 Hk1 _; outcome; [apply always_ret; auto|]. destruct (IsDurability err); [apply always_ret | apply always_fail]; auto.
Qed.
End kept.

(** ** Staging a generation

    [StageKeyPair] writes one slot.  A pair that loads as another key is kept, also when
    its tag collides with the new key's; success means the slot loads as the new key. *)

(** What a successful staging returns, whatever calls failed. *)
Section staged.
Context `{OS} `{DnsLib} `{WireLib} `{CryptoLib}.

Lemma prepare_slot_yields domain keyType tag slot dnskey d d' :
  prepare_slot domain keyType tag slot dnskey d = (Ok true, d') ->
  exists k p, verified_at (Disk.nodes d') slot domain keyType k p /\ samePublicKey k dnskey = true.
Proof.
  unfold prepare_slot. intros ([[] privExists] & d1 & _ & R1)%bind_ok.
  2: { destruct privExists; [|done]. by apply bind_ok in R1 as (? & ? & _ & ?). }
  apply bind_ok in R1 as (r & d2 & Hl%(catch_sees _ _ _ _ _ (loadPublicKey_sees _)) & R2). destruct Hl as [Hn2 Hex].
  destruct r as [existing|e]; [|done]. destruct (samePublicKey existing dnskey) eqn:Es; cbn [negb] in R2; [|done].
  destruct privExists; [|done]. apply bind_ok in R2 as (r & d3 & Hv%(catch_sees _ _ _ _ _ (loadVerifiedPair_sees _ _ _)) & R3). destruct Hv as [Hn3 Hv].
  destruct r as [[k p]|e]; [|by apply bind_ok in R3 as (? & ? & _ & ?)]. injection R3 as <-. rewrite Hn3. exists k, p.
  pose proof (Hv _ eq_refl) as Hver. split; [done|]. cbn in Hver. destruct Hver as [[Hk _] _].
  specialize (Hex _ eq_refl). rewrite <- Hn2 in Hex. by rewrite (key_at_inj _ _ _ _ Hk Hex).
Qed.
Lemma StageKeyPair_yields cfg domain keyType dnskey privateKey d base d' :
  StageKeyPair cfg domain keyType dnskey privateKey d = (Ok base, d') ->
  let slot := taggedBase cfg domain keyType (KeyTagOf dnskey) in
  base = slot /\ exists k p, verified_at (Disk.nodes d') slot domain keyType k p /\ samePublicKey k dnskey = true.
Proof.
  intros (? & d1 & _ & R1)%bind_ok slot. apply bind_ok in R1 as (? & d2 & _ & R2). apply bind_ok in R2 as (? & d3 & _ & R3).
  apply bind_ok in R3 as (there & d4 & Hp & R4). destruct there.
  - injection R4 as <- <-. split; [done|]. by apply prepare_slot_yields in Hp.
  - apply bind_ok in R4 as (? & d5 & _ & R5). apply bind_ok in R5 as ([k p] & d6 & Hl%wrapf_ok & R6). cbn [fst] in R6.
    destruct (samePublicKey k dnskey) eqn:Es; cbn [negb orb] in R6; [|done]. destruct (negb _); [done|]. injection R6 as <- <-.
    split; [done|]. exists k, p. split; [by apply loaded_yields in Hl | done].
Qed.
End staged.

(** ** Directories

    What survives the making of directories: [I] does not mind a new directory, nor
    another owner or mode of an old one. *)
Section directories.
Context `{OS} (I : Files -> Prop).
Context (Inew : forall fs path n, I fs -> fs !! path = None -> Node.Kind n = Directory -> I (<[path := n]> fs)).
Context (Idir : forall fs path n, I fs -> is_dir fs path = true -> Node.Kind n = Directory -> I (<[path := n]> fs)).

Lemma resolved_dir fs path n : resolve fs path = Ok n -> Node.Kind n = Directory -> is_dir fs path = true.
Proof. unfold resolve, is_dir. destruct (fs !! path) as [m|]; [|done]. destruct (Node.Kind m) eqn:E; intros [= <-] K; [congruence | done]. Qed.
Lemma is_dir_resolved fs path : is_dir fs path = true -> exists n, resolve fs path = Ok n /\ Node.Kind n = Directory.
Proof. unfold is_dir, resolve. destruct (fs !! path) as [n|]; [|done]. intros K%bool_decide_eq_true. exists n. by rewrite K. Qed.

(** The system's own error, if any. *)
Definition os_failed {A} (r : res GoError.t A) : Prop := forall e, r = Err e -> os_error e.
Lemma os_failed_ok {A} (a : A) : os_failed (Ok a).
Proof. done. Qed.
Lemma os_failed_err {A} e : os_error e -> os_failed (A := A) (Err e).
Proof. by intros ? ? [= <-]. Qed.
Lemma os_failed_wrap {A} format args (r : res GoError.t A) : os_failed r -> os_failed (map_err (Errorf format args) r).
Proof. intros Hr. destruct r as [a|e]; [done|]. by apply os_failed_err, Errorf_os, Hr. Qed.
#[local] Hint Resolve os_failed_ok os_failed_err os_failed_wrap sys_error_os : core.

Lemma update_dir op path f (Q : res GoError.t unit -> Disk.t -> Prop) d :
  (forall n, Node.Kind (f n) = Node.Kind n) -> I (Disk.nodes d) -> is_dir (Disk.nodes d) path = true ->
  (forall r d', I (Disk.nodes d') -> os_failed r -> Q r d') -> always I (update op path f) Q d.
Proof.
  intros Hf HI Hd HQ. apply always_syscall; [done | intros; by apply HQ; auto|]. destruct (is_dir_resolved _ _ Hd) as (n & Hn & K).
  unfold res_bind. rewrite Hn. assert (I (<[path := f n]> (Disk.nodes d))) by (apply Idir; [done..|]; by rewrite Hf).
  split; [done | by apply HQ].
Qed.
Lemma ChownToTarget_dir path (Q : res GoError.t unit -> Disk.t -> Prop) d :
  I (Disk.nodes d) -> is_dir (Disk.nodes d) path = true -> (forall r d', I (Disk.nodes d') -> os_failed r -> Q r d') ->
  always I (ChownToTarget path) Q d.
Proof.
  intros HI Hd HQ. unfold ChownToTarget. destruct (negb _); [by apply always_ret; [|apply HQ]|].
  apply always_wrapf, update_dir; auto.
Qed.

Definition made_dir (path : string) (r : res GoError.t unit) (d' : Disk.t) : Prop :=
  I (Disk.nodes d') /\ (r = Ok tt -> is_dir (Disk.nodes d') path = true) /\ os_failed r.

Lemma Stat_sees path : sees (Stat path) (fun fs n => resolve fs path = Ok n).
Proof. eapply observes_mono; [apply Stat_observes|]. by intros fs [n|e] Hn a [= <-]. Qed.

Lemma Mkdir_made path perm (Q : res GoError.t unit -> Disk.t -> Prop) d :
  I (Disk.nodes d) -> (forall r d', made_dir path r d' -> Q r d') -> always I (Mkdir path perm) Q d.
Proof.
  intros Hk HQ. assert (forall e d', I (Disk.nodes d') -> os_error e -> Q (Err e) d') as He by (intros; apply HQ; repeat split; auto; done).
  apply always_syscall; [done | intros; by apply He; auto|]. destruct (negb _); [by apply He; auto|].
  destruct (Disk.nodes d !! path) eqn:E; [by apply He; auto|].
  split; [by apply Inew|]. apply HQ. split; cbn; [by apply Inew|]. split; [|done]. intros _. unfold is_dir. by rewrite lookup_insert_eq.
Qed.

Lemma mkdir_all_made depth path perm (Q : res GoError.t unit -> Disk.t -> Prop) d :
  I (Disk.nodes d) -> (forall r d', made_dir path r d' -> Q r d') -> always I (mkdir_all depth path perm) Q d.
Proof.
  revert path Q d. induction depth as [|depth IH]; intros path Q d Hk HQ; cbn [mkdir_all].
  all: assert (forall e d', I (Disk.nodes d') -> os_error e -> Q (Err e) d') as He by (intros; apply HQ; repeat split; auto; done).
  all: apply always_bind, always_catch; eapply always_sees; [apply Stat_sees | done | |].
  1, 3: intros n d1 Hd1 Hn; outcome; rewrite <- Hd1 in Hk, Hn; case_bool_decide as K; [apply always_ret | apply always_fail; auto]; [done|];
    apply HQ; (split_and!; [done | intros _; by eapply resolved_dir | done]).
  all: intros _ d1 Hd1; outcome; rewrite <- Hd1 in Hk; clear Hd1 d; apply always_bind.
  1: apply always_ret; [done|].
  2: apply always_when; [intros _; apply IH; [done|]; intros [[]|e] d2 (Hk2 & _ & Hos); [clear Hk d1|apply He; auto] | intros _; split; [done|]; rename d1 into d2, Hk into Hk2].
  all: apply always_bind, always_catch, Mkdir_made; [done|]; intros [[]|e'] d3 (Hk3 & Hd3 & Hos3); outcome.
  1, 3, 5: apply always_ret; [done|]; by apply HQ.
  all: apply always_bind, always_catch; eapply (always_sees _ _ (fun fs n => fs !! path = Some n)); [| done| |].
  1, 4, 7: apply observes_syscall; [done|]; intros _ fs; destruct (fs !! path); [congruence | done].
  all: intros x d4 Hd4; outcome; try (intros Hx); rewrite <- Hd4 in Hk3.
  2, 4, 6: apply always_fail; auto.
  all: case_bool_decide as K; [apply always_ret | apply always_fail; auto]; [done|]; apply HQ; (split_and!; [done | | done]); intros _;
    unfold is_dir; rewrite Hd4, Hx, K; done.
Qed.

Lemma make_dir_made path perm format args format' args' (Q : res GoError.t unit -> Disk.t -> Prop) d :
  I (Disk.nodes d) -> (forall r d', I (Disk.nodes d') -> os_failed r -> Q r d') ->
  always I (wrapf format args (MkdirAll path perm) ;;; wrapf format' args' (ChownToTarget path)) Q d.
Proof.
  intros Hk HQ. apply always_bind, always_wrapf, mkdir_all_made; [done|]. intros [[]|e] d2 (Hk2 & Hd2 & Hos); outcome.
  - apply always_wrapf, ChownToTarget_dir; auto.
  - apply HQ; [done|]. by apply (os_failed_wrap _ _ (Err e)).
Qed.
Lemma EnsureDir_made path (Q : res GoError.t unit -> Disk.t -> Prop) d :
  I (Disk.nodes d) -> (forall r d', I (Disk.nodes d') -> os_failed r -> Q r d') -> always I (EnsureDir path) Q d.
Proof.
  intros Hk HQ. unfold EnsureDir. apply always_bind, always_catch. eapply always_sees; [apply Stat_sees | done | |].
  - intros n d1 Hd1 _. outcome. rewrite <- Hd1 in Hk. apply always_ret; auto.
  - intros e d1 Hd1. outcome. rewrite <- Hd1 in Hk. by apply make_dir_made.
Qed.
Lemma EnsureDirSecure_made path (Q : res GoError.t unit -> Disk.t -> Prop) d :
  I (Disk.nodes d) -> (forall r d', I (Disk.nodes d') -> Q r d') -> always I (EnsureDirSecure path) Q d.
Proof.
  intros Hk HQ. unfold EnsureDirSecure. apply always_bind, always_catch. eapply always_sees; [apply Stat_sees | done | |].
  - intros n d1 Hd1 Hn. outcome. rewrite <- Hd1 in Hk, Hn. case_bool_decide as K; cbn [negb]; [|by apply always_fail; auto].
    apply always_when; [intros _|by auto]. apply always_wrapf, update_dir; auto. by eapply resolved_dir.
  - intros e d1 Hd1. outcome. rewrite <- Hd1 in Hk. destruct (is_errno ENOENT e); [|apply always_fail; auto]. apply make_dir_made; auto.
Qed.
End directories.

Section stage.
Context `{OS} `{DnsLib} `{WireLib} `{CryptoLib}.
Context (b : string) (nk np : Node.t) (k : DNSKEY.t) (p : list Z).
Context (Rk : Node.Kind nk = Regular) (Rp : Node.Kind np = Regular).
Context (Pk : ParseDNSKEYFromFile (Node.Data nk) = Ok k) (Pp : ParsePrivateKeyFromFile (Node.Data np) = Ok p).
Context (Cor : VerifyKeyPairCorrespondence k p = Ok tt).
Abbreviation kept := (kept b nk np).
Abbreviation safe := (safe b).

(** ** The keys directory *)

Lemma dir_safe fs path : kept fs -> is_dir fs path = true -> safe path.
Proof.
  intros [E1 E2] Hd. unfold is_dir in Hd. split; intros ->; [rewrite E1, Rk in Hd | rewrite E2, Rp in Hd]; done.
Qed.
Lemma EnsureDirSecure_kept path (Q : res GoError.t unit -> Disk.t -> Prop) d :
  kept (Disk.nodes d) -> (forall r d', kept (Disk.nodes d') -> Q r d') -> always kept (EnsureDirSecure path) Q d.
Proof.
  apply EnsureDirSecure_made; intros fs path' n Hk ? _; (apply kept_insert; [done|]); [by eapply safe_free | by eapply dir_safe].
Qed.

(** ** The slot *)

(** What a successful staging leaves. *)
Definition staged (domain keyType slot : string) (dnskey : DNSKEY.t) (r : res GoError.t string) (fs : Files) : Prop :=
  forall base, r = Ok base -> base = slot /\ exists k' p', verified_at fs slot domain keyType k' p' /\ samePublicKey k' dnskey = true.

Lemma prepare_slot_kept domain keyType tag slot dnskey (Q : res GoError.t bool -> Disk.t -> Prop) d :
  samePublicKey k dnskey = false -> kept (Disk.nodes d) ->
  (forall r d', kept (Disk.nodes d') ->
     (r = Ok true -> exists k' p', verified_at (Disk.nodes d') slot domain keyType k' p' /\ samePublicKey k' dnskey = true) ->
     (r = Ok false -> slot <> b) -> Q r d') ->
  always kept (prepare_slot domain keyType tag slot dnskey) Q d.
Proof.
  intros Hne Hk HQ. assert (forall e d', kept (Disk.nodes d') -> Q (Err e) d') as He by (intros; by apply HQ).
  unfold prepare_slot. apply always_bind. eapply always_sees; [apply pairFiles_sees | done | | intros e d1 Hd1; apply He; by rewrite Hd1].
  intros [keyExists privExists] d1 Hd1 [S1 _]. cbn [fst snd] in *. rewrite <- Hd1 in Hk, S1. clear Hd1 d.
  assert (slot = b -> keyExists = true) as Hslot.
  { intros ->. destruct Hk as [E _]. eapply stat_says_file; [|exact S1]. by exists nk. }
  assert (forall path reason d', slot <> b -> kept (Disk.nodes d') -> path = slot +:+ ".private" ->
    always kept (setAside path reason ;;; ret false) Q d') as Haside.
  { intros path reason d' Hb Hk' ->. apply always_bind, setAside_kept; [done..|by apply safe_private|].
    intros [?|e] d2 Hk2; outcome; [apply always_ret; [done|]; by apply HQ | by apply He]. }
  destruct keyExists.
  - apply always_bind, always_catch. eapply always_sees; [apply loadPublicKey_sees | done | |].
    2: { intros e d2 Hd2. outcome. apply always_fail; [by rewrite Hd2 | apply He; by rewrite Hd2]. }
    intros existing d2 Hd2 Hex. outcome. rewrite <- Hd2 in Hk, Hex. clear Hd2.
    destruct (samePublicKey existing dnskey) eqn:Es; cbn [negb]; [|apply always_fail; auto].
    assert (slot <> b) as Hb.
    { intros ->. apply (kept_pair b nk np k p) in Hk as [Hk _]; [|done..]. pose proof (key_at_inj _ _ _ _ Hk Hex). congruence. }
    destruct privExists; [|apply always_ret; [done|]; by apply HQ].
    apply always_bind, always_catch. eapply always_sees; [apply loadVerifiedPair_sees | done | |].
    + intros [k' p'] d3 Hd3 Hv. outcome. cbn [fst snd] in *. rewrite <- Hd3 in Hk, Hex, Hv.
      apply always_ret; [done|]. apply HQ; [done| |done]. intros _. exists k', p'. split; [done|].
      destruct Hv as [[Hk' _] _]. by rewrite <- (key_at_inj _ _ _ _ Hex Hk').
    + intros e d3 Hd3. outcome. apply Haside; [done | by rewrite Hd3 | done].
  - assert (slot <> b) as Hb by (intros E; by specialize (Hslot E)).
    destruct privExists; [by apply Haside | apply always_ret; [done|]; by apply HQ].
Qed.

Lemma write_generation_kept domain keyType tag slot dnskey privateKey (Q : res GoError.t unit -> Disk.t -> Prop) d :
  slot <> b -> kept (Disk.nodes d) -> (forall r d', kept (Disk.nodes d') -> Q r d') ->
  always kept (write_generation domain keyType tag slot dnskey privateKey) Q d.
Proof.
  intros Hb Hk HQ. unfold write_generation. apply always_bind.
  assert (forall (P : res GoError.t Time -> Disk.t -> Prop) d, kept (Disk.nodes d) -> (forall t d', kept (Disk.nodes d') -> P (Ok t) d') -> always kept TimeNow P d) as Hnow.
  { intros P d' Hk' HP. unfold always, TimeNow. split_and!; [by exists [] | done.. | by apply HP]. }
  apply Hnow; [done|]. intros t1 d1 Hk1. outcome. apply always_bind, Hnow; [done|]. intros t2 d2 Hk2. outcome.
  apply always_bind, always_wrapf. eapply always_sees; [apply of_res_observes | done | | intros e d3 Hd3; outcome; apply HQ; by rewrite Hd3].
  intros content d3 Hd3 _. outcome. rewrite <- Hd3 in Hk2.
  apply always_bind, always_wrapf, WriteFile_kept; [done..|by apply safe_private|]. intros [[]|e] d4 Hk4 _; outcome; [|by apply HQ].
  apply always_wrapf, WriteFile_kept; [done..|by apply safe_key|]. intros r d5 Hk5 _. by apply HQ.
Qed.

Lemma StageKeyPair_kept cfg domain keyType dnskey privateKey (Q : res GoError.t string -> Disk.t -> Prop) d :
  samePublicKey k dnskey = false -> kept (Disk.nodes d) ->
  (forall r d', kept (Disk.nodes d') ->
     staged domain keyType (taggedBase cfg domain keyType (KeyTagOf dnskey)) dnskey r (Disk.nodes d') -> Q r d') ->
  always kept (StageKeyPair cfg domain keyType dnskey privateKey) Q d.
Proof.
  intros Hne Hk HQ. assert (forall e d', kept (Disk.nodes d') -> Q (Err e) d') as He by (intros; by apply HQ). unfold StageKeyPair.
  apply always_bind, always_wrapf. eapply always_sees; [apply of_res_observes | done | | intros e d1 Hd1; outcome; apply He; by rewrite Hd1].
  intros [] d1 Hd1 _. outcome. rewrite <- Hd1 in Hk. clear Hd1.
  apply always_bind, always_wrapf. eapply always_sees; [apply of_res_observes | done | | intros e d2 Hd2; outcome; apply He; by rewrite Hd2].
  intros [] d2 Hd2 _. outcome. rewrite <- Hd2 in Hk. clear Hd2.
  apply always_bind, EnsureDirSecure_kept; [done|]. intros [[]|e] d3 Hk3; outcome; [|by apply He].
  set (slot := taggedBase cfg domain keyType (KeyTagOf dnskey)) in *.
  apply always_bind, prepare_slot_kept; [done..|]. intros [[]|e] d4 Hk4 Hthere Hfree; outcome; [| |by apply He].
  - apply always_ret; [done|]. apply HQ; [done|]. intros base [= <-]. split; [done|]. by apply Hthere.
  - apply always_bind, write_generation_kept; [by apply Hfree | done|]. intros [[]|e] d5 Hk5; outcome; [|by apply He].
    apply always_bind, always_wrapf. eapply always_sees; [apply loadVerifiedPair_sees | done | | intros e d6 Hd6; outcome; apply He; by rewrite Hd6].
    intros [k' p'] d6 Hd6 Hv. outcome. cbn [fst snd] in *. rewrite <- Hd6 in Hk5, Hv.
    destruct (samePublicKey k' dnskey) eqn:Es; cbn [negb orb]; [|apply always_fail; auto].
    destruct (negb _); [apply always_fail; auto|]. apply always_ret; [done|]. apply HQ; [done|].
    intros base [= <-]. split; [done|]. by exists k', p'.
Qed.
End stage.
