(* ===== verification/ProbeSound.v ===== *)
(** * ProbeSound: what a completed probe has seen

    [answered] is one authoritative answer of a server within a probe; [asked] is the
    outcome of asking one.  The probes are specified by the outcomes of all addresses. *)

From stdpp Require Import base list strings gmap pretty.
From Stdlib Require Import ZArith Lia Ascii Permutation.
From S2P Require Import Prelude GoTime Names Ip Egress Wire Authenticated Resolver Serial KeyMaterial ZoneModel Signatures ParentProbe.
Local Open Scope Z_scope.

(** ** Runs of the monad *)

Lemma catch_run {S E A} (m : St S E A) s : catch m s = (Ok (m s).1, (m s).2).
Proof. unfold catch. by destruct (m s). Qed.
Lemma bind_catch {S E A B} (m : St S E A) (k : res E A -> St S E B) s : bind (catch m) k s = k (m s).1 (m s).2.
Proof. unfold bind. by rewrite catch_run. Qed.

(** ** Sets of names *)

Lemma sort_by_perm {A} (key : A -> string) (l : list A) : sort_by key l ≡ₚ l.
Proof.
  induction l as [|x l IH]; [done|]. change (sort_by key (x :: l)) with (insert_by key x (sort_by key l)). rewrite <- IH at 2.
  generalize (sort_by key l). intros m. induction m as [|y m IHm]; cbn; [done|].
  destruct (string_leb (key x) (key y)); [done|]. rewrite IHm. by constructor.
Qed.
Lemma elem_of_sort_by {A} (key : A -> string) (l : list A) y : y ∈ sort_by key l <-> y ∈ l.
Proof. by rewrite sort_by_perm. Qed.
Lemma elem_of_dedupe (l : list string) seen x : x ∈ dedupe_by (fun s => s) seen l <-> x ∈ l /\ x ∉ seen.
Proof.
  revert seen. induction l as [|y l IH]; intros seen; cbn; [set_solver|].
  destruct (str_in seen y) eqn:E.
  - apply str_in_spec in E. rewrite IH. set_solver.
  - apply str_in_false in E. rewrite elem_of_cons, IH, elem_of_cons. destruct (decide (x = y)) as [->|]; set_solver.
Qed.
Lemma dedupe_NoDup (l : list string) seen : NoDup (dedupe_by (fun s => s) seen l).
Proof.
  revert seen. induction l as [|y l IH]; intros seen; cbn; [constructor|]. destruct (str_in seen y); [done|].
  constructor; [|done]. rewrite elem_of_dedupe. set_solver.
Qed.

Section probe.
Context `{DnsLib} `{Transport}.

(** ** One query *)

(** A server's reply to a query among the exchanges of a run: it echoes the question,
    and what came over UDP is whole. *)
Definition answered (lo hi : nat) (server : string) (q : QueryMsg.t) (msg : Msg.t) : Prop :=
  exists k tcp r, (lo <= k < hi)%nat /\ Exchange k tcp server q = Ok r /\ Reply.msg r = msg /\ checkQuestion r q = Ok tt /\
    (tcp = false -> Reply.Truncated r = false).
Definition authoritative (msg : Msg.t) : Prop := Msg.Rcode msg = RcodeSuccess /\ Msg.Authoritative msg = true.

Lemma answered_within lo hi lo' hi' server q msg :
  answered lo hi server q msg -> (lo' <= lo)%nat -> (hi <= hi')%nat -> answered lo' hi' server q msg.
Proof. intros (k & tcp & r & Hk & Hrest) ? ?. exists k, tcp, r. split; [lia | done]. Qed.

Lemma exchangeTC_run q server n :
  let '(r, n') := exchangeTC q server n in (n < n')%nat /\ forall msg, r = Ok msg -> answered n n' server q msg.
Proof.
  unfold exchangeTC, wrapping, bind, one_exchange, ret, fail.
  destruct (Exchange n false server q) as [r1|e] eqn:E1; [|split; [lia | done]].
  destruct (Reply.Truncated r1) eqn:Ht.
  - destruct (Exchange (S n) true server q) as [r2|e] eqn:E2; [|split; [lia | done]].
    destruct (checkQuestion r2 q) as [[]|] eqn:Ec; (split; [lia|]); intros msg [= <-].
    exists (S n), true, r2. split_and!; [lia | lia | done..].
  - destruct (checkQuestion r1 q) as [[]|] eqn:Ec; (split; [lia|]); intros msg [= <-].
    exists n, false, r1. split_and!; [lia | lia | done..].
Qed.

Lemma queryDirect_run server qname qtype n :
  let '(r, n') := queryDirect server qname qtype n in
  (n < n')%nat /\ forall msg, r = Ok msg -> answered n n' server (direct_query qname qtype) msg /\ authoritative msg.
Proof.
  unfold queryDirect, bind. pose proof (exchangeTC_run (direct_query qname qtype) server n) as Hx.
  destruct (exchangeTC (direct_query qname qtype) server n) as [[r|e] n']; destruct Hx as [Hn Hx]; [|done].
  destruct (Msg.Rcode r =? RcodeSuccess) eqn:Er; cbn; [|done].
  destruct (Msg.Authoritative r) eqn:Ea; cbn; [|done].
  split; [done|]. intros msg [= <-]. split; [by apply Hx|]. split; [lia | done].
Qed.

Definition recursive (checkingDisabled : bool) (qname : string) (qtype : Z) : QueryMsg.t :=
  QueryMsg.mk (Question.mk (Fqdn qname) qtype 1) true checkingDisabled false.
Lemma resolverQueryWithCD_run cd qname qtype n :
  let '(r, n') := resolverQueryWithCD cd qname qtype n in
  (n < n')%nat /\ forall msg, r = Ok msg -> answered n n' resolverAddr (recursive cd qname qtype) msg.
Proof.
  unfold resolverQueryWithCD, wrapping, bind. fold (recursive cd qname qtype).
  pose proof (exchangeTC_run (recursive cd qname qtype) resolverAddr n) as Hx.
  destruct (exchangeTC (recursive cd qname qtype) resolverAddr n) as [[r|e] n']; destruct Hx as [Hn Hx]; [|done].
  destruct (negb (Msg.Rcode r =? RcodeSuccess)); (split; [done|]); [done|]. intros msg [= <-]. by apply Hx.
Qed.

(** ** Discovery *)

Lemma collect_ns_NoDup rrs zone : NoDup (collect_ns rrs zone).
Proof. unfold collect_ns, sort_strings. rewrite sort_by_perm. apply dedupe_NoDup. Qed.
Lemma nsNamesOf_NoDup r zone : NoDup (nsNamesOf r zone).
Proof. unfold nsNamesOf. destruct (collect_ns (Msg.Answer r) zone) eqn:E; [apply collect_ns_NoDup|]. rewrite <- E. apply collect_ns_NoDup. Qed.

(** The addresses of one family of a nameserver: in-bailiwick glue, or the resolver's
    answer for that name. *)
Definition family_source (query : string -> Z -> Net Msg.t) (lo hi : nat) (zone name : string) (extra : list RR) (qtype : Z) (ips : list string) : Prop :=
  ips = glue zone name qtype extra /\ ips <> [] \/
  glue zone name qtype extra = [] /\ exists k k' msg, (lo <= k)%nat /\ (k' <= hi)%nat /\ query name qtype k = (Ok msg, k') /\ ips = addresses_at name qtype (Msg.Answer msg).
Definition target_source (query : string -> Z -> Net Msg.t) (lo hi : nat) (zone : string) (extra : list RR) (t : nsTarget.t) : Prop :=
  nsTarget.addrs t <> [] /\ exists v4 v6,
    family_source query lo hi zone (nsTarget.name t) extra TypeA v4 /\ family_source query lo hi zone (nsTarget.name t) extra TypeAAAA v6 /\
    forall a, a ∈ nsTarget.addrs t <-> exists ip, ip ∈ v4 ++ v6 /\ a = JoinHostPort ip authPort.

Section discovery.
Context (query : string -> Z -> Net Msg.t) (query_grows : forall name qtype n, (n <= (query name qtype n).2)%nat).

Lemma family_source_within lo hi lo' hi' zone name extra qtype ips :
  family_source query lo hi zone name extra qtype ips -> (lo' <= lo)%nat -> (hi <= hi')%nat -> family_source query lo' hi' zone name extra qtype ips.
Proof. intros [Hg|(Hg & k & k' & msg & Hrest)] ? ?; [by left|]. right. split; [done|]. exists k, k', msg. destruct Hrest as (? & ? & Hq & Hi). split_and!; [lia | lia | done..]. Qed.
Lemma target_source_within lo hi lo' hi' zone extra t :
  target_source query lo hi zone extra t -> (lo' <= lo)%nat -> (hi <= hi')%nat -> target_source query lo' hi' zone extra t.
Proof. intros (Hne & v4 & v6 & H4 & H6 & Ha) ? ?. split; [done|]. exists v4, v6. split_and!; [by eapply family_source_within.. | done]. Qed.

Lemma family_addresses_run zone name extra qtype n :
  let '(r, n') := family_addresses query zone name extra qtype n in
  (n <= n')%nat /\ forall ips, r = Ok ips -> family_source query n n' zone name extra qtype ips.
Proof.
  unfold family_addresses. destruct (glue zone name qtype extra) as [|ip ips] eqn:Eg.
  - unfold bind, wrapping. pose proof (query_grows name qtype n) as Hn. destruct (query name qtype n) as [[m|e] n'] eqn:Eq; cbn in *; (split; [done|]); [|done].
    intros ips [= <-]. right. split; [done|]. by exists n, n', m.
  - cbn. split; [done|]. intros ? [= <-]. left. by rewrite Eg.
Qed.

Lemma target_of_run zone extra name n :
  let '(r, n') := target_of query zone extra name n in
  (n <= n')%nat /\ forall t, r = Ok t -> nsTarget.name t = name /\ target_source query n n' zone extra t.
Proof.
  unfold target_of, bind.
  pose proof (family_addresses_run zone name extra TypeA n) as H4. destruct (family_addresses query zone name extra TypeA n) as [[v4|e] n1]; destruct H4 as [Hn1 H4]; [|done].
  pose proof (family_addresses_run zone name extra TypeAAAA n1) as H6. destruct (family_addresses query zone name extra TypeAAAA n1) as [[v6|e] n2]; destruct H6 as [Hn2 H6]; [|split; [lia | done]].
  destruct (dedupe_by (fun s => s) [] (map (fun ip => JoinHostPort ip authPort) (v4 ++ v6))) as [|a l] eqn:Ed; (split; [cbn; lia|]); [done|].
  intros t [= <-]. split; [done|].
  assert (Ha : forall x, x ∈ sort_strings (a :: l) <-> exists ip, ip ∈ v4 ++ v6 /\ x = JoinHostPort ip authPort).
  { intros x. unfold sort_strings. rewrite elem_of_sort_by, <- Ed, elem_of_dedupe, list_elem_of_fmap. set_solver. }
  split; [|exists v4, v6]. { intros E. change (sort_strings (a :: l) = []) in E. assert (Hin : a ∈ sort_strings (a :: l)) by (apply elem_of_sort_by; set_solver). rewrite E in Hin. set_solver. }
  split_and!; [eapply family_source_within; [by apply H4 | done | lia] | eapply family_source_within; [by apply H6 | lia | done] | exact Ha].
Qed.

Lemma targets_of_run zone extra names n :
  let '(r, n') := targets_of query zone extra names n in
  (n <= n')%nat /\ forall ts, r = Ok ts -> map nsTarget.name ts = names /\ Forall (target_source query n n' zone extra) ts.
Proof.
  revert n. induction names as [|name names IH]; intros n; cbn [targets_of].
  - split; [done|]. intros ts [= <-]. split; [done | constructor].
  - unfold bind. pose proof (target_of_run zone extra name n) as Ht. destruct (target_of query zone extra name n) as [[t|e] n1]; destruct Ht as [Hn1 Ht]; [|done].
    specialize (IH n1). destruct (targets_of query zone extra names n1) as [[ts|e] n2]; destruct IH as [Hn2 IH]; [|split; [lia | done]].
    cbn. split; [lia|]. intros ? [= <-]. destruct (IH ts eq_refl) as [Hnames Hts]. destruct (Ht t eq_refl) as [Hname Hsrc]. split; [cbn; by rewrite Hname, Hnames|].
    constructor; [by eapply target_source_within|]. eapply Forall_impl; [exact Hts|]. intros t' Ht'. eapply target_source_within; [exact Ht' | lia | done].
Qed.

(** The delegation as discovered: the identities are the names of the NS RRset. *)
Definition delegation (lo hi : nat) (zone : string) (targets : list nsTarget.t) : Prop := exists k k' msg,
  (lo <= k)%nat /\ (k' <= hi)%nat /\ query zone TypeNS k = (Ok msg, k') /\
  map nsTarget.name targets = nsNamesOf msg zone /\ targets <> [] /\ Forall (target_source query lo hi zone (Msg.Extra msg)) targets.

Lemma discoverNSWith_run zone n :
  let '(r, n') := discoverNSWith zone query n in (n <= n')%nat /\ forall targets, r = Ok targets -> delegation n n' (Fqdn zone) targets.
Proof.
  unfold discoverNSWith, bind, wrapping. pose proof (query_grows (Fqdn zone) TypeNS n) as Hn.
  destruct (query (Fqdn zone) TypeNS n) as [[m|e] n1] eqn:Eq; [|done]. cbn in Hn.
  destruct (nsNamesOf m (Fqdn zone)) as [|name names] eqn:En; [done|].
  pose proof (targets_of_run (Fqdn zone) (Msg.Extra m) (name :: names) n1) as Ht.
  destruct (targets_of query (Fqdn zone) (Msg.Extra m) (name :: names) n1) as [r n2]. destruct Ht as [Hn2 Ht]. split; [lia|].
  intros targets ->. destruct (Ht targets eq_refl) as [Hnames Hts]. exists n, n1, m. split_and!; [done | lia | done | by rewrite Hnames | by destruct targets |].
  eapply Forall_impl; [exact Hts|]. intros t Hsrc. eapply target_source_within; [exact Hsrc | lia | done].
Qed.
End discovery.

Lemma delegation_within query lo hi lo' hi' zone targets :
  delegation query lo hi zone targets -> (lo' <= lo)%nat -> (hi <= hi')%nat -> delegation query lo' hi' zone targets.
Proof.
  intros (k & k' & msg & Hk & Hk' & Hq & Hn & Hne & Ht) ? ?. exists k, k', msg. split_and!; [lia | lia | done..|].
  eapply Forall_impl; [exact Ht|]. intros t Hsrc. by eapply target_source_within.
Qed.
Lemma delegation_names query lo hi zone targets : delegation query lo hi zone targets -> NoDup (map nsTarget.name targets).
Proof. intros (k & k' & msg & _ & _ & _ & Hn & _). rewrite Hn. apply nsNamesOf_NoDup. Qed.
Lemma resolver_grows cd name qtype n : (n <= (resolverQueryWithCD cd name qtype n).2)%nat.
Proof. pose proof (resolverQueryWithCD_run cd name qtype n) as Hr. destruct (resolverQueryWithCD cd name qtype n). cbn. lia. Qed.

(** ** Asking every address *)

Definition asked (lo hi : nat) (server qname : string) (qtype : Z) (o : res NetError.t Msg.t) : Prop :=
  exists k k', (lo <= k)%nat /\ (k' <= hi)%nat /\ queryDirect server qname qtype k = (o, k').
Lemma asked_ok lo hi server qname qtype msg :
  asked lo hi server qname qtype (Ok msg) -> answered lo hi server (direct_query qname qtype) msg /\ authoritative msg.
Proof.
  intros (k & k' & Hk & Hk' & Hq). pose proof (queryDirect_run server qname qtype k) as Hr. rewrite Hq in Hr.
  destruct Hr as [_ Hr]. destruct (Hr msg eq_refl) as [Ha Hau]. split; [by eapply answered_within | done].
Qed.

Lemma ask_each_run addrs qname qtype n : exists outcomes n',
  ask_each addrs qname qtype n = (Ok outcomes, n') /\ (n <= n')%nat /\ map fst outcomes = addrs /\
  Forall (fun o => asked n n' o.1 qname qtype o.2) outcomes.
Proof.
  revert n. induction addrs as [|server addrs IH]; intros n; cbn [ask_each]; [by exists [], n|].
  rewrite bind_catch. pose proof (queryDirect_run server qname qtype n) as Hq. destruct (queryDirect server qname qtype n) as [r n1] eqn:Eq.
  destruct Hq as [Hn1 _]. destruct (IH n1) as (os & n2 & Hos & Hn2 & Hfst & Hall). exists ((server, r) :: os), n2.
  cbn [fst snd]. unfold bind at 1. rewrite Hos. split_and!; [done | lia | cbn; by rewrite Hfst|]. constructor; [by exists n, n1; repeat split; [| lia |]|].
  eapply Forall_impl; [exact Hall|]. intros o (k & k' & Hk & Hk' & Hrun). exists k, k'. split_and!; [lia | lia | done].
Qed.

Lemma outcome_at_elem outcomes server o : NoDup (map fst outcomes) -> outcome_at outcomes server = Some o <-> (server, o) ∈ outcomes.
Proof.
  intros Hnd. unfold outcome_at. induction outcomes as [|[s r] l IH]; cbn; [set_solver|]. apply NoDup_cons in Hnd as [Hs Hnd].
  destruct (String.eqb_spec s server) as [->|Hne].
  - rewrite elem_of_cons. split; [intros [= <-]; by left|]. intros [[= ->]|Hin]; [done|]. destruct Hs. apply list_elem_of_fmap. by exists (server, o).
  - rewrite IH by done. rewrite elem_of_cons. split; [by right|]. intros [[= <-]|?]; [done | done].
Qed.

(** ** One identity *)

(** An outcome that does not fail the probe by itself. *)
Definition tolerable (o : option (res NetError.t Msg.t)) : Prop :=
  match o with Some (Ok _) => True | Some (Err err) => isLocalRouteError err = true | None => False end.
Definition replied (o : option (res NetError.t Msg.t)) : Prop := match o with Some (Ok _) => True | _ => False end.

Lemma judge_addrs_spec outcomes names addrs b u :
  match judge_addrs outcomes names addrs b u with
  | Ok (b', _) => Forall (fun a => tolerable (outcome_at outcomes a)) addrs /\ (b' = true <-> b = true \/ exists a, a ∈ addrs /\ replied (outcome_at outcomes a))
  | Err _ => ~ Forall (fun a => tolerable (outcome_at outcomes a)) addrs
  end.
Proof.
  revert b u. induction addrs as [|a addrs IH]; intros b u; cbn [judge_addrs].
  { split; [constructor|]. split; [by left|]. intros [?|(? & Hin & _)]; [done | set_solver]. }
  destruct (outcome_at outcomes a) as [[m|err]|] eqn:Ea.
  - specialize (IH true u). destruct (judge_addrs outcomes names addrs true u) as [[b' u']|e].
    + destruct IH as [Hall Hb]. split; [constructor; [by rewrite Ea | done]|]. rewrite Hb. split; [|by left].
      intros _. right. exists a. rewrite Ea. split; [set_solver | done].
    + intros Hall. by apply Forall_cons in Hall as [_ ?].
  - destruct (isLocalRouteError err) eqn:El; cbn [negb]; [|intros Hall; apply Forall_cons in Hall as [Ht _]; rewrite Ea in Ht; cbn in Ht; congruence].
    match goal with |- context [judge_addrs _ _ _ _ ?u0] => specialize (IH b u0); destruct (judge_addrs outcomes names addrs b u0) as [[b' u']|e] end.
    + destruct IH as [Hall Hb]. split; [constructor; [by rewrite Ea | done]|]. rewrite Hb. apply or_iff_compat_l.
      split; intros (x & Hx & Hr); exists x; (split; [|done]); [set_solver|]. apply elem_of_cons in Hx as [->|Hx]; [by rewrite Ea in Hr | done].
    + intros Hall. by apply Forall_cons in Hall as [_ ?].
  - intros Hall. apply Forall_cons in Hall as [Ht _]. by rewrite Ea in Ht.
Qed.

(** Every address of an identity replied or has no route, and one replied. *)
Definition accounted (outcomes : list (string * res NetError.t Msg.t)) (addrs : list string) : Prop :=
  Forall (fun a => tolerable (outcome_at outcomes a)) addrs /\ exists a, a ∈ addrs /\ replied (outcome_at outcomes a).

Lemma judge_target_ok outcomes names addrs name : judge_target outcomes names addrs name = Ok tt <-> accounted outcomes addrs.
Proof.
  unfold judge_target, accounted. pose proof (judge_addrs_spec outcomes names addrs false None) as Hs.
  destruct (judge_addrs outcomes names addrs false None) as [[b u]|e]; cbn; [|naive_solver].
  destruct Hs as [Hall Hb]. split.
  - destruct b; [|by destruct u]. intros _. destruct Hb as [Hb _]. destruct (Hb eq_refl) as [?|?]; done.
  - intros [_ Hex]. destruct Hb as [_ Hb]. by rewrite Hb by (by right).
Qed.

Lemma by_name_elem targets t : NoDup (map nsTarget.name targets) -> t ∈ targets -> by_name targets !! nsTarget.name t = Some (nsTarget.addrs t).
Proof.
  unfold by_name. rewrite <- fold_left_rev_right. intros Hnd Hin.
  assert (Hin' : t ∈ rev targets) by (apply list_elem_of_In, in_rev; rewrite rev_involutive; by apply list_elem_of_In).
  assert (Hnd' : NoDup (map nsTarget.name (rev targets))) by (rewrite map_rev; by apply NoDup_ListNoDup, NoDup_rev, NoDup_ListNoDup).
  clear Hnd Hin. induction (rev targets) as [|t' l IH]; [set_solver|]. cbn. apply NoDup_cons in Hnd' as [Hn Hnd'].
  apply elem_of_cons in Hin' as [->|Hin]; [apply lookup_insert_eq|]. rewrite lookup_insert_ne; [by apply IH|].
  intros E. apply Hn. rewrite E. apply list_elem_of_fmap. by exists t.
Qed.

Lemma judge_targets_ok outcomes all targets :
  NoDup (map nsTarget.name all) -> targets ⊆ all -> judge_targets outcomes all targets = Ok tt <-> Forall (fun t => accounted outcomes (nsTarget.addrs t)) targets.
Proof.
  intros Hnd. induction targets as [|t targets IH]; intros Hsub; cbn [judge_targets]; [done|].
  rewrite by_name_elem by set_solver. cbn [default]. unfold id. rewrite Forall_cons, <- (judge_target_ok outcomes (names_of all) _ (nsTarget.name t)).
  destruct (judge_target outcomes (names_of all) (nsTarget.addrs t) (nsTarget.name t)) as [[]|e]; cbn [res_bind]; [|split; [done | by intros [? _]]].
  rewrite IH by set_solver. split; [done | by intros [_ ?]].
Qed.

Lemma elem_of_flat_addrs targets a : a ∈ flat_addrs targets <-> exists t, t ∈ targets /\ a ∈ nsTarget.addrs t.
Proof.
  unfold flat_addrs, sort_strings. rewrite elem_of_sort_by, elem_of_dedupe, list_elem_of_In, in_concat. split.
  - intros [(l & Hl & Ha) _]. apply in_map_iff in Hl as (t & <- & Ht). exists t. split; by apply list_elem_of_In.
  - intros (t & Ht & Ha). split; [|set_solver]. exists (nsTarget.addrs t). split; [by apply in_map, list_elem_of_In | by apply list_elem_of_In].
Qed.
Lemma flat_addrs_NoDup targets : NoDup (flat_addrs targets).
Proof. unfold flat_addrs. unfold sort_strings. rewrite sort_by_perm. apply dedupe_NoDup. Qed.

Definition replies (outcomes : list (string * res NetError.t Msg.t)) : list answeredServer.t :=
  omap (fun o => match o.2 with Ok msg => Some (answeredServer.mk o.1 msg) | Err _ => None end) outcomes.
Definition silent (outcomes : list (string * res NetError.t Msg.t)) : list string :=
  omap (fun o => match o.2 with Ok _ => None | Err _ => Some o.1 end) outcomes.
Lemma elem_of_replies outcomes a : a ∈ replies outcomes <-> (answeredServer.server a, Ok (answeredServer.msg a)) ∈ outcomes.
Proof.
  unfold replies. rewrite list_elem_of_omap. split.
  - intros ([s [m|e]] & Hin & [= <-]). done.
  - intros Hin. eexists. split; [exact Hin|]. by destruct a.
Qed.
Lemma elem_of_silent outcomes s : s ∈ silent outcomes <-> exists e, (s, Err e) ∈ outcomes.
Proof.
  unfold silent. rewrite list_elem_of_omap. split.
  - intros ([s' [m|e]] & Hin & [= <-]). by exists e.
  - intros (e & Hin). by exists (s, Err e).
Qed.

(** What a probe is, over the outcomes of all its addresses. *)
Lemma probeIdentities_run targets qname qtype n :
  NoDup (map nsTarget.name targets) -> exists outcomes n' r,
    probeIdentities targets qname qtype n = (Ok r, n') /\ (n <= n')%nat /\
    map fst outcomes = flat_addrs targets /\ Forall (fun o => asked n n' o.1 qname qtype o.2) outcomes /\
    ((r = Ok (replies outcomes, silent outcomes) /\ Forall (fun t => accounted outcomes (nsTarget.addrs t)) targets) \/
     (is_ok r = false /\ ~ Forall (fun t => accounted outcomes (nsTarget.addrs t)) targets)).
Proof.
  intros Hnd. unfold probeIdentities. destruct (ask_each_run (flat_addrs targets) qname qtype n) as (os & n' & Hrun & Hn & Hfst & Hall).
  exists os, n'. unfold bind. rewrite Hrun. pose proof (judge_targets_ok os targets targets Hnd ltac:(set_solver)) as Hj.
  destruct (judge_targets os targets targets) as [[]|e]; cbn; (eexists; split_and!; [done..|]).
  - left. split; [done | by apply Hj].
  - right. split; [done|]. intros Hacc. apply Hj in Hacc. done.
Qed.

(** ** What a completed probe has seen *)

(** Every identity is accounted for: the answers are authoritative ones of its servers,
    one at least per nameserver, and an address without an answer has no local route. *)
Definition full_view (lo hi : nat) (qname : string) (qtype : Z) (targets : list nsTarget.t) (answers : list answeredServer.t) (skipped : list string) : Prop :=
  Forall (fun a => answered lo hi (answeredServer.server a) (direct_query qname qtype) (answeredServer.msg a) /\ authoritative (answeredServer.msg a)) answers /\
  Forall (fun s => exists err, asked lo hi s qname qtype (Err err) /\ isLocalRouteError err = true) skipped /\
  forall t, t ∈ targets ->
    (exists a, a ∈ nsTarget.addrs t /\ a ∈ map answeredServer.server answers) /\
    forall a, a ∈ nsTarget.addrs t -> a ∈ map answeredServer.server answers \/ a ∈ skipped.

Lemma probeIdentities_ok targets qname qtype n answers skipped n' :
  NoDup (map nsTarget.name targets) -> probeIdentities targets qname qtype n = (Ok (Ok (answers, skipped)), n') ->
  (n <= n')%nat /\ full_view n n' qname qtype targets answers skipped.
Proof.
  intros Hnd Hrun. destruct (probeIdentities_run targets qname qtype n Hnd) as (os & n1 & r & Hrun' & Hn & Hfst & Hall & Hr).
  rewrite Hrun in Hrun'. injection Hrun' as <- <-. destruct Hr as [[[= -> ->] Hacc]|[? _]]; [|done].
  rewrite Forall_forall in Hall. rewrite Forall_forall in Hacc. assert (Hnd' : NoDup (map fst os)) by (rewrite Hfst; apply flat_addrs_NoDup).
  split; [done|]. split_and!.
  - apply Forall_forall. intros a Ha. apply elem_of_replies in Ha. apply asked_ok. by apply (Hall _ Ha).
  - apply Forall_forall. intros s Hs. apply elem_of_silent in Hs as (err & Hs). exists err. split; [by apply (Hall _ Hs)|].
    assert (Hf : s ∈ map fst os) by (apply list_elem_of_fmap; by exists (s, Err err)).
    rewrite Hfst in Hf. apply elem_of_flat_addrs in Hf as (t & Ht & Hst). destruct (Hacc t Ht) as [Htol _].
    rewrite Forall_forall in Htol. specialize (Htol s Hst). apply (outcome_at_elem os s (Err err) Hnd') in Hs. by rewrite Hs in Htol.
  - intros t Ht. destruct (Hacc t Ht) as [Htol (a & Ha & Hr)]. rewrite Forall_forall in Htol.
    assert (Hans : forall x m, outcome_at os x = Some (Ok m) -> x ∈ map answeredServer.server (replies os)).
    { intros x m Hx. apply outcome_at_elem in Hx; [|done]. apply list_elem_of_fmap. exists (answeredServer.mk x m). split; [done|]. by apply elem_of_replies. }
    split.
    + exists a. split; [done|]. destruct (outcome_at os a) as [[m|e]|] eqn:E; [|done..]. by eapply Hans.
    + intros x Hx. specialize (Htol x Hx). destruct (outcome_at os x) as [[m|e]|] eqn:E; [left; by eapply Hans| |done].
      right. apply elem_of_silent. exists e. by apply outcome_at_elem in E.
Qed.

Lemma full_view_within lo hi lo' hi' qname qtype targets answers skipped :
  full_view lo hi qname qtype targets answers skipped -> (lo' <= lo)%nat -> (hi <= hi')%nat -> full_view lo' hi' qname qtype targets answers skipped.
Proof.
  intros (Ha & Hs & Ht) ? ?. split_and!; [| |done].
  - eapply Forall_impl; [exact Ha|]. intros a [? ?]. split; [by eapply answered_within | done].
  - eapply Forall_impl; [exact Hs|]. intros s (err & (k & k' & ? & ? & Hq) & Hr). exists err. split; [|done]. exists k, k'. split_and!; [lia | lia | done].
Qed.
End probe.
