(* ===== verification/KeyFilesLive.v ===== *)
(** * KeyFilesLive: activation and recovery of the live pair

    What [ActivateKeyPair] and [EnsureLiveKey] guarantee at every state they go
    through, and what their success means. *)

From stdpp Require Import base list strings gmap pretty.
From Stdlib Require Import ZArith Lia Ascii.
From S2P Require Import Prelude Paths GoTime Config ZoneState FileSys KeyOps Names Digests Wire Serial KeyMaterial Signatures KeyFiles FileSysSound KeyFilesSound.
Local Open Scope Z_scope.

(** ** The names of the slots *)

Lemma string_last (s : string) : s <> "" -> exists t c, s = t +:+ String c "" /\ c ∈ String.list_ascii_of_string s.
Proof.
  induction s as [|x s IH]; [done|]. intros _. destruct s as [|y s]; [exists "", x; split; [done | by left]|].
  destruct IH as (t & c & E & Hc); [done|]. exists (String x t), c. split; [by rewrite E | by right].
Qed.

Lemma pretty_N_go_nonempty x s : s <> "" -> pretty_N_go x s <> "".
Proof.
  revert s. induction (N.lt_wf_0 x) as [x _ IH]; intros s Hs. destruct (decide (0 < x)%N) as [Hx|Hx].
  - rewrite pretty_N_go_step by done. apply IH; [by apply N.div_lt | done].
  - assert (x = 0)%N as -> by lia. by rewrite pretty_N_go_0.
Qed.
Lemma pretty_nonempty (z : Z) : pretty z <> "".
Proof.
  assert (forall q, pretty (N.pos q) <> "") as Hp.
  { intros q. unfold pretty, pretty_N. rewrite decide_False by done. rewrite pretty_N_go_step by done. by apply pretty_N_go_nonempty. }
  unfold pretty, pretty_Z. destruct z; [done | apply Hp | done].
Qed.
Lemma pretty_last (z : Z) : exists t c, pretty z = t +:+ String c "" /\ decimal_byte c.
Proof.
  destruct (string_last (pretty z) (pretty_nonempty z)) as (t & c & E & Hc).
  exists t, c. split; [done|]. pose proof (pretty_decimal z) as Hd. rewrite Forall_forall in Hd. by apply Hd.
Qed.

(** The names of a role, and the end of the slots' names. *)
Definition role_ext (keyType : string) : Prop := keyType = "ksk" \/ keyType = "zsk".

Lemma liveBase_end cfg domain keyType : role_ext keyType -> exists q, liveBase cfg domain keyType = q +:+ "k".
Proof.
  intros Hr. unfold liveBase.
  destruct (JoinPath_end (KeysDir cfg) domain ("." +:+ keyType)) as [q ->].
  { destruct Hr as [->| ->]; (split; [by apply (bool_decide_unpack _) | by apply Nat.leb_le]). }
  destruct Hr as [->| ->]; [exists (q +:+ ".ks") | exists (q +:+ ".zs")]; by rewrite string_app_assoc.
Qed.
Lemma taggedBase_end cfg domain keyType tag : role_ext keyType -> exists q c, taggedBase cfg domain keyType tag = q +:+ String c "" /\ decimal_byte c.
Proof.
  intros Hr. unfold taggedBase.
  destruct (JoinPath_end (KeysDir cfg) domain ("." +:+ keyType +:+ "." +:+ pretty tag)) as [q ->].
  { split.
    - rewrite !free_of_app. split_and!; [by apply (bool_decide_unpack _) | destruct Hr as [->| ->]; by apply (bool_decide_unpack _)
        | by apply (bool_decide_unpack _) | apply pretty_free; [done|]]. intros x. unfold pretty_N_char. by repeat case_match.
    - rewrite !string_length_app. destruct Hr as [->| ->]; cbn [String.length]; lia. }
  destruct (pretty_last tag) as (t & c & -> & Hc). exists (q +:+ "." +:+ keyType +:+ "." +:+ t), c.
  split; [by rewrite !string_app_assoc | done].
Qed.
Lemma tagged_not_live cfg domain keyType tag domain' keyType' :
  role_ext keyType -> role_ext keyType' -> taggedBase cfg domain keyType tag <> liveBase cfg domain' keyType'.
Proof.
  intros Hr Hr' E. destruct (liveBase_end cfg domain' keyType' Hr') as [q Hq].
  destruct (taggedBase_end cfg domain keyType tag Hr) as (q' & c & Hq' & Hc). rewrite Hq, Hq' in E.
  apply app_inj_length in E as [_ E]; [|done]. injection E as ->. destruct Hc as [Hc|[x Hc]]; [done|].
  unfold pretty_N_char in Hc. by repeat case_match.
Qed.

Section live.
Context `{OS} `{DnsLib} `{WireLib} `{CryptoLib}.

Lemma admitted_role k domain keyType : validateLoadedKey k domain keyType = Ok tt -> role_ext keyType.
Proof.
  unfold validateLoadedKey, res_bind, role_ext. destruct (negb _); [ok_only|].
  destruct (String.eqb_spec keyType "ksk") as [->|_]; [by left|]. destruct (String.eqb_spec keyType "zsk") as [->|_]; [by right | ok_only].
Qed.

(** A pair with its nodes. *)
Lemma pair_nodes fs base k p : pair_at fs base k p -> exists nk np,
  Node.Kind nk = Regular /\ Node.Kind np = Regular /\ ParseDNSKEYFromFile (Node.Data nk) = Ok k /\
  ParsePrivateKeyFromFile (Node.Data np) = Ok p /\ VerifyKeyPairCorrespondence k p = Ok tt /\ kept base nk np fs.
Proof. intros ((dk & (nk & Hnk & Kk & <-) & Pk) & (dp & (np & Hnp & Kp & <-) & Pp) & Hc). by exists nk, np. Qed.

(** The key [k] can be loaded from some pair of files. *)
Definition retained (k : DNSKEY.t) (fs : Files) : Prop := exists base k' p', pair_at fs base k' p' /\ samePublicKey k' k = true.

Lemma retained_pair fs base k p : pair_at fs base k p -> retained k fs.
Proof. intros Hp. exists base, k, p. split; [done | apply samePublicKey_refl]. Qed.

(** What success of an activation means. *)
Definition activated (cfg : Config) (domain keyType : string) (tag : Z) (fs0 fs : Files) : Prop :=
  exists k0 p0 k p, verified_at fs0 (taggedBase cfg domain keyType tag) domain keyType k0 p0 /\ KeyTagOf k0 = tag /\
    verified_at fs (liveBase cfg domain keyType) domain keyType k p /\ samePublicKey k k0 = true.

(** The last steps of an activation, from a state in which another pair [b] is kept. *)
Lemma activate_tail_kept cfg domain keyType tag b nk np k0 p0 I (Q : res GoError.t unit -> Disk.t -> Prop) fs0 d :
  let staged := taggedBase cfg domain keyType tag in let live := liveBase cfg domain keyType in
  b <> live -> kept b nk np (Disk.nodes d) -> (forall fs, kept b nk np fs -> I fs) ->
  verified_at fs0 staged domain keyType k0 p0 -> KeyTagOf k0 = tag ->
  (forall r d', I (Disk.nodes d') -> (r = Ok tt -> activated cfg domain keyType tag fs0 (Disk.nodes d')) -> Q r d') ->
  always I (copy_visible (staged +:+ ".private") (live +:+ ".private") "activating %s private key for %s: %w" [keyType; domain] ;;;
      copy_visible (staged +:+ ".key") (live +:+ ".key") "activating %s public key for %s: %w" [keyType; domain] ;;;
      now <-- wrapf "live %s key for %s does not verify after activation: %w" [keyType; domain] (loadVerifiedPair live domain keyType) ;;
      if negb (samePublicKey now.1 k0) then
        fail (errorf "live %s key for %s does not match the activated generation %d" [keyType; domain; pretty tag])
      else ret tt) Q d.
Proof.
  intros staged live Hb Hk HI Hv Htag HQ. apply (always_mono (kept b nk np) _ _ Q); [|exact HI | done].
  apply always_bind, copy_visible_kept; [done | apply safe_private; congruence|].
  intros [[]|e] d1 Hk1; outcome; [|by apply HQ; [apply HI|]].
  apply always_bind, copy_visible_kept; [done | apply safe_key; congruence|].
  intros [[]|e] d2 Hk2; outcome; [|by apply HQ; [apply HI|]].
  apply always_bind, always_wrapf. eapply always_sees; [apply loadVerifiedPair_sees | done | |].
  - intros [k p] d3 Hd3 Hl. outcome. cbn [fst snd] in *. rewrite <- Hd3 in Hk2, Hl.
    destruct (samePublicKey k k0) eqn:E; cbn [negb]; [apply always_ret | apply always_fail]; try done; apply HQ; auto; [|done].
    intros _. by exists k0, p0, k, p.
  - intros e d3 Hd3. outcome. apply HQ; [apply HI; by rewrite Hd3 | done].
Qed.

(** An activation keeps what a pair beside the live one gives, once preserving the live
    pair has left such a pair. *)
Lemma activate_always cfg domain keyType tag I (Q : res GoError.t unit -> Disk.t -> Prop) d :
  let live := liveBase cfg domain keyType in
  I (Disk.nodes d) ->
  (forall d0, role_ext keyType -> Disk.nodes d0 = Disk.nodes d ->
     always I (preserveLivePair cfg domain keyType) (fun r d1 => r = Ok tt ->
       exists b nk np, b <> live /\ kept b nk np (Disk.nodes d1) /\ forall fs, kept b nk np fs -> I fs) d0) ->
  (forall r d', I (Disk.nodes d') -> (r = Ok tt -> activated cfg domain keyType tag (Disk.nodes d) (Disk.nodes d')) -> Q r d') ->
  always I (ActivateKeyPair cfg domain keyType tag) Q d.
Proof.
  intros live HI Hpres HQ. unfold ActivateKeyPair. set (fs0 := Disk.nodes d) in *.
  assert (forall e d', I (Disk.nodes d') -> Q (Err e) d') as He by (intros; by apply HQ).
  apply always_bind, always_wrapf. eapply always_sees; [apply loadVerifiedPair_sees | done | |].
  2: { intros e d1 Hd1. outcome. apply He. by rewrite Hd1. }
  intros [k0 p0] d1 Hd1 Hv. outcome. cbn [fst snd] in *. fold fs0 in Hd1, Hv.
  pose proof (admitted_role _ _ _ (proj2 Hv)) as Hrole.
  destruct (KeyTagOf k0 =? tag) eqn:Et; cbn [negb]; [apply Z.eqb_eq in Et | apply always_fail; [by rewrite Hd1 | apply He; by rewrite Hd1]].
  apply always_bind, always_catch. eapply always_sees; [apply loadVerifiedPair_sees | by rewrite Hd1 | |].
  - intros [kl pl] d2 Hd2 Hl. outcome. cbn [fst snd] in *. rewrite Hd1 in Hd2, Hl. destruct (samePublicKey kl k0) eqn:Es.
    + apply always_ret; [by rewrite Hd2|]. apply HQ; [by rewrite Hd2|]. intros _. rewrite Hd2. by exists k0, p0, kl, pl.
    + apply always_bind, always_wrapf. eapply always_post; [by apply Hpres|]. intros [[]|e] d3 HI3 Hp3; outcome; [|by apply He].
      destruct (Hp3 eq_refl) as (b & nk & np & Hb & Hk & HkI). by eapply activate_tail_kept.
  - intros e d2 Hd2. outcome. rewrite Hd1 in Hd2.
    apply always_bind, always_wrapf. eapply always_post; [by apply Hpres|]. intros [[]|e'] d3 HI3 Hp3; outcome; [|by apply He].
    destruct (Hp3 eq_refl) as (b & nk & np & Hb & Hk & HkI). by eapply activate_tail_kept.
Qed.

(** A pair that is not the live one is not touched. *)
Lemma ActivateKeyPair_other cfg domain keyType tag b k p d fs0 :
  b <> liveBase cfg domain keyType -> pair_at fs0 b k p -> Disk.nodes d = fs0 ->
  exists nk np, kept b nk np fs0 /\ always (kept b nk np) (ActivateKeyPair cfg domain keyType tag)
    (fun r d' => r = Ok tt -> activated cfg domain keyType tag fs0 (Disk.nodes d')) d.
Proof.
  intros Hb (nk & np & Rk & Rp & Pk & Pp & Hc & Hkept)%pair_nodes <-. exists nk, np. split; [done|].
  apply activate_always; [done| |done]. intros d0 Hrole Hd0.
  apply (preserveLivePair_kept b nk np k p Rk Rp Pk Pp Hc); [intros t; by apply tagged_not_live | by rewrite Hd0|].
  intros r d' Hk' _ _. by exists b, nk, np.
Qed.

(** Whatever the activation does, a key that could be loaded can be loaded. *)
Lemma ActivateKeyPair_retains cfg domain keyType tag k d :
  retained k (Disk.nodes d) ->
  always (retained k) (ActivateKeyPair cfg domain keyType tag)
    (fun r d' => r = Ok tt -> activated cfg domain keyType tag (Disk.nodes d) (Disk.nodes d')) d.
Proof.
  intros (b & kb & p & Hpair & Hsame). destruct (decide (b = liveBase cfg domain keyType)) as [->|Hb].
  - pose proof Hpair as (nk & np & Rk & Rp & Pk & Pp & Hc & Hkept)%pair_nodes.
    assert (forall fs, kept (liveBase cfg domain keyType) nk np fs -> retained k fs) as Hret.
    { intros fs Hk. exists (liveBase cfg domain keyType), kb, p. split; [by eapply (kept_pair _ nk np) | done]. }
    apply activate_always; [by apply Hret| |done]. intros d0 Hrole Hd0.
    eapply always_mono; [|exact Hret|].
    + apply (preserveLivePair_kept _ nk np kb p Rk Rp Pk Pp Hc); [intros t; by apply tagged_not_live | by rewrite Hd0|].
      intros r d' _ HE. exact HE.
    + intros r d' _ HE Hr. cbn in HE. destruct (HE Hr eq_refl) as (b' & k' & p' & Hb' & Hp' & Hs').
      apply pair_nodes in Hp' as (nk' & np' & Rk' & Rp' & Pk' & Pp' & Hc' & Hkept').
      exists b', nk', np'. split_and!; [done..|]. intros fs Hf. exists b', k', p'.
      split; [by eapply (kept_pair b' nk' np') | by eapply samePublicKey_trans].
  - destruct (ActivateKeyPair_other cfg domain keyType tag b kb p d _ Hb Hpair eq_refl) as (nk & np & Hkept & Halw).
    eapply always_mono; [exact Halw| |done]. intros fs [F1 F2]. destruct Hkept as [G1 G2].
    exists b, kb, p. split; [|done]. destruct Hpair as ((dk & (nk' & E1 & K1 & D1) & P1) & (dp & (np' & E2 & K2 & D2) & P2) & Hc).
    split_and!; [exists dk | exists dp | done]; (split; [|done]); [exists nk | exists np]; (split; [done|]); split; congruence.
Qed.

(** ** The live key *)

(** The same for the recovery of a live key, whose success names the expected key. *)
Definition live_key (cfg : Config) (domain keyType : string) (expected : Z) (r : res GoError.t (DNSKEY.t * list Z)) (fs : Files) : Prop :=
  forall k p, r = Ok (k, p) -> KeyTagOf k = expected /\ verified_at fs (liveBase cfg domain keyType) domain keyType k p.

Section always_live.
Context (cfg : Config) (domain keyType : string) (expected : Z) (I : Files -> Prop) (fs0 : Files).
Context (HI : I fs0).
Context (Hact : forall d, Disk.nodes d = fs0 -> always I (ActivateKeyPair cfg domain keyType expected) (fun _ _ => True) d).

Lemma reactivate_always liveDetail d : Disk.nodes d = fs0 ->
  always I (reactivate cfg domain keyType expected liveDetail) (fun r d' => live_key cfg domain keyType expected r (Disk.nodes d')) d.
Proof.
  intros Hd. unfold reactivate. apply always_bind, always_catch. eapply always_sees; [apply loadVerifiedPair_sees | by rewrite Hd | |].
  2: { intros e d1 Hd1. outcome. apply always_fail; [by rewrite Hd1, Hd | by intros ??]. }
  intros [kt pt] d1 Hd1 _. outcome. cbn [fst snd]. rewrite Hd in Hd1.
  destruct (negb _); [apply always_fail; [by rewrite Hd1 | by intros ??]|]. apply always_bind, always_wrapf.
  eapply always_post; [by apply Hact|]. intros [[]|e] d2 HI2 _; outcome; [|by intros ??].
  apply always_bind, always_wrapf. eapply always_sees; [apply loadVerifiedPair_sees | done | |].
  2: { intros e d3 Hd3. outcome. by intros ??. }
  intros [k p] d3 Hd3 Hv. outcome. cbn [fst snd] in *. destruct (KeyTagOf k =? expected) eqn:E; cbn [negb].
  - apply always_ret; [by rewrite Hd3|]. intros ?? [= <- <-]. apply Z.eqb_eq in E. by rewrite Hd3.
  - apply always_fail; [by rewrite Hd3 | by intros ??].
Qed.
Lemma EnsureLiveKey_always d : Disk.nodes d = fs0 ->
  always I (EnsureLiveKey cfg domain keyType expected) (fun r d' => live_key cfg domain keyType expected r (Disk.nodes d')) d.
Proof.
  intros Hd. unfold EnsureLiveKey. apply always_bind, always_catch. eapply always_sees; [apply loadVerifiedPair_sees | by rewrite Hd | |].
  - intros [k p] d1 Hd1 Hv. outcome. cbn [fst snd] in *. rewrite Hd in Hd1. destruct (KeyTagOf k =? expected) eqn:E; [|by apply reactivate_always].
    apply always_ret; [by rewrite Hd1|]. intros ?? [= <- <-]. apply Z.eqb_eq in E. rewrite Hd in Hv. by rewrite Hd1.
  - intros e d1 Hd1. outcome. apply reactivate_always. congruence.
Qed.
End always_live.

Lemma EnsureLiveKey_retains cfg domain keyType expected k d :
  retained k (Disk.nodes d) ->
  always (retained k) (EnsureLiveKey cfg domain keyType expected) (fun r d' => live_key cfg domain keyType expected r (Disk.nodes d')) d.
Proof.
  intros Hr. apply (EnsureLiveKey_always _ _ _ _ _ (Disk.nodes d)); [done| |done]. intros d0 Hd0.
  eapply always_post; [apply ActivateKeyPair_retains; by rewrite Hd0 | done].
Qed.

(** A generation beside the live slot keeps its files through a recovery. *)
Lemma EnsureLiveKey_other cfg domain keyType expected b nk np k p d :
  b <> liveBase cfg domain keyType -> pair_at (Disk.nodes d) b k p -> kept b nk np (Disk.nodes d) ->
  always (kept b nk np) (EnsureLiveKey cfg domain keyType expected) (fun _ _ => True) d.
Proof.
  intros Hb Hp Hk. eapply always_post; [apply (EnsureLiveKey_always _ _ _ _ _ (Disk.nodes d)); [done| |done] | done].
  intros d0 Hd0. destruct (ActivateKeyPair_other cfg domain keyType expected b k p d0 _ Hb Hp Hd0) as (nk' & np' & [E1 E2] & Halw).
  destruct Hk as [F1 F2]. rewrite E1 in F1. rewrite E2 in F2. injection F1 as ->. injection F2 as ->. by eapply always_post.
Qed.

Lemma reactivate_yields cfg domain keyType expected detail d kp d' :
  reactivate cfg domain keyType expected detail d = (Ok kp, d') ->
  KeyTagOf kp.1 = expected /\ verified_at (Disk.nodes d') (liveBase cfg domain keyType) domain keyType kp.1 kp.2.
Proof.
  unfold reactivate. intros ([tk|e] & d1 & _ & R1)%bind_ok; [|done]. destruct (negb _); [done|].
  apply bind_ok in R1 as (_ & d2 & _ & R2). apply bind_ok in R2 as (kp' & d3 & Hl%wrapf_ok & R3).
  destruct (KeyTagOf kp'.1 =? expected) eqn:E; cbn [negb] in R3; [|done]. injection R3 as <- <-. apply Z.eqb_eq in E.
  split; [done | by eapply loaded_yields].
Qed.
Lemma EnsureLiveKey_yields cfg domain keyType expected d live priv d' :
  EnsureLiveKey cfg domain keyType expected d = (Ok (live, priv), d') ->
  KeyTagOf live = expected /\ verified_at (Disk.nodes d') (liveBase cfg domain keyType) domain keyType live priv.
Proof.
  unfold EnsureLiveKey. intros ([kp|e] & d1 & Hl & R1)%bind_ok; [|by apply reactivate_yields in R1].
  destruct (KeyTagOf kp.1 =? expected) eqn:E; [|by apply reactivate_yields in R1]. injection R1 as -> <-. apply Z.eqb_eq in E.
  split; [done|]. unfold catch in Hl. destruct (loadVerifiedPair _ _ _ d) as [r d2] eqn:El. injection Hl as -> <-. by apply loaded_yields in El.
Qed.
End live.
