(* ===== verification/KeyFilesRecover.v ===== *)
(** * KeyFilesRecover: the recorded generation can always be made live again

    Where no call fails and the keys directory has room, the helpers of the key
    transactions succeed: claiming unused names, setting files aside, copying.  [ready]
    says what room is and travels through the operations. *)

From stdpp Require Import base list strings gmap pretty.
From Stdlib Require Import ZArith Lia Ascii.
From S2P Require Import Prelude Paths GoTime Config ZoneState FileSys KeyOps Names Digests Wire Serial KeyMaterial Signatures KeyFiles FileSysSound KeyFilesSound KeyFilesLive.
Local Open Scope Z_scope.

(** ** The keys directory *)

Lemma KeysDir_clean cfg : clean_path (KeysDir cfg) /\ HasSuffix (KeysDir cfg) "/" = false.
Proof.
  unfold KeysDir. destruct (JoinPath_end (DataDir cfg) "" "keys") as [q Hq].
  { split; [by apply (bool_decide_unpack _) | by apply Nat.leb_le]. }
  change ("" +:+ "keys") with "keys" in Hq. split.
  - assert (JoinPath (DataDir cfg) "keys" <> "." /\ JoinPath (DataDir cfg) "keys" <> "/") as [H1 H2].
    { rewrite Hq. split; intros E; apply (f_equal String.length) in E; rewrite string_length_app in E; cbn in E; lia. }
    split_and!; [done..|]. unfold JoinPath. cbn [String.eqb]. destruct (String.eqb (DataDir cfg) ""); by eexists.
  - rewrite Hq. unfold HasSuffix, str_rev. replace (q +:+ "keys") with ((q +:+ "key") +:+ "s") by by rewrite string_app_assoc.
    assert (forall a b, String.list_ascii_of_string (a +:+ b) = String.list_ascii_of_string a ++ String.list_ascii_of_string b) as Happ.
    { intros a b. induction a as [|c a IH]; [done|]. cbn. by rewrite <- IH. }
    rewrite Happ, rev_app_distr. reflexivity.
Qed.

(** A name in a directory. *)
Definition child (K path : string) : Prop := exists name, path = K +:+ "/" +:+ name /\ no_slash name /\ name <> "".

Lemma child_app K path s : child K path -> no_slash s -> child K (path +:+ s).
Proof.
  intros (name & -> & Hn & Hne) Hs. exists (name +:+ s). rewrite !string_app_assoc. split_and!; [done | by rewrite free_of_app|].
  by destruct name.
Qed.
Lemma child_Dir K path : clean_path K -> child K path -> Dir path = K.
Proof. intros HK (name & -> & Hn & _). by apply Dir_child. Qed.
Lemma child_Base K path : child K path -> no_slash (Base path).
Proof. intros (name & -> & Hn & Hne). by rewrite Base_child. Qed.

Lemma slot_path cfg s : no_slash s -> (3 <= String.length s)%nat -> JoinPath (KeysDir cfg) s = KeysDir cfg +:+ "/" +:+ s.
Proof.
  intros Hs Hlen. destruct (KeysDir_clean cfg) as [HK _].
  unfold JoinPath. destruct (String.eqb_spec (KeysDir cfg) "") as [E|_].
  { destruct HK as (_ & _ & x & Hx). rewrite E in Hx. unfold Clean in Hx. destruct (String.eqb_spec x ""); [done|].
    destruct (HasPrefix x "/"); [done|]. by destruct (String.eqb_spec (Join (rev (fold_left (clean_step false) (Split "/" x) [])) "/") ""). }
  destruct (String.eqb_spec s "") as [->|_]; [cbn in Hlen; lia|]. by apply Clean_child.
Qed.
Lemma slot_child cfg s : no_slash s -> (3 <= String.length s)%nat -> child (KeysDir cfg) (JoinPath (KeysDir cfg) s).
Proof. intros Hs Hlen. exists s. rewrite slot_path by done. split_and!; [done..|]. by intros ->; cbn in Hlen; lia. Qed.
Lemma liveBase_child cfg domain keyType : no_slash domain -> role_ext keyType -> child (KeysDir cfg) (liveBase cfg domain keyType).
Proof.
  intros Hd Hr. apply slot_child.
  - rewrite !free_of_app. split_and!; [done | by apply (bool_decide_unpack _) | destruct Hr as [->| ->]; by apply (bool_decide_unpack _)].
  - rewrite !string_length_app. destruct Hr as [->| ->]; cbn [String.length]; lia.
Qed.
Lemma tagged_name domain keyType tag : no_slash domain -> role_ext keyType ->
  let s := domain +:+ "." +:+ keyType +:+ "." +:+ pretty (tag : Z) in no_slash s /\ (3 <= String.length s)%nat.
Proof.
  intros Hd Hr. split.
  - rewrite !free_of_app. split_and!; [done | by apply (bool_decide_unpack _) | destruct Hr as [->| ->]; by apply (bool_decide_unpack _)
      | by apply (bool_decide_unpack _) | apply no_slash_pretty].
  - rewrite !string_length_app. destruct Hr as [->| ->]; cbn [String.length]; lia.
Qed.
Lemma taggedBase_child cfg domain keyType tag : no_slash domain -> role_ext keyType -> child (KeysDir cfg) (taggedBase cfg domain keyType tag).
Proof. intros Hd Hr. by destruct (tagged_name domain keyType tag Hd Hr); apply slot_child. Qed.
Lemma taggedBase_path cfg domain keyType tag : no_slash domain -> role_ext keyType ->
  taggedBase cfg domain keyType tag = KeysDir cfg +:+ "/" +:+ domain +:+ "." +:+ keyType +:+ "." +:+ pretty tag.
Proof. intros Hd Hr. by destruct (tagged_name domain keyType tag Hd Hr); apply slot_path. Qed.

(** ** A directory with room

    [ready m fs]: the keys directory takes [m] more files, and the slots of the role
    hold regular files or nothing. *)
Section ready.
Context (cfg : Config) (domain keyType : string) (Hdomain : no_slash domain) (Hrole : role_ext keyType).
Let K := KeysDir cfg.
Let live := liveBase cfg domain keyType.

Definition slot_plain (fs : Files) (base : string) : Prop := plain_at fs (base +:+ ".key") /\ plain_at fs (base +:+ ".private").
Record ready (m : Z) (fs : Files) : Prop := {
  ready_dir : is_dir fs K = true;
  ready_room : Z.of_nat (size fs) + m < 10000;
  ready_live : slot_plain fs live;
  ready_tagged : forall tag, slot_plain fs (taggedBase cfg domain keyType tag)
}.

Lemma plain_insert fs path n q : Node.Kind n = Regular -> plain_at fs q -> plain_at (<[path := n]> fs) q.
Proof. intros Kn Hq n'. destruct (decide (q = path)) as [->|Hne]; [rewrite lookup_insert_eq; congruence | rewrite lookup_insert_ne by done; apply Hq]. Qed.
Lemma plain_delete fs path q : plain_at fs q -> plain_at (delete path fs) q.
Proof. intros Hq n'. destruct (decide (q = path)) as [->|Hne]; [by rewrite lookup_delete_eq | rewrite lookup_delete_ne by done; apply Hq]. Qed.
Lemma plain_not_dir fs path : plain_at fs path -> is_dir fs path = false.
Proof. intros Hp. unfold is_dir. destruct (fs !! path) as [n|] eqn:E; [|done]. by rewrite (Hp n E). Qed.
#[local] Hint Resolve plain_insert plain_delete : core.

Lemma ready_mono m m' fs : m' <= m -> ready m fs -> ready m' fs.
Proof. intros Hm []. split; [done | lia | done..]. Qed.
Lemma ready_insert m fs path n : ready m fs -> is_dir fs path = false -> Node.Kind n = Regular -> ready (m - 1) (<[path := n]> fs).
Proof.
  intros [Hdir Hroom [L1 L2] Ht] Hp Kn. split.
  - unfold is_dir in *. rewrite lookup_insert_ne; [done|]. intros E. rewrite E in Hp. congruence.
  - rewrite map_size_insert. destruct (fs !! path); cbn; lia.
  - split; auto.
  - intros tag. destruct (Ht tag). split; auto.
Qed.
Lemma ready_delete m fs path : ready m fs -> is_dir fs path = false -> ready m (delete path fs).
Proof.
  intros [Hdir Hroom [L1 L2] Ht] Hp. split.
  - unfold is_dir in *. rewrite lookup_delete_ne; [done|]. intros E. rewrite E in Hp. congruence.
  - rewrite map_size_delete. destruct (fs !! path); cbn; lia.
  - split; auto.
  - intros tag. destruct (Ht tag). split; auto.
Qed.
Lemma ready_takes m fs : ready m fs -> takes_files fs K.
Proof. intros []. destruct (KeysDir_clean cfg). by split_and!. Qed.
Lemma ready_roomy m fs : 0 <= m -> ready m fs -> roomy fs.
Proof. intros Hm []. unfold roomy. lia. Qed.

(** ** Operations *)

Context `{OS} `{DnsLib} `{WireLib} `{CryptoLib} `{!NoFaults} `{!FreshNames}.

Lemma plain_file fs path n : plain_at fs path -> fs !! path = Some n -> file_at fs path (Node.Data n).
Proof. intros Hp E. exists n. split_and!; [done | by apply Hp | done]. Qed.

Lemma CopyFile_ready m fs src dst data (Q : unit -> Files -> Prop) :
  1 <= m -> ready m fs -> file_at fs src data -> child K dst -> is_dir fs dst = false ->
  (forall n, Node.Kind n = Regular -> Node.Data n = data -> ready (m - 1) (<[dst := n]> fs) -> Q tt (<[dst := n]> fs)) ->
  completes (CopyFile src dst) Q fs.
Proof.
  intros Hm Hr (s & Hs & Ks & <-) Hc Hd HQ. destruct (KeysDir_clean cfg) as [HK _].
  apply (CopyFile_total _ _ s); [done | done | rewrite (child_Dir K); [by eapply ready_takes | done..] | done | by eapply child_Base | eapply ready_roomy; [|done]; lia |].
  intros n (Kn & Dn & _). apply HQ; [done..|]. by apply ready_insert.
Qed.

(** The numbered names after a prefix. *)
Lemma numbered_child path i : child K path -> child K (path +:+ "." +:+ pretty (i : Z)).
Proof.
  intros Hc. apply child_app; [done|]. rewrite free_of_app. split; [by apply (bool_decide_unpack _) | apply no_slash_pretty].
Qed.

Lemma set_aside_completes fs n path reason fuel i :
  ready 1 fs -> child K path -> no_slash reason -> fs !! path = Some n -> Node.Kind n = Regular ->
  (exists j, (j < fuel)%nat /\ fs !! (path +:+ "." +:+ reason +:+ "." +:+ pretty (i + Z.of_nat j)) = None) ->
  completes (set_aside_from fuel i path reason) (fun _ fs' => exists dst, fs !! dst = None /\ (exists s, dst = path +:+ "." +:+ s) /\ fs' = delete path (<[dst := n]> fs)) fs.
Proof.
  intros Hr Hc Hreason Hn Kn. destruct (KeysDir_clean cfg) as [HK _]. revert i. induction fuel as [|fuel IH]; intros i (j & Hj & Hfree); [lia|].
  cbn [set_aside_from]. set (dst := path +:+ "." +:+ reason +:+ "." +:+ pretty i).
  assert (child K dst) as Hdst.
  { apply child_app; [done|]. rewrite !free_of_app. split_and!; [by apply (bool_decide_unpack _) | done | by apply (bool_decide_unpack _) | apply no_slash_pretty]. }
  assert (is_dir fs path = false) as Hpd by (unfold is_dir; rewrite Hn, Kn; done).
  apply completes_bind. intros d Hd. unfold catch, Link, syscall. rewrite no_fault, Hd, Hn, (child_Dir K dst HK Hdst), (ready_dir _ _ Hr), Hpd. cbn [negb].
  destruct (fs !! dst) as [nd|] eqn:E; cbn.
  - exists (Err (sys_error "link" (path +:+ " " +:+ dst) EEXIST)), (tick d). split; [done|]. cbn. rewrite Hd.
    destruct j as [|j]; [rewrite Z.add_0_r in Hfree; fold dst in Hfree; congruence|]. apply IH. exists j. split; [lia|].
    by replace (i + 1 + Z.of_nat j) with (i + Z.of_nat (S j)) by lia.
  - eexists (Ok tt), _. split; [done|]. cbn beta iota. apply completes_bind. cbn.
    intros d2 Hd2. unfold catch, Remove, syscall. rewrite no_fault, Hd2.
    assert ((<[dst := n]> fs) !! path = Some n) as Hn' by (destruct (decide (dst = path)) as [->|]; [by rewrite lookup_insert_eq | by rewrite lookup_insert_ne]).
    assert (is_dir (<[dst := n]> fs) path = false) as Hpd' by (unfold is_dir; rewrite Hn', Kn; done).
    rewrite Hn', Hpd'. eexists _, _. split; [done|]. cbn. apply completes_ret. exists dst. split_and!; [done | by eexists | done].
Qed.
Lemma setAside_ready m fs n path reason (Q : string -> Files -> Prop) :
  1 <= m -> ready m fs -> child K path -> no_slash reason -> fs !! path = Some n -> Node.Kind n = Regular ->
  (forall dst a, fs !! dst = None -> (exists s, dst = path +:+ "." +:+ s) -> ready (m - 1) (delete path (<[dst := n]> fs)) -> Q a (delete path (<[dst := n]> fs))) ->
  completes (setAside path reason) Q fs.
Proof.
  intros Hm Hr Hc Hreason Hn Kn HQ. assert (is_dir fs path = false) as Hpd by (unfold is_dir; rewrite Hn, Kn; done).
  eapply completes_mono; [apply (set_aside_completes fs n)|]; [eapply ready_mono; [|done]; lia | done..| |].
  - set (name j := path +:+ "." +:+ reason +:+ "." +:+ pretty (0 + Z.of_nat j)).
    destruct (free_name fs name (Z.to_nat 10000)) as (j & Hj & Hf); [|destruct Hr; lia|by exists j].
    intros a b Hab E. unfold name in E. do 4 apply (inj _) in E. apply (inj pretty) in E. lia.
  - intros a fs' (dst & Hdst & Hname & ->). apply HQ; [done..|].
    apply ready_delete; [apply ready_insert; [done | unfold is_dir; by rewrite Hdst | done]|].
    unfold is_dir. destruct (decide (dst = path)) as [->|]; [by rewrite lookup_insert_eq, Kn | by rewrite lookup_insert_ne, Hn, Kn].
Qed.

(** A placeholder of this process. *)
Definition placeholder (n : Node.t) : Prop := Node.Kind n = Regular /\ Node.Data n = "".

Lemma reserveFile_free fs path (Q : bool -> Files -> Prop) :
  is_dir fs K = true -> child K path -> fs !! path = None ->
  (forall n, placeholder n -> Q true (<[path := n]> fs)) -> completes (reserveFile path) Q fs.
Proof.
  intros Hdir Hc Hf HQ. destruct (KeysDir_clean cfg) as [HK _]. unfold reserveFile. apply completes_bind. intros d Hd.
  unfold catch, OpenExcl, syscall, create, res_bind. rewrite no_fault, Hd, (child_Dir K path HK Hc), Hdir, Hf. cbn [negb].
  eexists _, _. split; [done|]. cbn beta iota. apply completes_bind, completes_wrapf, completes_syscall. intros now. cbn beta iota.
  apply completes_ret. by apply HQ.
Qed.
Lemma reserveFile_taken fs path n (Q : bool -> Files -> Prop) :
  is_dir fs K = true -> child K path -> fs !! path = Some n -> Q false fs -> completes (reserveFile path) Q fs.
Proof.
  intros Hdir Hc Hf HQ. destruct (KeysDir_clean cfg) as [HK _]. unfold reserveFile. apply completes_bind. intros d Hd.
  unfold catch, OpenExcl, syscall, create, res_bind. rewrite no_fault, Hd, (child_Dir K path HK Hc), Hdir, Hf. cbn [negb].
  eexists _, _. split; [done|]. cbn. rewrite Hd. by apply completes_ret.
Qed.
Lemma releaseReservation_empty fs path n (Q : unit -> Files -> Prop) :
  fs !! path = Some n -> placeholder n -> Q tt (delete path fs) -> completes (releaseReservation path) Q fs.
Proof.
  intros Hn [Kn Dn] HQ. unfold releaseReservation. apply completes_bind. intros d Hd. unfold catch, Lstat, syscall. rewrite no_fault, Hd, Hn.
  eexists _, _. split; [done|]. cbn beta iota. rewrite Kn, Dn. cbn. rewrite Hd.
  apply completes_bind. intros d2 Hd2. unfold catch, Remove, syscall, is_dir. rewrite no_fault, Hd2, Hn, Kn. cbn.
  eexists _, _. split; [done|]. by apply completes_ret.
Qed.

Lemma reservePair_completes fs base (Q : bool -> Files -> Prop) :
  is_dir fs K = true -> child K base ->
  (forall n1 n2, fs !! (base +:+ ".key") = None -> fs !! (base +:+ ".private") = None -> placeholder n1 -> placeholder n2 ->
     Q true (<[base +:+ ".private" := n2]> (<[base +:+ ".key" := n1]> fs))) ->
  (is_Some (fs !! (base +:+ ".key")) \/ is_Some (fs !! (base +:+ ".private")) -> Q false fs) ->
  completes (reservePair base) Q fs.
Proof.
  intros Hdir Hc Hfree Htaken. unfold reservePair. apply completes_bind.
  assert (child K (base +:+ ".key")) as Hck by (apply child_app; [done | by apply (bool_decide_unpack _)]).
  assert (child K (base +:+ ".private")) as Hcp by (apply child_app; [done | by apply (bool_decide_unpack _)]).
  assert (base +:+ ".key" <> base +:+ ".private") as Hne by apply key_private_ne.
  destruct (fs !! (base +:+ ".key")) as [nk|] eqn:E1.
  { eapply reserveFile_taken; [done..|]. cbn [negb]. apply completes_ret, Htaken. by left; eexists. }
  apply reserveFile_free; [done..|]. intros n1 Hn1. cbn [negb]. set (fs1 := <[base +:+ ".key" := n1]> fs).
  assert (is_dir fs1 K = true) as Hdir1.
  { unfold fs1, is_dir in *. rewrite lookup_insert_ne; [done|]. intros E. rewrite <- E in Hdir. by rewrite E1 in Hdir. }
  apply completes_bind, completes_catch. destruct (fs !! (base +:+ ".private")) as [np|] eqn:E2.
  - eapply (reserveFile_taken fs1 _ np); [done | done | unfold fs1; by rewrite lookup_insert_ne|].
    apply completes_bind, (releaseReservation_empty _ _ n1); [apply lookup_insert_eq | done|]. apply completes_ret.
    unfold fs1. rewrite delete_insert_id by done. apply Htaken. by right; eexists.
  - apply reserveFile_free; [done | done | unfold fs1; by rewrite lookup_insert_ne|]. intros n2 Hn2. apply completes_ret. by apply Hfree.
Qed.

Lemma unique_base_completes fs prefix fuel i (Q : string -> Files -> Prop) :
  is_dir fs K = true -> child K prefix ->
  (exists j, (j < fuel)%nat /\ fs !! (prefix +:+ "." +:+ pretty (i + Z.of_nat j) +:+ ".key") = None /\
                          fs !! (prefix +:+ "." +:+ pretty (i + Z.of_nat j) +:+ ".private") = None) ->
  (forall c n1 n2, child K c -> fs !! (c +:+ ".key") = None -> fs !! (c +:+ ".private") = None -> placeholder n1 -> placeholder n2 ->
     Q c (<[c +:+ ".private" := n2]> (<[c +:+ ".key" := n1]> fs))) ->
  completes (unique_base_from fuel i prefix) Q fs.
Proof.
  intros Hdir Hc Hex HQ. revert i Hex. induction fuel as [|fuel IH]; intros i (j & Hj & F1 & F2); [lia|]. cbn [unique_base_from].
  apply completes_bind, reservePair_completes; [done | by apply numbered_child| |].
  - intros n1 n2 E1 E2 P1 P2. apply completes_ret. apply HQ; [by apply numbered_child | done..].
  - intros Htaken. apply IH. destruct j as [|j].
    + rewrite Z.add_0_r in F1, F2. rewrite !string_app_assoc in Htaken. rewrite F1, F2 in Htaken. by destruct Htaken as [[? ?]|[? ?]].
    + exists j. replace (i + 1 + Z.of_nat j) with (i + Z.of_nat (S j)) by lia. split_and!; [lia | done..].
Qed.

Lemma uniqueBackupBase_completes fs prefix (Q : string -> Files -> Prop) :
  is_dir fs K = true -> Z.of_nat (size fs) < 10000 -> child K prefix ->
  (forall c n1 n2, child K c -> fs !! (c +:+ ".key") = None -> fs !! (c +:+ ".private") = None -> placeholder n1 -> placeholder n2 ->
     Q c (<[c +:+ ".private" := n2]> (<[c +:+ ".key" := n1]> fs))) ->
  completes (uniqueBackupBase prefix) Q fs.
Proof.
  intros Hdir Hroom Hc HQ. apply unique_base_completes; [done..| |done].
  set (base j := prefix +:+ "." +:+ pretty (0 + Z.of_nat j)).
  set (name j := if decide (is_Some (fs !! (base j +:+ ".key"))) then base j +:+ ".key" else base j +:+ ".private").
  assert (forall i j, base i = base j -> i = j) as Hinj.
  { intros i j E. unfold base in E. apply (inj _) in E. apply (inj _) in E. apply (inj pretty) in E. lia. }
  destruct (free_name fs name (Z.to_nat 10000)) as (j & Hj & Hf); [|lia|].
  - intros i j Hij E. assert (i = j) as ->; [|lia]. apply Hinj. revert E. unfold name. repeat case_decide; intros E;
      (by apply ext_inj in E) || (exfalso; by eapply key_private_ne).
  - exists j. unfold name in Hf. case_decide as Hd; [rewrite Hf in Hd; by destruct Hd|].
    assert (fs !! (base j +:+ ".key") = None) as Hk by (destruct (fs !! (base j +:+ ".key")); [by destruct Hd | done]).
    unfold base in Hk, Hf. rewrite !string_app_assoc in Hk, Hf. split_and!; [lia | done..].
Qed.
End ready.

(** ** Recovery

    With no call failing and room in the directory, the recovery of the live key
    succeeds from any state in which the tag-named copy of the expected generation
    loads, whatever the live slot and the backups hold. *)

(** Both outcomes of a computation. *)
Definition settles {A} (m : FS A) (Q : res GoError.t A -> Files -> Prop) (fs : Files) : Prop := forall d, Disk.nodes d = fs ->
  let '(r, d') := m d in Q r (Disk.nodes d').
Lemma settles_completes {A} (m : FS A) P (Q : res GoError.t A -> Files -> Prop) fs :
  completes m P fs -> (forall a fs', P a fs' -> Q (Ok a) fs') -> settles m Q fs.
Proof. intros Hm HQ d Hd. destruct (Hm d Hd) as (a & d' & -> & HP). auto. Qed.
Lemma settles_bind {A B} (m : FS A) (k : A -> FS B) Q fs :
  completes m (fun a fs1 => settles (k a) Q fs1) fs -> settles (bind m k) Q fs.
Proof. intros Hm d Hd. destruct (Hm d Hd) as (a & d1 & Hrun & Hk). unfold bind. rewrite Hrun. by apply Hk. Qed.
Lemma settles_fail {A} e (Q : res GoError.t A -> Files -> Prop) fs : Q (Err e) fs -> settles (fail e) Q fs.
Proof. intros HQ d <-. done. Qed.
Lemma settles_ret {A} (a : A) (Q : res GoError.t A -> Files -> Prop) fs : Q (Ok a) fs -> settles (ret a) Q fs.
Proof. intros HQ d <-. done. Qed.
Lemma completes_catch_settles {A} (m : FS A) (Q : res GoError.t A -> Files -> Prop) fs : settles m Q fs -> completes (catch m) Q fs.
Proof. intros Hm d Hd. specialize (Hm d Hd). unfold catch. destruct (m d) as [r d']. by exists r, d'. Qed.
Lemma settles_bind_settles {A B} (m : FS A) (k : A -> FS B) Q fs :
  settles m (fun r fs1 => match r with Ok a => settles (k a) Q fs1 | Err e => Q (Err e) fs1 end) fs -> settles (bind m k) Q fs.
Proof. intros Hm d Hd. specialize (Hm d Hd). unfold bind. destruct (m d) as [[a|e] d1]; [by apply Hm | done]. Qed.

Lemma settles_mono {A} (m : FS A) (Q Q' : res GoError.t A -> Files -> Prop) fs :
  settles m Q fs -> (forall r fs', Q r fs' -> Q' r fs') -> settles m Q' fs.
Proof. intros Hm HQ d Hd. specialize (Hm d Hd). destruct (m d). auto. Qed.

(** The tag of a key is computed from its record data (RFC 4034, appendix B). *)
Class TagOfRdata `{WireLib} : Prop := tag_of_rdata : forall a b,
  DNSKEY.Flags a = DNSKEY.Flags b -> DNSKEY.Protocol a = DNSKEY.Protocol b -> DNSKEY.Algorithm a = DNSKEY.Algorithm b ->
  DNSKEY.PublicKey a = DNSKEY.PublicKey b -> KeyTagOf a = KeyTagOf b.
Lemma same_tag `{WireLib} `{!TagOfRdata} a b : samePublicKey a b = true -> KeyTagOf a = KeyTagOf b.
Proof. rewrite samePublicKey_spec. intros (? & ? & ? & ? & _). by apply tag_of_rdata. Qed.

Section recover.
Context (cfg : Config) (domain keyType : string) (Hdomain : no_slash domain) (Hrole : role_ext keyType).
Context `{OS} `{DnsLib} `{WireLib} `{CryptoLib} `{!NoFaults} `{!FreshNames} `{!TagOfRdata}.
Let K := KeysDir cfg.
Let live := liveBase cfg domain keyType.
Abbreviation ready := (ready cfg domain keyType).

Lemma ext_child base ext : child K base -> ext = ".key" \/ ext = ".private" -> child K (base +:+ ext).
Proof. intros Hc [->| ->]; (apply child_app; [done | by apply (bool_decide_unpack _)]). Qed.

(** ** Copies under unused names *)

Lemma copy_half_ready m fs src dst ext pn (Q : unit -> Files -> Prop) :
  1 <= m -> ready m fs -> plain_at fs (src +:+ ext) -> child K dst -> ext = ".key" \/ ext = ".private" ->
  fs !! (dst +:+ ext) = Some pn -> placeholder pn ->
  (forall fs', ready (m - 1) fs' -> (forall q, q <> dst +:+ ext -> fs' !! q = fs !! q) -> Q tt fs') ->
  completes (copy_half src dst ext) Q fs.
Proof.
  intros Hm Hr Hp Hc Hext Hpn [Kn Dn] HQ. unfold copy_half. assert (is_dir fs (dst +:+ ext) = false) as Hd by (unfold is_dir; by rewrite Hpn, Kn).
  apply completes_bind, completes_wrapf, statExists_total; [done|]. case_bool_decide as Hs; cbn [negb].
  - destruct Hs as [s Hs]. apply completes_wrapf. eapply (CopyFile_ready cfg domain keyType); [exact Hm | exact Hr | by apply plain_file | by apply ext_child | done|].
    intros n _ _ Hr'. apply HQ; [done|]. intros q Hq. by rewrite lookup_insert_ne.
  - eapply releaseReservation_empty; [done | done|]. apply HQ.
    + eapply ready_mono; [|by apply ready_delete; [exact Hr|]]. lia.
    + intros q Hq. by rewrite lookup_delete_ne.
Qed.

Lemma copyPairUnique_ready m fs src prefix (Q : string -> Files -> Prop) :
  4 <= m -> ready m fs -> slot_plain fs src -> child K prefix ->
  (forall a fs', ready (m - 4) fs' -> Q a fs') -> completes (copyPairUnique src prefix) Q fs.
Proof.
  intros Hm Hr [P1 P2] Hc HQ. unfold copyPairUnique. apply completes_bind, (uniqueBackupBase_completes cfg); [by destruct Hr | destruct Hr; lia | done|].
  intros c n1 n2 Hcc F1 F2 N1 N2. pose proof N1 as [K1 _]. pose proof N2 as [K2 _].
  assert (is_dir fs (c +:+ ".key") = false) as D1 by (unfold is_dir; by rewrite F1).
  set (fs1 := <[c +:+ ".key" := n1]> fs). assert (is_dir fs1 (c +:+ ".private") = false) as D2.
  { unfold is_dir, fs1. rewrite lookup_insert_ne by apply key_private_ne. by rewrite F2. }
  pose proof (ready_insert _ _ _ _ _ _ _ Hr D1 K1) as Hr1. fold fs1 in Hr1. pose proof (ready_insert _ _ _ _ _ _ _ Hr1 D2 K2) as Hr2.
  set (fs2 := <[c +:+ ".private" := n2]> fs1) in *.
  assert (forall q, plain_at fs q -> plain_at fs2 q) as Hplain by (intros q Hq; by apply plain_insert, plain_insert).
  apply completes_bind. eapply (copy_half_ready _ _ _ _ _ n1); [|exact Hr2 | by apply Hplain | done | by left | | done|]; [lia | |].
  { unfold fs2, fs1. rewrite lookup_insert_ne by (intros E; by eapply key_private_ne). apply lookup_insert_eq. }
  intros fs3 Hr3 Hq3. apply completes_bind. eapply (copy_half_ready _ _ _ _ _ n2); [|exact Hr3| | done | by right | | done|]; [lia | | |].
  - intros n. destruct (decide (src +:+ ".private" = c +:+ ".key")) as [E|E]; [exfalso; by eapply key_private_ne|]. rewrite Hq3 by done. by apply Hplain.
  - rewrite Hq3 by (intros E; by eapply key_private_ne). apply lookup_insert_eq.
  - intros fs4 Hr4 _. apply completes_ret, HQ. eapply ready_mono; [|exact Hr4]. lia.
Qed.

(** ** Loading *)

Lemma file_at_insert fs path n q data : file_at fs q data -> q <> path -> file_at (<[path := n]> fs) q data.
Proof. intros (m & ? & ?) Hq. exists m. by rewrite lookup_insert_ne. Qed.
Lemma file_at_delete fs path q data : file_at fs q data -> q <> path -> file_at (delete path fs) q data.
Proof. intros (m & ? & ?) Hq. exists m. by rewrite lookup_delete_ne. Qed.
Lemma file_at_free fs path q data : file_at fs q data -> fs !! path = None -> q <> path.
Proof. intros (m & Hm & _) Hf ->. congruence. Qed.

Lemma of_res_total {A} (r : res string A) a fs (Q : A -> Files -> Prop) : r = Ok a -> Q a fs -> completes (of_res r) Q fs.
Proof. intros -> HQ. by apply completes_ret. Qed.

Lemma loadVerifiedPair_total fs base k p (Q : DNSKEY.t * list Z -> Files -> Prop) :
  verified_at fs base domain keyType k p -> Q (k, p) fs -> completes (loadVerifiedPair base domain keyType) Q fs.
Proof.
  intros [((dk & Hfk & Pk) & (dp & Hfp & Pp) & Hc) Ha] HQ. unfold loadVerifiedPair, loadKeyPairFromPath.
  apply completes_bind, completes_bind, completes_wrapf. apply (ReadFile_total _ dk); [done|].
  apply completes_bind, completes_wrapf. apply (of_res_total _ k); [done|].
  apply completes_bind, completes_wrapf. apply (ReadFile_total _ dp); [done|].
  apply completes_bind, completes_wrapf. apply (of_res_total _ p); [done|].
  apply completes_bind, completes_wrapf. apply (of_res_total _ tt); [done|]. apply completes_ret.
  apply completes_bind, completes_wrapf. apply (of_res_total _ tt); [done|]. by apply completes_ret.
Qed.

Lemma settles_sees {A} (m : FS A) P (Q : res GoError.t A -> Files -> Prop) fs :
  sees m P -> (forall a, P fs a -> Q (Ok a) fs) -> (forall e, Q (Err e) fs) -> settles m Q fs.
Proof.
  intros Hm HQ He d <-. specialize (Hm d). destruct (m d) as [[a|e] d']; destruct Hm as (-> & _ & _ & HP); auto.
Qed.

Lemma pairFiles_total fs base (Q : bool * bool -> Files -> Prop) :
  slot_plain fs base -> Q (bool_decide (is_Some (fs !! (base +:+ ".key"))), bool_decide (is_Some (fs !! (base +:+ ".private")))) fs ->
  completes (pairFiles base) Q fs.
Proof.
  intros [P1 P2] HQ. unfold pairFiles. apply completes_bind, completes_wrapf, statExists_total; [done|].
  apply completes_bind, completes_wrapf, statExists_total; [done|]. by apply completes_ret.
Qed.

(** ** Backups *)

Section backup.
Context (k : DNSKEY.t) (p : list Z).
Context (Cor : VerifyKeyPairCorrespondence k p = Ok tt) (Adm : validateLoadedKey k domain keyType = Ok tt).
Let backup := taggedBase cfg domain keyType (KeyTagOf k).

Lemma backup_child : child K backup.
Proof. by apply taggedBase_child. Qed.
Lemma backup_not_live : backup <> live.
Proof. by apply tagged_not_live. Qed.
#[local] Hint Resolve backup_child : core.

Definition conflict_or_done (r : res GoError.t unit) : Prop :=
  match r with Ok _ => True | Err e => exists base tag, GoError.Cause e = BackupConflict base tag /\ child K base end.

(** The last steps: the private half is there or copied, and the pair loads. *)
Lemma backup_tail fs m kk pd (privExists : bool) format1 args1 format2 args2 message :
  4 <= m -> ready m fs -> key_at fs backup kk -> samePublicKey kk k = true ->
  file_at fs (live +:+ ".private") pd -> ParsePrivateKeyFromFile pd = Ok p ->
  (if privExists then exists pv, priv_at fs backup pv /\ VerifyKeyPairCorrespondence k pv = Ok tt else fs !! (backup +:+ ".private") = None) ->
  settles (when (negb privExists) (wrapf format1 args1 (copyDurable (live +:+ ".private") (backup +:+ ".private"))) ;;;
    got <-- wrapf format2 args2 (loadVerifiedPair backup domain keyType) ;;
    if negb (samePublicKey got.1 k) then fail message else ret tt) (fun r fs' => ready (m - 1) fs' /\ conflict_or_done r) fs.
Proof.
  intros Hm Hr Hkey Hsame Hlive Hpd Hpriv. set (Q := fun (_ : unit) fs' => ready (m - 1) fs').
  apply (settles_completes _ Q); [|by split]. apply completes_bind.
  assert (forall fs' pv, ready (m - 1) fs' -> key_at fs' backup kk -> priv_at fs' backup pv -> VerifyKeyPairCorrespondence k pv = Ok tt ->
    completes (got <-- wrapf format2 args2 (loadVerifiedPair backup domain keyType) ;;
      if negb (samePublicKey got.1 k) then fail message else ret tt) Q fs') as Hload.
  { intros fs' pv Hr' Hk' Hpv Hv. apply samePublicKey_sym in Hsame as Hsame'. apply completes_bind, completes_wrapf, (loadVerifiedPair_total _ _ kk pv).
    - split; [split_and!; [done | done | by eapply same_corresponds] | by eapply same_admitted].
    - cbn [fst]. rewrite Hsame. cbn [negb]. by apply completes_ret. }
  destruct privExists; cbn [negb].
  - destruct Hpriv as (pv & Hpv & Hv). apply completes_ret. apply (Hload fs pv); [|done..]. eapply ready_mono; [|exact Hr]. lia.
  - apply completes_wrapf. unfold copyDurable. apply completes_wrapf.
    eapply (CopyFile_ready cfg domain keyType); [|exact Hr | exact Hlive | by apply ext_child; [|right] | unfold is_dir; by rewrite Hpriv|]; [lia|].
    intros n Kn Dn Hr'. apply (Hload _ p); [done | | | done].
    + destruct Hkey as (dk & Hfk & Pk). exists dk. split; [apply file_at_insert; [done | apply key_private_ne] | done].
    + exists pd. split; [|done]. exists n. by rewrite lookup_insert_eq.
Qed.

(** The private half of a slot whose public half is the live key. *)
Lemma backup_private fs m kk dp format0 args0 format1 args1 format2 args2 message (privExists : bool) :
  5 <= m -> ready m fs -> slot_plain fs backup -> key_at fs backup kk -> samePublicKey kk k = true ->
  file_at fs (live +:+ ".private") dp -> ParsePrivateKeyFromFile dp = Ok p -> privExists = bool_decide (is_Some (fs !! (backup +:+ ".private"))) ->
  settles (privExists <--
    (if privExists : bool then
       data <-- wrapf format0 args0 (ReadFile (backup +:+ ".private")) ;;
       if negb (backup_private_valid k data) then setAside (backup +:+ ".private") "invalid" ;;; ret false
       else ret true
     else ret false) ;;
    when (negb privExists) (wrapf format1 args1 (copyDurable (live +:+ ".private") (backup +:+ ".private"))) ;;;
    got <-- wrapf format2 args2 (loadVerifiedPair backup domain keyType) ;;
    if negb (samePublicKey got.1 k) then fail message else ret tt) (fun r fs' => ready (m - 2) fs' /\ conflict_or_done r) fs.
Proof.
  intros Hm Hr [P1 P2] Hkk Es Hfp Pp ->.
  assert (forall r fs' x, x <= 2 -> ready (m - x) fs' /\ conflict_or_done r -> ready (m - 2) fs' /\ conflict_or_done r) as Hless.
  { intros r fs' x Hx [Hr' ?]. split; [|done]. eapply ready_mono; [|exact Hr']. lia. }
  apply settles_bind. destruct (fs !! (backup +:+ ".private")) as [np|] eqn:Hnp.
  2: { rewrite bool_decide_false by by intros [? ?]. apply completes_ret. eapply settles_mono; [apply (backup_tail fs m kk dp false); done || lia|].
       intros r fs'. apply Hless. lia. }
  rewrite bool_decide_true by eauto. pose proof (plain_file _ _ _ P2 Hnp) as Hfilep.
  apply completes_bind, completes_wrapf. apply (ReadFile_total _ (Node.Data np)); [done|].
  destruct (backup_private_valid k (Node.Data np)) eqn:Ev; cbn [negb].
  - apply completes_ret. eapply settles_mono; [apply (backup_tail fs m kk dp true); try done; [lia|]|].
    + unfold backup_private_valid in Ev. destruct (ParsePrivateKeyFromFile (Node.Data np)) as [pv|] eqn:Epv; [|done]. exists pv.
      destruct (VerifyKeyPairCorrespondence k pv) as [[]|] eqn:Ec; [|done]. split; [by exists (Node.Data np) | done].
    + intros r fs'. apply Hless. lia.
  - apply completes_bind. eapply (setAside_ready cfg domain keyType m fs np); [lia | done | by apply ext_child; [|right] | by apply (bool_decide_unpack _) | done | by apply P2|].
    intros dst a Hdst Hname Hr1. apply completes_ret. set (fs1 := delete _ _) in *.
    assert (forall q data, file_at fs q data -> q <> backup +:+ ".private" -> file_at fs1 q data) as Hstay.
    { intros q data Hq Hne. apply file_at_delete; [|done]. apply file_at_insert; [done | by eapply file_at_free]. }
    eapply settles_mono; [apply (backup_tail fs1 (m - 1) kk dp false); try done; [lia | | | apply lookup_delete_eq]|].
    + destruct Hkk as (? & ? & ?). eexists. split; [apply Hstay; [eassumption | apply key_private_ne] | done].
    + apply Hstay; [done|]. intros E. apply ext_inj in E. by apply backup_not_live.
    + intros r fs' Hf. apply (Hless r fs' 2); [lia|]. by replace (m - 2) with (m - 1 - 1) by lia.
Qed.

(** The public half is copied into a slot that has none. *)
Lemma backup_public m fs dk dp format args :
  1 <= m -> ready m fs -> fs !! (backup +:+ ".key") = None -> fs !! (backup +:+ ".private") = None ->
  file_at fs (live +:+ ".key") dk -> ParseDNSKEYFromFile dk = Ok k -> file_at fs (live +:+ ".private") dp ->
  completes (wrapf format args (copyDurable (live +:+ ".key") (backup +:+ ".key")) ;;; ret false)
    (fun b fs' => b = false /\ ready (m - 1) fs' /\ key_at fs' backup k /\ fs' !! (backup +:+ ".private") = None /\ file_at fs' (live +:+ ".private") dp) fs.
Proof.
  intros Hm Hr F1 F2 L1 Pk L2. apply completes_bind, completes_wrapf. unfold copyDurable. apply completes_wrapf.
  eapply (CopyFile_ready cfg domain keyType); [exact Hm|exact Hr | exact L1 | by apply ext_child; [|left] | unfold is_dir; by rewrite F1|].
  intros n Kn Dn Hr2. apply completes_ret. split_and!; [done..| | |].
  - exists dk. split; [|done]. exists n. by rewrite lookup_insert_eq.
  - rewrite lookup_insert_ne by apply key_private_ne. done.
  - apply file_at_insert; [done|]. intros E. by eapply key_private_ne.
Qed.

Lemma ensureBackupAt_settles fs m :
  8 <= m -> ready m fs -> pair_at fs live k p ->
  settles (ensureBackupAt domain keyType live backup k) (fun r fs' => ready (m - 4) fs' /\ conflict_or_done r) fs.
Proof.
  intros Hm Hr ((dk & Hfk & Pk) & (dp & Hfp & Pp) & _). pose proof (ready_tagged _ _ _ _ _ Hr (KeyTagOf k)) as Hplain. fold backup in Hplain.
  pose proof Hplain as [P1 P2]. unfold ensureBackupAt. apply settles_bind, pairFiles_total; [done|]. cbv beta iota.
  assert (forall r fs' x, x <= 4 -> ready (m - x) fs' /\ conflict_or_done r -> ready (m - 4) fs' /\ conflict_or_done r) as Hless.
  { intros r fs' x Hx [Hr' ?]. split; [|done]. eapply ready_mono; [|exact Hr']. lia. }
  destruct (fs !! (backup +:+ ".key")) as [nk|] eqn:Hnk.
  - rewrite (bool_decide_true (is_Some (Some nk))) by eauto. pose proof (plain_file _ _ _ P1 Hnk) as Hfile.
    apply settles_bind_settles, settles_bind, completes_wrapf. apply (ReadFile_total _ (Node.Data nk)); [done|].
    destruct (ParseDNSKEYFromFile (Node.Data nk)) as [kk|] eqn:Pkk; [destruct (samePublicKey kk k) eqn:Es|]; cbn [negb].
    2, 3: (apply settles_fail; apply (Hless _ _ 0); [lia|]; split; [eapply ready_mono; [|exact Hr]; lia | by exists backup, (KeyTagOf k)]).
    apply settles_ret. eapply settles_mono; [apply (backup_private fs m kk dp); try done; [lia | by exists (Node.Data nk)]|].
    intros r fs'. apply Hless. lia.
  - rewrite (bool_decide_false (is_Some None)) by by intros [? ?].
    assert (forall fs1 m1, m - 1 <= m1 -> ready m1 fs1 -> fs1 !! (backup +:+ ".key") = None -> fs1 !! (backup +:+ ".private") = None ->
      file_at fs1 (live +:+ ".key") dk -> file_at fs1 (live +:+ ".private") dp ->
      completes (wrapf "backing up %s public key for %s: %w" [keyType; domain] (copyDurable (live +:+ ".key") (backup +:+ ".key")) ;;; ret false)
        (fun b fs2 => b = false /\ ready (m - 2) fs2 /\ key_at fs2 backup k /\ fs2 !! (backup +:+ ".private") = None /\ file_at fs2 (live +:+ ".private") dp) fs1) as Hcopy.
    { intros fs1 m1 Hm1 Hr1 F1 F2 L1 L2. eapply completes_mono; [apply (backup_public m1 fs1 dk dp); try done; lia|].
      intros b fs2 (? & Hr2 & ?). split; [done|]. split; [eapply ready_mono; [|exact Hr2]; lia | done]. }
    assert (forall b fs2, b = false /\ ready (m - 2) fs2 /\ key_at fs2 backup k /\ fs2 !! (backup +:+ ".private") = None /\ file_at fs2 (live +:+ ".private") dp ->
      settles (privExists <--
        (if b : bool then
           data <-- wrapf "reading backup %s.private: %w" [backup] (ReadFile (backup +:+ ".private")) ;;
           if negb (backup_private_valid k data) then setAside (backup +:+ ".private") "invalid" ;;; ret false
           else ret true
         else ret false) ;;
        when (negb privExists) (wrapf "backing up %s private key for %s: %w" [keyType; domain] (copyDurable (live +:+ ".private") (backup +:+ ".private"))) ;;;
        got <-- wrapf "backup of %s key %d for %s at %s does not verify: %w" [keyType; pretty (KeyTagOf k); domain; backup] (loadVerifiedPair backup domain keyType) ;;
        if negb (samePublicKey got.1 k) then
          fail (errorf "backup of %s key for %s at %s does not hold the live key" [keyType; domain; backup])
        else ret tt) (fun r fs' => ready (m - 4) fs' /\ conflict_or_done r) fs2) as Hend.
    { intros b fs2 (-> & Hr2 & Hk2 & F2 & L2). eapply settles_mono; [apply (backup_private fs2 (m - 2) k dp "" [] _ _ _ _ _ false); try done; [lia | by apply (ready_tagged _ _ _ _ _ Hr2) | apply samePublicKey_refl | by rewrite F2]|].
      intros r fs' [Hr' ?]. split; [|done]. eapply ready_mono; [|exact Hr']. lia. }
    apply settles_bind. eapply completes_mono; [|exact Hend]. apply completes_bind. destruct (fs !! (backup +:+ ".private")) as [np|] eqn:Hnp.
    + rewrite bool_decide_true by eauto. apply completes_when; [intros _|done]. apply completes_bind.
      eapply (setAside_ready cfg domain keyType m fs np); [lia | done | by apply ext_child; [|right] | by apply (bool_decide_unpack _) | done | by apply P2|].
      intros dst a Hdst Hname Hr1. apply completes_ret.
      assert (forall q data, file_at fs q data -> q <> backup +:+ ".private" -> file_at (delete (backup +:+ ".private") (<[dst := np]> fs)) q data) as Hstay.
      { intros q data Hq Hne. apply file_at_delete; [|done]. apply file_at_insert; [done | by eapply file_at_free]. }
      apply (Hcopy _ (m - 1)); [lia | done | | apply lookup_delete_eq | apply Hstay | apply Hstay]; try done.
      * rewrite lookup_delete_ne, lookup_insert_ne; [done | | exact (fun E => key_private_ne _ _ (eq_sym E))].
        destruct Hname as [s ->]. rewrite string_app_assoc. intros E. by apply (inj _) in E.
      * intros E. by eapply key_private_ne.
      * intros E. apply ext_inj in E. by apply backup_not_live.
    + rewrite bool_decide_false by by intros [? ?]. apply completes_when; [done|]. intros _. apply (Hcopy fs m); done || lia.
Qed.
End backup.

(** ** The live pair is preserved *)

Lemma load_caught base (Q : res GoError.t (DNSKEY.t * list Z) -> Files -> Prop) fs :
  (forall k p, verified_at fs base domain keyType k p -> Q (Ok (k, p)) fs) -> (forall e, Q (Err e) fs) ->
  completes (catch (loadVerifiedPair base domain keyType)) Q fs.
Proof.
  intros HQ He. eapply completes_catch_observes; [apply loadVerifiedPair_sees|]. intros [[k p]|e] Hs; [|done]. apply HQ, (Hs _ eq_refl).
Qed.

Definition backed_or_explained (r : res GoError.t DNSKEY.t) : Prop :=
  match r with
  | Ok _ => True
  | Err e => GoError.Cause e = LiveUnverifiable \/ exists base tag, GoError.Cause e = BackupConflict base tag /\ child K base
  end.

Lemma ensureVerifiedBackup_settles fs m :
  8 <= m -> ready m fs -> settles (ensureVerifiedBackup cfg domain keyType) (fun r fs' => ready (m - 4) fs' /\ backed_or_explained r) fs.
Proof.
  intros Hm Hr. unfold ensureVerifiedBackup. apply settles_bind, load_caught.
  - intros k p [Hpair Hadm]. apply settles_bind_settles. eapply settles_mono; [apply (ensureBackupAt_settles k p); done || apply Hpair|].
    intros [[]|e] fs' [Hr' He]; [by apply settles_ret | by split; [|right]].
  - intros e. apply settles_fail. split; [eapply ready_mono; [|exact Hr]; lia | by left].
Qed.

Lemma preserveLivePair_ready fs m (Q : unit -> Files -> Prop) :
  8 <= m -> ready m fs -> (forall fs', ready (m - 8) fs' -> Q tt fs') -> completes (preserveLivePair cfg domain keyType) Q fs.
Proof.
  intros Hm Hr HQ.
  assert (forall m' fs' prefix, m - 4 <= m' -> ready m' fs' -> child K prefix ->
    completes (copyPairUnique (liveBase cfg domain keyType) prefix ;;; ret tt) Q fs') as Hcopy.
  { intros m' fs' prefix Hm' Hr' Hc. apply completes_bind, (copyPairUnique_ready m'); [lia | done | by destruct Hr' | done|].
    intros _ fs'' Hr''. apply completes_ret, HQ. eapply ready_mono; [|exact Hr'']. lia. }
  assert (child K (liveBase cfg domain keyType)) as Hlive by by apply liveBase_child.
  assert (child K (liveBase cfg domain keyType +:+ ".bak")) as Hbak by (apply child_app; [done | by apply (bool_decide_unpack _)]).
  unfold preserveLivePair. apply completes_bind, pairFiles_total; [by destruct Hr|]. do 2 case_bool_decide; cbn beta iota.
  - apply completes_bind, completes_catch_settles. eapply settles_mono; [by apply (ensureVerifiedBackup_settles fs m)|].
    intros [k|e] fs' [Hr' He]; cbn beta iota.
    + apply completes_ret, HQ. eapply ready_mono; [|exact Hr']. lia.
    + destruct He as [->|(base & tag & -> & Hbase)]; (apply (Hcopy (m - 4)); done || lia).
  - apply (Hcopy m); done || lia.
  - apply (Hcopy m); done || lia.
  - apply completes_ret, HQ. eapply ready_mono; [|exact Hr]. lia.
Qed.

(** ** Activation and recovery *)

Lemma copy_visible_ready m fs src dst data message args (Q : unit -> Files -> Prop) :
  1 <= m -> ready m fs -> file_at fs src data -> child K dst -> is_dir fs dst = false ->
  (forall n, Node.Kind n = Regular -> Node.Data n = data -> ready (m - 1) (<[dst := n]> fs) -> Q tt (<[dst := n]> fs)) ->
  completes (copy_visible src dst message args) Q fs.
Proof.
  intros Hm Hr Hsrc Hc Hd HQ. apply completes_bind, completes_catch. eapply (CopyFile_ready cfg domain keyType); [exact Hm | done..|].
  intros n Kn Dn Hr'. apply completes_ret. auto.
Qed.

Lemma ready_not_dir m fs ext : ready m fs -> ext = ".key" \/ ext = ".private" -> is_dir fs (live +:+ ext) = false.
Proof. intros Hr Hext. pose proof (ready_live _ _ _ _ _ Hr) as [P1 P2]. destruct Hext as [->| ->]; by apply plain_not_dir. Qed.

(** The staged pair takes the live names. *)
Lemma activate_tail_ready staged format args message m1 a1 m2 a2 k0 p0 m fs (Q : unit -> Files -> Prop) :
  staged <> live -> 2 <= m -> ready m fs -> verified_at fs staged domain keyType k0 p0 ->
  (forall fs', verified_at fs' live domain keyType k0 p0 -> Q tt fs') ->
  completes (copy_visible (staged +:+ ".private") (live +:+ ".private") m1 a1 ;;;
      copy_visible (staged +:+ ".key") (live +:+ ".key") m2 a2 ;;;
      now <-- wrapf format args (loadVerifiedPair live domain keyType) ;;
      if negb (samePublicKey now.1 k0) then fail message else ret tt) Q fs.
Proof.
  intros Hne Hm Hr [((dk & Hfk & Pk) & (dp & Hfp & Pp) & Hc) Ha] HQ. pose proof (liveBase_child cfg domain keyType Hdomain Hrole) as Hlive.
  apply completes_bind. eapply (copy_visible_ready m); [lia | exact Hr | exact Hfp | by apply ext_child; [|right] | by eapply ready_not_dir; [|right]|].
  intros np Kp Dp Hr1. apply completes_bind. eapply (copy_visible_ready (m - 1)); [lia | exact Hr1 | | by apply ext_child; [|left] | by eapply ready_not_dir; [|left]|].
  { apply file_at_insert; [exact Hfk | apply key_private_ne]. }
  intros nk Kk Dk Hr2. set (fs2 := <[live +:+ ".key" := nk]> _).
  assert (verified_at fs2 live domain keyType k0 p0) as Hv.
  { split; [split_and!; [| |done]|done].
    - exists dk. split; [|done]. exists nk. unfold fs2. by rewrite lookup_insert_eq.
    - exists dp. split; [|done]. unfold fs2. apply file_at_insert; [|intros E; by eapply key_private_ne]. exists np. by rewrite lookup_insert_eq. }
  apply completes_bind, completes_wrapf, (loadVerifiedPair_total _ _ k0 p0); [exact Hv|]. cbn [fst].
  rewrite samePublicKey_refl. cbn [negb]. apply completes_ret. auto.
Qed.

Lemma ActivateKeyPair_ready tag k0 p0 m fs (Q : unit -> Files -> Prop) :
  10 <= m -> ready m fs -> verified_at fs (taggedBase cfg domain keyType tag) domain keyType k0 p0 -> KeyTagOf k0 = tag ->
  (forall fs' k p, verified_at fs' live domain keyType k p -> samePublicKey k k0 = true -> Q tt fs') ->
  completes (ActivateKeyPair cfg domain keyType tag) Q fs.
Proof.
  intros Hm Hr Hv Htag HQ. unfold ActivateKeyPair. apply completes_bind, completes_wrapf, (loadVerifiedPair_total _ _ k0 p0); [done|].
  cbn [fst]. rewrite Htag, Z.eqb_refl. cbn [negb].
  assert (forall format args rest,
    (forall fs1, ready (m - 8) fs1 -> verified_at fs1 (taggedBase cfg domain keyType tag) domain keyType k0 p0 -> completes rest Q fs1) ->
    completes (wrapf format args (preserveLivePair cfg domain keyType) ;;; rest) Q fs) as Hpres.
  { intros format args rest Hrest. destruct Hv as [Hpair Hadm].
    pose proof Hpair as (nk & np & Rk & Rp & Pk & Pp & Hc & Hkept)%pair_nodes.
    apply completes_bind, completes_wrapf.
    eapply completes_mono; [apply (completes_always (kept (taggedBase cfg domain keyType tag) nk np) _ (fun _ fs1 => ready (m - 8) fs1)
      (fun _ d' => kept (taggedBase cfg domain keyType tag) nk np (Disk.nodes d')))|].
    - apply (preserveLivePair_ready fs m); [lia | done | done].
    - intros d Hd. apply (preserveLivePair_kept _ nk np k0 p0 Rk Rp Pk Pp Hc); [intros t; by apply tagged_not_live | by rewrite Hd | done].
    - intros [] fs1 [Hr1 (d' & <- & Hk1)]. apply Hrest; [done|]. split; [by eapply (kept_pair _ nk np) | done]. }
  apply completes_bind, load_caught.
  - intros k p Hlive. cbn [fst]. destruct (samePublicKey k k0) eqn:Es; [by apply completes_ret; eapply HQ|].
    apply Hpres. intros fs1 Hr1 Hv1. eapply (activate_tail_ready _ _ _ _ _ _ _ _ k0 p0 (m - 8)); [by apply tagged_not_live | lia | done..|].
    intros fs' Hv'. eapply HQ; [exact Hv' | apply samePublicKey_refl].
  - intros e. apply Hpres. intros fs1 Hr1 Hv1. eapply (activate_tail_ready _ _ _ _ _ _ _ _ k0 p0 (m - 8)); [by apply tagged_not_live | lia | done..|].
    intros fs' Hv'. eapply HQ; [exact Hv' | apply samePublicKey_refl].
Qed.

(** Whatever the live slot holds, the expected generation becomes live. *)
Lemma EnsureLiveKey_ready expected k0 p0 m fs :
  10 <= m -> ready m fs -> verified_at fs (taggedBase cfg domain keyType expected) domain keyType k0 p0 -> KeyTagOf k0 = expected ->
  completes (EnsureLiveKey cfg domain keyType expected)
    (fun kp fs' => KeyTagOf kp.1 = expected /\ verified_at fs' (liveBase cfg domain keyType) domain keyType kp.1 kp.2) fs.
Proof.
  intros Hm Hr Hv Htag.
  assert (forall detail, completes (reactivate cfg domain keyType expected detail)
    (fun kp fs' => KeyTagOf kp.1 = expected /\ verified_at fs' (liveBase cfg domain keyType) domain keyType kp.1 kp.2) fs) as Hre.
  { intros detail. unfold reactivate. apply completes_bind, completes_catch, (loadVerifiedPair_total _ _ k0 p0); [done|]. cbn [fst].
    rewrite Htag, Z.eqb_refl. cbn [negb]. apply completes_bind, completes_wrapf. eapply (ActivateKeyPair_ready _ k0 p0 m); [done..|].
    intros fs' k p Hv' Hs. apply completes_bind, completes_wrapf, (loadVerifiedPair_total _ _ k p); [done|]. cbn [fst].
    rewrite (same_tag _ _ Hs), Htag, Z.eqb_refl. cbn [negb]. apply completes_ret. cbn [fst snd]. split; [by rewrite (same_tag _ _ Hs) | done]. }
  unfold EnsureLiveKey. apply completes_bind, load_caught; [|auto]. intros k p Hlive. cbn [fst].
  destruct (Z.eqb_spec (KeyTagOf k) expected) as [E|_]; [|apply Hre]. by apply completes_ret.
Qed.
End recover.
