(* ===== verification/KeyFilesMint.v ===== *)
(** * KeyFilesMint: drawing, staging and recovering keys

    A minted key has a tag no file of the directory carries, found within ten draws or
    reported; nothing is minted over a live slot of which a half exists; and none of it
    loses a generation. *)

From stdpp Require Import base list strings gmap pretty.
From Stdlib Require Import ZArith Lia Ascii.
From S2P Require Import Prelude Paths GoTime Config ZoneState FileSys KeyOps Names Digests Wire Serial KeyMaterial Signatures KeyFiles FileSysSound KeyFilesSound KeyFilesLive KeyFilesRecover.
Local Open Scope Z_scope.

(** ** The tag in a file name *)

Definition decimal_value (ds : list Z) (acc : Z) : Z := fold_left (fun acc d => acc * 10 + d) ds acc.

Lemma decimal_value_app ds ds' acc : decimal_value (ds ++ ds') acc = decimal_value ds' (decimal_value ds acc).
Proof. apply fold_left_app. Qed.
Lemma digit_value_char x : (x < 10)%N -> digit_value (pretty_N_char x) = Some (Z.of_N x).
Proof. intros Hx. assert (x = 0 \/ x = 1 \/ x = 2 \/ x = 3 \/ x = 4 \/ x = 5 \/ x = 6 \/ x = 7 \/ x = 8 \/ x = 9)%N as E by lia. by repeat destruct E as [->|E]; [..|subst]. Qed.

Lemma span_digits_go x s ds : span_digits s = (ds, "") ->
  exists ds', span_digits (pretty_N_go x s) = (ds' ++ ds, "") /\ decimal_value ds' 0 = Z.of_N x /\ ((0 < x)%N -> ds' <> []).
Proof.
  revert s ds. induction (N.lt_wf_0 x) as [x _ IH]; intros s ds Hs. destruct (decide (0 < x)%N) as [Hx|Hx].
  - rewrite pretty_N_go_step by done. destruct (IH (x `div` 10)%N ltac:(by apply N.div_lt) (String (pretty_N_char (x `mod` 10)) s) (Z.of_N (x `mod` 10) :: ds)) as (ds' & E & V & _).
    { cbn [span_digits]. rewrite digit_value_char by (by apply N.mod_upper_bound). by rewrite Hs. }
    exists (ds' ++ [Z.of_N (x `mod` 10)]). rewrite E, decimal_value_app, V. split; [by rewrite <- app_assoc|]. cbn. split; [|intros _; by destruct ds'].
    pose proof (N.div_mod x 10). lia.
  - assert (x = 0)%N as -> by lia. exists []. by rewrite pretty_N_go_0.
Qed.
Lemma ParseUint_pretty (z bits : Z) : 0 <= z < 2 ^ bits -> ParseUint (pretty z) bits = Some z.
Proof.
  intros Hz. unfold ParseUint. destruct z as [|q|q]; [|clear -Hz|lia].
  - change (span_digits (pretty 0)) with ([0], ""). cbn beta iota zeta delta [fold_left]. change (0 * 10 + 0) with 0. destruct (Z.ltb_spec 0 (2 ^ bits)); [done | lia].
  - change (pretty (Z.pos q)) with (pretty (N.pos q)). unfold pretty, pretty_N. rewrite decide_False by done.
    destruct (span_digits_go (N.pos q) "" [] eq_refl) as (ds & E & V & Hne). rewrite app_nil_r in E. rewrite E. specialize (Hne eq_refl).
    destruct ds as [|x ds]; [done|]. unfold decimal_value in V. rewrite V. cbn [Z.of_N]. destruct (Z.ltb_spec (Z.pos q) (2 ^ bits)); [done | lia].
Qed.

Lemma str_drop_app a b : str_drop (String.length a) (a +:+ b) = b.
Proof.
  unfold str_drop. rewrite string_length_app. replace (String.length a + String.length b - String.length a)%nat with (String.length b) by lia.
  induction a as [|c a IH]; [|exact IH]. change ("" +:+ b) with b. induction b as [|c b IHb]; [done|]. cbn. f_equal. exact IHb.
Qed.
Lemma str_rev_app a b : str_rev (a +:+ b) = str_rev b +:+ str_rev a.
Proof.
  unfold str_rev. assert (forall a b, String.list_ascii_of_string (a +:+ b) = String.list_ascii_of_string a ++ String.list_ascii_of_string b) as Happ.
  { intros x y. induction x as [|c x IH]; [done|]. cbn. by rewrite <- IH. }
  rewrite Happ, rev_app_distr. generalize (rev (String.list_ascii_of_string a)), (rev (String.list_ascii_of_string b)). intros l' l.
  induction l as [|c l IH]; [done|]. exact (f_equal (String c) IH).
Qed.
Lemma HasSuffix_app a b : HasSuffix (a +:+ b) b = true.
Proof. unfold HasSuffix. rewrite str_rev_app. apply HasPrefix_app. Qed.
Lemma TrimSuffix_app a b : TrimSuffix (a +:+ b) b = a.
Proof.
  unfold TrimSuffix, str_take. rewrite HasSuffix_app, string_length_app. replace (String.length a + String.length b - String.length b)%nat with (String.length a) by lia.
  induction a as [|c a IH]; [by destruct b | exact (f_equal (String c) IH)].
Qed.
Lemma tag_in_name_tagged domain kt t : 0 <= t < 65536 -> tag_in_name domain kt ((domain +:+ "." +:+ kt +:+ ".") +:+ pretty t +:+ ".key") = Some t.
Proof.
  intros Ht. unfold tag_in_name. set (prefix := domain +:+ "." +:+ kt +:+ ".").
  rewrite <- string_app_assoc, HasSuffix_app, string_app_assoc, HasPrefix_app. cbn [negb orb].
  unfold TrimPrefix. rewrite HasPrefix_app, str_drop_app, TrimSuffix_app. by apply ParseUint_pretty.
Qed.

(** ** Keys in the directory *)

Section mint.
Context `{OS} `{DnsLib} `{WireLib} `{CryptoLib}.

Lemma live_tag_observes cfg domain kt : observes (live_tag cfg domain kt) (fun _ r => exists l, r = Ok l).
Proof.
  unfold live_tag. eapply observes_bind_catch; [apply loadPublicKey_sees|]. intros [dk|e]; apply observes_ret; eauto.
Qed.
(** The tags of the directory are those of the file names, when it can be listed. *)
Lemma existingKeyTags_observes cfg domain : observes (existingKeyTags cfg domain) (fun fs r => exists tags, r = Ok tags /\
  (NoFaults -> is_dir fs (KeysDir cfg) = true -> no_slash domain -> forall kt t, role_ext kt -> 0 <= t < 65536 ->
     is_Some (fs !! (taggedBase cfg domain kt t +:+ ".key")) -> t ∈ tags)).
Proof.
  unfold existingKeyTags. eapply (observes_bind_catch _ _ (fun fs r =>
    NoFaults -> is_dir fs (KeysDir cfg) = true -> exists names, r = Ok names /\
      forall path, is_Some (fs !! path) -> Dir path = KeysDir cfg -> path <> KeysDir cfg -> Base path ∈ names)).
  - intros d. unfold ReadDir, syscall. destruct (fault (Disk.calls d)) as [e|] eqn:Ef.
    { split_and!; [done..|]. intros Hnf. by rewrite Hnf in Ef. }
    unfold res_bind, resolve, is_dir. destruct (Disk.nodes d !! KeysDir cfg) as [n|] eqn:En; [|done].
    destruct (Node.Kind n) eqn:Kn; cbn beta iota; rewrite ?Kn; try (split_and!; [done..|]; by intros _ Hd). cbn [Disk.nodes tick Disk.past Disk.draws].
    split_and!; [done..|]. intros _ _. eexists. split; [done|]. intros path [m Hm] Hd Hp. apply list_elem_of_In, in_map_iff.
    exists (path, m). split; [done|]. apply filter_In. split; [by apply list_elem_of_In, elem_of_map_to_list|]. cbn.
    rewrite Hd, String.eqb_refl. cbn. by apply negb_true_iff, String.eqb_neq.
  - intros r. cbn zeta. eapply observes_bind; [apply live_tag_observes | by intros fs e [? [=]]|]. intros ksk.
    eapply observes_bind; [apply live_tag_observes | by intros fs e [? [=]]|]. intros zsk.
    apply observes_ret. intros fs _ _ Hr. eexists. split; [done|]. intros Hnf Hd Hdom kt t Hkt Ht Hfile.
    destruct (Hr Hnf Hd) as (names & -> & Hnames). apply elem_of_list_to_set.
    destruct (KeysDir_clean cfg) as [HK _]. pose proof (taggedBase_child cfg domain kt t Hdom Hkt) as Hc.
    assert (child (KeysDir cfg) (taggedBase cfg domain kt t +:+ ".key")) as Hck by (apply child_app; [done | by apply (bool_decide_unpack _)]).
    assert (Base (taggedBase cfg domain kt t +:+ ".key") ∈ names) as Hin.
    { apply Hnames; [done | by apply child_Dir|]. destruct Hck as (nm & E & Hn & Hne). intros E'. rewrite E' in E.
      apply (f_equal String.length) in E. rewrite !string_length_app in E. cbn in E. lia. }
    rewrite taggedBase_path in Hin by done. rewrite !string_app_assoc, Base_child in Hin.
    2: { destruct (tagged_name domain kt t Hdom Hkt) as [Hn _]. rewrite !free_of_app in *. split_and!; try apply Hn. by apply (bool_decide_unpack _). }
    2: { by destruct domain. }
    assert (t ∈ omap (tag_in_name domain kt) names) as Homap.
    { apply list_elem_of_omap. eexists. split; [exact Hin|]. rewrite <- (tag_in_name_tagged domain kt t Ht). by rewrite !string_app_assoc. }
    destruct Hkt as [->| ->]; set_solver.
Qed.

(** ** Drawing *)

(** What [draws] draws of key material amount to. *)
Definition drawn (domain algorithm : string) (flags : Z) (tags : gset Z) (first last : nat) (bound : Z) (r : res GoError.t (DNSKEY.t * list Z)) : Prop :=
  Z.of_nat last <= Z.of_nat first + bound /\ (first < last)%nat /\
  match r with
  | Ok kp => KeyTagOf kp.1 ∉ tags /\ exists n, (first <= n < last)%nat /\ generateDNSSECKey n domain algorithm flags = Ok kp
  | Err _ => (exists n msg, (first <= n < last)%nat /\ generateDNSSECKey n domain algorithm flags = Err msg) \/
      (Z.of_nat last = Z.of_nat first + bound /\ forall n, (first <= n < last)%nat -> exists kp, generateDNSSECKey n domain algorithm flags = Ok kp /\ KeyTagOf kp.1 ∈ tags)
  end.

Lemma draw_unused_spec fuel attempt domain keyType algorithm flags tags d :
  1 <= attempt <= 10 -> 11 <= attempt + Z.of_nat fuel ->
  let '(r, d') := draw_unused fuel attempt domain keyType algorithm flags tags d in
  Disk.nodes d' = Disk.nodes d /\ Disk.past d' = Disk.past d /\ drawn domain algorithm flags tags (Disk.draws d) (Disk.draws d') (11 - attempt) r.
Proof.
  revert attempt d. induction fuel as [|fuel IH]; intros attempt d Ha Hf; [lia|]. unfold drawn. cbn [draw_unused]. unfold bind at 1, wrapf at 1, draw_key.
  destruct (generateDNSSECKey (Disk.draws d) domain algorithm flags) as [kp|msg] eqn:Eg.
  2: { cbn. split_and!; [done..|lia|lia|]. left. exists (Disk.draws d), msg. split; [lia | done]. }
  unfold tagInUse. case_bool_decide as Hin; cbn [negb].
  2: { cbn. split_and!; [done..|lia|lia|done|]. exists (Disk.draws d). split; [lia | done]. }
  destruct (Z.leb_spec maxTagAttempts attempt) as [Hmax|Hmax]; unfold maxTagAttempts in Hmax.
  - cbn. split_and!; [done..|lia|lia|]. right. split; [lia|]. intros n Hn. replace n with (Disk.draws d) by lia. by exists kp.
  - specialize (IH (attempt + 1) (Disk.mk (Disk.nodes d) (Disk.past d) (Disk.calls d) (S (Disk.draws d))) ltac:(lia) ltac:(lia)).
    destruct (draw_unused fuel _ _ _ _ _ _ _) as [r d']. destruct IH as (Hn & Hp & Hb & Hlt & Hr). cbn in *.
    split_and!; [done..|lia|lia|]. destruct r as [kp'|e].
    + destruct Hr as (? & n & ? & ?). split; [done|]. exists n. split; [lia | done].
    + destruct Hr as [(n & msg & ? & ?)|[Hl Hall]]; [left; exists n, msg; split; [lia | done] | right; split; [lia|]].
      intros n Hn'. destruct (decide (n = Disk.draws d)) as [->|]; [by exists kp | apply Hall; lia].
Qed.

(** What minting the material of a key tells: it only reads and draws. *)
Definition material (cfg : Config) (domain : string) (isKSK : bool) (override : string) (d d' : Disk.t) (r : res GoError.t (DNSKEY.t * list Z * KeyState.t)) : Prop :=
  let algorithm := if String.eqb override "" then GetZoneAlgorithm cfg domain else override in
  exists tags,
    (NoFaults -> is_dir (Disk.nodes d) (KeysDir cfg) = true -> no_slash domain -> forall kt t, role_ext kt -> 0 <= t < 65536 ->
       is_Some (Disk.nodes d !! (taggedBase cfg domain kt t +:+ ".key")) -> t ∈ tags) /\
    drawn domain algorithm (if isKSK then 257 else 256) tags (Disk.draws d) (Disk.draws d') 10 (match r with Ok m => Ok m.1 | Err e => Err e end) /\
    (forall k p ks, r = Ok (k, p, ks) -> KeyState.ID ks = KeyTagOf k /\ KeyState.Algorithm ks = algorithm).
Lemma generateKeyMaterial_spec cfg domain isKSK override now d :
  let '(r, d') := generateKeyMaterial cfg domain isKSK override now d in
  Disk.nodes d' = Disk.nodes d /\ Disk.past d' = Disk.past d /\ material cfg domain isKSK override d d' r.
Proof.
  unfold generateKeyMaterial, material. set (algorithm := if String.eqb override "" then _ else _).
  unfold bind at 1. pose proof (existingKeyTags_observes cfg domain d) as He.
  destruct (existingKeyTags cfg domain d) as [r d1]. destruct He as (Hn & Hp & Hd & tags & -> & Htags).
  unfold bind at 1. pose proof (draw_unused_spec (Z.to_nat maxTagAttempts) 1 domain (role_name (keyRole isKSK)) algorithm (if isKSK then 257 else 256) tags d1 ltac:(lia) ltac:(done)) as Hdraw.
  destruct (draw_unused _ _ _ _ _ _ _ d1) as [[kp|e] d2]; destruct Hdraw as (Hn2 & Hp2 & Hdr); cbn; rewrite Hn2, Hp2, Hn, Hp; (split_and!; [done..|]);
    exists tags; rewrite Hd in Hdr; split_and!; done || exact Hdr || idtac; by intros ? ? ? [= -> <-].
Qed.

(** ** Generations survive *)

(** Key material drawn from now on is another key. *)
Definition unborn (k : DNSKEY.t) (d : Disk.t) : Prop := forall n domain algorithm flags kp,
  (Disk.draws d <= n)%nat -> generateDNSSECKey n domain algorithm flags = Ok kp -> samePublicKey k kp.1 = false.

Lemma unborn_later k d d' : unborn k d -> (Disk.draws d <= Disk.draws d')%nat -> unborn k d'.
Proof. intros Hu Hle n ? ? ? ? Hn. apply Hu. lia. Qed.

Section retains.
Context (k : DNSKEY.t).

Lemma StageKeyPair_retains cfg domain keyType dnskey privateKey (Q : res GoError.t string -> Disk.t -> Prop) d :
  samePublicKey k dnskey = false -> retained k (Disk.nodes d) ->
  (forall r d', retained k (Disk.nodes d') -> staged domain keyType (taggedBase cfg domain keyType (KeyTagOf dnskey)) dnskey r (Disk.nodes d') -> Q r d') ->
  always (retained k) (StageKeyPair cfg domain keyType dnskey privateKey) Q d.
Proof.
  intros Hne (b & kb & p & Hpair & Hsame) HQ. pose proof Hpair as (nk & np & Rk & Rp & Pk & Pp & Hc & Hkept)%pair_nodes.
  assert (samePublicKey kb dnskey = false) as Hne'.
  { apply not_true_is_false. intros Hs. apply samePublicKey_sym in Hsame. by rewrite (samePublicKey_trans _ _ _ Hsame Hs) in Hne. }
  assert (forall fs, kept b nk np fs -> retained k fs) as Hret.
  { intros fs Hk. exists b, kb, p. split; [by eapply (kept_pair b nk np) | done]. }
  eapply always_mono; [apply (StageKeyPair_kept b nk np kb p Rk Rp Pk Pp Hc _ _ _ _ _ _ d Hne' Hkept)|exact Hret|].
  - intros r d' _ Hst. exact Hst.
  - intros r d' Hk Hst. cbn in Hst. apply HQ; auto.
Qed.
Lemma SaveKeyFiles_retains cfg domain keyType dnskey privateKey (Q : res GoError.t unit -> Disk.t -> Prop) d :
  samePublicKey k dnskey = false -> retained k (Disk.nodes d) -> (forall r d', retained k (Disk.nodes d') -> Q r d') ->
  always (retained k) (SaveKeyFiles cfg domain keyType dnskey privateKey) Q d.
Proof.
  intros Hne Hr HQ. apply always_bind, StageKeyPair_retains; [done..|]. intros [base|e] d1 Hr1 _; [|by apply HQ].
  eapply always_post; [by apply ActivateKeyPair_retains|]. intros r d2 Hr2 _. by apply HQ.
Qed.

Lemma generateKeyMaterial_retains cfg domain isKSK override now (Q : res GoError.t (DNSKEY.t * list Z * KeyState.t) -> Disk.t -> Prop) d :
  unborn k d -> retained k (Disk.nodes d) ->
  (forall r d', retained k (Disk.nodes d') -> (forall m, r = Ok m -> samePublicKey k m.1.1 = false) -> unborn k d' -> Q r d') ->
  always (retained k) (generateKeyMaterial cfg domain isKSK override now) Q d.
Proof.
  intros Hu Hr HQ. pose proof (generateKeyMaterial_spec cfg domain isKSK override now d) as Hs. unfold always.
  destruct (generateKeyMaterial cfg domain isKSK override now d) as [r d']. destruct Hs as (Hn & Hp & tags & _ & (_ & Hlt & Hdr) & _).
  split_and!; [exists []; by rewrite Hp | by rewrite Hn | lia|]. apply HQ; [by rewrite Hn | |].
  - intros [[dk p] ks] ->. destruct Hdr as (_ & n & Hn' & Hg). by apply (Hu n _ _ _ _ ltac:(lia) Hg).
  - intros n ? ? ? ? Hle. apply Hu. lia.
Qed.
Lemma generateKey_retains cfg domain isKSK override now (Q : res GoError.t KeyState.t -> Disk.t -> Prop) d :
  unborn k d -> retained k (Disk.nodes d) -> (forall r d', retained k (Disk.nodes d') -> unborn k d' -> Q r d') ->
  always (retained k) (generateKey cfg domain isKSK override now) Q d.
Proof.
  intros Hu Hr HQ. apply always_bind, generateKeyMaterial_retains; [done..|]. intros [[[dk p] ks]|e] d1 Hr1 Hne Hu1; [|by apply HQ].
  apply always_bind, always_wrapf. eapply always_later; [apply (SaveKeyFiles_retains _ _ _ _ _ (fun _ _ => True)); auto; by apply (Hne _ eq_refl)|].
  intros [[]|e] d2 Hr2 Hle _; outcome; [apply always_ret; [done|]|]; (apply HQ; [done|]; eauto using unborn_later).
Qed.
Lemma stageNewKey_retains cfg domain isKSK override now (Q : res GoError.t KeyState.t -> Disk.t -> Prop) d :
  unborn k d -> retained k (Disk.nodes d) -> (forall r d', retained k (Disk.nodes d') -> unborn k d' -> Q r d') ->
  always (retained k) (stageNewKey cfg domain isKSK override now) Q d.
Proof.
  intros Hu Hr HQ. apply always_bind, generateKeyMaterial_retains; [done..|]. intros [[[dk p] ks]|e] d1 Hr1 Hne Hu1; [|by apply HQ].
  apply always_bind. eapply always_later; [apply (StageKeyPair_retains _ _ _ _ _ (fun _ _ => True)); auto; by apply (Hne _ eq_refl)|].
  intros [base|e] d2 Hr2 Hle _; outcome; [apply always_ret; [done|]|]; (apply HQ; [done|]; eauto using unborn_later).
Qed.

(** ** Recovery *)

Lemma keyFileMtime_observes path : observes (keyFileMtime path) (fun _ _ => True).
Proof.
  unfold keyFileMtime. eapply observes_bind_catch; [apply Stat_observes|]. intros [n|e]; [by apply observes_ret|].
  intros d. cbn. done.
Qed.
Lemma parseKeyFileCreatedDate_observes path : observes (parseKeyFileCreatedDate path) (fun _ _ => True).
Proof.
  unfold parseKeyFileCreatedDate. eapply observes_bind_catch; [apply ReadFile_observes|]. intros [data|e].
  - destruct (created_in _); [by apply observes_ret | eapply observes_mono; [apply keyFileMtime_observes | done]].
  - eapply observes_mono; [apply keyFileMtime_observes | done].
Qed.

(** A recovery reads only; it reports no key exactly when neither half exists. *)
Definition recovered (cfg : Config) (domain : string) (isKSK : bool) (fs : Files) (x : option KeyState.t) : Prop :=
  let base := liveBase cfg domain (role_name (keyRole isKSK)) in
  match x with
  | None => resolve fs (base +:+ ".key") = Err ENOENT /\ resolve fs (base +:+ ".private") = Err ENOENT
  | Some ks => exists dk p, pair_at fs base dk p /\ KeyState.ID ks = KeyTagOf dk /\ KeyState.Algorithm ks = AlgorithmName (DNSKEY.Algorithm dk)
  end.
Lemma RecoverKeyState_sees cfg domain isKSK : sees (RecoverKeyState cfg domain isKSK) (recovered cfg domain isKSK).
Proof.
  unfold RecoverKeyState. eapply sees_bind; [apply sees_wrapf, statExists_sees|]. intros keyExists.
  eapply sees_bind; [apply sees_wrapf, statExists_sees|]. intros privExists.
  destruct (negb keyExists && negb privExists) eqn:E0.
  - apply andb_true_iff in E0 as [->%negb_true_iff ->%negb_true_iff]. apply sees_ret. by intros fs S2 S1.
  - destruct (negb (Bool.eqb keyExists privExists)); [by destruct keyExists; apply observes_fail|].
    eapply sees_bind; [apply sees_wrapf, loadKeyPair_sees|]. intros kp.
    eapply sees_bind; [eapply observes_mono; [apply parseKeyFileCreatedDate_observes|]; by intros fs r _ a _ ; exact I|]. intros created.
    apply sees_ret. intros fs _ Hp _ _. by exists kp.1, kp.2.
Qed.

Lemma recover_or_generate_retains cfg domain isKSK now (Q : res GoError.t (KeyState.t * option KeyState.t) -> Disk.t -> Prop) d :
  unborn k d -> retained k (Disk.nodes d) -> (forall r d', retained k (Disk.nodes d') -> unborn k d' -> Q r d') ->
  always (retained k) (recover_or_generate cfg domain isKSK now) Q d.
Proof.
  intros Hu Hr HQ. unfold recover_or_generate. apply always_bind, always_wrapf. eapply always_later; [eapply (always_sees _ _ _ (fun _ d' => Disk.nodes d' = Disk.nodes d)); [apply RecoverKeyState_sees | done | done | done]|].
  intros [[ks|]|e] d1 Hr1 Hle Hd1; outcome; [apply always_ret; [done|]; apply HQ; eauto using unborn_later | | apply HQ; eauto using unborn_later].
  apply always_bind, always_wrapf, generateKey_retains; [by eapply unborn_later | done|]. intros [ks|e] d2 Hr2 Hu2; outcome; [apply always_ret; [done|]|]; by apply HQ.
Qed.
Lemma RecoverOrGenerateKeysReport_retains cfg domain now1 now2 d :
  unborn k d -> retained k (Disk.nodes d) ->
  always (retained k) (RecoverOrGenerateKeysReport cfg domain now1 now2) (fun _ _ => True) d.
Proof.
  intros Hu Hr. unfold RecoverOrGenerateKeysReport. apply always_bind, always_catch, recover_or_generate_retains; [done..|].
  intros [[ksk g1]|e] d1 Hr1 Hu1; outcome; [|by apply always_ret]. apply always_bind, always_catch, recover_or_generate_retains; [done..|].
  intros [[zsk g2]|e] d2 Hr2 Hu2; outcome; by apply always_ret.
Qed.

Lemma BackupKey_retains cfg domain keyType keyID d :
  retained k (Disk.nodes d) -> always (retained k) (BackupKey cfg domain keyType keyID) (fun _ _ => True) d.
Proof.
  intros (b & kb & p & Hpair & Hsame). pose proof Hpair as (nk & np & Rk & Rp & Pk & Pp & Hc & Hkept)%pair_nodes.
  apply (always_mono (kept b nk np) _ _ (fun _ _ => True)); [|intros fs Hk; exists b, kb, p; split; [by eapply (kept_pair b nk np) | done] | done].
  apply always_bind, (ensureVerifiedBackup_kept b nk np kb p Rk Rp Pk Pp Hc); [done|]. intros [live|e] d1 Hk1 _; outcome; [|done].
  destruct (negb _); [by apply always_fail | by apply always_ret].
Qed.
End retains.

(** Where a half of the live pair exists, nothing is drawn and nothing written. *)
Lemma recover_or_generate_reads cfg domain isKSK now d :
  let base := liveBase cfg domain (role_name (keyRole isKSK)) in
  ~ (resolve (Disk.nodes d) (base +:+ ".key") = Err ENOENT /\ resolve (Disk.nodes d) (base +:+ ".private") = Err ENOENT) ->
  let '(r, d') := recover_or_generate cfg domain isKSK now d in
  Disk.nodes d' = Disk.nodes d /\ Disk.past d' = Disk.past d /\ Disk.draws d' = Disk.draws d /\
  forall ks g, r = Ok (ks, g) -> g = None /\ recovered cfg domain isKSK (Disk.nodes d) (Some ks).
Proof.
  intros base Hex. unfold recover_or_generate. unfold bind at 1, wrapf at 1. pose proof (RecoverKeyState_sees cfg domain isKSK d) as Hs.
  destruct (RecoverKeyState cfg domain isKSK d) as [[[ks|]|e] d1]; destruct Hs as (Hn & Hp & Hd & Hs).
  - cbn. split_and!; [done..|]. intros ? ? [= <- <-]. exact (conj eq_refl (Hs _ eq_refl)).
  - destruct Hex. exact (Hs None eq_refl).
  - cbn. split_and!; [done..|]. by intros.
Qed.
End mint.
