(* ===== verification/KeyTheorems.v ===== *)
(** * KeyTheorems: the properties of the key directory, and a directory to run them on

    A key scheme and file format that parse what they print, an operating system with
    chosen faults, and a small disk; the witnesses of the theorems on key files use
    them. *)

From stdpp Require Import base list strings gmap pretty.
From Stdlib Require Import ZArith Lia Ascii.
From S2P Require Import Prelude Paths GoTime Config ZoneState FileSys KeyOps Names SampleZone Digests Wire Serial KeyMaterial Signatures KeyFiles FileSysSound KeyFilesSound KeyFilesLive KeyFilesRecover KeyFilesMint.
Local Open Scope Z_scope.

Definition word_rr (line : string) : res string RR :=
  match Split " " line with
  | [owner; "DNSKEY"; flags; protocol; alg; public] =>
      match ParseUint flags 16, ParseUint protocol 8, ParseUint alg 8 with
      | Some flags, Some protocol, Some alg => Ok (RR_DNSKEY (DNSKEY.mk (Hdr.mk owner TypeDNSKEY 1 3600) flags protocol alg public))
      | _, _, _ => Err "bad DNSKEY"
      end
  | _ => Err "bad record"
  end.
Definition word_string (key : DNSKEY.t) : string :=
  Join [Hdr.Name (DNSKEY.Hdr key); "DNSKEY"; pretty (DNSKEY.Flags key); pretty (DNSKEY.Protocol key); pretty (DNSKEY.Algorithm key); DNSKEY.PublicKey key] " ".

Definition toy_public (seed : list Z) : list Z := map (fun x => 255 - x) seed.
Definition toy_seed (draw : nat) : list Z := repeat (Z.of_nat (S draw)) 32.

(** The public half is the complement of the seed; draw [n] has the seed of its number. *)
#[global] Instance disk_crypto : CryptoLib := {
  NewKeyFromSeed seed := seed ++ toy_public seed;
  ScalarBaseMult _ d := (be_value d, 0);
  CurveN _ := 2 ^ 255;
  ParsePKCS1PrivateKey _ := Err "not supported";
  MarshalPKCS1PrivateKey _ := [];
  ValidateRSA _ := Some "not supported";
  NewRR := word_rr;
  DNSKEYString := word_string;
  PrivateKeyString _ _ := "";
  GenerateEd25519 n := Ok (toy_public (toy_seed n), toy_seed n ++ toy_public (toy_seed n));
  GenerateECDSA n c := Err "not supported";
  GenerateRSA n key bits := Err "not supported"
}.
#[global] Instance disk_wire : WireLib := {
  KeyTagOf key := match base64_decode (DNSKEY.PublicKey key) with Ok (b :: _) => b | _ => 0 end
}.
#[global] Instance disk_tags : TagOfRdata.
Proof. intros a b' _ _ _ E. cbn. by rewrite E. Qed.

(** An operating system that fails the calls [fails] names. *)
Definition os_with (fails : nat -> option HardErr) : OS := {|
  fault := fails; torn _ := 5%nat; nextRandom n := Z.of_nat n; clock n := unix_time (1700000000 + Z.of_nat n);
  Euid := 1000; Egid := 1000; Umask := 18; ownership := Ownership.mk 0 0 false
|}.
Definition calm : OS := os_with (fun _ => None).
Lemma calm_no_faults : NoFaults (H := calm).
Proof. done. Qed.
Lemma calm_fresh_names : FreshNames (H := calm).
Proof. intros i j Hij _ E. cbn in E. lia. Qed.

(** ** A disk *)

Definition folder : Node.t := Node.mk Directory "" 493 1000 1000 (unix_time 0).
Definition empty_disk : Disk.t := Disk.mk (list_to_map [("/", folder); ("/var", folder); ("/var/lib", folder)]) [] 0 0.
Abbreviation sample_cfg := DefaultConfig.
Definition sample_now : Time := unix_time 1700000000.

(** A first KSK is generated and live, a second one is staged. *)
Definition two_generations (o : OS) : FS (KeyState.t * KeyState.t) :=
  first <-- GenerateKSK sample_cfg "example" sample_now ;;
  second <-- StageKSK sample_cfg "example" "ED25519" sample_now ;;
  ret (first, second).
Definition sample_disk : Disk.t := (two_generations calm empty_disk).2.

(** Every call from number [n] on fails: the process is gone. *)
Definition crash_at (n : nat) : OS := os_with (fun call => if (n <=? call)%nat then Some EIO else None).

(** ** What the sample disk holds *)

Lemma loaded_now `{OS} base domain keyType d kp :
  (loadVerifiedPair base domain keyType d).1 = Ok kp -> verified_at (Disk.nodes d) base domain keyType kp.1 kp.2.
Proof.
  pose proof (loadVerifiedPair_sees base domain keyType d) as Hs. destruct (loadVerifiedPair base domain keyType d) as [r d'].
  cbn. intros ->. destruct Hs as (_ & _ & _ & Hv). by apply Hv.
Qed.
Definition loaded_or_none (base : string) (d : Disk.t) : DNSKEY.t * list Z :=
  match (loadVerifiedPair (H := calm) base "example" "ksk" d).1 with Ok kp => kp | Err _ => (new_dnskey "" 0 0 "", []) end.
Abbreviation sample_live := (liveBase sample_cfg "example" "ksk").
Abbreviation sample_slot := (taggedBase sample_cfg "example" "ksk").
Definition first_key : DNSKEY.t * list Z := loaded_or_none sample_live sample_disk.
Definition second_key : DNSKEY.t * list Z := loaded_or_none (sample_slot 253) sample_disk.

Lemma sample_first : verified_at (Disk.nodes sample_disk) sample_live "example" "ksk" first_key.1 first_key.2.
Proof. apply (loaded_now (H := calm)). vm_compute. reflexivity. Qed.
Lemma sample_second : verified_at (Disk.nodes sample_disk) (sample_slot 253) "example" "ksk" second_key.1 second_key.2.
Proof. apply (loaded_now (H := calm)). vm_compute. reflexivity. Qed.

(** The second key is being activated when the process dies: its private half is live
    already, its public half is not. *)
Definition broken_disk : Disk.t := (ActivateKeyPair (H := crash_at 131) sample_cfg "example" "ksk" 253 sample_disk).2.
Example broken_pair : is_ok (loadVerifiedPair (H := calm) sample_live "example" "ksk" broken_disk).1 = false.
Proof. vm_compute. reflexivity. Qed.

Definition readyb (m : Z) (fs : Files) : bool :=
  is_dir fs (KeysDir sample_cfg) && (Z.of_nat (size fs) + m <? 10000) &&
  forallb (fun pn => negb (HasSuffix pn.1 ".key" || HasSuffix pn.1 ".private") || bool_decide (Node.Kind pn.2 = Regular)) (map_to_list fs).
Lemma readyb_ok m fs : readyb m fs = true -> ready sample_cfg "example" "ksk" m fs.
Proof.
  intros [[Hd Hs]%andb_true_iff Hf]%andb_true_iff.
  assert (forall base, slot_plain fs base) as Hplain.
  { assert (forall path n, HasSuffix path ".key" || HasSuffix path ".private" = true -> fs !! path = Some n -> Node.Kind n = Regular) as Hreg.
    { intros path n Hp Hn%elem_of_map_to_list%list_elem_of_In. apply (proj1 (forallb_forall _ _) Hf) in Hn. cbn [fst snd] in Hn. rewrite Hp in Hn.
      cbn [negb orb] in Hn. by apply bool_decide_eq_true in Hn. }
    intros base. split; intros n; apply Hreg; rewrite HasSuffix_app; [done | by rewrite orb_true_r]. }
  split; [done | by apply Z.ltb_lt in Hs | done..].
Qed.

(** ** The properties of the key directory

    Each theorem holds for every sequence of failing system calls; where it speaks of
    the states of the files a run goes through, those are all the states a crash of the
    process can leave. *)

(** ** Interrupted operations *)

Section steps.
Context `{DnsLib} `{WireLib} `{CryptoLib}.

(** One operation on the key directory, under any operating system, stopped anywhere:
    key material drawn, staged or saved is not the key [k]. *)
Inductive key_step (k : DNSKEY.t) : Files -> Files -> Prop :=
| stage_step (o : OS) cfg domain keyType dnskey privateKey d fs :
    samePublicKey k dnskey = false -> crash_states (StageKeyPair cfg domain keyType dnskey privateKey) d fs -> key_step k (Disk.nodes d) fs
| save_step (o : OS) cfg domain keyType dnskey privateKey d fs :
    samePublicKey k dnskey = false -> crash_states (SaveKeyFiles cfg domain keyType dnskey privateKey) d fs -> key_step k (Disk.nodes d) fs
| activate_step (o : OS) cfg domain keyType tag d fs :
    crash_states (ActivateKeyPair cfg domain keyType tag) d fs -> key_step k (Disk.nodes d) fs
| ensure_step (o : OS) cfg domain keyType tag d fs :
    crash_states (EnsureLiveKey cfg domain keyType tag) d fs -> key_step k (Disk.nodes d) fs
| backup_step (o : OS) cfg domain keyType tag d fs :
    crash_states (BackupKey cfg domain keyType tag) d fs -> key_step k (Disk.nodes d) fs
| stage_new_step (o : OS) cfg domain isKSK override now d fs :
    unborn k d -> crash_states (stageNewKey cfg domain isKSK override now) d fs -> key_step k (Disk.nodes d) fs
| generate_step (o : OS) cfg domain isKSK override now d fs :
    unborn k d -> crash_states (generateKey cfg domain isKSK override now) d fs -> key_step k (Disk.nodes d) fs
| recover_step (o : OS) cfg domain now1 now2 d fs :
    unborn k d -> crash_states (RecoverOrGenerateKeysReport cfg domain now1 now2) d fs -> key_step k (Disk.nodes d) fs.

(** C5: No generation is lost to the others: while operations on the key directory run,
    one after the other, each of them failing or stopped at any of its system calls, a
    key whose two halves could be loaded as a pair can still be loaded from some pair
    of files.  No operation may stage or save that very key, nor draw it anew
    ([key_step]): rewriting a slot with the key it holds is not protected. *)
Theorem generations_survive k fs fs' : rtc (key_step k) fs fs' -> retained k fs -> retained k fs'.
Proof.
  induction 1 as [|fs fs1 fs' Hstep _ IH]; [done|]. intros Hr. apply IH. clear IH fs'.
  destruct Hstep as [o ? ? ? ? ? d fs Hne Hc|o ? ? ? ? ? d fs Hne Hc|o ? ? ? ? d fs Hc|o ? ? ? ? d fs Hc|o ? ? ? ? d fs Hc|o ? ? ? ? ? d fs Hu Hc|o ? ? ? ? ? d fs Hu Hc|o ? ? ? ? d fs Hu Hc];
    (eapply always_crash; [|exact Hc]).
  - by apply (StageKeyPair_retains k _ _ _ _ _ (fun _ _ => True)).
  - by apply (SaveKeyFiles_retains k _ _ _ _ _ (fun _ _ => True)).
  - by apply ActivateKeyPair_retains.
  - by apply EnsureLiveKey_retains.
  - by apply BackupKey_retains.
  - by apply (stageNewKey_retains k _ _ _ _ _ (fun _ _ => True)).
  - by apply (generateKey_retains k _ _ _ _ _ (fun _ _ => True)).
  - by apply RecoverOrGenerateKeysReport_retains.
Qed.

(** Attempts to make a generation live, of any zone and role, stopped anywhere. *)
Inductive attempt (cfg : Config) : Files -> Files -> Prop :=
| activate_attempt (o : OS) domain keyType tag d fs :
    role_ext keyType -> crash_states (ActivateKeyPair cfg domain keyType tag) d fs -> attempt cfg (Disk.nodes d) fs
| ensure_attempt (o : OS) domain keyType tag d fs :
    role_ext keyType -> crash_states (EnsureLiveKey cfg domain keyType tag) d fs -> attempt cfg (Disk.nodes d) fs.

Lemma attempt_keeps cfg domain keyType tag nk np k p fs fs' :
  role_ext keyType -> attempt cfg fs fs' -> pair_at fs (taggedBase cfg domain keyType tag) k p ->
  kept (taggedBase cfg domain keyType tag) nk np fs -> kept (taggedBase cfg domain keyType tag) nk np fs'.
Proof.
  intros Hrole Ha Hp [E1 E2]. destruct Ha as [o domain' keyType' tag' d fs Hr Hc|o domain' keyType' tag' d fs Hr Hc].
  - destruct (ActivateKeyPair_other cfg domain' keyType' tag' (taggedBase cfg domain keyType tag) k p d _ ltac:(by apply tagged_not_live) Hp eq_refl)
      as (nk' & np' & [F1 F2] & Halw). rewrite E1 in F1. rewrite E2 in F2. injection F1 as <-. injection F2 as <-. by eapply always_crash.
  - eapply always_crash; [|exact Hc]. by eapply EnsureLiveKey_other; [apply tagged_not_live | exact Hp|].
Qed.

(** C8: Activation recovers from crashes: after any number of attempts to make
    generations live, each stopped anywhere, a run without failing calls makes the
    recorded generation live, if its staged pair loaded at the outset and the directory
    has room for the backups. *)
Theorem interrupted_activation_recovers (o : OS) cfg domain keyType tag k p fs fs' d :
  NoFaults -> FreshNames -> TagOfRdata -> no_slash domain -> role_ext keyType ->
  verified_at fs (taggedBase cfg domain keyType tag) domain keyType k p -> KeyTagOf k = tag ->
  rtc (attempt cfg) fs fs' -> ready cfg domain keyType 10 fs' -> Disk.nodes d = fs' ->
  exists live priv d', EnsureLiveKey cfg domain keyType tag d = (Ok (live, priv), d') /\
    KeyTagOf live = tag /\ verified_at (Disk.nodes d') (liveBase cfg domain keyType) domain keyType live priv.
Proof.
  intros Hnf Hfresh Htagof Hdom Hrole [Hpair Hadm] Htag Hrun Hready Hd.
  pose proof Hpair as (nk & np & Rk & Rp & Pk & Pp & Hc & Hkept)%pair_nodes. set (slot := taggedBase cfg domain keyType tag) in *.
  assert (kept slot nk np fs') as Hkept'.
  { clear Hready Hd Hpair. induction Hrun as [|fs fs1 fs' Hstep _ IH]; [done|]. apply IH.
    eapply attempt_keeps; [done | exact Hstep | by eapply (kept_pair slot nk np) | done]. }
  destruct (EnsureLiveKey_ready cfg domain keyType Hdom Hrole tag k p 10 fs' ltac:(lia) Hready) with (d := d) as ([live priv] & d' & Hrun' & Hv); [|done..|].
  - split; [by eapply (kept_pair slot nk np) | done].
  - by exists live, priv, d'.
Qed.

(** The signer gets the recorded key or none: a key [EnsureLiveKey] returns has
    the expected tag, is the verified live pair, and is admitted to the zone and role;
    whatever calls fail. *)
Theorem live_key_is_recorded (o : OS) cfg domain keyType expected d live priv d' :
  EnsureLiveKey cfg domain keyType expected d = (Ok (live, priv), d') ->
  KeyTagOf live = expected /\ verified_at (Disk.nodes d') (liveBase cfg domain keyType) domain keyType live priv.
Proof.
  apply EnsureLiveKey_yields.
Qed.

(** C39: Staging writes one verified slot or nothing of use: success means the tag-named
    slot of the new key loads as that key, and a slot that loads as another key (a
    collision of tags) keeps both its files and is refused. *)
Theorem staging_is_verified (o : OS) cfg domain keyType dnskey privateKey k p d :
  let slot := taggedBase cfg domain keyType (KeyTagOf dnskey) in
  let run := StageKeyPair cfg domain keyType dnskey privateKey in
  (forall base d', run d = (Ok base, d') -> base = slot /\ exists k' p', verified_at (Disk.nodes d') slot domain keyType k' p' /\ samePublicKey k' dnskey = true) /\
  (pair_at (Disk.nodes d) slot k p -> samePublicKey k dnskey = false ->
     (exists e, (run d).1 = Err e) /\ forall fs, crash_states run d fs -> pair_at fs slot k p).
Proof.
  intros slot run. split; [intros base d'; apply StageKeyPair_yields|]. intros Hpair Hne.
  pose proof Hpair as (nk & np & Rk & Rp & Pk & Pp & Hc & Hkept)%pair_nodes.
  pose proof (StageKeyPair_kept slot nk np k p Rk Rp Pk Pp Hc cfg domain keyType dnskey privateKey
    (fun r d' => exists e, r = Err e) d Hne Hkept) as Ha.
  assert (always (kept slot nk np) run (fun r _ => exists e, r = Err e) d) as Halw.
  { apply Ha. intros [base|e] d' Hk' Hst; [|by exists e]. destruct (Hst base eq_refl) as (_ & k' & p' & [[Hk1 _] _] & Hs).
    destruct (kept_pair slot nk np k p Rk Rp Pk Pp Hc _ Hk') as [Hk2 _]. by rewrite (key_at_inj _ _ _ _ Hk1 Hk2), Hne in Hs. }
  split; [|intros fs Hcs; eapply (kept_pair slot nk np); [done..|]; by eapply always_crash].
  unfold always in Halw. destruct (run d) as [r d']. destruct Halw as (_ & _ & _ & He). exact He.
Qed.

(** Minting reads the directory and draws key material, ten times at most; the key it
    returns is one of those drawn, and where no system call fails the zone has no
    tag-named public key file for its tag; it gives up when a draw fails or after ten. *)
Theorem minted_tag_is_unused (o : OS) cfg domain isKSK override now d r d' :
  let algorithm := if String.eqb override "" then GetZoneAlgorithm cfg domain else override in
  let draw n := generateDNSSECKey n domain algorithm (if (isKSK : bool) then 257 else 256) in
  generateKeyMaterial cfg domain isKSK override now d = (r, d') ->
  Disk.nodes d' = Disk.nodes d /\ (Disk.draws d < Disk.draws d' <= Disk.draws d + 10)%nat /\
  match r with
  | Ok (k, p, ks) =>
      KeyState.ID ks = KeyTagOf k /\ KeyState.Algorithm ks = algorithm /\
      (exists n, (Disk.draws d <= n < Disk.draws d')%nat /\ draw n = Ok (k, p)) /\
      (NoFaults -> is_dir (Disk.nodes d) (KeysDir cfg) = true -> no_slash domain -> 0 <= KeyTagOf k < 65536 -> forall keyType, role_ext keyType ->
         Disk.nodes d !! (taggedBase cfg domain keyType (KeyTagOf k) +:+ ".key") = None)
  | Err _ => (exists n msg, draw n = Err msg) \/ Disk.draws d' = (Disk.draws d + 10)%nat
  end.
Proof.
  intros algorithm draw Hrun. pose proof (generateKeyMaterial_spec cfg domain isKSK override now d) as Hs. rewrite Hrun in Hs.
  destruct Hs as (Hn & _ & tags & Htags & (Hle & Hlt & Hr) & Hks). split; [done|]. split; [lia|].
  destruct r as [[[k p] ks]|e].
  - destruct (Hks _ _ _ eq_refl) as [? ?]. destruct Hr as [Hnew Hdraw]. split_and!; [done..|].
    intros Hnf Hd Hdom Htag keyType Hrole. destruct (Disk.nodes d !! (taggedBase cfg domain keyType (KeyTagOf k) +:+ ".key")) eqn:E; [|done].
    destruct Hnew. eapply Htags; eauto.
  - destruct Hr as [(n & msg & _ & ?)|[? _]]; [left; by exists n, msg | right; lia].
Qed.

(** C40: Recovery never mints over existing keys: where a half of a role's live pair
    exists, or cannot be told not to, [RecoverOrGenerateKeysReport] reports no generated
    key of that role, draws nothing for it, and a state it returns is that of the live
    pair. *)
Theorem recovery_never_overwrites (o : OS) cfg domain isKSK now d r d' :
  let base := liveBase cfg domain (role_name (keyRole isKSK)) in
  ~ (resolve (Disk.nodes d) (base +:+ ".key") = Err ENOENT /\ resolve (Disk.nodes d) (base +:+ ".private") = Err ENOENT) ->
  recover_or_generate cfg domain isKSK now d = (r, d') ->
  (forall fs, crash_states (recover_or_generate cfg domain isKSK now) d fs -> fs = Disk.nodes d) /\ Disk.draws d' = Disk.draws d /\
  forall ks generated, r = Ok (ks, generated) -> generated = None /\
    exists k p, pair_at (Disk.nodes d) base k p /\ KeyState.ID ks = KeyTagOf k /\ KeyState.Algorithm ks = AlgorithmName (DNSKEY.Algorithm k).
Proof.
  intros base Hex Hrun. pose proof (recover_or_generate_reads cfg domain isKSK now d Hex) as Hs. rewrite Hrun in Hs.
  destruct Hs as (Hn & Hp & Hd & Hr). split; [|by split].
  intros fs Hc. unfold crash_states in Hc. rewrite Hrun in Hc. destruct Hc as [->|(new & Hnew & Hin)]; [done|].
  cbn in Hnew. rewrite Hp in Hnew. apply (app_inv_tail (Disk.past d) []) in Hnew as <-. by apply not_elem_of_nil in Hin.
Qed.
End steps.

(** C9: A replaced file is never torn: at every state a writer of a file goes through,
    the path has its old node or the complete new one, beside them at most one temporary
    file of the writer's own; success leaves the new one, and an error leaves the old
    one unless the error says that the new one is in place. *)
Theorem replacement_is_atomic (o : OS) path d :
  (forall data perm, always (replacing (Disk.nodes d) path (written data perm)) (WriteFileAtomicOwned path data perm)
     (replaced (Disk.nodes d) path (written data perm)) d) /\
  (forall src, always (replacing (Disk.nodes d) path (copied (Disk.nodes d) src)) (CopyFile src path)
     (replaced (Disk.nodes d) path (copied (Disk.nodes d) src)) d) /\
  (forall data, always (replacing (Disk.nodes d) path (reconfigured (Disk.nodes d) path data)) (WriteConfigFileAtomic path data)
     (replaced (Disk.nodes d) path (reconfigured (Disk.nodes d) path data)) d).
Proof. split_and!; intros; [apply WriteFileAtomicOwned_always | apply CopyFile_always | apply WriteConfigFileAtomic_always]. Qed.

(** ** Witnesses *)

Lemma sample_retained : retained first_key.1 (Disk.nodes sample_disk).
Proof. destruct sample_first as [Hp _]. by eapply retained_pair. Qed.

(** An activation dies between its two copies; the key that was live is found again. *)
Lemma generations_survive_witness : retained first_key.1 (Disk.nodes broken_disk).
Proof.
  apply (generations_survive first_key.1 (Disk.nodes sample_disk) (Disk.nodes broken_disk)); [|exact sample_retained].
  eapply rtc_l; [|apply rtc_refl]. apply (activate_step _ (crash_at 131) sample_cfg "example" "ksk" 253). left. reflexivity.
Defined.

Lemma interrupted_activation_recovers_witness : exists live priv d',
  EnsureLiveKey (H := calm) sample_cfg "example" "ksk" 253 broken_disk = (Ok (live, priv), d') /\
  KeyTagOf live = 253 /\ verified_at (Disk.nodes d') sample_live "example" "ksk" live priv.
Proof.
  apply (interrupted_activation_recovers calm sample_cfg "example" "ksk" 253 second_key.1 second_key.2 (Disk.nodes sample_disk) (Disk.nodes broken_disk)).
  - exact calm_no_faults.
  - exact calm_fresh_names.
  - exact disk_tags.
  - by apply (bool_decide_unpack _).
  - by left.
  - exact sample_second.
  - vm_compute. reflexivity.
  - eapply rtc_l; [|apply rtc_refl]. apply (activate_attempt _ (crash_at 131) "example" "ksk" 253); [by left | left; reflexivity].
  - apply readyb_ok. vm_compute. reflexivity.
  - reflexivity.
Defined.

Lemma live_key_is_recorded_witness : exists live priv d',
  EnsureLiveKey (H := calm) sample_cfg "example" "ksk" 253 broken_disk = (Ok (live, priv), d') /\ KeyTagOf live = 253.
Proof.
  destruct (EnsureLiveKey (H := calm) sample_cfg "example" "ksk" 253 broken_disk) as [[[live priv]|e] d'] eqn:E.
  - exists live, priv, d'. split; [reflexivity|]. exact (proj1 (live_key_is_recorded calm sample_cfg "example" "ksk" 253 broken_disk live priv d' E)).
  - exfalso. apply (f_equal (fun x => is_ok x.1)) in E. vm_compute in E. discriminate E.
Defined.

(** Material with the tag of the second key but another key is refused. *)
Definition other_key : DNSKEY.t := new_dnskey "example" 257 ED25519 (base64_encode (253 :: repeat 7 31)).
Lemma staging_is_verified_witness :
  (exists e, (StageKeyPair (H := calm) sample_cfg "example" "ksk" other_key (repeat 2 32) sample_disk).1 = Err e).
Proof.
  apply (proj2 (staging_is_verified calm sample_cfg "example" "ksk" other_key (repeat 2 32) second_key.1 second_key.2 sample_disk)).
  - assert (taggedBase sample_cfg "example" "ksk" (KeyTagOf other_key) = sample_slot 253) as E by (vm_compute; reflexivity).
    rewrite E. exact (proj1 sample_second).
  - vm_compute. reflexivity.
Defined.

Lemma minted_tag_is_unused_witness : exists k p ks d',
  generateKeyMaterial (H := calm) sample_cfg "example" true "" sample_now sample_disk = (Ok (k, p, ks), d') /\ KeyState.ID ks = KeyTagOf k /\
  Disk.nodes sample_disk !! (sample_slot (KeyTagOf k) +:+ ".key") = None.
Proof.
  destruct (generateKeyMaterial (H := calm) sample_cfg "example" true "" sample_now sample_disk) as [[[[k p] ks]|e] d'] eqn:E.
  - exists k, p, ks, d'. split; [reflexivity|].
    destruct (minted_tag_is_unused calm sample_cfg "example" true "" sample_now sample_disk (Ok (k, p, ks)) d' E) as (_ & _ & Hid & _ & _ & Hfree).
    split; [exact Hid|]. apply Hfree; [exact calm_no_faults | vm_compute; reflexivity | by apply (bool_decide_unpack _) | | by left].
    apply (f_equal (fun x => match x.1 with Ok (k, _, _) => KeyTagOf k | Err _ => 0 end)) in E. cbn [fst] in E. rewrite <- E. vm_compute. by split.
  - exfalso. apply (f_equal (fun x => is_ok x.1)) in E. vm_compute in E. discriminate E.
Defined.

(** The broken live pair of the sample is not overwritten. *)
Lemma recovery_never_overwrites_witness : exists d',
  (recover_or_generate (H := calm) sample_cfg "example" true sample_now broken_disk).2 = d' /\ Disk.draws d' = Disk.draws broken_disk.
Proof.
  destruct (recover_or_generate (H := calm) sample_cfg "example" true sample_now broken_disk) as [r d'] eqn:E. exists d'. split; [reflexivity|].
  refine (proj1 (proj2 (recovery_never_overwrites calm sample_cfg "example" true sample_now broken_disk r d' _ E))).
  intros [Hk _]. vm_compute in Hk. discriminate Hk.
Defined.
