(* ===== verification/ZoneCheck.v ===== *)
(** * ZoneCheck: what a zone must satisfy before it is signed
    (signer/internal/signer/sign.go: stripInputDNSSEC, validateZoneRecords)

    The checks on the records as parsed.  Where Go ranges over the map of an owner's
    types to find an offending one, the message names the first in the order of
    [map_to_list]; which one Go names is unspecified, whether there is one is not. *)

From stdpp Require Import base list strings gmap pretty.
From Stdlib Require Import ZArith Lia.
From S2P Require Import Prelude Names Wire ZoneModel.
Local Open Scope Z_scope.

Definition isDNSSECMetadataType (t : Z) : bool := (t =? TypeRRSIG) || (t =? TypeNSEC) || (t =? TypeNSEC3).

(** What may appear at a zone cut. *)
Definition cut_type (t : Z) : bool :=
  (t =? TypeNS) || (t =? TypeDS) || (t =? TypeA) || (t =? TypeAAAA) || (t =? TypeRRSIG) || (t =? TypeNSEC) || (t =? TypeNSEC3).

Section snapshot.
Context `{DnsLib}.
Implicit Types (m : zoneModel.t).

Definition stripped (apex : string) (rr : RR) : bool :=
  let t := rr_type rr in
  if (t =? TypeRRSIG) || (t =? TypeNSEC) || (t =? TypeNSEC3) || (t =? TypeNSEC3PARAM) then true
  else (t =? TypeDNSKEY) && String.eqb (canonicalName (rr_name rr)) apex.
Definition stripInputDNSSEC (domain : string) (records : list RR) : list RR :=
  let apex := canonicalName domain in List.filter (fun rr => negb (stripped apex rr)) records.

(** The pass over the records: every owner within the zone, the SOAs at the apex. *)
Fixpoint check_owners m (apex : string) (records : list RR) (soaCount : nat) : res string nat :=
  match records with
  | [] => Ok soaCount
  | rr :: rest =>
      let name := canon rr in
      if negb (within m name) then Err (Sprintf "record owner %s is not within zone %s" [rr_name rr; apex])
      else if rr_type rr =? TypeSOA then
        if negb (String.eqb name (zoneModel.apex m)) then Err (Sprintf "SOA record at %s not at zone apex %s" [rr_name rr; apex])
        else check_owners m apex rest (S soaCount)
      else check_owners m apex rest soaCount
  end.

Definition offending (allowed : Z -> bool) (oi : ownerInfo.t) : option Z :=
  List.find (fun t => negb (allowed t)) (map fst (map_to_list (ownerInfo.types oi))).

Definition check_cname m (apex name : string) (oi : ownerInfo.t) : res string unit :=
  let n := type_count oi TypeCNAME in
  if Nat.eqb n 0 then Ok tt
  else if String.eqb name (zoneModel.apex m) then
    Err (Sprintf "CNAME at the zone apex %s cannot coexist with the SOA and NS records (RFC 1034 §3.6.2)" [apex])
  else if Nat.ltb 1 n then
    Err (Sprintf "owner %s has %d CNAME records; a CNAME must be the only CNAME at its owner (RFC 1034 §3.6.2)" [name; pretty n])
  else match offending (fun t => (t =? TypeCNAME) || isDNSSECMetadataType t) oi with
       | Some t => Err (Sprintf "owner %s has both CNAME and %s records; a CNAME must not coexist with other data (RFC 1034 §3.6.2)" [name; TypeString t])
       | None => Ok tt
       end.

Definition check_dname (name : string) (oi : ownerInfo.t) : res string unit :=
  let n := type_count oi TypeDNAME in
  if Nat.eqb n 0 then Ok tt
  else if Nat.ltb 1 n then Err (Sprintf "owner %s has %d DNAME records; only one is allowed (RFC 6672 §2.4)" [name; pretty n])
  else if has_type oi TypeCNAME then Err (Sprintf "owner %s has both DNAME and CNAME records (RFC 6672 §2.4)" [name])
  else Ok tt.

Definition check_cut m (name : string) (oi : ownerInfo.t) : res string unit :=
  if isDelegation m name then
    match offending cut_type oi with
    | Some t => Err (Sprintf "owner %s is a delegation point but holds %s records; only NS, DS and glue A/AAAA may appear at a zone cut (RFC 4035 §2.2)" [name; TypeString t])
    | None => Ok tt
    end
  else if has_type oi TypeDS then
    Err (Sprintf "owner %s has DS records but is not a delegation point (no NS RRset); DS belongs only at a zone cut (RFC 4035 §2.4)" [name])
  else Ok tt.

Definition check_owner m (apex name : string) (oi : ownerInfo.t) : res string unit :=
  check check_cname m apex name oi;
  check check_dname name oi;
  match occludingDNAME m name with
  | Some dn => Err (Sprintf "records at %s lie beneath the DNAME at %s; names beneath a DNAME must not exist (RFC 6672 §2.4)" [name; dn])
  | None => check_cut m name oi
  end.

Fixpoint check_each m (apex : string) (names : list string) : res string unit :=
  match names with
  | [] => Ok tt
  | name :: rest =>
      check match zoneModel.owners m !! name with Some oi => check_owner m apex name oi | None => Ok tt end;
      check_each m apex rest
  end.

Definition validateZoneRecords (domain : string) (records : list RR) : res string unit :=
  let apex := Fqdn domain in
  let m := newZoneModel domain records in
  try soaCount <- check_owners m apex records 0;
  if Nat.eqb soaCount 0 then Err "zone has no SOA record"
  else if Nat.ltb 1 soaCount then Err (Sprintf "zone has %d SOA records (must have exactly 1)" [pretty soaCount])
  else if match zoneModel.owners m !! zoneModel.apex m with Some oi => Nat.eqb (type_count oi TypeNS) 0 | None => true end then
    Err "zone has no NS records at apex"
  else check_each m apex (sort_slice canonicalLess (elements (dom (zoneModel.owners m)))).
End snapshot.
