(* ===== verification/SignZone.v ===== *)
(** * SignZone: from an unsigned zone file to a signed zone and its record
    (signer/internal/signer/sign.go)

    Reading a file is a sequence of observations of the file system, given as
    arguments ([SourceRead], [SignObs]); the zone parser belongs to the DNS library.
    Each clock reading of a pass is an argument of its own ([SignClock]).
    [prepareSignedZone] touches no file and no state; [recordSignedZone] is what a
    published zone changes in its record; [NeedsSign] decides when the next pass is
    due. *)

From stdpp Require Import base list strings gmap pretty.
From Stdlib Require Import ZArith Lia Ascii.
From S2P Require Import Prelude Paths GoTime Config ZoneState KeyOps Names Digests Wire Serial KeyMaterial ZoneModel NsecChain Signatures ZoneCheck.
Local Open Scope Z_scope.

#[local] Existing Instance ZoneState.ZoneState.eta_t.

(** ** Observations *)

Module FileInfo.
Record t := mk { IsRegular : bool; TypeName : string; Size : Z; ModTime : Time }.
End FileInfo.

(** One read of a source: the outcome of opening it, of the stat before, of
    reading at most one byte above the limit, and of the stat after. *)
Module SourceRead.
Record t := mk { opened : option string; before : res string FileInfo.t; data : res string string; after : res string FileInfo.t }.
End SourceRead.

Class ZoneFileLib := {
  (** [dns.NewZoneParser] over the data: the records it yields, and its error *)
  ParseZone : string -> string -> string -> list RR * option string
}.

(** ErrSourceTooLarge, or any other error *)
Inductive source_error := TooLargeErr (msg : string) | SourceErr (msg : string).
Definition source_text (e : source_error) : string := match e with TooLargeErr m | SourceErr m => m end.

Definition maxZoneFileBytes : Z := Z.shiftl 256 20.
Definition maxZoneRecords : Z := 2000000.
Definition ErrSourceTooLarge : string := "zone file exceeds the source limit".

Definition readSourceBytes (path : string) (r : SourceRead.t) : res source_error (string * FileInfo.t) :=
  match SourceRead.opened r with
  | Some err => Err (SourceErr err)
  | None =>
      match SourceRead.before r with
      | Err err => Err (SourceErr (Sprintf "inspecting zone file %s: %w" [path; err]))
      | Ok before =>
          if negb (FileInfo.IsRegular before) then
            Err (SourceErr (Sprintf "zone file %s is not a regular file (%s); pipes, devices and directories are not supported as zone sources"
              [path; FileInfo.TypeName before]))
          else if maxZoneFileBytes <? FileInfo.Size before then
            Err (TooLargeErr (Sprintf "%w: zone file %s is %d bytes, above the %d byte source limit; not read"
              [ErrSourceTooLarge; path; pretty (FileInfo.Size before); pretty maxZoneFileBytes]))
          else
            match SourceRead.data r with
            | Err err => Err (SourceErr (Sprintf "reading zone file %s: %w" [path; err]))
            | Ok data =>
                if maxZoneFileBytes <? Z.of_nat (String.length data) then
                  Err (TooLargeErr (Sprintf "%w: zone file %s exceeds the %d byte source limit while being read; not signed"
                    [ErrSourceTooLarge; path; pretty maxZoneFileBytes]))
                else
                  match SourceRead.after r with
                  | Err err => Err (SourceErr (Sprintf "inspecting zone file %s after read: %w" [path; err]))
                  | Ok after =>
                      if negb (FileInfo.Size after =? FileInfo.Size before) || negb (TEqual (FileInfo.ModTime after) (FileInfo.ModTime before))
                         || negb (Z.of_nat (String.length data) =? FileInfo.Size before) then
                        Err (SourceErr (Sprintf "zone file %s changed while it was being read (size %d→%d); a zone producer must replace the file atomically (write a temporary file, then rename it into place) — not signed, retried on the next check"
                          [path; pretty (FileInfo.Size before); pretty (FileInfo.Size after)]))
                      else Ok (data, before)
                  end
            end
      end
  end.

(** The SHA-256 of the bytes, in hexadecimal. *)
Definition sourceDigestOf (data : string) : string := hex_encode (Sum256 (bytes_of_string data)).

Definition sourceDigest (path : string) (r : SourceRead.t) : res source_error string :=
  try read <- readSourceBytes path r;
  Ok (sourceDigestOf read.1).

Module sourceSnapshot.
Record t := mk { records : list RR; serial : Z; modTime : Time; size : Z; digest : string }.
End sourceSnapshot.

(** The clock readings of one signing pass, in order. *)
Module SignClock.
Record t := mk { serial_now : Time; sign_now : Time; verify_now : Time; expiration_now : Time; record_now : Time; warning_now : Time }.
End SignClock.

Module signedZone.
Record t := mk {
  records : list RR; serial : Z; published : Z; sourcePath : string; srcModTime : Time; srcSize : Z; srcDigest : string;
  dnskeyTTL : Z; maxRRSIGTTL : Z; sigExpiration : Time
}.
End signedZone.

Section signzone.
Context `{DnsLib} `{WireLib} `{CryptoLib} `{HashLib} `{SignLib} `{ZoneFileLib}.
Implicit Types (z : ZoneState.t) (keys : signingKeys.t) (cfg : Config).

(** ** The unsigned zone *)

(** The serial of the last SOA. *)
Definition soa_serial (records : list RR) : Z :=
  fold_left (fun serial rr => match rr with RR_SOA _ _ _ numbers => nth 0 numbers 0 | _ => serial end) records 0.

Definition parseZoneRecords (domain path data : string) : res source_error (list RR * Z) :=
  let '(records, err) := ParseZone data (Fqdn domain) path in
  if maxZoneRecords <? Z.of_nat (length records) then
    Err (TooLargeErr (Sprintf "%w: zone file %s holds more than %d records, above the source limit; not signed"
      [ErrSourceTooLarge; path; pretty maxZoneRecords]))
  else match err with
       | Some err => Err (SourceErr (Sprintf "parsing zone: %w" [err]))
       | None => Ok (records, soa_serial records)
       end.

Definition readSourceSnapshot (domain path : string) (r : SourceRead.t) : res source_error sourceSnapshot.t :=
  try read <- readSourceBytes path r;
  let '(data, before) := read in
  try parsed <- parseZoneRecords domain path data;
  let '(records, serial) := parsed in
  let records := stripInputDNSSEC domain records in
  match validateZoneRecords domain records with
  | Err err => Err (SourceErr (Sprintf "zone validation failed: %w" [err]))
  | Ok _ => Ok (sourceSnapshot.mk records serial (FileInfo.ModTime before) (FileInfo.Size before) (sourceDigestOf data))
  end.

Definition ValidateZoneFileWithSerial (domain path : string) (r : SourceRead.t) : res string Z :=
  match readSourceBytes path r with
  | Err err => Err (Sprintf "opening zone file: %w" [source_text err])
  | Ok (data, _) =>
      match parseZoneRecords domain path data with
      | Err err => Err (Sprintf "parsing zone file: %w" [source_text err])
      | Ok (records, serial) => check validateZoneRecords domain records; Ok serial
      end
  end.
Definition ValidateZoneFile (domain path : string) (r : SourceRead.t) : res string unit :=
  check ValidateZoneFileWithSerial domain path r; Ok tt.

Definition SourcePath cfg (domain : string) (zoneState : option ZoneState.t) : string :=
  let recorded := match zoneState with Some z => ZoneState.Path z | None => "" end in
  match cfg_Zones cfg !! domain with
  | Some zc => if negb (String.eqb (zc_Path zc) "") then zc_Path zc else recorded
  | None => recorded
  end.
Definition OutputPath cfg (domain : string) : string := JoinPath (OutputDir cfg) (domain +:+ ".zone.signed").

(** ** The signed zone *)

Definition publishedSerial cfg (domain : string) (serial : Z) z (now : Time) : res string Z :=
  nextPublishedSerial domain (GetZoneSerialPolicy cfg domain) serial (ZoneState.PublishedSerial z) now.

Definition find_soa (records : list RR) : option (Hdr.t * list Z) :=
  head (omap (fun rr => match rr with RR_SOA h _ _ numbers => Some (h, numbers) | _ => None end) records).
Definition getSOAMinimumTTL (records : list RR) : Z := match find_soa records with Some (_, numbers) => nth 4 numbers 0 | None => 3600 end.
Definition getSOATTL (records : list RR) : Z := match find_soa records with Some (h, _) => Hdr.Ttl h | None => 3600 end.

Definition max_ttl (records : list RR) : Z :=
  fold_left (fun acc rr => let t := Hdr.Ttl (Header rr) in if acc <? t then t else acc) records 0.

(** The signing keys are the published records themselves, so the TTL is set on
    all of them. *)
Definition set_ttl (ttl : Z) (k : DNSKEY.t) : DNSKEY.t :=
  let h := DNSKEY.Hdr k in
  DNSKEY.mk (Hdr.mk (Hdr.Name h) (Hdr.Rrtype h) (Hdr.Class_ h) ttl) (DNSKEY.Flags k) (DNSKEY.Protocol k) (DNSKEY.Algorithm k) (DNSKEY.PublicKey k).
Definition with_ttl (ttl : Z) keys : signingKeys.t :=
  signingKeys.mk (map (set_ttl ttl) (signingKeys.dnskeys keys)) (map (set_ttl ttl) (signingKeys.signingKSKs keys)) (signingKeys.signingKSKPs keys)
    (map (set_ttl ttl) (signingKeys.signingZSKs keys)) (signingKeys.signingZSKPs keys).

(** The denial records of the configured mode. *)
Definition denial_chain cfg (m : zoneModel.t) (records : list RR) (soaMinTTL : Z) : list RR :=
  if String.eqb (cfg_NSECVersion (DNSSEC cfg)) "nsec3" then
    generateNSEC3ChainWithModel (uint16_mod (cfg_NSEC3Iterations (DNSSEC cfg))) (cfg_NSEC3Salt (DNSSEC cfg)) m records soaMinTTL
  else generateNSECChainWithModel m records soaMinTTL.

Definition prepareSignedZone cfg (domain : string) z keys (sourcePath : string) (r : SourceRead.t) (clock : SignClock.t) :
    res string signedZone.t :=
  match readSourceSnapshot domain sourcePath r with
  | Err err => Err (Sprintf "parsing zone file: %w" [source_text err])
  | Ok snap =>
      let records := sourceSnapshot.records snap in
      let serial := sourceSnapshot.serial snap in
      let maxRRSIGTTL := max_ttl records in
      try published <- publishedSerial cfg domain serial z (SignClock.serial_now clock);
      let records := if negb (published =? serial) then setSOASerial records published else records in
      let soaMinTTL := getSOAMinimumTTL records in
      let dnskeyTTL := if cfg_DNSKEYTtl (DNSSEC cfg) =? 0 then getSOATTL records else cfg_DNSKEYTtl (DNSSEC cfg) in
      let maxRRSIGTTL := if maxRRSIGTTL <? soaMinTTL then soaMinTTL else maxRRSIGTTL in
      let maxRRSIGTTL := if maxRRSIGTTL <? dnskeyTTL then dnskeyTTL else maxRRSIGTTL in
      let keys := with_ttl dnskeyTTL keys in
      let input := records ++ map RR_DNSKEY (signingKeys.dnskeys keys) in
      let model := newZoneModel domain input in
      let records := input ++ denial_chain cfg model input soaMinTTL in
      match signRecordsWithModel cfg model domain records keys (SignClock.sign_now clock) with
      | Err err => Err (Sprintf "signing records: %w" [err])
      | Ok signedRecords =>
          match verifySignedZoneWithModel cfg model input signedRecords keys (SignClock.verify_now clock) with
          | Err err => Err (Sprintf "post-sign verification failed (previous signed zone kept): %w" [err])
          | Ok _ =>
              let sigExpiration := earliestRRSIGExpiration signedRecords (SignClock.expiration_now clock) in
              if IsZero sigExpiration then
                Err "post-sign verification failed (previous signed zone kept): the signed zone carries no RRSIG"
              else
                Ok (signedZone.mk signedRecords serial published sourcePath (sourceSnapshot.modTime snap) (sourceSnapshot.size snap)
                      (sourceSnapshot.digest snap) dnskeyTTL maxRRSIGTTL sigExpiration)
          end
      end
  end.

(** ** The record of a published zone *)

Definition checkRolloverWarnings (domain : string) (now : Time) z : ZoneState.t :=
  let z :=
    match ZoneState.KSK z with
    | Some k => if After now (KeyState.RolloverDue k) then
                  AddWarning ("KSK rollover due - run 'sigillum-signer rollover start " +:+ domain +:+ "'") z
                else z
    | None => z
    end in
  match ZoneState.ZSK z with
  | Some k =>
      let daysUntilExpiry := Days (TSub (KeyState.Expires k) now) in
      if f64_lt daysUntilExpiry (f64_of_int 14) && f64_lt (f64_of_int 0) daysUntilExpiry then
        AddWarning ("ZSK expires in " +:+ fmt_0f daysUntilExpiry +:+ " days (will auto-rollover)") z
      else z
  | None => z
  end.

Definition recordSignedZone cfg (domain : string) z (res : signedZone.t) (durabilityUncertain : string) (clock : SignClock.t) : ZoneState.t :=
  let now := SignClock.record_now clock in
  let z := if negb (String.eqb (signedZone.sourcePath res) "") then z <| ZoneState.Path := signedZone.sourcePath res |> else z in
  let z := z <| ZoneState.Serial := signedZone.serial res |> in
  let z := z <| ZoneState.PublishedSerial := signedZone.published res |> in
  let z := z <| ZoneState.LastSigned := now |> in
  let z := if negb (IsZero (signedZone.srcModTime res)) then
             (z <| ZoneState.SourceModTime := signedZone.srcModTime res |>) <| ZoneState.SourceSize := signedZone.srcSize res |>
           else z in
  let z := z <| ZoneState.SourceDigest := signedZone.srcDigest res |> in
  let z := z <| ZoneState.SignaturesExp := signedZone.sigExpiration res |> in
  let z := z <| ZoneState.ForceResign := false |> in
  let z := z <| ZoneState.PublishedDNSKEYTTL := signedZone.dnskeyTTL res |> in
  let z := z <| ZoneState.PublishedMaxRRSIGTTL := signedZone.maxRRSIGTTL res |> in
  let z := if String.eqb (PublicationMode cfg) PublicationImmediate then ConfirmPublication now now z
           else z <| ZoneState.PendingPublication := true |> in
  let z := ClearTransientWarnings z in
  let z := ClearOperationError OpSigning z in
  let z := ClearOperationError OpInit z in
  let z := if negb (String.eqb durabilityUncertain "") then AddWarning durabilityUncertain z else z in
  checkRolloverWarnings domain (SignClock.warning_now clock) z.
End signzone.

(** ** When to sign *)

(** What [os.Stat] of the published output finds. *)
Inductive output_status := OutputMissing | OutputError (err : string) | OutputFound (info : FileInfo.t).

(** The observations of one [NeedsSign]: the clock, the output, the source's stat,
    the clock and the stat after the settling delay, and the read for the digest. *)
Module SignObs.
Record t := mk {
  now : Time; output : output_status; source : res string FileInfo.t; settle_now : Time;
  settled : res string FileInfo.t; content : SourceRead.t
}.
End SignObs.

Definition zoneWriteQuiescenceWindow : Duration := 3 * Second.

Definition outputUnusable (o : output_status) : string :=
  match o with
  | OutputMissing => "signed output missing"
  | OutputError err => Sprintf "signed output unreadable: %v" [err]
  | OutputFound info =>
      if FileInfo.IsRegular info then "" else Sprintf "signed output is not a regular file (%s)" [FileInfo.TypeName info]
  end.

(** A change so fresh that a second stat sees another one: the write goes on. *)
Definition still_settling (o : SignObs.t) (info : FileInfo.t) : bool :=
  (TSub (SignObs.settle_now o) (FileInfo.ModTime info) <? zoneWriteQuiescenceWindow) &&
  match SignObs.settled o with
  | Ok info2 => negb (TEqual (FileInfo.ModTime info2) (FileInfo.ModTime info)) || negb (FileInfo.Size info2 =? FileInfo.Size info)
  | Err _ => false
  end.

(** The part of the decision that looks at the source. *)
Definition source_needs_sign (zonePath : string) (z : ZoneState.t) (o : SignObs.t) : (bool * string) * ZoneState.t :=
  match SignObs.source o with
  | Err err => ((false, ""), SetOperationError OpSigning (Sprintf "zone file missing or inaccessible: %v" [err]) z)
  | Ok info =>
      let changeRef := if IsZero (ZoneState.SourceModTime z) then ZoneState.LastSigned z else ZoneState.SourceModTime z in
      let sizeChanged := negb (ZoneState.SourceSize z =? 0) && negb (FileInfo.Size info =? ZoneState.SourceSize z) in
      let metadataChanged := After (FileInfo.ModTime info) changeRef || sizeChanged in
      if metadataChanged && still_settling o info then ((false, ""), z)
      else
        match sourceDigest zonePath (SignObs.content o) with
        | Err (TooLargeErr _) => ((true, "zone file exceeds the source limit"), z)
        | Err (SourceErr _) => ((false, ""), z)
        | Ok digest =>
            if String.eqb (ZoneState.SourceDigest z) "" then
              ((true, "source content identity not recorded; publishing once to establish it"), z)
            else if String.eqb digest (ZoneState.SourceDigest z) then
              ((false, ""),
               if metadataChanged then
                 (z <| ZoneState.SourceModTime := FileInfo.ModTime info |>) <| ZoneState.SourceSize := FileInfo.Size info |>
               else z)
            else if metadataChanged then ((true, "zone file modified"), z)
            else ((true, "zone file content changed (same size and modification time)"), z)
        end
  end.

Definition NeedsSign (cfg : Config) (zonePath : string) (zoneState : option ZoneState.t) (o : SignObs.t) :
    (bool * string) * option ZoneState.t :=
  match zoneState with
  | None => ((true, "new zone"), None)
  | Some z =>
      let now := SignObs.now o in
      let exp := ZoneState.SignaturesExp z in
      if negb (IsZero exp) && After now exp then ((true, "signatures EXPIRED"), Some z)
      else if negb (IsZero exp) && After now (TAdd exp (- cfg_SignatureRefresh (DNSSEC cfg))) then
        ((true, "signatures approaching expiry"), Some z)
      else if ZoneState.ForceResign z then ((true, "rollover state changed"), Some z)
      else if match ZoneState.Rollover z with Some r => Before (ZoneState.LastSigned z) (RolloverState.Started r) | None => false end then
        ((true, "rollover in progress"), Some z)
      else if negb (String.eqb (ZoneState.Path z) "") && negb (String.eqb (Clean zonePath) (Clean (ZoneState.Path z))) then
        ((true, "source path changed"), Some z)
      else
        let reason := if negb (IsZero (ZoneState.LastSigned z)) then outputUnusable (SignObs.output o) else "" in
        if negb (String.eqb reason "") then ((true, reason), Some z)
        else let '(verdict, z') := source_needs_sign zonePath z o in (verdict, Some z')
  end.

(** ** When a zone is signed again

    [NeedsSign] answers exactly [sign_due]: the signatures near their end, a state
    that asks for a pass, an unusable output, or a source that can be read and whose
    bytes are not those last signed.  A zone that has just been recorded is not due. *)

#[local] Existing Instance ZoneState.ZoneState.eta_t.

(** The signatures have expired, or expire within the refresh interval. *)
Definition expiry_due (cfg : Config) (z : ZoneState.t) (now : Time) : Prop :=
  ZoneState.SignaturesExp z <> 0 /\
  (ZoneState.SignaturesExp z < now \/ ZoneState.SignaturesExp z - cfg_SignatureRefresh (DNSSEC cfg) < now).

(** The state asks for a pass: a rollover moved, or the source is another file. *)
Definition state_due (path : string) (z : ZoneState.t) : Prop :=
  ZoneState.ForceResign z = true \/
  (exists ro, ZoneState.Rollover z = Some ro /\ ZoneState.LastSigned z < RolloverState.Started ro) \/
  (ZoneState.Path z <> "" /\ Clean path <> Clean (ZoneState.Path z)).

Definition output_due (z : ZoneState.t) (o : output_status) : Prop :=
  ZoneState.LastSigned z <> 0 /\ ~ exists info, o = OutputFound info /\ FileInfo.IsRegular info = true.

(** The file looks changed by its metadata. *)
Definition metadata_changed (z : ZoneState.t) (info : FileInfo.t) : bool :=
  After (FileInfo.ModTime info) (if IsZero (ZoneState.SourceModTime z) then ZoneState.LastSigned z else ZoneState.SourceModTime z) ||
  (negb (ZoneState.SourceSize z =? 0) && negb (FileInfo.Size info =? ZoneState.SourceSize z)).

(** A source that can be read in full: not being written, and with other bytes than
    those last signed; or one beyond the limit, which the pass will refuse. *)
Definition source_due (path : string) (z : ZoneState.t) (o : SignObs.t) : Prop :=
  exists info, SignObs.source o = Ok info /\ metadata_changed z info && still_settling o info = false /\
    match sourceDigest path (SignObs.content o) with
    | Ok digest => digest <> ZoneState.SourceDigest z \/ ZoneState.SourceDigest z = ""
    | Err (TooLargeErr _) => True
    | Err (SourceErr _) => False
    end.

Definition sign_due (cfg : Config) (path : string) (z : ZoneState.t) (o : SignObs.t) : Prop :=
  expiry_due cfg z (SignObs.now o) \/ state_due path z \/ output_due z (SignObs.output o) \/ source_due path z o.

Lemma outputUnusable_spec o : outputUnusable o = "" <-> exists info, o = OutputFound info /\ FileInfo.IsRegular info = true.
Proof.
  destruct o as [| |info]; cbn; [by split; [|intros (? & ? & _)]..|]. destruct (FileInfo.IsRegular info) eqn:Hr.
  - split; [by exists info | done].
  - split; [done|]. intros (i & [= <-] & Hi). congruence.
Qed.

Lemma source_spec path z o : (source_needs_sign path z o).1.1 = true <-> source_due path z o.
Proof.
  unfold source_needs_sign, source_due. destruct (SignObs.source o) as [info|err]; [|by split; [|intros (? & ? & _)]].
  change (After (FileInfo.ModTime info) _ || _) with (metadata_changed z info).
  assert (forall P : Prop, (exists info0, (Ok info : res string FileInfo.t) = Ok info0 /\ metadata_changed z info0 && still_settling o info0 = false /\ P)
    <-> metadata_changed z info && still_settling o info = false /\ P) as Hex.
  { intros P. split; [by intros (i & [= <-] & ?) | intros ?; by exists info]. }
  rewrite Hex. destruct (metadata_changed z info && still_settling o info); [by split; [|intros []]|].
  destruct (sourceDigest path (SignObs.content o)) as [digest|[]]; cbn [fst]; [|tauto|by split; [|intros []]].
  destruct (String.eqb_spec (ZoneState.SourceDigest z) "") as [He|He]; [tauto|].
  destruct (String.eqb_spec digest (ZoneState.SourceDigest z)) as [Hd|Hd]; [by split; [|intros [_ []]]|].
  destruct (metadata_changed z info); tauto.
Qed.

Lemma needs_sign_spec cfg path z o : (NeedsSign cfg path (Some z) o).1.1 = true <-> sign_due cfg path z o.
Proof.
  unfold NeedsSign, sign_due, expiry_due, state_due, output_due. cbv zeta. unfold IsZero, After, TAdd, Before.
  destruct (Z.eqb_spec (ZoneState.SignaturesExp z) 0) as [Hz|Hz]; cbn [negb andb].
  2: destruct (Z.ltb_spec (ZoneState.SignaturesExp z) (SignObs.now o)); [tauto|].
  2: destruct (Z.ltb_spec (ZoneState.SignaturesExp z + - cfg_SignatureRefresh (DNSSEC cfg)) (SignObs.now o)); [cbn [fst]; split; [|done]; intros _; left; split; [done|right; lia]|].
  all: destruct (ZoneState.ForceResign z); [tauto|].
  all: destruct (ZoneState.Rollover z) as [ro|]; [destruct (Z.ltb_spec (ZoneState.LastSigned z) (RolloverState.Started ro)); [cbn [fst]; naive_solver|]|].
  all: destruct (String.eqb_spec (ZoneState.Path z) "") as [Hp|Hp]; cbn [negb andb].
  all: try (destruct (String.eqb_spec (Clean path) (Clean (ZoneState.Path z))) as [Hc|Hc]; cbn [negb andb]; [|cbn [fst]; tauto]).
  all: destruct (Z.eqb_spec (ZoneState.LastSigned z) 0) as [Hl|Hl]; cbn [negb]; [|destruct (String.eqb_spec (outputUnusable (SignObs.output o)) "") as [Ho|Ho]; cbn [negb];
    [|cbn [fst]; rewrite outputUnusable_spec in Ho; tauto]].
  all: try rewrite outputUnusable_spec in Ho; cbn [String.eqb negb]; rewrite <-source_spec; destruct (source_needs_sign path z o) as [[b reason] z']; cbn [fst].
  all: (split; [tauto|]); intros [[? [?|?]]|[[?|[(ro' & Hro & ?)|[? ?]]]|[[? ?]|?]]]; try done; try tauto; try lia; simplify_eq; try lia.
Qed.

(** ** After a pass *)

(** What a recorded pass says about its source and its signatures. *)
Definition pass_record (z : ZoneState.t) :=
  (ZoneState.Path z, ZoneState.Serial z, ZoneState.PublishedSerial z, ZoneState.LastSigned z,
   (ZoneState.SourceModTime z, ZoneState.SourceSize z, ZoneState.SourceDigest z, ZoneState.SignaturesExp z),
   (ZoneState.PublishedDNSKEYTTL z, ZoneState.PublishedMaxRRSIGTTL z, ZoneState.ForceResign z),
   (ZoneState.KSK z, ZoneState.ZSK z, ZoneState.Rollover z)).

Lemma confirm_record at_ now z : pass_record (ConfirmPublication at_ now z) = pass_record z.
Proof.
  unfold ConfirmPublication. case_match; [done|]. cbv zeta. set (hd := TAdd now (seconds (if ZoneState.ServedDNSKEYTTL z =? 0 then _ else _))).
  set (hr := TAdd now (seconds (if ZoneState.ServedMaxRRSIGTTL z =? 0 then _ else _))). clearbody hd hr.
  destruct (After hd _); case_match; case_match; done.
Qed.
Lemma add_warning_record w z : pass_record (AddWarning w z) = pass_record z.
Proof. unfold AddWarning. by case_match. Qed.
Lemma clear_warnings_record z : pass_record (ClearTransientWarnings z) = pass_record z.
Proof. unfold ClearTransientWarnings. by case_match. Qed.
Lemma clear_error_record op z : pass_record (ClearOperationError op z) = pass_record z.
Proof. unfold ClearOperationError. by case_match. Qed.
Lemma rollover_warnings_record domain now z : pass_record (checkRolloverWarnings domain now z) = pass_record z.
Proof.
  unfold checkRolloverWarnings. cbv zeta.
  assert (forall z', pass_record (match ZoneState.ZSK z' with
    | Some k => if f64_lt (Days (TSub (KeyState.Expires k) now)) (f64_of_int 14) && f64_lt (f64_of_int 0) (Days (TSub (KeyState.Expires k) now))
      then AddWarning ("ZSK expires in " +:+ fmt_0f (Days (TSub (KeyState.Expires k) now)) +:+ " days (will auto-rollover)") z' else z'
    | None => z' end) = pass_record z') as Hz.
  { intros z'. destruct (ZoneState.ZSK z'); [|done]. case_match; [apply add_warning_record | done]. }
  rewrite Hz. destruct (ZoneState.KSK z); [|done]. case_match; [apply add_warning_record | done].
Qed.

Section recorded.
Context (cfg : Config) (domain : string).

Lemma recorded_pass z res warning clock :
  pass_record (recordSignedZone cfg domain z res warning clock) =
  (if String.eqb (signedZone.sourcePath res) "" then ZoneState.Path z else signedZone.sourcePath res,
   signedZone.serial res, signedZone.published res, SignClock.record_now clock,
   (if IsZero (signedZone.srcModTime res) then ZoneState.SourceModTime z else signedZone.srcModTime res,
    if IsZero (signedZone.srcModTime res) then ZoneState.SourceSize z else signedZone.srcSize res,
    signedZone.srcDigest res, signedZone.sigExpiration res),
   (signedZone.dnskeyTTL res, signedZone.maxRRSIGTTL res, false),
   (ZoneState.KSK z, ZoneState.ZSK z, ZoneState.Rollover z)).
Proof.
  unfold recordSignedZone. cbv zeta. rewrite rollover_warnings_record.
  assert (forall z', pass_record (if negb (String.eqb warning "") then AddWarning warning z' else z') = pass_record z') as ->.
  { intros z'. case_match; [apply add_warning_record | done]. }
  rewrite !clear_error_record, clear_warnings_record.
  destruct (String.eqb (signedZone.sourcePath res) ""), (IsZero (signedZone.srcModTime res)); cbn [negb];
    destruct (String.eqb (PublicationMode cfg) PublicationImmediate); rewrite ?confirm_record; done.
Qed.

(** A zone whose pass has been recorded is not due again while its signatures are
    fresh, its output stands and its source keeps its bytes, whatever the metadata
    of the source says. *)
Lemma recorded_not_due z res warning clock path o :
  signedZone.sourcePath res = path -> path <> "" -> signedZone.sigExpiration res <> 0 -> signedZone.srcDigest res <> "" ->
  (forall ro, ZoneState.Rollover z = Some ro -> RolloverState.Started ro <= SignClock.record_now clock) ->
  SignObs.now o <= signedZone.sigExpiration res - cfg_SignatureRefresh (DNSSEC cfg) -> 0 <= cfg_SignatureRefresh (DNSSEC cfg) ->
  (exists info, SignObs.output o = OutputFound info /\ FileInfo.IsRegular info = true) ->
  sourceDigest path (SignObs.content o) = Ok (signedZone.srcDigest res) ->
  (NeedsSign cfg path (Some (recordSignedZone cfg domain z res warning clock)) o).1.1 = false.
Proof.
  intros Hp Hpne Hexp Hd Hro Hnow Href Hout Hsrc. apply not_true_iff_false. rewrite needs_sign_spec.
  pose proof (recorded_pass z res warning clock) as Hr. set (z' := recordSignedZone cfg domain z res warning clock) in *. clearbody z'.
  rewrite Hp in Hr. apply String.eqb_neq in Hpne as Hpe. rewrite Hpe in Hr. unfold pass_record in Hr.
  injection Hr as R1 R2 R3 R4 R5 R6 R7 R8 R9 R10 R11 R12 R13 R14.
  unfold sign_due, expiry_due, state_due, output_due, source_due. rewrite R1, R8, R11, R14, R4, R7.
  intros [[_ ?]|[[?|[(ro & Hr & Hlt)|[_ ?]]]|[[_ ?]|(info & _ & _ & Hx)]]]; try done; try lia.
  - specialize (Hro ro Hr). lia.
  - rewrite Hsrc in Hx. tauto.
Qed.
End recorded.
