(* ===== verification/SignFiles.v ===== *)
(** * SignFiles: signing a zone from its recorded keys to its output file
    (signer/internal/signer/sign.go)

    [loadKeysForSigning] picks the keys the recorded rollover phase asks for;
    [SignZone] signs with them, writes the zone and records it; [SignAllReport] does so
    for every configured zone.  A read of a source file and the clock readings of a pass
    are arguments, as in SignZone.v; the keys and the output are on the file system of
    FileSys.v. *)

From stdpp Require Import base list strings gmap pretty.
From Stdlib Require Import ZArith Lia Ascii.
From S2P Require Import Prelude Paths GoTime Config ZoneState StateStore FileSys KeyOps Names Digests Wire Serial KeyMaterial ZoneModel NsecChain Signatures KeyFiles ZoneCheck SignZone.
Local Open Scope Z_scope.

#[local] Existing Instance ZoneState.ZoneState.eta_t.

(** [rr.String] of the DNS library *)
Class ZoneTextLib := { RRText : RR -> string }.
(** [sort.Slice]: which of the orders it leaves equal elements in is not specified. *)
Class SliceSort := { sort_any : forall {A}, (A -> A -> bool) -> list A -> list A }.

(** What a pass over one zone observes: its source, its clocks. *)
Module Pass.
Record t := mk { source : SourceRead.t; clock : SignClock.t; init1 : Time; init2 : Time }.
End Pass.

Section signfiles.
Context `{OS} `{DnsLib} `{WireLib} `{CryptoLib} `{HashLib} `{SignLib} `{ZoneFileLib} `{ZoneTextLib} `{SliceSort}.
Implicit Types (z : ZoneState.t) (keys : signingKeys.t) (cfg : Config).

(** ** The keys of a phase *)

Definition expectedLiveKeyTags z : res string (Z * Z) :=
  match ZoneState.KSK z, ZoneState.ZSK z with
  | Some ksk, Some zsk =>
      Ok (KeyState.ID ksk,
          match ZoneState.Rollover z with
          | Some r =>
              if String.eqb (RolloverState.RType r) "zsk" && String.eqb (RolloverState.RState r) ZSKRolloverStatePrePublish
              then RolloverState.NewKeyID r else KeyState.ID zsk
          | None => KeyState.ID zsk
          end)
  | _, _ => Err "zone state names no KSK/ZSK to sign with"
  end.

Definition validateAlgorithms keys z : res string unit :=
  if match ZoneState.Rollover z with Some r => String.eqb (RolloverState.RType r) "algorithm" | None => false end then Ok tt
  else
    match signingKeys.dnskeys keys with
    | [] => Ok tt
    | first :: rest =>
        let alg := DNSKEY.Algorithm first in
        match List.find (fun dk => negb (DNSKEY.Algorithm dk =? alg)) rest with
        | Some dk =>
            Err (Sprintf "live keys use different algorithms (%s key tag %d, %s key tag %d) with no algorithm rollover in progress; refusing to publish an algorithm-incomplete zone — use `sigillum-signer rollover algorithm` to change algorithms"
              [AlgorithmName alg; pretty (KeyTagOf first); AlgorithmName (DNSKEY.Algorithm dk); pretty (KeyTagOf dk)])
        | None => Ok tt
        end
    end.

Definition publish (dk : DNSKEY.t) keys : signingKeys.t := keys <| signingKeys.dnskeys := signingKeys.dnskeys keys ++ [dk] |>.
Definition sign_keys_with (kp : DNSKEY.t * list Z) keys : signingKeys.t :=
  (keys <| signingKeys.signingKSKs := signingKeys.signingKSKs keys ++ [kp.1] |>) <| signingKeys.signingKSKPs := signingKeys.signingKSKPs keys ++ [kp.2] |>.
Definition sign_data_with (kp : DNSKEY.t * list Z) keys : signingKeys.t :=
  (keys <| signingKeys.signingZSKs := signingKeys.signingZSKs keys ++ [kp.1] |>) <| signingKeys.signingZSKPs := signingKeys.signingZSKPs keys ++ [kp.2] |>.

Definition complete_hint : string := "(if the rollover is complete and the old key is gone, run `sigillum-signer rollover complete %s`): %w".

(** The keys a rollover adds to the live ones. *)
Definition rollover_keys cfg (domain : string) z keys : FS signingKeys.t :=
  match ZoneState.Rollover z with
  | None => ret keys
  | Some r =>
      let is_type t := String.eqb (RolloverState.RType r) t in
      let in_state st := String.eqb (RolloverState.RState r) st in
      let old := RolloverState.OldKeyID r in
      if is_type "ksk" && (in_state KSKRolloverStateDSAddWait || in_state KSKRolloverStateDSPropagation) then
        oldKSK <-- wrapf ("loading old KSK %d for rollover signing " +:+ complete_hint) [pretty old; domain] (LoadKeyPairByID cfg domain "ksk" old) ;;
        ret (sign_keys_with oldKSK (publish oldKSK.1 keys))
      else if is_type "zsk" && in_state ZSKRolloverStatePrePublish then
        oldZSK <-- wrapf "loading old ZSK %d for pre-publish: %w" [pretty old] (LoadKeyPairByID cfg domain "zsk" old) ;;
        ret ((publish oldZSK.1 keys <| signingKeys.signingZSKs := [oldZSK.1] |>) <| signingKeys.signingZSKPs := [oldZSK.2] |>)
      else if is_type "zsk" && in_state ZSKRolloverStateSigning then
        oldZSK <-- wrapf ("loading old ZSK %d for publish during rollover " +:+ complete_hint) [pretty old; domain] (LoadPublicKeyByID cfg domain "zsk" old) ;;
        ret (publish oldZSK keys)
      else if is_type "algorithm" && negb (in_state AlgoRolloverStateRetiring) then
        oldKSK <-- wrapf ("loading old-algorithm KSK %d for rollover " +:+ complete_hint) [pretty old; domain] (LoadKeyPairByID cfg domain "ksk" old) ;;
        let oldZSKID := RolloverState.OldZSKID r in
        oldZSK <-- wrapf ("loading old-algorithm ZSK %d for rollover " +:+ complete_hint) [pretty oldZSKID; domain] (LoadKeyPairByID cfg domain "zsk" oldZSKID) ;;
        ret (sign_data_with oldZSK (publish oldZSK.1 (sign_keys_with oldKSK (publish oldKSK.1 keys))))
      else ret keys
  end.

Definition loadKeysForSigning cfg (domain : string) z : FS signingKeys.t :=
  expected <-- of_res (expectedLiveKeyTags z) ;;
  ksk <-- wrapf "loading KSK: %w" [] (EnsureLiveKey cfg domain "ksk" expected.1) ;;
  zsk <-- wrapf "loading ZSK: %w" [] (EnsureLiveKey cfg domain "zsk" expected.2) ;;
  keys <-- rollover_keys cfg domain z (signingKeys.mk [ksk.1; zsk.1] [ksk.1] [ksk.2] [zsk.1] [zsk.2]) ;;
  wrapf "internal key state for %s: %w" [domain] (of_res (validateConsistency keys)) ;;;
  wrapf "key algorithms for %s: %w" [domain] (of_res (validateAlgorithms keys z)) ;;;
  ret keys.

(** ** The output file *)

Definition type_order (t : Z) : Z :=
  if t =? TypeSOA then 0 else if t =? TypeNS then 1 else if t =? TypeDNSKEY then 2 else if t =? TypeRRSIG then 100 else 50.
Definition record_less (apex : string) (a b : rrsetKey) : bool :=
  let a_apex := String.eqb a.1 apex in
  let b_apex := String.eqb b.1 apex in
  if negb (Bool.eqb a_apex b_apex) then a_apex
  else if String.eqb a.1 b.1 then type_order a.2 <? type_order b.2
  else String.ltb a.1 b.1.

(** The groups of one owner and type, in the order of their first records. *)
Definition record_key (rr : RR) : rrsetKey := (canonicalName (rr_name rr), rr_type rr).
Definition group_keys (records : list RR) : list rrsetKey :=
  fold_left (fun order rr => if bool_decide (record_key rr ∈ order) then order else order ++ [record_key rr]) records [].
Definition sortZoneRecords (domain : string) (records : list RR) : list RR :=
  concat (map (fun key => List.filter (fun rr => bool_decide (record_key rr = key)) records)
    (sort_any (record_less (canonicalName domain)) (group_keys records))).

(** [fmt.Fprintf] and [fmt.Fprintln] to the file: one write each *)
Definition write_line (path line message : string) : FS unit := wrapf message [] (Append path line).
Fixpoint write_records (path : string) (records : list RR) : FS unit :=
  match records with
  | [] => ret tt
  | rr :: rest => write_line path (RRText rr +:+ NL) "writing zone record: %w" ;;; write_records path rest
  end.
Definition zone_body (domain path : string) (sortedRecords : list RR) (tempPath : string) : FS unit :=
  wrapf "chmod signed zone: %w" [] (Chmod tempPath 420) ;;;
  write_line tempPath ("; Signed zone file for " +:+ domain +:+ NL) "writing zone header: %w" ;;;
  now <-- TimeNow ;;
  write_line tempPath ("; Generated by sigillum-signer at " +:+ FormatRFC3339 now +:+ NL) "writing zone header: %w" ;;;
  write_line tempPath ("; DO NOT EDIT - this file is automatically generated" +:+ NL +:+ NL) "writing zone header: %w" ;;;
  write_line tempPath ("$ORIGIN " +:+ Fqdn domain +:+ NL) "writing zone origin: %w" ;;;
  write_records tempPath sortedRecords ;;;
  wrapf "syncing signed zone: %w" [] (Sync tempPath) ;;;
  wrapf "closing signed zone: %w" [] (Close tempPath) ;;;
  wrapf "renaming signed zone: %w" [] (Rename tempPath path).
Definition writeSignedZone (domain path : string) (records : list RR) : FS unit :=
  EnsureDir (Dir path) ;;;
  let sortedRecords := sortZoneRecords domain records in
  temp_filled (new_temp (Dir path) (Base path)) (zone_body domain path sortedRecords) ;;;
  sync_replaced (Dir path) path.

(** ** One zone *)

Definition uncertain_text (err : GoError.t) : string :=
  Sprintf "signed zone written but its directory sync failed; durability across power loss uncertain: %v" [GoError.Text err].

(** The record of the zone after a signing; an error leaves it alone. *)
Definition SignZone cfg (domain : string) (zoneState : option ZoneState.t) (source : SourceRead.t) (clock : SignClock.t) : FS ZoneState.t :=
  match zoneState with
  | None => fail (errorf "zone %s not in state" [domain])
  | Some z =>
      keys <-- wrapf "loading keys: %w" [] (loadKeysForSigning cfg domain z) ;;
      res <-- of_res (prepareSignedZone cfg domain z keys (SourcePath cfg domain (Some z)) source clock) ;;
      r <-- catch (writeSignedZone domain (OutputPath cfg domain) (signedZone.records res)) ;;
      match r with
      | Ok _ => ret (recordSignedZone cfg domain z res "" clock)
      | Err err =>
          if negb (IsDurability err) then fail (Errorf "writing signed zone: %w" [] err)
          else ret (recordSignedZone cfg domain z res (uncertain_text err) clock)
      end
  end.

(** A zone signed with given pairs, at its staging path. *)
Definition StageZoneWithKeys cfg (domain : string) z (ksk : option DNSKEY.t) (kskPriv : list Z) (zsk : option DNSKEY.t) (zskPriv : list Z)
    (stagingPath : string) (source : SourceRead.t) (now1 now2 : Time) (clock : SignClock.t) : FS (signedZone.t * string) :=
  of_res (ValidateKeyForImport domain "ksk" ksk kskPriv now1) ;;;
  of_res (ValidateKeyForImport domain "zsk" zsk zskPriv now2) ;;;
  match ksk, zsk with
  | Some ksk, Some zsk =>
      let keys := signingKeys.mk [ksk; zsk] [ksk] [kskPriv] [zsk] [zskPriv] in
      wrapf "internal key state for %s: %w" [domain] (of_res (validateConsistency keys)) ;;;
      res <-- of_res (prepareSignedZone cfg domain z keys (SourcePath cfg domain (Some z)) source clock) ;;
      r <-- catch (writeSignedZone domain stagingPath (signedZone.records res)) ;;
      match r with
      | Ok _ => ret (res, stagingPath)
      | Err err => if negb (IsDurability err) then fail (Errorf "writing staged signed zone: %w" [] err) else ret (res, stagingPath)
      end
  | _, _ => fail (GoError.mk "" Plain)
  end.
Definition Publish cfg (domain : string) z (staged : signedZone.t * string) (clock : SignClock.t) : FS ZoneState.t :=
  let outputPath := OutputPath cfg domain in
  wrapf "publishing staged signed zone: %w" [] (Rename staged.2 outputPath) ;;;
  r <-- catch (SyncDir (Dir outputPath)) ;;
  ret (recordSignedZone cfg domain z staged.1 (match r with Ok _ => "" | Err err => uncertain_text err end) clock).
Definition Discard (staged : signedZone.t * string) : FS unit := catch (Remove staged.2) ;;; ret tt.

(** ** Every zone *)

(** The record a failed initialisation leaves: the zone's own, if it has one. *)
Definition init_failed (zoneCfg : ZoneConfig) (zoneState : option ZoneState.t) (err : string) : ZoneState.t :=
  ZoneState.SetOperationError ZoneState.OpInit err
    match zoneState with Some z => z | None => ZoneState.zero <| ZoneState.Path := zc_Path zoneCfg |> end.
Definition keyless z : bool :=
  match ZoneState.KSK z, ZoneState.ZSK z with Some _, Some _ => false | _, _ => true end.
Definition initialized (zoneCfg : ZoneConfig) (keys : KeyState.t * KeyState.t) : ZoneState.t :=
  ((ZoneState.zero <| ZoneState.Path := zc_Path zoneCfg |>) <| ZoneState.KSK := Some keys.1 |>) <| ZoneState.ZSK := Some keys.2 |>.

(** The zone's record before it is signed, or the record of a failed initialisation. *)
Definition zone_to_sign cfg (domain : string) (zoneCfg : ZoneConfig) (zoneState : option ZoneState.t) (pass : Pass.t) : FS (res ZoneState.t ZoneState.t) :=
  let init :=
    r <-- catch (RecoverOrGenerateKeys cfg domain (Pass.init1 pass) (Pass.init2 pass)) ;;
    ret match r with Err err => Err (init_failed zoneCfg zoneState (GoError.Text err)) | Ok keys => Ok (initialized zoneCfg keys) end in
  match zoneState with
  | Some z => if keyless z then init else ret (Ok z)
  | None => init
  end.

(** One zone of the loop: its new record, and whether it was signed. *)
Definition sign_configured cfg (domain : string) (zoneCfg : ZoneConfig) (zoneState : option ZoneState.t) (pass : Pass.t) : FS (ZoneState.t * bool) :=
  start <-- zone_to_sign cfg domain zoneCfg zoneState pass ;;
  match start with
  | Err z => ret (z, false)
  | Ok z =>
      r <-- catch (SignZone cfg domain (Some z) (Pass.source pass) (Pass.clock pass)) ;;
      ret match r with
          | Ok z' => (z', true)
          | Err err => (ZoneState.SetOperationError ZoneState.OpSigning (GoError.Text err) z, false)
          end
  end.

Fixpoint sign_each cfg (zones : list (string * ZoneConfig)) (passes : string -> Pass.t) (s : StateStore.State) : FS (StateStore.State * list string) :=
  match zones with
  | [] => ret (s, [])
  | (domain, zoneCfg) :: rest =>
      one <-- sign_configured cfg domain zoneCfg (StateStore.GetZone domain s) (passes domain) ;;
      more <-- sign_each cfg rest passes (StateStore.SetZone domain one.1 s) ;;
      ret (more.1, (if one.2 then [domain] else []) ++ more.2)
  end.

Inductive sign_all_error := SaveError (err : StateStore.store_error) | ZonesFailed (msg : string).

(** The zones signed, in the order of their names, and the error. *)
Definition SignAllReport cfg (passes : string -> Pass.t) (w : StateStore.World) : FS (list string * option sign_all_error * StateStore.World) :=
  let zones := sort_slice (fun a b => String.ltb a.1 b.1) (map_to_list (cfg_Zones cfg)) in
  out <-- sign_each cfg zones passes (StateStore.mem w) ;;
  let '(saved, w') := StateStore.Save (StateStore.mkWorld out.1 (StateStore.disk w) (StateStore.writes w)) in
  let total := length zones in
  let failed := (total - length out.2)%nat in
  ret (out.2,
       match saved with
       | Err err => Some (SaveError err)
       | Ok _ => if (0 <? failed)%nat then Some (ZonesFailed (Sprintf "%d of %d zones failed to sign" [pretty failed; pretty total])) else None
       end, w').
Definition SignAll cfg passes w : FS (option sign_all_error * StateStore.World) := out <-- SignAllReport cfg passes w ;; ret (out.1.2, out.2).
End signfiles.
