(* ===== verification/ZoneModelFacts.v ===== *)
(** * ZoneModelFacts: what the index of a snapshot holds

    Sorting by a key yields the one strictly sorted list of its elements; the index
    answers exactly the questions its records answer; and on names that present
    themselves plainly, occlusion is a question about suffixes. *)

From stdpp Require Import base list strings gmap.
From Stdlib Require Import ZArith Lia Sorted Ascii.
From S2P Require Import Prelude Order Names PlainNames DnsZone Wire ZoneModel.

(** ** Sorting *)

Section sort_facts.
Context {A K : Type} (less : A -> A -> bool) (cmp : K -> K -> comparison) `{Ordered K cmp} (key : A -> K).
Context (Hless : forall x y, less x y = true <-> cmp (key x) (key y) = Lt).
Local Abbreviation le := (fun x y => cmp (key x) (key y) <> Gt).
Local Abbreviation lt := (fun x y => cmp (key x) (key y) = Lt).

Lemma insert_sorted_perm x l : insert_sorted less x l ≡ₚ x :: l.
Proof. induction l as [|y l IH]; cbn; [done|]. destruct (less y x); [|done]. rewrite IH. apply Permutation_swap. Qed.
Lemma sort_slice_perm l : sort_slice less l ≡ₚ l.
Proof. induction l as [|x l IH]; cbn; [done|]. by rewrite insert_sorted_perm, IH. Qed.

Lemma insert_sorted_sorted x l : StronglySorted le l -> StronglySorted le (insert_sorted less x l).
Proof.
  induction 1 as [|y l Hs IH Hf]; cbn; [by repeat constructor|]. destruct (less y x) eqn:Hyx.
  - constructor; [done|]. rewrite insert_sorted_perm. constructor; [|done]. apply Hless in Hyx. by rewrite Hyx.
  - assert (cmp (key x) (key y) <> Gt) as Hxy.
    { intros Hgt%(cmp_gt_lt cmp). apply Hless in Hgt. congruence. }
    constructor; [by constructor|]. constructor; [done|]. eapply Forall_impl; [exact Hf|]. cbn. intros z Hz Hgt.
    apply (cmp_gt_lt cmp) in Hgt. destruct (cmp (key x) (key y)) eqn:E; [| |done].
    + apply (cmp_eq cmp) in E. rewrite E in Hgt. apply (cmp_gt_lt cmp) in Hgt. done.
    + pose proof (cmp_lt_trans cmp _ _ _ Hgt E) as Ht. apply (cmp_gt_lt cmp) in Ht. done.
Qed.
Lemma sort_slice_le l : StronglySorted le (sort_slice less l).
Proof. induction l as [|x l IH]; cbn; [constructor | by apply insert_sorted_sorted]. Qed.

(** Elements with different keys come out strictly sorted. *)
Lemma sort_slice_lt l : NoDup (map key l) -> StronglySorted lt (sort_slice less l).
Proof.
  intros Hd. assert (NoDup (map key (sort_slice less l))) as Hd'.
  { by rewrite (Permutation_map key (sort_slice_perm l)). }
  pose proof (sort_slice_le l) as Hs. clear Hd. revert Hd'. induction Hs as [|x l' Hs IH Hf]; cbn; intros Hd'; [constructor|].
  apply NoDup_cons in Hd' as [Hx Hd']. constructor; [by apply IH|]. rewrite Forall_forall in Hf |- *. intros y Hy.
  specialize (Hf y Hy). destruct (cmp (key x) (key y)) eqn:E; try done.
  apply (cmp_eq cmp) in E. destruct Hx. rewrite E. apply list_elem_of_In, in_map. by apply list_elem_of_In.
Qed.
End sort_facts.

(** A strictly sorted list is determined by its elements. *)
Lemma strictly_sorted_unique {A K} (cmp : K -> K -> comparison) `{Ordered K cmp} (key : A -> K) l l' :
  StronglySorted (fun x y => cmp (key x) (key y) = Lt) l -> StronglySorted (fun x y => cmp (key x) (key y) = Lt) l' ->
  (forall x, x ∈ l <-> x ∈ l') -> l = l'.
Proof.
  intros Hs. revert l'. induction Hs as [|x l Hs IH Hf]; intros l' Hs' Heq.
  { destruct l' as [|y l']; [done|]. by destruct (not_elem_of_nil y (proj2 (Heq y) (list_elem_of_here y l'))). }
  destruct Hs' as [|y l' Hs' Hf']; [by destruct (not_elem_of_nil x (proj1 (Heq x) (list_elem_of_here x l)))|].
  rewrite Forall_forall in Hf, Hf'.
  assert (x = y) as <-.
  { destruct (proj1 (elem_of_cons _ _ _) (proj1 (Heq x) ltac:(by left))) as [->|Hx]; [done|].
    destruct (proj1 (elem_of_cons _ _ _) (proj2 (Heq y) ltac:(by left))) as [->|Hy]; [done|].
    by pose proof (cmp_lt_not cmp _ _ (Hf y Hy) (Hf' x Hx)). }
  f_equal. apply IH; [done|]. intros z. split; intros Hz.
  - destruct (proj1 (elem_of_cons _ _ _) (proj1 (Heq z) ltac:(by right))) as [->|]; [|done].
    by pose proof (Hf _ Hz) as E; rewrite (cmp_refl cmp) in E.
  - destruct (proj1 (elem_of_cons _ _ _) (proj2 (Heq z) ltac:(by right))) as [->|]; [|done].
    by pose proof (Hf' _ Hz) as E; rewrite (cmp_refl cmp) in E.
Qed.

(** ** The index answers for its records *)

Section model.
Context `{DnsLib}.
Implicit Types (m : zoneModel.t).

Definition at_owner (name : string) (t : Z) (rr : RR) : bool := String.eqb (canon rr) name && (rr_type rr =? t)%Z.
(** How many records of type [t] the owner has. *)
Definition count_at (records : list RR) (name : string) (t : Z) : nat := length (List.filter (at_owner name t) records).

Lemma count_at_snoc records rr name t :
  count_at (records ++ [rr]) name t = (count_at records name t + if at_owner name t rr then 1 else 0)%nat.
Proof. unfold count_at. rewrite List.filter_app, length_app. cbn. by destruct (at_owner name t rr). Qed.

Lemma count_at_pos records name t : (0 < count_at records name t)%nat <-> exists rr, rr ∈ records /\ canon rr = name /\ rr_type rr = t.
Proof.
  unfold count_at. split.
  - destruct (List.filter _ records) as [|rr l] eqn:Hf; cbn; [lia|]. intros _. exists rr.
    assert (rr ∈ List.filter (at_owner name t) records) as Hin by (rewrite Hf; left).
    apply filter_In_bool in Hin as [? Hat]. unfold at_owner in Hat. apply andb_true_iff in Hat as [?%String.eqb_eq ?%Z.eqb_eq]. done.
  - intros (rr & Hin & <- & <-). assert (rr ∈ List.filter (at_owner (canon rr) (rr_type rr)) records) as Hf.
    { apply filter_In_bool. split; [done|]. unfold at_owner. by rewrite String.eqb_refl, Z.eqb_refl. }
    destruct (List.filter _ records); [by apply not_elem_of_nil in Hf | cbn; lia].
Qed.

(** What the index says about one owner. *)
Definition owner_counts (oi : option ownerInfo.t) (records : list RR) (name : string) : Prop :=
  match oi with
  | None => forall rr, rr ∈ records -> canon rr <> name
  | Some oi => (exists rr, rr ∈ records /\ canon rr = name) /\
      forall t, ownerInfo.types oi !! t = if Nat.eqb (count_at records name t) 0 then None else Some (count_at records name t)
  end.

Record indexes (domain : string) (records : list RR) m : Prop := {
  ix_apex : zoneModel.apex m = canonicalName domain;
  ix_labels : zoneModel.apexLabels m = SplitDomainName (canonicalName domain);
  ix_owners : forall name, owner_counts (zoneModel.owners m !! name) records name;
  ix_delegations : forall name, name ∈ zoneModel.delegations m <->
    name <> canonicalName domain /\ exists rr, rr ∈ records /\ canon rr = name /\ rr_type rr = TypeNS;
  ix_dnames : forall name, name ∈ zoneModel.dnames m <-> exists rr, rr ∈ records /\ canon rr = name /\ rr_type rr = TypeDNAME
}.

Lemma owner_counts_snoc oi records rr name :
  owner_counts oi records name ->
  owner_counts (if String.eqb (canon rr) name
    then Some (add_type (rr_type rr) (default (ownerInfo.mk name (SplitDomainName name) ∅) oi)) else oi) (records ++ [rr]) name.
Proof.
  intros Hoi. destruct (String.eqb_spec (canon rr) name) as [Heq|Hne].
  - cbn. split; [exists rr; set_solver|]. intros t. rewrite count_at_snoc. unfold at_owner at 1 2.
    rewrite Heq, String.eqb_refl. cbn [andb].
    assert (forall t, ownerInfo.types (default (ownerInfo.mk name (SplitDomainName name) ∅) oi) !! t =
      if Nat.eqb (count_at records name t) 0 then None else Some (count_at records name t)) as Hold.
    { destruct oi as [oi|]; [apply Hoi|]. intros t'. cbn. rewrite lookup_empty. destruct (Nat.eqb_spec (count_at records name t') 0) as [|Hc]; [done|].
      destruct (proj1 (count_at_pos records name t') ltac:(lia)) as (rr' & Hin & Hn & _). by destruct (Hoi rr' Hin). }
    destruct (Z.eqb_spec (rr_type rr) t) as [<-|Ht].
    + rewrite lookup_partial_alter_eq, Hold. destruct (Nat.eqb_spec (count_at records name (rr_type rr)) 0) as [->|]; cbn; [done|].
      destruct (Nat.eqb_spec (count_at records name (rr_type rr) + 1) 0); [lia|]. f_equal. lia.
    + rewrite lookup_partial_alter_ne by done. rewrite Hold, Nat.add_0_r. done.
  - destruct oi as [oi|]; cbn in *.
    + destruct Hoi as [(rr' & Hin & Hn) Hc]. split; [exists rr'; set_solver|]. intros t. rewrite count_at_snoc, Hc. unfold at_owner.
      destruct (String.eqb_spec (canon rr) name); [done|]. cbn. by rewrite Nat.add_0_r.
    + intros rr' [Hin|Hin%list_elem_of_singleton]%elem_of_app; [by apply Hoi | by subst].
Qed.

Lemma newZoneModel_indexes domain records : indexes domain records (newZoneModel domain records).
Proof.
  unfold newZoneModel. induction records as [|rr records IH] using rev_ind.
  { constructor; cbn; try done; intros name; [set_solver | set_solver |]. split; [set_solver|]. intros (? & Hin & _). set_solver. }
  rewrite fold_left_app. cbn [fold_left]. set (m := fold_left add records _) in *. destruct IH as [Ha Hl Ho Hd Hn].
  assert (forall name, owner_counts (<[canon rr := add_type (rr_type rr)
    (default (ownerInfo.mk (canon rr) (SplitDomainName (canon rr)) ∅) (zoneModel.owners m !! canon rr))]> (zoneModel.owners m) !! name)
    (records ++ [rr]) name) as Howners.
  { intros name. pose proof (owner_counts_snoc _ _ rr name (Ho name)) as Hs. destruct (String.eqb_spec (canon rr) name) as [Heq|Hne].
    - rewrite <-Heq in Hs |- *. by rewrite lookup_insert_eq.
    - by rewrite lookup_insert_ne. }
  clearbody m. unfold add. change (canonicalName (rr_name rr)) with (canon rr).
  assert (forall (P : RR -> Prop) , (exists x, x ∈ records ++ [rr] /\ P x) <-> (exists x, x ∈ records /\ P x) \/ P rr) as Hex.
  { intros P. setoid_rewrite elem_of_app. setoid_rewrite list_elem_of_singleton. naive_solver. }
  assert (TypeNS <> TypeDNAME) as Hdiff by done.
  destruct (Z.eqb_spec (rr_type rr) TypeNS) as [Hns|Hns]; [|destruct (Z.eqb_spec (rr_type rr) TypeDNAME) as [Hdn|Hdn]].
  - destruct (String.eqb_spec (canon rr) (zoneModel.apex m)) as [He|He]; cbn [negb]; (constructor; [exact Ha | exact Hl | exact Howners | intros name; cbn..]).
    + rewrite Hd, Hex; clear Ho Hd Hn Hex Howners. try rewrite Ha in He. intuition congruence.
    + rewrite Hn, Hex; clear Ho Hd Hn Hex Howners. intuition congruence.
    + rewrite elem_of_union, elem_of_singleton, Hd, Hex; clear Ho Hd Hn Hex Howners. try rewrite Ha in He. intuition congruence.
    + rewrite Hn, Hex; clear Ho Hd Hn Hex Howners. intuition congruence.
  - constructor; [exact Ha | exact Hl | exact Howners | intros name; cbn..].
    + rewrite Hd, Hex; clear Ho Hd Hn Hex Howners. intuition congruence.
    + rewrite elem_of_union, elem_of_singleton, Hn, Hex; clear Ho Hd Hn Hex Howners. intuition congruence.
  - constructor; [exact Ha | exact Hl | exact Howners | intros name; cbn..].
    + rewrite Hd, Hex; clear Ho Hd Hn Hex Howners. intuition congruence.
    + rewrite Hn, Hex; clear Ho Hd Hn Hex Howners. intuition congruence.
Qed.
End model.

(** ** Snapshots whose owners present themselves plainly *)

Section plain.
Context `{DnsLib} `{!DnsLibLaws} (domain : string) (records : list RR) (a : name).
Local Abbreviation m := (newZoneModel domain records).

(** Whatever their spelling in the file, the owners' canonical names need no
    escapes, and lie within the zone. *)
Record plain_snapshot : Prop := {
  ps_apex : canonicalName domain = fqdn a;
  ps_apex_plain : plain_name a;
  ps_owners : forall rr, rr ∈ records -> exists n, plain_name n /\ a `suffix_of` n /\ canon rr = fqdn n
}.

(** The records at a name. *)
Definition holds (n : name) (t : Z) : Prop := exists rr, rr ∈ records /\ canon rr = fqdn n /\ rr_type rr = t.
Definition present (n : name) : Prop := exists rr, rr ∈ records /\ canon rr = fqdn n.
(** A name below which this zone is not authoritative. *)
Definition hides (c : name) : Prop := c <> a /\ (holds c TypeNS \/ holds c TypeDNAME).
Definition occluded_name (n : name) : Prop := exists c, plain_name c /\ hides c /\ c `suffix_of` n /\ c <> n.

Context (Hps : plain_snapshot).

Lemma present_plain n : plain_name n -> present n -> a `suffix_of` n.
Proof.
  intros Hn (rr & Hin & Hrr). destruct (ps_owners Hps rr Hin) as (n' & Hn' & Hs & Hrr').
  rewrite Hrr' in Hrr. by apply fqdn_inj in Hrr as ->.
Qed.

Lemma holds_present n t : holds n t -> present n.
Proof. intros (rr & ? & ? & _). by exists rr. Qed.

Lemma apexLabels_plain : zoneModel.apexLabels m = a.
Proof. rewrite (ix_labels _ _ _ (newZoneModel_indexes domain records)), (ps_apex Hps). apply SplitDomainName_plain, (ps_apex_plain Hps). Qed.

Lemma inner_ancestors_plain n : plain_name n ->
  inner_ancestors m (fqdn n) = map (fun i => fqdn (drop i n)) (seq 1 (length n - length a - 1)).
Proof. intros Hn. unfold inner_ancestors. by rewrite SplitDomainName_plain, apexLabels_plain. Qed.

Lemma inner_ancestors_elem n c : plain_name n -> a `suffix_of` n ->
  c ∈ inner_ancestors m (fqdn n) <-> exists c', c = fqdn c' /\ c' `suffix_of` n /\ c' <> n /\ a `suffix_of` c' /\ c' <> a.
Proof.
  intros Hn [k Hk]. rewrite inner_ancestors_plain, list_elem_of_fmap by done. setoid_rewrite elem_of_seq.
  assert (length n = length k + length a)%nat as Hlen by (by rewrite Hk, length_app). split.
  - intros (i & -> & Hi). exists (drop i n). split; [done|]. split; [exists (take i n); by rewrite take_drop|].
    assert (drop i n = drop i k ++ a) as Hd by (rewrite Hk, drop_app_le by lia; done).
    split; [intros He%(f_equal length); rewrite length_drop in He; lia|]. rewrite Hd. split; [by eexists|].
    intros He%(f_equal length). rewrite length_app, length_drop in He. lia.
  - intros (c' & -> & [k1 H1] & Hne & [k2 H2] & Hna). exists (length k1).
    split; [by rewrite H1, drop_app_length|].
    assert (k1 <> []) by (by intros ->). assert (k2 <> []) by (by intros ->).
    assert (length n = length k1 + (length k2 + length a))%nat by (by rewrite H1, H2, !length_app).
    destruct k1, k2; try done. cbn in *. lia.
Qed.

Lemma isOccluded_plain n : plain_name n -> a `suffix_of` n -> isOccluded m (fqdn n) = true <-> occluded_name n.
Proof.
  intros Hn Ha. pose proof (newZoneModel_indexes domain records) as Hix. unfold isOccluded.
  assert ((existsb (fun anc => bool_decide (anc ∈ zoneModel.delegations m) || bool_decide (anc ∈ zoneModel.dnames m))
    (inner_ancestors m (fqdn n)) = true) <-> occluded_name n) as Hex.
  { rewrite existsb_exists. setoid_rewrite <-list_elem_of_In. setoid_rewrite inner_ancestors_elem; [|done..].
    setoid_rewrite orb_true_iff. setoid_rewrite bool_decide_eq_true.
    setoid_rewrite (ix_delegations _ _ _ Hix). setoid_rewrite (ix_dnames _ _ _ Hix). rewrite (ps_apex Hps). split.
    - intros (c & (c' & -> & Hs & Hne & Hac & Hca) & Hor). assert (plain_name c') by (by eapply plain_name_suffix).
      exists c'. split_and!; try done. split; [done|]. destruct Hor as [[_ Hx]|Hx]; [left | right]; exact Hx.
    - intros (c & Hc & [Hca Hor] & Hs & Hne). exists (fqdn c). split.
      + exists c. split_and!; try done. apply present_plain; [done|]. destruct Hor; by eapply holds_present.
      + destruct Hor as [Hx|Hx]; [left | right; exact Hx]. split; [|exact Hx]. intros Heq. apply Hca. apply fqdn_inj; try done. apply Hps. }
  destruct (bool_decide _ && bool_decide _) eqn:Hempty; [|exact Hex].
  apply andb_true_iff in Hempty as [Hd%bool_decide_eq_true Hn'%bool_decide_eq_true].
  rewrite <-Hex, Hd, Hn'. split; [done|]. intros (x & _ & Hx)%existsb_exists. by rewrite !bool_decide_eq_false_2 in Hx by set_solver.
Qed.
End plain.

(** ** Canonical names that need no escape are their own canonical names *)

Section canonical.
Context `{DnsLib} `{!DnsLibLaws}.

(** Plain, with an asterisk only as a whole label. *)
Definition presentable_label (l : string) : Prop := plain_label l /\ (l = "*" \/ "*"%char ∉ chars l).
Definition presentable (n : name) : Prop := Forall presentable_label n.

Lemma presentable_plain n : presentable n -> plain_name n.
Proof. intros Hn. eapply Forall_impl; [exact Hn|]. by intros l [? _]. Qed.

Lemma present_plain_octet c : plain_byte c = true -> c <> "*"%char -> present_octet (byte_of_ascii c) = String c "".
Proof.
  intros Hp Hs. unfold plain_byte in Hp. unfold present_octet, byte_of_ascii.
  assert (N_of_ascii c <> 42%N) as Hn42.
  { intros Heq. apply Hs. apply byte_of_ascii_inj. unfold byte_of_ascii. by rewrite Heq. }
  assert (char_of (Z.of_N (N_of_ascii c)) = c) as Hc by (unfold char_of; rewrite N2Z.id; apply ascii_N_embedding).
  rewrite !andb_true_iff, !negb_true_iff, !N.leb_le, !N.eqb_neq in Hp. destruct Hp as ((((H1 & H2) & H3) & H4) & _).
  destruct (Z.eqb_spec (Z.of_N (N_of_ascii c)) 46); [lia|]. destruct (Z.eqb_spec (Z.of_N (N_of_ascii c)) 92); [lia|].
  destruct (Z.eqb_spec (Z.of_N (N_of_ascii c)) 42); [lia|].
  destruct (Z.ltb_spec (Z.of_N (N_of_ascii c)) 33); [lia|]. destruct (Z.ltb_spec 126 (Z.of_N (N_of_ascii c))); [lia|]. cbn [orb]. by rewrite Hc.
Qed.

Lemma str_app_nil_r s : s +:+ "" = s.
Proof. induction s as [|c s IH]; [done|]. change (String c s +:+ "") with (String c (s +:+ "")). by rewrite IH. Qed.

Lemma concat_cons x l : String.concat "" (x :: l) = x +:+ String.concat "" l.
Proof. cbn [String.concat]. destruct l as [|y l']; [by rewrite str_app_nil_r | done]. Qed.

Lemma canonicalLabel_presentable l : presentable_label l -> canonicalLabel l = l.
Proof.
  intros [Hl Hs]. unfold canonicalLabel. change (canonicalLabelBytes l) with (Names.canonicalLabelBytes l).
  rewrite canonicalLabelBytes_plain by done. destruct Hs as [->|Hs]; [done|]. destruct Hl as [_ Hp].
  assert (String.concat "" (map present_octet (label_key l)) = l) as Hc.
  { unfold label_key, bytes_of_string. revert Hp Hs. induction l as [|c l IH]; [done|]. cbn [chars String.list_ascii_of_string].
    intros [Hc Hp]%Forall_cons Hs. cbn [map]. rewrite concat_cons, IH; [|done | set_solver]. rewrite present_plain_octet; [done.. | set_solver]. }
  case_bool_decide as Hk; [|exact Hc]. change [42%Z] with (label_key "*") in Hk. by apply label_key_inj in Hk.
Qed.

Lemma canonicalName_presentable n : presentable n -> canonicalName (fqdn n) = fqdn n.
Proof.
  intros Hn. pose proof (presentable_plain n Hn) as Hp. unfold canonicalName. rewrite Fqdn_plain, SplitDomainName_plain by done.
  destruct n as [|l0 n0]; [done|]. destruct (String.eqb_spec (fqdn (l0 :: n0)) ".") as [->|_]; [done|].
  set (n := l0 :: n0) in *. assert (String.concat "" (map (fun l => canonicalLabel l +:+ ".") n) = Join n "." +:+ ".") as Hj; [|exact Hj].
  assert (n <> []) as Hne by done. clearbody n. clear Hp. induction Hn as [|l n Hl Hn IH]; [done|]. cbn [map]. rewrite concat_cons, canonicalLabel_presentable by done.
  destruct n as [|l' n']; [by rewrite str_app_nil_r|]. rewrite IH, (Join_cons l) by done. apply chars_inj. by rewrite !chars_app, <-!app_assoc.
Qed.
End canonical.
