(* ===== verification/SignaturesSound.v ===== *)
(** * SignaturesSound: what the self-verification of a signed zone accepts

    [signed_zone_ok] states it on the records, without the maps and accumulators of
    the code; the two agree exactly. *)

From stdpp Require Import base list strings gmap pretty.
From Stdlib Require Import ZArith Lia.
From S2P Require Import Prelude GoTime Config KeyOps Names Wire Serial KeyMaterial ZoneModel NsecChain Signatures ZoneModelFacts.
Local Open Scope Z_scope.

(** Two checks in sequence. *)
Lemma check_then {E A} (c : res E unit) (r : res E A) (a : A) : (check c; r) = Ok a <-> c = Ok tt /\ r = Ok a.
Proof. destruct c as [[]|]; cbn; naive_solver. Qed.

Lemma find_none_all {A} (f : A -> bool) (l : list A) : List.find f l = None <-> forall x, x ∈ l -> f x = false.
Proof.
  split; [intros Hf x; by apply find_none_bool|]. induction l as [|x l IH]; intros Hall; [done|]. cbn.
  rewrite (Hall x) by (by left). apply IH. intros y Hy. apply Hall. by right.
Qed.

Section grouping.
Context `{DnsLib}.

(** The RRSIGs of a list of records, and its RRset of a key. *)
Definition rrsigs_in (records : list RR) : list RRSIG.t := omap (fun rr => match rr with RR_RRSIG sig => Some sig | _ => None end) records.
Definition in_rrset (k : rrsetKey) (rr : RR) : bool :=
  match rr with RR_RRSIG _ => false | _ => bool_decide ((canonicalName (rr_name rr), rr_type rr) = k) end.
Definition rrset_of (records : list RR) (k : rrsetKey) : list RR := List.filter (in_rrset k) records.

Lemma groupRRsets_spec records :
  (forall k, (groupRRsets records).1 !! k = match rrset_of records k with [] => None | l => Some l end) /\
  (groupRRsets records).2 = rrsigs_in records.
Proof.
  unfold groupRRsets. induction records as [|rr records [IH1 IH2]] using rev_ind; [by split; [intros k; cbn; apply lookup_empty|]|].
  rewrite fold_left_app. cbn [fold_left]. set (acc := fold_left group_record records (∅, [])) in *.
  assert (forall k, rrset_of (records ++ [rr]) k = rrset_of records k ++ (if in_rrset k rr then [rr] else [])) as Hsnoc.
  { intros k. unfold rrset_of. rewrite List.filter_app. cbn. by destruct (in_rrset k rr). }
  unfold rrsigs_in in *. rewrite omap_app. cbn [omap list_omap].
  destruct rr as [sig| | | | | | | | | | | | | | | | ]; cbn [group_record fst snd].
  { split; [intros k; rewrite Hsnoc; cbn [in_rrset]; by rewrite app_nil_r, IH1 | by rewrite IH2]. }
  all: rewrite app_nil_r; split; [|exact IH2]; intros k; rewrite Hsnoc; cbn [in_rrset]; case_bool_decide as Hk;
    [subst k; rewrite lookup_partial_alter_eq, IH1; by destruct (rrset_of records _)
    | rewrite lookup_partial_alter_ne, IH1 by done; by rewrite app_nil_r].
Qed.

Lemma grouped records k : default [] ((groupRRsets records).1 !! k) = rrset_of records k.
Proof. rewrite (proj1 (groupRRsets_spec records)). by destruct (rrset_of records k). Qed.

Lemma grouped_dom records k : k ∈ dom (groupRRsets records).1 <-> rrset_of records k <> [].
Proof. rewrite elem_of_dom, (proj1 (groupRRsets_spec records)). by destruct (rrset_of records k). Qed.

Lemma rrset_of_elem records k rr : rr ∈ rrset_of records k <-> rr ∈ records /\ in_rrset k rr = true.
Proof. apply filter_In_bool. Qed.

Lemma rrsigs_in_elem records sig : sig ∈ rrsigs_in records <-> RR_RRSIG sig ∈ records.
Proof.
  unfold rrsigs_in. rewrite list_elem_of_omap. split; [by intros ([] & Hin & [= <-]) | intros Hin; by exists (RR_RRSIG sig)].
Qed.
End grouping.

Section verification.
Context `{DnsLib} `{WireLib} `{CryptoLib} `{HashLib} `{SignLib} (cfg : Config).
Implicit Types (m : zoneModel.t) (keys : signingKeys.t).

(** Currently valid, a window of the intended length at the intended place, each
    within ten minutes. *)
Definition window_ok (sig : RRSIG.t) (now : Time) : Prop :=
  let validity := cfg_SignatureValidity (DNSSEC cfg) in
  let span := sub32 (RRSIG.Expiration sig) (RRSIG.Inception sig) in
  ValidityPeriod sig now = true /\ 0 < span < 2 ^ 31 /\
  Z.abs (span - Z.quot (SignatureInceptionBackdate + validity) Second) <= 600 /\
  Z.abs (int32 (sub32 (RRSIG.Inception sig) (unix32 (TAdd now (- SignatureInceptionBackdate))))) <= 600 /\
  Z.abs (int32 (sub32 (RRSIG.Expiration sig) (unix32 (TAdd now validity)))) <= 600.

Lemma checkRRSIGWindow_spec sig now : checkRRSIGWindow cfg sig now = Ok tt <-> window_ok sig now.
Proof.
  unfold checkRRSIGWindow, window_ok. change (Z.quot signingWindowTolerance Second) with 600.
  set (span := sub32 _ _). set (want := Z.quot _ _). set (di := int32 _). set (de := int32 _).
  destruct (ValidityPeriod sig now); cbn [negb]; [|by split; [|intros []]].
  destruct (Z.leb_spec span 0), (Z.leb_spec (2 ^ 31) span), (Z.ltb_spec 600 (span - want)), (Z.ltb_spec 600 (want - span)),
    (Z.ltb_spec 600 di), (Z.ltb_spec 600 (- di)), (Z.ltb_spec 600 de), (Z.ltb_spec 600 (- de)); cbn [orb];
    (split; [try discriminate; intros _; split_and!; lia || done | try done; intros (? & ? & ? & ? & ?); exfalso; lia]).
Qed.

Definition sig_key (sig : RRSIG.t) : rrsetKey := (canonicalName (Hdr.Name (RRSIG.Hdr sig)), RRSIG.TypeCovered sig).

(** A published key of the tag and algorithm the signature names, under which it
    verifies over an RRset. *)
Definition verifies (sig : RRSIG.t) (rrset : list RR) (dk : DNSKEY.t) : bool :=
  (DNSKEY.Algorithm dk =? RRSIG.Algorithm sig) && match VerifyRRSIG sig dk (canonicalRRset rrset) with None => true | Some _ => false end.
Definition verifying_key keys (sig : RRSIG.t) (rrset : list RR) : option DNSKEY.t :=
  List.find (fun dk => (KeyTagOf dk =? RRSIG.KeyTag sig) && verifies sig rrset dk) (signingKeys.dnskeys keys).
Definition key_role (dk : DNSKEY.t) : Z := if Z.land (DNSKEY.Flags dk) 1 =? 1 then roleKSK else roleZSK.

Lemma find_signer_spec sig rrset cands e :
  match List.find (verifies sig rrset) cands with
  | Some dk => find_signer sig (canonicalRRset rrset) cands e = inr dk
  | None => exists e', find_signer sig (canonicalRRset rrset) cands e = inl e'
  end.
Proof.
  revert e. induction cands as [|dk cands IH]; intros e; cbn [List.find find_signer]; [by exists e|].
  unfold verifies at 1. destruct (DNSKEY.Algorithm dk =? RRSIG.Algorithm sig); cbn [andb negb]; [|apply IH].
  destruct (VerifyRRSIG sig dk _); [apply IH | done].
Qed.

Lemma find_filter {A} (f g : A -> bool) (l : list A) : List.find g (List.filter f l) = List.find (fun x => f x && g x) l.
Proof. induction l as [|x l IH]; [done|]. cbn. destruct (f x); cbn; [destruct (g x); [done | apply IH] | apply IH]. Qed.

(** What one accepted RRSIG satisfies. *)
Definition sig_ok (signed : list RR) keys (now : Time) (sig : RRSIG.t) (dk : DNSKEY.t) : Prop :=
  rrset_of signed (sig_key sig) <> [] /\ window_ok sig now /\
  RRSIG.Labels sig = rrsigLabels (canonicalName (Hdr.Name (RRSIG.Hdr sig))) /\
  verifying_key keys sig (rrset_of signed (sig_key sig)) = Some dk.

Lemma check_rrsig_spec signed keys now sig role :
  check_rrsig cfg keys (groupRRsets signed).1 now sig = Ok role <-> exists dk, sig_ok signed keys now sig dk /\ role = key_role dk.
Proof.
  unfold check_rrsig, sig_ok. change (canonicalName (Hdr.Name (RRSIG.Hdr sig)), RRSIG.TypeCovered sig) with (sig_key sig). rewrite grouped.
  destruct (rrset_of signed (sig_key sig)) as [|rr rrset] eqn:Hr; [naive_solver|].
  rewrite check_then, checkRRSIGWindow_spec. cbn [fst sig_key].
  destruct (Z.eqb_spec (RRSIG.Labels sig) (rrsigLabels (canonicalName (Hdr.Name (RRSIG.Hdr sig))))) as [Hl|Hl]; cbn [negb]; [|split; [by intros [] | by intros (? & (_ & _ & ? & _) & _)]].
  unfold verifying_key. rewrite <-find_filter. destruct (List.filter _ (signingKeys.dnskeys keys)) as [|c cands]; [cbn; naive_solver|].
  pose proof (find_signer_spec sig (rr :: rrset) (c :: cands) "<nil>") as Hf.
  destruct (List.find (verifies sig (rr :: rrset)) (c :: cands)) as [dk|].
  - rewrite Hf. split; [intros [? [= <-]]; by exists dk | intros (? & (_ & ? & _ & [= <-]) & ->); done].
  - destruct Hf as [e' ->]. naive_solver.
Qed.

(** ** The accumulated cover *)

Definition covers_with (covered : covered_map) (k : rrsetKey) (alg want : Z) : Prop :=
  Z.land (default 0 (default ∅ (covered !! k) !! alg)) want <> 0.

Definition role_of (want : Z) : Prop := want = roleKSK \/ want = roleZSK.

Lemma lor_role x y want : role_of want -> role_of y -> Z.land (Z.lor x y) want <> 0 <-> Z.land x want <> 0 \/ y = want.
Proof.
  intros Hw Hy. rewrite Z.land_lor_distr_l, Z.lor_eq_0_iff.
  assert (Z.land y want = 0 <-> y <> want) as -> by (destruct Hw as [->| ->], Hy as [->| ->]; vm_compute; intuition congruence).
  destruct (Z.eq_dec (Z.land x want) 0), (Z.eq_dec y want); tauto.
Qed.

Lemma mark_covers covered k alg role k' alg' want : role_of want -> role_of role ->
  covers_with (mark_covered covered k alg role) k' alg' want <-> covers_with covered k' alg' want \/ (k' = k /\ alg' = alg /\ role = want).
Proof.
  intros Hw Hr. unfold covers_with, mark_covered. cbv zeta. destruct (decide (k' = k)) as [->|Hk].
  2: { rewrite lookup_insert_ne by done. naive_solver. }
  rewrite lookup_insert_eq. cbn. destruct (decide (alg' = alg)) as [->|Ha].
  2: { rewrite lookup_insert_ne by done. naive_solver. }
  rewrite lookup_insert_eq. cbn. rewrite lor_role by done. naive_solver.
Qed.

Lemma mark_nonempty covered k alg role k' :
  default ∅ (mark_covered covered k alg role !! k') <> (∅ : gmap Z Z) <-> default ∅ (covered !! k') <> (∅ : gmap Z Z) \/ k' = k.
Proof.
  unfold mark_covered. cbv zeta. destruct (decide (k' = k)) as [->|Hk].
  - rewrite lookup_insert_eq. cbn. split; [by right|]. intros _. apply insert_non_empty.
  - rewrite lookup_insert_ne by done. naive_solver.
Qed.

Lemma key_role_of dk : role_of (key_role dk).
Proof. unfold key_role. case_match; [by left | by right]. Qed.

Lemma check_rrsigs_spec signed keys now sigs covered covered' :
  check_rrsigs cfg keys (groupRRsets signed).1 now sigs covered = Ok covered' ->
  (forall sig, sig ∈ sigs -> exists dk, sig_ok signed keys now sig dk) /\
  (forall k alg want, role_of want -> covers_with covered' k alg want <->
     covers_with covered k alg want \/
     exists sig dk, sig ∈ sigs /\ sig_key sig = k /\ RRSIG.Algorithm sig = alg /\ sig_ok signed keys now sig dk /\ key_role dk = want) /\
  (forall k, default ∅ (covered' !! k) <> (∅ : gmap Z Z) <-> default ∅ (covered !! k) <> (∅ : gmap Z Z) \/ exists sig, sig ∈ sigs /\ sig_key sig = k).
Proof.
  revert covered. induction sigs as [|sig sigs IH]; intros covered; cbn [check_rrsigs].
  { intros [= <-]. split; [set_solver|]. split; [intros; set_solver | set_solver]. }
  destruct (check_rrsig _ _ _ _ sig) as [role|] eqn:Hc; cbn [res_bind]; [|done].
  apply check_rrsig_spec in Hc as (dk & Hok & ->). intros (IH1 & IH2 & IH3)%IH.
  split; [intros s [->|Hs]%elem_of_cons; [by exists dk | by apply IH1]|]. split.
  - intros k alg want Hw. rewrite IH2, mark_covers by (done || apply key_role_of). unfold sig_key at 1. split.
    + intros [[?|(-> & -> & Hr)]|(s & d & Hs & Hrest)]; [by left | right; exists sig, dk; split; [by left | done] | right; exists s, d; split; [by right | done]].
    + intros [?|(s & d & [->|Hs]%elem_of_cons & Hk & Ha & Hs' & Hr)]; [by left; left | left; right | right; by exists s, d].
      destruct Hok as (_ & _ & _ & Hv), Hs' as (_ & _ & _ & Hv'). rewrite Hv in Hv'. by simplify_eq.
  - intros k. rewrite IH3, mark_nonempty. unfold sig_key at 1. split.
    + intros [[?| ->]|(s & Hs & Hk)]; [by left | right; exists sig; split; [by left | done] | right; exists s; split; [by right | done]].
    + intros [?|(s & [->|Hs]%elem_of_cons & <-)]; [by left; left | by left; right | right; by exists s].
Qed.

Lemma check_rrsigs_ok signed keys now sigs covered :
  (forall sig, sig ∈ sigs -> exists dk, sig_ok signed keys now sig dk) ->
  exists covered', check_rrsigs cfg keys (groupRRsets signed).1 now sigs covered = Ok covered'.
Proof.
  revert covered. induction sigs as [|sig sigs IH]; intros covered Hall; cbn [check_rrsigs]; [by eexists|].
  destruct (Hall sig) as [dk Hdk]; [by left|]. rewrite (proj2 (check_rrsig_spec signed keys now sig (key_role dk))) by (by exists dk).
  cbn [res_bind]. apply IH. intros s Hs. apply Hall. by right.
Qed.

Lemma check_input_spec signed input :
  check_input (groupRRsets signed).1 (groupRRsets input).1 = Ok tt <-> forall k, (length (rrset_of input k) <= length (rrset_of signed k))%nat.
Proof.
  unfold check_input. destruct (List.find _ _) as [[k l]|] eqn:Hf.
  - apply find_some_bool in Hf as [Hin%elem_of_map_to_list Hlt%Nat.ltb_lt]. cbn in Hlt. split; [done|]. intros Hall.
    rewrite grouped in Hlt. assert (l = rrset_of input k) as -> by (rewrite <-grouped; by setoid_rewrite Hin). specialize (Hall k). lia.
  - split; [|done]. intros _ k. rewrite find_none_all in Hf. rewrite <-(grouped input k).
    destruct ((groupRRsets input).1 !! k) as [l|] eqn:Hl; cbn; [|lia].
    specialize (Hf (k, l) (proj2 (elem_of_map_to_list _ _ _) Hl)). cbn in Hf. rewrite grouped in Hf. apply Nat.ltb_ge in Hf. lia.
Qed.

Definition wanted_role (k : rrsetKey) : Z := if k.2 =? TypeDNSKEY then roleKSK else roleZSK.
Lemma wanted_role_of k : role_of (wanted_role k).
Proof. unfold wanted_role. case_match; [by left | by right]. Qed.

Lemma check_covered_spec algorithms covered k :
  check_covered algorithms covered k = Ok tt <->
  default ∅ (covered !! k) <> (∅ : gmap Z Z) /\ forall alg, alg ∈ algorithms -> covers_with covered k alg (wanted_role k).
Proof.
  unfold check_covered, covers_with, wanted_role. case_bool_decide as He; [by split; [|intros []]|].
  assert (forall (want : Z) (name : string),
    match List.find (fun alg => Z.land (default 0 (default ∅ (covered !! k) !! alg)) want =? 0) (elements algorithms) with
    | Some alg => Err (Sprintf "RRset %s %s is not signed by a %s of algorithm %s although the DNSKEY RRset advertises that algorithm (RFC 6840 §5.11)"
        [k.1; TypeString k.2; name; AlgorithmName alg])
    | None => Ok tt
    end = Ok tt <-> forall alg, alg ∈ algorithms -> Z.land (default 0 (default ∅ (covered !! k) !! alg)) want <> 0) as Hfind.
  { intros want name. destruct (List.find _ _) as [alg|] eqn:Hf.
    - apply find_some_bool in Hf as [Hin%elem_of_elements Hz%Z.eqb_eq]. split; [done|]. intros Hall. by destruct (Hall alg Hin).
    - split; [|done]. intros _ alg Hin. rewrite find_none_all in Hf. by apply Z.eqb_neq, Hf, elem_of_elements. }
  destruct (k.2 =? TypeDNSKEY); rewrite Hfind; (split; [intros Hx; by split | by intros [_ Hx]]).
Qed.

Lemma check_all_covered_spec m algorithms covered ks :
  check_all_covered m algorithms covered ks = Ok tt <->
  forall k, k ∈ ks -> signable m k.1 k.2 = true -> check_covered algorithms covered k = Ok tt.
Proof.
  induction ks as [|k ks IH]; cbn [check_all_covered]; [set_solver|]. rewrite check_then, IH. setoid_rewrite elem_of_cons.
  split.
  - intros [Hk Hall] k' [->|Hin] Hs; [by rewrite Hs in Hk | by apply Hall].
  - intros Hall. split; [|intros k' Hin; apply Hall; by right]. destruct (signable m k.1 k.2) eqn:Hs; cbn [negb]; [|done]. apply Hall; [by left | done].
Qed.

(** ** The whole verdict *)

Definition denial_ok m (signed : list RR) : Prop :=
  if String.eqb (cfg_NSECVersion (DNSSEC cfg)) "nsec3" then
    nsecs_in signed = [] /\
    verifyNSEC3Expectations m (nsec3s_in signed) (nsec3params_in signed) (uint16_mod (cfg_NSEC3Iterations (DNSSEC cfg)))
      (cfg_NSEC3Salt (DNSSEC cfg)) = Ok tt
  else nsec3s_in signed = [] /\ nsec3params_in signed = [] /\ verifyNSECExpectations m (nsecs_in signed) = Ok tt.

(** Every RRSIG is one of a published key over an RRset of the zone, with the
    intended window and label count; no RRset of the input lost a record; every
    RRset this zone is authoritative for is signed, under each algorithm that is
    published, by a key of the right role; the denial records are those of the
    configured mode. *)
Record signed_zone_ok m (input signed : list RR) keys (now : Time) : Prop := {
  so_sigs : forall sig, RR_RRSIG sig ∈ signed -> exists dk, sig_ok signed keys now sig dk;
  so_input : forall k, (length (rrset_of input k) <= length (rrset_of signed k))%nat;
  so_covered : forall k, rrset_of signed k <> [] -> signable m k.1 k.2 = true -> exists sig, RR_RRSIG sig ∈ signed /\ sig_key sig = k;
  so_algorithms : forall k dk, rrset_of signed k <> [] -> signable m k.1 k.2 = true -> dk ∈ signingKeys.dnskeys keys ->
    exists sig dk', RR_RRSIG sig ∈ signed /\ sig_key sig = k /\ RRSIG.Algorithm sig = DNSKEY.Algorithm dk /\
      sig_ok signed keys now sig dk' /\ key_role dk' = wanted_role k;
  so_denial : denial_ok m signed
}.

Lemma denial_spec m signed :
  (if String.eqb (cfg_NSECVersion (DNSSEC cfg)) "nsec3" then
    match nsecs_in signed with
    | _ :: _ => Err "NSEC records present in an NSEC3-signed zone"
    | [] => verifyNSEC3Expectations m (nsec3s_in signed) (nsec3params_in signed) (uint16_mod (cfg_NSEC3Iterations (DNSSEC cfg))) (cfg_NSEC3Salt (DNSSEC cfg))
    end
   else
    match nsec3s_in signed, nsec3params_in signed with
    | [], [] => verifyNSECExpectations m (nsecs_in signed)
    | _, _ => Err "NSEC3 records present in an NSEC-signed zone"
    end) = Ok tt <-> denial_ok m signed.
Proof.
  unfold denial_ok. destruct (String.eqb _ _).
  - destruct (nsecs_in signed); naive_solver.
  - destruct (nsec3s_in signed), (nsec3params_in signed); naive_solver.
Qed.

Lemma verify_zone_spec m input signed keys now :
  verifySignedZoneWithModel cfg m input signed keys now = Ok tt <-> signed_zone_ok m input signed keys now.
Proof.
  unfold verifySignedZoneWithModel. destruct (groupRRsets signed) as [rrsets rrsigs] eqn:Hg.
  assert (rrsets = (groupRRsets signed).1) as -> by (by rewrite Hg). assert (rrsigs = rrsigs_in signed) as ->.
  { rewrite <-(proj2 (groupRRsets_spec signed)). by rewrite Hg. }
  clear Hg. split.
  - destruct (check_rrsigs _ _ _ _ _ _) as [covered|] eqn:Hc; cbn [res_bind]; [|done].
    apply check_rrsigs_spec in Hc as (Hsigs & Hcov & Hne). rewrite !check_then, check_input_spec, check_all_covered_spec, denial_spec.
    intros (Hin & Hall & Hd).
    assert (forall k, rrset_of signed k <> [] -> signable m k.1 k.2 = true ->
      check_covered (list_to_set (map DNSKEY.Algorithm (signingKeys.dnskeys keys))) covered k = Ok tt) as Hk.
    { intros k Hk Hs. apply Hall; [|done]. unfold sortedRRsetKeys. rewrite (sort_slice_perm key_less). by apply elem_of_elements, grouped_dom. }
    constructor; [| done | | | done].
    + intros sig Hsig. by apply Hsigs, rrsigs_in_elem.
    + intros k Hk1 Hk2. destruct (proj1 (check_covered_spec _ _ _) (Hk k Hk1 Hk2)) as [Hc _].
      apply Hne in Hc as [Hc|(sig & Hs & <-)]; [by destruct Hc|]. exists sig. split; [by apply rrsigs_in_elem | done].
    + intros k dk Hk1 Hk2 Hdk. destruct (proj1 (check_covered_spec _ _ _) (Hk k Hk1 Hk2)) as [_ Hc].
      assert (DNSKEY.Algorithm dk ∈ (list_to_set (map DNSKEY.Algorithm (signingKeys.dnskeys keys)) : gset Z)) as Ha
        by (apply elem_of_list_to_set, list_elem_of_fmap; by exists dk).
      destruct (proj1 (Hcov _ _ _ (wanted_role_of k)) (Hc _ Ha)) as [He|(sig & dk' & Hs & Hrest)]; [by destruct He|].
      exists sig, dk'. split; [by apply rrsigs_in_elem | done].
  - intros [Hsigs Hin Hcovered Halg Hd].
    destruct (check_rrsigs_ok signed keys now (rrsigs_in signed) ∅) as [covered Hc].
    { intros sig Hs%rrsigs_in_elem. by apply Hsigs. }
    rewrite Hc. cbn [res_bind]. apply check_rrsigs_spec in Hc as (_ & Hcov & Hne).
    rewrite !check_then, check_input_spec, check_all_covered_spec, denial_spec. split; [done|]. split; [|done].
    intros k Hk Hs. unfold sortedRRsetKeys in Hk. rewrite (sort_slice_perm key_less) in Hk. apply elem_of_elements, grouped_dom in Hk.
    apply check_covered_spec. split.
    + apply Hne. right. destruct (Hcovered k Hk Hs) as (sig & Hsig & <-). exists sig. split; [by apply rrsigs_in_elem | done].
    + intros alg (dk & -> & Hdk)%elem_of_list_to_set%list_elem_of_fmap. apply Hcov; [apply wanted_role_of|]. right.
      destruct (Halg k dk Hk Hs Hdk) as (sig & dk' & Hsig & Hrest). exists sig, dk'. split; [by apply rrsigs_in_elem | done].
Qed.
End verification.
