(* ===== verification/SignSound.v ===== *)
(** * SignSound: what signing a zone produces

    Signing adds RRSIGs and nothing else; with keys that cover every published
    algorithm in both roles, what it adds is what [verifySignedZoneWithModel] asks
    for. *)

From stdpp Require Import base list strings gmap pretty.
From Stdlib Require Import ZArith Lia.
From S2P Require Import Prelude GoTime Config KeyOps Names Digests Wire Serial KeyMaterial ZoneModel NsecChain Signatures ZoneModelFacts SignaturesSound.
Local Open Scope Z_scope.

(** A published key that a resolver accepts signatures of: a zone key, protocol 3,
    owned by the zone. *)
Definition zone_key `{DnsLib} (domain : string) (key : DNSKEY.t) : Prop :=
  EqualFold (Hdr.Name (DNSKEY.Hdr key)) (Fqdn domain) = true /\ Hdr.Class_ (DNSKEY.Hdr key) = 1 /\
  Z.land (DNSKEY.Flags key) 256 = 256 /\ DNSKEY.Protocol key = 3.

(** One RRset: a single owner, type and class. *)
Definition is_rrset (rrset : list RR) : Prop :=
  forall rr, rr ∈ rrset -> Hdr.Name (Header rr) = Hdr.Name (first_header rrset) /\
    Hdr.Rrtype (Header rr) = Hdr.Rrtype (first_header rrset) /\ Hdr.Class_ (Header rr) = 1.

Section laws.
Context `{DnsLib} `{WireLib} `{CryptoLib} `{SignLib}.

(** [times] a signature is made for, before the 32-bit seconds wrap *)
Definition before_wrap (t : Time) : Prop := 0 <= unix_seconds t < 2 ^ 32.

(** What the library documents: [Sign] copies the owner, type and class from the
    RRset and leaves what the caller filled in; a signature of a private key
    verifies under the public key that corresponds to it; a validity period
    contains the times between its ends. *)
Class SignLaws : Prop := {
  Sign_fields : forall signer r rrset r', Sign signer r rrset = Ok r' ->
    Hdr.Name (RRSIG.Hdr r') = Hdr.Name (first_header rrset) /\ RRSIG.TypeCovered r' = Hdr.Rrtype (first_header rrset) /\
    Hdr.Ttl (RRSIG.Hdr r') = Hdr.Ttl (RRSIG.Hdr r) /\ RRSIG.Algorithm r' = RRSIG.Algorithm r /\
    RRSIG.Expiration r' = RRSIG.Expiration r /\ RRSIG.Inception r' = RRSIG.Inception r /\ RRSIG.KeyTag r' = RRSIG.KeyTag r;
  Sign_verifies : forall domain key priv signer r rrset r',
    VerifyKeyPairCorrespondence key priv = Ok tt -> signer_of (DNSKEY.Algorithm key) priv = Ok signer -> Sign signer r rrset = Ok r' ->
    zone_key domain key -> RRSIG.KeyTag r = KeyTagOf key -> RRSIG.Algorithm r = DNSKEY.Algorithm key -> RRSIG.SignerName r = Fqdn domain ->
    rrset <> [] -> is_rrset rrset -> VerifyRRSIG r' key rrset = None;
  ValidityPeriod_within : forall r i e t, RRSIG.Inception r = unix32 i -> RRSIG.Expiration r = unix32 e ->
    before_wrap i -> before_wrap e -> i <= t <= e -> e - i < 2 ^ 31 * Second -> ValidityPeriod r t = true
}.
End laws.

Section signing.
Context `{DnsLib} `{WireLib} `{CryptoLib} `{HashLib} `{SignLib}.
Implicit Types (m : zoneModel.t) (keys : signingKeys.t).

(** The RRSIGs of one RRset, one per key, all made by [signRRSIG]. *)
Definition made_with (wire : list RR) (domain : string) (inception expiration : Time) (kp : DNSKEY.t * list Z) (sig : RRSIG.t) : Prop :=
  signRRSIG (createRRSIG wire kp.1 domain inception expiration) wire kp.1 kp.2 = Ok sig.

Lemma sign_with_spec failed wire domain inception expiration kps sigs :
  sign_with failed wire domain inception expiration kps = Ok sigs ->
  exists l, sigs = map RR_RRSIG l /\ Forall2 (made_with wire domain inception expiration) kps l.
Proof.
  revert sigs. induction kps as [|[key priv] kps IH]; intros sigs; cbn [sign_with]; [intros [= <-]; by exists []|].
  destruct (signRRSIG _ _ _ _) as [sig|] eqn:Hs; [|done]. destruct (sign_with _ _ _ _ _ kps) as [rest|]; cbn [res_bind]; [|done].
  intros [= <-]. destruct (IH rest eq_refl) as (l & -> & Hl). exists (sig :: l). split; [done | by constructor].
Qed.

(** The keys that sign an RRset. *)
Definition signers keys (k : rrsetKey) : list (DNSKEY.t * list Z) :=
  if k.2 =? TypeDNSKEY then combine (signingKeys.signingKSKs keys) (signingKeys.signingKSKPs keys)
  else combine (signingKeys.signingZSKs keys) (signingKeys.signingZSKPs keys).

Lemma sign_rrset_spec keys domain inception expiration k rrset sigs :
  sign_rrset keys domain inception expiration k rrset = Ok sigs ->
  exists l, sigs = map RR_RRSIG l /\ Forall2 (made_with (canonicalRRset rrset) domain inception expiration) (signers keys k) l.
Proof. unfold sign_rrset, signers. destruct (k.2 =? TypeDNSKEY); apply sign_with_spec. Qed.

(** A signature of the pass: over a signable RRset, by one of its keys. *)
Definition made m keys domain inception expiration (records : list RR) (k : rrsetKey) (kp : DNSKEY.t * list Z) (sig : RRSIG.t) : Prop :=
  rrset_of records k <> [] /\ signable m k.1 k.2 = true /\ kp ∈ signers keys k /\
  made_with (canonicalRRset (rrset_of records k)) domain inception expiration kp sig.

Lemma sign_rrsets_spec m keys domain inception expiration records ks sigs :
  sign_rrsets m keys domain inception expiration (groupRRsets records).1 ks = Ok sigs ->
  exists l, sigs = map RR_RRSIG l /\
    (forall sig, sig ∈ l -> exists k kp, k ∈ ks /\ made m keys domain inception expiration records k kp sig) /\
    (forall k kp, k ∈ ks -> rrset_of records k <> [] -> signable m k.1 k.2 = true -> kp ∈ signers keys k ->
      exists sig, sig ∈ l /\ made m keys domain inception expiration records k kp sig).
Proof.
  revert sigs. induction ks as [|k ks IH]; intros sigs; cbn [sign_rrsets]; [intros [= <-]; exists []; set_solver|].
  rewrite grouped. destruct (match rrset_of records k with [] => Ok [] | _ => _ end) as [sigs1|] eqn:Hk; cbn [res_bind]; [|done].
  destruct (sign_rrsets _ _ _ _ _ _ ks) as [sigs2|]; cbn [res_bind]; [|done]. intros [= <-].
  destruct (IH sigs2 eq_refl) as (l2 & -> & Hfrom & Hto).
  destruct (rrset_of records k) as [|rr rrset] eqn:Hr; [injection Hk as <-; exists l2; split; [done|]; split|].
  - intros sig Hs. destruct (Hfrom sig Hs) as (k' & kp & Hin & Hm). exists k', kp. split; [by right | done].
  - intros k' kp [->|Hin]%elem_of_cons Hne; [by rewrite Hr in Hne | by apply Hto].
  - destruct (signable m k.1 k.2) eqn:Hsig; cbn [negb] in Hk.
    2: { injection Hk as <-. exists l2. split; [done|]. split.
      - intros sig Hs. destruct (Hfrom sig Hs) as (k' & kp & Hin & Hm). exists k', kp. split; [by right | done].
      - intros k' kp [->|Hin]%elem_of_cons Hne Hsg; [by rewrite Hsig in Hsg | by apply Hto]. }
    apply sign_rrset_spec in Hk as (l1 & -> & Hl1). exists (l1 ++ l2). split; [by rewrite map_app|]. rewrite <-Hr in Hl1. split.
    + intros sig [Hs|Hs]%elem_of_app.
      * apply list_elem_of_lookup in Hs as [i Hi]. destruct (Forall2_lookup_r _ _ _ _ _ Hl1 Hi) as (kp & Hkp & Hm).
        exists k, kp. split; [by left|]. split_and!; [by rewrite Hr | done | by eapply list_elem_of_lookup_2 | done].
      * destruct (Hfrom sig Hs) as (k' & kp & Hin & Hm). exists k', kp. split; [by right | done].
    + intros k' kp [->|Hin]%elem_of_cons Hne Hsg Hkp.
      * apply list_elem_of_lookup in Hkp as [i Hi]. destruct (Forall2_lookup_l _ _ _ _ _ Hl1 Hi) as (sig & Hs & Hm).
        exists sig. split; [apply elem_of_app; left; by eapply list_elem_of_lookup_2|]. split_and!; [done | done | by eapply list_elem_of_lookup_2 | done].
      * destruct (Hto k' kp Hin Hne Hsg Hkp) as (sig & Hs & Hm). exists sig. split; [apply elem_of_app; by right | done].
Qed.

(** The pass keeps the records and adds RRSIGs, exactly one of each signing key to
    each signable RRset. *)
Lemma sign_records_spec cfg m domain records keys now signed :
  signRecordsWithModel cfg m domain records keys now = Ok signed ->
  let inception := TAdd now (- SignatureInceptionBackdate) in
  let expiration := TAdd now (cfg_SignatureValidity (DNSSEC cfg)) in
  exists l, signed = records ++ map RR_RRSIG l /\
    (forall sig, sig ∈ l -> exists k kp, made m keys domain inception expiration records k kp sig) /\
    (forall k kp, rrset_of records k <> [] -> signable m k.1 k.2 = true -> kp ∈ signers keys k ->
      exists sig, sig ∈ l /\ made m keys domain inception expiration records k kp sig).
Proof.
  unfold signRecordsWithModel. cbv zeta. destruct (sign_rrsets _ _ _ _ _ _ _) as [sigs|] eqn:Hs; cbn [res_bind]; [|done].
  intros [= <-]. apply sign_rrsets_spec in Hs as (l & -> & Hfrom & Hto). exists l. split; [done|]. split.
  - intros sig Hsig. destruct (Hfrom sig Hsig) as (k & kp & _ & Hm). by exists k, kp.
  - intros k kp Hne. apply Hto; [|done]. unfold sortedRRsetKeys. rewrite (sort_slice_perm key_less). by apply elem_of_elements, grouped_dom.
Qed.

Lemma rrset_of_sigs records l k : rrset_of (records ++ map RR_RRSIG l) k = rrset_of records k.
Proof.
  unfold rrset_of. rewrite List.filter_app. enough (List.filter (in_rrset k) (map RR_RRSIG l) = []) as -> by apply app_nil_r.
  induction l as [|s l IH]; [done|]. cbn. exact IH.
Qed.

Lemma sigs_of_signed records l sig : RR_RRSIG sig ∈ records ++ map RR_RRSIG l <-> RR_RRSIG sig ∈ records \/ sig ∈ l.
Proof.
  rewrite elem_of_app, list_elem_of_fmap. split; (intros [?|Hs]; [by left | right]); [by destruct Hs as (? & [= <-] & ?) | by exists sig].
Qed.

(** [signRRSIG] refuses a library that sets another label count. *)
Lemma made_labels wire domain inception expiration kp sig : made_with wire domain inception expiration kp sig ->
  RRSIG.Labels sig = rrsigLabels (Hdr.Name (first_header wire)) /\
  exists signer, signer_of (DNSKEY.Algorithm kp.1) kp.2 = Ok signer /\
    Sign signer (createRRSIG wire kp.1 domain inception expiration) wire = Ok sig.
Proof.
  unfold made_with, signRRSIG, signRRSIGWithAlgorithm. destruct (signer_of _ _) as [signer|]; cbn [res_bind]; [|done].
  destruct (Sign signer _ wire) as [r|] eqn:Hs; cbn [res_bind]; [|done]. cbn [createRRSIG RRSIG.Labels].
  destruct (Z.eqb_spec (RRSIG.Labels r) (rrsigLabels (Hdr.Name (first_header wire)))) as [Hl|]; cbn [negb]; [|done].
  intros [= <-]. split; [done|]. by exists signer.
Qed.
End signing.

(** ** Signing, then verifying *)

(** The keys cover every published algorithm in both roles, each signing key is
    published and corresponds to its private half, and no two tags are equal. *)
Record complete_keys `{DnsLib} `{WireLib} `{CryptoLib} (domain : string) (keys : signingKeys.t) : Prop := {
  ck_some : signingKeys.dnskeys keys <> [];
  ck_tags : NoDup (map KeyTagOf (signingKeys.dnskeys keys));
  ck_signers : forall k kp, kp ∈ signers keys k -> kp.1 ∈ signingKeys.dnskeys keys /\ zone_key domain kp.1 /\
    VerifyKeyPairCorrespondence kp.1 kp.2 = Ok tt /\ key_role kp.1 = wanted_role k;
  ck_algorithms : forall k dk, dk ∈ signingKeys.dnskeys keys -> exists kp, kp ∈ signers keys k /\ DNSKEY.Algorithm kp.1 = DNSKEY.Algorithm dk
}.

(** Class IN, no signatures yet, owners whose canonical form is stable. *)
Definition unsigned_records `{DnsLib} (records : list RR) : Prop :=
  rrsigs_in records = [] /\ forall rr, rr ∈ records -> Hdr.Class_ (Header rr) = 1 /\ canonicalName (canon rr) = canon rr.

(** Verified within ten minutes of being signed, well before 2106. *)
Record pass_times (validity : Duration) (now verify_now : Time) : Prop := {
  pt_validity : 10 * Minute <= validity;
  pt_order : now <= verify_now < now + 10 * Minute;
  pt_span : validity <= MaxSignatureValidity;
  pt_start : before_wrap (now - SignatureInceptionBackdate);
  pt_end : before_wrap (verify_now + validity)
}.

Lemma before_wrap_between t u v : before_wrap t -> before_wrap v -> t <= u <= v -> before_wrap u.
Proof.
  unfold before_wrap, unix_seconds. intros [Ht _] [_ Hv] [H1 H2].
  pose proof (Z.div_le_mono t u Second ltac:(done) H1). pose proof (Z.div_le_mono u v Second ltac:(done) H2). lia.
Qed.

Lemma unix32_seconds t : before_wrap t -> unix32 t = unix_seconds t.
Proof. unfold before_wrap, unix32, unix_seconds, wrap32. intros Ht. by apply Z.mod_small. Qed.

Lemma floor_diff x d : 0 <= d -> d / Second <= (x + d) / Second - x / Second <= d / Second + 1.
Proof.
  intros Hd. unfold Second. pose proof (Z.div_mod x 1000000000). pose proof (Z.div_mod d 1000000000). pose proof (Z.div_mod (x + d) 1000000000).
  pose proof (Z.mod_pos_bound x 1000000000). pose proof (Z.mod_pos_bound d 1000000000). pose proof (Z.mod_pos_bound (x + d) 1000000000). lia.
Qed.

Lemma int32_small x : - 2 ^ 31 <= x < 2 ^ 31 -> int32 (x mod 2 ^ 32) = x.
Proof.
  intros Hx. unfold int32. rewrite Z.add_mod_idemp_l by done. rewrite Z.mod_small; lia.
Qed.

Section verifying.
Context `{DnsLib} `{WireLib} `{CryptoLib} `{HashLib} `{SignLib} `{!SignLaws} (cfg : Config).
Implicit Types (m : zoneModel.t) (keys : signingKeys.t).
Local Abbreviation validity := (cfg_SignatureValidity (DNSSEC cfg)).

Lemma made_window m keys domain records k kp sig now verify_now : pass_times validity now verify_now ->
  made m keys domain (TAdd now (- SignatureInceptionBackdate)) (TAdd now validity) records k kp sig -> window_ok cfg sig verify_now.
Proof.
  intros [Hv Ho Hsp Hst Hen] (_ & _ & _ & Hm). apply made_labels in Hm as (_ & signer & _ & Hs).
  apply Sign_fields in Hs as (_ & _ & _ & _ & He & Hi & _). cbn in He, Hi. unfold TAdd in *.
  assert (Minute = 60000000000) as Hmin by reflexivity. assert (SignatureInceptionBackdate = 3600000000000) as Hback by reflexivity.
  assert (before_wrap (now + validity) /\ before_wrap (verify_now + - SignatureInceptionBackdate) /\ before_wrap (now + - SignatureInceptionBackdate)) as (W1 & W2 & W3).
  { split_and!; (eapply before_wrap_between; [exact Hst | exact Hen|]); lia. }
  set (i := now + - SignatureInceptionBackdate) in *.
  pose proof (floor_diff i (SignatureInceptionBackdate + validity) ltac:(lia)) as F1. pose proof (floor_diff i (verify_now - now) ltac:(lia)) as F2.
  pose proof (floor_diff (now + validity) (verify_now - now) ltac:(lia)) as F3.
  replace (i + (SignatureInceptionBackdate + validity)) with (now + validity) in F1 by (unfold i; lia).
  replace (i + (verify_now - now)) with (verify_now + - SignatureInceptionBackdate) in F2 by (unfold i; lia).
  replace (now + validity + (verify_now - now)) with (verify_now + validity) in F3 by lia.
  assert ((verify_now - now) / Second < 600) as F4 by (apply Z.div_lt_upper_bound; [done|]; change (Second * 600) with (10 * Minute); lia).
  assert (0 <= (verify_now - now) / Second) as F5 by (apply Z.div_pos; [lia | done]).
  assert ((SignatureInceptionBackdate + validity) / Second <= 366 * 86400 + 3600) as F6.
  { apply Z.div_le_upper_bound; [done|]. change (Second * (366 * 86400 + 3600)) with (SignatureInceptionBackdate + MaxSignatureValidity). lia. }
  assert (4200 <= (SignatureInceptionBackdate + validity) / Second) as F7 by (apply Z.div_le_lower_bound; [done|]; rewrite Hback; unfold Second; lia).
  unfold window_ok, TAdd. rewrite He, Hi, !unix32_seconds by done. unfold sub32, unix_seconds. rewrite Z.quot_div_nonneg by lia || done.
  set (q := (SignatureInceptionBackdate + validity) / Second) in *. rewrite !int32_small by lia. rewrite (Z.mod_small _ (2 ^ 32)) by lia.
  split; [|lia]. eapply (ValidityPeriod_within sig i (now + validity)); [done..| |].
  - unfold i. lia.
  - unfold i. change (2 ^ 31 * Second) with 2147483648000000000. unfold MaxSignatureValidity, Hour, Minute, Second in Hsp. lia.
Qed.

(** The wire form of an RRset, with the owner it is grouped under. *)
Lemma canonical_rrset records k : unsigned_records records -> rrset_of records k <> [] ->
  let wire := canonicalRRset (rrset_of records k) in
  wire <> [] /\ is_rrset wire /\ Hdr.Name (first_header wire) = k.1 /\ Hdr.Rrtype (first_header wire) = k.2 /\ canonicalName k.1 = k.1.
Proof.
  intros [_ Hrec] Hne. cbv zeta.
  assert (forall rr, rr ∈ canonicalRRset (rrset_of records k) -> Hdr.Name (Header rr) = k.1 /\ Hdr.Rrtype (Header rr) = k.2 /\
    Hdr.Class_ (Header rr) = 1 /\ canonicalName k.1 = k.1) as Hall.
  { intros rr (rr0 & -> & Hin)%list_elem_of_fmap. apply rrset_of_elem in Hin as [Hin Hk]. destruct (Hrec rr0 Hin) as [Hc Hid].
    assert ((canonicalName (rr_name rr0), rr_type rr0) = k) as <- by (destruct rr0; cbn in Hk; try done; by apply bool_decide_eq_true in Hk).
    unfold canon in Hid. by destruct rr0. }
  destruct (canonicalRRset (rrset_of records k)) as [|w ws] eqn:Hw; [by destruct (rrset_of records k)|].
  destruct (Hall w) as (E1 & E2 & E3 & E4); [by left|]. split_and!; try done. intros rr Hrr. cbn [first_header]. destruct (Hall rr Hrr) as (-> & -> & -> & _). by rewrite E1, E2.
Qed.

Lemma find_unique {A} (f : A -> bool) (l : list A) x : x ∈ l -> f x = true -> (forall y, y ∈ l -> f y = true -> y = x) -> List.find f l = Some x.
Proof.
  intros Hx Hf Hu. destruct (List.find f l) as [y|] eqn:Hy.
  - apply find_some_bool in Hy as [Hin Hy]. f_equal. by apply Hu.
  - rewrite find_none_all in Hy. by rewrite (Hy x Hx) in Hf.
Qed.

Lemma tag_unique keys x y : NoDup (map KeyTagOf (signingKeys.dnskeys keys)) -> x ∈ signingKeys.dnskeys keys -> y ∈ signingKeys.dnskeys keys ->
  KeyTagOf x = KeyTagOf y -> x = y.
Proof.
  intros Hd [i Hi]%list_elem_of_lookup [j Hj]%list_elem_of_lookup Ht.
  assert (i = j) as ->; [|congruence]. eapply (NoDup_lookup (map KeyTagOf _)); [exact Hd | |]; rewrite list_lookup_fmap; [by rewrite Hi | by rewrite Hj; cbn; rewrite Ht].
Qed.

(** Each signature of the pass is one the verification accepts, with the role of
    its key. *)
Lemma made_ok m keys domain records k kp sig now verify_now l :
  complete_keys domain keys -> unsigned_records records -> pass_times validity now verify_now ->
  made m keys domain (TAdd now (- SignatureInceptionBackdate)) (TAdd now validity) records k kp sig ->
  sig_key sig = k /\ RRSIG.Algorithm sig = DNSKEY.Algorithm kp.1 /\ sig_ok cfg (records ++ map RR_RRSIG l) keys verify_now sig kp.1.
Proof.
  intros Hk Hrec Ht Hm. pose proof (made_window _ _ _ _ _ _ _ _ _ Ht Hm) as Hw. destruct Hm as (Hne & Hs & Hkp & Hm).
  destruct (canonical_rrset records k Hrec Hne) as (Hwne & Hrr & Hname & Htype & Hid).
  apply made_labels in Hm as (Hl & signer & Hsigner & Hsign). destruct (ck_signers _ _ Hk k kp Hkp) as (Hpub & Hzone & Hpair & _).
  pose proof (Sign_fields _ _ _ _ Hsign) as (F1 & F2 & _ & F4 & _ & _ & F7). cbn in F4, F7.
  assert (sig_key sig = k) as Hkey by (unfold sig_key; rewrite F1, F2, Hname, Htype, Hid; by destruct k).
  split; [done|]. split; [done|]. unfold sig_ok. rewrite Hkey, rrset_of_sigs. split_and!; try done.
  - unfold rrsigLabels in *. rewrite Hl, F1, Hname. by rewrite !Hid.
  - unfold verifying_key. apply find_unique; [done| |].
    + rewrite F7, Z.eqb_refl. unfold verifies. rewrite F4, Z.eqb_refl. cbn.
      by rewrite (Sign_verifies domain kp.1 kp.2 signer _ _ _ Hpair Hsigner Hsign Hzone eq_refl eq_refl eq_refl Hwne Hrr).
    + intros y Hy [Htag%Z.eqb_eq _]%andb_true_iff. apply (tag_unique keys); [apply Hk | done..|]. by rewrite Htag, F7.
Qed.

(** What is signed with complete keys verifies. *)
Lemma signed_verifies m keys domain input records signed now verify_now :
  signRecordsWithModel cfg m domain records keys now = Ok signed ->
  complete_keys domain keys -> unsigned_records records -> pass_times validity now verify_now ->
  (forall k, (length (rrset_of input k) <= length (rrset_of records k))%nat) -> denial_ok cfg m signed ->
  verifySignedZoneWithModel cfg m input signed keys verify_now = Ok tt.
Proof.
  intros Hs Hk Hrec Ht Hin Hd. apply sign_records_spec in Hs as (l & -> & Hfrom & Hto). apply verify_zone_spec.
  constructor; [| | | |done].
  - intros sig [Hx|Hx]%sigs_of_signed; [apply rrsigs_in_elem in Hx; rewrite (proj1 Hrec) in Hx; by apply not_elem_of_nil in Hx|].
    destruct (Hfrom sig Hx) as (k & kp & Hm). exists kp.1. by eapply made_ok.
  - intros k. by rewrite rrset_of_sigs.
  - intros k Hne Hsg. rewrite rrset_of_sigs in Hne. pose proof (ck_some _ _ Hk) as Hsome.
    destruct (signingKeys.dnskeys keys) as [|dk dks] eqn:Hdk; [done|].
    destruct (ck_algorithms _ _ Hk k dk) as (kp & Hkp & _); [rewrite Hdk; by left|].
    destruct (Hto k kp Hne Hsg Hkp) as (sig & Hsig & Hm). exists sig. split; [apply sigs_of_signed; by right|]. by eapply made_ok.
  - intros k dk Hne Hsg Hdk. rewrite rrset_of_sigs in Hne. destruct (ck_algorithms _ _ Hk k dk Hdk) as (kp & Hkp & Halg).
    destruct (Hto k kp Hne Hsg Hkp) as (sig & Hsig & Hm). destruct (made_ok m keys domain records k kp sig now verify_now l) as (Hkey & Ha & Hok); try done.
    exists sig, kp.1. split; [apply sigs_of_signed; by right|]. split_and!; try done; [by rewrite Ha|]. by apply (ck_signers _ _ Hk k kp).
Qed.
End verifying.
