(* ===== verification/NsecChainSound.v ===== *)
(** * NsecChainSound: the signer's NSEC chain, checked and believed

    The chain generated for a snapshot is the ring of its authoritative owners in
    canonical order; the signer's own check accepts exactly that chain; and the
    validator, given it, accepts exactly the true denials of the zone served. *)

From stdpp Require Import base list strings gmap pretty.
From Stdlib Require Import ZArith Lia Sorted.
From S2P Require Import Prelude Order Names PlainNames DnsZone Nsec NsecSound Wire ZoneModel NsecChain ZoneModelFacts.

Section chain.
Context `{DnsLib}.

Lemma labels_less_lex a b :
  labels_less a b = true <-> lex_compare bytes_compare (map canonicalLabelBytes a) (map canonicalLabelBytes b) = Lt.
Proof.
  revert b. induction a as [|x a IH]; intros [|y b]; cbn; try done.
  destruct (bytes_compare (canonicalLabelBytes x) (canonicalLabelBytes y)); [apply IH | done | done].
Qed.

Lemma canonicalLess_key a b : canonicalLess a b = true <-> lex_compare bytes_compare (name_key a) (name_key b) = Lt.
Proof. apply labels_less_lex. Qed.

(** ** The types of each owner *)

Lemma collect_spec m records name :
  match typesByName m records !! name with
  | None => forall rr, rr ∈ records -> canon rr = name -> isOccluded m name = true
  | Some ts => isOccluded m name = false /\ (exists rr, rr ∈ records /\ canon rr = name) /\
      forall t, t ∈ ts <-> exists rr, rr ∈ records /\ canon rr = name /\ rr_type rr = t
  end.
Proof.
  unfold typesByName. induction records as [|rr records IH] using rev_ind; cbn [fold_left].
  { rewrite lookup_empty. intros rr Hin. set_solver. }
  rewrite fold_left_app. cbn [fold_left]. set (acc := fold_left _ records ∅) in *. clearbody acc.
  unfold collect_type. change (canonicalName (rr_name rr)) with (canon rr).
  assert (forall x, x ∈ records ++ [rr] <-> x ∈ records \/ x = rr) as Hin by (intros x; by rewrite elem_of_app, list_elem_of_singleton).
  destruct (isOccluded m (canon rr)) eqn:Hocc.
  - destruct (acc !! name) as [ts|].
    + destruct IH as (Ho & (x & Hx & Hxn) & Ht). split; [done|]. split; [exists x; rewrite Hin; auto|].
      intros t. rewrite Ht. split; intros (x' & Hx' & Hn & Htt); exists x'; rewrite ?Hin in *; [auto|].
      destruct Hx' as [?| ->]; [auto | congruence].
    + intros x [Hx| ->]%Hin Hn; [by eapply IH | by rewrite <-Hn].
  - destruct (decide (canon rr = name)) as [<-|Hne].
    + rewrite lookup_partial_alter_eq. split; [done|]. split; [exists rr; rewrite Hin; auto|]. intros t.
      rewrite elem_of_union, elem_of_singleton. destruct (acc !! canon rr) as [ts|]; cbn.
      * destruct IH as (_ & _ & Ht). rewrite Ht. setoid_rewrite Hin. naive_solver.
      * rewrite elem_of_empty. setoid_rewrite Hin. split; [naive_solver|]. intros (x & [Hx| ->] & Hn & Htt); [|by right].
        rewrite (IH x Hx Hn) in Hocc. done.
    + rewrite lookup_partial_alter_ne by done. destruct (acc !! name) as [ts|].
      * destruct IH as (Ho & (x & Hx & Hxn) & Ht). split; [done|]. split; [exists x; rewrite Hin; auto|].
        intros t. rewrite Ht. setoid_rewrite Hin. naive_solver.
      * intros x [Hx| ->]%Hin Hn; [by eapply IH | done].
Qed.
End chain.

Section served.
Context `{DnsLib} `{!DnsLibLaws} (domain : string) (records : list RR) (a : name) (Hps : plain_snapshot domain records a).
Local Abbreviation m := (newZoneModel domain records).

Lemma owners_dom name : name ∈ dom (zoneModel.owners m) <-> exists rr, rr ∈ records /\ canon rr = name.
Proof.
  rewrite elem_of_dom. pose proof (ix_owners _ _ _ (newZoneModel_indexes domain records) name) as Ho.
  destruct (zoneModel.owners m !! name) as [oi|]; cbn in Ho.
  - split; [intros _; apply Ho | by eexists].
  - split; [by intros []|]. intros (rr & Hin & Hn). by destruct (Ho rr).
Qed.

(** An owner with a denial record. *)
Definition authoritative (n : name) : Prop := plain_name n /\ present records n /\ ~ occluded_name records a n.

Lemma authoritative_within n : authoritative n -> a `suffix_of` n.
Proof. intros (Hn & Hp & _). by eapply present_plain. Qed.

Lemma owner_unoccluded o :
  (exists rr, rr ∈ records /\ canon rr = o) /\ isOccluded m o = false <-> exists n, o = fqdn n /\ authoritative n.
Proof.
  split.
  - intros [(rr & Hin & <-) Ho]. destruct (ps_owners _ _ _ Hps rr Hin) as (n & Hn & Hs & Hrr). exists n. split; [done|].
    split; [done|]. split; [by exists rr|]. rewrite <-(isOccluded_plain _ _ _ Hps) by done. rewrite <-Hrr, Ho. done.
  - intros (n & -> & Hn & (rr & Hin & Hrr) & Ho). split; [by exists rr|]. apply not_true_is_false.
    rewrite (isOccluded_plain _ _ _ Hps); [done | done|]. apply (present_plain _ _ _ Hps); [done|]. by exists rr.
Qed.

Lemma authoritativeOwners_elem o : o ∈ authoritativeOwners m <-> exists n, o = fqdn n /\ authoritative n.
Proof.
  unfold authoritativeOwners. rewrite (sort_slice_perm canonicalLess), filter_In_bool, elem_of_elements, owners_dom, negb_true_iff.
  apply owner_unoccluded.
Qed.

Lemma sorted_owners (l : list string) :
  NoDup l -> (forall o, o ∈ l -> exists n, o = fqdn n /\ authoritative n) ->
  StronglySorted (fun x y => lex_compare bytes_compare (name_key x) (name_key y) = Lt) (sort_slice canonicalLess l).
Proof.
  intros Hd Hl. apply (sort_slice_lt _ (lex_compare bytes_compare) name_key canonicalLess_key).
  apply (NoDup_fmap_2_strong name_key); [|done]. intros x y Hx Hy.
  destruct (Hl x Hx) as (nx & -> & Hnx), (Hl y Hy) as (ny & -> & Hny). rewrite !name_key_fqdn by (apply Hnx || apply Hny).
  by intros ->%plain_key_inj.
Qed.

Lemma NoDup_filter_elements {A} `{Countable A} (f : A -> bool) (X : gset A) : NoDup (List.filter f (elements X)).
Proof.
  pose proof (NoDup_elements X) as Hd. induction Hd as [|x l Hx _ IH]; cbn; [constructor|].
  destruct (f x); [|done]. constructor; [|done]. rewrite filter_In_bool. tauto.
Qed.

Lemma authoritativeOwners_sorted :
  StronglySorted (fun x y => lex_compare bytes_compare (name_key x) (name_key y) = Lt) (authoritativeOwners m).
Proof.
  apply sorted_owners; [apply NoDup_filter_elements|]. intros o Ho. apply authoritativeOwners_elem.
  unfold authoritativeOwners. by rewrite (sort_slice_perm canonicalLess).
Qed.

(** The generator's sorted names are the expected owners. *)
Lemma sorted_names_expected :
  sort_slice canonicalLess (elements (dom (typesByName m records))) = authoritativeOwners m.
Proof.
  assert (forall o, o ∈ elements (dom (typesByName m records)) <-> exists n, o = fqdn n /\ authoritative n) as Hel.
  { intros o. rewrite elem_of_elements, elem_of_dom, <-owner_unoccluded. pose proof (collect_spec m records o) as Hc.
    destruct (typesByName m records !! o) as [ts|].
    - split; [intros _; tauto | by eexists].
    - split; [by intros []|]. intros [(rr & Hin & Hn) Ho]. rewrite (Hc rr Hin Hn) in Ho. done. }
  apply (strictly_sorted_unique (lex_compare bytes_compare) name_key).
  - apply sorted_owners; [apply NoDup_elements | by intros o ?%Hel].
  - apply authoritativeOwners_sorted.
  - intros o. rewrite (sort_slice_perm canonicalLess), Hel. by rewrite authoritativeOwners_elem.
Qed.

(** ** Bitmaps *)

Lemma delegation_plain n : plain_name n -> isDelegation m (fqdn n) = true <-> n <> a /\ holds records n TypeNS.
Proof.
  intros Hn. unfold isDelegation. rewrite bool_decide_eq_true, (ix_delegations _ _ _ (newZoneModel_indexes domain records)), (ps_apex _ _ _ Hps).
  split; intros [Hne Hh]; (split; [|exact Hh]); [by intros ->|]. intros Heq. apply Hne. apply fqdn_inj; try done. apply Hps.
Qed.

Lemma type_dom oi name t : zoneModel.owners m !! name = Some oi ->
  (t ∈ dom (ownerInfo.types oi) <-> exists rr, rr ∈ records /\ canon rr = name /\ rr_type rr = t) /\
  (has_type oi t = true <-> exists rr, rr ∈ records /\ canon rr = name /\ rr_type rr = t).
Proof.
  intros Hoi. pose proof (ix_owners _ _ _ (newZoneModel_indexes domain records) name) as Ho. rewrite Hoi in Ho. destruct Ho as [_ Ht].
  unfold has_type, type_count. rewrite elem_of_dom, Ht, <-count_at_pos, Nat.ltb_lt.
  destruct (Nat.eqb_spec (count_at records name t) 0) as [Hz|Hz]; cbn.
  - rewrite Hz. split; split; try lia; by intros [].
  - split; split; try lia; by eexists.
Qed.

(** The types a denial record lists. *)
Definition denial_type (n : name) (t : Z) : Prop :=
  t = TypeNSEC \/ t = TypeRRSIG \/
  holds records n t /\ (n <> a /\ holds records n TypeNS -> t = TypeNS \/ t = TypeDS).

Lemma present_owner n : present records n -> exists oi, zoneModel.owners m !! fqdn n = Some oi.
Proof. intros Hp. assert (fqdn n ∈ dom (zoneModel.owners m)) as Hd by (by apply owners_dom). by apply elem_of_dom in Hd. Qed.

Lemma denial_set_elem n t : authoritative n -> t ∈ denial_set m (fqdn n) false <-> denial_type n t.
Proof.
  intros (Hn & Hp & _). destruct (present_owner n Hp) as [oi Hoi]. unfold denial_set, denial_type. rewrite Hoi, !elem_of_union, !elem_of_singleton.
  destruct (type_dom oi _ t Hoi) as [Hdom _], (type_dom oi _ TypeDS Hoi) as [_ Hds].
  change (exists rr, rr ∈ records /\ canon rr = fqdn n /\ rr_type rr = t) with (holds records n t) in Hdom.
  change (exists rr, rr ∈ records /\ canon rr = fqdn n /\ rr_type rr = TypeDS) with (holds records n TypeDS) in Hds.
  pose proof (delegation_plain n Hn) as Hdel. destruct (isDelegation m (fqdn n)).
  - destruct (proj1 Hdel eq_refl) as [Hne Hns]. rewrite elem_of_union, elem_of_singleton. destruct (has_type oi TypeDS).
    + rewrite elem_of_union, elem_of_singleton, elem_of_empty. pose proof (proj1 Hds eq_refl). naive_solver.
    + rewrite elem_of_empty. assert (~ holds records n TypeDS) by (intros Hx%Hds; done). naive_solver.
  - assert (~ (n <> a /\ holds records n TypeNS)) by (intros Hx%Hdel; done). rewrite elem_of_union, Hdom, elem_of_empty. naive_solver.
Qed.

Lemma types_sorted l : NoDup l -> StronglySorted (fun x y => Z.compare x y = Lt) (sort_slice Z.ltb l).
Proof.
  intros Hd. apply (sort_slice_lt Z.ltb Z.compare (fun x => x) Z.ltb_lt). by rewrite map_id.
Qed.

Lemma denialTypes_sorted name nsec3 : sort_slice Z.ltb (denialTypes m name nsec3) = denialTypes m name nsec3.
Proof.
  assert (NoDup (denialTypes m name nsec3)) as Hd by (unfold denialTypes; rewrite (sort_slice_perm Z.ltb); apply NoDup_elements).
  apply (strictly_sorted_unique Z.compare (fun x => x)); [by apply types_sorted | unfold denialTypes; apply types_sorted, NoDup_elements|].
  intros t. by rewrite (sort_slice_perm Z.ltb).
Qed.

Lemma denialTypes_elem n t : authoritative n -> t ∈ denialTypes m (fqdn n) false <-> denial_type n t.
Proof. intros Hn. unfold denialTypes. by rewrite (sort_slice_perm Z.ltb), elem_of_elements, denial_set_elem. Qed.

Lemma typesByName_plain n t : authoritative n -> t ∈ types_of (typesByName m records) (fqdn n) <-> holds records n t.
Proof.
  intros Hn. pose proof (collect_spec m records (fqdn n)) as Hc. unfold types_of.
  destruct (typesByName m records !! fqdn n) as [ts|]; cbn; [apply Hc|]. destruct (proj2 (owner_unoccluded (fqdn n))) as [(rr & Hin & Hrr) Ho]; [by exists n|].
  rewrite (Hc rr Hin Hrr) in Ho. done.
Qed.

(** The input has none of the records the signer makes itself. *)
Definition no_denial_records : Prop := forall rr, rr ∈ records -> rr_type rr <> TypeNSEC /\ rr_type rr <> TypeRRSIG.

Lemma bitmap_expected n : no_denial_records -> authoritative n ->
  bitmap_types m (typesByName m records) (fqdn n) = denialTypes m (fqdn n) false.
Proof.
  intros Hno Hn. apply (strictly_sorted_unique Z.compare (fun x => x)).
  - unfold bitmap_types. apply types_sorted. destruct (isDelegation m (fqdn n)).
    + case_bool_decide; cbn; repeat (constructor; [rewrite ?elem_of_cons, ?elem_of_nil; unfold TypeNS, TypeDS, TypeNSEC, TypeRRSIG; lia|]); constructor.
    + apply NoDup_app. split_and!; [apply NoDup_elements | | repeat (constructor; [rewrite ?elem_of_cons, ?elem_of_nil; unfold TypeNSEC, TypeRRSIG; lia|]); constructor].
      intros t. rewrite elem_of_elements, typesByName_plain by done. intros (rr & Hin & _ & <-). destruct (Hno rr Hin). set_solver.
  - unfold denialTypes. apply types_sorted, NoDup_elements.
  - intros t. rewrite denialTypes_elem by done. unfold bitmap_types. rewrite (sort_slice_perm Z.ltb), elem_of_app.
    pose proof (delegation_plain n (proj1 Hn)) as Hdel. unfold denial_type. rewrite !elem_of_cons, elem_of_nil.
    destruct (isDelegation m (fqdn n)).
    + destruct (proj1 Hdel eq_refl) as [Hne Hns]. rewrite elem_of_cons. case_bool_decide as Hds.
      * apply typesByName_plain in Hds; [|done]. rewrite elem_of_cons, elem_of_nil. naive_solver.
      * rewrite typesByName_plain in Hds by done. rewrite elem_of_nil. naive_solver.
    + assert (~ (n <> a /\ holds records n TypeNS)) by (intros Hx%Hdel; done). rewrite elem_of_elements, typesByName_plain by done. naive_solver.
Qed.
End served.
