(* ===== verification/ServedZone.v ===== *)
(** * ServedZone: which zones the signer accepts, and the zone a snapshot stands for

    [validateZoneRecords] accepts exactly the snapshots that follow [zone_rules], the
    rules an authoritative server enforces, stated on the records. *)


From stdpp Require Import base list strings gmap pretty.
From Stdlib Require Import ZArith Lia Sorted.
From S2P Require Import Prelude Order Names PlainNames DnsZone SampleZone Nsec NsecSound Wire ZoneModel NsecChain ZoneCheck ZoneModelFacts NsecChainSound.
Local Open Scope Z_scope.

Section rules.
Context `{DnsLib} (domain : string) (records : list RR).
Local Abbreviation m := (newZoneModel domain records).
Local Abbreviation apex := (canonicalName domain).
Local Abbreviation has name t := (exists rr, rr ∈ records /\ canon rr = name /\ rr_type rr = t).

(** One SOA, at the apex, with an NS RRset beside it; every owner within the zone;
    a CNAME alone at its owner, which is not the apex, but for DNSSEC metadata; a
    DNAME alone of its type and not beside a CNAME; nothing beneath a DNAME that lies
    below the apex; only NS, DS and glue at a cut, and DS nowhere else. *)
Record zone_rules : Prop := {
  zr_within : forall rr, rr ∈ records -> SplitDomainName apex `suffix_of` SplitDomainName (canon rr);
  zr_soa_apex : forall rr, rr ∈ records -> rr_type rr = TypeSOA -> canon rr = apex;
  zr_soa : count_at records apex TypeSOA = 1%nat;
  zr_ns : has apex TypeNS;
  zr_cname : forall name, has name TypeCNAME -> name <> apex /\ count_at records name TypeCNAME = 1%nat /\
    forall t, has name t -> t = TypeCNAME \/ isDNSSECMetadataType t = true;
  zr_dname : forall name, has name TypeDNAME -> count_at records name TypeDNAME = 1%nat /\ ~ has name TypeCNAME;
  zr_below : forall rr d, rr ∈ records -> has d TypeDNAME -> d ∉ inner_ancestors m (canon rr);
  zr_cut : forall name t, name <> apex -> has name TypeNS -> has name t -> cut_type t = true;
  zr_ds : forall name, has name TypeDS -> name <> apex /\ has name TypeNS
}.

Lemma labelsWithin_spec n b : labelsWithin n b = true <-> b `suffix_of` n.
Proof.
  unfold labelsWithin. destruct (Nat.ltb_spec (length n) (length b)) as [Hl|Hl].
  - split; [done|]. intros [k ->]. rewrite length_app in Hl. lia.
  - rewrite bool_decide_eq_true. split.
    + intros Hd. exists (take (length n - length b) n). rewrite <-Hd at 2. by rewrite take_drop.
    + intros [k ->]. rewrite length_app. replace (length k + length b - length b)%nat with (length k) by lia. apply drop_app_length.
Qed.

(** ** The pass over the records *)

Lemma check_owners_spec text l n k :
  check_owners m text l n = Ok k <->
  (forall rr, rr ∈ l -> within m (canon rr) = true /\ (rr_type rr = TypeSOA -> canon rr = apex)) /\
  k = (n + count_at l apex TypeSOA)%nat.
Proof.
  revert n. induction l as [|rr l IH]; intros n; cbn [check_owners].
  { split; [intros [= <-]; split; [set_solver | cbn; lia] | intros [_ ->]; f_equal; cbn; lia]. }
  assert (count_at (rr :: l) apex TypeSOA = ((if at_owner apex TypeSOA rr then 1 else 0) + count_at l apex TypeSOA)%nat) as ->.
  { unfold count_at. cbn. by destruct (at_owner apex TypeSOA rr). }
  unfold at_owner. rewrite (ix_apex _ _ _ (newZoneModel_indexes domain records)).
  destruct (within m (canon rr)) eqn:Hw; cbn [negb]; [|split; [done|]; intros [Hall _]; destruct (Hall rr ltac:(by left)); congruence].
  destruct (Z.eqb_spec (rr_type rr) TypeSOA) as [Ht|Ht].
  - destruct (String.eqb_spec (canon rr) apex) as [He|He]; cbn [negb andb].
    + rewrite IH. setoid_rewrite elem_of_cons. split; intros [Hall ->]; (split; [|lia]); [|naive_solver].
      intros rr' [->|Hin]; [done | by apply Hall].
    + split; [done|]. intros [Hall _]. destruct (Hall rr ltac:(by left)); tauto.
  - rewrite andb_false_r. rewrite IH. setoid_rewrite elem_of_cons. split; intros [Hall ->]; (split; [|lia]); [|naive_solver].
    intros rr' [->|Hin]; [done | by apply Hall].
Qed.

(** ** One owner *)

Lemma offending_none allowed oi name : zoneModel.owners m !! name = Some oi ->
  offending allowed oi = None <-> forall t, has name t -> allowed t = true.
Proof.
  intros Hoi. unfold offending. setoid_rewrite <-(proj1 (type_dom domain records oi name _ Hoi)).
  assert (forall t, t ∈ map fst (map_to_list (ownerInfo.types oi)) <-> t ∈ dom (ownerInfo.types oi)) as Hel.
  { intros t. rewrite elem_of_dom, list_elem_of_fmap. split.
    - intros ([t' n] & -> & Hin). apply elem_of_map_to_list in Hin. by eexists.
    - intros [n Hn]. exists (t, n). split; [done|]. by apply elem_of_map_to_list. }
  destruct (List.find _ _) as [t|] eqn:Hf.
  - apply find_some_bool in Hf as [Hin Hb]. apply negb_true_iff in Hb. split; [done|]. intros Hall.
    rewrite Hall in Hb; [done|]. by apply Hel.
  - split; [|done]. intros _ t Ht. apply Hel in Ht. pose proof (find_none_bool _ _ t Hf Ht) as Hb. by apply negb_false_iff in Hb.
Qed.

Lemma type_count_at oi name t : zoneModel.owners m !! name = Some oi -> type_count oi t = count_at records name t.
Proof.
  intros Hoi. pose proof (ix_owners _ _ _ (newZoneModel_indexes domain records) name) as Ho. rewrite Hoi in Ho. destruct Ho as [_ Ht].
  unfold type_count. rewrite Ht. by destruct (Nat.eqb_spec (count_at records name t) 0) as [->|].
Qed.

Lemma cname_spec text name oi : zoneModel.owners m !! name = Some oi ->
  check_cname m text name oi = Ok tt <-> (has name TypeCNAME -> name <> apex /\ count_at records name TypeCNAME = 1%nat /\
    forall t, has name t -> t = TypeCNAME \/ isDNSSECMetadataType t = true).
Proof.
  intros Hoi. unfold check_cname. rewrite (type_count_at oi name _ Hoi), (ix_apex _ _ _ (newZoneModel_indexes domain records)).
  rewrite <-(count_at_pos records name TypeCNAME). destruct (Nat.eqb_spec (count_at records name TypeCNAME) 0) as [->|Hne]; [split; [lia | done]|].
  assert (forall t, (t =? TypeCNAME) || isDNSSECMetadataType t = true <-> t = TypeCNAME \/ isDNSSECMetadataType t = true) as Hor
    by (intros t; by rewrite orb_true_iff, Z.eqb_eq).
  pose proof (offending_none (fun t => (t =? TypeCNAME) || isDNSSECMetadataType t) oi name Hoi) as Hoff. setoid_rewrite Hor in Hoff.
  destruct (String.eqb_spec name apex) as [|Hna]; [split; [done | intros Hx; destruct Hx; [lia | done]]|].
  destruct (Nat.ltb_spec 1 (count_at records name TypeCNAME)); [split; [done | intros Hx; destruct Hx as (_ & ? & _); lia]|].
  destruct (offending _ oi).
  - split; [done|]. intros Hx. destruct Hx as (_ & _ & Hx); [lia|]. by apply Hoff in Hx.
  - split; [|done]. intros _ _. split_and!; [done | lia | by apply Hoff].
Qed.

Lemma dname_spec name oi : zoneModel.owners m !! name = Some oi ->
  check_dname name oi = Ok tt <-> (has name TypeDNAME -> count_at records name TypeDNAME = 1%nat /\ ~ has name TypeCNAME).
Proof.
  intros Hoi. unfold check_dname. rewrite (type_count_at oi name _ Hoi), <-(count_at_pos records name TypeDNAME).
  destruct (Nat.eqb_spec (count_at records name TypeDNAME) 0) as [->|Hne]; [split; [lia | done]|].
  destruct (Nat.ltb_spec 1 (count_at records name TypeDNAME)); [split; [done | intros Hx; destruct Hx as (? & _); lia]|].
  pose proof (proj2 (type_dom domain records oi name TypeCNAME Hoi)) as Hc. destruct (has_type oi TypeCNAME).
  - split; [done|]. intros Hx. destruct Hx as [_ Hx]; [lia|]. by destruct Hx; apply Hc.
  - split; [|done]. intros _ _. split; [lia|]. by intros Hx%Hc.
Qed.

Lemma delegation_spec name : isDelegation m name = true <-> name <> apex /\ has name TypeNS.
Proof. unfold isDelegation. by rewrite bool_decide_eq_true, (ix_delegations _ _ _ (newZoneModel_indexes domain records)). Qed.

Lemma cut_spec name oi : zoneModel.owners m !! name = Some oi ->
  check_cut m name oi = Ok tt <->
  (name <> apex -> has name TypeNS -> forall t, has name t -> cut_type t = true) /\
  (has name TypeDS -> name <> apex /\ has name TypeNS).
Proof.
  intros Hoi. unfold check_cut. pose proof (delegation_spec name) as Hd. destruct (isDelegation m name).
  - destruct (proj1 Hd eq_refl) as [Hne Hns]. pose proof (offending_none cut_type oi name Hoi) as Hoff. destruct (offending cut_type oi).
    + split; [done|]. intros [Hx _]. by pose proof (proj2 Hoff (Hx Hne Hns)).
    + split; [|done]. intros _. split; [intros _ _; by apply Hoff | done].
  - assert (~ (name <> apex /\ has name TypeNS)) as Hno by (intros Hx%Hd; done).
    pose proof (proj2 (type_dom domain records oi name TypeDS Hoi)) as Hc. destruct (has_type oi TypeDS).
    + split; [done|]. intros [_ Hx]. destruct Hno. apply Hx. by apply Hc.
    + split; [|done]. intros _. split; [by intros; destruct Hno | by intros Hx%Hc].
Qed.

Lemma below_spec name : occludingDNAME m name = None <-> forall d, has d TypeDNAME -> d ∉ inner_ancestors m name.
Proof.
  unfold occludingDNAME. setoid_rewrite <-(ix_dnames _ _ _ (newZoneModel_indexes domain records)).
  case_bool_decide as He.
  - rewrite He. split; [set_solver | done].
  - destruct (List.find _ _) as [d|] eqn:Hf.
    + apply find_some_bool in Hf as [Hin Hd%bool_decide_eq_true]. split; [done|]. intros Hx. by destruct (Hx d Hd).
    + split; [|done]. intros _ d Hd Hin. pose proof (find_none_bool _ _ d Hf Hin) as Hb. by apply bool_decide_eq_false in Hb.
Qed.

Lemma res_then {E A B} (r : res E A) (k : A -> res E B) b : res_bind r k = Ok b <-> exists a, r = Ok a /\ k a = Ok b.
Proof. destruct r; cbn; naive_solver. Qed.

Lemma check_owner_spec text name oi : zoneModel.owners m !! name = Some oi ->
  check_owner m text name oi = Ok tt <->
  check_cname m text name oi = Ok tt /\ check_dname name oi = Ok tt /\ occludingDNAME m name = None /\ check_cut m name oi = Ok tt.
Proof.
  intros _. unfold check_owner. rewrite res_then. setoid_rewrite res_then. destruct (occludingDNAME m name).
  - split; [naive_solver | by intros (_ & _ & ? & _)].
  - split; [intros ([] & ? & [] & ? & ?); done | intros (? & ? & _ & ?)]. exists tt. split; [done|]. by exists tt.
Qed.

Lemma check_each_spec text names : check_each m text names = Ok tt <->
  forall name oi, name ∈ names -> zoneModel.owners m !! name = Some oi -> check_owner m text name oi = Ok tt.
Proof.
  induction names as [|name names IH]; cbn [check_each]; [split; [set_solver | done]|]. rewrite res_then. split.
  - intros ([] & Hn & Hr) name' oi [->|Hin]%elem_of_cons Hoi; [by rewrite Hoi in Hn | by apply (proj1 IH Hr)].
  - intros Hall. exists tt. split; [|apply IH; set_solver]. destruct (zoneModel.owners m !! name) as [oi|] eqn:Hoi; [|done]. apply Hall; [set_solver | done].
Qed.

(** validateZoneRecords accepts exactly the snapshots that
    follow the rules. *)
Lemma validate_zone_spec : validateZoneRecords domain records = Ok tt <-> zone_rules.
Proof.
  pose proof (newZoneModel_indexes domain records) as Hix. unfold validateZoneRecords. cbv zeta. rewrite res_then.
  assert (forall rr, within m (canon rr) = true <-> SplitDomainName apex `suffix_of` SplitDomainName (canon rr)) as Hw.
  { intros rr. unfold within. by rewrite (ix_labels _ _ _ Hix), labelsWithin_spec. }
  rewrite (ix_apex _ _ _ Hix).
  assert (forall name oi, zoneModel.owners m !! name = Some oi -> name ∈ sort_slice canonicalLess (elements (dom (zoneModel.owners m)))) as Hdom.
  { intros name oi Hoi. rewrite (sort_slice_perm canonicalLess), elem_of_elements, elem_of_dom. by eexists. }
  assert (forall name t, has name t -> exists oi, zoneModel.owners m !! name = Some oi) as Hown.
  { intros name t (rr & Hin & Hn & _). apply elem_of_dom, owners_dom. by exists rr. }
  assert ((match zoneModel.owners m !! apex with Some oi => Nat.eqb (type_count oi TypeNS) 0 | None => true end) = false <-> has apex TypeNS) as Hns.
  { destruct (zoneModel.owners m !! apex) as [oi|] eqn:Hoi.
    - rewrite (type_count_at oi apex _ Hoi), <-count_at_pos, Nat.eqb_neq. lia.
    - split; [done|]. intros [oi Hx]%Hown. congruence. }
  split.
  - intros (k & [Hall ->]%check_owners_spec & Hrest). cbn [Nat.add] in Hrest. setoid_rewrite Hw in Hall.
    destruct (Nat.eqb_spec (count_at records apex TypeSOA) 0); [done|]. destruct (Nat.ltb_spec 1 (count_at records apex TypeSOA)); [done|].
    destruct (match zoneModel.owners m !! apex with Some _ => _ | None => _ end); [done|].
    assert (forall name oi, zoneModel.owners m !! name = Some oi -> check_cname m (Fqdn domain) name oi = Ok tt /\ check_dname name oi = Ok tt /\
      occludingDNAME m name = None /\ check_cut m name oi = Ok tt) as Heach.
    { intros name oi Hoi. apply (check_owner_spec (Fqdn domain)); [done|]. eapply check_each_spec; [exact Hrest | by eapply Hdom | done]. }
    constructor; try (by intros rr Hin; apply Hall); [lia | by apply Hns | ..].
    + intros name Hc. destruct (Hown _ _ Hc) as [oi Hoi]. apply (proj1 (cname_spec (Fqdn domain) _ _ Hoi)); [apply (Heach _ _ Hoi) | done].
    + intros name Hc. destruct (Hown _ _ Hc) as [oi Hoi]. apply (proj1 (dname_spec _ _ Hoi)); [apply (Heach _ _ Hoi) | done].
    + intros rr d Hin. assert (has (canon rr) (rr_type rr)) as Hrr by (by exists rr). destruct (Hown _ _ Hrr) as [oi Hoi].
      apply (proj1 (below_spec _)). apply (Heach _ _ Hoi).
    + intros name t Hne Hc. destruct (Hown _ _ Hc) as [oi Hoi]. by apply (proj1 (cut_spec _ _ Hoi)); [apply (Heach _ _ Hoi)|..].
    + intros name Hc. destruct (Hown _ _ Hc) as [oi Hoi]. by apply (proj1 (cut_spec _ _ Hoi)); [apply (Heach _ _ Hoi)|].
  - intros [Hwi Hsa Hs Hn Hc Hd Hb Hcut Hds]. exists 1%nat. split; [apply check_owners_spec; split; [intros rr Hin; split; [by apply Hw, Hwi | by apply Hsa] | by rewrite Hs]|].
    cbn [Nat.eqb Nat.ltb Nat.leb]. rewrite (proj2 Hns Hn). apply check_each_spec. intros name oi _ Hoi. apply check_owner_spec; [done|].
    assert (exists rr, rr ∈ records /\ canon rr = name) as (rr & Hin & <-) by (apply (owners_dom domain), elem_of_dom; by eexists).
    split_and!; [by apply (cname_spec _ _ _ Hoi), Hc | by apply (dname_spec _ _ Hoi), Hd | apply below_spec; intros d; by apply Hb|].
    apply (cut_spec _ _ Hoi). split; [intros; by eapply Hcut | by apply Hds].
Qed.
End rules.

(** ** What the signer publishes is what the validator believes

    [zone_served] is the zone a snapshot stands for.  Of the chain the signer
    generates for the snapshot, the validator accepts exactly the true denials; and
    the signer's self-check accepts exactly that chain. *)

(** ** Rings by index *)

Lemma links_lookup {A} (l : list A) h i : links l h !! i = (fun x => (x, default h (l !! S i))) <$> l !! i.
Proof.
  revert i. induction l as [|x [|y l] IH]; intros i; [done | by destruct i as [|[|i]]|].
  rewrite links_cons. destruct i as [|i]; [done|]. apply IH.
Qed.

Lemma ring_imap (l : list string) : imap (fun i x => (x, next_of l i)) l = ring l.
Proof.
  apply list_eq. intros i. rewrite list_lookup_imap. destruct l as [|h l]; [done|]. cbn [ring]. rewrite links_lookup.
  destruct ((h :: l) !! i) as [x|] eqn:Hx; [|done]. cbn [fmap option_fmap option_map]. f_equal. f_equal. unfold next_of.
  apply lookup_lt_Some in Hx. destruct (decide (i + 1 = length (h :: l))%nat) as [He|Hne].
  - rewrite He, Nat.Div0.mod_same. rewrite (lookup_ge_None_2 (h :: l) (S i)) by lia. done.
  - rewrite Nat.mod_small by lia. rewrite Nat.add_1_r. destruct (lookup_lt_is_Some_2 (h :: l) (S i)) as [y Hy]; [lia|].
    rewrite Hy. cbn [default]. by apply nth_lookup_Some.
Qed.

Lemma ring_map {A B} (f : A -> B) (l : list A) : ring (map f l) = map (fun '(x, y) => (f x, f y)) (ring l).
Proof.
  destruct l as [|h l]; [done|]. cbn [ring map]. enough (forall l', links (map f l') (f h) = map (fun '(x, y) => (f x, f y)) (links l' h)) as Hl by exact (Hl (h :: l)).
  induction l' as [|x [|y l'] IH]; [done..|]. cbn [map] in *. rewrite !links_cons. cbn [map]. by rewrite IH.
Qed.

(** What the type names of the library say about the types that make a cut. *)
Class TypeLaws `{DnsLib} : Prop := {
  TypeString_NS t : TypeString t = "NS" <-> t = TypeNS;
  TypeString_SOA t : TypeString t = "SOA" <-> t = TypeSOA;
  TypeString_DNAME t : TypeString t = "DNAME" <-> t = TypeDNAME
}.

Section served.
Context `{DnsLib} `{!DnsLibLaws} (domain : string) (records : list RR) (a : name) (Hps : plain_snapshot domain records a).
Local Abbreviation m := (newZoneModel domain records).

Definition chain_rr (ttl : Z) (link : string * string) : NSEC.t :=
  NSEC.mk (Hdr.mk link.1 TypeNSEC 1 ttl) link.2 (denialTypes m link.1 false).

(** The generated chain is the ring of the authoritative owners. *)
Lemma generated_ring ttl : no_denial_records records ->
  generateNSECChain domain records ttl = map (fun link => RR_NSEC (chain_rr ttl link)) (ring (authoritativeOwners m)).
Proof.
  intros Hno. unfold generateNSECChain, generateNSECChainWithModel. rewrite (sorted_names_expected _ _ _ Hps), <-ring_imap.
  etrans; [|symmetry; exact (fmap_imap _ _ _)].
  apply imap_ext. intros i o Ho. unfold chain_rr, nsec_record. cbn [fst snd].
  destruct (proj1 (authoritativeOwners_elem _ _ _ Hps o)) as (n & -> & Hn); [by eapply list_elem_of_lookup_2|].
  by rewrite (bitmap_expected _ _ _ Hps).
Qed.

(** The authoritative names, in order. *)
Definition owner_names : list name := map SplitDomainName (authoritativeOwners m).

Lemma owner_names_fqdn : authoritativeOwners m = map fqdn owner_names.
Proof.
  unfold owner_names. rewrite map_map. rewrite <-(map_id (authoritativeOwners m)) at 1. apply map_ext_in.
  intros o Ho. apply list_elem_of_In, (authoritativeOwners_elem _ _ _ Hps) in Ho as (n & -> & Hn & _). by rewrite SplitDomainName_plain.
Qed.

Lemma owner_names_elem n : n ∈ owner_names <-> authoritative records a n.
Proof.
  unfold owner_names. rewrite list_elem_of_fmap. setoid_rewrite (authoritativeOwners_elem _ _ _ Hps). split.
  - intros (o & -> & n' & -> & Hn). by rewrite SplitDomainName_plain by apply Hn.
  - intros Hn. exists (fqdn n). rewrite SplitDomainName_plain by apply Hn. eauto.
Qed.

Lemma owner_names_sorted : StronglySorted (fun x y => name_compare x y = Lt) owner_names.
Proof.
  pose proof (authoritativeOwners_sorted _ _ _ Hps) as Hs. rewrite owner_names_fqdn in Hs.
  assert (Forall plain_name owner_names) as Hp by (apply Forall_forall; intros n Hn%owner_names_elem; apply Hn).
  revert Hs Hp. generalize owner_names. intros l. induction l as [|n l IH]; cbn; intros Hs Hp; [constructor|].
  apply Forall_cons in Hp as [Hn Hp]. apply StronglySorted_inv in Hs as [Hs' Hf]. constructor; [by apply IH|].
  rewrite Forall_forall in Hf. rewrite Forall_forall in Hp. rewrite Forall_forall. intros n' Hin. specialize (Hf (fqdn n') ltac:(by apply list_elem_of_fmap; exists n')).
  rewrite !name_key_fqdn in Hf by auto. exact Hf.
Qed.

Lemma owner_names_NoDup : NoDup owner_names.
Proof.
  pose proof owner_names_sorted as Hs. induction Hs as [|n l _ IH Hf]; [constructor|]. constructor; [|done].
  intros Hin. rewrite Forall_forall in Hf. pose proof (Hf n Hin) as Hc. by rewrite (cmp_refl name_compare) in Hc.
Qed.

(** The zone the snapshot stands for: its authoritative names, with what a denial
    record says they hold. *)
Definition zone_served : zone_data :=
  {| apex := a; nodes := list_to_map (map (fun n => (n, map TypeString (denialTypes m (fqdn n) false))) owner_names) |}.

Lemma served_lookup n : nodes zone_served !! n =
  if bool_decide (n ∈ owner_names) then Some (map TypeString (denialTypes m (fqdn n) false)) else None.
Proof.
  cbn. case_bool_decide as Hn.
  - apply elem_of_list_to_map; [|apply list_elem_of_fmap; by exists n].
    rewrite <-list_fmap_compose. rewrite (list_fmap_ext _ id) by done. rewrite list_fmap_id. apply owner_names_NoDup.
  - apply not_elem_of_list_to_map. intros ([n' ts] & -> & Hin)%list_elem_of_fmap. cbn in Hn.
    apply list_elem_of_fmap in Hin as (n'' & [= -> ->] & Hin). done.
Qed.

Lemma served_owns n : owns zone_served n <-> authoritative records a n.
Proof.
  unfold owns. rewrite served_lookup, <-owner_names_elem. case_bool_decide; [by split; [|eexists] | split; [by intros [] | done]].
Qed.

Lemma served_types n t : t ∈ types_at zone_served n <-> authoritative records a n /\ exists t', t = TypeString t' /\ denial_type records a n t'.
Proof.
  unfold types_at. rewrite served_lookup. case_bool_decide as Hn; rewrite owner_names_elem in Hn; cbn.
  - rewrite list_elem_of_fmap. setoid_rewrite (denialTypes_elem _ _ _ Hps); [|done]. naive_solver.
  - split; [by intros ?%not_elem_of_nil | by intros [? _]].
Qed.

Lemma apex_authoritative : present records a -> authoritative records a a.
Proof.
  intros Hp. split; [apply Hps|]. split; [done|]. intros (c & Hc & [Hca Hor] & Hs & _). apply Hca.
  assert (a `suffix_of` c) by (apply (present_plain _ _ _ Hps); [done | destruct Hor; by eapply holds_present]). by apply suffix_antisym.
Qed.

(** What validateZoneRecords and an apex without DNAME give. *)
Lemma served_ok `{!TypeLaws} : holds records a TypeSOA -> ~ holds records a TypeDNAME -> zone_ok zone_served.
Proof.
  intros Hsoa Hdn.
  assert (authoritative records a a) as Ha by (apply apex_authoritative; by eapply holds_present).
  assert ("SOA" ∈ types_at zone_served a) as HaSOA.
  { apply served_types. split; [done|]. exists TypeSOA. split; [symmetry; by apply TypeString_SOA|]. right; right. split; [done|]. by intros []. }
  constructor.
  - intros n Hn%served_owns. apply Hn.
  - by apply served_owns.
  - done.
  - intros n Hn%served_owns. by apply (authoritative_within _ _ _ Hps).
  - intros c n [Hc Hcut] Hn Hs. apply served_owns in Hc, Hn. destruct (decide (c = n)) as [|Hne]; [done|].
    destruct Hn as (_ & _ & []). exists c. split; [apply Hc|]. split; [|done].
    destruct Hcut as [(_ & t & Ht & Hd)%served_types|[(_ & t & Ht & Hd)%served_types Hns]].
    + symmetry in Ht. apply TypeString_DNAME in Ht as ->. destruct Hd as [|[|[Hd _]]]; [done..|]. split; [by intros -> | by right].
    + symmetry in Ht. apply TypeString_NS in Ht as ->. destruct Hd as [|[|[Hd _]]]; [done..|]. split; [by intros -> | by left].
Qed.

(** The records as the validator parses them. *)
Definition parsed_chain (section : string) (rrs : list RR) : list NSECRecord.t :=
  omap (fun rr => match rr with RR_NSEC n => Some (NSECFromRR n section) | _ => None end) rrs.

Lemma parsed_generated ttl : no_denial_records records ->
  parsed_chain "authority" (generateNSECChain domain records ttl) = nsec_chain zone_served owner_names.
Proof.
  intros Hno. rewrite generated_ring, owner_names_fqdn, ring_map by done. unfold parsed_chain, nsec_chain. rewrite !map_map.
  assert (forall x y, (x, y) ∈ ring owner_names -> x ∈ owner_names) as Hin by (intros x y Hxy; by apply ring_elem in Hxy as [? _]).
  revert Hin. generalize (ring owner_names). intros l Hin. induction l as [|[x y] l IH]; [done|].
  cbn. f_equal; [|apply IH; intros; eapply Hin; by right].
  unfold NSECFromRR, chain_record, chain_rr. cbn. f_equal. unfold types_at. rewrite served_lookup, bool_decide_eq_true_2; [done|]. eapply Hin. by left.
Qed.
End served.
