(* ===== verification/Nsec3ChainSound.v ===== *)
(** * Nsec3ChainSound: the signer's NSEC3 chain and its own check of it

    The check accepts exactly the chain the snapshot dictates; the generated chain
    is that chain. *)


From stdpp Require Import base list strings gmap pretty.
From Stdlib Require Import ZArith Lia Sorted Ascii.
From S2P Require Import Prelude Order Names PlainNames DnsZone Wire ZoneModel NsecChain Signatures ZoneModelFacts SignaturesSound NsecChainSound ServedZone.
Local Open Scope Z_scope.

Lemma string_less_key a b : string_less a b = true <-> bytes_compare (bytes_of_string a) (bytes_of_string b) = Lt.
Proof. unfold string_less, string_compare. by destruct (bytes_compare _ _). Qed.

(** ** The check *)

Section check3.
Context `{DnsLib} `{HashLib} (m : zoneModel.t) (iterations : Z) (salt : string).

(** The hash labels of a list of records, all of which belong to the zone's chain. *)
Definition hashes_of (nsec3s : list NSEC3.t) (hs : list string) : Prop :=
  Forall2 (fun n h => nsec3_hash m iterations salt n = Ok h) nsec3s hs.

Lemma index_nsec3s_spec nsec3s acc :
  match index_nsec3s m iterations salt nsec3s acc with
  | Ok byHash => exists hs, hashes_of nsec3s hs /\ NoDup hs /\ (forall h, h ∈ hs -> acc !! h = None) /\
      forall h n, byHash !! h = Some n <-> acc !! h = Some n \/ exists i, nsec3s !! i = Some n /\ hs !! i = Some h
  | Err _ => ~ exists hs, hashes_of nsec3s hs /\ NoDup hs /\ forall h, h ∈ hs -> acc !! h = None
  end.
Proof.
  revert acc. induction nsec3s as [|n ns IH]; intros acc; cbn [index_nsec3s].
  { exists []. split; [constructor|]. split; [constructor|]. split; [set_solver|]. intros h n. set_solver. }
  destruct (nsec3_hash m iterations salt n) as [h|e] eqn:Hh; cbn [res_bind].
  2: { intros (hs & Hf & _). apply Forall2_cons_inv_l in Hf as (h & hs' & Hn & _ & ->). congruence. }
  case_bool_decide as Hin.
  { intros (hs & Hf & _ & Hnone). apply Forall2_cons_inv_l in Hf as (h' & hs' & Hn & _ & ->). rewrite Hh in Hn. injection Hn as <-.
    rewrite (Hnone h) in Hin by (by left). by destruct Hin. }
  apply eq_None_not_Some in Hin. specialize (IH (<[h := n]> acc)). destruct (index_nsec3s m iterations salt ns _) as [byHash|e].
  - destruct IH as (hs & Hf & Hd & Hnone & Hl).
    assert (h ∉ hs) as Hnh by (intros Hx%Hnone; by rewrite lookup_insert_eq in Hx).
    exists (h :: hs). split; [by constructor|]. split; [by constructor|]. split.
    + intros x [->|Hx]%elem_of_cons; [done|]. pose proof (Hnone x Hx) as Hx'. rewrite lookup_insert_ne in Hx'; [done|]. by intros ->.
    + intros x y. rewrite Hl. destruct (decide (x = h)) as [->|Hxh].
      * rewrite lookup_insert_eq. split.
        -- intros [[= <-]|(i & Hi & Hx)]; [right; by exists 0%nat|]. apply list_elem_of_lookup_2 in Hx. by destruct Hnh.
        -- intros [?|([|i] & Hi & Hx)]; [congruence | cbn in Hi; by left | cbn in Hx; apply list_elem_of_lookup_2 in Hx; by destruct Hnh].
      * rewrite lookup_insert_ne by done. split; intros [?|(i & Hi & Hx)]; [by left | right; by exists (S i) | by left|].
        destruct i as [|i]; cbn in *; [congruence | right; by exists i].
  - intros (hs & Hf & Hd & Hnone). apply IH. apply Forall2_cons_inv_l in Hf as (h' & hs' & Hn & Hf & ->). rewrite Hh in Hn. injection Hn as <-.
    apply NoDup_cons in Hd as [Hnh Hd]. exists hs'. split_and!; [done..|]. intros x Hx. rewrite lookup_insert_ne; [apply Hnone; by right|]. by intros ->.
Qed.

(** The record at an expected owner's hash points at the next hash and lists the
    types the snapshot dictates. *)
Definition entry_ok (expected : list (string * string)) (byHash : string -> NSEC3.t -> Prop) (i : nat) (e : string * string) : Prop :=
  exists n, byHash e.2 n /\ ToUpper (NSEC3.NextDomain n) = next_hash expected i /\
    sort_slice Z.ltb (NSEC3.TypeBitMap n) = denialTypes m e.1 true.

Lemma check_nsec3s_spec expected (byHash : gmap string NSEC3.t) i todo :
  check_nsec3s m expected byHash i todo = Ok tt <->
  forall j e, todo !! j = Some e -> entry_ok expected (fun h n => byHash !! h = Some n) (i + j) e.
Proof.
  revert i. induction todo as [|[o h] todo IH]; intros i; cbn [check_nsec3s]; [by split|].
  assert ((forall j e, ((o, h) :: todo) !! j = Some e -> entry_ok expected (fun h n => byHash !! h = Some n) (i + j) e) <->
    entry_ok expected (fun h n => byHash !! h = Some n) i (o, h) /\
    forall j e, todo !! j = Some e -> entry_ok expected (fun h n => byHash !! h = Some n) (S i + j) e) as ->.
  { split.
    - intros Hall. split; [pose proof (Hall 0%nat _ eq_refl) as Ho; by rewrite Nat.add_0_r in Ho|].
      intros j e Hj. pose proof (Hall (S j) e Hj) as Ho. by rewrite <-Nat.add_succ_comm in Ho.
    - intros [Ho Hall] [|j] e Hj; [injection Hj as <-; by rewrite Nat.add_0_r|]. rewrite <-Nat.add_succ_comm. by apply Hall. }
  rewrite <-IH. unfold entry_ok. cbn [fst snd]. destruct (byHash !! h) as [n|]; [|split; [done | by intros [(? & ? & _) _]]].
  destruct (String.eqb_spec (ToUpper (NSEC3.NextDomain n)) (next_hash expected i)) as [He|He]; cbn [negb].
  2: { split; [done|]. by intros [(n' & [= <-] & ? & _) _]. }
  unfold compareTypeBitmap. case_bool_decide as Hb; cbn [res_bind].
  - split; [intros ?; split; [by exists n | done] | by intros [_ ?]].
  - split; [done|]. by intros [(n' & [= <-] & _ & ?) _].
Qed.

(** The chain the snapshot dictates: one parameter record at the apex, and one
    record per expected hash. *)
Record expected_chain3 (nsec3s : list NSEC3.t) (params : list NSEC3PARAM.t) (hs : list string) : Prop := {
  e3_param : exists p, params = [p] /\ check_param m iterations salt p = Ok tt;
  e3_some : nsec3s <> [];
  e3_hashes : hashes_of nsec3s hs;
  e3_distinct : NoDup hs;
  e3_owners : forall h, h ∈ hs <-> h ∈ map snd (expected_hashes m iterations salt);
  e3_entries : forall i e, expected_hashes m iterations salt !! i = Some e ->
    entry_ok (expected_hashes m iterations salt) (fun h n => exists j, nsec3s !! j = Some n /\ hs !! j = Some h) i e
}.
End check3.

Section check_all.
Context `{DnsLib} `{HashLib} (m : zoneModel.t) (iterations : Z).

Lemma nsec3_check_spec nsec3s params salt :
  verifyNSEC3Expectations m nsec3s params iterations salt = Ok tt <->
  exists hs, expected_chain3 m iterations (normSalt salt) nsec3s params hs.
Proof.
  unfold verifyNSEC3Expectations. set (s := normSalt salt).
  destruct params as [|p [|p' params]]; [by split; [|intros (? & [(? & ? & _)])] | | by split; [|intros (? & [(? & ? & _)])]].
  rewrite check_then. destruct nsec3s as [|n0 ns0]; [by split; [intros []|intros (? & [])]|]. set (ns := n0 :: ns0).
  set (expected := expected_hashes m iterations s).
  pose proof (index_nsec3s_spec m iterations s ns ∅) as Hi. destruct (index_nsec3s m iterations s ns ∅) as [byHash|e]; cbn [res_bind].
  2: { split; [by intros []|]. intros (hs & [_ _ Hf Hd _ _]). destruct Hi. exists hs. split_and!; [done..|]. intros; apply lookup_empty. }
  destruct Hi as (hs & Hf & Hd & _ & Hl').
  assert (forall h n, byHash !! h = Some n <-> exists i, ns !! i = Some n /\ hs !! i = Some h) as Hl.
  { intros h n. rewrite Hl', lookup_empty. naive_solver. }
  assert (forall h, is_Some (byHash !! h) <-> h ∈ hs) as Hs.
  { intros h. rewrite list_elem_of_lookup. split; [intros [n (i & _ & ?)%Hl]; by exists i|]. intros (i & Hi).
    destruct (Forall2_lookup_r _ _ _ _ _ Hf Hi) as (n & Hn & _). exists n. apply Hl. by exists i. }
  assert (forall hs', hashes_of m iterations s ns hs' -> hs' = hs) as Huniq.
  { intros hs' Hf'. clear -Hf Hf'. revert hs' Hf'. induction Hf as [|n h ns hs Hn Hf IH]; intros hs' Hf'.
    - by apply Forall2_nil_inv_l in Hf' as ->.
    - apply Forall2_cons_inv_l in Hf' as (h' & hs'' & Hn' & Hf' & ->). rewrite Hn in Hn'. injection Hn' as <-. f_equal. by apply IH. }
  destruct (List.find _ expected) as [e|] eqn:Hmiss.
  { apply find_some_bool in Hmiss as [He Hno%negb_true_iff%bool_decide_eq_false]. split; [by intros []|]. intros (hs' & [_ _ Hf' _ Ho _]).
    rewrite (Huniq _ Hf') in Ho. destruct Hno. apply Hs, Ho. apply list_elem_of_fmap. by exists e. }
  destruct (List.find _ (elements (dom byHash))) as [h|] eqn:Hunk.
  { apply find_some_bool in Hunk as [Hin%elem_of_elements%elem_of_dom Hno%negb_true_iff]. split; [by intros []|]. intros (hs' & [_ _ Hf' _ Ho _]).
    rewrite (Huniq _ Hf') in Ho. apply Hs, Ho in Hin. apply list_elem_of_fmap in Hin as (e & -> & He).
    assert (existsb (fun e0 => String.eqb e0.2 e.2) expected = true) as Hex; [|congruence].
    apply existsb_exists. exists e. split; [by apply list_elem_of_In | apply String.eqb_refl]. }
  assert (forall h, h ∈ hs <-> h ∈ map snd expected) as Ho.
  { intros h. rewrite find_none_all in Hmiss; rewrite find_none_all in Hunk. split.
    - intros Hh%Hs. apply elem_of_dom, elem_of_elements, Hunk, negb_false_iff, existsb_exists in Hh as (e & He & <-%String.eqb_eq).
      apply list_elem_of_fmap. exists e. split; [done | by apply list_elem_of_In].
    - intros (e & -> & He)%list_elem_of_fmap. apply Hs; eapply bool_decide_eq_true_1; by apply negb_false_iff, Hmiss. }
  rewrite check_nsec3s_spec. cbn [Nat.add].
  assert (forall i e, entry_ok m expected (fun h n => byHash !! h = Some n) i e <->
    entry_ok m expected (fun h n => exists j, ns !! j = Some n /\ hs !! j = Some h) i e) as Hent.
  { intros i e. unfold entry_ok. by setoid_rewrite Hl. }
  setoid_rewrite Hent. split.
  - intros [Hp Hall]. exists hs. constructor; try done. by exists p.
  - intros (hs' & [(p' & [= <-] & Hp) _ Hf' _ _ Hall]). rewrite (Huniq _ Hf') in Hall. done.
Qed.
End check_all.

(** ** The NSEC3 chain the signer generates is the one it checks for

    The names hashed are the authoritative owners and the empty non-terminals
    between them and the apex; the ring of their hashes, with the types of each,
    is the chain [verifyNSEC3Expectations] asks for, provided the hashes differ. *)

(** The alphabet of base32hex. *)
Definition base32hex (c : ascii) : bool :=
  let n := N_of_ascii c in ((48 <=? n) && (n <=? 57) || (65 <=? n) && (n <=? 86))%N.

(** What the library documents of [HashName]: base32hex in upper case, of a salt
    given in hexadecimal, so that the case of its digits is not seen; and the label
    splits off a fully qualified name. *)
Class HashLaws `{DnsLib} `{HashLib} : Prop := {
  HashName_text : forall n alg it salt, forallb base32hex (chars (HashName n alg it salt)) = true;
  HashName_salt : forall n alg it salt, HashName n alg it (ToUpper salt) = HashName n alg it salt;
  HashName_owner : forall n alg it salt ls, HashName n alg it salt <> "" -> plain_name ls -> ls <> [] ->
    let owner := HashName n alg it salt +:+ "." +:+ fqdn ls in
    Fqdn owner = owner /\ exists l, SplitDomainName owner = l :: ls /\ ToUpper l = HashName n alg it salt
}.

Lemma chars_map_string f s : chars (map_string f s) = map f (chars s).
Proof. induction s as [|c s IH]; cbn; [done | by f_equal]. Qed.

Lemma map_string_id f s : Forall (fun c => f c = c) (chars s) -> map_string f s = s.
Proof. induction s as [|c s IH]; cbn; [done|]. intros [Hc Hs]%Forall_cons. by rewrite Hc, IH. Qed.

(** For a fact about each byte: 256 cases. *)
Ltac all_bytes c := revert c; intros [[] [] [] [] [] [] [] []]; vm_compute; try done; try congruence.

Lemma base32hex_upper c : base32hex c = true -> upper_byte c = c.
Proof. all_bytes c. Qed.

Lemma HashName_upper `{HashLaws} n alg it salt : ToUpper (HashName n alg it salt) = HashName n alg it salt.
Proof.
  apply map_string_id, Forall_forall. intros c Hc%list_elem_of_In. apply base32hex_upper.
  exact (proj1 (forallb_forall _ _) (HashName_text n alg it salt) c Hc).
Qed.

(** A label of that alphabet, in either case, in canonical form. *)
Lemma base32hex_octet c : base32hex (upper_byte c) = true ->
  Ascii.eqb c "\" = false /\ plain_byte (lower_byte c) = true /\ lower_byte c <> "*"%char /\ lower_octet (byte_of_ascii c) = byte_of_ascii (lower_byte c) /\
  lower_octet (byte_of_ascii (lower_byte c)) = byte_of_ascii (lower_byte c).
Proof. all_bytes c. all: split_and!; try done; intros Hx; discriminate Hx. Qed.

Lemma canonicalLabel_base32hex l : l <> "" -> forallb base32hex (chars (ToUpper l)) = true ->
  canonicalLabel l = ToLower l /\ presentable_label (ToLower l).
Proof.
  intros Hne Hb.
  assert (forall c, c ∈ chars l -> base32hex (upper_byte c) = true) as Hl.
  { intros c Hc%list_elem_of_In. unfold ToUpper in Hb. rewrite chars_map_string in Hb.
    apply (proj1 (forallb_forall _ _) Hb), in_map, Hc. }
  assert (canonicalLabelBytes l = canonicalLabelBytes (ToLower l)) as Hcl.
  { clear Hne Hb. unfold canonicalLabelBytes. induction l as [|c l IH]; cbn in *; [done|].
    destruct (base32hex_octet c) as (E1 & E2 & _ & E3 & E4); [apply Hl; by left|].
    rewrite E1, E3, E4, (plain_byte_not_escape _ E2), <-IH; [done|]. intros c' Hc'. apply Hl. by right. }
  assert (presentable_label (ToLower l)) as Hp.
  { split; [split; [by destruct l|]|right]; unfold ToLower; rewrite chars_map_string.
    - apply Forall_fmap, Forall_forall. intros c Hc. cbn. by apply base32hex_octet, Hl.
    - intros (c & Hc & Hin)%list_elem_of_fmap. destruct (base32hex_octet c) as (_ & _ & Hs & _); [by apply Hl | done]. }
  split; [|done]. unfold canonicalLabel. rewrite Hcl. by apply canonicalLabel_presentable in Hp.
Qed.

(** The owner of an NSEC3 record is presentable. *)
Lemma hashed_owner `{DnsLib} `{!DnsLibLaws} `{HashLib} `{!HashLaws} n alg it salt ls : HashName n alg it salt <> "" -> presentable ls -> ls <> [] ->
  exists n', presentable n' /\ canonicalName (HashName n alg it salt +:+ "." +:+ fqdn ls) = fqdn n'.
Proof.
  intros Hh Hp Hne. destruct (HashName_owner n alg it salt ls Hh (presentable_plain ls Hp) Hne) as (Hf & l & Hs & Hl).
  destruct (canonicalLabel_base32hex l) as [Hcl Hpl]; [intros -> ; by rewrite <-Hl in Hh | rewrite Hl; apply HashName_text|].
  assert (presentable (ToLower l :: ls)) as Hp' by (by constructor).
  exists (ToLower l :: ls). split; [done|]. rewrite <-(canonicalName_presentable _ Hp'). unfold canonicalName.
  rewrite Hf, Hs, Fqdn_plain, SplitDomainName_plain by by apply presentable_plain.
  assert (HashName n alg it salt +:+ "." +:+ fqdn ls <> ".") as Hd1.
  { intros Hd%(f_equal (fun s => length (chars s))). rewrite !chars_app, !length_app in Hd. cbn in Hd.
    destruct (HashName n alg it salt); [done|]. cbn in Hd. lia. }
  apply String.eqb_neq in Hd1. rewrite Hd1. pose proof (fqdn_not_root _ (presentable_plain _ Hp') ltac:(done)) as Hd2. apply String.eqb_neq in Hd2. rewrite Hd2.
  cbn [map]. by rewrite Hcl, (canonicalLabel_presentable _ Hpl).
Qed.

(** ** Adding the missing ancestors *)

Lemma add_parents_spec ps (types : gmap string (gset Z)) :
  let types' := fold_left add_parent ps types in
  (forall o, o ∈ dom types' <-> o ∈ dom types \/ o ∈ ps) /\ (forall o, types_of types' o = types_of types o).
Proof.
  revert types. induction ps as [|p ps IH]; intros types; cbn; [set_solver|].
  destruct (IH (add_parent types p)) as [Hd Ht]. unfold add_parent in *. case_bool_decide as Hp.
  - split; [|exact Ht]. intros o. rewrite Hd, elem_of_cons. apply elem_of_dom in Hp. naive_solver.
  - apply eq_None_not_Some in Hp. split.
    + intros o. rewrite Hd, dom_insert, elem_of_cons. set_solver.
    + intros o. rewrite Ht. unfold types_of. destruct (decide (o = p)) as [->|Hne]; [by rewrite lookup_insert_eq, Hp | by rewrite lookup_insert_ne].
Qed.

Lemma fold_left_concat {A B C} (f : A -> list B) (g : C -> B -> C) (l : list A) (c : C) :
  fold_left (fun c x => fold_left g (f x) c) l c = fold_left g (concat (map f l)) c.
Proof. revert c. induction l as [|x l IH]; intros c; cbn; [done|]. by rewrite IH, fold_left_app. Qed.

Lemma joinLabels_fqdn ls : joinLabels ls = fqdn ls.
Proof. by destruct ls. Qed.

Section names.
Context `{DnsLib} `{!DnsLibLaws} `{HashLib} (domain : string) (records : list RR) (a : name).
Context (Hps : plain_snapshot domain records a) (Hcanon : canonicalName (fqdn a) = fqdn a).
Local Abbreviation m := (newZoneModel domain records).

Lemma apex_fqdn : zoneModel.apex m = fqdn a.
Proof. rewrite (ix_apex _ _ _ (newZoneModel_indexes domain records)). apply Hps. Qed.

Lemma types_dom o : o ∈ dom (typesByName m records) <-> o ∈ authoritativeOwners m.
Proof. by rewrite <-(sorted_names_expected _ _ _ Hps), (sort_slice_perm canonicalLess), elem_of_elements. Qed.

Lemma ent_parents_plain n : plain_name n -> ent_parents (SplitDomainName (canonicalName (zoneModel.apex m))) (fqdn n) = inner_ancestors m (fqdn n).
Proof.
  intros Hn. unfold ent_parents, inner_ancestors. by rewrite (apexLabels_plain _ _ _ Hps), apex_fqdn, Hcanon, !SplitDomainName_plain by apply Hn || apply Hps.
Qed.

(** An empty non-terminal: an ancestor of an authoritative name, below the apex,
    without records. *)
Definition empty_nonterminal (n : name) : Prop :=
  a `suffix_of` n /\ n <> a /\ ~ present records n /\ exists o, authoritative records a o /\ n `suffix_of` o /\ n <> o.

Lemma emptyNonTerminals_elem o : o ∈ emptyNonTerminals m <-> exists n, o = fqdn n /\ plain_name n /\ empty_nonterminal n.
Proof.
  unfold emptyNonTerminals. rewrite (sort_slice_perm canonicalLess), elem_of_elements, elem_of_list_to_set. rewrite <-flat_map_concat_map, list_elem_of_In, in_flat_map.
  setoid_rewrite <-list_elem_of_In. split.
  - intros (x & (n & -> & Hn)%(authoritativeOwners_elem _ _ _ Hps) & Ho). apply filter_In_bool in Ho as [Ho Hno%negb_true_iff%bool_decide_eq_false].
    apply (inner_ancestors_elem _ _ _ Hps) in Ho as (c & -> & Hs & Hne & Ha & Hna); [|apply Hn | by apply (authoritative_within _ _ _ Hps)].
    exists c. split; [done|]. split; [eapply plain_name_suffix; [exact Hs | apply Hn]|]. split_and!; try done.
    + intros Hp. apply Hno. destruct (present_owner domain records c Hp) as [oi Hoi]. by exists oi.
    + by exists n.
  - intros (c & -> & Hc & Ha & Hna & Hp & n & Hn & Hs & Hne). exists (fqdn n). split; [apply (authoritativeOwners_elem _ _ _ Hps); by exists n|].
    apply filter_In_bool. split.
    + apply (inner_ancestors_elem _ _ _ Hps); [apply Hn | by apply (authoritative_within _ _ _ Hps)|]. by exists c.
    + apply negb_true_iff, bool_decide_eq_false. intros Hx. apply Hp. apply elem_of_dom, owners_dom in Hx. exact Hx.
Qed.

(** An inner ancestor of an authoritative name is authoritative or empty. *)
Lemma ancestor_kind n c : authoritative records a n -> c `suffix_of` n -> c <> n -> a `suffix_of` c -> c <> a ->
  authoritative records a c \/ empty_nonterminal c.
Proof.
  intros Hn Hs Hne Ha Hna. assert (plain_name c) as Hc by (eapply plain_name_suffix; [exact Hs | apply Hn]).
  destruct (decide (fqdn c ∈ dom (zoneModel.owners m))) as [Hd|Hd].
  - left. apply owners_dom in Hd. split_and!; [done..|]. intros (x & Hx & Hh & Hxs & Hxn). destruct Hn as (_ & _ & Hno). apply Hno.
    exists x. split_and!; [done | done | by etrans | intros ->]. apply Hne. apply (suffix_length_eq c n Hs). by apply suffix_length in Hxs.
  - right. split_and!; [done.. | |by exists n]. intros Hp. by apply Hd, owners_dom.
Qed.

Definition apex_types : gmap string (gset Z) :=
  match typesByName m records !! zoneModel.apex m with
  | Some ts => <[zoneModel.apex m := ts ∪ {[TypeNSEC3PARAM]}]> (typesByName m records)
  | None => typesByName m records
  end.

Lemma apex_types_dom : dom apex_types = dom (typesByName m records).
Proof.
  unfold apex_types. destruct (typesByName m records !! zoneModel.apex m) as [ts|] eqn:Ht; [|done]. apply set_eq. intros o.
  rewrite dom_insert, elem_of_union, elem_of_singleton. split; [|by right]. intros [->|?]; [|done]. apply elem_of_dom. by exists ts.
Qed.

Lemma collected_fold : exists ps, collected_types m records = fold_left add_parent ps apex_types /\
  forall o, o ∈ ps <-> exists n, authoritative records a n /\ o ∈ inner_ancestors m (fqdn n).
Proof.
  unfold collected_types. fold apex_types. unfold addEmptyNonTerminals. rewrite fold_left_concat. eexists. split; [reflexivity|].
  intros o. rewrite <-flat_map_concat_map, list_elem_of_In, in_flat_map. setoid_rewrite <-list_elem_of_In. setoid_rewrite elem_of_elements.
  setoid_rewrite apex_types_dom. setoid_rewrite types_dom. setoid_rewrite (authoritativeOwners_elem _ _ _ Hps). split.
  - intros (x & (n & -> & Hn) & Ho). rewrite ent_parents_plain in Ho by apply Hn. by exists n.
  - intros (n & Hn & Ho). exists (fqdn n). rewrite ent_parents_plain by apply Hn. split; [by exists n | done].
Qed.

(** The owners of the generated chain are those the check expects. *)
Lemma collected_dom o : o ∈ dom (collected_types m records) <-> o ∈ authoritativeOwners m ++ emptyNonTerminals m.
Proof.
  destruct collected_fold as (ps & -> & Hps'). destruct (add_parents_spec ps apex_types) as [Hd _]. rewrite Hd, Hps', apex_types_dom, types_dom, elem_of_app.
  rewrite emptyNonTerminals_elem, (authoritativeOwners_elem _ _ _ Hps). split.
  - intros [?|(n & Hn & Ho)]; [by left|]. apply (inner_ancestors_elem _ _ _ Hps) in Ho as (c & -> & Hs & Hne & Ha & Hna);
      [|apply Hn | by apply (authoritative_within _ _ _ Hps)].
    destruct (ancestor_kind n c) as [Hc|Hc]; try done; [left; by exists c | right; exists c; split; [done | split; [|done]]].
    eapply plain_name_suffix; [exact Hs | apply Hn].
  - intros [?|(c & -> & Hc & Ha & Hna & Hp & n & Hn & Hs & Hne)]; [by left|]. right. exists n. split; [done|].
    apply (inner_ancestors_elem _ _ _ Hps); [apply Hn | by apply (authoritative_within _ _ _ Hps)|]. by exists c.
Qed.

Lemma collected_types_of n t : authoritative records a n ->
  t ∈ types_of (collected_types m records) (fqdn n) <-> holds records n t \/ (n = a /\ t = TypeNSEC3PARAM).
Proof.
  intros Hn. destruct collected_fold as (ps & -> & _). destruct (add_parents_spec ps apex_types) as [_ ->].
  rewrite <-(typesByName_plain _ _ _ Hps) by done. unfold apex_types, types_of. rewrite apex_fqdn.
  assert (fqdn n ∈ dom (typesByName m records)) as [tn Htn]%elem_of_dom by (apply types_dom, (authoritativeOwners_elem _ _ _ Hps); by exists n).
  destruct (decide (n = a)) as [->|Hna].
  - rewrite Htn, lookup_insert_eq. cbn. set_solver.
  - assert (fqdn a <> fqdn n) by (intros Heq; apply Hna; symmetry; apply fqdn_inj; [apply Hps | apply Hn | done]).
    destruct (typesByName m records !! fqdn a); [rewrite lookup_insert_ne by done|]; rewrite Htn; cbn; naive_solver.
Qed.

Lemma collected_empty n : plain_name n -> empty_nonterminal n -> types_of (collected_types m records) (fqdn n) = ∅.
Proof.
  intros Hn (_ & Hna & Hp & _). destruct collected_fold as (ps & -> & _). destruct (add_parents_spec ps apex_types) as [_ ->].
  unfold types_of. enough (apex_types !! fqdn n = None) as -> by done. apply not_elem_of_dom. rewrite apex_types_dom, types_dom, (authoritativeOwners_elem _ _ _ Hps).
  intros (n' & Heq & Hn'). apply fqdn_inj in Heq as <-; [|done | apply Hn']. by apply Hp, Hn'.
Qed.

Lemma denial_set3_elem n t : authoritative records a n ->
  t ∈ denial_set m (fqdn n) true <->
  (n <> a /\ holds records n TypeNS) /\ (t = TypeNS \/ holds records n TypeDS /\ (t = TypeDS \/ t = TypeRRSIG)) \/
  ~ (n <> a /\ holds records n TypeNS) /\ (holds records n t \/ t = TypeRRSIG \/ (n = a /\ t = TypeNSEC3PARAM)).
Proof.
  intros (Hn & Hp & _). destruct (present_owner domain records n Hp) as [oi Hoi]. unfold denial_set. rewrite Hoi.
  destruct (type_dom domain records oi _ t Hoi) as [Hdom _], (type_dom domain records oi _ TypeDS Hoi) as [_ Hds].
  change (exists rr, rr ∈ records /\ canon rr = fqdn n /\ rr_type rr = t) with (holds records n t) in Hdom.
  change (exists rr, rr ∈ records /\ canon rr = fqdn n /\ rr_type rr = TypeDS) with (holds records n TypeDS) in Hds.
  pose proof (delegation_plain _ _ _ Hps n Hn) as Hdel. rewrite bool_decide_eq_true_2 by (by eexists). rewrite andb_true_r.
  assert (String.eqb (fqdn n) (zoneModel.apex m) = true <-> n = a) as Hap.
  { rewrite apex_fqdn, String.eqb_eq. split; [|by intros ->]. apply fqdn_inj; [done | apply Hps]. }
  destruct (isDelegation m (fqdn n)).
  - pose proof (proj1 Hdel eq_refl) as [Hne Hns]. destruct (String.eqb (fqdn n) _); [by destruct Hne; apply Hap|].
    destruct (has_type oi TypeDS).
    + pose proof (proj1 Hds eq_refl). set_solver.
    + assert (~ holds records n TypeDS) by (intros Hx%Hds; done). set_solver.
  - assert (~ (n <> a /\ holds records n TypeNS)) by (intros Hx%Hdel; done).
    destruct (String.eqb (fqdn n) _).
    + pose proof (proj1 Hap eq_refl). rewrite !elem_of_union, !elem_of_singleton, Hdom. tauto.
    + assert (n <> a) by (intros Hx%Hap; done). rewrite !elem_of_union, !elem_of_singleton, Hdom, elem_of_empty. tauto.
Qed.

Lemma bitmap3_authoritative n : no_denial_records records -> authoritative records a n ->
  bitmap_types3 m (collected_types m records) (fqdn n) = denialTypes m (fqdn n) true.
Proof.
  intros Hno Hn. pose proof (delegation_plain _ _ _ Hps n (proj1 Hn)) as Hdel. apply (strictly_sorted_unique Z.compare (fun x => x)).
  - unfold bitmap_types3. apply types_sorted. destruct (isDelegation m (fqdn n)).
    + case_bool_decide; repeat (constructor; [rewrite ?elem_of_cons, ?elem_of_nil; unfold TypeNS, TypeDS, TypeRRSIG; lia|]); constructor.
    + case_bool_decide; [constructor|]. apply NoDup_app. split_and!; [apply NoDup_elements | | apply NoDup_singleton].
      intros t. rewrite elem_of_elements, collected_types_of, list_elem_of_singleton by done. intros [(rr & Hin & _ & <-)|[_ ->]]; [by apply Hno|].
      unfold TypeNSEC3PARAM, TypeRRSIG. lia.
  - unfold denialTypes. apply types_sorted, NoDup_elements.
  - intros t. unfold denialTypes, bitmap_types3. rewrite !(sort_slice_perm Z.ltb), elem_of_elements, denial_set3_elem by done.
    destruct (isDelegation m (fqdn n)).
    + pose proof (proj1 Hdel eq_refl) as [Hna Hns]. rewrite elem_of_cons. case_bool_decide as Hds; rewrite collected_types_of in Hds by done.
      * rewrite !elem_of_cons, elem_of_nil. assert (holds records n TypeDS) by naive_solver. naive_solver.
      * rewrite elem_of_nil. naive_solver.
    + assert (~ (n <> a /\ holds records n TypeNS)) by (intros Hx%Hdel; done).
      case_bool_decide as He.
      * destruct Hn as (Hn & (rr & Hin & Hrr) & Hno'). assert (rr_type rr ∈ types_of (collected_types m records) (fqdn n)) as Hx.
        { apply collected_types_of; [split_and!; [done | by exists rr | done]|]. left. by exists rr. }
        rewrite He in Hx. set_solver.
      * rewrite elem_of_app, elem_of_elements, collected_types_of, list_elem_of_singleton by done. naive_solver.
Qed.

Lemma bitmap3_empty n : plain_name n -> empty_nonterminal n ->
  bitmap_types3 m (collected_types m records) (fqdn n) = [] /\ denialTypes m (fqdn n) true = [].
Proof.
  intros Hn He. pose proof He as (_ & Hna & Hp & _). split.
  - unfold bitmap_types3. rewrite collected_empty by done. destruct (isDelegation m (fqdn n)) eqn:Hd; [|done].
    apply (delegation_plain _ _ _ Hps) in Hd as [_ Hd%holds_present]; done.
  - unfold denialTypes, denial_set. destruct (zoneModel.owners m !! fqdn n) as [oi|] eqn:Ho.
    { destruct Hp. apply (owners_dom domain records), elem_of_dom. by exists oi. }
    rewrite bool_decide_eq_false_2 by (by intros []). rewrite andb_false_r. by rewrite (right_id_L ∅ (∪)), elements_empty.
Qed.
End names.

(** ** The whole chain *)

Lemma ToUpper_nonempty s : ToUpper s = "" -> s = "".
Proof. by destruct s. Qed.

Lemma str_rev_map f s : str_rev (map_string f s) = map_string f (str_rev s).
Proof.
  apply chars_inj. unfold str_rev. rewrite !String.list_ascii_of_string_of_list_ascii.
  by rewrite !chars_map_string, String.list_ascii_of_string_of_list_ascii, map_rev.
Qed.

Lemma normSalt_trim salt : HasSuffix salt "-" = false -> TrimSuffix (normSalt salt) "-" = ToUpper salt.
Proof.
  intros Hs. unfold normSalt. destruct (String.eqb_spec (ToUpper salt) "") as [He|He]; [by rewrite He|].
  unfold TrimSuffix. enough (HasSuffix (ToUpper salt) "-" = false) as -> by done.
  revert Hs. unfold HasSuffix, ToUpper. rewrite str_rev_map. destruct (str_rev salt) as [|c s]; [done|]. cbn.
  destruct s; destruct c as [[] [] [] [] [] [] [] []]; vm_compute; congruence.
Qed.

Lemma bytes_of_string_inj a b : bytes_of_string a = bytes_of_string b -> a = b.
Proof. intros Hb. by apply label_key_inj. Qed.

Section hashed.
Context `{DnsLib} `{!DnsLibLaws} `{HashLib} `{!HashLaws}.

(** Sorting by distinct hashes. *)
Lemma hash_sorted (l : list (string * string)) : NoDup (map snd l) ->
  StronglySorted (fun x y => bytes_compare (bytes_of_string x.2) (bytes_of_string y.2) = Lt) (sort_slice (fun x y => string_less x.2 y.2) l).
Proof.
  intros Hd. apply (sort_slice_lt _ bytes_compare (fun e : string * string => bytes_of_string e.2)); [intros; apply string_less_key|].
  rewrite <-(map_map snd bytes_of_string). apply (NoDup_fmap_2_strong bytes_of_string); [|done]. intros x y _ _. apply bytes_of_string_inj.
Qed.
End hashed.

Section generated.
Context `{DnsLib} `{!DnsLibLaws} `{HashLib} `{!HashLaws} (domain : string) (records : list RR) (a : name).
Context (Hps : plain_snapshot domain records a) (Hcanon : canonicalName (fqdn a) = fqdn a) (Hbelow : a <> []).
Context (Hno : no_denial_records records) (Hapex : present records a) (iterations : Z) (salt : string).
Local Abbreviation m := (newZoneModel domain records).
Local Abbreviation names := (authoritativeOwners m ++ emptyNonTerminals m).
Local Abbreviation hash := (fun o => HashName o SHA1 iterations salt).

(** The salt is hexadecimal, and no two names of the zone collide. *)
Definition distinct_hashes : Prop :=
  HasSuffix salt "-" = false /\ NoDup (map hash names) /\ forall o, o ∈ names -> hash o <> "".
Context (Hhash : distinct_hashes).

Lemma names_NoDup : NoDup names.
Proof. destruct Hhash as (_ & Hd & _). by apply NoDup_fmap_1 in Hd. Qed.

Lemma hashed_expected : hashed_names iterations salt (elements (dom (collected_types m records))) = expected_hashes m iterations (normSalt salt).
Proof.
  unfold hashed_names, expected_hashes.
  assert (map (fun owner => (owner, ToUpper (HashName owner SHA1 iterations (TrimSuffix (normSalt salt) "-")))) names = map (fun o => (o, hash o)) names) as ->.
  { apply map_ext. intros o. rewrite normSalt_trim by apply Hhash. by rewrite HashName_salt, HashName_upper. }
  assert (elements (dom (collected_types m records)) ≡ₚ names) as Hp.
  { apply NoDup_Permutation; [apply NoDup_elements | apply names_NoDup|]. intros o. by rewrite elem_of_elements, (collected_dom _ _ _ Hps Hcanon). }
  apply (strictly_sorted_unique bytes_compare (fun e : string * string => bytes_of_string e.2)).
  - apply hash_sorted. rewrite map_map. cbn. rewrite (Permutation_map hash Hp). apply Hhash.
  - apply hash_sorted. rewrite map_map. apply Hhash.
  - intros e. rewrite !(sort_slice_perm (fun x y => string_less x.2 y.2)). by rewrite (Permutation_map _ Hp).
Qed.

Definition chain3_rr (ttl : Z) (i : nat) (hn : string * string) : NSEC3.t :=
  nsec3_record m (collected_types m records) iterations salt ttl hn.1 hn.2 (next_hash (expected_hashes m iterations (normSalt salt)) i).

Lemma generated3 ttl : generateNSEC3Chain iterations salt domain records ttl =
  RR_NSEC3PARAM (NSEC3PARAM.mk (Hdr.mk (zoneModel.apex m) TypeNSEC3PARAM 1 0) SHA1 0 iterations salt) ::
  imap (fun i hn => RR_NSEC3 (chain3_rr ttl i hn)) (expected_hashes m iterations (normSalt salt)).
Proof. unfold generateNSEC3Chain, generateNSEC3ChainWithModel. by rewrite hashed_expected. Qed.

Lemma nsec3s_in_imap ttl (l : list (string * string)) (g : nat -> nat) :
  nsec3s_in (imap (fun i hn => RR_NSEC3 (chain3_rr ttl (g i) hn)) l) = imap (fun i hn => chain3_rr ttl (g i) hn) l /\
  nsec3params_in (imap (fun i hn => RR_NSEC3 (chain3_rr ttl (g i) hn)) l) = [] /\
  nsecs_in (imap (fun i hn => RR_NSEC3 (chain3_rr ttl (g i) hn)) l) = [].
Proof.
  revert g. induction l as [|e l IH]; intros g; [done|]. cbn. destruct (IH (fun i => g (S i))) as (E1 & E2 & E3).
  split; [f_equal; exact E1|]. split; [exact E2 | exact E3].
Qed.

Lemma expected_entry e : e ∈ expected_hashes m iterations (normSalt salt) <-> e.1 ∈ names /\ e.2 = hash e.1.
Proof.
  unfold expected_hashes. rewrite (sort_slice_perm (fun x y => string_less x.2 y.2)), list_elem_of_fmap. setoid_rewrite normSalt_trim; [|apply Hhash].
  setoid_rewrite HashName_salt. setoid_rewrite HashName_upper. split; [by intros (o & -> & Ho)|]. intros [He Hh]. exists e.1. split; [|done].
  destruct e. cbn in *. by rewrite Hh.
Qed.

Lemma expected_NoDup3 : NoDup (map snd (expected_hashes m iterations (normSalt salt))).
Proof.
  unfold expected_hashes. rewrite (Permutation_map snd (sort_slice_perm (fun x y => string_less x.2 y.2) _)), map_map, normSalt_trim by apply Hhash.
  cbn. rewrite (map_ext _ hash) by (intros o; by rewrite HashName_salt, HashName_upper). apply Hhash.
Qed.

Lemma next_upper i : expected_hashes m iterations (normSalt salt) <> [] ->
  ToUpper (next_hash (expected_hashes m iterations (normSalt salt)) i) = next_hash (expected_hashes m iterations (normSalt salt)) i.
Proof.
  set (l := expected_hashes m iterations (normSalt salt)). intros Hl. unfold next_hash, next_of.
  assert (length (map snd l) <> 0)%nat as Hlen by (rewrite length_map; by destruct l).
  pose proof (nth_In (map snd l) "" (Nat.mod_upper_bound (i + 1) _ Hlen)) as Hin. apply list_elem_of_In, list_elem_of_fmap in Hin as (e & -> & He).
  apply expected_entry in He as [_ ->]. apply HashName_upper.
Qed.

Lemma chain3_hash ttl i e : e ∈ expected_hashes m iterations (normSalt salt) -> nsec3_hash m iterations (normSalt salt) (chain3_rr ttl i e) = Ok e.2.
Proof.
  intros [He Hh]%expected_entry. unfold nsec3_hash, chain3_rr, nsec3_record. cbn. rewrite (apex_fqdn _ _ _ Hps).
  destruct (HashName_owner e.1 SHA1 iterations salt a) as (_ & l & Hl & Hu); [by apply Hhash | apply Hps | done|].
  rewrite Hh, Hl. destruct a as [|a0 a'] eqn:Ha; [done|]. rewrite joinLabels_fqdn, String.eqb_refl. cbn. rewrite Z.eqb_refl, String.eqb_refl. cbn. by rewrite Hu.
Qed.

Lemma chain3_bitmap o : o ∈ names -> bitmap_types3 m (collected_types m records) o = denialTypes m o true.
Proof.
  rewrite elem_of_app, (authoritativeOwners_elem _ _ _ Hps), (emptyNonTerminals_elem _ _ _ Hps). intros [(n & -> & Hn)|(n & -> & Hn & He)].
  - by apply (bitmap3_authoritative _ _ _ Hps Hcanon).
  - destruct (bitmap3_empty _ _ _ Hps Hcanon n Hn He) as [-> ->]. done.
Qed.

(** The generated chain is the expected one. *)
Lemma generated_chain3 ttl : let chain := generateNSEC3Chain iterations salt domain records ttl in
  expected_chain3 m iterations (normSalt salt) (nsec3s_in chain) (nsec3params_in chain) (map snd (expected_hashes m iterations (normSalt salt))) /\
  nsecs_in chain = [].
Proof.
  cbv zeta. rewrite generated3. set (expected := expected_hashes m iterations (normSalt salt)).
  destruct (nsec3s_in_imap ttl expected (fun i => i)) as (E1 & E2 & E3).
  change (nsec3s_in (?x :: ?l)) with (nsec3s_in l). change (nsecs_in (?x :: ?l)) with (nsecs_in l).
  change (nsec3params_in (RR_NSEC3PARAM ?x :: ?l)) with (x :: nsec3params_in l). rewrite E1, E2, E3. split; [|done].
  assert (forall i e, expected !! i = Some e -> imap (fun i hn => chain3_rr ttl i hn) expected !! i = Some (chain3_rr ttl i e)) as Hat.
  { intros i e He. by rewrite list_lookup_imap, He. }
  constructor.
  - eexists. split; [done|]. unfold check_param. cbn. rewrite (apex_fqdn _ _ _ Hps), Hcanon, !String.eqb_refl. cbn. by rewrite Z.eqb_refl.
  - intros Hn. assert ((fqdn a, hash (fqdn a)) ∈ expected) as [i Hi]%list_elem_of_lookup.
    { apply expected_entry. split; [|done]. apply elem_of_app. left. apply (authoritativeOwners_elem _ _ _ Hps).
      exists a. split; [done | by apply (apex_authoritative _ _ _ Hps)]. }
    specialize (Hat i _ Hi). by rewrite Hn in Hat.
  - apply Forall2_same_length_lookup_2; [rewrite length_imap, length_map; done|]. intros i n h Hn Hh.
    rewrite list_lookup_fmap in Hh. destruct (expected !! i) as [e|] eqn:He; [|done]. injection Hh as <-. rewrite (Hat _ _ He) in Hn. injection Hn as <-.
    apply chain3_hash. by eapply list_elem_of_lookup_2.
  - apply expected_NoDup3.
  - done.
  - intros i e He. fold expected in He. exists (chain3_rr ttl i e). pose proof (list_elem_of_lookup_2 _ _ _ He) as [Hin Hh]%expected_entry. split_and!.
    + exists i. split; [by apply Hat|]. by rewrite list_lookup_fmap, He.
    + unfold chain3_rr, nsec3_record. cbn. apply next_upper. fold expected. intros Hn. by rewrite Hn in He.
    + unfold chain3_rr, nsec3_record. cbn. rewrite chain3_bitmap by done. apply (denialTypes_sorted domain records).
Qed.
End generated.
