(* ===== verification/NsecCheck.v ===== *)
(** * NsecCheck: the signer's self-check accepts exactly the expected NSEC chain *)

From stdpp Require Import base list strings gmap pretty.
From Stdlib Require Import ZArith Lia Sorted.
From S2P Require Import Prelude Order Names PlainNames DnsZone Nsec NsecSound Wire ZoneModel NsecChain Signatures ZoneModelFacts NsecChainSound ServedZone.
Local Open Scope Z_scope.

Section check_spec.
Context `{DnsLib} (m : zoneModel.t).

Definition owner_of (n : NSEC.t) : string := canonicalName (Hdr.Name (NSEC.Hdr n)).

Lemma index_nsecs_spec nsecs acc :
  match index_nsecs nsecs acc with
  | Ok byOwner => NoDup (map owner_of nsecs) /\ (forall n, n ∈ nsecs -> acc !! owner_of n = None) /\
      (forall o, byOwner !! o = match List.find (fun n => String.eqb (owner_of n) o) nsecs with Some n => Some n | None => acc !! o end)
  | Err _ => ~ (NoDup (map owner_of nsecs) /\ forall n, n ∈ nsecs -> acc !! owner_of n = None)
  end.
Proof.
  revert acc. induction nsecs as [|n nsecs IH]; intros acc; cbn [index_nsecs map List.find].
  { split; [constructor | split; [set_solver | done]]. }
  change (canonicalName (Hdr.Name (NSEC.Hdr n))) with (owner_of n). case_bool_decide as Hin.
  { intros [_ Hall]. rewrite (Hall n) in Hin by (by left). by destruct Hin. }
  apply eq_None_not_Some in Hin. specialize (IH (<[owner_of n := n]> acc)). destruct (index_nsecs nsecs _) as [byOwner|e].
  - destruct IH as (Hd & Hall & Hl).
    assert (forall x, x ∈ nsecs -> owner_of x <> owner_of n) as Hne.
    { intros x Hx Heq. pose proof (Hall x Hx) as Hx'. by rewrite Heq, lookup_insert_eq in Hx'. }
    split; [constructor; [|done]; intros (x & Hx & Hxin)%list_elem_of_fmap; by apply (Hne x)|]. split.
    + intros x [->|Hx]%elem_of_cons; [done|]. pose proof (Hall x Hx) as Hx'. rewrite lookup_insert_ne in Hx'; [done|]. intros Heq. by apply (Hne x).
    + intros o. rewrite Hl. destruct (String.eqb_spec (owner_of n) o) as [<-|Hno].
      * destruct (List.find _ nsecs) as [x|] eqn:Hf; [|by rewrite lookup_insert_eq].
        apply find_some_bool in Hf as [Hx Heq%String.eqb_eq]. by destruct (Hne x).
      * destruct (List.find _ nsecs); [done|]. by rewrite lookup_insert_ne.
  - intros [Hd Hall]. apply IH. cbn in Hd. apply NoDup_cons in Hd as [Hnin Hd]. split; [done|]. intros x Hx.
    rewrite lookup_insert_ne; [apply Hall; by right|]. intros Heq. apply Hnin. rewrite Heq. apply list_elem_of_fmap. by exists x.
Qed.

Lemma check_nsecs_spec expected byOwner i owners :
  check_nsecs m expected byOwner i owners = Ok tt <->
  forall j o, owners !! j = Some o -> exists n, byOwner !! o = Some n /\ canonicalName (NSEC.NextDomain n) = next_of expected (i + j) /\
    sort_slice Z.ltb (NSEC.TypeBitMap n) = denialTypes m o false.
Proof.
  revert i. induction owners as [|o owners IH]; intros i; cbn [check_nsecs]; [by split|].
  assert ((forall j o', (o :: owners) !! j = Some o' -> exists n, byOwner !! o' = Some n /\ canonicalName (NSEC.NextDomain n) = next_of expected (i + j) /\
      sort_slice Z.ltb (NSEC.TypeBitMap n) = denialTypes m o' false) <->
    (exists n, byOwner !! o = Some n /\ canonicalName (NSEC.NextDomain n) = next_of expected i /\ sort_slice Z.ltb (NSEC.TypeBitMap n) = denialTypes m o false) /\
    (forall j o', owners !! j = Some o' -> exists n, byOwner !! o' = Some n /\ canonicalName (NSEC.NextDomain n) = next_of expected (S i + j) /\
      sort_slice Z.ltb (NSEC.TypeBitMap n) = denialTypes m o' false)) as ->.
  { split.
    - intros Hall. split; [pose proof (Hall 0%nat o eq_refl) as Ho; by rewrite Nat.add_0_r in Ho|].
      intros j o' Hj. pose proof (Hall (S j) o' Hj) as Ho. by rewrite <-Nat.add_succ_comm in Ho.
    - intros [Ho Hall] [|j] o' Hj; [injection Hj as <-; by rewrite Nat.add_0_r|]. rewrite <-Nat.add_succ_comm. by apply Hall. }
  rewrite <-IH. destruct (byOwner !! o) as [n|]; [|split; [done | by intros [(? & ? & _) _]]].
  destruct (String.eqb_spec (canonicalName (NSEC.NextDomain n)) (next_of expected i)); cbn [negb]; [|split; [done | naive_solver]].
  unfold compareTypeBitmap. case_bool_decide; cbn [res_bind]; [|split; [done | naive_solver]]. split; [intros ?; split; [by exists n | done] | by intros [_ ?]].
Qed.

Lemma expected_elem o : o ∈ authoritativeOwners m <-> owner_known m o = true.
Proof.
  unfold authoritativeOwners, owner_known. by rewrite (sort_slice_perm canonicalLess), filter_In_bool, elem_of_elements, elem_of_dom, andb_true_iff, bool_decide_eq_true.
Qed.

Lemma expected_NoDup : NoDup (authoritativeOwners m).
Proof. unfold authoritativeOwners. rewrite (sort_slice_perm canonicalLess). apply NoDup_filter_elements. Qed.

Lemma ring_at (l : list string) x y : (x, y) ∈ ring l <-> exists j, l !! j = Some x /\ y = next_of l j.
Proof.
  rewrite <-ring_imap, list_elem_of_lookup. setoid_rewrite list_lookup_imap. split.
  - intros (j & Hj). exists j. destruct (l !! j) as [x'|]; [|done]. injection Hj as -> <-. done.
  - intros (j & Hj & ->). exists j. by rewrite Hj.
Qed.

(** The index of records with different owners finds each of them. *)
Lemma indexed nsecs byOwner : index_nsecs nsecs ∅ = Ok byOwner ->
  NoDup (map owner_of nsecs) /\ forall o n, byOwner !! o = Some n <-> n ∈ nsecs /\ owner_of n = o.
Proof.
  intros Hix. pose proof (index_nsecs_spec nsecs ∅) as Hi. rewrite Hix in Hi. destruct Hi as (Hd & _ & Hl). split; [done|].
  assert (forall o, byOwner !! o = List.find (fun n => String.eqb (owner_of n) o) nsecs) as Hl'.
  { intros o. rewrite Hl. destruct (List.find _ nsecs); [done | apply lookup_empty]. }
  intros o n. rewrite Hl'. split; [by intros [Hx Heq%String.eqb_eq]%find_some_bool|]. intros [Hn <-].
  destruct (List.find _ nsecs) as [x|] eqn:Hf.
  - apply find_some_bool in Hf as [Hx Heq%String.eqb_eq]. f_equal. apply list_elem_of_lookup in Hn as [j Hj], Hx as [k Hk].
    assert (j = k) as ->; [|congruence].
    eapply (NoDup_lookup (map owner_of nsecs)); [done | by rewrite list_lookup_fmap, Hj | rewrite list_lookup_fmap, Hk; cbn; by rewrite Heq].
  - pose proof (find_none_bool _ _ n Hf Hn) as Hb. by apply String.eqb_neq in Hb.
Qed.

(** The two membership tests together: each authoritative owner once. *)
Lemma owners_match nsecs (byOwner : gmap string NSEC.t) :
  NoDup (map owner_of nsecs) -> (forall o n, byOwner !! o = Some n <-> n ∈ nsecs /\ owner_of n = o) ->
  map owner_of nsecs ≡ₚ authoritativeOwners m <->
  (forall o, o ∈ authoritativeOwners m -> is_Some (byOwner !! o)) /\ (forall o, is_Some (byOwner !! o) -> owner_known m o = true).
Proof.
  intros Hd Hby. setoid_rewrite <-expected_elem. assert (forall o, is_Some (byOwner !! o) <-> o ∈ map owner_of nsecs) as Hs.
  { intros o. rewrite list_elem_of_fmap. split; [intros [n [? <-]%Hby]; by exists n | intros (n & -> & Hn); exists n; by apply Hby]. }
  setoid_rewrite Hs. split.
  - intros Hp. split; intros o; by rewrite Hp.
  - intros [H1 H2]. apply NoDup_Permutation; [done | apply expected_NoDup|]. split; auto.
Qed.

(** Every authoritative owner has one record, each pointing at the next owner in
    canonical order (the last at the first) with the types the input dictates. *)
Definition expected_chain (nsecs : list NSEC.t) : Prop :=
  nsecs <> [] /\ map owner_of nsecs ≡ₚ authoritativeOwners m /\
  forall n, n ∈ nsecs -> (owner_of n, canonicalName (NSEC.NextDomain n)) ∈ ring (authoritativeOwners m) /\
    sort_slice Z.ltb (NSEC.TypeBitMap n) = denialTypes m (owner_of n) false.

Lemma nsec_check_spec nsecs : verifyNSECExpectations m nsecs = Ok tt <-> expected_chain nsecs.
Proof.
  unfold verifyNSECExpectations, expected_chain. destruct nsecs as [|n0 nsecs0]; [by split; [|intros []]|]. set (nsecs := n0 :: nsecs0).
  pose proof (index_nsecs_spec nsecs ∅) as Hi. destruct (index_nsecs nsecs ∅) as [byOwner|e] eqn:Hix; cbn [res_bind].
  2: { split; [done|]. intros (_ & Hp & _). destruct Hi. split; [rewrite Hp; apply expected_NoDup | intros; apply lookup_empty]. }
  destruct (indexed nsecs byOwner Hix) as [Hd Hby]. pose proof (owners_match nsecs byOwner Hd Hby) as Hperm.
  destruct (List.find _ (authoritativeOwners m)) as [o|] eqn:Hmiss.
  { apply find_some_bool in Hmiss as [Ho Hno%negb_true_iff%bool_decide_eq_false]. split; [done|]. intros (_ & Hp & _). by destruct Hno; apply Hperm. }
  destruct (List.find _ (elements (dom byOwner))) as [o|] eqn:Hunk.
  { apply find_some_bool in Hunk as [Hin%elem_of_elements%elem_of_dom Hno%negb_true_iff]. split; [done|]. intros (_ & Hp & _).
    rewrite (proj2 (proj1 Hperm Hp) o Hin) in Hno. done. }
  assert (map owner_of nsecs ≡ₚ authoritativeOwners m) as Hp.
  { apply Hperm. split; intros o Ho.
    - pose proof (find_none_bool _ _ o Hmiss Ho) as Hb. by apply negb_false_iff, bool_decide_eq_true in Hb.
    - apply elem_of_dom, elem_of_elements in Ho. pose proof (find_none_bool _ _ o Hunk Ho) as Hb. by apply negb_false_iff in Hb. }
  rewrite check_nsecs_spec. cbn [Nat.add]. split.
  - intros Hall. split; [done|]. split; [done|]. intros n Hn.
    assert (owner_of n ∈ authoritativeOwners m) as [j Hj]%list_elem_of_lookup by (rewrite <-Hp; apply list_elem_of_fmap; by exists n).
    destruct (Hall j _ Hj) as (n' & Hn' & Hnext & Ht). rewrite (proj2 (Hby _ n) (conj Hn eq_refl)) in Hn'. injection Hn' as <-.
    split; [|done]. apply ring_at. by exists j.
  - intros (_ & _ & Hall) j o Hj. pose proof (list_elem_of_lookup_2 _ _ _ Hj) as Ho. rewrite <-Hp in Ho.
    apply list_elem_of_fmap in Ho as (n & -> & Hn). exists n. split; [by apply Hby|]. destruct (Hall n Hn) as [(k & Hk & ->)%ring_at Ht]. split; [|done].
    f_equal. eapply NoDup_lookup; [apply expected_NoDup | done | done].
Qed.
End check_spec.

(** ** The generated chain is the expected one *)

Lemma ring_heads {A} (l : list A) : map fst (ring l) = l.
Proof.
  destruct l as [|h l]; [done|]. cbn [ring]. enough (forall l', map fst (links l' h) = l') as Hl by apply Hl.
  induction l' as [|x [|y l'] IH]; [done..|]. rewrite links_cons. cbn [map]. by rewrite IH.
Qed.

Section generated.
Context `{DnsLib} `{!DnsLibLaws} (domain : string) (records : list RR) (a : name).
Context (Hps : plain_snapshot domain records a) (Hno : no_denial_records records).

(** The owners, whatever their spelling, need no escapes. *)
Definition presentable_owners : Prop := forall rr, rr ∈ records -> exists n, presentable n /\ canon rr = fqdn n.

Lemma owners_canonical o : presentable_owners -> o ∈ authoritativeOwners (newZoneModel domain records) -> canonicalName o = o.
Proof.
  intros Ho (n & -> & (Hn & (rr & Hin & Hrr) & _))%(authoritativeOwners_elem _ _ _ Hps).
  destruct (Ho rr Hin) as (n' & Hn' & Hrr'). rewrite Hrr in Hrr'. rewrite Hrr'. by apply canonicalName_presentable.
Qed.

Lemma nsecs_in_chain ttl l :
  nsecs_in (map (fun link => RR_NSEC (chain_rr domain records ttl link)) l) = map (chain_rr domain records ttl) l.
Proof. unfold nsecs_in. induction l as [|link l IH]; [done|]. cbn. by rewrite IH. Qed.

Lemma generated_chain_expected ttl : presentable_owners -> present records a ->
  expected_chain (newZoneModel domain records) (nsecs_in (generateNSECChain domain records ttl)).
Proof.
  intros Hpo Hap. set (m := newZoneModel domain records). rewrite (generated_ring _ _ _ Hps), nsecs_in_chain by done. fold m.
  assert (forall x y, (x, y) ∈ ring (authoritativeOwners m) -> canonicalName x = x /\ canonicalName y = y) as Hcanon.
  { intros x y [Hx Hy]%ring_elem. split; by apply owners_canonical. }
  split; [|split].
  - assert (fqdn a ∈ authoritativeOwners m) as Ho by (apply (authoritativeOwners_elem _ _ _ Hps); exists a; split; [done | by apply (apex_authoritative domain)]).
    destruct (ring_linked _ _ Ho) as [e He]. intros Heq%(f_equal length). rewrite length_map in Heq. by destruct (ring _); [apply not_elem_of_nil in He|].
  - rewrite map_map. rewrite <-(ring_heads (authoritativeOwners m)) at 2. refine (eq_ind_r (fun l => l ≡ₚ _) _ _); [reflexivity|]. apply map_ext_in.
    intros [x y] Hxy%list_elem_of_In. unfold owner_of. cbn. by apply (Hcanon x y).
  - intros n ([x y] & -> & Hxy)%list_elem_of_fmap. destruct (Hcanon x y Hxy) as [Hx Hy]. unfold owner_of. cbn. rewrite Hx, Hy. split; [done|].
    apply (denialTypes_sorted domain records).
Qed.
End generated.
