(* ===== verification/SignZoneSound.v ===== *)
(** * SignZoneSound: what a signing pass publishes, and that it does

    The zone [prepareSignedZone] hands on has passed its own verification, and what
    it says about itself (digest, TTLs, expiry) is true of it.  With keys that cover
    the published algorithms, the verification never stands in the way. *)

From stdpp Require Import base list strings gmap pretty.
From Stdlib Require Import ZArith Lia Sorted.
From S2P Require Import Prelude Paths GoTime Config ZoneState KeyOps Order Names PlainNames DnsZone Digests Wire Serial KeyMaterial ZoneModel NsecChain Signatures ZoneCheck SignZone ZoneModelFacts SignaturesSound SignSound NsecChainSound ServedZone Nsec3ChainSound NsecCheck.
Local Open Scope Z_scope.

(** ** The earliest expiry *)

Lemma serialTime_nonzero s t : 0 <= unix_seconds t -> 0 < serialTime s t.
Proof.
  unfold serialTime. intros Ht. pose proof (Z.mod_pos_bound (sub32 s (unix32 t) + 2 ^ 31) (2 ^ 32) ltac:(done)) as Hm.
  unfold int32. unfold unix_time, Second. change (2 ^ 31) with 2147483648 in *. lia.
Qed.

Definition expirations (records : list RR) (now : Time) : list Time := map (fun sig => serialTime (RRSIG.Expiration sig) now) (rrsigs_in records).

Lemma earliest_spec records now : 0 <= unix_seconds now ->
  let e := earliestRRSIGExpiration records now in
  (rrsigs_in records = [] -> e = 0) /\ (rrsigs_in records <> [] -> e ∈ expirations records now) /\
  forall x, x ∈ expirations records now -> e <= x.
Proof.
  intros Hnow. cbv zeta. unfold earliestRRSIGExpiration, expirations, rrsigs_in.
  assert (forall acc, 0 <= acc -> let e := fold_left (fun earliest rr => match rr with
     | RR_RRSIG sig => let exp := serialTime (RRSIG.Expiration sig) now in if IsZero earliest || Before exp earliest then exp else earliest
     | _ => earliest end) records acc in
    (acc <> 0 -> e <= acc) /\ (e = acc \/ e ∈ expirations records now) /\ (rrsigs_in records <> [] -> e <> 0) /\ forall x, x ∈ expirations records now -> e <= x) as Hall.
  { unfold expirations, rrsigs_in. induction records as [|rr records IH]; intros acc Hacc; cbn [fold_left omap list_omap]; [set_solver by lia|].
    destruct rr as [sig| | | | | | | | | | | | | | | | ]; try exact (IH acc Hacc). cbn [map].
    pose proof (serialTime_nonzero (RRSIG.Expiration sig) now Hnow) as Hpos. set (x := serialTime (RRSIG.Expiration sig) now) in *.
    unfold IsZero, Before. destruct ((acc =? 0) || (x <? acc)) eqn:Hc.
    - destruct (IH x ltac:(lia)) as (A1 & A2 & A3 & A4). set (e := fold_left _ records x) in *. apply orb_true_iff in Hc.
      split; [intros Hne; destruct Hc as [?%Z.eqb_eq|?%Z.ltb_lt]; [done|]; lia|]. split; [right; rewrite elem_of_cons; destruct A2; [left | right]; done|].
      split; [intros _ He; destruct A2 as [A2|A2]; [lia|]; apply list_elem_of_fmap in A2 as (s & Hs & _); pose proof (serialTime_nonzero (RRSIG.Expiration s) now Hnow); lia|].
      intros y [->|Hy]%elem_of_cons; [lia | by apply A4].
    - apply orb_false_iff in Hc as [Hz%Z.eqb_neq Hlt%Z.ltb_ge]. destruct (IH acc Hacc) as (A1 & A2 & A3 & A4). set (e := fold_left _ records acc) in *.
      split; [done|]. split; [rewrite elem_of_cons; naive_solver|]. specialize (A1 Hz). split; [|intros y [->|Hy]%elem_of_cons; [lia | by apply A4]].
      intros _ He. destruct A2 as [A2|A2]; [lia|]. apply list_elem_of_fmap in A2 as (s & Hs & _). pose proof (serialTime_nonzero (RRSIG.Expiration s) now Hnow). lia. }
  destruct (Hall 0 ltac:(lia)) as (_ & A2 & A3 & A4). unfold expirations, rrsigs_in in *. set (e := fold_left _ records 0) in *. split_and!.
  - intros Hn. destruct A2 as [|A2]; [done|]. by rewrite Hn in A2; apply not_elem_of_nil in A2.
  - intros Hn. destruct A2 as [A2|]; [by apply A3 in Hn | done].
  - exact A4.
Qed.

(** ** TTLs *)

Definition raise_ttl (acc : Z) (rr : RR) : Z := Z.max acc (Hdr.Ttl (Header rr)).

Lemma raise_ttl_fold records acc :
  acc <= fold_left raise_ttl records acc /\ forall rr, rr ∈ records -> Hdr.Ttl (Header rr) <= fold_left raise_ttl records acc.
Proof.
  revert acc. induction records as [|x records IH]; intros acc; cbn [fold_left]; [split; [lia | set_solver]|].
  destruct (IH (raise_ttl acc x)) as [I1 I2]. unfold raise_ttl at 1 in I1. split; [lia|]. intros y [->|Hy]%elem_of_cons; [lia | by apply I2].
Qed.

Lemma max_ttl_raise records : max_ttl records = fold_left raise_ttl records 0.
Proof.
  unfold max_ttl. generalize 0. induction records as [|x records IH]; intros acc; cbn [fold_left]; [done|]. rewrite IH. f_equal. unfold raise_ttl. cbv zeta.
  destruct (Z.ltb_spec acc (Hdr.Ttl (Header x))); lia.
Qed.

Lemma max_ttl_spec records rr : rr ∈ records -> Hdr.Ttl (Header rr) <= max_ttl records.
Proof. rewrite max_ttl_raise. apply raise_ttl_fold. Qed.

Lemma max_ttl_nonneg records : 0 <= max_ttl records.
Proof. rewrite max_ttl_raise. apply raise_ttl_fold. Qed.

(** Only the serial of the first SOA changes: no header does. *)
Lemma setSOASerial_headers records serial : map Header (setSOASerial records serial) = map Header records.
Proof. induction records as [|rr records IH]; [done|]. by destruct rr; cbn; rewrite ?IH. Qed.

Section pass.
Context `{DnsLib} `{WireLib} `{CryptoLib} `{HashLib} `{SignLib} `{ZoneFileLib} (cfg : Config).
Implicit Types (keys : signingKeys.t) (snap : sourceSnapshot.t) (clock : SignClock.t).

(** The values of a pass: the records with the published serial, the TTL given to
    the keys, and the input snapshot the denial chain and the signatures are for. *)
Definition pass_records snap (published : Z) : list RR :=
  if negb (published =? sourceSnapshot.serial snap) then setSOASerial (sourceSnapshot.records snap) published else sourceSnapshot.records snap.
Definition pass_dnskey_ttl snap (published : Z) : Z :=
  if cfg_DNSKEYTtl (DNSSEC cfg) =? 0 then getSOATTL (pass_records snap published) else cfg_DNSKEYTtl (DNSSEC cfg).
Definition pass_keys snap (published : Z) keys : signingKeys.t := with_ttl (pass_dnskey_ttl snap published) keys.
Definition pass_input snap (published : Z) keys : list RR :=
  pass_records snap published ++ map RR_DNSKEY (signingKeys.dnskeys (pass_keys snap published keys)).
Definition pass_unsigned (domain : string) snap (published : Z) keys : list RR :=
  let input := pass_input snap published keys in
  input ++ denial_chain cfg (newZoneModel domain input) input (getSOAMinimumTTL (pass_records snap published)).
Definition pass_max_ttl snap (published : Z) : Z :=
  Z.max (Z.max (max_ttl (sourceSnapshot.records snap)) (getSOAMinimumTTL (pass_records snap published))) (pass_dnskey_ttl snap published).

Lemma if_max a b : (if a <? b then b else a) = Z.max a b.
Proof. destruct (Z.ltb_spec a b); lia. Qed.

(** A pass that hands on a zone went through each of its steps. *)
Lemma prepare_inv domain z keys path r clock res :
  prepareSignedZone cfg domain z keys path r clock = Ok res <->
  exists snap published signed,
    readSourceSnapshot domain path r = Ok snap /\
    publishedSerial cfg domain (sourceSnapshot.serial snap) z (SignClock.serial_now clock) = Ok published /\
    let input := pass_input snap published keys in
    let model := newZoneModel domain input in
    signRecordsWithModel cfg model domain (pass_unsigned domain snap published keys) (pass_keys snap published keys) (SignClock.sign_now clock) = Ok signed /\
    verifySignedZoneWithModel cfg model input signed (pass_keys snap published keys) (SignClock.verify_now clock) = Ok tt /\
    earliestRRSIGExpiration signed (SignClock.expiration_now clock) <> 0 /\
    res = signedZone.mk signed (sourceSnapshot.serial snap) published path (sourceSnapshot.modTime snap) (sourceSnapshot.size snap)
      (sourceSnapshot.digest snap) (pass_dnskey_ttl snap published) (pass_max_ttl snap published)
      (earliestRRSIGExpiration signed (SignClock.expiration_now clock)).
Proof.
  unfold prepareSignedZone. destruct (readSourceSnapshot domain path r) as [snap|]; [|by split; [|intros (? & ? & ? & ? & _)]].
  destruct (publishedSerial _ _ _ _ _) as [published|] eqn:Hpub; cbn [res_bind];
    [|split; [done|]; intros (? & ? & ? & [= <-] & Hp & _); by rewrite Hpub in Hp].
  set (m1 := if _ <? getSOAMinimumTTL _ then _ else _). set (m2 := if m1 <? _ then _ else m1).
  assert (m2 = pass_max_ttl snap published) as Hm2.
  { unfold m2, m1. by rewrite !if_max. }
  rewrite Hm2. clear Hm2 m2 m1.
  match goal with |- context [signRecordsWithModel cfg ?m domain ?rrs ?ks ?n] =>
    change (signRecordsWithModel cfg m domain rrs ks n) with (signRecordsWithModel cfg (newZoneModel domain (pass_input snap published keys)) domain
      (pass_unsigned domain snap published keys) (pass_keys snap published keys) n) end.
  destruct (signRecordsWithModel _ _ _ _ _ _) as [signed|] eqn:Hs.
  2: { split; [done|]. intros (s & p & sg & [= <-] & Hp & Hs' & _). rewrite Hpub in Hp; injection Hp as <-; cbv zeta in Hs'; rewrite Hs in Hs'. done. }
  match goal with |- context [verifySignedZoneWithModel cfg ?m ?i signed ?ks ?n] =>
    change (verifySignedZoneWithModel cfg m i signed ks n) with (verifySignedZoneWithModel cfg (newZoneModel domain (pass_input snap published keys))
      (pass_input snap published keys) signed (pass_keys snap published keys) n) end.
  destruct (verifySignedZoneWithModel _ _ _ signed _ _) as [[]|] eqn:Hv.
  2: { split; [done|]. intros (s & p & sg & [= <-] & Hp & Hs' & Hv' & _). rewrite Hpub in Hp; injection Hp as <-; cbv zeta in Hs'; rewrite Hs in Hs'. injection Hs' as <-. cbv zeta in Hv'; rewrite Hv in Hv'. done. }
  unfold IsZero. destruct (Z.eqb_spec (earliestRRSIGExpiration signed (SignClock.expiration_now clock)) 0) as [He|He].
  - split; [done|]. intros (s & p & sg & [= <-] & Hp & Hs' & _ & Hne & _). rewrite Hpub in Hp; injection Hp as <-; cbv zeta in Hs'; rewrite Hs in Hs'. injection Hs' as <-. done.
  - split.
    + intros [= <-]. exists snap, published, signed. by split_and!.
    + intros (s & p & sg & [= <-] & Hp & Hs' & _ & _ & ->). rewrite Hpub in Hp; injection Hp as <-; cbv zeta in Hs'; rewrite Hs in Hs'. by injection Hs' as <-.
Qed.

Lemma imap_elem {A B} (f : nat -> A -> B) (l : list A) y : y ∈ imap f l -> exists i x, y = f i x.
Proof. rewrite list_elem_of_lookup. intros (i & Hi). rewrite list_lookup_imap in Hi. destruct (l !! i) as [x|]; [|done]. injection Hi as <-. eauto. Qed.

Lemma denial_chain_ttl m records ttl rr : rr ∈ denial_chain cfg m records ttl -> Hdr.Ttl (Header rr) = ttl \/ Hdr.Ttl (Header rr) = 0.
Proof.
  unfold denial_chain. case_match.
  - unfold generateNSEC3ChainWithModel. intros [->|(i & x & ->)%imap_elem]%elem_of_cons; [by right | by left].
  - intros (i & x & ->)%imap_elem. by left.
Qed.

(** No record of the pass has a TTL above the one recorded. *)
Lemma pass_ttl domain snap published keys rr :
  rr ∈ pass_unsigned domain snap published keys -> Hdr.Ttl (Header rr) <= pass_max_ttl snap published.
Proof.
  unfold pass_unsigned, pass_input, pass_max_ttl. pose proof (max_ttl_nonneg (sourceSnapshot.records snap)) as H0'.
  intros [[Hr|Hr]%elem_of_app|Hr]%elem_of_app.
  - assert (exists rr', rr' ∈ sourceSnapshot.records snap /\ Header rr' = Header rr) as (rr' & Hr' & <-).
    { unfold pass_records in Hr. destruct (negb _); [|by exists rr]. assert (Header rr ∈ map Header (setSOASerial (sourceSnapshot.records snap) published)) as Hh.
      { apply list_elem_of_fmap. by exists rr. } rewrite setSOASerial_headers in Hh. apply list_elem_of_fmap in Hh as (x & ? & ?). by exists x. }
    pose proof (max_ttl_spec _ _ Hr'). lia.
  - apply list_elem_of_fmap in Hr as (k & -> & Hk). unfold pass_keys, with_ttl in Hk. cbn in Hk. apply list_elem_of_fmap in Hk as (k' & -> & _).
    cbn. lia.
  - apply denial_chain_ttl in Hr. lia.
Qed.

(** The header a signature takes its TTL from is one of its RRset. *)
Lemma first_header_of records k : rrset_of records k <> [] ->
  exists rr, rr ∈ records /\ Hdr.Ttl (first_header (canonicalRRset (rrset_of records k))) = Hdr.Ttl (Header rr).
Proof.
  destruct (rrset_of records k) as [|rr l] eqn:Hr; [done|]. intros _. exists rr. split; [|by destruct rr].
  apply (rrset_of_elem records k). rewrite Hr. by left.
Qed.

(** The records the signer makes itself, which it does not take from a source. *)
Definition signer_made (domain : string) (rr : RR) : Prop :=
  rr_type rr ∈ [TypeRRSIG; TypeNSEC; TypeNSEC3; TypeNSEC3PARAM] \/ rr_type rr = TypeDNSKEY /\ canon rr = canonicalName domain.
#[global] Instance signer_made_dec domain rr : Decision (signer_made domain rr).
Proof. unfold signer_made. apply _. Defined.

(** The denial records of the configured mode, and no others: the NSEC chain, or the
    NSEC3 chain, that the input dictates. *)
Definition denial_rules m (signed : list RR) : Prop :=
  if String.eqb (cfg_NSECVersion (DNSSEC cfg)) "nsec3" then
    nsecs_in signed = [] /\
    exists hs, expected_chain3 m (uint16_mod (cfg_NSEC3Iterations (DNSSEC cfg))) (normSalt (cfg_NSEC3Salt (DNSSEC cfg)))
      (nsec3s_in signed) (nsec3params_in signed) hs
  else nsec3s_in signed = [] /\ nsec3params_in signed = [] /\ expected_chain m (nsecs_in signed).

Lemma denial_ok_rules m signed : denial_ok cfg m signed <-> denial_rules m signed.
Proof. unfold denial_ok, denial_rules. case_match; [by rewrite nsec3_check_spec | by rewrite nsec_check_spec]. Qed.

(** What a zone that is handed on says about itself.  Its records are those the
    source [data] parses to, without the ones the signer makes itself and with the
    published serial in the SOA, then the DNSKEYs, then what signing adds. *)
Record publication_ok (domain path : string) (keys : signingKeys.t) (clock : SignClock.t) (data : string) (res : signedZone.t) : Prop := {
  po_digest : signedZone.srcDigest res = hex_encode (Sum256 (bytes_of_string data));
  po_signed : exists parsed records input, ParseZone data (Fqdn domain) path = (parsed, None) /\
    records = base.filter (fun rr => ~ signer_made domain rr) parsed /\ signedZone.serial res = soa_serial parsed /\
    zone_rules domain records /\
    input = (if negb (signedZone.published res =? signedZone.serial res) then setSOASerial records (signedZone.published res) else records)
      ++ map RR_DNSKEY (map (set_ttl (signedZone.dnskeyTTL res)) (signingKeys.dnskeys keys)) /\
    input `prefix_of` signedZone.records res /\
    signed_zone_ok cfg (newZoneModel domain input) input (signedZone.records res) (with_ttl (signedZone.dnskeyTTL res) keys) (SignClock.verify_now clock) /\
    denial_rules (newZoneModel domain input) (signedZone.records res);
  po_ttl : forall rr, rr ∈ signedZone.records res -> Hdr.Ttl (Header rr) <= signedZone.maxRRSIGTTL res;
  po_expiry : forall sig, RR_RRSIG sig ∈ signedZone.records res ->
    signedZone.sigExpiration res <= serialTime (RRSIG.Expiration sig) (SignClock.expiration_now clock);
  po_some : exists sig, RR_RRSIG sig ∈ signedZone.records res
}.

Lemma stripped_made domain rr : stripped (canonicalName domain) rr = true <-> signer_made domain rr.
Proof.
  unfold stripped, signer_made. fold (canon rr). rewrite !elem_of_cons, elem_of_nil.
  destruct (Z.eqb_spec (rr_type rr) TypeRRSIG), (Z.eqb_spec (rr_type rr) TypeNSEC), (Z.eqb_spec (rr_type rr) TypeNSEC3),
    (Z.eqb_spec (rr_type rr) TypeNSEC3PARAM); cbv [orb]; try (split; [intros _; tauto|done]).
  rewrite andb_true_iff, Z.eqb_eq, String.eqb_eq. tauto.
Qed.

Lemma strip_filter domain records : stripInputDNSSEC domain records = base.filter (fun rr => ~ signer_made domain rr) records.
Proof.
  unfold stripInputDNSSEC. induction records as [|rr records IH]; [done|]. cbn [List.filter]. rewrite filter_cons, <-IH.
  destruct (stripped (canonicalName domain) rr) eqn:Hs; cbn [negb].
  - apply stripped_made in Hs. by rewrite decide_False by tauto.
  - rewrite decide_True; [done|]. intros Hm%stripped_made. congruence.
Qed.

Lemma prepare_sound `{!SignLaws} domain z keys path r clock res :
  0 <= unix_seconds (SignClock.expiration_now clock) ->
  prepareSignedZone cfg domain z keys path r clock = Ok res ->
  exists data info, readSourceBytes path r = Ok (data, info) /\ publication_ok domain path keys clock data res.
Proof.
  intros Hnow (snap & published & signed & Hsnap & Hpub & Hsign & Hver & Hne & ->)%prepare_inv. cbv zeta in *.
  unfold readSourceSnapshot in Hsnap. destruct (readSourceBytes path r) as [[data info]|]; cbn [res_bind] in Hsnap; [|done].
  destruct (parseZoneRecords domain path data) as [[parsed serial]|] eqn:Hparse; cbn [res_bind] in Hsnap; [|done].
  destruct (validateZoneRecords domain _) as [[]|] eqn:Hval; [|done]. injection Hsnap as <-.
  exists data, info. split; [done|]. apply verify_zone_spec in Hver. apply validate_zone_spec in Hval.
  assert (ParseZone data (Fqdn domain) path = (parsed, None) /\ serial = soa_serial parsed) as [Hpz ->].
  { unfold parseZoneRecords in Hparse. repeat (case_match; try done). by injection Hparse as -> ->. }
  destruct (earliest_spec signed (SignClock.expiration_now clock) Hnow) as (E1 & E2 & E3). constructor; cbn; [done| | | |].
  - eexists parsed, _, _. split; [exact Hpz|]. split; [apply strip_filter|]. split; [done|]. split; [exact Hval|]. split; [reflexivity|].
    split; [|split; [exact Hver | apply denial_ok_rules, Hver]].
    apply sign_records_spec in Hsign as (l & -> & _). unfold pass_unsigned. rewrite <-app_assoc. by apply prefix_app_r.
  - apply sign_records_spec in Hsign as (l & -> & Hfrom & _). intros rr [Hrr|(sig & -> & Hs)%list_elem_of_fmap]%elem_of_app; [by eapply pass_ttl|].
    destruct (Hfrom sig Hs) as (k & kp & Hne' & _ & _ & Hm). apply made_labels in Hm as (_ & signer & _ & Hsg). apply Sign_fields in Hsg as (_ & _ & Httl & _).
    cbn in Httl. destruct (first_header_of _ k Hne') as (rr' & Hrr' & Heq). cbn [Header]. rewrite Httl, Heq. by eapply pass_ttl.
  - intros sig Hs. apply E3, list_elem_of_fmap. exists sig. split; [done | by apply rrsigs_in_elem].
  - destruct (rrsigs_in signed) as [|sig l] eqn:Hl; [by rewrite E1 in Hne|]. exists sig. apply rrsigs_in_elem. rewrite Hl. by left.
Qed.
End pass.

(** ** The self-verification does not stand in the way *)

(** The record's kind is that of its header, as the library parses it. *)
Definition typed (rr : RR) : Prop :=
  match rr with
  | RR_RRSIG _ => rr_type rr = TypeRRSIG
  | RR_NSEC _ => rr_type rr = TypeNSEC
  | RR_NSEC3 _ => rr_type rr = TypeNSEC3
  | RR_NSEC3PARAM _ => rr_type rr = TypeNSEC3PARAM
  | _ => True
  end.

Section complete.
Context `{DnsLib} `{!DnsLibLaws} `{WireLib} `{CryptoLib} `{HashLib} `{!HashLaws} `{SignLib} `{!SignLaws} `{ZoneFileLib} (cfg : Config).
Implicit Types (keys : signingKeys.t) (snap : sourceSnapshot.t) (clock : SignClock.t).
Local Abbreviation iterations := (uint16_mod (cfg_NSEC3Iterations (DNSSEC cfg))).
Local Abbreviation salt := (cfg_NSEC3Salt (DNSSEC cfg)).

Lemma snapshot_records domain path r snap : readSourceSnapshot domain path r = Ok snap ->
  zone_rules domain (sourceSnapshot.records snap) /\
  forall rr, rr ∈ sourceSnapshot.records snap -> stripped (canonicalName domain) rr = false.
Proof.
  unfold readSourceSnapshot. destruct (readSourceBytes path r) as [[data info]|]; cbn [res_bind]; [|done].
  destruct (parseZoneRecords domain path data) as [[parsed serial]|]; cbn [res_bind]; [|done].
  destruct (validateZoneRecords domain _) as [[]|] eqn:Hval; [|done]. intros [= <-]. apply validate_zone_spec in Hval. split; [exact Hval|].
  cbn. unfold stripInputDNSSEC. intros rr [_ Hs]%filter_In_bool. by apply negb_true_iff in Hs.
Qed.

(** The zone is below the root and in class IN; its owners need no escapes; the
    keys belong to it; with NSEC3, no two names collide. *)
Record zone_fits (domain : string) (a : name) keys snap (published : Z) : Prop := {
  zf_apex : canonicalName domain = fqdn a;
  zf_apex_name : presentable a /\ a <> [];
  zf_owners : presentable_owners (sourceSnapshot.records snap);
  zf_records : forall rr, rr ∈ sourceSnapshot.records snap -> typed rr /\ Hdr.Class_ (Header rr) = 1;
  zf_keys : complete_keys domain (pass_keys cfg snap published keys);
  zf_key_owner : forall k, k ∈ signingKeys.dnskeys keys ->
    canonicalName (Hdr.Name (DNSKEY.Hdr k)) = fqdn a /\ Hdr.Rrtype (DNSKEY.Hdr k) = TypeDNSKEY /\ Hdr.Class_ (DNSKEY.Hdr k) = 1;
  zf_hashes : cfg_NSECVersion (DNSSEC cfg) = "nsec3" -> distinct_hashes domain (pass_input cfg snap published keys) iterations salt
}.

Section fits.
Context (domain path : string) (r : SourceRead.t) (a : name) keys snap (published : Z).
Context (Hsnap : readSourceSnapshot domain path r = Ok snap) (Hfits : zone_fits domain a keys snap published).
Local Abbreviation input := (pass_input cfg snap published keys).
Local Abbreviation m := (newZoneModel domain input).

Lemma apex_plain : plain_name a.
Proof. apply presentable_plain, Hfits. Qed.

(** A record of the input is one of the source (the serial may be new) or a key. *)
Lemma input_cases rr : rr ∈ input ->
  (exists rr', rr' ∈ sourceSnapshot.records snap /\ Header rr = Header rr' /\ (typed rr' -> typed rr)) \/
  (exists k, rr = RR_DNSKEY (set_ttl (pass_dnskey_ttl cfg snap published) k) /\ k ∈ signingKeys.dnskeys keys).
Proof.
  unfold pass_input. intros [Hr|Hr]%elem_of_app.
  - left. unfold pass_records in Hr. destruct (negb _); [|by exists rr].
    revert Hr. induction (sourceSnapshot.records snap) as [|x l IH]; cbn; [set_solver|].
    destruct x; intros [->|Hr]%elem_of_cons; try (eexists; split; [by left | done]); try (destruct (IH Hr) as (y & Hy & ?); exists y; split; [by right | done]).
    eexists; split; [by right | done].
  - right. apply list_elem_of_fmap in Hr as (k & -> & Hk). cbn in Hk. apply list_elem_of_fmap in Hk as (k' & -> & Hk'). by exists k'.
Qed.

Lemma input_owner rr : rr ∈ input -> exists n, presentable n /\ a `suffix_of` n /\ canon rr = fqdn n.
Proof.
  intros [(rr' & Hin & Heq & _)|(k & -> & Hk)]%input_cases.
  - assert (canon rr = canon rr') as -> by (unfold canon, rr_name; by rewrite Heq).
    destruct (zf_owners _ _ _ _ _ Hfits rr' Hin) as (n & Hn & Hrr). exists n. split_and!; try done.
    pose proof (zr_within _ _ (proj1 (snapshot_records _ _ _ _ Hsnap)) rr' Hin) as Hw. rewrite Hrr, (zf_apex _ _ _ _ _ Hfits) in Hw.
    by rewrite !SplitDomainName_plain in Hw by (apply apex_plain || by apply presentable_plain).
  - exists a. split; [apply Hfits|]. split; [done|]. by apply (zf_key_owner _ _ _ _ _ Hfits k).
Qed.

Lemma input_snapshot : plain_snapshot domain input a.
Proof.
  constructor; [apply Hfits | apply apex_plain|]. intros rr Hrr. destruct (input_owner rr Hrr) as (n & Hn & Hs & Hc).
  exists n. split; [by apply presentable_plain|]. done.
Qed.

Lemma input_record rr : rr ∈ input -> typed rr /\ Hdr.Class_ (Header rr) = 1 /\
  rr_type rr <> TypeRRSIG /\ rr_type rr <> TypeNSEC /\ rr_type rr <> TypeNSEC3 /\ rr_type rr <> TypeNSEC3PARAM.
Proof.
  intros [(rr' & Hin & Heq & Ht)|(k & -> & Hk)]%input_cases.
  - destruct (zf_records _ _ _ _ _ Hfits rr' Hin) as [Htyp Hc]. split; [by apply Ht|]. unfold rr_type. rewrite Heq. split; [done|].
    pose proof (proj2 (snapshot_records _ _ _ _ Hsnap) rr' Hin) as Hs. unfold stripped in Hs. fold (rr_type rr').
    destruct (Z.eqb_spec (rr_type rr') TypeRRSIG), (Z.eqb_spec (rr_type rr') TypeNSEC), (Z.eqb_spec (rr_type rr') TypeNSEC3),
      (Z.eqb_spec (rr_type rr') TypeNSEC3PARAM); done.
  - destruct (zf_key_owner _ _ _ _ _ Hfits k Hk) as (_ & Ht & Hc). split; [done|]. split; [done|]. unfold rr_type. cbn. by rewrite Ht.
Qed.

Lemma input_no_denial : no_denial_records input.
Proof. intros rr Hrr. by destruct (input_record rr Hrr) as (_ & _ & ? & ? & _). Qed.

Lemma input_presentable : presentable_owners input.
Proof. intros rr Hrr. destruct (input_owner rr Hrr) as (n & ? & _ & ?). by exists n. Qed.

Lemma input_apex : present input a.
Proof.
  pose proof (zr_soa _ _ (proj1 (snapshot_records _ _ _ _ Hsnap))) as Hs.
  destruct (proj1 (count_at_pos (sourceSnapshot.records snap) (canonicalName domain) TypeSOA)) as (rr & Hin & Hn & Ht); [lia|].
  rewrite (zf_apex _ _ _ _ _ Hfits) in Hn. unfold pass_input, pass_records. destruct (negb _); [|exists rr; split; [by apply elem_of_app; left | done]].
  assert (Header rr ∈ map Header (setSOASerial (sourceSnapshot.records snap) published)) as Hh.
  { rewrite setSOASerial_headers. apply list_elem_of_fmap. by exists rr. }
  apply list_elem_of_fmap in Hh as (x & Hx & Hxin). exists x. split; [by apply elem_of_app; left|]. unfold canon, rr_name in *. by rewrite <-Hx.
Qed.

Lemma apex_canonical : canonicalName (fqdn a) = fqdn a.
Proof. apply canonicalName_presentable, Hfits. Qed.

(** None of the four types the signer makes is in the input. *)
Lemma input_made : rrsigs_in input = [] /\ nsecs_in input = [] /\ nsec3s_in input = [] /\ nsec3params_in input = [].
Proof.
  pose proof input_record as Hr. revert Hr. generalize input as l. induction l as [|rr l IH]; intros Hr; [done|].
  destruct (Hr rr) as (Ht & _ & N1 & N2 & N3 & N4); [by left|]. destruct IH as (I1 & I2 & I3 & I4); [intros x Hx; apply Hr; by right|].
  destruct rr; cbn in *; done.
Qed.

Local Abbreviation chain := (denial_chain cfg m input (getSOAMinimumTTL (pass_records snap published))).

Lemma chain_records : (forall rr, rr ∈ chain -> Hdr.Class_ (Header rr) = 1 /\ canonicalName (canon rr) = canon rr) /\ rrsigs_in chain = [].
Proof.
  unfold denial_chain. destruct (String.eqb_spec (cfg_NSECVersion (DNSSEC cfg)) "nsec3") as [Hv|_].
  - change (generateNSEC3ChainWithModel iterations salt m input ?t) with (generateNSEC3Chain iterations salt domain input t).
    pose proof (zf_hashes _ _ _ _ _ Hfits Hv) as Hh. rewrite (generated3 _ _ _ input_snapshot apex_canonical _ _ Hh). split.
    + intros rr [->|Hrr]%elem_of_cons.
      { cbn. unfold canon. cbn. rewrite (apex_fqdn _ _ _ input_snapshot). by rewrite !apex_canonical. }
      apply list_elem_of_lookup in Hrr as (i & Hi). rewrite list_lookup_imap in Hi.
      destruct (expected_hashes m iterations (normSalt salt) !! i) as [e|] eqn:He; [|done]. injection Hi as <-. split; [done|].
      apply list_elem_of_lookup_2, (expected_entry _ _ _ _ Hh) in He as [He Heq]. unfold canon. cbn. rewrite (apex_fqdn _ _ _ input_snapshot), Heq.
      destruct (hashed_owner e.1 SHA1 iterations salt a) as (n' & Hn' & ->); [by apply Hh | apply Hfits | apply Hfits |].
      by apply canonicalName_presentable.
    + unfold rrsigs_in. cbn. generalize (expected_hashes m iterations (normSalt salt)). intros l.
      enough (forall (g : nat -> nat), omap (fun rr => match rr with RR_RRSIG sig => Some sig | _ => None end)
        (imap (fun i hn => RR_NSEC3 (chain3_rr domain input iterations salt (getSOAMinimumTTL (pass_records snap published)) (g i) hn)) l) = []) as Hx by exact (Hx (fun i => i)).
      induction l as [|e l IH]; intros g; [done|]. cbn. exact (IH (fun i => g (S i))).
  - change (generateNSECChainWithModel m input ?t) with (generateNSECChain domain input t). rewrite (generated_ring _ _ _ input_snapshot) by apply input_no_denial. split.
    + intros rr ([x y] & -> & [Hx _]%ring_elem)%list_elem_of_fmap. split; [done|]. unfold canon. cbn.
      by rewrite !(owners_canonical _ _ _ input_snapshot _ input_presentable Hx).
    + generalize (ring (authoritativeOwners m)) as l. induction l as [|e l IH]; [done|]. exact IH.
Qed.

Lemma sigs_made l : nsecs_in (map RR_RRSIG l) = [] /\ nsec3s_in (map RR_RRSIG l) = [] /\ nsec3params_in (map RR_RRSIG l) = [].
Proof. induction l as [|s l IH]; [done | exact IH]. Qed.

Lemma ring_made ttl l : nsec3s_in (map (fun link => RR_NSEC (chain_rr domain input ttl link)) l) = [] /\
  nsec3params_in (map (fun link => RR_NSEC (chain_rr domain input ttl link)) l) = [].
Proof. induction l as [|s l IH]; [done | exact IH]. Qed.

Lemma denial_made l : denial_ok cfg m ((input ++ chain) ++ map RR_RRSIG l).
Proof.
  destruct input_made as (_ & I1 & I2 & I3), (sigs_made l) as (S1 & S2 & S3). unfold denial_ok.
  assert (nsecs_in ((input ++ chain) ++ map RR_RRSIG l) = nsecs_in chain /\ nsec3s_in ((input ++ chain) ++ map RR_RRSIG l) = nsec3s_in chain /\
    nsec3params_in ((input ++ chain) ++ map RR_RRSIG l) = nsec3params_in chain) as (-> & -> & ->).
  { unfold nsecs_in, nsec3s_in, nsec3params_in in *. rewrite !omap_app, I1, I2, I3, S1, S2, S3, !app_nil_r. done. }
  unfold denial_chain. destruct (String.eqb_spec (cfg_NSECVersion (DNSSEC cfg)) "nsec3") as [Hv|_].
  - change (generateNSEC3ChainWithModel iterations salt m input ?t) with (generateNSEC3Chain iterations salt domain input t).
    destruct (generated_chain3 _ _ _ input_snapshot apex_canonical (proj2 (zf_apex_name _ _ _ _ _ Hfits)) input_no_denial input_apex _ _
      (zf_hashes _ _ _ _ _ Hfits Hv) (getSOAMinimumTTL (pass_records snap published))) as [Hc Hn].
    split; [exact Hn|]. apply nsec3_check_spec. eexists. exact Hc.
  - change (generateNSECChainWithModel m input ?t) with (generateNSECChain domain input t). split_and!.
    + rewrite (generated_ring _ _ _ input_snapshot) by apply input_no_denial. apply ring_made.
    + rewrite (generated_ring _ _ _ input_snapshot) by apply input_no_denial. apply ring_made.
    + apply nsec_check_spec, (generated_chain_expected _ _ _ input_snapshot input_no_denial); [apply input_presentable | apply input_apex].
Qed.

Lemma pass_unsigned_records : unsigned_records (pass_unsigned cfg domain snap published keys).
Proof.
  destruct chain_records as [Hc Hs], input_made as (I1 & _). split.
  - unfold pass_unsigned, rrsigs_in in *. by rewrite omap_app, I1, Hs.
  - intros rr [Hrr|Hrr]%elem_of_app; [|by apply Hc]. split; [by apply input_record|].
    destruct (input_owner rr Hrr) as (n & Hn & _ & ->). by apply canonicalName_presentable.
Qed.

Lemma filter_length_app {A} (f : A -> bool) (l l' : list A) : (length (List.filter f l) <= length (List.filter f (l ++ l')))%nat.
Proof. rewrite List.filter_app, length_app. lia. Qed.

Context (z : ZoneState.t) clock (Hpub : publishedSerial cfg domain (sourceSnapshot.serial snap) z (SignClock.serial_now clock) = Ok published).
Context (Htimes : pass_times (cfg_SignatureValidity (DNSSEC cfg)) (SignClock.sign_now clock) (SignClock.verify_now clock)).
Context (Hlate : 0 <= unix_seconds (SignClock.expiration_now clock)).

(** The DNSKEY RRset is signed, so there is an RRSIG. *)
Lemma dnskey_signed l :
  (forall k kp, rrset_of (pass_unsigned cfg domain snap published keys) k <> [] -> signable m k.1 k.2 = true -> kp ∈ signers (pass_keys cfg snap published keys) k ->
    exists sig, sig ∈ l /\ made m (pass_keys cfg snap published keys) domain (TAdd (SignClock.sign_now clock) (- SignatureInceptionBackdate))
      (TAdd (SignClock.sign_now clock) (cfg_SignatureValidity (DNSSEC cfg))) (pass_unsigned cfg domain snap published keys) k kp sig) ->
  exists sig, sig ∈ rrsigs_in (pass_unsigned cfg domain snap published keys ++ map RR_RRSIG l).
Proof.
  intros Hto. pose proof (zf_keys _ _ _ _ _ Hfits) as Hk. set (k := (fqdn a, TypeDNSKEY)).
  destruct (signingKeys.dnskeys (pass_keys cfg snap published keys)) as [|dk dks] eqn:Hdk; [by destruct (ck_some _ _ Hk)|].
  destruct (ck_algorithms _ _ Hk k dk) as (kp & Hkp & _); [rewrite Hdk; by left|].
  assert (exists k0, dk = set_ttl (pass_dnskey_ttl cfg snap published) k0 /\ k0 ∈ signingKeys.dnskeys keys) as (k0 & -> & Hk0).
  { assert (dk ∈ map (set_ttl (pass_dnskey_ttl cfg snap published)) (signingKeys.dnskeys keys)) as Hin by (change (dk ∈ signingKeys.dnskeys (pass_keys cfg snap published keys)); rewrite Hdk; by left).
    apply list_elem_of_fmap in Hin as (k0 & ? & ?). by exists k0. }
  destruct (Hto k kp) as (sig & Hsig & _); [| |done|].
  - intros Hnil. destruct (zf_key_owner _ _ _ _ _ Hfits k0 Hk0) as (Ho & Ht & _).
    assert (RR_DNSKEY (set_ttl (pass_dnskey_ttl cfg snap published) k0) ∈ rrset_of (pass_unsigned cfg domain snap published keys) k) as Hin.
    { apply rrset_of_elem. split.
      - unfold pass_unsigned, pass_input. rewrite !elem_of_app. left. right. rewrite Hdk. by left.
      - cbn. apply bool_decide_eq_true. unfold rr_name, rr_type. cbn. by rewrite Ho, Ht. }
    rewrite Hnil in Hin. by apply not_elem_of_nil in Hin.
  - unfold signable, k. cbn [fst snd]. assert (isOccluded m (fqdn a) = false) as ->.
    { apply (owner_unoccluded _ _ _ input_snapshot). exists a. split; [done | by apply (apex_authoritative _ _ _ input_snapshot), input_apex]. }
    destruct (isDelegation m (fqdn a)) eqn:Hd; [|done]. apply (delegation_plain _ _ _ input_snapshot) in Hd as [? _]; [done | apply apex_plain].
  - exists sig. apply rrsigs_in_elem, sigs_of_signed. by right.
Qed.

(** Only the library's refusal to sign can end such a pass. *)
Lemma prepare_complete : match signRecordsWithModel cfg m domain (pass_unsigned cfg domain snap published keys) (pass_keys cfg snap published keys) (SignClock.sign_now clock) with
  | Ok signed => exists res, prepareSignedZone cfg domain z keys path r clock = Ok res /\ signedZone.records res = signed
  | Err err => prepareSignedZone cfg domain z keys path r clock = Err (Sprintf "signing records: %w" [err])
  end.
Proof.
  destruct (signRecordsWithModel _ _ _ _ _ _) as [signed|err] eqn:Hs.
  - pose proof Hs as Hs'. apply sign_records_spec in Hs' as (l & Hl & _ & Hto).
    eexists. split; [apply prepare_inv; exists snap, published, signed; cbv zeta; split_and!; try done|done].
    + eapply signed_verifies; [exact Hs | apply Hfits | apply pass_unsigned_records | exact Htimes | intros k; apply filter_length_app|].
      rewrite Hl. apply denial_made.
    + destruct (earliest_spec signed (SignClock.expiration_now clock) Hlate) as (_ & E2 & _).
      destruct (dnskey_signed l) as [sig Hsig]; [exact Hto|]. rewrite <-Hl in Hsig.
      assert (earliestRRSIGExpiration signed (SignClock.expiration_now clock) ∈ expirations signed (SignClock.expiration_now clock)) as He.
      { apply E2. intros Hn. rewrite Hn in Hsig. by apply not_elem_of_nil in Hsig. }
      apply list_elem_of_fmap in He as (s & He & _).
      rewrite He. pose proof (serialTime_nonzero (RRSIG.Expiration s) (SignClock.expiration_now clock) Hlate). lia.
  - unfold prepareSignedZone. rewrite Hsnap, Hpub. cbn [res_bind].
    match goal with |- context [signRecordsWithModel cfg ?mm domain ?rrs ?ks ?n] =>
      change (signRecordsWithModel cfg mm domain rrs ks n) with (signRecordsWithModel cfg m domain
        (pass_unsigned cfg domain snap published keys) (pass_keys cfg snap published keys) n) end.
    by rewrite Hs.
Qed.
End fits.
End complete.
