(* ===== verification/SignFilesSound.v ===== *)
(** * SignFilesSound: what a pass on disk leaves

    The keys loaded for a pass are those its recorded phase names; the zone at the
    output path is at every moment the one of before or a complete one. *)

From stdpp Require Import base list strings gmap pretty.
From Stdlib Require Import ZArith Lia Ascii Sorted.
From S2P Require Import Prelude Paths GoTime Config ZoneState FileSys KeyOps Names Digests Wire Serial KeyMaterial ZoneModel NsecChain Signatures KeyFiles FileSysSound KeyFilesSound KeyFilesLive KeyFilesRecover ZoneCheck SignZone SignFiles ZoneModelFacts SignaturesSound SignSound SignZoneSound.
Local Open Scope Z_scope.

(** ** The output file *)

Section output.
Context `{OS} `{DnsLib} `{ZoneTextLib} `{SliceSort}.

(** The lines of a signed zone generated at [now]. *)
Definition zone_lines (domain : string) (now : Time) (records : list RR) : list string :=
  [ "; Signed zone file for " +:+ domain +:+ NL;
    "; Generated by sigillum-signer at " +:+ FormatRFC3339 now +:+ NL;
    "; DO NOT EDIT - this file is automatically generated" +:+ NL +:+ NL;
    "$ORIGIN " +:+ Fqdn domain +:+ NL ] ++ map (fun rr => RRText rr +:+ NL) records.
Fixpoint text_of (lines : list string) : string := match lines with [] => "" | line :: rest => line +:+ text_of rest end.
Lemma text_of_app l l' : text_of (l ++ l') = text_of l +:+ text_of l'.
Proof. induction l as [|x l IH]; [done|]. cbn. by rewrite IH, string_app_assoc. Qed.
Lemma text_of_snoc l x : text_of (l ++ [x]) = text_of l +:+ x.
Proof. induction l as [|y l IH]; cbn; [apply str_app_nil_r|]. by rewrite IH, string_app_assoc. Qed.

(** A complete signed zone, readable by everyone. *)
Definition signed_file (domain : string) (records : list RR) (n : Node.t) : Prop :=
  own_new n /\ Node.Perm n = 420 /\ exists now, Node.Data n = text_of (zone_lines domain now (sortZoneRecords domain records)).

(** The temporary file with some lines in it. *)
Definition holding (lines : list string) : Node.t -> Prop := new_with (fun n => Node.Perm n = 420 /\ Node.Data n = text_of lines).

Section body.
Context (fs0 : Files) (path : string) (P : Node.t -> Prop) (tmp : string) (Hfree : fs0 !! tmp = None) (Htemp : temp_name tmp).

Lemma append_staged data now n : append_data tmp data now (<[tmp := n]> fs0) =
  <[tmp := n <| Node.Data := Node.Data n +:+ data |> <| Node.ModTime := now |>]> fs0.
Proof. unfold append_data. by rewrite alter_insert_eq. Qed.

Lemma body_Append data (P1 P2 : Node.t -> Prop) :
  (forall n now, P1 n -> P2 (n <| Node.Data := Node.Data n +:+ data |> <| Node.ModTime := now |>)) ->
  body_step fs0 path P tmp (staged_at fs0 tmp P1) (staged_at fs0 tmp P2) (Append tmp data).
Proof.
  intros HP d (n & Hn & E). unfold always, Append. cbv zeta.
  assert (forall m, replacing fs0 path P (<[tmp := m]> fs0)) as Hr by (intros m; right; left; eauto).
  destruct (fault (Disk.calls d)) as [e|]; cbn; rewrite !E, !append_staged; split_and!; try done;
    try (eexists [_]; split; [reflexivity | by auto]); try by eexists.
  eexists. split; [|reflexivity]. exact (HP _ _ Hn).
Qed.

Lemma body_line lines line message :
  body_step fs0 path P tmp (staged_at fs0 tmp (holding lines)) (staged_at fs0 tmp (holding (lines ++ [line]))) (write_line tmp line message).
Proof.
  apply body_wrapf, body_Append. intros n now ((? & ? & ?) & ? & E). split; [done|]. cbn. by rewrite text_of_snoc, E.
Qed.
Lemma body_records lines records :
  body_step fs0 path P tmp (staged_at fs0 tmp (holding lines)) (staged_at fs0 tmp (holding (lines ++ map (fun rr => RRText rr +:+ NL) records))) (write_records tmp records).
Proof.
  revert lines. induction records as [|rr records IH]; intros lines; cbn [write_records map].
  - rewrite app_nil_r. intros d Hd. apply always_ret; [by eapply staged_replacing | done].
  - rewrite cons_middle, app_assoc. eapply body_then; [apply body_line | apply IH].
Qed.
End body.


Lemma TimeNow_observes : observes TimeNow (fun _ r => match r with Ok _ => True | Err e => os_error e end).
Proof. done. Qed.

Lemma written_body fs0 path domain records tmp : fs0 !! tmp = None -> temp_name tmp ->
  body_step fs0 path (signed_file domain records) tmp (staged_at fs0 tmp blank) (installed fs0 path (signed_file domain records)) (zone_body domain path (sortZoneRecords domain records) tmp).
Proof.
  intros Hf Ht. unfold zone_body.
  eapply (body_then _ _ _ _ _ (staged_at fs0 tmp (holding []))).
  { apply body_wrapf, body_update; [done..| |]; unfold holding, new_with, blank, own_new; [naive_solver|]. intros n [(? & ? & ?) ?]. done. }
  eapply body_then; [by apply body_line|].
  apply (body_bind _ _ _ _ _ (fun _ => True)); [done..| exact TimeNow_observes|]. intros now _.
  do 3 (eapply body_then; [by apply body_line|]). eapply body_then; [by apply body_records|].
  do 2 (eapply body_then; [by apply body_wrapf, body_same|]).
  apply body_wrapf, body_Rename; [done..|]. intros n (? & ? & Hd). split_and!; [done..|]. by exists now.
Qed.

(** The files while a zone is written: at its path the old file or a complete one, and
    one of them if there was one. *)
Definition old_or_new (fs0 : Files) (path : string) (P : Node.t -> Prop) (fs : Files) : Prop :=
  (forall n, fs !! path = Some n -> Node.Kind n = Regular -> fs0 !! path = Some n \/ P n) /\
  (forall n, fs0 !! path = Some n -> Node.Kind n = Regular -> exists n', fs !! path = Some n' /\ (n' = n \/ P n')).
(** ... untouched, so far. *)
Definition old_at (fs0 : Files) (path : string) (fs : Files) : Prop :=
  (forall n, fs !! path = Some n -> Node.Kind n = Regular -> fs0 !! path = Some n) /\
  (forall n, fs0 !! path = Some n -> Node.Kind n = Regular -> fs !! path = Some n).

Lemma old_at_new fs0 path P fs : old_at fs0 path fs -> old_or_new fs0 path P fs.
Proof. intros [Ho Hn]. split; [auto|]. intros n E K. exists n. auto. Qed.
Lemma old_at_insert fs0 path p n fs : old_at fs0 path fs -> p <> path -> old_at fs0 path (<[p := n]> fs).
Proof. intros [Ho Hn] Hp. split; intros m; rewrite lookup_insert_ne by done; auto. Qed.
Lemma old_at_new_dir fs0 path fs p n : old_at fs0 path fs -> fs !! p = None -> Node.Kind n = Directory -> old_at fs0 path (<[p := n]> fs).
Proof.
  intros [Ho Hn] Hp K. destruct (decide (p = path)) as [->|Hne]; [|by apply old_at_insert]. split; intros m.
  - rewrite lookup_insert_eq. intros [= <-] Hr. congruence.
  - intros E Hr. pose proof (Hn m E Hr). congruence.
Qed.
Lemma old_at_dir fs0 path fs p n : old_at fs0 path fs -> is_dir fs p = true -> Node.Kind n = Directory -> old_at fs0 path (<[p := n]> fs).
Proof.
  intros [Ho Hn] Hp K. destruct (decide (p = path)) as [->|Hne]; [|by apply old_at_insert]. split; intros m.
  - rewrite lookup_insert_eq. intros [= <-] Hr. congruence.
  - intros E Hr. pose proof (Hn m E Hr) as E'. unfold is_dir in Hp. rewrite E', Hr in Hp. done.
Qed.
Lemma old_at_replacing fs0 path P fs1 fs : old_at fs0 path fs1 -> ~ temp_name path -> replacing fs1 path P fs -> old_or_new fs0 path P fs.
Proof.
  intros Ho Hp [->|[(tmp & n & Hf & Ht & ->)|(n & Hn & ->)]]; [by apply old_at_new | apply old_at_new, old_at_insert; [done | by intros ->] |].
  split; intros m; rewrite lookup_insert_eq; [intros [= <-]; auto | intros E K; exists n; auto].
Qed.

Definition published_at (domain path : string) (records : list RR) (fs : Files) : Prop := exists n, fs !! path = Some n /\ signed_file domain records n.

Lemma EnsureDir_old fs0 path dir (Q : res GoError.t unit -> Disk.t -> Prop) d :
  old_at fs0 path (Disk.nodes d) -> (forall r d', old_at fs0 path (Disk.nodes d') -> os_failed r -> Q r d') -> always (old_at fs0 path) (EnsureDir dir) Q d.
Proof. apply EnsureDir_made; intros; [by apply old_at_new_dir | by apply old_at_dir]. Qed.

(** Writing a zone replaces the old file by a complete one. *)
Lemma writeSignedZone_always domain path records d : ~ temp_name path ->
  always (old_or_new (Disk.nodes d) path (signed_file domain records)) (writeSignedZone domain path records)
    (fun r d' => match r with
       | Ok _ => published_at domain path records (Disk.nodes d')
       | Err e => if IsDurability e then published_at domain path records (Disk.nodes d') else old_at (Disk.nodes d) path (Disk.nodes d')
       end) d.
Proof.
  intros Hp. unfold writeSignedZone. apply always_bind.
  eapply always_mono; [apply (EnsureDir_old (Disk.nodes d) path _ (fun r d' => old_at (Disk.nodes d) path (Disk.nodes d') /\ os_failed r)) | intros fs; apply old_at_new |].
  { done. }
  { done. }
  intros [[]|e] d1 _ [Hold Hos].
  - eapply always_mono; [apply (replacement_always (Disk.nodes d1) path (signed_file domain records)); [done | apply new_temp_yields |] | ..].
    + intros tmp Hf Ht. by apply written_body.
    + intros fs. by apply old_at_replacing.
    + intros [[]|e] d2 _ HQ; [|unfold replaced in HQ; destruct (IsDurability e)].
      1, 2: destruct HQ as (n & Hn & ->); exists n; by rewrite lookup_insert_eq.
      destruct HQ as (_ & [->|(tmp & n & Hf & Ht & ->)]); [done|]. apply old_at_insert; [done | by intros ->].
  - destruct (Hos e eq_refl) as [errno He]. unfold IsDurability. by rewrite He.
Qed.
End output.

(** ** The keys of a pass *)

(** The tags of the keys a recorded phase publishes, by role; of those, the ZSKs that
    sign (the KSKs all sign). *)
Module Plan.
Record t := mk { ksks : list Z; zsks : list Z; signing : list Z }.
End Plan.

Definition plan_of (ksk zsk : Z) (r : RolloverState.t) : Plan.t :=
  let phase t st := bool_decide (RolloverState.RType r = t /\ RolloverState.RState r = st) in
  let old := RolloverState.OldKeyID r in
  if phase "ksk" KSKRolloverStateDSAddWait || phase "ksk" KSKRolloverStateDSPropagation then Plan.mk [ksk; old] [zsk] [zsk]
  else if phase "zsk" ZSKRolloverStatePrePublish then Plan.mk [ksk] [RolloverState.NewKeyID r; old] [old]
  else if phase "zsk" ZSKRolloverStateSigning then Plan.mk [ksk] [zsk; old] [zsk]
  else if bool_decide (RolloverState.RType r = "algorithm") && negb (phase "algorithm" AlgoRolloverStateRetiring) then
    Plan.mk [ksk; old] [zsk; RolloverState.OldZSKID r] [zsk; RolloverState.OldZSKID r]
  else Plan.mk [ksk] [zsk] [zsk].
Definition plan (z : ZoneState.t) : option Plan.t :=
  match ZoneState.KSK z, ZoneState.ZSK z with
  | Some ksk, Some zsk =>
      Some match ZoneState.Rollover z with
           | Some r => plan_of (KeyState.ID ksk) (KeyState.ID zsk) r
           | None => Plan.mk [KeyState.ID ksk] [KeyState.ID zsk] [KeyState.ID zsk]
           end
  | _, _ => None
  end.

Definition algorithm_rollover (z : ZoneState.t) : bool :=
  match ZoneState.Rollover z with Some r => String.eqb (RolloverState.RType r) "algorithm" | None => false end.

Section keys.
Context `{OS} `{DnsLib} `{WireLib} `{CryptoLib}.
Implicit Types (keys : signingKeys.t) (cfg : Config).

(** A pair fit to sign in its role. *)
Definition fit (domain keyType : string) (kp : DNSKEY.t * list Z) : Prop :=
  validateLoadedKey kp.1 domain keyType = Ok tt /\ VerifyKeyPairCorrespondence kp.1 kp.2 = Ok tt.

(** The keys of a plan: the published ones are the plan's, each pair that signs is fit
    for its role and published. *)
Record follows (domain : string) (p : Plan.t) keys : Prop := {
  fo_published : Permutation (map KeyTagOf (signingKeys.dnskeys keys)) (Plan.ksks p ++ Plan.zsks p);
  fo_ksks : map KeyTagOf (signingKeys.signingKSKs keys) = Plan.ksks p;
  fo_zsks : map KeyTagOf (signingKeys.signingZSKs keys) = Plan.signing p;
  fo_ksk_pairs : Forall2 (fun key priv => fit domain "ksk" (key, priv) /\ key ∈ signingKeys.dnskeys keys) (signingKeys.signingKSKs keys) (signingKeys.signingKSKPs keys);
  fo_zsk_pairs : Forall2 (fun key priv => fit domain "zsk" (key, priv) /\ key ∈ signingKeys.dnskeys keys) (signingKeys.signingZSKs keys) (signingKeys.signingZSKPs keys);
  fo_admitted : forall key, key ∈ signingKeys.dnskeys keys -> validateLoadedKey key domain "ksk" = Ok tt \/ validateLoadedKey key domain "zsk" = Ok tt
}.

Lemma checkKeyTag_ok key tag : checkKeyTag key tag = Ok tt -> KeyTagOf key = tag.
Proof. unfold checkKeyTag. by destruct (Z.eqb_spec (KeyTagOf key) tag). Qed.
Lemma of_res_ok {A} (r : res string A) (d : Disk.t) a d' : of_res r d = (Ok a, d') -> r = Ok a /\ d' = d.
Proof. by destruct r; intros [= <- <-]. Qed.

Lemma ByID_yields cfg domain keyType tag d kp d' : LoadKeyPairByID cfg domain keyType tag d = (Ok kp, d') -> KeyTagOf kp.1 = tag /\ fit domain keyType kp.
Proof.
  unfold LoadKeyPairByID. intros (kp' & d1 & Hl%wrapf_ok & R)%bind_ok. apply bind_ok in R as ([] & d2 & [Ht _]%wrapf_ok%of_res_ok & R). injection R as -> <-.
  split; [by apply checkKeyTag_ok|]. apply loaded_yields in Hl as [(_ & _ & Hc) Ha]. by split.
Qed.
Lemma PublicByID_yields cfg domain keyType tag d key d' : LoadPublicKeyByID cfg domain keyType tag d = (Ok key, d') ->
  KeyTagOf key = tag /\ validateLoadedKey key domain keyType = Ok tt.
Proof.
  unfold LoadPublicKeyByID. intros (key' & d1 & _ & R)%bind_ok. apply bind_ok in R as ([] & d2 & [Ha _]%wrapf_ok%of_res_ok & R).
  apply bind_ok in R as ([] & d3 & [Ht _]%wrapf_ok%of_res_ok & R). injection R as -> <-. split; [by apply checkKeyTag_ok | done].
Qed.
Lemma Ensure_yields cfg domain keyType tag d kp d' : EnsureLiveKey cfg domain keyType tag d = (Ok kp, d') -> KeyTagOf kp.1 = tag /\ fit domain keyType kp.
Proof. destruct kp as [key priv]. intros (Ht & (_ & _ & Hc) & Ha)%EnsureLiveKey_yields. by split. Qed.

(** The live pairs alone, and with what a phase adds. *)
Definition live_keys (ksk zsk : DNSKEY.t * list Z) : signingKeys.t := signingKeys.mk [ksk.1; zsk.1] [ksk.1] [ksk.2] [zsk.1] [zsk.2].

Lemma follows_live domain ksk zsk : fit domain "ksk" ksk -> fit domain "zsk" zsk ->
  follows domain (Plan.mk [KeyTagOf ksk.1] [KeyTagOf zsk.1] [KeyTagOf zsk.1]) (live_keys ksk zsk).
Proof.
  intros Hk Hz. destruct ksk as [k p], zsk as [k' p']. constructor; cbn; try done.
  - constructor; [split; [done | by left] | done].
  - constructor; [split; [done | by right; left] | done].
  - intros key [->|[->|?%not_elem_of_nil]%elem_of_cons]%elem_of_cons; [left; apply Hk | right; apply Hz | done].
Qed.

Lemma pairs_publish domain keyType extra l ks ps :
  Forall2 (fun key priv => fit domain keyType (key, priv) /\ key ∈ l) ks ps -> Forall2 (fun key priv => fit domain keyType (key, priv) /\ key ∈ l ++ extra) ks ps.
Proof. intros HF. eapply Forall2_impl; [exact HF|]. intros key priv [? ?]. split; [done|]. apply elem_of_app. by left. Qed.

Lemma added_pair domain keyType kp l : fit domain keyType kp ->
  Forall2 (fun key priv => fit domain keyType (key, priv) /\ key ∈ l ++ [kp.1]) [kp.1] [kp.2].
Proof. destruct kp as [key priv]. intros Hf. constructor; [|done]. split; [done|]. apply elem_of_app. right. by left. Qed.

Lemma follows_publish domain p keys key : follows domain p keys -> validateLoadedKey key domain "zsk" = Ok tt ->
  follows domain (Plan.mk (Plan.ksks p) (Plan.zsks p ++ [KeyTagOf key]) (Plan.signing p)) (publish key keys).
Proof.
  intros [Hp Hk Hz Fk Fz Ha] Hv. constructor; cbn; [|done|done|by apply pairs_publish..|].
  - rewrite map_app, Hp, <- app_assoc. done.
  - intros k [?| ->%list_elem_of_singleton]%elem_of_app; [by apply Ha | by right].
Qed.
Lemma follows_ksk domain p keys kp : follows domain p keys -> fit domain "ksk" kp ->
  follows domain (Plan.mk (Plan.ksks p ++ [KeyTagOf kp.1]) (Plan.zsks p) (Plan.signing p)) (sign_keys_with kp (publish kp.1 keys)).
Proof.
  intros [Hp Hk Hz Fk Fz Ha] Hv. constructor; cbn; [| |done| |by apply pairs_publish|].
  - rewrite map_app, Hp, <- !app_assoc. apply Permutation_app_head, Permutation_app_comm.
  - by rewrite map_app, Hk.
  - apply Forall2_app; [by apply pairs_publish|]. by apply added_pair.
  - intros k [?| ->%list_elem_of_singleton]%elem_of_app; [by apply Ha | left; apply Hv].
Qed.
Lemma follows_zsk domain p keys kp : follows domain p keys -> fit domain "zsk" kp ->
  follows domain (Plan.mk (Plan.ksks p) (Plan.zsks p ++ [KeyTagOf kp.1]) (Plan.signing p ++ [KeyTagOf kp.1])) (sign_data_with kp (publish kp.1 keys)).
Proof.
  intros Hf Hv. pose proof (follows_publish _ _ _ _ Hf (proj1 Hv)) as [Hp Hk Hz Fk Fz Ha]. constructor; cbn; try done.
  - by rewrite map_app, (fo_zsks _ _ _ Hf).
  - apply Forall2_app; [done | by apply added_pair].
Qed.
Lemma follows_only domain p keys kp : follows domain p keys -> fit domain "zsk" kp ->
  follows domain (Plan.mk (Plan.ksks p) (Plan.zsks p ++ [KeyTagOf kp.1]) [KeyTagOf kp.1])
    ((publish kp.1 keys <| signingKeys.signingZSKs := [kp.1] |>) <| signingKeys.signingZSKPs := [kp.2] |>).
Proof.
  intros Hf Hv. pose proof (follows_publish _ _ _ _ Hf (proj1 Hv)) as [Hp Hk Hz Fk Fz Ha]. constructor; cbn; try done.
  by apply added_pair.
Qed.

Lemma phase_eqb (r : RolloverState.t) t st : bool_decide (RolloverState.RType r = t /\ RolloverState.RState r = st) =
  String.eqb (RolloverState.RType r) t && String.eqb (RolloverState.RState r) st.
Proof. case_bool_decide as E; symmetry; [destruct E as [-> ->]; by rewrite !String.eqb_refl|]. apply andb_false_iff. rewrite !String.eqb_neq. destruct (decide (RolloverState.RType r = t)); [right | left]; tauto. Qed.

Lemma rollover_keys_follow cfg domain z ksk zsk r d keys d' :
  ZoneState.KSK z = Some ksk -> ZoneState.ZSK z = Some zsk -> ZoneState.Rollover z = Some r ->
  forall k zk, fit domain "ksk" k -> fit domain "zsk" zk -> expectedLiveKeyTags z = Ok (KeyTagOf k.1, KeyTagOf zk.1) ->
  rollover_keys cfg domain z (live_keys k zk) d = (Ok keys, d') -> follows domain (plan_of (KeyState.ID ksk) (KeyState.ID zsk) r) keys.
Proof.
  intros Hk Hz Hr k zk Fk Fz He. unfold expectedLiveKeyTags in He. rewrite Hk, Hz, Hr in He. injection He as -> Ez.
  unfold rollover_keys. rewrite Hr. unfold plan_of. rewrite !phase_eqb.
  pose proof (follows_live domain k zk Fk Fz) as Hlive. revert Ez.
  destruct (String.eqb_spec (RolloverState.RType r) "ksk") as [Et|Hksk]; [rewrite Et; cbn; intros ->|cbn [andb orb]].
  { destruct (_ || _).
    - intros (old & d1 & [Ht Hf]%wrapf_ok%ByID_yields & [= <- <-])%bind_ok. rewrite <- Ht. exact (follows_ksk _ _ _ _ Hlive Hf).
    - by intros [= <- <-]. }
  destruct (String.eqb_spec (RolloverState.RType r) "zsk") as [Et|Hzsk]; [rewrite Et; cbn|cbn [andb orb]].
  { destruct (String.eqb _ ZSKRolloverStatePrePublish); [intros ->|intros ->; destruct (String.eqb _ ZSKRolloverStateSigning)].
    - intros (old & d1 & [Ht Hf]%wrapf_ok%ByID_yields & [= <- <-])%bind_ok. rewrite <- Ht. exact (follows_only _ _ _ _ Hlive Hf).
    - intros (old & d1 & [Ht Hf]%wrapf_ok%PublicByID_yields & [= <- <-])%bind_ok. rewrite <- Ht. exact (follows_publish _ _ _ _ Hlive Hf).
    - by intros [= <- <-]. }
  intros ->. destruct (String.eqb_spec (RolloverState.RType r) "algorithm") as [Et|Halg].
  - rewrite bool_decide_true by done. cbn [andb]. destruct (negb _); [|by intros [= <- <-]].
    intros (old & d1 & [Ht Hf]%wrapf_ok%ByID_yields & R)%bind_ok. apply bind_ok in R as (oldz & d2 & [Htz Hfz]%wrapf_ok%ByID_yields & [= <- <-]).
    rewrite <- Ht, <- Htz. exact (follows_zsk _ _ _ _ (follows_ksk _ _ _ _ Hlive Hf) Hfz).
  - rewrite bool_decide_false by done. by intros [= <- <-].
Qed.

(** One algorithm, unless an algorithm rollover says otherwise. *)
Lemma validateAlgorithms_ok keys z : validateAlgorithms keys z = Ok tt -> algorithm_rollover z = false ->
  forall a b, a ∈ signingKeys.dnskeys keys -> b ∈ signingKeys.dnskeys keys -> DNSKEY.Algorithm a = DNSKEY.Algorithm b.
Proof.
  unfold validateAlgorithms, algorithm_rollover. intros Hv Hn. rewrite Hn in Hv. destruct (signingKeys.dnskeys keys) as [|first rest]; [set_solver|].
  destruct (List.find _ rest) eqn:Hf; [done|]. rewrite find_none_all in Hf.
  assert (forall a, a ∈ first :: rest -> DNSKEY.Algorithm a = DNSKEY.Algorithm first) as Hall.
  { intros a [->|Ha]%elem_of_cons; [done|]. specialize (Hf a Ha). by apply negb_false_iff, Z.eqb_eq in Hf. }
  intros a b Ha Hb. by rewrite (Hall a Ha), (Hall b Hb).
Qed.

Definition loaded (domain : string) (z : ZoneState.t) keys : Prop :=
  (exists p, plan z = Some p /\ follows domain p keys) /\
  (algorithm_rollover z = false -> forall a b, a ∈ signingKeys.dnskeys keys -> b ∈ signingKeys.dnskeys keys -> DNSKEY.Algorithm a = DNSKEY.Algorithm b).

Lemma loadKeys_loaded cfg domain z d keys d' : loadKeysForSigning cfg domain z d = (Ok keys, d') -> loaded domain z keys.
Proof.
  unfold loadKeysForSigning. intros (expected & d1 & [He _]%of_res_ok & R)%bind_ok.
  apply bind_ok in R as (ksk & d2 & [Tk Fk]%wrapf_ok%Ensure_yields & R). apply bind_ok in R as (zsk & d3 & [Tz Fz]%wrapf_ok%Ensure_yields & R).
  apply bind_ok in R as (keys' & d4 & Hr & R). apply bind_ok in R as ([] & d5 & _ & R). apply bind_ok in R as ([] & d6 & [Hal _]%wrapf_ok%of_res_ok & R).
  injection R as -> <-. split; [|by apply validateAlgorithms_ok]. destruct expected as [ek ez]. cbn in Tk, Tz. rewrite <- Tk, <- Tz in He.
  unfold plan. pose proof He as He'. unfold expectedLiveKeyTags in He'. destruct (ZoneState.KSK z) as [k|] eqn:Hk; [|done]. destruct (ZoneState.ZSK z) as [zk|] eqn:Hz; [|done].
  eexists. split; [done|]. destruct (ZoneState.Rollover z) as [r|] eqn:Hro.
  - exact (rollover_keys_follow _ _ _ _ _ _ _ _ _ Hk Hz Hro _ _ Fk Fz He Hr).
  - injection He' as -> ->. unfold rollover_keys in Hr. rewrite Hro in Hr. injection Hr as <- _. by apply follows_live.
Qed.

(** ** Keys that cover their zone *)

Lemma set_ttl_same ttl key : samePublicKey (set_ttl ttl key) key = true.
Proof. by apply samePublicKey_spec. Qed.

Definition class_in (key : DNSKEY.t) : Prop := Hdr.Class_ (DNSKEY.Hdr key) = 1 /\ DNSKEY.Protocol key = 3.

Lemma admitted_flags key domain keyType : validateLoadedKey key domain keyType = Ok tt ->
  EqualFold (Hdr.Name (DNSKEY.Hdr key)) (Fqdn domain) = true /\
  (keyType = "ksk" /\ DNSKEY.Flags key = 257 \/ keyType = "zsk" /\ DNSKEY.Flags key = 256).
Proof.
  unfold validateLoadedKey. destruct (EqualFold _ _); cbn [negb]; [|done].
  destruct (String.eqb_spec keyType "ksk") as [->|]; [|destruct (String.eqb_spec keyType "zsk") as [->|]; [|done]]; cbn [res_bind].
  - destruct (Z.eqb_spec (DNSKEY.Flags key) 257); [by split; [|left] | done].
  - destruct (Z.eqb_spec (DNSKEY.Flags key) 256); [by split; [|right] | done].
Qed.

Lemma signers_pairs domain (keyType : string) (l : list DNSKEY.t) ks ps ttl kp :
  Forall2 (fun key priv => fit domain keyType (key, priv) /\ key ∈ l) ks ps -> kp ∈ combine (map (set_ttl ttl) ks) ps ->
  exists key, kp.1 = set_ttl ttl key /\ fit domain keyType (key, kp.2) /\ key ∈ l.
Proof.
  intros HF. induction HF as [|key priv ks ps [Hf Hl] _ IH]; cbn; [by intros ?%not_elem_of_nil|].
  intros [->|Hin]%elem_of_cons; [by exists key | by apply IH].
Qed.

Lemma signing_pair {P : DNSKEY.t -> list Z -> Prop} ks ps ttl key :
  Forall2 P ks ps -> key ∈ ks -> exists kp, kp ∈ combine (map (set_ttl ttl) ks) ps /\ kp.1 = set_ttl ttl key.
Proof.
  intros HF. induction HF as [|key' priv ks ps _ _ IH]; [by intros ?%not_elem_of_nil|]. cbn. intros [->|Hin]%elem_of_cons.
  - eexists. split; [by left | done].
  - destruct (IH Hin) as (kp & ? & ?). exists kp. split; [by right | done].
Qed.

Lemma plan_signs z p : plan z = Some p -> Plan.ksks p <> [] /\ Plan.signing p <> [].
Proof. unfold plan, plan_of. repeat case_match; intros [= <-]; done. Qed.

Lemma with_ttl_signers domain p keys ttl k kp : follows domain p keys -> kp ∈ signers (with_ttl ttl keys) k ->
  exists key, kp.1 = set_ttl ttl key /\ fit domain (if k.2 =? TypeDNSKEY then "ksk" else "zsk") (key, kp.2) /\ key ∈ signingKeys.dnskeys keys.
Proof.
  intros [Fp Fk Fz Pk Pz Fa]. unfold signers. destruct (k.2 =? TypeDNSKEY); by apply signers_pairs.
Qed.

(** The keys of a phase satisfy what [signRecordsWithModel] and the self-check need. *)
Lemma loaded_complete `{!TagOfRdata} domain z p keys ttl :
  loaded domain z keys -> plan z = Some p -> NoDup (Plan.ksks p ++ Plan.zsks p) ->
  (forall key, key ∈ signingKeys.dnskeys keys -> class_in key) ->
  (algorithm_rollover z = true -> forall key, key ∈ signingKeys.dnskeys keys ->
     DNSKEY.Algorithm key ∈ map DNSKEY.Algorithm (signingKeys.signingKSKs keys) /\ DNSKEY.Algorithm key ∈ map DNSKEY.Algorithm (signingKeys.signingZSKs keys)) ->
  complete_keys domain (with_ttl ttl keys).
Proof.
  intros [(p' & Hp' & [Fp Fk Fz Pk Pz Fa]) Halg] Hp Hnd Hcls Hroll. rewrite Hp' in Hp. injection Hp as ->.
  assert (forall key, KeyTagOf (set_ttl ttl key) = KeyTagOf key) as Htag by (intros key; apply same_tag, set_ttl_same).
  destruct (plan_signs _ _ Hp') as [Hk Hz]. pose proof (conj Hp' (Build_follows _ _ _ Fp Fk Fz Pk Pz Fa)) as [_ Hf]. constructor; cbn [with_ttl signingKeys.dnskeys].
  - intros E%map_eq_nil. rewrite E in Fp. cbn in Fp. apply Permutation_nil in Fp. by apply app_eq_nil in Fp as [E1 _].
  - rewrite map_map. rewrite (map_ext _ _ Htag), Fp. done.
  - intros k kp Hkp. destruct (with_ttl_signers _ _ _ _ _ _ Hf Hkp) as (key & E & [Ha Hc] & Hin). cbn [fst snd] in *. rewrite E.
    destruct (Hcls key Hin) as [Hc1 Hc2]. destruct (admitted_flags _ _ _ Ha) as [Ho Hfl].
    assert (Z.land (DNSKEY.Flags key) 256 = 256 /\ key_role key = wanted_role k) as [Hz' Hr].
    { unfold key_role, wanted_role. destruct (k.2 =? TypeDNSKEY); destruct Hfl as [[? ->]|[? ->]]; try done. }
    split_and!; [by apply list_elem_of_fmap; eexists | done | | done].
    by apply (same_corresponds key); [apply samePublicKey_sym, set_ttl_same|].
  - intros k dk (key & -> & Hin)%list_elem_of_fmap. cbn [set_ttl DNSKEY.Algorithm].
    assert (exists key', key' ∈ (if k.2 =? TypeDNSKEY then signingKeys.signingKSKs keys else signingKeys.signingZSKs keys) /\ DNSKEY.Algorithm key' = DNSKEY.Algorithm key) as (key' & Hk' & Ealg).
    { destruct (algorithm_rollover z) eqn:Hro.
      - destruct (Hroll eq_refl key Hin) as [(k1 & E1 & I1)%list_elem_of_fmap (k2 & E2 & I2)%list_elem_of_fmap].
        destruct (k.2 =? TypeDNSKEY); [by exists k1 | by exists k2].
      - assert (exists key', key' ∈ (if k.2 =? TypeDNSKEY then signingKeys.signingKSKs keys else signingKeys.signingZSKs keys) /\ key' ∈ signingKeys.dnskeys keys) as (key' & ? & ?).
        { destruct (k.2 =? TypeDNSKEY).
          - destruct Pk as [|key' ? ? ? [_ ?]]; [by rewrite <- Fk in Hk|]. exists key'. split; [by left | done].
          - destruct Pz as [|key' ? ? ? [_ ?]]; [by rewrite <- Fz in Hz|]. exists key'. split; [by left | done]. }
        exists key'. split; [done|]. by apply Halg. }
    assert (exists kp, kp ∈ signers (with_ttl ttl keys) k /\ kp.1 = set_ttl ttl key') as (kp & Hkp & E).
    { unfold signers. destruct (k.2 =? TypeDNSKEY); cbn; by eapply signing_pair. }
    exists kp. rewrite E. by split.
Qed.
End keys.

(** ** The order of the output *)

Definition strict_weak {A} (less : A -> A -> bool) : Prop :=
  (forall a, less a a = false) /\ (forall a b c, less a b = true -> less b c = true -> less a c = true) /\
  (forall a b c, less a b = false -> less b c = false -> less a c = false).
(** What [sort.Slice] promises. *)
Class SliceSortLaws `{SliceSort} : Prop := {
  sort_any_perm : forall A (less : A -> A -> bool) l, Permutation (sort_any less l) l;
  sort_any_sorted : forall A (less : A -> A -> bool) l, strict_weak less -> StronglySorted (fun a b => less b a = false) (sort_any less l)
}.

(** Strings are in byte order. *)
Lemma ltb_cons a s b t : String.ltb (String a s) (String b t) =
  match N.compare (N_of_ascii a) (N_of_ascii b) with Lt => true | Eq => String.ltb s t | Gt => false end.
Proof. unfold String.ltb. cbn. unfold Ascii.compare. by destruct (N.compare _ _). Qed.
Lemma ltb_strict_weak : strict_weak String.ltb.
Proof.
  split_and!.
  - induction a as [|x a IH]; [done|]. by rewrite ltb_cons, N.compare_refl.
  - induction a as [|x a IH]; intros [|y b] [|u c]; try done. rewrite !ltb_cons.
    destruct (N.compare_spec (N_of_ascii x) (N_of_ascii y)), (N.compare_spec (N_of_ascii y) (N_of_ascii u)), (N.compare_spec (N_of_ascii x) (N_of_ascii u)); try done; try lia. by apply IH.
  - induction a as [|x a IH]; intros [|y b] [|u c]; try done. rewrite !ltb_cons.
    destruct (N.compare_spec (N_of_ascii x) (N_of_ascii y)), (N.compare_spec (N_of_ascii y) (N_of_ascii u)), (N.compare_spec (N_of_ascii x) (N_of_ascii u)); try done; try lia. by apply IH.
Qed.
Lemma ltb_total a b : String.ltb a b = false -> String.ltb b a = false -> a = b.
Proof.
  revert b. induction a as [|x a IH]; intros [|y b]; try done. rewrite !ltb_cons, N.compare_antisym.
  destruct (N.compare_spec (N_of_ascii y) (N_of_ascii x)) as [E| |]; cbn; try done. intros L1 L2. f_equal; [|by apply IH].
  by rewrite <- (ascii_N_embedding x), <- (ascii_N_embedding y), E.
Qed.

Lemma record_less_strict_weak apex : strict_weak (record_less apex).
Proof.
  destruct ltb_strict_weak as (Hirr & Htr & Hntr). unfold record_less. split_and!.
  - intros a. rewrite eqb_reflx, String.eqb_refl. cbn. apply Z.ltb_irrefl.
  - intros [a t] [b u] [c v]; cbn [fst snd].
    destruct (String.eqb_spec a apex), (String.eqb_spec b apex), (String.eqb_spec c apex); cbn; try done; try congruence;
    destruct (String.eqb_spec a b), (String.eqb_spec b c), (String.eqb_spec a c); try congruence; rewrite ?Z.ltb_lt; try lia; subst; eauto.
    intros L1 L2. pose proof (Htr _ _ _ L1 L2) as L3. by rewrite Hirr in L3.
  - intros [a t] [b u] [c v]; cbn [fst snd].
    destruct (String.eqb_spec a apex), (String.eqb_spec b apex), (String.eqb_spec c apex); cbn; try done; try congruence;
    destruct (String.eqb_spec a b), (String.eqb_spec b c), (String.eqb_spec a c); try congruence; rewrite ?Z.ltb_ge; try lia; subst; eauto.
    intros L1 L2. pose proof (ltb_total _ _ L1 L2). congruence.
Qed.

Section order.
Context `{DnsLib} `{SliceSort} `{!SliceSortLaws}.

Definition of_key (records : list RR) (key : rrsetKey) : list RR := List.filter (fun rr => bool_decide (record_key rr = key)) records.

Lemma group_keys_from records acc : NoDup acc ->
  let keys := fold_left (fun order rr => if bool_decide (record_key rr ∈ order) then order else order ++ [record_key rr]) records acc in
  NoDup keys /\ forall key, key ∈ keys <-> key ∈ acc \/ exists rr, rr ∈ records /\ record_key rr = key.
Proof.
  revert acc. induction records as [|rr records IH]; intros acc Hnd; cbn [fold_left].
  - split; [done|]. intros key. split; [auto|]. intros [?|(rr & ?%not_elem_of_nil & _)]; done.
  - case_bool_decide as Hin.
    + destruct (IH acc Hnd) as [Hd Hk]. split; [done|]. intros key. rewrite Hk. split.
      * intros [?|(r & ? & ?)]; [by left | right; exists r; split; [by right | done]].
      * intros [?|(r & [->|?]%elem_of_cons & <-)]; [by left | by left | right; eauto].
    + destruct (IH (acc ++ [record_key rr])) as [Hd Hk].
      { apply NoDup_app. split; [done|]. split; [|apply NoDup_singleton]. by intros x Hx ->%list_elem_of_singleton. }
      split; [done|]. intros key. rewrite Hk, elem_of_app, list_elem_of_singleton. split.
      * intros [[?| ->]|(r & ? & ?)]; [by left | right; exists rr; split; [by left | done] | right; exists r; split; [by right | done]].
      * intros [?|(r & [->|?]%elem_of_cons & <-)]; [by left; left | by left; right | right; eauto].
Qed.
Lemma group_keys_spec records : NoDup (group_keys records) /\ forall key, key ∈ group_keys records <-> exists rr, rr ∈ records /\ record_key rr = key.
Proof. destruct (group_keys_from records [] (NoDup_nil_2)) as [Hd Hk]. split; [done|]. intros key. rewrite Hk. set_solver. Qed.

Lemma of_keys_cons rr records keys : NoDup keys -> record_key rr ∈ keys ->
  Permutation (concat (map (of_key (rr :: records)) keys)) (rr :: concat (map (of_key records) keys)).
Proof.
  intros Hnd Hin. induction keys as [|key keys IH]; [by apply not_elem_of_nil in Hin|].
  apply NoDup_cons in Hnd as [Hnew Hnd]. cbn [map concat]. unfold of_key at 1. cbn [List.filter]. case_bool_decide as E.
  - cbn. constructor. apply Permutation_app_head. subst key.
    enough (map (of_key (rr :: records)) keys = map (of_key records) keys) as -> by done.
    apply map_ext_in. intros key Hk%list_elem_of_In. unfold of_key. cbn. by rewrite bool_decide_false by congruence.
  - apply elem_of_cons in Hin as [?|Hin]; [done|]. rewrite IH by done. symmetry. apply Permutation_middle.
Qed.
Lemma of_keys_perm records keys : NoDup keys -> (forall rr, rr ∈ records -> record_key rr ∈ keys) ->
  Permutation (concat (map (of_key records) keys)) records.
Proof.
  intros Hnd. induction records as [|rr records IH]; intros Hin.
  - enough (concat (map (of_key []) keys) = []) as -> by done. clear. by induction keys.
  - rewrite of_keys_cons by (try apply Hin; try done; by left). constructor. apply IH. intros rr' Hr. apply Hin. by right.
Qed.

Lemma sortZoneRecords_perm domain records : Permutation (sortZoneRecords domain records) records.
Proof.
  destruct (group_keys_spec records) as [Hnd Hk]. unfold sortZoneRecords. apply of_keys_perm.
  - by rewrite sort_any_perm.
  - intros rr Hr. rewrite sort_any_perm. apply Hk. by exists rr.
Qed.

(** The first record is the apex SOA. *)
Lemma sortZoneRecords_head domain records soa : soa ∈ records -> record_key soa = (canonicalName domain, TypeSOA) ->
  exists first rest, sortZoneRecords domain records = first :: rest /\ record_key first = (canonicalName domain, TypeSOA).
Proof.
  intros Hin Hkey. destruct (group_keys_spec records) as [Hnd Hk]. unfold sortZoneRecords. set (less := record_less (canonicalName domain)).
  assert (record_key soa ∈ sort_any less (group_keys records)) as Hs by (rewrite sort_any_perm; apply Hk; by exists soa).
  pose proof (sort_any_sorted _ less (group_keys records) (record_less_strict_weak _)) as Hsort.
  destruct (sort_any less (group_keys records)) as [|k0 keys]; [by apply not_elem_of_nil in Hs|].
  assert (k0 = record_key soa) as ->.
  { apply elem_of_cons in Hs as [?|Hs]; [done|]. apply StronglySorted_inv in Hsort as [_ Hall]. rewrite Forall_forall in Hall.
    specialize (Hall _ Hs). rewrite Hkey in Hall. destruct k0 as [n t]. unfold less, record_less in Hall. cbn [fst snd] in Hall. rewrite String.eqb_refl in Hall.
    destruct (String.eqb_spec n (canonicalName domain)) as [->|]; [|done]. cbn in Hall. rewrite String.eqb_refl in Hall. rewrite Hkey.
    apply Z.ltb_ge in Hall. unfold type_order in Hall. repeat case_match; try (by vm_compute in Hall); f_equal; lia. }
  cbn [map concat]. destruct (of_key records (record_key soa)) as [|first rest] eqn:E.
  - exfalso. assert (In soa (of_key records (record_key soa))) as Hi; [|by rewrite E in Hi].
    apply filter_In. split; [by apply list_elem_of_In | by rewrite bool_decide_true].
  - unfold of_key in E. rewrite E. eexists first, _. split; [done|]. rewrite <- Hkey.
    assert (In first (first :: rest)) as Hi by by left. rewrite <- E in Hi. apply filter_In in Hi as [_ Hi]. by apply bool_decide_eq_true in Hi.
Qed.
End order.

(** ** What loading keys leaves alone *)

Section spared.
Context `{OS}.

(** The names of zones: no key file, backup or temporary file ends in this byte. *)
Definition zone_name (path : string) : Prop := exists q, path = q +:+ "d".

(** At every moment the files at such names are as they were. *)
Definition spares {A} (m : FS A) : Prop := forall d,
  always (fun fs => forall path, zone_name path -> fs !! path = Disk.nodes d !! path) m (fun _ _ => True) d.

Lemma spares_ret {A} (a : A) : spares (ret a).
Proof. intros d. by apply always_ret. Qed.
Lemma spares_fail {A} e : spares (A := A) (fail e).
Proof. intros d. by apply always_fail. Qed.
Lemma spares_bind {A B} (m : FS A) (k : A -> FS B) : spares m -> (forall a, spares (k a)) -> spares (bind m k).
Proof.
  intros Hm Hk d. apply always_bind. eapply always_post; [apply Hm|]. intros [a|e] d1 Hd1 _; [|done].
  eapply always_mono; [apply Hk | | done]. intros fs Hfs path Hp. rewrite Hfs by done. by apply Hd1.
Qed.
Lemma spares_catch {A} (m : FS A) : spares m -> spares (catch m).
Proof. intros Hm d. apply always_catch. by eapply always_post; [apply Hm|]. Qed.
Lemma spares_wrapf {A} format args (m : FS A) : spares m -> spares (wrapf format args m).
Proof. intros Hm d. apply always_wrapf. by eapply always_post; [apply Hm|]. Qed.
Lemma spares_when (c : bool) m : spares m -> spares (when c m).
Proof. intros Hm. destruct c; [done | by apply spares_ret]. Qed.
Lemma spares_observes {A} (m : FS A) P : observes m P -> spares m.
Proof. intros Hm d. by eapply always_observes; [exact Hm | |]. Qed.
Lemma spares_of_res {A} (r : res string A) : spares (of_res r).
Proof. destruct r; [apply spares_ret | apply spares_fail]. Qed.

Lemma spares_insert (fs : Files) p n : ~ zone_name p -> forall path, zone_name path -> <[p := n]> fs !! path = fs !! path.
Proof. intros Hp path Hz. apply lookup_insert_ne. by intros ->. Qed.
Lemma spares_syscall {A} op p (f : Time -> Files -> res Errno (A * option Files)) :
  (forall now fs a fs', f now fs = Ok (a, Some fs') -> forall path, zone_name path -> fs' !! path = fs !! path) -> spares (syscall op p f).
Proof.
  intros Hf d. apply always_syscall; [done..|]. destruct (f _ _) as [[a [fs'|]]|] eqn:E; [|done..]. split; [by eapply Hf | done].
Qed.

Lemma ends_not_zone p c : (c <> "d")%char -> ~ zone_name (p +:+ String c "").
Proof. intros Hc [q E]. by apply app_inj_length in E as [_ [= ->]]. Qed.
Lemma key_not_zone p : ~ zone_name (p +:+ ".key").
Proof. intros Hz. assert (p +:+ ".key" = (p +:+ ".ke") +:+ "y") as E by (by rewrite string_app_assoc). rewrite E in Hz. by apply (ends_not_zone _ "y") in Hz. Qed.
Lemma private_not_zone p : ~ zone_name (p +:+ ".private").
Proof. intros Hz. assert (p +:+ ".private" = (p +:+ ".privat") +:+ "e") as E by (by rewrite string_app_assoc). rewrite E in Hz. by apply (ends_not_zone _ "e") in Hz. Qed.
Lemma temp_not_zone p : temp_name p -> ~ zone_name p.
Proof. intros [q ->] Hz. assert (q +:+ ".tmp" = (q +:+ ".tm") +:+ "p") as E by (by rewrite string_app_assoc). rewrite E in Hz. by apply (ends_not_zone _ "p") in Hz. Qed.
Lemma numbered_not_zone p (i : Z) : ~ zone_name (p +:+ pretty i).
Proof.
  destruct (pretty_last i) as (t & c & -> & Hc). rewrite <- string_app_assoc. apply ends_not_zone. intros ->.
  destruct Hc as [Hc|[x Hc]]; [done|]. unfold pretty_N_char in Hc. by repeat case_match.
Qed.
#[local] Hint Resolve key_not_zone private_not_zone : core.

Lemma spares_CopyFile src dst : ~ zone_name dst -> spares (CopyFile src dst).
Proof.
  intros Hd d. eapply always_mono; [apply CopyFile_always | | done].
  intros fs [->|[(tmp & n & _ & Ht & ->)|(n & _ & ->)]]; [done | apply spares_insert; by apply temp_not_zone | by apply spares_insert].
Qed.
Lemma spares_Remove p : ~ zone_name p -> spares (Remove p).
Proof.
  intros Hp. apply spares_syscall. intros _ fs [] fs' E path Hz. destruct (fs !! p); [|done]. destruct (is_dir fs p); [done|].
  injection E as <-. apply lookup_delete_ne. by intros ->.
Qed.
Lemma spares_Link src dst : ~ zone_name dst -> spares (Link src dst).
Proof.
  intros Hp. apply spares_syscall. intros _ fs [] fs' E. destruct (fs !! src) as [n|]; [|done]. repeat case_match; try done.
  injection E as <-. by apply spares_insert.
Qed.
Lemma spares_Rename src dst : ~ zone_name src -> ~ zone_name dst -> spares (Rename src dst).
Proof.
  intros Hs Hp. apply spares_syscall. intros _ fs [] fs' E path Hz. destruct (fs !! src) as [n|]; [|done]. repeat case_match; try done.
  injection E as <-. rewrite spares_insert by done. apply lookup_delete_ne. by intros ->.
Qed.
Lemma spares_OpenExcl p perm : ~ zone_name p -> spares (OpenExcl p perm).
Proof.
  intros Hp. apply spares_syscall. intros now fs [] fs' E. unfold create in E. repeat case_match; try done. injection E as <-. by apply spares_insert.
Qed.

Lemma spares_statExists p : spares (statExists p).
Proof. eapply spares_observes, statExists_sees. Qed.
Lemma spares_ReadFile p : spares (ReadFile p).
Proof. eapply spares_observes, ReadFile_observes. Qed.
Lemma spares_Lstat p : spares (Lstat p).
Proof. apply spares_syscall. intros _ fs a fs'. by destruct (fs !! p). Qed.
Lemma spares_Close p : spares (Close p).
Proof. by apply spares_syscall. Qed.

(** One step of a walk through a function's calls. *)
Create HintDb spare.
#[local] Hint Resolve spares_ret spares_fail spares_of_res spares_statExists spares_ReadFile spares_Lstat spares_Close spares_CopyFile spares_Remove spares_Link spares_Rename spares_OpenExcl key_not_zone private_not_zone : spare.
Ltac spare := repeat first [solve [auto with spare] | apply spares_bind; [|intros ?] | apply spares_wrapf | apply spares_catch | apply spares_when | case_match].

Lemma spares_set_aside fuel i path reason : ~ zone_name path -> spares (set_aside_from fuel i path reason).
Proof.
  intros Hp. revert i. induction fuel as [|fuel IH]; intros i; cbn [set_aside_from]; [by spare|].
  assert (~ zone_name (path +:+ "." +:+ reason +:+ "." +:+ pretty i)) as Hn.
  { assert (path +:+ "." +:+ reason +:+ "." +:+ pretty i = (path +:+ "." +:+ reason +:+ ".") +:+ pretty i) as -> by (by rewrite !string_app_assoc). apply numbered_not_zone. }
  spare.
Qed.
Lemma spares_release p : ~ zone_name p -> spares (releaseReservation p).
Proof. intros Hp. unfold releaseReservation. spare. Qed.
Lemma spares_reserve p : ~ zone_name p -> spares (reserveFile p).
Proof. intros Hp. unfold reserveFile. spare. Qed.
#[local] Hint Resolve spares_release spares_reserve spares_set_aside : spare.
Lemma spares_unique fuel i prefix : spares (unique_base_from fuel i prefix).
Proof. revert i. induction fuel as [|fuel IH]; intros i; cbn [unique_base_from]; unfold reservePair; spare. Qed.
#[local] Hint Resolve spares_unique : spare.
Lemma spares_copyPairUnique src prefix : spares (copyPairUnique src prefix).
Proof. unfold copyPairUnique, uniqueBackupBase, copy_half, copyDurable. spare. Qed.
Lemma spares_setAside base reason : spares (setAside (base +:+ ".private") reason).
Proof. unfold setAside. auto with spare. Qed.
#[local] Hint Resolve spares_copyPairUnique spares_setAside : spare.

Context `{DnsLib} `{WireLib} `{CryptoLib}.
Lemma spares_loadVerifiedPair base domain keyType : spares (loadVerifiedPair base domain keyType).
Proof. eapply spares_observes, loadVerifiedPair_sees. Qed.
Lemma spares_pairFiles base : spares (pairFiles base).
Proof. eapply spares_observes, pairFiles_sees. Qed.
Lemma spares_loadPublicKey base : spares (loadPublicKeyFromPath base).
Proof. eapply spares_observes, loadPublicKey_sees. Qed.
#[local] Hint Resolve spares_loadVerifiedPair spares_pairFiles spares_loadPublicKey : spare.
Lemma spares_ensureBackupAt domain keyType live backup want : spares (ensureBackupAt domain keyType live backup want).
Proof. unfold ensureBackupAt, copyDurable. spare. Qed.
#[local] Hint Resolve spares_ensureBackupAt : spare.
Lemma spares_ensureVerifiedBackup cfg domain keyType : spares (ensureVerifiedBackup cfg domain keyType).
Proof. unfold ensureVerifiedBackup. spare. Qed.
#[local] Hint Resolve spares_ensureVerifiedBackup : spare.
Lemma spares_preserveLivePair cfg domain keyType : spares (preserveLivePair cfg domain keyType).
Proof. unfold preserveLivePair. spare. Qed.
#[local] Hint Resolve spares_preserveLivePair : spare.
Lemma spares_ActivateKeyPair cfg domain keyType tag : spares (ActivateKeyPair cfg domain keyType tag).
Proof. unfold ActivateKeyPair, copy_visible. spare. Qed.
#[local] Hint Resolve spares_ActivateKeyPair : spare.
Lemma spares_EnsureLiveKey cfg domain keyType tag : spares (EnsureLiveKey cfg domain keyType tag).
Proof. unfold EnsureLiveKey, reactivate. spare. Qed.
Lemma spares_ByID cfg domain keyType tag : spares (LoadKeyPairByID cfg domain keyType tag) /\ spares (LoadPublicKeyByID cfg domain keyType tag).
Proof. unfold LoadKeyPairByID, LoadPublicKeyByID. split; spare. Qed.
#[local] Hint Resolve spares_EnsureLiveKey : spare.
Lemma spares_loadKeys cfg domain z : spares (loadKeysForSigning cfg domain z).
Proof.
  assert (forall keyType tag, spares (LoadKeyPairByID cfg domain keyType tag)) by (intros; apply spares_ByID).
  assert (forall keyType tag, spares (LoadPublicKeyByID cfg domain keyType tag)) by (intros; apply spares_ByID).
  unfold loadKeysForSigning, rollover_keys. spare.
Qed.
End spared.

(** ** A pass on disk *)

Section pass.
Context `{OS} `{DnsLib} `{WireLib} `{CryptoLib} `{HashLib} `{SignLib} `{ZoneFileLib} `{ZoneTextLib} `{SliceSort} `{!SignLaws}.
Context (cfg : Config) (domain : string) (z : ZoneState.t) (source : SourceRead.t) (clock : SignClock.t).

(** A generation of the zone: a complete file of a zone that passed the self-check,
    made from the source under the keys of the recorded phase. *)
Definition generation (res : signedZone.t) (n : Node.t) : Prop := exists keys data info,
  loaded domain z keys /\ readSourceBytes (SourcePath cfg domain (Some z)) source = Ok (data, info) /\
  publication_ok cfg domain (SourcePath cfg domain (Some z)) keys clock data res /\ signed_file domain (signedZone.records res) n.

Local Abbreviation output := (OutputPath cfg domain).

Lemma output_zone_name : zone_name output.
Proof.
  destruct (JoinPath_end (OutputDir cfg) domain ".zone.signed") as [q E]; [by split; [apply (bool_decide_unpack _) | apply Nat.leb_le]|].
  exists (q +:+ ".zone.signe"). unfold OutputPath. by rewrite E, string_app_assoc.
Qed.

Lemma old_at_same fs0 path fs : fs !! path = fs0 !! path -> old_at fs0 path fs.
Proof. intros E. split; intros n; rewrite E; auto. Qed.

Lemma SignZone_always d : 0 <= unix_seconds (SignClock.expiration_now clock) ->
  always (old_or_new (Disk.nodes d) output (fun n => exists res, generation res n)) (SignZone cfg domain (Some z) source clock)
    (fun r d' => match r with
       | Ok z' => exists n res warning, Disk.nodes d' !! output = Some n /\ generation res n /\ z' = recordSignedZone cfg domain z res warning clock
       | Err _ => old_at (Disk.nodes d) output (Disk.nodes d')
       end) d.
Proof.
  intros Hnow. pose proof output_zone_name as Hname. assert (forall fs, fs !! output = Disk.nodes d !! output -> old_or_new (Disk.nodes d) output (fun n => exists res, generation res n) fs) as Hold
    by (intros fs E; by apply old_at_new, old_at_same).
  unfold SignZone. apply always_bind, always_wrapf.
  assert (always (fun fs => forall path, zone_name path -> fs !! path = Disk.nodes d !! path) (loadKeysForSigning cfg domain z)
    (fun r _ => forall keys, r = Ok keys -> loaded domain z keys) d) as Hload.
  { pose proof (spares_loadKeys cfg domain z d) as Hs. pose proof (loadKeys_loaded cfg domain z d) as Hl. unfold always in *.
    destruct (loadKeysForSigning cfg domain z d) as [r d']. destruct Hs as (? & ? & ? & _). split_and!; [done..|]. intros keys ->. by eapply Hl. }
  eapply always_mono; [exact Hload | intros fs Hfs; by apply Hold, Hfs |]. clear Hload. intros [keys|e] d1 Hd1 Hkeys; outcome; [|by apply old_at_same, Hd1].
  specialize (Hkeys keys eq_refl). apply always_bind.
  destruct (prepareSignedZone cfg domain z keys _ source clock) as [res|e] eqn:Hprep; [|by apply always_fail; [apply Hold | apply old_at_same]; apply Hd1].
  apply always_ret; [by apply Hold, Hd1|]. apply (prepare_sound cfg) in Hprep as (data & info & Hread & Hpub); [|done].
  assert (forall fs, old_or_new (Disk.nodes d1) output (signed_file domain (signedZone.records res)) fs ->
    old_or_new (Disk.nodes d) output (fun n => exists res, generation res n) fs) as Hnew.
  { assert (forall n, signed_file domain (signedZone.records res) n -> exists res, generation res n) as Hg by (intros n Hs; by exists res, keys, data, info).
    intros fs [Ho Hn]. rewrite (Hd1 _ Hname) in Ho, Hn. split; intros n E K.
    - destruct (Ho n E K) as [?|Hs]; [by left | right; auto].
    - destruct (Hn n E K) as (n' & E' & [->|Hs]); [exists n; by split; [|left]|]. exists n'. auto. }
  apply always_bind, always_catch. eapply always_mono; [apply writeSignedZone_always; intros Ht; by apply temp_not_zone in Ht | exact Hnew |].
  assert (forall d2 warning, published_at domain output (signedZone.records res) (Disk.nodes d2) ->
      exists n res0 warning0, Disk.nodes d2 !! output = Some n /\ generation res0 n /\ recordSignedZone cfg domain z res warning clock = recordSignedZone cfg domain z res0 warning0 clock) as Hdone.
  { intros d2 warning (n & E & Hs). exists n, res, warning. split; [done|]. split; [|done]. by exists keys, data, info. }
  intros [[]|e] d2 HI%Hnew HQ; outcome; [apply always_ret; [exact HI | by apply Hdone]|].
  destruct (IsDurability e); cbn [negb]; [apply always_ret; [exact HI | by apply Hdone]|].
  apply always_fail; [exact HI|]. destruct HQ as [Ho Hn]. rewrite (Hd1 _ Hname) in Ho, Hn. by split.
Qed.
End pass.

(** ** Every zone *)

Section all.
Context `{OS} `{DnsLib} `{WireLib} `{CryptoLib} `{HashLib} `{SignLib} `{ZoneFileLib} `{ZoneTextLib} `{SliceSort}.
Context (cfg : Config) (passes : string -> Pass.t).

#[local] Existing Instance ZoneState.eta_t.

(** The record a pass starts from, and the disk it finds: the one recorded, or, where
    that lacks a key, a new one holding the path and the keys recovered or made. *)
Inductive starting_record (domain : string) (zoneCfg : ZoneConfig) : option ZoneState.t -> Disk.t -> ZoneState.t -> Disk.t -> Prop :=
| start_recorded z d : ZoneState.KSK z <> None -> ZoneState.ZSK z <> None -> starting_record domain zoneCfg (Some z) d z d
| start_initialized before ksk zsk d d' :
    (forall z, before = Some z -> ZoneState.KSK z = None \/ ZoneState.ZSK z = None) ->
    RecoverOrGenerateKeys cfg domain (Pass.init1 (passes domain)) (Pass.init2 (passes domain)) d = (Ok (ksk, zsk), d') ->
    starting_record domain zoneCfg before d
      (((ZoneState.zero <| ZoneState.Path := zc_Path zoneCfg |>) <| ZoneState.KSK := Some ksk |>) <| ZoneState.ZSK := Some zsk |>) d'.

(** What becomes of one zone on a disk, and whether it counts as signed: a pass
    succeeds and its record is the zone's; or it fails and the record it started from
    carries the error; or there were no keys and none could be made. *)
Inductive outcome_of (domain : string) (zoneCfg : ZoneConfig) (before : option ZoneState.t) (d : Disk.t) : ZoneState.t -> bool -> Disk.t -> Prop :=
| zone_signed z z' d1 d' : starting_record domain zoneCfg before d z d1 ->
    SignZone cfg domain (Some z) (Pass.source (passes domain)) (Pass.clock (passes domain)) d1 = (Ok z', d') ->
    outcome_of domain zoneCfg before d z' true d'
| zone_failed z err d1 d' : starting_record domain zoneCfg before d z d1 ->
    SignZone cfg domain (Some z) (Pass.source (passes domain)) (Pass.clock (passes domain)) d1 = (Err err, d') ->
    outcome_of domain zoneCfg before d (ZoneState.SetOperationError ZoneState.OpSigning (GoError.Text err) z) false d'
| zone_keyless err d' :
    (forall z, before = Some z -> ZoneState.KSK z = None \/ ZoneState.ZSK z = None) ->
    RecoverOrGenerateKeys cfg domain (Pass.init1 (passes domain)) (Pass.init2 (passes domain)) d = (Err err, d') ->
    outcome_of domain zoneCfg before d (init_failed zoneCfg before (GoError.Text err)) false d'.

Lemma keyless_spec z : keyless z = true <-> ZoneState.KSK z = None \/ ZoneState.ZSK z = None.
Proof. unfold keyless. destruct (ZoneState.KSK z), (ZoneState.ZSK z); intuition (congruence || eauto). Qed.

Lemma zone_to_sign_spec domain zoneCfg before d : exists start d',
  zone_to_sign cfg domain zoneCfg before (passes domain) d = (Ok start, d') /\
  match start with Ok z => starting_record domain zoneCfg before d z d' | Err z => outcome_of domain zoneCfg before d z false d' end.
Proof.
  assert ((forall z, before = Some z -> ZoneState.KSK z = None \/ ZoneState.ZSK z = None) -> exists start d',
    (r <-- catch (RecoverOrGenerateKeys cfg domain (Pass.init1 (passes domain)) (Pass.init2 (passes domain))) ;;
     ret match r with Err err => Err (init_failed zoneCfg before (GoError.Text err)) | Ok keys => Ok (initialized zoneCfg keys) end) d = (Ok start, d') /\
    match start with Ok z => starting_record domain zoneCfg before d z d' | Err z => outcome_of domain zoneCfg before d z false d' end) as Hinit.
  { intros Hk. unfold bind, catch, ret. destruct (RecoverOrGenerateKeys _ _ _ _ d) as [[[ksk zsk]|err] d'] eqn:Hr; cbn [fst snd];
      eexists _, d'; (split; [reflexivity|]); [by eapply start_initialized | by eapply zone_keyless]. }
  unfold zone_to_sign. destruct before as [z|]; [|by apply Hinit].
  destruct (keyless z) eqn:Hk; [apply Hinit; intros ? [= <-]; by apply keyless_spec|].
  exists (Ok z), d. split; [done|]. constructor; intros Hn; (assert (keyless z = true) by (apply keyless_spec; auto)); congruence.
Qed.

Lemma sign_configured_spec domain zoneCfg before d : exists z ok d',
  sign_configured cfg domain zoneCfg before (passes domain) d = (Ok (z, ok), d') /\ outcome_of domain zoneCfg before d z ok d'.
Proof.
  unfold sign_configured. destruct (zone_to_sign_spec domain zoneCfg before d) as (start & d1 & Hs & Ho).
  unfold bind, catch, ret. rewrite Hs. cbn [fst snd]. destruct start as [z|z]; [|by eexists _, _, _].
  destruct (SignZone cfg domain (Some z) _ _ d1) as [[z'|err] d2] eqn:Hz; cbn [fst snd]; eexists _, _, d2; (split; [reflexivity|]);
    [by eapply zone_signed | by eapply zone_failed].
Qed.

(** The disk the zones before [domain] in the list leave. *)
Definition left_by (zones : list (string * ZoneConfig)) (s : StateStore.State) (d : Disk.t) (domain : string) (d1 : Disk.t) : Prop :=
  exists pre zoneCfg post more, zones = pre ++ (domain, zoneCfg) :: post /\ sign_each cfg pre passes s d = (Ok more, d1).

Lemma sign_each_spec zones s d : NoDup zones.*1 -> exists s' signed d', sign_each cfg zones passes s d = (Ok (s', signed), d') /\
  (forall domain, domain ∉ zones.*1 -> StateStore.GetZone domain s' = StateStore.GetZone domain s) /\
  (forall domain zoneCfg, (domain, zoneCfg) ∈ zones -> exists z ok,
     (exists d1 d2, left_by zones s d domain d1 /\ outcome_of domain zoneCfg (StateStore.GetZone domain s) d1 z ok d2) /\
     StateStore.GetZone domain s' = Some z /\ (ok = true <-> domain ∈ signed)) /\
  signed `sublist_of` zones.*1.
Proof.
  revert s d. induction zones as [|[domain zoneCfg] zones IH]; intros s d Hnd.
  { exists s, [], d. split; [done|]. split_and!; [done | by intros ? ? ?%not_elem_of_nil | constructor]. }
  apply NoDup_cons in Hnd as [Hnew Hnd]. cbn [sign_each].
  destruct (sign_configured_spec domain zoneCfg (StateStore.GetZone domain s) d) as (z & ok & d1 & Hone & Hout).
  unfold bind. rewrite Hone. cbn [fst snd]. destruct (IH (StateStore.SetZone domain z s) d1 Hnd) as (s' & signed & d2 & -> & Hother & Heach & Hsub).
  assert (forall x, x <> domain -> StateStore.GetZone x (StateStore.SetZone domain z s) = StateStore.GetZone x s) as Hset
    by (intros x Hx; by apply lookup_insert_ne).
  exists s', ((if ok then [domain] else []) ++ signed), d2. split; [done|]. split_and!.
  - intros x Hx. cbn in Hx. apply not_elem_of_cons in Hx as [Hx1 Hx2]. rewrite Hother by done. by apply Hset.
  - intros x zc [[= -> ->]|Hx]%elem_of_cons.
    + exists z, ok. split; [exists d, d1; split; [by exists [], zoneCfg, zones, (s, []) | exact Hout]|]. rewrite Hother by done. split; [apply lookup_insert_eq|].
      assert (domain ∉ signed) as Hns by (intros Hin; apply Hnew; by eapply elem_of_submseteq, sublist_submseteq).
      destruct ok; cbn; set_solver.
    + assert (x <> domain) as Hne by (intros ->; apply Hnew; by apply (list_elem_of_fmap_2 fst _ _ Hx)).
      destruct (Heach x zc Hx) as (z' & ok' & (d3 & d4 & (pre & zc' & post & more & Hp & Hpre) & Ho) & Hz & Hok).
      exists z', ok'. rewrite Hset in Ho by done. split; [|split; [done|]].
      { exists d3, d4. split; [|exact Ho]. exists ((domain, zoneCfg) :: pre), zc', post, (more.1, (if ok then [domain] else []) ++ more.2).
        split; [by rewrite Hp|]. cbn [sign_each]. unfold bind. rewrite Hone. cbn [fst snd]. by rewrite Hpre. }
      rewrite Hok. destruct ok; cbn; set_solver.
  - destruct ok; cbn; by constructor.
Qed.
End all.
