(* ===== verification/SampleSign.v ===== *)
(** * SampleSign: concrete libraries, keys and a zone to sign

    [rfc5155_hash] is the NSEC3 hash the validator computes; [toy_sign] is a signature
    scheme for the keys of [disk_crypto] that satisfies the documented laws (a signature
    names the public key and the RRset); the witnesses of the signing theorems use them. *)

From stdpp Require Import base list strings gmap pretty.
From Stdlib Require Import ZArith Lia Ascii.
From S2P Require Import Prelude Paths GoTime Config ZoneState KeyOps Order Names PlainNames DnsZone SampleZone Digests Nsec Nsec3 Wire Serial KeyMaterial ZoneModel NsecChain Signatures KeyTheorems ZoneCheck SignZone ZoneModelFacts SignaturesSound SignSound NsecChainSound Nsec3ChainSound.
Local Open Scope Z_scope.

(** ** The hash of RFC 5155 *)

#[global] Instance rfc5155_hash : HashLib := {
  HashName name alg iterations salt := match hexDecode salt with Ok s => computeNSEC3Hash name s iterations | Err _ => "" end
}.

Lemma hex_lower_upper c : lower_byte (upper_byte c) = lower_byte c.
Proof. all_bytes c. Qed.

Lemma ToLower_ToUpper s : ToLower (ToUpper s) = ToLower s.
Proof. induction s as [|c s IH]; cbn; [done|]. by rewrite hex_lower_upper, <-IH. Qed.

Lemma hexDecode_upper s : hexDecode (ToUpper s) = hexDecode s.
Proof.
  unfold hexDecode. rewrite ToLower_ToUpper.
  assert (String.eqb (ToUpper s) "" || String.eqb (ToUpper s) "-" = String.eqb s "" || String.eqb s "-") as ->; [|done].
  destruct s as [|c [|c' s]]; [done|destruct c as [[] [] [] [] [] [] [] []]; reflexivity|].
  cbn. by repeat case_match.
Qed.

Lemma base32_text v : 0 <= v < 32 -> base32hex (base32_char v) = true.
Proof.
  intros Hv. assert (forall n : nat, (n < 32)%nat -> base32hex (base32_char (Z.of_nat n)) = true) as Hn.
  { intros n Hn. do 32 (destruct n as [|n]; [reflexivity|]). lia. }
  rewrite <-(Z2Nat.id v) by lia. apply Hn. lia.
Qed.

Lemma bits_value_range bs : 0 <= bits_value bs < 2 ^ Z.of_nat (length bs).
Proof.
  unfold bits_value. induction bs as [|b bs IH] using rev_ind; [done|]. rewrite fold_left_app, length_app. cbn [fold_left length].
  rewrite Nat2Z.inj_add, Z.pow_add_r by lia. change (2 ^ Z.of_nat 1) with 2. destruct b; cbn [Z.b2z]; lia.
Qed.

Lemma chunks_length {A} fuel n (l : list A) c : c ∈ chunks fuel n l -> (length c <= n)%nat.
Proof.
  revert l. induction fuel as [|fuel IH]; intros [|x l]; cbn; try (intros Hc; by apply not_elem_of_nil in Hc).
  intros [->|Hc]%elem_of_cons; [rewrite length_take; lia | by apply IH in Hc].
Qed.

Lemma base32hex_encode_text bs : forallb base32hex (chars (base32hex_encode bs)) = true.
Proof.
  unfold base32hex_encode. rewrite String.list_ascii_of_string_of_list_ascii. apply forallb_forall. intros c (g & <- & Hg)%in_map_iff.
  apply base32_text. apply list_elem_of_In, chunks_length in Hg. pose proof (bits_value_range (g ++ repeat false (5 - length g))) as Hr.
  rewrite length_app, repeat_length in Hr. replace (length g + (5 - length g))%nat with 5%nat in Hr by lia. exact Hr.
Qed.

Lemma text_upper s : forallb base32hex (chars s) = true -> forallb base32hex (chars (ToUpper s)) = true.
Proof.
  intros Hs. unfold ToUpper. rewrite map_string_id; [done|]. apply Forall_forall. intros c Hc%list_elem_of_In. apply base32hex_upper. by apply (proj1 (forallb_forall _ _) Hs).
Qed.

Lemma upper_lower_upper c : upper_byte (lower_byte (upper_byte c)) = upper_byte c.
Proof. all_bytes c. Qed.

Lemma map_string_app f a b : map_string f (a +:+ b) = map_string f a +:+ map_string f b.
Proof. apply chars_inj. by rewrite chars_app, !chars_map_string, chars_app, map_app. Qed.

Lemma map_string_ext f g s : (forall c, f c = g c) -> map_string f s = map_string g s.
Proof. intros Hfg. induction s as [|c s IH]; cbn; [done | by rewrite Hfg, IH]. Qed.

Lemma lower_lower c : lower_byte (lower_byte c) = lower_byte c.
Proof. all_bytes c. Qed.

Lemma map_string_comp f g s : map_string f (map_string g s) = map_string (fun c => f (g c)) s.
Proof. induction s as [|c s IH]; cbn; [done | by rewrite IH]. Qed.

#[global] Instance rfc5155_laws : HashLaws.
Proof.
  split.
  - intros n alg it salt. cbn. destruct (hexDecode salt); [|done]. unfold computeNSEC3Hash. apply text_upper, base32hex_encode_text.
  - intros n alg it salt. cbn. by rewrite hexDecode_upper.
  - intros n alg it salt ls Hne Hp Hls. cbn zeta.
    assert (forallb base32hex (chars (HashName n alg it salt)) = true) as Ht.
    { cbn. destruct (hexDecode salt); [|done]. unfold computeNSEC3Hash. apply text_upper, base32hex_encode_text. }
    set (h := HashName n alg it salt) in *. clearbody h. clear n alg it salt.
    assert (ToUpper h = h) as Hu.
    { apply map_string_id, Forall_forall. intros c Hc%list_elem_of_In. apply base32hex_upper. by apply (proj1 (forallb_forall _ _) Ht). }
    destruct (canonicalLabel_base32hex h Hne) as [_ [Hpl _]]; [by rewrite Hu|].
    assert (fqdn (ToLower h :: ls) = ToLower (h +:+ "." +:+ fqdn ls)) as Hf.
    { unfold ToLower. rewrite !map_string_app. fold ToLower. rewrite ToLower_fqdn by done. rewrite (fqdn_dot (_ :: _)), (Join_cons (ToLower h)), (fqdn_dot ls) by done.
      apply chars_inj. rewrite !chars_app, <-!app_assoc. done. }
    split.
    + cbn. unfold plain_fqdn. destruct (fqdn_ends ls) as [s ->].
      assert (h +:+ "." +:+ s +:+ "." = (h +:+ "." +:+ s) +:+ ".") as -> by (apply chars_inj; by rewrite !chars_app, <-!app_assoc).
      by rewrite HasSuffix_dot.
    + exists (ToLower h). split.
      * cbn. assert (splitLabels (h +:+ "." +:+ fqdn ls) = splitLabels (fqdn (ToLower h :: ls))) as ->.
        { unfold splitLabels. rewrite Hf. unfold ToLower. by rewrite map_string_comp, (map_string_ext _ _ _ lower_lower). }
        rewrite splitLabels_fqdn by (by constructor). apply rev_involutive.
      * rewrite <-Hu at 1. unfold ToUpper, ToLower. rewrite !map_string_comp, (map_string_ext _ _ _ upper_lower_upper). exact Hu.
Qed.

(** ** Keys and signatures *)

Definition toy_signature (public : list Z) (rrset : list RR) : string :=
  hex_encode public +:+ ":" +:+ Join (map (fun rr => rr_name rr +:+ "/" +:+ pretty (rr_type rr)) rrset) ",".

#[global] Instance toy_sign : SignLib := {
  CountLabel name := Z.of_nat (length (splitLabels name));
  TimeToString t := pretty t;
  Sign signer r rrset :=
    match signer with
    | EdSigner k =>
        let h := first_header rrset in
        Ok (RRSIG.mk (Hdr.mk (Hdr.Name h) TypeRRSIG (Hdr.Class_ h) (Hdr.Ttl (RRSIG.Hdr r))) (Hdr.Rrtype h) (RRSIG.Algorithm r) (RRSIG.Labels r)
          (RRSIG.OrigTtl r) (RRSIG.Expiration r) (RRSIG.Inception r) (RRSIG.KeyTag r) (RRSIG.SignerName r) (toy_signature (drop SeedSize k) rrset))
    | _ => Err "not supported"
    end;
  VerifyRRSIG r key rrset :=
    match base64_decode (DNSKEY.PublicKey key) with
    | Ok public => if String.eqb (RRSIG.Signature r) (toy_signature public rrset) then None else Some "bad signature"
    | Err e => Some e
    end;
  ValidityPeriod r t := (RRSIG.Inception r <=? unix_seconds t) && (unix_seconds t <=? RRSIG.Expiration r)
}.

Lemma toy_ed key priv k :
  VerifyKeyPairCorrespondence key priv = Ok tt -> signer_of (DNSKEY.Algorithm key) priv = Ok (EdSigner k) ->
  base64_decode (DNSKEY.PublicKey key) = Ok (drop SeedSize k).
Proof.
  unfold signer_of, VerifyKeyPairCorrespondence. destruct (Z.eqb_spec (DNSKEY.Algorithm key) ED25519) as [->|Hne].
  - cbn [isRSA isSHA1RSA orb]. change (isRSA ED25519 || isSHA1RSA ED25519) with false. cbv iota.
    destruct (base64_decode (DNSKEY.PublicKey key)) as [pub|]; [|done]. unfold ed_derived.
    destruct (Nat.eqb (length priv) SeedSize).
    + cbn [res_bind]. destruct (negb (Nat.eqb (length pub) PublicKeySize)); [done|]. cbn [orb]. unfold bytes_equal. case_bool_decide as Hb; [|done].
      intros _ [= <-]. f_equal. by rewrite <-Hb.
    + destruct (Nat.eqb (length priv) PrivateKeySize); [|done]. destruct (negb _); [done|]. cbn [res_bind].
      destruct (negb (Nat.eqb (length pub) PublicKeySize)); [done|]. cbn [orb]. unfold bytes_equal. case_bool_decide as Hb; [|done].
      intros _ [= <-]. f_equal. by rewrite <-Hb.
  - destruct (DNSKEY.Algorithm key =? ECDSAP256SHA256); [destruct (negb _); discriminate|].
    destruct (DNSKEY.Algorithm key =? ECDSAP384SHA384); [destruct (negb _); discriminate|].
    destruct ((DNSKEY.Algorithm key =? RSASHA256) || _); [|discriminate]. destruct (rsaPrivateKeyFromBytes priv); discriminate.
Qed.

#[global] Instance toy_laws : SignLaws.
Proof.
  split.
  - intros signer r rrset r'. destruct signer; [|done..]. by intros [= <-].
  - intros domain key priv signer r rrset r' Hpair Hsigner Hsign _ _ _ _ _ _. destruct signer as [k| |]; [|done..].
    injection Hsign as <-. unfold VerifyRRSIG, toy_sign. rewrite (toy_ed key priv k) by done. cbn [RRSIG.Signature]. by rewrite String.eqb_refl.
  - intros r i e t Hi He Wi We [H1 H2] _. cbn. rewrite Hi, He, !unix32_seconds by done. unfold unix_seconds.
    pose proof (Z.div_le_mono i t Second ltac:(done) H1). pose proof (Z.div_le_mono t e Second ltac:(done) H2).
    apply andb_true_iff. split; apply Z.leb_le; lia.
Qed.

(** ** A zone, its keys and a pass over it *)

Definition presentableb (n : name) : bool :=
  plain_nameb n && forallb (fun l => String.eqb l "*" || negb (existsb (Ascii.eqb "*") (chars l))) n.
Lemma presentableb_ok n : presentableb n = true -> presentable n.
Proof.
  intros [Hp Hs]%andb_true_iff. apply plain_nameb_ok in Hp. unfold plain_name in Hp. unfold presentable. rewrite Forall_forall in Hp. apply Forall_forall.
  intros l Hl. split; [by apply Hp|]. pose proof (proj1 (forallb_forall _ _) Hs l (proj1 (list_elem_of_In _ _) Hl)) as Hb.
  apply orb_true_iff in Hb as [->%String.eqb_eq|Hb%negb_true_iff]; [by left | right]. intros Hin%list_elem_of_In.
  assert (existsb (Ascii.eqb "*") (chars l) = true) as He; [|congruence]. apply existsb_exists. eexists. split; [exact Hin | apply Ascii.eqb_refl].
Qed.

Definition rr_at (owner : string) (t : Z) : RR := RR_Other (Hdr.mk owner t 1 3600) "".
Definition sample_snapshot : list RR := [
  RR_SOA (Hdr.mk "example." TypeSOA 1 3600) "ns.example." "admin.example." [2024; 3600; 900; 86400; 300];
  RR_NS (Hdr.mk "EXAMPLE." TypeNS 1 3600) "ns.example.";
  rr_at "ns.example." 1; rr_at "WWW.Example." 1; rr_at "www.example." 28; rr_at "*.w.example." 16; rr_at "a.ent.example." 16;
  RR_NS (Hdr.mk "sub.example." TypeNS 1 3600) "ns.sub.example."; rr_at "sub.example." TypeDS; rr_at "ns.sub.example." 1].

Definition owners_check (records : list RR) : bool :=
  forallb (fun rr => String.eqb (canon rr) (fqdn (SplitDomainName (rr_name rr))) && presentableb (SplitDomainName (rr_name rr))) records.

Lemma sample_no_denial : no_denial_records sample_snapshot.
Proof.
  intros rr Hin. assert (forallb (fun rr => negb (rr_type rr =? TypeNSEC) && negb (rr_type rr =? TypeRRSIG)) sample_snapshot = true) as Hc by reflexivity.
  pose proof (proj1 (forallb_forall _ _) Hc rr (proj1 (list_elem_of_In _ _) Hin)) as [H1%negb_true_iff%Z.eqb_neq H2%negb_true_iff%Z.eqb_neq]%andb_true_iff. done.
Qed.

Lemma sample_validates : validateZoneRecords "Example" sample_snapshot = Ok tt.
Proof. vm_compute. reflexivity. Qed.

(** The glue below the cut is not in the chain; the empty non-terminals are not. *)
Example sample_chain_owners :
  map (fun n => (Hdr.Name (NSEC.Hdr n), NSEC.NextDomain n)) (nsecs_in (generateNSECChain "Example" sample_snapshot 300)) =
  [("example.", "a.ent.example."); ("a.ent.example.", "ns.example."); ("ns.example.", "sub.example."); ("sub.example.", "*.w.example.");
   ("*.w.example.", "www.example."); ("www.example.", "example.")].
Proof. vm_compute. reflexivity. Qed.


#[global] Instance toy_zone_file : ZoneFileLib := {
  ParseZone data origin path := if String.eqb data "the zone" then (sample_snapshot, None) else ([], Some "syntax error")
}.

Definition sample_dnskey (flags b : Z) : DNSKEY.t :=
  DNSKEY.mk (Hdr.mk "Example." TypeDNSKEY 1 0) flags 3 ED25519 (base64_encode (repeat (255 - b) 32)).
Definition sample_keys : signingKeys.t :=
  signingKeys.mk [sample_dnskey 257 1; sample_dnskey 256 2] [sample_dnskey 257 1] [repeat 1 32] [sample_dnskey 256 2] [repeat 2 32].

Definition sample_info : FileInfo.t := FileInfo.mk true "-" 8 (unix_time 1700000000).
Definition sample_read : SourceRead.t := SourceRead.mk None (Ok sample_info) (Ok "the zone") (Ok sample_info).
Definition sample_clock : SignClock.t :=
  SignClock.mk (unix_time 1700000100) (unix_time 1700000101) (unix_time 1700000103) (unix_time 1700000104) (unix_time 1700000105) (unix_time 1700000106).
Definition sample_path : string := "/zones/example.zone".

Abbreviation sample_pass cfg := (prepareSignedZone cfg "Example" ZoneState.ZoneState.zero sample_keys sample_path sample_read sample_clock).
Example sample_pass_publishes : match sample_pass DefaultConfig with Ok r => (length (signedZone.records r), signedZone.maxRRSIGTTL r) | Err _ => (0%nat, 0) end = (39%nat, 3600).
Proof. vm_compute. reflexivity. Qed.

Definition sample_snap : sourceSnapshot.t :=
  sourceSnapshot.mk sample_snapshot 2024 (FileInfo.ModTime sample_info) 8 (sourceDigestOf "the zone").

Lemma sample_read_snapshot : readSourceSnapshot "Example" sample_path sample_read = Ok sample_snap.
Proof. vm_compute. reflexivity. Qed.

Lemma sample_serial : publishedSerial DefaultConfig "Example" 2024 ZoneState.ZoneState.zero (SignClock.serial_now sample_clock) = Ok 2024.
Proof. vm_compute. reflexivity. Qed.
