(* ===== verification/AuthenticatedSound.v ===== *)
(** * AuthenticatedSound: what a verified RRset stands for, and what it costs

    A returned [VerifiedRRset] names one covering signature of the scanned
    sections, at the expected owner and signer, within its validity period, that
    verifies over exactly the returned records under one of the trusted keys.
    The work is bounded by the budget, whose exhaustion is final. *)

From stdpp Require Import base list strings gmap pretty.
From Stdlib Require Import ZArith Lia.
From S2P Require Import Prelude GoTime Names Nsec Nsec3 Wire Authenticated.
Local Open Scope Z_scope.

Create HintDb sig_budget.

Section sound.
Context `{DnsLib} `{WireLib} `{ValidatorEnv}.
Local Notation V := (St VState.t string).
Implicit Types (s : VState.t) (b : VerifyBudget.t) (sig : RRSIG.t) (keys : list DNSKEYRecord.t).

(** ** The specification of a verified RRset *)

(** Go's check of a signature's validity at one reading of the clock. *)
Definition valid_at (n : nat) sig : Prop :=
  After (now_at n) (TAdd (unix_time (RRSIG.Inception sig)) (- ClockSkewTolerance)) = true /\
  Before (now_at n) (TAdd (unix_time (RRSIG.Expiration sig)) ClockSkewTolerance) = true.

(** The wire key under which a trusted key checks a signature of [signerName]. *)
Definition signing_key (k : DNSKEYRecord.t) (signerName : string) : DNSKEY.t :=
  reconstructDNSKEY (if String.eqb (DNSKEYRecord.Owner k) "" then signerName else DNSKEYRecord.Owner k) k.

Record key_verifies keys sig (records : list RR) (k : DNSKEYRecord.t) : Prop := {
  kv_trusted : k ∈ keys;
  kv_eligible : EligibleForVerification k = true;
  kv_tag : DNSKEYRecord.KeyTag k = RRSIG.KeyTag sig;
  kv_algorithm : DNSKEYRecord.Algorithm k = RRSIG.Algorithm sig;
  kv_zone : keyBelongsToZone k (RRSIG.SignerName sig) = true;
  kv_signature : Verify sig (signing_key k (RRSIG.SignerName sig)) records = None
}.

(** An expected name, when given, is the one found. *)
Definition wanted (expected found : string) : Prop :=
  expected = "" \/ CanonicalName expected = "" \/ found = CanonicalName expected.

Record verified_rrset (scan : list RR) (typeCovered : Z) keys (expectedOwner expectedSigner : string)
    (since until : nat) (v : VerifiedRRset.t) : Prop := {
  vr_type : VerifiedRRset.Type_ v = typeCovered;
  vr_signature : RR_RRSIG (VerifiedRRset.Signature v) ∈ scan;
  vr_covers : RRSIG.TypeCovered (VerifiedRRset.Signature v) = typeCovered;
  vr_owner : VerifiedRRset.Owner v = CanonicalName (Hdr.Name (RRSIG.Hdr (VerifiedRRset.Signature v)));
  vr_want_owner : wanted expectedOwner (VerifiedRRset.Owner v);
  vr_want_signer : wanted expectedSigner (CanonicalName (RRSIG.SignerName (VerifiedRRset.Signature v)));
  vr_records : VerifiedRRset.Records v = rrsetByOwner typeCovered scan (VerifiedRRset.Owner v);
  vr_nonempty : VerifiedRRset.Records v <> [];
  vr_time : exists n, (since <= n < until)%nat /\ valid_at n (VerifiedRRset.Signature v);
  vr_key : key_verifies keys (VerifiedRRset.Signature v) (VerifiedRRset.Records v) (VerifiedRRset.Key v)
}.

(** ** The budget *)

Definition exhausted s : bool := match VState.budget s with Some b => VerifyBudget.exhausted b | None => false end.
Definition budget_limit s : option Z := VerifyBudget.limit <$> VState.budget s.

(** At most [limit] signature verifications have been made. *)
Definition within_budget s : Prop :=
  forall b, VState.budget s = Some b ->
    Z.of_nat (VState.verifications s) <= VerifyBudget.spent b /\ Z.of_nat (VState.verifications s) <= VerifyBudget.limit b.

(** Every verification function moves the state along this preorder. *)
Record budget_step s s' : Prop := {
  bs_limit : budget_limit s' = budget_limit s;
  bs_readings : (VState.readings s <= VState.readings s')%nat;
  bs_sticky : exhausted s = true -> exhausted s' = true /\ VState.verifications s' = VState.verifications s;
  bs_within : within_budget s -> within_budget s'
}.

#[global] Instance budget_step_preorder : PreOrder budget_step.
Proof.
  split; [by constructor|]. intros s s1 s2 [A1 A2 A3 A4] [B1 B2 B3 B4]. constructor.
  - congruence.
  - lia.
  - intros (E1 & Hv)%A3. apply B3 in E1 as (? & ?). split; congruence.
  - auto.
Qed.

(** [m] keeps to the budget, whatever its outcome. *)
Definition budgeted {A} (m : V A) : Prop := forall s, budget_step s (m s).2.

Lemma budgeted_ret {A} (a : A) : budgeted (ret a).
Proof. intros s. reflexivity. Qed.
Lemma budgeted_fail {A} e : budgeted (fail (A := A) e).
Proof. intros s. reflexivity. Qed.
Lemma budgeted_gets {A} (f : VState.t -> A) : budgeted (gets f).
Proof. intros s. reflexivity. Qed.
Lemma budgeted_bind {A B} (m : V A) (k : A -> V B) : budgeted m -> (forall a, budgeted (k a)) -> budgeted (bind m k).
Proof.
  intros Hm Hk s. specialize (Hm s). unfold bind. destruct (m s) as [[a|e] s1]; cbn in *; [|done].
  etrans; [done | apply Hk].
Qed.
Lemma budgeted_catch {A} (m : V A) : budgeted m -> budgeted (catch m).
Proof. intros Hm s. specialize (Hm s). unfold catch. by destruct (m s). Qed.
Lemma budgeted_reading : budgeted reading.
Proof. intros s. constructor; cbn; [done | lia | done | done]. Qed.

(** What [charge n] leaves behind: on success there is room for [n] more. *)
Definition room (n : Z) s : Prop :=
  forall b, VState.budget s = Some b ->
    Z.of_nat (VState.verifications s) + n <= VerifyBudget.spent b /\ VerifyBudget.spent b <= VerifyBudget.limit b.

Local Ltac step_fields :=
  constructor; cbn; unfold exhausted, within_budget; cbn; try done; try lia; try congruence;
  let Hw := fresh in intros Hw ? [= <-]; specialize (Hw _ eq_refl); cbn in *; lia.

Lemma charge_spec n s : 0 <= n ->
  wp (charge n)
    (fun _ s' => budget_step s s' /\ exhausted s = false /\ (within_budget s -> room n s') /\ VState.verifications s' = VState.verifications s)
    (fun e s' => budget_step s s' /\ exhausted s' = true) s.
Proof.
  intros Hn. unfold charge, wp, within_budget, room, exhausted. rewrite bind_gets.
  destruct s as [[b|] r v]; cbn -[Sprintf pretty].
  2:{ split; [reflexivity|]. by split_and!. }
  unfold ctxErr, reading, bind; cbn -[Sprintf pretty].
  destruct (ctx_err r) as [e|]; cbn -[Sprintf pretty].
  { split; [|done]. step_fields. }
  destruct (VerifyBudget.exhausted b) eqn:E; cbn -[Sprintf pretty].
  { split; [|done]. step_fields. }
  destruct (Z.ltb_spec (VerifyBudget.limit b) (VerifyBudget.spent b + n)); cbn -[Sprintf pretty].
  - split; [|done]. step_fields.
  - split_and!; try done.
    + step_fields.
    + intros Hw ? [= <-]; cbn. specialize (Hw _ eq_refl). cbn in Hw. lia.
Qed.

Lemma budgeted_charge n : 0 <= n -> budgeted (charge n).
Proof.
  intros Hn s. pose proof (charge_spec n s Hn) as Hc. unfold wp in Hc.
  destruct (charge n s) as [[[]|e] s1]; cbn; tauto.
Qed.

(** A verification is paid for by the charge before it. *)
Lemma budgeted_charged_verify {A} sig key records (k : option string -> V A) :
  (forall r, budgeted (k r)) -> budgeted (charge 1 ;;; r <-- verify_signature sig key records ;; k r).
Proof.
  intros Hk s. pose proof (charge_spec 1 s ltac:(lia)) as Hc. unfold bind at 1. unfold wp in Hc.
  destruct (charge 1 s) as [[[]|e] s1]; [|tauto]. destruct Hc as (Hstep & He & Hr & Hv).
  unfold bind, verify_signature, modify, ret; cbn. etrans; [|apply Hk]. destruct Hstep as [B1 B2 B3 B4].
  constructor; cbn; [done | done | congruence |].
  intros Hw b Hb. cbn in Hb. specialize (Hr Hw b Hb). cbn. lia.
Qed.
End sound.

#[export] Hint Resolve budgeted_ret budgeted_fail budgeted_gets budgeted_reading budgeted_catch
  budgeted_charged_verify : sig_budget.

(** Follows the control flow of a computation that keeps to the budget. *)
Ltac budgeted_step :=
  first
    [ solve [eauto 2 with sig_budget]
    | apply budgeted_charged_verify; intros ?
    | apply budgeted_bind; [|intros ?]
    | apply budgeted_catch
    | apply budgeted_charge; lia
    | match goal with |- budgeted (match ?x with _ => _ end) => destruct x end
    | match goal with |- budgeted (if ?x then _ else _) => destruct x end ].
Ltac solve_budgeted := repeat (budgeted_step; cbn beta iota zeta).

Section budgets.
Context `{DnsLib} `{WireLib} `{ValidatorEnv}.

Lemma budgeted_time sig : budgeted (rrsigWireTimeValid sig).
Proof. unfold rrsigWireTimeValid, Now. solve_budgeted. Qed.
Lemma budgeted_try_keys sig owner t rrset cands last : budgeted (try_keys sig owner t rrset cands last).
Proof. revert last. induction cands; intros last; cbn [try_keys]; solve_budgeted. Qed.
Hint Resolve budgeted_time budgeted_try_keys : sig_budget.
Lemma budgeted_try_sigs scan t keys eo es candidates last : budgeted (try_sigs scan t keys eo es candidates last).
Proof. revert last. induction candidates; intros last; cbn [try_sigs]; solve_budgeted. Qed.
Hint Resolve budgeted_try_sigs : sig_budget.
Lemma budgeted_in_records scan t keys eo es : budgeted (verifyRRsetInRecords scan t keys eo es).
Proof. unfold verifyRRsetInRecords. solve_budgeted. Qed.
Lemma budgeted_unpack raw : budgeted (unpack_response raw).
Proof. unfold unpack_response. solve_budgeted. Qed.
Hint Resolve budgeted_in_records budgeted_unpack : sig_budget.
Lemma budgeted_rrset raw t keys eo es ao : budgeted (verifyRRsetFromResponseB raw t keys eo es ao).
Proof. unfold verifyRRsetFromResponseB. solve_budgeted. Qed.
Hint Resolve budgeted_rrset : sig_budget.
Lemma budgeted_dnskey raw zone keys : budgeted (verifyDNSKEYRRsetFromResponseB raw zone keys).
Proof. unfold verifyDNSKEYRRsetFromResponseB. solve_budgeted. Qed.
Lemma budgeted_denial_loop scan t keys es order vs rs : budgeted (denial_loop scan t keys es order vs rs).
Proof. revert vs rs. induction order; intros vs rs; cbn [denial_loop]; solve_budgeted. Qed.
Hint Resolve budgeted_denial_loop : sig_budget.
Lemma budgeted_denial_rrsets raw t keys es : budgeted (verifyDenialRRsetsFromResponseB raw t keys es).
Proof. unfold verifyDenialRRsetsFromResponseB. solve_budgeted. Qed.
Hint Resolve budgeted_denial_rrsets : sig_budget.
Lemma budgeted_denial_rrsig t kind e keys zone raw prove proof : budgeted (denial_with_rrsig t kind e keys zone raw prove proof).
Proof. unfold denial_with_rrsig. solve_budgeted. Qed.
Hint Resolve budgeted_denial_rrsig : sig_budget.
Lemma budgeted_nsec qname qtype recs keys zone raw rcode : budgeted (verifyNSECDenialWithRRSIGB qname qtype recs keys zone raw rcode).
Proof. unfold verifyNSECDenialWithRRSIGB. solve_budgeted. Qed.
Lemma budgeted_nsec3 qname qtype recs keys zone raw rcode : budgeted (verifyNSEC3DenialWithRRSIGB qname qtype recs keys zone raw rcode).
Proof. unfold verifyNSEC3DenialWithRRSIGB. solve_budgeted. Qed.
End budgets.

#[export] Hint Resolve budgeted_rrset budgeted_dnskey budgeted_denial_rrsets budgeted_nsec budgeted_nsec3 budgeted_in_records
  budgeted_unpack budgeted_try_keys budgeted_time budgeted_try_sigs : sig_budget.

(** ** Soundness *)

Section soundness.
Context `{DnsLib} `{WireLib} `{ValidatorEnv}.
Local Notation V := (St VState.t string).
Implicit Types (s : VState.t) (sig : RRSIG.t) (keys : list DNSKEYRecord.t).

Lemma dedupe_by_elem {A} (id : A -> string) seen (l : list A) x : x ∈ dedupe_by id seen l -> x ∈ l.
Proof.
  revert seen. induction l as [|y l IH]; intros seen; cbn; [done|].
  destruct (str_in seen (id y)); rewrite ?elem_of_cons; naive_solver.
Qed.

Lemma covering_sigs_elem t scan sig :
  sig ∈ covering_sigs t scan <-> RR_RRSIG sig ∈ scan /\ RRSIG.TypeCovered sig = t.
Proof.
  unfold covering_sigs. rewrite list_elem_of_omap. split.
  - intros (rr & Hin & Hs). destruct rr; try done. case_match; [|done]. simplify_eq. split; [done | by apply Z.eqb_eq].
  - intros (Hin & Ht). exists (RR_RRSIG sig). split; [done|]. apply Z.eqb_eq in Ht. by rewrite Ht.
Qed.

Lemma EligibleKeysByKeyTag_elem tag keys k :
  k ∈ EligibleKeysByKeyTag tag keys <-> k ∈ keys /\ DNSKEYRecord.KeyTag k = tag /\ EligibleForVerification k = true.
Proof.
  unfold EligibleKeysByKeyTag. rewrite list_elem_of_In, filter_In, <- list_elem_of_In, andb_true_iff, Z.eqb_eq. tauto.
Qed.

Lemma trustedKeyForSigner_ok k signer key :
  trustedKeyForSigner k signer = Ok key -> key = signing_key k signer /\ keyBelongsToZone k signer = true.
Proof.
  unfold trustedKeyForSigner, keyBelongsToZone, signing_key. destruct (String.eqb (DNSKEYRecord.Owner k) ""); [by intros [= <-]|].
  destruct (String.eqb _ _) eqn:E; cbn; [by intros [= <-] | done].
Qed.

Lemma try_keys_sound sig owner t records keys cands last s :
  (forall k, k ∈ cands -> k ∈ EligibleKeysByKeyTag (RRSIG.KeyTag sig) keys) ->
  wp (try_keys sig owner t records cands last)
    (fun r _ => match r with
                | inl v => exists k, v = VerifiedRRset.mk owner t records sig k /\ key_verifies keys sig records k
                | inr _ => True
                end) (fun _ _ => True) s.
Proof.
  revert last s. induction cands as [|k cands IH]; intros last s Hall; cbn [try_keys]; [done|].
  assert (Hrest : forall k', k' ∈ cands -> k' ∈ EligibleKeysByKeyTag (RRSIG.KeyTag sig) keys) by (intros; apply Hall; by right).
  destruct (Z.eqb_spec (DNSKEYRecord.Algorithm k) (RRSIG.Algorithm sig)) as [Ha|]; cbn [negb]; [|by apply IH].
  destruct (trustedKeyForSigner k (RRSIG.SignerName sig)) as [key|e] eqn:Ek; [|by apply IH].
  apply trustedKeyForSigner_ok in Ek as (-> & Hz).
  apply wp_bind. eapply wp_mono; [apply (charge_spec 1); lia| |done]. intros [] s1 _.
  unfold wp, bind, verify_signature, modify, ret; cbn [fst snd].
  destruct (Verify _ _ _) as [e|] eqn:Ev; [by apply IH|].
  exists k. split; [done|]. destruct (proj1 (EligibleKeysByKeyTag_elem _ _ _) (Hall k ltac:(by left))) as (? & ? & ?).
  by constructor.
Qed.

Lemma wanted_check expected found :
  negb (String.eqb (if String.eqb expected "" then "" else CanonicalName expected) "") &&
  negb (String.eqb found (if String.eqb expected "" then "" else CanonicalName expected)) = false ->
  wanted expected found.
Proof.
  unfold wanted. destruct (String.eqb_spec expected "") as [->|]; [by left|]. rewrite andb_false_iff, !negb_false_iff, !String.eqb_eq. tauto.
Qed.

Lemma rrsigWireTimeValid_run sig s :
  wp (rrsigWireTimeValid sig)
    (fun valid s' => s' = s <| VState.readings := S (VState.readings s) |> /\ (valid = true -> valid_at (VState.readings s) sig))
    (fun _ _ => False) s.
Proof. split; [done|]. by intros (? & ?)%andb_true_iff. Qed.

Lemma budgeted_wp {A} (m : V A) (Q : A -> VState.t -> Prop) R s :
  budgeted m -> wp m Q R s -> wp m (fun a s' => budget_step s s' /\ Q a s') (fun e s' => budget_step s s' /\ R e s') s.
Proof. unfold budgeted, wp. intros Hm. specialize (Hm s). by destruct (m s) as [[a|e] s']. Qed.

Lemma verified_rrset_weaken scan t keys eo es n n' m m' v : (n' <= n)%nat -> (m <= m')%nat ->
  verified_rrset scan t keys eo es n m v -> verified_rrset scan t keys eo es n' m' v.
Proof. intros ?? [? ? ? ? ? ? ? ? (i & ? & ?) ?]. constructor; try done. exists i. split; [lia | done]. Qed.
Lemma try_sigs_sound scan t keys eo es candidates last s :
  (forall sig, sig ∈ candidates -> sig ∈ covering_sigs t scan) ->
  wp (try_sigs scan t keys eo es candidates last)
    (fun v s' => verified_rrset scan t keys eo es (VState.readings s) (VState.readings s') v) (fun _ _ => True) s.
Proof.
  revert last s. induction candidates as [|sig cands IH]; intros last s Hall; [done|].
  assert (Hrest : forall sig', sig' ∈ cands -> sig' ∈ covering_sigs t scan) by (intros; apply Hall; by right).
  assert (Hskip : forall last' s1, (VState.readings s <= VState.readings s1)%nat -> wp (try_sigs scan t keys eo es cands last')
    (fun v s' => verified_rrset scan t keys eo es (VState.readings s) (VState.readings s') v) (fun _ _ => True) s1).
  { intros last' s1 Hle. eapply wp_mono; [by apply IH| |done]. intros v s2. by apply verified_rrset_weaken. }
  specialize (Hall sig ltac:(by left)). apply covering_sigs_elem in Hall as (Hin & Ht).
  cbn [try_sigs]. set (owner := CanonicalName (Hdr.Name (RRSIG.Hdr sig))).
  destruct (negb (String.eqb (if String.eqb eo "" then "" else _) "") && _) eqn:Eo; [by apply Hskip|]. apply wanted_check in Eo.
  destruct (negb (String.eqb (if String.eqb es "" then "" else _) "") && _) eqn:Es; [by apply Hskip|]. apply wanted_check in Es.
  destruct (rrsetByOwner t scan owner) as [|r rs] eqn:Er; [by apply Hskip|].
  apply wp_bind. eapply wp_mono; [apply rrsigWireTimeValid_run| |done]. intros valid s0 (-> & Hvalid).
  destruct valid; cbn [negb]; [|apply Hskip; cbn; lia].
  destruct (EligibleKeysByKeyTag (RRSIG.KeyTag sig) keys) as [|k ks] eqn:Ek; [apply Hskip; cbn; lia|].
  apply wp_bind. eapply wp_mono; [apply budgeted_wp; [auto with sig_budget | apply (try_keys_sound _ _ _ _ keys); rewrite Ek; auto] | |done].
  intros [v|last'] s1 ([_ Hle _ _] & Hv); cbn in Hle; [|apply Hskip; lia].
  destruct Hv as (k' & -> & Hk). unfold wp, ret. constructor; cbn; try done.
  - exists (VState.readings s). split; [lia | auto].
Qed.

Lemma verifyRRsetInRecords_sound scan t keys eo es s :
  wp (verifyRRsetInRecords scan t keys eo es)
    (fun v s' => verified_rrset scan t keys eo es (VState.readings s) (VState.readings s') v) (fun _ _ => True) s.
Proof.
  unfold verifyRRsetInRecords. destruct (dedupe_by sig_id [] (covering_sigs t scan)) eqn:Ed; [done|].
  assert (Hkeys : forall v n m, verified_rrset scan t (dedupeKeys keys) eo es n m v -> verified_rrset scan t keys eo es n m v).
  { intros v n m [? ? ? ? ? ? ? ? ? [Hk ? ? ? ? ?]]. constructor; try done. constructor; try done. by eapply dedupe_by_elem. }
  eapply wp_mono; [apply try_sigs_sound| |done].
  - intros sig Hin. rewrite <- Ed in Hin. by eapply dedupe_by_elem.
  - intros v s'. apply Hkeys.
Qed.

Lemma unpack_response_run raw s :
  match unpack_response raw s with
  | (Ok msg, s') => s' = s /\ Unpack raw = Ok msg
  | (Err _, s') => s' = s
  end.
Proof. unfold unpack_response. destruct raw; [done|]. by destruct (Unpack _). Qed.

(** The sections a verification scans. *)
Definition scanned (answerOnly : bool) (msg : Msg.t) : list RR :=
  if answerOnly then Msg.Answer msg else Msg.Answer msg ++ Msg.Ns msg ++ Msg.Extra msg.

Lemma verifyRRsetFromResponseB_sound raw t keys eo es ao s :
  wp (verifyRRsetFromResponseB raw t keys eo es ao)
    (fun v s' => exists msg, Unpack raw = Ok msg /\
      verified_rrset (scanned ao msg) t keys eo es (VState.readings s) (VState.readings s') v) (fun _ _ => True) s.
Proof.
  unfold verifyRRsetFromResponseB. apply wp_bind. unfold wp at 1.
  pose proof (unpack_response_run raw s) as Hu. destruct (unpack_response raw s) as [[msg|e] s1]; [|done].
  destruct Hu as (-> & Hu). eapply wp_mono; [apply verifyRRsetInRecords_sound| |done]. eauto.
Qed.

(** *** The denial RRsets *)

(** An owner's records and signatures alone verify like the whole scan. *)
Lemma rrset_of_owner_scan t scan owner :
  rrsetByOwner t (rrsetByOwner t scan owner ++ map RR_RRSIG (sigsByOwner t scan owner)) owner = rrsetByOwner t scan owner.
Proof.
  unfold rrsetByOwner at 1, typed_records. rewrite !List.filter_app.
  assert (Hs : List.filter (fun rr => negb (is_rrsig rr) && (rr_type rr =? t)) (map RR_RRSIG (sigsByOwner t scan owner)) = []).
  { generalize (sigsByOwner t scan owner). by induction 0. }
  rewrite Hs, app_nil_r.
  unfold rrsetByOwner, typed_records. generalize scan. induction scan0 as [|rr l IH]; cbn; [done|].
  destruct (negb (is_rrsig rr) && (rr_type rr =? t)) eqn:E1; cbn; [|done].
  destruct (String.eqb _ _) eqn:E2; cbn; [|done]. rewrite E1; cbn. rewrite E2. by f_equal.
Qed.

Lemma sigsByOwner_elem t scan owner sig :
  sig ∈ sigsByOwner t scan owner -> RR_RRSIG sig ∈ scan /\ CanonicalName (Hdr.Name (RRSIG.Hdr sig)) = owner.
Proof.
  unfold sigsByOwner. rewrite list_elem_of_In, filter_In, <- list_elem_of_In, covering_sigs_elem, String.eqb_eq. tauto.
Qed.

Lemma rrsetByOwner_not_rrsig t scan owner rr : rr ∈ rrsetByOwner t scan owner -> is_rrsig rr = false /\ rr ∈ scan /\ rr_type rr = t.
Proof.
  unfold rrsetByOwner, typed_records. rewrite !list_elem_of_In, !filter_In, andb_true_iff, negb_true_iff, Z.eqb_eq. tauto.
Qed.

(** What a denial uses: an RRset verified from the Answer or Authority section and
    owned inside the zone. *)
Definition denial_rrset (msg : Msg.t) (t : Z) keys (zone : string) (since until : nat) (v : VerifiedRRset.t) : Prop :=
  verified_rrset (Msg.Answer msg ++ Msg.Ns msg) t keys "" zone since until v /\
  (zone <> "" -> CanonicalName zone <> "" -> IsSubDomain (CanonicalName zone) (VerifiedRRset.Owner v) = true).

Lemma owner_scan_sound t scan keys owner zone n m v :
  verified_rrset (rrsetByOwner t scan owner ++ map RR_RRSIG (sigsByOwner t scan owner)) t keys owner zone n m v ->
  verified_rrset scan t keys "" zone n m v /\ VerifiedRRset.Owner v = owner.
Proof.
  intros [Hty Hs Hc Ho Hwo Hws Hr Hne Htime Hk].
  apply elem_of_app in Hs as [(Hs & _)%rrsetByOwner_not_rrsig | Hs]; [done|].
  apply list_elem_of_fmap in Hs as (sig & [= <-] & Hs). apply sigsByOwner_elem in Hs as (Hin & Hso).
  rewrite Hso in Ho. rewrite Ho, rrset_of_owner_scan in Hr.
  split; [constructor; try done | done]. all: rewrite ?Ho, ?Hso; try done. by left.
Qed.

Lemma denial_loop_sound scan t keys zone order vs rs since s :
  let ok until v := verified_rrset scan t keys "" zone since until v /\
    (zone <> "" -> CanonicalName zone <> "" -> IsSubDomain (CanonicalName zone) (VerifiedRRset.Owner v) = true) in
  (since <= VState.readings s)%nat -> Forall (ok (VState.readings s)) vs ->
  wp (denial_loop scan t keys zone order vs rs)
    (fun r s' => Forall (ok (VState.readings s')) r.1) (fun _ _ => True) s.
Proof.
  intros ok. revert vs rs s. induction order as [|owner order IH]; intros vs rs s Hle Hvs; cbn [denial_loop]; [done|].
  destruct (sigsByOwner t scan owner) as [|sig sigs] eqn:Es; [by apply IH|]. rewrite <- Es.
  destruct (negb (String.eqb (if String.eqb zone "" then "" else _) "") && _) eqn:Ez; [by apply IH|].
  set (sub := rrsetByOwner t scan owner ++ map RR_RRSIG (sigsByOwner t scan owner)).
  apply wp_bind. unfold catch. unfold wp at 1.
  pose proof (budgeted_in_records sub t keys owner zone s) as [_ Hr _ _].
  pose proof (verifyRRsetInRecords_sound sub t keys owner zone s) as Hv. unfold wp in Hv.
  assert (Hgrow : forall s1, (VState.readings s <= VState.readings s1)%nat -> Forall (ok (VState.readings s1)) vs).
  { intros s1 ?. eapply Forall_impl; [done|]. intros v (Hok & ?). split; [|done]. revert Hok. by apply verified_rrset_weaken. }
  destruct (verifyRRsetInRecords _ _ _ _ _ s) as [[v|e] s1]; cbn in Hr.
  - apply IH; [lia|]. apply Forall_app. split; [auto|]. apply Forall_singleton.
    apply owner_scan_sound in Hv as (Hv & <-). split; [revert Hv; by apply verified_rrset_weaken|].
    intros Hz Hcz. rewrite andb_false_iff, !negb_false_iff in Ez. destruct (String.eqb_spec zone ""); [done|].
    destruct Ez as [Ez|]; [|done]. by apply String.eqb_eq in Ez.
  - destruct (isBudgetExhaustedText e); [done|]. apply IH; [lia | auto].
Qed.

Lemma verifyDenialRRsetsFromResponseB_sound raw t keys zone s :
  wp (verifyDenialRRsetsFromResponseB raw t keys zone)
    (fun r s' => r.1 <> [] /\ exists msg, Unpack raw = Ok msg /\
      Forall (denial_rrset msg t keys zone (VState.readings s) (VState.readings s')) r.1) (fun _ _ => True) s.
Proof.
  unfold verifyDenialRRsetsFromResponseB. apply wp_bind. unfold wp at 1.
  pose proof (unpack_response_run raw s) as Hu. destruct (unpack_response raw s) as [[msg|e] s1]; [|done].
  destruct Hu as (-> & Hu). destruct (denial_owners _ _) as [|o os]; [done|].
  apply wp_bind. eapply wp_mono; [apply (denial_loop_sound _ _ _ _ _ _ _ (VState.readings s)); [done | constructor] | |done].
  intros [[|v vs] rej] s2 Hv; cbn [fst snd] in *; [done|]. unfold wp, ret. split; [done|]. eauto.
Qed.
End soundness.
