(* ===== verification/ChainSound.v ===== *)
(** * ChainSound: evidence of a chain of trust

    Which keys a DS RRset and the anchors authenticate, exactly; what the messages
    of the transport promise ([WireLaws]); and the evidence a trusted set of zone
    keys rests on ([trust_chain]): an anchor pinned in the binary at the root, then
    for each zone a DS RRset verified under its parent's trusted keys and a DNSKEY
    RRset verified under a key that RRset matches. *)

From stdpp Require Import base list strings gmap pretty.
From Stdlib Require Import ZArith Lia.
From S2P Require Import Prelude GoTime Names Egress Nsec Nsec3 Wire Authenticated Anchors Chain Resolver Results ParentDS AuthenticatedSound.
Local Open Scope Z_scope.

(** ** The keys that records match *)

Lemma elem_of_Filter {A} (f : A -> bool) l x : x ∈ List.filter f l <-> x ∈ l /\ f x = true.
Proof. rewrite !list_elem_of_In, filter_In. done. Qed.

Lemma indexed_elem {A} (l : list A) i0 i x : (i, x) ∈ combine (seq i0 (length l)) l -> x ∈ l.
Proof. rewrite !list_elem_of_In. apply in_combine_r. Qed.

Lemma elem_indexed {A} (l : list A) i0 x : x ∈ l -> exists i, (i, x) ∈ combine (seq i0 (length l)) l.
Proof.
  intros Hx. revert i0. induction Hx as [x l|x y l _ IH]; intros i0; cbn; [exists i0; left|].
  destruct (IH (S i0)) as [i Hi]. exists i. by right.
Qed.

Lemma indexed_functional {A} (l : list A) i0 i x y :
  (i, x) ∈ combine (seq i0 (length l)) l -> (i, y) ∈ combine (seq i0 (length l)) l -> x = y.
Proof.
  revert i0. assert (Hlow : forall (l : list A) i0 i x, (i, x) ∈ combine (seq i0 (length l)) l -> (i0 <= i)%nat).
  { clear. intros l i0 i x Hx. apply list_elem_of_In, in_combine_l, in_seq in Hx. lia. }
  induction l as [|z l IH]; intros i0; cbn; [by intros ?%not_elem_of_nil|].
  intros [[= -> ->]|Hx]%elem_of_cons [Heq|Hy]%elem_of_cons.
  - by injection Heq.
  - apply Hlow in Hy. lia.
  - injection Heq as -> ->. apply Hlow in Hx. lia.
  - by eapply IH.
Qed.

(** With the first records' matches already taken, what the rest adds. *)
Lemma collect_keys_elem {A} (matches : A -> DNSKEYRecord.t -> bool) keys records seen k :
  (exists i, (i, k) ∈ collect_keys matches keys records seen) ->
  k ∈ keys /\ exists r, r ∈ records /\ matches r k = true.
Proof.
  revert seen. induction records as [|r records IH]; intros seen [i Hi]; [by apply not_elem_of_nil in Hi|].
  cbn [collect_keys] in Hi. apply elem_of_app in Hi as [[Hc Hm]%elem_of_Filter|Hi].
  - apply andb_true_iff in Hm as [_ Hm]. split; [by eapply indexed_elem | exists r; split; [by left | done]].
  - destruct (IH _ (ex_intro _ i Hi)) as (Hk & r' & Hr' & Hm). split; [done|]. exists r'. split; [by right | done].
Qed.

Lemma collect_keys_complete {A} (matches : A -> DNSKEYRecord.t -> bool) keys records seen i k r :
  (i, k) ∈ combine (seq 0 (length keys)) keys -> r ∈ records -> matches r k = true ->
  i ∈ seen \/ (i, k) ∈ collect_keys matches keys records seen.
Proof.
  intros Hi Hr Hm. revert seen. induction Hr as [r records|r r' records Hr IH]; intros seen; cbn [collect_keys].
  - destruct (existsb (Nat.eqb i) seen) eqn:Hs.
    + left. apply existsb_exists in Hs as (j & Hj & ->%Nat.eqb_eq). by apply list_elem_of_In.
    + right. apply elem_of_app. left. apply elem_of_Filter. by rewrite Hs, Hm.
  - set (new := List.filter _ _). destruct (IH Hm (map fst new ++ seen)) as [[Hin|Hin]%elem_of_app|Hin].
    + right. apply elem_of_app. left. apply list_elem_of_In, in_map_iff in Hin as ([j k'] & Hj & Hnew). cbn in Hj. subst j.
      apply list_elem_of_In in Hnew. pose proof Hnew as [Hc _]%elem_of_Filter.
      by rewrite (indexed_functional _ _ _ _ _ Hi Hc).
    + by left.
    + right. apply elem_of_app. by right.
Qed.

Lemma collected {A} (matches : A -> DNSKEYRecord.t -> bool) keys records k :
  k ∈ map snd (collect_keys matches keys records []) <-> k ∈ keys /\ exists r, r ∈ records /\ matches r k = true.
Proof.
  rewrite list_elem_of_In, in_map_iff. split.
  - intros ([i k'] & <- & Hin%list_elem_of_In). apply (collect_keys_elem matches keys records []). by exists i.
  - intros [(i & Hi)%(elem_indexed keys 0) (r & Hr & Hm)].
    destruct (collect_keys_complete matches keys records [] i k r Hi Hr Hm) as [?%not_elem_of_nil|Hc]; [done|].
    exists (i, k). split; [done | by apply list_elem_of_In].
Qed.

(** ** What the transport's messages promise *)

Definition well_typed (rr : RR) : Prop :=
  match rr with
  | RR_RRSIG _ => rr_type rr = 46
  | RR_DNSKEY _ => rr_type rr = TypeDNSKEY
  | RR_DS _ => rr_type rr = TypeDS
  | RR_NSEC _ => rr_type rr = TypeNSEC
  | RR_NSEC3 _ => rr_type rr = TypeNSEC3
  | RR_NS _ _ => rr_type rr = TypeNS
  | RR_CNAME _ _ => rr_type rr = TypeCNAME
  | RR_DNAME _ _ => rr_type rr = TypeDNAME
  | _ => rr_type rr ∉ [46; TypeDNSKEY; TypeDS; TypeNSEC; TypeNSEC3; TypeNS; TypeCNAME; TypeDNAME]
  end.

Definition all_records (m : Msg.t) : list RR := Msg.Answer m ++ Msg.Ns m ++ Msg.Extra m.

(** A fully qualified name is never empty; the DNS library gives a record of a known
    type its structure and every record a name; and a received message survives
    packing and unpacking. *)
Class WireLaws `{DnsLib} `{ValidatorEnv} `{Network} : Prop := {
  fqdn_nonempty : forall s, Fqdn s <> "";
  canonical_nonempty : forall s, CanonicalName s <> "";
  received_round_trip : forall n server qname qtype rd m raw,
    Exchanged.resp (ExchangeContext n server qname qtype rd) = Ok m -> Pack m = Some raw -> Unpack raw = Ok m;
  unpacked_records : forall raw m rr, Unpack raw = Ok m -> rr ∈ all_records m -> rr_name rr <> "" /\ well_typed rr
}.

Section evidence.
Context `{DnsLib} `{WireLib} `{ValidatorEnv} `{Network} `{ChainLib}.

Lemma CollectDSMatchedKeys_elem parentDS keys zone k :
  k ∈ CollectDSMatchedKeys parentDS keys zone <->
  k ∈ keys /\ exists d, d ∈ parentDS /\ ds_authenticates zone d k = true.
Proof. apply collected. Qed.

Lemma CollectAnchorMatchedKeys_elem keys anchors k :
  k ∈ CollectAnchorMatchedKeys keys anchors <->
  k ∈ keys /\ exists a, a ∈ anchors /\ anchor_authenticates a k = true.
Proof. apply collected. Qed.

Lemma SupportedDSRecords_fst ds : (SupportedDSRecords ds).1 = List.filter supported_ds ds.
Proof.
  unfold SupportedDSRecords. enough (forall acc, (fold_left (fun '(supported, unsupported) d =>
    if supported_ds d then (supported ++ [d], unsupported) else (supported, unsupported ++ [d])) ds acc).1 = acc.1 ++ List.filter supported_ds ds)
    as Hall by apply (Hall ([], [])).
  induction ds as [|d ds IH]; intros [a b]; cbn; [by rewrite app_nil_r|].
  destruct (supported_ds d); rewrite IH; cbn; by rewrite <-?app_assoc.
Qed.

(** ** The evidence *)

Definition verified (scan : list RR) (t : Z) (keys : list DNSKEYRecord.t) (owner signer : string) (v : VerifiedRRset.t) : Prop :=
  exists since until, verified_rrset scan t keys owner signer since until v.

(** The zone keys of a verified DNSKEY RRset. *)
Definition zone_keys (v : VerifiedRRset.t) : list DNSKEYRecord.t :=
  omap (fun rr => match rr with RR_DNSKEY d => Some (DNSKEYFromRR d SectionAnswer) | _ => None end) (VerifiedRRset.Records v).

(** An anchor of the loaded document, in its period at a reading of the clock and
    pinned in the binary. *)
Definition active_anchor (anchors : option RootAnchors.t) (a : Anchor.t) : Prop :=
  (exists ra, anchors = Some ra /\ a ∈ RootAnchors.Anchors ra) /\ (exists n, anchor_active (now_at n) a = true) /\
  IsPinnedRootAnchor a = true.

(** A DNSKEY RRset of [zone] in some response, verified under one of [authed],
    which are among its keys. *)
Definition dnskey_evidence (zone : string) (authed keys : list DNSKEYRecord.t) : Prop :=
  exists raw msg v, Unpack raw = Ok msg /\ verified (Msg.Answer msg) TypeDNSKEY authed zone zone v /\
    keys = zone_keys v /\ keys <> [] /\ authed ⊆ keys.

(** A DS RRset of [zone] in some response, verified under the parent's keys. *)
Definition ds_evidence (zone : string) (parentKeys : list DNSKEYRecord.t) (ds : list DSRecord.t) : Prop :=
  exists raw msg parentZone v, Unpack raw = Ok msg /\ verified (Msg.Answer msg) TypeDS parentKeys zone parentZone v /\
    ds = dsRecordsFromVerified v.

Inductive trust_chain (anchors : option RootAnchors.t) : string -> list DNSKEYRecord.t -> Prop :=
| trust_root authed keys :
    (forall k, k ∈ authed -> exists a, active_anchor anchors a /\ anchor_authenticates a k = true) ->
    dnskey_evidence "." authed keys ->
    trust_chain anchors "." keys
| trust_child zone authed keys parent parentKeys ds :
    trust_chain anchors parent parentKeys ->
    ds_evidence zone parentKeys ds ->
    (forall k, k ∈ authed -> exists d, d ∈ ds /\ supported_ds d = true /\ ds_authenticates zone d k = true) ->
    dnskey_evidence zone authed keys ->
    trust_chain anchors zone keys.

(** ** Parsed responses *)

Definition dnskeys_of (section : string) (rrs : list RR) : list DNSKEYRecord.t :=
  omap (fun rr => match rr with RR_DNSKEY d => Some (DNSKEYFromRR d section) | _ => None end) rrs.

(** The served DNSKEY records are those of the message in the raw response. *)
Definition parsed (qr : QueryResult.t) : Prop :=
  QueryResult.RawResponse qr <> [] ->
  exists m, Unpack (QueryResult.RawResponse qr) = Ok m /\
    QueryResult.DNSKEY qr = dnskeys_of SectionAnswer (Msg.Answer m) ++ dnskeys_of SectionAuthority (Msg.Ns m)
      ++ dnskeys_of SectionAdditional (Msg.Extra m).

Lemma parseSection_DNSKEY rrs section now r :
  QueryResult.DNSKEY (parseSection rrs section now r) = QueryResult.DNSKEY r ++ dnskeys_of section rrs.
Proof.
  unfold parseSection. revert r. induction rrs as [|rr rrs IH]; intros r; cbn [fold_left]; [by rewrite app_nil_r|].
  rewrite IH. destruct rr; cbn; by rewrite <-?app_assoc.
Qed.

Lemma parseSection_RawResponse rrs section now r :
  QueryResult.RawResponse (parseSection rrs section now r) = QueryResult.RawResponse r.
Proof.
  unfold parseSection. revert r. induction rrs as [|rr rrs IH]; intros r; cbn [fold_left]; [done|]. rewrite IH. by destruct rr.
Qed.

Lemma query_parsed `{!WireLaws} server qname qtype rd : ensures (QueryWithRecursion server qname qtype rd) parsed.
Proof.
  unfold QueryWithRecursion. eapply (ensures_bind _ _ (fun ex => forall m raw, Exchanged.resp ex = Ok m -> Pack m = Some raw -> Unpack raw = Ok m)).
  - unfold exchange. destruct (Permit _ _); [by apply ensures_ret|]. apply ensures_then. intros n. apply ensures_ret. apply received_round_trip.
  - intros ex Hex. cbn zeta. destruct (Exchanged.resp ex) as [resp|err] eqn:Er; [|apply ensures_ret; by intros Hne].
    apply ensures_then. intros now. apply ensures_ret. intros Hne. unfold parseResponse in *.
    rewrite !parseSection_RawResponse in *. rewrite !parseSection_DNSKEY.
    destruct (Pack resp) as [raw|] eqn:Ep; [|done]. exists resp. cbn. split; [by apply Hex | by rewrite <-app_assoc].
Qed.

(** The keys a parsed response serves for a zone are the zone's DNSKEY RRset. *)
Lemma answerDNSKEYs_app ks ks' zone :
  answerDNSKEYsOwnedBy (ks ++ ks') zone = answerDNSKEYsOwnedBy ks zone ++ answerDNSKEYsOwnedBy ks' zone.
Proof. apply List.filter_app. Qed.

Lemma answerDNSKEYs_other section rrs zone :
  section = SectionAuthority \/ section = SectionAdditional -> answerDNSKEYsOwnedBy (dnskeys_of section rrs) zone = [].
Proof.
  intros Hs. unfold answerDNSKEYsOwnedBy, dnskeys_of, served_at.
  induction rrs as [|rr rrs IH]; [done|]. destruct rr; cbn; try done. by destruct Hs as [-> | ->].
Qed.

Lemma answerDNSKEYs_answer rrs zone :
  (forall rr, rr ∈ rrs -> rr_name rr <> "" /\ well_typed rr) ->
  answerDNSKEYsOwnedBy (dnskeys_of SectionAnswer rrs) zone =
  dnskeys_of SectionAnswer (rrsetByOwner TypeDNSKEY rrs (CanonicalName zone)).
Proof.
  unfold answerDNSKEYsOwnedBy, dnskeys_of, served_at, rrsetByOwner, typed_records.
  induction rrs as [|rr rrs IH]; intros Hall; [done|].
  assert (Hrr := Hall rr ltac:(by left)). assert (Hrest : forall rr, rr ∈ rrs -> rr_name rr <> "" /\ well_typed rr) by (intros; apply Hall; by right).
  specialize (IH Hrest). destruct Hrr as [Hname Hty].
  destruct rr; cbn -[rr_type rr_name] in *; rewrite ?IH;
    try (replace (rr_type _ =? TypeDNSKEY) with false by (symmetry; apply Z.eqb_neq; intros He; rewrite He in Hty; by (try apply Hty; set_solver))); try done.
  rewrite Hty, Z.eqb_refl. cbn -[rr_type rr_name]. unfold rr_name in *. cbn in *.
  destruct (String.eqb_spec (Hdr.Name (DNSKEY.Hdr v)) ""); [done|]. cbn.
  by destruct (String.eqb _ _); cbn; rewrite ?IH.
Qed.
End evidence.
