(* ===== verification/ZoneSound.v ===== *)
(** * ZoneSound: a secure zone carries its evidence

    Every result of [validateZone] that is secure holds the DNSKEY RRset verified
    under a key that the active pinned anchors (at the root) or a DS RRset verified
    under the parent's keys authenticate; the status is always a verdict. *)

From stdpp Require Import base list strings gmap pretty.
From Stdlib Require Import ZArith Lia.
From S2P Require Import Prelude GoTime Names Nsec Nsec3 Wire Authenticated Anchors Chain Resolver Results Rdap ParentDS ZoneAuth AuthenticatedSound ChainSound.
Local Open Scope Z_scope.

Section zone.
Context `{DnsLib} `{WireLib} `{ValidatorEnv} `{Network} `{ChainLib} `{RdapEnv} `{!WireLaws} (v : Validator.t).
Implicit Types (srs : list AddressResult.t).

(** ** The evidence a computation hands on *)

Lemma verifyRRset_ensures raw t keys eo es :
  ensures (verifyRRsetFromResponseB raw t keys eo es true)
    (fun v => exists msg, Unpack raw = Ok msg /\ verified (Msg.Answer msg) t keys eo es v).
Proof.
  intros s. eapply wp_mono; [apply verifyRRsetFromResponseB_sound | | done]. intros rr s' (msg & Hu & Hv).
  exists msg. split; [done|]. by exists (VState.readings s), (VState.readings s').
Qed.

(** *** The servers *)

Definition server_ok (sr : AddressResult.t) : Prop := forall qr, AddressResult.Response sr = Some qr -> parsed qr.

Lemma query_servers_ok zone servers : ensures (query_servers zone servers) (Forall server_ok).
Proof.
  induction servers as [|srv servers IH]; cbn [query_servers]; [by apply ensures_ret|].
  apply ensures_then. intros [e|].
  - apply ensures_ret, Forall_forall. intros sr (srv' & -> & _)%list_elem_of_fmap. by intros qr.
  - eapply ensures_bind; [apply query_parsed|]. intros qr Hqr. eapply ensures_bind; [apply IH|]. intros results Hres.
    apply ensures_ret. constructor; [|done]. unfold server_result. intros qr'.
    destruct (negb _); [done|]. destruct (negb _); [done|]. by intros [= <-].
Qed.

Lemma dedupeKeys_elem keys k : k ∈ dedupeKeys keys -> k ∈ keys.
Proof. apply dedupe_by_elem. Qed.

(** The first server that chains: its keys are the DNSKEY RRset verified under
    keys the trust source gave. *)
Definition trusts (trust : trust_source) (T : list DNSKEYRecord.t -> Prop) : Prop :=
  forall keys, ensures (trust keys) (fun linked => T linked.2 /\ linked.2 ⊆ keys).

Lemma authenticate_server_ok trust T zone qr keys :
  zone <> "" -> trusts trust T -> parsed qr -> keys = answerDNSKEYsOwnedBy (QueryResult.DNSKEY qr) zone -> keys <> [] ->
  ensures (authenticate_server trust zone qr keys) (fun linked => T linked.2 /\ dnskey_evidence zone linked.2 keys).
Proof.
  intros Hzone Htrust Hqr Hkeys Hne. unfold authenticate_server. eapply ensures_bind; [apply Htrust|].
  intros [link authed] [HT Hsub]. cbn in HT, Hsub. destruct (QueryResult.RawResponse qr) as [|b raw] eqn:Hraw; [apply ensures_fail|].
  assert (Hver : ensures (verifyDNSKEYRRsetFromResponseB (b :: raw) zone authed)
    (fun v => exists msg, Unpack (b :: raw) = Ok msg /\ verified (Msg.Answer msg) TypeDNSKEY authed zone zone v)).
  { unfold verifyDNSKEYRRsetFromResponseB. destruct authed; [apply ensures_fail | apply verifyRRset_ensures]. }
  eapply ensures_bind; [apply ensures_catch, Hver|]. intros [vr|e] Hvr; [|apply ensures_fail].
  destruct (Hvr vr eq_refl) as (msg & Hu & Hv). apply ensures_ret. split; [done|]. exists (b :: raw), msg, vr.
  split; [done|]. split; [done|]. split; [|done].
  destruct Hqr as (m & Hm & Hd); [by rewrite Hraw|]. rewrite Hraw, Hu in Hm. injection Hm as <-.
  rewrite Hkeys, Hd, !answerDNSKEYs_app.
  rewrite (answerDNSKEYs_other SectionAuthority), (answerDNSKEYs_other SectionAdditional), !app_nil_r by auto.
  rewrite answerDNSKEYs_answer by (intros rr Hrr; eapply unpacked_records; [done | by apply elem_of_app; left]).
  destruct Hv as (n1 & n2 & Hv). unfold zone_keys, dnskeys_of. rewrite (vr_records _ _ _ _ _ _ _ _ Hv).
  destruct (vr_want_owner _ _ _ _ _ _ _ _ Hv) as [?|[Hc|Hw]]; [done | by apply canonical_nonempty in Hc | by rewrite Hw].
Qed.

Lemma served_keys_cons zone sr qr k ks :
  AddressResult.Response sr = Some qr -> served_keys zone sr = k :: ks ->
  k :: ks = answerDNSKEYsOwnedBy (QueryResult.DNSKEY qr) zone.
Proof. unfold served_keys. by intros -> ->. Qed.

Lemma authenticate_servers_ok trust T zone fe srs :
  zone <> "" -> trusts trust T -> Forall server_ok srs ->
  ensures (authenticate_servers trust zone fe srs) (fun r => match r.2 with
    | Chosen _ authed keys _ => T authed /\ dnskey_evidence zone authed keys
    | _ => True
    end).
Proof.
  intros Hzone Htrust Hall. revert fe. induction Hall as [|sr srs Hsr Hall IH]; intros fe; cbn [authenticate_servers]; [by apply ensures_ret|].
  assert (Hskip : forall sr' fe', ensures (r <-- authenticate_servers trust zone fe' srs ;; ret (sr' :: r.1, r.2)) (fun r => match r.2 with
    | Chosen _ authed keys _ => T authed /\ dnskey_evidence zone authed keys | _ => True end)).
  { intros sr' fe'. eapply ensures_bind; [apply IH|]. intros r Hr. by apply ensures_ret. }
  destruct (AddressResult.Response sr) as [qr|] eqn:Er; [|apply Hskip].
  destruct (served_keys zone sr) as [|k ks] eqn:Ek; [apply Hskip|].
  eapply ensures_bind; [apply ensures_catch, (authenticate_server_ok trust T zone qr (k :: ks) Hzone Htrust); [by apply Hsr | by eapply served_keys_cons | done]|].
  intros [linked|err] Hl; [by apply ensures_ret, Hl|]. destruct (isBudgetExhaustedText err); [by apply ensures_ret | apply Hskip].
Qed.

(** ** What the bookkeeping leaves alone *)

(** [r'] is [r] with other diagnostics. *)
Definition same_verdict (r r' : ZoneResult.t) : Prop :=
  ZoneResult.Zone r' = ZoneResult.Zone r /\ ZoneResult.Status r' = ZoneResult.Status r /\ ZoneResult.DNSKEY r' = ZoneResult.DNSKEY r.

Lemma compliance_same zone (r : ZoneResult.t) : same_verdict r (compliance zone r).
Proof. unfold compliance, CheckNSEC3OptOut. repeat case_match; simplify_eq; done. Qed.

Lemma judge_same (r : ZoneResult.t) srs zone rrset keys :
  ensures (judgeDNSKEYServers r srs zone rrset keys) (fun j => same_verdict r j.2).
Proof. unfold judgeDNSKEYServers. apply ensures_then. intros js. by apply ensures_ret. Qed.

(** ** The verdict *)

(** A verdict on [zone]: never pending, and secure only with the evidence [P] of its
    keys. *)
Definition verdict_on (zone : string) (P : list DNSKEYRecord.t -> Prop) (r : ZoneResult.t) : Prop :=
  ZoneResult.Zone r = zone /\ ZoneResult.Status r <> StatusValidating /\
  (ZoneResult.Status r = StatusSecure -> P (ZoneResult.DNSKEY r)).

Lemma authenticate_zone_ok trust T zone srs r :
  zone <> "" -> trusts trust T -> Forall server_ok srs -> ZoneResult.Zone r = zone ->
  ensures (authenticate_zone trust zone srs r)
    (verdict_on zone (fun keys => exists authed, T authed /\ dnskey_evidence zone authed keys)).
Proof.
  intros Hzone Htrust Hall Hz. unfold authenticate_zone.
  eapply ensures_bind; [by apply (authenticate_servers_ok trust T)|]. intros [srs' []] Hout; cbn in Hout.
  - eapply ensures_bind; [apply judge_same|]. intros j (Hjz & _ & Hjk). apply ensures_ret.
    destruct (compliance_same zone (applyServerResults j.1 j.2)) as (Hcz & _ & Hck).
    revert Hcz Hck. generalize (compliance zone (applyServerResults j.1 j.2)). intros r' Hcz Hck. cbn in Hcz, Hck, Hjz, Hjk.
    split; [|split]; cbn; [by rewrite Hcz, Hjz | done |]. intros _. rewrite Hck, Hjk. by exists authed.
  - by apply ensures_ret.
  - by apply ensures_ret.
Qed.

(** ** The trust sources *)

Lemma root_trusts active :
  trusts (root_trust active) (fun authed => forall k, k ∈ authed -> exists a, a ∈ active /\ anchor_authenticates a k = true).
Proof.
  intros keys. unfold root_trust. apply ensures_then. intros _. destruct (VerifyRootTrustAnchor _ _) as [link [err|]]; [apply ensures_fail|].
  apply ensures_ret. cbn. split.
  - by intros k [_ Ha]%CollectAnchorMatchedKeys_elem.
  - intros k [Hk _]%CollectAnchorMatchedKeys_elem. by apply dedupeKeys_elem.
Qed.

Lemma ds_trusts ds zone :
  trusts (ds_trust ds zone) (fun authed => forall k, k ∈ authed -> exists d, d ∈ ds /\ ds_authenticates zone d k = true).
Proof.
  intros keys. unfold ds_trust. apply ensures_then. intros _.
  destruct (ValidateChainLink _ _ _) as [[link|] [err|]]; try apply ensures_fail.
  apply ensures_ret. cbn. split.
  - by intros k [_ Hd]%CollectDSMatchedKeys_elem.
  - intros k [Hk _]%CollectDSMatchedKeys_elem. by apply dedupeKeys_elem.
Qed.

(** ** The parent's word *)

Definition ds_ok (zone : string) (parentKeys : list DNSKEYRecord.t) (ds : parentDSResult.t) : Prop :=
  parentDSResult.Authenticated ds <> [] -> ds_evidence zone parentKeys (parentDSResult.Authenticated ds).

Lemma verifyDSRRSIGSetB_ok validation zone parentZone parentKeys raw :
  ensures (verifyDSRRSIGSetB validation zone parentZone parentKeys raw) (fun r => r.1 <> [] -> ds_evidence zone parentKeys r.1).
Proof.
  unfold verifyDSRRSIGSetB. eapply ensures_bind; [apply ensures_catch, verifyRRset_ensures|].
  intros [vr|err] Hr; apply ensures_ret; [|done]. intros _. cbn. destruct (Hr vr eq_refl) as (msg & Hu & Hv).
  by exists raw, msg, parentZone, vr.
Qed.

Lemma classify_ok qr zone parentZone parentKeys :
  ensures (classifyParentDSAnswer qr zone parentZone parentKeys) (fun r => ds_ok zone parentKeys r.1).
Proof.
  unfold classifyParentDSAnswer. cbn zeta. destruct parentKeys as [|k ks]; [by apply ensures_ret; unfold ds_ok|].
  destruct (if QueryResult.RCode qr =? RcodeSuccess then answerDSOwnedBy (QueryResult.DS qr) zone else []); [apply ensures_then; intros p; apply ensures_ret; by unfold ds_ok|].
  eapply ensures_bind; [apply verifyDSRRSIGSetB_ok|]. intros r Hr. by apply ensures_ret.
Qed.

Definition candidate_ok zone parentKeys (c : dsCandidate.t) : Prop :=
  forall ds, dsCandidate.result c = Some ds -> ds_ok zone parentKeys ds.

Lemma ds_candidates_ok servers zone parentZone parentKeys authed acc :
  Forall (candidate_ok zone parentKeys) acc ->
  ensures (ds_candidates v servers zone parentZone parentKeys authed acc) (Forall (candidate_ok zone parentKeys)).
Proof.
  revert authed acc. induction servers as [|addr servers IH]; intros authed acc Hacc; cbn [ds_candidates]; [by apply ensures_ret|].
  apply ensures_then. intros [e|]; [by apply ensures_ret|]. apply ensures_then. intros answer.
  eapply (ensures_bind _ _ (fun c => forall ds, c.1 = Some ds -> ds_ok zone parentKeys ds)).
  { destruct answer as [qr|err]; [|by apply ensures_ret]. destruct (_ && _); [|by apply ensures_ret].
    eapply ensures_bind; [apply classify_ok|]. intros r Hr. apply ensures_ret. by intros ds [= <-]. }
  intros c Hc. cbn zeta. assert (Forall (candidate_ok zone parentKeys) (acc ++ [dsCandidate.mk addr answer c.1 c.2])).
  { apply Forall_app. split; [done|]. by constructor. }
  destruct (_ && _ && _); [by apply ensures_ret | by apply IH].
Qed.

Lemma judge_candidates_ok i chosen candidates out zone parentZone parentKeys :
  ds_ok zone parentKeys out ->
  ensures (judge_candidates i chosen candidates out zone parentZone parentKeys) (ds_ok zone parentKeys).
Proof.
  revert i out. induction candidates as [|c candidates IH]; intros i out Hout; cbn [judge_candidates]; [by apply ensures_ret|].
  destruct (Nat.eqb _ _); [by apply IH|]. apply ensures_then. intros [d|]; by apply IH.
Qed.

Lemma queryDS_ok zone parentZone fallback parentKeys :
  ensures (queryDSFromParentWithValidation v zone parentZone fallback parentKeys) (ds_ok zone parentKeys).
Proof.
  unfold queryDSFromParentWithValidation. apply ensures_then. intros ns. cbn zeta.
  eapply ensures_bind; [by apply ds_candidates_ok|]. intros cands Hc.
  destruct (chosen_candidate cands) as [i|]; [|apply ensures_fail].
  destruct (cands !! i ≫= dsCandidate.result) as [out|] eqn:Ei; [|apply ensures_fail].
  apply bind_Some in Ei as (c & Hi & Hres). apply judge_candidates_ok.
  exact (proj1 (Forall_lookup _ _) Hc i c Hi out Hres).
Qed.

(** A verdict that is not secure. *)
Definition refused (zone : string) (r : ZoneResult.t) : Prop :=
  ZoneResult.Zone r = zone /\ ZoneResult.Status r <> StatusSecure /\ ZoneResult.Status r <> StatusValidating.

Lemma refused_verdict zone P r : refused zone r -> verdict_on zone P r.
Proof. by intros (? & ? & ?). Qed.

Lemma finalize_refused r zone parentZone parentKeys ds :
  ZoneResult.Zone r = zone -> ensures (finalizeNoDSDelegation r zone parentZone parentKeys ds) (refused zone).
Proof.
  intros Hz. unfold finalizeNoDSDelegation. destruct parentKeys; [by apply ensures_ret|].
  apply ensures_then. intros p. cbn zeta. destruct p.2; [by apply ensures_ret|].
  repeat case_match; by apply ensures_ret.
Qed.

Lemma without_keys_ok zone hierarchy ns parentKeys srs r :
  ZoneResult.Zone r = zone -> ensures (zone_without_keys v zone hierarchy ns parentKeys srs r) (refused zone).
Proof.
  intros Hz. unfold zone_without_keys. destruct (String.eqb zone "."); [by apply ensures_ret|]. cbn zeta.
  apply ensures_then. intros [ds|err]; [|by apply ensures_ret]. destruct (parentDSResult.Observed ds); [|by apply ensures_ret].
  eapply ensures_bind; [by apply finalize_refused|]. intros r' (Hr1 & Hr2 & Hr3). apply ensures_ret.
  by destruct (bool_decide _).
Qed.

Lemma parent_ds_ok zone hierarchy ns parentKeys srs r :
  ZoneResult.Zone r = zone ->
  ensures (parent_ds v zone hierarchy ns parentKeys srs r) (fun out => match out with
    | inl r' => refused zone r'
    | inr (r', supported) => ZoneResult.Zone r' = zone /\
        exists ds, ds_evidence zone parentKeys ds /\ forall d, d ∈ supported -> d ∈ ds /\ supported_ds d = true
    end).
Proof.
  intros Hz. unfold parent_ds. cbn zeta. eapply ensures_bind; [apply ensures_catch, queryDS_ok|].
  intros [ds|err] Hds; [|by apply ensures_ret]. specialize (Hds ds eq_refl).
  destruct (parentDSResult.Observed ds) as [|o os].
  { eapply ensures_bind; [by apply finalize_refused|]. intros r' Hr'. apply ensures_ret. by destruct (bool_decide _). }
  destruct (isBudgetExhaustedText _); [by apply ensures_ret|].
  destruct (negb _ || Nat.eqb _ 0) eqn:Hne; [by apply ensures_ret|].
  apply orb_false_iff in Hne as [_ Hne%Nat.eqb_neq].
  assert (Hev : ds_evidence zone parentKeys (parentDSResult.Authenticated ds)) by (apply Hds; by intros He; rewrite He in Hne).
  pose proof (SupportedDSRecords_fst (parentDSResult.Authenticated ds)) as Hsup.
  destruct (SupportedDSRecords _) as [supported unsupported]. cbn in Hsup. cbn zeta.
  assert (Hall : forall d, d ∈ supported -> d ∈ parentDSResult.Authenticated ds /\ supported_ds d = true).
  { intros d. rewrite Hsup. apply elem_of_Filter. }
  destruct supported as [|d ds']; [by apply ensures_ret|].
  destruct (_ && _).
  - apply ensures_then. intros rd. apply ensures_ret. split; [by repeat case_match | by eexists].
  - apply ensures_ret. split; [done | by eexists].
Qed.

Lemma zone_nameservers_zone zone : ensures (zone_nameservers v zone) (fun e => ZoneResult.Zone e.1.1 = zone).
Proof.
  unfold zone_nameservers. destruct (String.eqb zone "."); [by apply ensures_ret|]. apply ensures_then.
  intros [set|err]; [by apply ensures_ret | apply ensures_fail].
Qed.

(** The evidence for the keys of a zone walked below [parentKeys]. *)
Definition keys_evidence (zone : string) (parentKeys keys : list DNSKEYRecord.t) : Prop :=
  exists authed, dnskey_evidence zone authed keys /\
    ((zone = "." /\ forall k, k ∈ authed -> exists a, active_anchor (Validator.anchors v) a /\ anchor_authenticates a k = true) \/
     (zone <> "." /\ exists ds, ds_evidence zone parentKeys ds /\
        forall k, k ∈ authed -> exists d, d ∈ ds /\ supported_ds d = true /\ ds_authenticates zone d k = true)).

Lemma GetActivePinnedAnchors_ok anchors :
  ensures (GetActivePinnedAnchors anchors) (fun l => forall a, a ∈ l -> active_anchor anchors a).
Proof.
  intros s. unfold GetActivePinnedAnchors, GetActiveAnchors, wp, bind. destruct anchors as [ra|]; cbn -[anchor_active IsPinnedRootAnchor List.filter].
  - intros a [[Ha Hact]%elem_of_Filter Hpin]%elem_of_Filter.
    split; [by eexists | split; [by eexists | done]].
  - by intros a ?%not_elem_of_nil.
Qed.

Lemma verdict_on_mono zone (P Q : list DNSKEYRecord.t -> Prop) r : (forall keys, P keys -> Q keys) -> verdict_on zone P r -> verdict_on zone Q r.
Proof. intros HPQ (? & ? & HP). split; [done|]. split; [done|]. auto. Qed.

Lemma validateZone_ok zone hierarchy parentKeys pi ia :
  zone <> "" -> ensures (validateZone v zone hierarchy parentKeys pi ia) (verdict_on zone (keys_evidence zone parentKeys)).
Proof.
  intros Hzone. unfold validateZone. eapply ensures_bind; [apply zone_nameservers_zone|].
  intros [[result ns] trunc] Hz. cbn in Hz. destruct ns as [|n ns]; [apply ensures_fail|].
  eapply ensures_bind; [apply query_servers_ok|]. intros srs Hsrs. cbn zeta.
  destruct trunc; [|by apply ensures_ret]. destruct (existsb answered srs); cbn [negb]; [|by apply ensures_ret].
  set (result' := diagnostics _ _ _). assert (Hz' : ZoneResult.Zone result' = zone).
  { subst result'. unfold diagnostics. by repeat case_match. }
  clearbody result'. destruct (_ && pi); [by apply ensures_ret|]. destruct (_ && negb _); [by apply ensures_ret|].
  destruct (existsb (serves_keys zone) srs); cbn [negb]; [|eapply ensures_mono; [by apply without_keys_ok | apply refused_verdict]].
  destruct (String.eqb_spec zone ".") as [->|Hroot].
  - eapply ensures_bind; [apply GetActivePinnedAnchors_ok|]. intros active Hactive.
    destruct active as [|a active]; [by apply ensures_ret|].
    eapply ensures_mono; [by eapply authenticate_zone_ok, Hz'; [|apply root_trusts|]|].
    intros r. apply verdict_on_mono. intros keys (authed & HT & Hev). exists authed. split; [done|]. left. split; [done|].
    intros k Hk. destruct (HT k Hk) as (a' & Ha & Hm). exists a'. auto.
  - eapply ensures_bind; [by apply parent_ds_ok|]. intros [r|[r supported]]; [intros Hr; by apply ensures_ret, refused_verdict|].
    intros (Hr & ds & Hev & Hsup). eapply ensures_mono; [by eapply authenticate_zone_ok, Hr; [|apply ds_trusts|]|].
    intros r'. apply verdict_on_mono. intros keys (authed & HT & Hk). exists authed. split; [done|]. right. split; [done|].
    exists ds. split; [done|]. intros k Hk'. destruct (HT k Hk') as (d & Hd & Hm). exists d. split; [|split; [|done]]; by apply Hsup.
Qed.

Lemma keys_evidence_trust zone parent parentKeys keys :
  keys_evidence zone parentKeys keys ->
  (parentKeys <> [] -> trust_chain (Validator.anchors v) parent parentKeys) ->
  trust_chain (Validator.anchors v) zone keys.
Proof.
  intros (authed & Hev & [[-> Ha]|(_ & ds & Hds & Hd)]) Hp; [by eapply trust_root|].
  eapply trust_child; [| done..]. apply Hp. destruct Hds as (raw & msg & pz & dv & _ & (n & m & Hv) & _).
  pose proof (kv_trusted _ _ _ _ (vr_key _ _ _ _ _ _ _ _ Hv)) as Hk. intros ->. by apply not_elem_of_nil in Hk.
Qed.
End zone.
