(* ===== verification/LeafSound.v ===== *)
(** * LeafSound: a secure leaf carries its evidence

    When the leaf's verdict is secure, its answer is one of: the queried RRset, a
    CNAME or a DNAME redirection verified under the zone's keys, each complete with
    the denial of a closer match when a wildcard was expanded; or a verified denial
    that does not rest on opt-out. *)

From stdpp Require Import base list strings gmap pretty.
From Stdlib Require Import ZArith Lia.
From S2P Require Import Prelude GoTime Names Nsec Nsec3 Wire Authenticated Anchors Chain Resolver Results Rdap ParentDS ZoneAuth Leaf AuthenticatedSound ChainSound ZoneSound.
Local Open Scope Z_scope.

Section leaf.
Context `{DnsLib} `{WireLib} `{ValidatorEnv} `{Network} `{LeafLib} (v : Validator.t).
Implicit Types (keys : list DNSKEYRecord.t) (rv : RecordValidation.t).

(** ** The evidence *)

(** Denial RRsets of a response, verified under the keys of [zone]. *)
Definition denial_evidence (t : Z) (zone : string) keys (vs : list VerifiedRRset.t) : Prop :=
  exists raw msg since until, Unpack raw = Ok msg /\ vs <> [] /\ Forall (denial_rrset msg t keys zone since until) vs.

(** An answer whose signature has [labels] labels is not an expanded wildcard, or
    comes with a verified denial of a closer match. *)
Definition wildcard_complete (qname zone : string) keys (labels : Z) : Prop :=
  DetectWildcardSynthesis qname labels = "" \/
  (exists vs, denial_evidence TypeNSEC zone keys vs /\
    NSECProof.Verified (VerifyWildcardDenial qname labels (nsecRecordsFromVerified vs) []) = true) \/
  (exists vs, denial_evidence TypeNSEC3 zone keys vs /\
    NSECProof.Verified (VerifyWildcardDenial qname labels [] (nsec3RecordsFromVerified vs)) = true).

(** A positive RRset at [owner], complete. *)
Definition rrset_evidence (t : Z) (owner zone : string) keys (vr : VerifiedRRset.t) : Prop :=
  exists raw msg, Unpack raw = Ok msg /\ verified (Msg.Answer msg) t keys owner zone vr /\
    wildcard_complete owner zone keys (RRSIG.Labels (VerifiedRRset.Signature vr)).

(** The evidence for the answer to [domain] in [zone], and the alias target it
    leads to. *)
Inductive leaf_evidence (domain zone : string) keys : string -> Prop :=
| leaf_positive vr target :
    rrset_evidence (leafType v) domain zone keys vr ->
    target = (if leafType v =? TypeCNAME then default "" (first_cname (VerifiedRRset.Records vr)) else "") ->
    leaf_evidence domain zone keys target
| leaf_cname vr target :
    rrset_evidence TypeCNAME domain zone keys vr ->
    target = default "" (first_cname (VerifiedRRset.Records vr)) ->
    leaf_evidence domain zone keys target
| leaf_dname vr owner h redirect target :
    rrset_evidence TypeDNAME owner zone keys vr ->
    RR_DNAME h redirect ∈ VerifiedRRset.Records vr ->
    substituteDNAME domain owner redirect = Ok target ->
    leaf_evidence domain zone keys target
| leaf_nsec vs rcode basic :
    denial_evidence TypeNSEC zone keys vs ->
    VerifyNSECDenial domain (leafType v) (nsecRecordsFromVerified vs) rcode = Ok basic ->
    leaf_evidence domain zone keys ""
| leaf_nsec3 vs rcode basic :
    denial_evidence TypeNSEC3 zone keys vs ->
    VerifyNSEC3Denial domain (leafType v) (nsec3RecordsFromVerified vs) zone rcode = Ok basic ->
    (forall b, basic = Some b -> NSECProof.OptOut b = false) ->
    leaf_evidence domain zone keys "".

(** ** The verdict *)

Lemma verdict_secure rv :
  (recordValidationVerdict (Some rv)).1 = StatusSecure ->
  RecordValidation.RRSIGVerified rv = true /\
  (RecordValidation.Wildcard rv = true -> RecordValidation.WildcardProofVerified rv = true) /\
  (forall p, RecordValidation.DenialProof rv = Some p -> NSECProof.Verified p = true -> NSECProof.OptOut p = false).
Proof.
  unfold recordValidationVerdict. cbn zeta.
  destruct (RecordValidation.Wildcard rv), (RecordValidation.RRSIGVerified rv), (RecordValidation.WildcardProofVerified rv); cbn [andb negb];
    try (repeat (case_match; try done); fail).
  all: destruct (proof_opt_out (RecordValidation.DenialProof rv)) as [nc|] eqn:Ho; [done|].
  all: intros _; split; [done | split; [done|]]; intros p Hp Hv; rewrite Hp in Ho; cbn in Ho; rewrite Hv in Ho; by destruct (NSECProof.OptOut p).
Qed.

Lemma denial_rrsets_ensures raw t keys zone :
  ensures (verifyDenialRRsetsFromResponseB raw t keys zone) (fun r => denial_evidence t zone keys r.1).
Proof.
  intros s. eapply wp_mono; [apply verifyDenialRRsetsFromResponseB_sound | | done]. intros r s' (Hne & msg & Hu & Hall).
  by exists raw, msg, (VState.readings s), (VState.readings s').
Qed.

Lemma authenticated_denial_ok zone qr keys :
  ensures (authenticated_denial zone qr keys) (fun r =>
    (r = ([], [])) \/ (exists vs, denial_evidence TypeNSEC zone keys vs /\ r = (nsecRecordsFromVerified vs, [])) \/
    (exists vs, denial_evidence TypeNSEC3 zone keys vs /\ r = ([], nsec3RecordsFromVerified vs))).
Proof.
  unfold authenticated_denial. repeat case_match.
  - apply ensures_ret. by left.
  - eapply ensures_bind; [apply denial_rrsets_ensures|]. intros r Hr. apply ensures_ret. right. right. by exists r.1.
  - eapply ensures_bind; [apply denial_rrsets_ensures|]. intros r Hr. apply ensures_ret. right. left. by exists r.1.
Qed.

Lemma wildcard_no_records qname labels : NSECProof.Verified (VerifyWildcardDenial qname labels [] []) = false.
Proof. unfold VerifyWildcardDenial. by destruct (_ <=? _). Qed.

(** [verifyWildcard] completes a validation, or leaves it without its proof. *)
Lemma verifyWildcard_ok rv qname zone rrsig qr keys :
  RecordValidation.WildcardProofVerified rv = false ->
  ensures (verifyWildcard rv qname zone rrsig qr keys) (fun rv' =>
    RecordValidation.Target rv' = RecordValidation.Target rv /\
    RecordValidation.DenialProof rv' = RecordValidation.DenialProof rv /\
    ((RecordValidation.Wildcard rv' = true -> RecordValidation.WildcardProofVerified rv' = true) ->
     wildcard_complete qname zone keys (RRSIGRecord.Labels rrsig))).
Proof.
  intros Hw. unfold verifyWildcard. cbn zeta. destruct (String.eqb_spec (DetectWildcardSynthesis qname (RRSIGRecord.Labels rrsig)) "") as [He|_].
  { apply ensures_ret. split; [done|]. split; [done|]. intros _. by left. }
  eapply ensures_bind; [apply ensures_catch, authenticated_denial_ok|]. intros [[nsec nsec3]|err] Hr.
  2:{ apply ensures_ret. unfold note_error. case_match; cbn; (split; [done|]; split; [done|]; rewrite Hw; by intros Hf; specialize (Hf eq_refl)). }
  specialize (Hr _ eq_refl). destruct (NSECProof.Verified (VerifyWildcardDenial _ _ _ _)) eqn:Hp.
  - apply ensures_ret. cbn. split; [done|]. split; [done|]. intros _.
    destruct Hr as [[= -> ->]|[(vs & Hvs & [= -> ->])|(vs & Hvs & [= -> ->])]].
    + by rewrite wildcard_no_records in Hp.
    + right. left. by exists vs.
    + right. right. by exists vs.
  - apply ensures_ret. unfold note_error. case_match; cbn; (split; [done|]; split; [done|]; rewrite Hw; by intros Hf; specialize (Hf eq_refl)).
Qed.

(** A validation that turns out secure has the evidence for its target. *)
Definition secure_leaf (domain zone : string) keys rv : Prop :=
  (recordValidationVerdict (Some rv)).1 = StatusSecure -> leaf_evidence domain zone keys (RecordValidation.Target rv).

Lemma unverified_leaf domain zone keys rv : RecordValidation.RRSIGVerified rv = false -> secure_leaf domain zone keys rv.
Proof. intros Hf Hs. apply verdict_secure in Hs as [Hs _]. congruence. Qed.

Lemma signature_record_labels vr :
  ensures (signature_record vr) (fun r => RRSIGRecord.Labels r = RRSIG.Labels (VerifiedRRset.Signature vr)).
Proof. unfold signature_record. apply ensures_then. intros now. by apply ensures_ret. Qed.

(** A verified RRset whose wildcard part is then judged. *)
Lemma complete_answer rv t owner zone qr keys vr raw msg :
  RecordValidation.WildcardProofVerified rv = false ->
  Unpack raw = Ok msg -> verified (Msg.Answer msg) t keys owner zone vr ->
  ensures (sig <-- signature_record vr ;; verifyWildcard rv owner zone sig qr keys) (fun rv' =>
    RecordValidation.Target rv' = RecordValidation.Target rv /\
    ((recordValidationVerdict (Some rv')).1 = StatusSecure -> rrset_evidence t owner zone keys vr)).
Proof.
  intros Hw Hu Hv. eapply ensures_bind; [apply signature_record_labels|]. intros sig Hsig.
  eapply ensures_mono; [by apply verifyWildcard_ok|]. intros rv' (Ht & _ & Hc). split; [done|].
  intros (_ & Hwild & _)%verdict_secure. exists raw, msg. split; [done|]. split; [done|]. rewrite <-Hsig. by apply Hc.
Qed.

Lemma recordVerifiedLeaf_ok rv t domain zone qr keys vr raw msg :
  RecordValidation.WildcardProofVerified rv = false -> RecordValidation.Target rv = "" ->
  Unpack raw = Ok msg -> verified (Msg.Answer msg) t keys domain zone vr ->
  ensures (recordVerifiedLeaf rv vr domain zone qr keys) (fun rv' =>
    RecordValidation.Target rv' = (if t =? TypeCNAME then default "" (first_cname (VerifiedRRset.Records vr)) else "") /\
    ((recordValidationVerdict (Some rv')).1 = StatusSecure -> rrset_evidence t domain zone keys vr)).
Proof.
  intros Hw Htg Hu Hv. unfold recordVerifiedLeaf. cbn zeta. pose proof Hv as (n & m & Hvr). rewrite (vr_type _ _ _ _ _ _ _ _ Hvr).
  eapply ensures_mono; [eapply (complete_answer _ t); [| done | done]|].
  - by repeat case_match.
  - intros rv' [Ht Hs]. split; [|done]. rewrite Ht. repeat case_match; done.
Qed.

Lemma dname_target_in several records target0 target :
  dname_target several target0 records = Ok target -> target <> target0 -> exists h, RR_DNAME h target ∈ records.
Proof.
  revert target0. induction records as [|rr records IH]; intros target0; cbn; [by intros [= ->]|].
  intros Hd Hne. destruct rr; try (destruct (IH _ Hd Hne) as [h' Hh]; exists h'; by right).
  destruct (String.eqb target0 ""); [|done]. cbn in Hd. destruct (decide (target = target1)) as [->|Hne'].
  - exists h. by left.
  - destruct (IH _ Hd Hne') as [h' Hh]. exists h'. by right.
Qed.

Lemma verifyDNAMEAnswer_ok rv domain zone owner cnames qr keys :
  RecordValidation.RRSIGVerified rv = false -> RecordValidation.WildcardProofVerified rv = false ->
  ensures (verifyDNAMEAnswer rv domain zone owner cnames qr keys) (secure_leaf domain zone keys).
Proof.
  intros Hr Hw. unfold verifyDNAMEAnswer. cbn zeta. eapply ensures_bind; [apply ensures_catch, verifyRRset_ensures|].
  intros [vr|err] Hvr; [|by apply ensures_ret, unverified_leaf]. destruct (Hvr vr eq_refl) as (msg & Hu & Hv).
  destruct (dname_target _ _ _) as [redirect|err] eqn:Hd; [|by apply ensures_ret, unverified_leaf].
  destruct (decide (redirect = "")) as [->|Hne]; [by apply ensures_ret, unverified_leaf|].
  destruct (dname_target_in _ _ _ _ Hd Hne) as [h Hin].
  destruct redirect as [|c redirect']; [done|].
  destruct (substituteDNAME domain owner _) as [expected|err] eqn:Hs; [|by apply ensures_ret, unverified_leaf].
  destruct (QueryResult.RCode qr =? RcodeYXDomain); [by apply ensures_ret, unverified_leaf|].
  destruct (negb (is_substitution cnames expected)); [by apply ensures_ret, unverified_leaf|].
  eapply ensures_mono; [eapply (complete_answer _ TypeDNAME owner); [exact Hw | exact Hu | exact Hv]|].
  intros rv' [Ht Hsec] Hsecure. rewrite Ht. cbn. eapply leaf_dname; eauto.
Qed.

Lemma denial_with_rrsig_ok t kind e keys zone raw prove proof :
  NSECProof.Verified proof = false ->
  ensures (denial_with_rrsig t kind e keys zone raw prove proof) (fun p => NSECProof.Verified p = true ->
    exists vs basic, denial_evidence t zone keys vs /\ prove vs = Ok basic /\
      (NSECProof.OptOut p = false -> NSECProof.OptOut proof = false -> forall b, basic = Some b -> NSECProof.OptOut b = false)).
Proof.
  intros Hp. unfold denial_with_rrsig. eapply ensures_bind; [apply ensures_catch, denial_rrsets_ensures|].
  intros [[vs rejected]|err] Hvs; [|apply ensures_ret; cbn -[Sprintf]; congruence]. specialize (Hvs _ eq_refl). cbn in Hvs.
  destruct (prove vs) as [basic|err] eqn:Hprove; apply ensures_ret; [|cbn -[Sprintf]; congruence].
  intros _. exists vs, basic. split; [done|]. split; [done|]. intros Ho _ b ->. unfold adopt in Ho. by destruct (NSECProof.Ignored b).
Qed.

(** The denial proof that a leaf keeps, verified and without opt-out. *)
Definition sound_denial (domain zone : string) keys (p : NSECProof.t) : Prop :=
  NSECProof.Verified p = true -> NSECProof.OptOut p = false -> leaf_evidence domain zone keys "".

Lemma denial_proof_ok domain zone qr keys :
  ensures (denial_proof v domain zone qr keys) (fun d => forall kind p, d = Some (kind, p) -> sound_denial domain zone keys p).
Proof.
  unfold denial_proof. repeat case_match; try (apply ensures_ret; by intros).
  - eapply (ensures_bind _ _ (sound_denial domain zone keys)); [|intros p Hp; apply ensures_ret; by intros ?? [= _ <-]].
    unfold verifyNSEC3DenialWithRRSIGB. destruct (nsec3IterationsOverCap _); [by apply ensures_ret|].
    destruct (qnameWithinZoneErr _ _); [|by apply ensures_ret].
    eapply ensures_mono; [by apply denial_with_rrsig_ok|]. intros p Hp Hv Ho.
    destruct (Hp Hv) as (vs & basic & Hev & Hprove & Hb). eapply leaf_nsec3; [done | done | by apply Hb].
  - eapply (ensures_bind _ _ (sound_denial domain zone keys)); [|intros p Hp; apply ensures_ret; by intros ?? [= _ <-]].
    unfold verifyNSECDenialWithRRSIGB. destruct (qnameWithinZoneErr _ _); [|by apply ensures_ret].
    eapply ensures_mono; [by apply denial_with_rrsig_ok|]. intros p Hp Hv Ho.
    destruct (Hp Hv) as (vs & basic & Hev & Hprove & Hb). by eapply leaf_nsec.
Qed.

Lemma verify_answer_ok rv domain zone qr keys :
  RecordValidation.RRSIGVerified rv = false -> RecordValidation.WildcardProofVerified rv = false ->
  RecordValidation.Target rv = "" -> RecordValidation.DenialProof rv = None ->
  ensures (verify_answer v rv domain zone keys qr) (secure_leaf domain zone keys).
Proof.
  intros Hr Hw Ht Hd. unfold verify_answer. cbn zeta.
  eapply (ensures_bind _ _ (fun d => forall kind p, d = Some (kind, p) -> sound_denial domain zone keys p)).
  { destruct (isDenialForType _ _ _); [apply denial_proof_ok | by apply ensures_ret]. }
  intros [[kind p]|] Hden.
  { apply ensures_ret. specialize (Hden kind p eq_refl). destruct (NSECProof.Verified p) eqn:Hv.
    - intros (_ & _ & Ho)%verdict_secure. cbn. rewrite Ht. apply Hden; [done | by apply Ho].
    - case_match; by apply unverified_leaf. }
  destruct (QueryResult.RCode qr =? RcodeYXDomain).
  { destruct (String.eqb _ _); [by apply ensures_ret, unverified_leaf | by apply verifyDNAMEAnswer_ok]. }
  destruct (answerHasTypeAt _ _ _).
  { eapply ensures_bind; [apply ensures_catch, verifyRRset_ensures|].
    intros [vr|err] Hvr; [|by apply ensures_ret, unverified_leaf]. destruct (Hvr vr eq_refl) as (msg & Hu & Hv).
    eapply ensures_mono; [eapply (recordVerifiedLeaf_ok _ (leafType v)); eauto|].
    intros rv' [Htg Hs] Hsec. rewrite Htg. by eapply leaf_positive; [apply Hs|]. }
  destruct (answerCNAMEsOwnedBy _ _); [by apply ensures_ret, unverified_leaf|].
  destruct (negb _); [by apply verifyDNAMEAnswer_ok|].
  eapply ensures_bind; [apply ensures_catch, verifyRRset_ensures|].
  intros [vr|err] Hvr; [|by apply ensures_ret, unverified_leaf]. destruct (Hvr vr eq_refl) as (msg & Hu & Hv).
  eapply ensures_mono; [eapply (recordVerifiedLeaf_ok _ TypeCNAME); eauto|].
  intros rv' [Htg Hs] Hsec. rewrite Htg. by eapply leaf_cname; [apply Hs|].
Qed.

Lemma verifyActualRecord_ok domain zone keys :
  ensures (verifyActualRecord v domain zone keys) (fun out => match out with
    | None => keys = []
    | Some rv => secure_leaf domain zone keys rv
    end).
Proof.
  unfold verifyActualRecord. cbn zeta. destruct keys as [|k keys]; [by apply ensures_ret|].
  apply ensures_then. intros [set|err]; [|by apply ensures_ret, unverified_leaf].
  destruct (Nat.eqb _ _); [by apply ensures_ret, unverified_leaf|]. destruct (Truncated set); [by apply ensures_ret, unverified_leaf|].
  apply ensures_then. intros [[qr|] dis]; [|by apply ensures_ret, unverified_leaf].
  eapply ensures_bind; [by apply verify_answer_ok|]. intros rv Hrv. by apply ensures_ret.
Qed.
End leaf.
