(* ===== verification/WalkSound.v ===== *)
(** * WalkSound: what a secure verdict stands for

    The invariant of the walk: every zone in the cache or in the chain that is
    secure has its chain of trust, the keys handed down are those of such a zone,
    and the status so far is secure only when every zone of the chain is.  It holds
    through the aliases, whose validations share the cache. *)

From stdpp Require Import base list strings gmap pretty.
From Stdlib Require Import ZArith Lia.
From S2P Require Import Prelude GoTime Names Nsec Nsec3 Wire Authenticated Anchors Chain Resolver Results Rdap ParentDS ZoneAuth Leaf Walk AuthenticatedSound ChainSound ZoneSound LeafSound.
Local Open Scope Z_scope.

(** The zones a validation of [domain] may walk: the root and the names above it,
    as the resolver's discovery or the plain hierarchy spells them. *)
Definition enclosing_zones `{DnsLib} (domain : string) : list string :=
  let labels := SplitDomainName (Fqdn domain) in
  "." :: map (fun i => cut_candidate (drop i labels)) (rev (seq 0 (length labels))) ++ SplitIntoZoneHierarchy domain.

Section walk.
Context `{DnsLib} `{WireLib} `{ValidatorEnv} `{Network} `{ChainLib} `{RdapEnv} `{LeafLib} `{!WireLaws} (v : Validator.t).
Local Notation W := (St WState.t string).
Local Notation trusted := (trust_chain (Validator.anchors v)).

(** ** The answer *)

(** What a secure verdict on [domain] rests on: evidence in a trusted zone that
    encloses it, through any aliases the query follows. *)
Inductive authenticated_answer : string -> Prop :=
| answer_here domain zone keys target :
    zone ∈ enclosing_zones domain -> trusted zone keys -> leaf_evidence v domain zone keys target ->
    target = "" \/ leafType v = TypeCNAME ->
    authenticated_answer domain
| answer_alias domain zone keys target :
    zone ∈ enclosing_zones domain -> trusted zone keys -> leaf_evidence v domain zone keys target ->
    authenticated_answer target ->
    authenticated_answer domain.

(** ** The invariant *)

Definition trusted_result (zone : string) (zr : ZoneResult.t) : Prop := verdict_on zone (trusted zone) zr.

Definition cache_ok (w : WState.t) : Prop :=
  forall zone zr, WState.validatedZones w !! zone = Some zr -> trusted_result zone zr.

(** [m] keeps the cache and returns only what satisfies [Q]. *)
Definition keeps {A} (m : W A) (Q : A -> Prop) : Prop :=
  forall w, cache_ok w -> wp m (fun a w' => cache_ok w' /\ Q a) (fun _ w' => cache_ok w') w.

Lemma keeps_ret {A} (a : A) (Q : A -> Prop) : Q a -> keeps (ret a) Q.
Proof. by intros HQ w Hw. Qed.
Lemma keeps_fail {A} e (Q : A -> Prop) : keeps (fail e) Q.
Proof. by intros w Hw. Qed.
Lemma keeps_bind {A B} (m : W A) (k : A -> W B) (Q : A -> Prop) (R : B -> Prop) :
  keeps m Q -> (forall a, Q a -> keeps (k a) R) -> keeps (bind m k) R.
Proof.
  intros Hm Hk w Hw. apply wp_bind. eapply wp_mono; [by apply Hm | | done]. intros a w' [Hw' Ha]. by apply Hk.
Qed.
Lemma keeps_mono {A} (m : W A) (Q R : A -> Prop) : keeps m Q -> (forall a, Q a -> R a) -> keeps m R.
Proof. intros Hm HQ w Hw. eapply wp_mono; [by apply Hm | | done]. intros a w' [? ?]. auto. Qed.
Lemma keeps_in_base {A} (m : St VState.t string A) (Q : A -> Prop) : ensures m Q -> keeps (in_base m) Q.
Proof. intros Hm w Hw. specialize (Hm (WState.base w)). unfold wp, in_base in *. by destruct (m (WState.base w)) as [[a|e] s]. Qed.
Lemma keeps_gets {A} (f : WState.t -> A) (Q : A -> Prop) : (forall w, cache_ok w -> Q (f w)) -> keeps (gets f) Q.
Proof. intros HQ w Hw. split; auto. Qed.
Lemma keeps_modify f : (forall w, cache_ok w -> cache_ok (f w)) -> keeps (modify f) (fun _ => True).
Proof. intros Hf w Hw. split; auto. Qed.

(** ** The zones *)

Definition walkable (domain : string) (zones : list string) : Prop :=
  zones <> [] /\ Forall (fun z => z <> "" /\ z ∈ enclosing_zones domain) zones.

Lemma walkable_snoc domain zones z : walkable domain zones -> z <> "" -> z ∈ enclosing_zones domain -> walkable domain (zones ++ [z]).
Proof. intros [_ Hz] ??. split; [by destruct zones | apply Forall_app; auto]. Qed.

Lemma hierarchy_walkable domain : walkable domain (SplitIntoZoneHierarchy domain).
Proof.
  assert (Hsplit : SplitIntoZoneHierarchy domain <> [] /\ Forall (fun z => z <> "") (SplitIntoZoneHierarchy domain)).
  { unfold SplitIntoZoneHierarchy. cbn zeta. repeat case_match; (split; [done|]); constructor; try done.
    all: apply Forall_forall; intros z Hz; apply list_elem_of_In, in_map_iff in Hz as (i & <- & _); by destruct (Join _ _). }
  split; [apply Hsplit|]. apply Forall_forall. intros z Hz. split; [by apply (proj1 (Forall_forall _ _) (proj2 Hsplit))|].
  right. by apply elem_of_app; right.
Qed.

Lemma DiscoverZoneCuts_walkable domain : ensures (DiscoverZoneCuts domain) (walkable domain).
Proof.
  unfold DiscoverZoneCuts. apply ensures_then. intros _. cbn zeta.
  assert (Hroot : walkable domain ["."]) by (split; [done | constructor; [split; [done | by left] | done]]).
  destruct (String.eqb (Fqdn domain) "."); [by apply ensures_ret|].
  assert (Hcands : Forall (fun z => z <> "" /\ z ∈ enclosing_zones domain)
    (map (fun i => cut_candidate (drop i (SplitDomainName (Fqdn domain)))) (rev (seq 0 (length (SplitDomainName (Fqdn domain))))))).
  { apply Forall_forall. intros z Hz. split; [|right; by apply elem_of_app; left].
    apply list_elem_of_In, in_map_iff in Hz as (i & <- & Hi). apply in_rev, in_seq in Hi.
    destruct (drop i _) as [|l [|l' ls]] eqn:Hd; cbn; [|apply fqdn_nonempty..].
    apply (f_equal length) in Hd. rewrite length_drop in Hd. cbn in Hd. lia. }
  revert Hroot. generalize ["."]. induction Hcands as [|z cands [Hz1 Hz2] Hcands IH]; intros acc Hacc; cbn [zone_cuts]; [by apply ensures_ret|].
  apply ensures_then. intros isZone. apply ensures_then. intros _. apply IH.
  destruct isZone as [[|]|]; [| done |]; by apply walkable_snoc.
Qed.

Lemma discovered_zones domain result :
  ensures (discover_zones domain result) (fun found => walkable domain found.1 /\
    ValidationResult.Chain found.2 = ValidationResult.Chain result).
Proof.
  unfold discover_zones. eapply ensures_bind; [apply ensures_catch, DiscoverZoneCuts_walkable|].
  intros [zones|err] Hzones; apply ensures_ret; cbn; (split; [|done]); [by apply Hzones | apply hierarchy_walkable].
Qed.

Lemma cache_insert w zone zr : trusted_result zone zr -> cache_ok w ->
  cache_ok (w <| WState.validatedZones := <[zone := zr]> (WState.validatedZones w) |>).
Proof.
  intros Hzr Hw zone' zr' Hl. cbn in Hl. apply lookup_insert_Some in Hl as [[<- <-]|[_ Hl]]; [done | by apply Hw].
Qed.

(** The keys a walk hands down. *)
Definition keys_ok (keys : list DNSKEYRecord.t) : Prop := keys <> [] -> exists parent, trusted parent keys.

Lemma zone_result_ok zone zones t :
  zone <> "" -> keys_ok (Track.parentDNSKEY t) -> keeps (zone_result v zone zones t) (fun zc => trusted_result zone zc.1).
Proof.
  intros Hzone Hkeys. unfold zone_result.
  eapply (keeps_bind _ _ (fun cache => forall zr, cache !! zone = Some zr -> trusted_result zone zr)).
  { apply keeps_gets. intros w Hw zr. apply Hw. }
  intros cache Hcache. destruct (cache !! zone) as [zr|]; [by apply keeps_ret, Hcache|].
  eapply keeps_bind; [by apply keeps_in_base, ensures_catch, validateZone_ok|]. intros r Hr. cbn zeta.
  set (zr := match r with Ok zr => zr | Err err => _ end).
  assert (Hzr : trusted_result zone zr).
  { subst zr. destruct r as [zr|err]; [|done]. eapply verdict_on_mono; [|by apply Hr]. intros keys Hev.
    destruct (decide (Track.parentDNSKEY t = [])) as [He|Hne].
    - eapply (keys_evidence_trust v zone "" (Track.parentDNSKEY t)); [done | by rewrite He].
    - destruct (Hkeys Hne) as [parent Hp]. by eapply (keys_evidence_trust v zone parent (Track.parentDNSKEY t)). }
  clearbody zr. eapply keeps_bind; [apply keeps_modify; intros w; by apply cache_insert|]. intros _ _. by apply keeps_ret.
Qed.

(** ** The loop *)

(** What is known of the chain so far. *)
Definition chain_ok (zones : list string) (chain : list ZoneResult.t) : Prop :=
  Forall (fun zr => ZoneResult.Zone zr ∈ zones /\ ZoneResult.Status zr <> StatusValidating /\
    (ZoneResult.Status zr = StatusSecure -> trusted (ZoneResult.Zone zr) (ZoneResult.DNSKEY zr))) chain.
Definition all_secure (chain : list ZoneResult.t) : Prop := Forall (fun zr => ZoneResult.Status zr = StatusSecure) chain.

Record track_ok (zones : list string) (t : Track.t) : Prop := {
  tk_chain : chain_ok zones (ValidationResult.Chain (Track.result t));
  tk_status : Track.lastStatus t <> StatusValidating;
  tk_secure : Track.lastStatus t = StatusSecure -> all_secure (ValidationResult.Chain (Track.result t));
  tk_keys : keys_ok (Track.parentDNSKEY t)
}.

Lemma next_keys_ok zone zr : trusted_result zone zr -> keys_ok (nextParentDNSKEY zr).
Proof.
  intros (_ & _ & Hs). unfold nextParentDNSKEY. destruct (ZoneResult.Status zr); intros Hne; try done. exists zone. by apply Hs.
Qed.

Lemma track_step zones zone zr t t' :
  zone ∈ zones -> trusted_result zone zr -> track_ok zones t ->
  track_status zone (ZoneResult.Status zr) (add_zone zr t) = Some t' -> track_ok zones t'.
Proof.
  intros Hzone Hzr [Hc Hv0 Hs Hk] Ht. pose proof (next_keys_ok zone zr Hzr) as Hn. destruct Hzr as (Hz & Hv & Htr).
  assert (Hc' : chain_ok zones (ValidationResult.Chain (Track.result t) ++ [zr])).
  { apply Forall_app. split; [done|]. constructor; [|done]. rewrite Hz. auto. }
  unfold track_status in Ht. destruct (ZoneResult.Status zr) eqn:Est; try done; injection Ht as <-; constructor; cbn; try done;
    try (by destruct (Track.lastStatus t)).
  intros Hl. apply Forall_app. split; [by apply Hs | by constructor].
Qed.

Lemma track_chain zone status t t' : track_status zone status t = Some t' ->
  ValidationResult.Chain (Track.result t') = ValidationResult.Chain (Track.result t).
Proof. destruct status; cbn; try done; by intros [= <-]. Qed.

(** A walk that ends early is not secure. *)
Lemma walk_zones_ok zones todo t :
  Forall (fun z => z <> "") todo -> (forall z, z ∈ todo -> z ∈ zones) -> track_ok zones t ->
  keeps (walk_zones v zones todo t) (fun out => match out with
    | inl o => ValidationResult.Result o.1 = StatusBogus /\ o.2 = None \/ ValidationResult.Result o.1 = StatusIndeterminate
    | inr t' => track_ok zones t' /\
        length (ValidationResult.Chain (Track.result t')) = (length (ValidationResult.Chain (Track.result t)) + length todo)%nat
    end).
Proof.
  intros Hne. revert t. induction Hne as [|zone todo Hz Hne IH]; intros t Hsub Ht; cbn [walk_zones].
  { apply keeps_ret. split; [done|]. cbn. lia. }
  eapply keeps_bind; [apply keeps_in_base, ensures_any|]. intros [e|] _; [apply keeps_ret; by right|].
  eapply keeps_bind; [apply zone_result_ok; [done | by destruct Ht]|]. intros [zr cached] Hzr. cbn in Hzr. cbn zeta.
  destruct (track_status zone _ _) as [t'|] eqn:Et; [|apply keeps_ret; by left].
  assert (Ht' : track_ok zones t') by (eapply track_step; eauto; apply Hsub; by left).
  apply track_chain in Et. cbn in Et.
  set (t2 := if _ && _ then _ else _). assert (Ht2 : track_ok zones t2 /\ ValidationResult.Chain (Track.result t2) = ValidationResult.Chain (Track.result t')).
  { subst t2. destruct (_ && _); [|done]. split; [|done]. destruct Ht'. by constructor. }
  clearbody t2. destruct Ht2 as [Ht2 Hc2]. eapply keeps_mono; [apply IH; [intros z Hzt; apply Hsub; by right | done]|].
  intros [o|t3]; [done|]. intros [? ->]. split; [done|]. rewrite Hc2, Et, length_app. cbn. lia.
Qed.

(** ** The leaf and the outcome *)

Lemma trusted_nonempty zone keys : trusted zone keys -> keys <> [].
Proof. by destruct 1 as [? ? _ (? & ? & ? & ? & ? & ? & ? & ?)|? ? ? ? ? ? _ _ _ (? & ? & ? & ? & ? & ? & ? & ?)]. Qed.

Lemma verdict_decided rv : (recordValidationVerdict rv).1 <> StatusValidating.
Proof. unfold recordValidationVerdict. by repeat case_match. Qed.

(** A chain whose zones are all secure and trusted. *)
Definition secure_chain (chain : list ZoneResult.t) : Prop :=
  Forall (fun zr => ZoneResult.Status zr = StatusSecure /\ trusted (ZoneResult.Zone zr) (ZoneResult.DNSKEY zr)) chain.

Lemma chain_secure zones chain : chain_ok zones chain -> all_secure chain -> secure_chain chain.
Proof.
  unfold chain_ok, all_secure, secure_chain. rewrite !Forall_forall. intros Hc Hs zr Hzr. destruct (Hc zr Hzr) as (_ & _ & Ht). auto.
Qed.

Record leaf_ok (domain : string) (zones : list string) (out : ValidationStatus * ValidationResult.t * string) : Prop := {
  lk_status : out.1.1 <> StatusValidating;
  lk_chain : out.1.1 = StatusSecure -> secure_chain (ValidationResult.Chain out.1.2);
  lk_evidence : out.1.1 = StatusSecure -> exists zone keys, zone ∈ zones /\ trusted zone keys /\ leaf_evidence v domain zone keys out.2
}.

Lemma fold_leaf_ok domain zones rv leafZone chain result :
  secure_leaf v domain (ZoneResult.Zone leafZone) (ZoneResult.DNSKEY leafZone) rv ->
  ZoneResult.Zone leafZone ∈ zones -> secure_chain (chain ++ [leafZone]) ->
  leaf_ok domain zones (fold_leaf rv leafZone chain result).
Proof.
  intros Hrv Hzone [Hc Hl]%Forall_app. apply Forall_singleton in Hl as [Hl1 Hl2].
  unfold fold_leaf. cbn zeta.
  set (leafZone' := if _ && _ then AddZoneWarning _ _ else _).
  assert (Hlz : ZoneResult.Status leafZone' = StatusSecure /\ trusted (ZoneResult.Zone leafZone') (ZoneResult.DNSKEY leafZone')).
  { subst leafZone'. by destruct (_ && _). }
  clearbody leafZone'. pose proof (verdict_decided (Some rv)) as Hvd. unfold secure_leaf in Hrv. pose proof (verdict_secure rv) as Hver.
  destruct (recordValidationVerdict (Some rv)) as [status msg]. cbn in *.
  assert (Hall : secure_chain (chain ++ [leafZone'])) by (apply Forall_app; split; [done | by apply Forall_singleton]).
  destruct (bool_decide (status = StatusSecure)) eqn:Hb; cbn [orb andb].
  - apply bool_decide_eq_true in Hb as ->. specialize (Hrv eq_refl). destruct (Hver eq_refl) as [-> _].
    constructor; cbn; [done | done |]. intros _. by exists (ZoneResult.Zone leafZone), (ZoneResult.DNSKEY leafZone).
  - apply bool_decide_eq_false in Hb. constructor; repeat case_match; cbn; simplify_eq; done.
Qed.

Lemma leaf_step_ok domain zones t :
  track_ok zones t -> ValidationResult.Chain (Track.result t) <> [] ->
  keeps (leaf_step v domain zones t) (leaf_ok domain zones).
Proof.
  intros [Hc Hv Hs Hk] Hne. unfold leaf_step. cbn zeta.
  destruct (Track.lastStatus t) eqn:Est; try done;
    try (repeat case_match; [by apply keeps_ret | by apply keeps_ret |]; eapply keeps_bind; [apply keeps_in_base, ensures_any|]; intros target _; by apply keeps_ret).
  - specialize (Hs eq_refl). destruct (rev _) as [|leafZone others] eqn:Hrev; [by apply (f_equal (@rev _)) in Hrev; rewrite rev_involutive in Hrev|].
    assert (Hchain : ValidationResult.Chain (Track.result t) = rev others ++ [leafZone]).
    { apply (f_equal (@rev _)) in Hrev. by rewrite rev_involutive in Hrev. }
    assert (Hsec : secure_chain (rev others ++ [leafZone])) by (rewrite <-Hchain; by eapply chain_secure).
    assert (Hlz : ZoneResult.Zone leafZone ∈ zones).
    { rewrite Hchain in Hc. apply Forall_app in Hc as [_ Hc]. by apply Forall_singleton in Hc as (? & _). }
    eapply keeps_bind; [apply keeps_in_base, verifyActualRecord_ok|]. intros [rv|].
    + intros Hrv. apply keeps_ret. by apply fold_leaf_ok.
    + intros Hnil. apply Forall_app in Hsec as [_ Hl]. apply Forall_singleton in Hl as [_ Hl]. by apply trusted_nonempty in Hl.
Qed.

Definition outcome_ok (domain : string) (o : outcome) : Prop :=
  ValidationResult.Result o.1 <> StatusValidating /\ (o.2 <> None -> ValidationResult.Result o.1 = StatusIndeterminate) /\
  (ValidationResult.Result o.1 = StatusSecure ->
    authenticated_answer domain /\ secure_chain (ValidationResult.Chain o.1)).

Lemma followAlias_ok (validate : string -> nat -> W outcome) domain target depth :
  (forall d n, keeps (validate d n) (outcome_ok d)) ->
  keeps (followAlias validate domain target depth) (fun c => CNAMEChainResult.Result c <> StatusValidating /\
    (CNAMEChainResult.Result c = StatusSecure -> authenticated_answer target)).
Proof.
  intros Hval. unfold followAlias. eapply keeps_bind; [by apply keeps_modify|]. intros _ _.
  eapply (keeps_bind _ _ (fun _ => True)); [by apply keeps_gets|]. intros visited _.
  destruct (cnameGuard _ _ _ _ _) as [term visited'] eqn:Hg.
  eapply keeps_bind; [by apply keeps_modify|]. intros _ _. destruct term as [c|].
  - apply keeps_ret. unfold cnameGuard in Hg. repeat case_match; simplify_eq; done.
  - eapply keeps_bind; [apply Hval|]. intros [r [err|]] (Hr & _ & Hs); apply keeps_ret; [done|]. cbn in *. split; [done|].
    intros Hsec. by apply Hs.
Qed.

Lemma alias_verdict_ok c lastStatus result :
  CNAMEChainResult.Result c <> StatusValidating -> lastStatus <> StatusValidating ->
  (alias_verdict c lastStatus result).1 <> StatusValidating /\
  ((alias_verdict c lastStatus result).1 = StatusSecure ->
    lastStatus = StatusSecure /\ CNAMEChainResult.Result c = StatusSecure /\
    ValidationResult.Chain (alias_verdict c lastStatus result).2 = ValidationResult.Chain result).
Proof. intros Hc Hl. unfold alias_verdict. cbn zeta. by destruct (CNAMEChainResult.Result c), lastStatus. Qed.

Lemma validateWithCache_ok fuel domain depth : keeps (validateWithCache v fuel domain depth) (outcome_ok domain).
Proof.
  revert domain depth. induction fuel as [|fuel IH]; intros domain depth; cbn [validateWithCache]; [apply keeps_fail|].
  destruct (no_anchors v); [by apply keeps_ret|]. eapply keeps_bind; [apply keeps_in_base, ensures_any|]. intros _ _.
  eapply keeps_bind; [apply keeps_in_base, discovered_zones|]. intros [zones result] [[Hne Hzones] Hchain]. cbn in Hne, Hzones, Hchain.
  eapply keeps_bind; [apply (walk_zones_ok zones)|].
  { eapply Forall_impl; [done | by intros z []]. }
  { done. }
  { constructor; cbn; rewrite ?Hchain; first [done | by constructor | by intros ?]. }
  intros [o|t].
  { intros Ho. apply keeps_ret. unfold outcome_ok. destruct Ho as [[-> ->]| ->]; done. }
  intros [Ht Hlen]. cbn in Hlen. rewrite Hchain in Hlen. cbn in Hlen.
  eapply keeps_bind; [apply leaf_step_ok; [done|]|].
  { intros Hnil. rewrite Hnil in Hlen. by destruct zones. }
  intros [[status res] target] [Hst Hch Hev]. cbn in *.
  assert (Hin : forall z, z ∈ zones -> z ∈ enclosing_zones domain).
  { intros z Hz. by apply (proj1 (Forall_forall _ _) Hzones). }
  destruct (negb (String.eqb target "") && negb (leafType v =? TypeCNAME)) eqn:Hfollow.
  - eapply keeps_bind; [by apply followAlias_ok|]. intros c [Hcv Hcs].
    destruct (alias_verdict_ok c status res Hcv Hst) as [Hav Has]. destruct (alias_verdict c status res) as [status' res'].
    apply keeps_ret. split; [done|]. split; [done|]. cbn in *. intros Hsec. destruct (Has Hsec) as (Hs & Hc & Hch').
    rewrite Hch'. split; [|by apply Hch]. destruct (Hev Hs) as (zone & keys & Hz & Htr & Hleaf). eapply answer_alias; eauto.
  - apply keeps_ret. split; [done|]. split; [done|]. cbn. intros Hs. split; [|by apply Hch]. destruct (Hev Hs) as (zone & keys & Hz & Htr & Hleaf).
    eapply answer_here; eauto. apply andb_false_iff in Hfollow as [Hf%negb_false_iff|Hf%negb_false_iff].
    + left. by apply String.eqb_eq.
    + right. by apply Z.eqb_eq.
Qed.

Lemma Validate_ok domain s o s' : Validate v domain s = (Ok o, s') -> outcome_ok domain o.
Proof.
  unfold Validate. pose proof (validateWithCache_ok maxCNAMEDepth domain 0 (WState.mk s ∅ ∅)) as Hk. unfold wp in Hk.
  destruct (validateWithCache _ _ _ _ _) as [[o'|e] w]; [|done]. intros [= <- _]. apply Hk. intros zone zr Hl. by destruct (lookup_empty_Some zone zr).
Qed.
End walk.
