(* ===== verification/WalkBounds.v ===== *)
(** * WalkBounds: a validation ends, within its budget

    Every computation of the validator below the walk returns a value from every
    state ([total]); the recursion through aliases stops at [maxCNAMEDepth], so the
    fuel is enough.  Every one keeps to the work budget ([budgeted]), so one
    top-level validation with all its aliases makes at most the configured number of
    signature verifications. *)

From stdpp Require Import base list strings gmap pretty.
From Stdlib Require Import ZArith Lia.
From S2P Require Import Prelude GoTime Names Egress Nsec Nsec3 Wire Authenticated Anchors Chain Resolver Results Rdap ParentDS ZoneAuth Leaf Walk AuthenticatedSound.
Local Open Scope Z_scope.

(** ** Computations that return *)

Definition total {S E A} (m : St S E A) : Prop := forall s, exists a s', m s = (Ok a, s').

Section total_rules.
Context {S E : Type}.
Lemma total_ret {A} (a : A) : total (S := S) (E := E) (ret a).
Proof. intros s. by exists a, s. Qed.
Lemma total_gets {A} (f : S -> A) : total (E := E) (gets f).
Proof. intros s. by exists (f s), s. Qed.
Lemma total_modify (f : S -> S) : total (E := E) (modify f).
Proof. intros s. by exists tt, (f s). Qed.
Lemma total_catch {A} (m : St S E A) : total (catch m).
Proof. intros s. unfold catch. destruct (m s) as [r s']. by exists r, s'. Qed.
Lemma total_bind {A B} (m : St S E A) (k : A -> St S E B) : total m -> (forall a, total (k a)) -> total (bind m k).
Proof. intros Hm Hk s. destruct (Hm s) as (a & s1 & Ha). unfold bind. rewrite Ha. apply Hk. Qed.
End total_rules.

Create HintDb total.
#[export] Hint Resolve total_ret total_gets total_modify total_catch : total.

Ltac total_step :=
  first
    [ solve [eauto 2 with total]
    | apply total_bind; [|intros ?]
    | match goal with |- total (match ?x with _ => _ end) => destruct x end
    | match goal with |- total (if ?x then _ else _) => destruct x end ].
Ltac solve_total := repeat (total_step; cbn beta iota zeta).

Section total.
Context `{DnsLib} `{WireLib} `{ValidatorEnv} `{Network} `{ChainLib} `{RdapEnv} `{LeafLib} (v : Validator.t).

Lemma total_reading : total reading.
Proof. intros s. by eexists _, _. Qed.
Hint Resolve total_reading : total.
Lemma total_ctxErr : total ctxErr.
Proof. unfold ctxErr. solve_total. Qed.
Lemma total_Now : total Now.
Proof. unfold Now. solve_total. Qed.
Hint Resolve total_ctxErr total_Now : total.
Lemma total_exchange server qname qtype rd : total (exchange server qname qtype rd).
Proof. unfold exchange. solve_total. Qed.
Hint Resolve total_exchange : total.
Lemma total_query server qname qtype : total (Query server qname qtype).
Proof. unfold Query, QueryWithRecursion. solve_total. Qed.
Hint Resolve total_query : total.
Lemma total_denial_rrsig t kind e keys zone raw prove proof : total (denial_with_rrsig t kind e keys zone raw prove proof).
Proof. unfold denial_with_rrsig. solve_total. Qed.
Hint Resolve total_denial_rrsig : total.
Lemma total_denial_proof domain zone qr keys : total (denial_proof v domain zone qr keys).
Proof. unfold denial_proof, verifyNSECDenialWithRRSIGB, verifyNSEC3DenialWithRRSIGB. solve_total. Qed.
Lemma total_wildcard rv qname zone sig qr keys : total (verifyWildcard rv qname zone sig qr keys).
Proof. unfold verifyWildcard. solve_total. Qed.
Lemma total_signature_record vr : total (signature_record vr).
Proof. unfold signature_record. solve_total. Qed.
Hint Resolve total_denial_proof total_wildcard total_signature_record : total.
Lemma total_recordVerifiedLeaf rv vr domain zone qr keys : total (recordVerifiedLeaf rv vr domain zone qr keys).
Proof. unfold recordVerifiedLeaf. solve_total. Qed.
Lemma total_dname rv domain zone owner cnames qr keys : total (verifyDNAMEAnswer rv domain zone owner cnames qr keys).
Proof. unfold verifyDNAMEAnswer. solve_total. Qed.
Lemma total_leaf_candidates addrs domain zone keys authed usable : total (leaf_candidates v addrs domain zone keys authed usable).
Proof. revert authed usable. induction addrs; intros; cbn [leaf_candidates]; unfold QueryRecordAuthoritative; solve_total. Qed.
Hint Resolve total_recordVerifiedLeaf total_dname total_leaf_candidates : total.
Lemma total_queryLeaf addrs domain zone keys : total (queryLeafAllServers v addrs domain zone keys).
Proof. unfold queryLeafAllServers. solve_total. Qed.
Lemma total_verify_answer rv domain zone keys qr : total (verify_answer v rv domain zone keys qr).
Proof. unfold verify_answer. solve_total. Qed.
Hint Resolve total_queryLeaf total_verify_answer : total.
Lemma total_verifyActualRecord domain zone keys : total (verifyActualRecord v domain zone keys).
Proof. unfold verifyActualRecord. solve_total. Qed.
Lemma total_alias_targets addrs domain : total (alias_targets v addrs domain).
Proof. induction addrs; cbn [alias_targets]; unfold QueryRecordAuthoritative; solve_total. Qed.
Hint Resolve total_verifyActualRecord total_alias_targets : total.
Lemma total_discoverAliasTarget domain zone : total (discoverAliasTarget v domain zone).
Proof. unfold discoverAliasTarget. solve_total. Qed.
Lemma total_discover_zones domain result : total (discover_zones domain result).
Proof. unfold discover_zones. solve_total. Qed.
Lemma total_start_budget depth : total (start_budget v depth).
Proof. unfold start_budget, set_budget. solve_total. Qed.
Lemma total_in_base {A} (m : St VState.t string A) : total m -> total (in_base m).
Proof. intros Hm w. unfold in_base. destruct (Hm (WState.base w)) as (a & s & ->). by eexists _, _. Qed.
Hint Resolve total_discoverAliasTarget total_discover_zones total_start_budget total_in_base : total.

(** ** The walk *)

Lemma total_zone_result zone zones t : total (zone_result v zone zones t).
Proof. unfold zone_result. solve_total. Qed.
Hint Resolve total_zone_result : total.
Lemma total_walk_zones zones todo t : total (walk_zones v zones todo t).
Proof. revert t. induction todo; intros t; cbn [walk_zones]; solve_total. Qed.
Lemma total_leaf_step domain zones t : total (leaf_step v domain zones t).
Proof. unfold leaf_step. solve_total. Qed.
Hint Resolve total_walk_zones total_leaf_step : total.

Lemma total_followAlias validate domain target depth :
  (S depth < maxCNAMEDepth -> total (validate target (S depth)))%nat -> total (followAlias validate domain target depth).
Proof.
  intros Hval. unfold followAlias. apply total_bind; [eauto with total|]. intros _. apply total_bind; [eauto with total|]. intros visited.
  unfold cnameGuard. destruct (bool_decide _); [solve_total|]. destruct (Nat.leb_spec maxCNAMEDepth (depth + 1)); [solve_total|].
  apply total_bind; [eauto with total|]. intros _. apply total_bind; [apply Hval; lia|]. intros r. solve_total.
Qed.

(** The fuel left covers the hops left. *)
Lemma total_validateWithCache fuel domain depth :
  (maxCNAMEDepth <= fuel + depth)%nat -> (depth < maxCNAMEDepth)%nat -> total (validateWithCache v fuel domain depth).
Proof.
  revert domain depth. induction fuel as [|fuel IH]; intros domain depth Hf Hd; [lia|]. cbn [validateWithCache].
  assert (Hfollow : forall target, total (followAlias (validateWithCache v fuel) domain target depth)).
  { intros target. apply total_followAlias. intros Hlt. apply IH; lia. }
  solve_total.
Qed.
End total.

(** ** The budget *)

Section budget.
Context `{DnsLib} `{WireLib} `{ValidatorEnv} `{Network} `{ChainLib} `{RdapEnv} `{LeafLib} (v : Validator.t).

Lemma budgeted_ctxErr : budgeted ctxErr.
Proof. unfold ctxErr. solve_budgeted. Qed.
Lemma budgeted_Now : budgeted Now.
Proof. unfold Now. solve_budgeted. Qed.
Hint Resolve budgeted_ctxErr budgeted_Now : sig_budget.
Lemma budgeted_exchange server qname qtype rd : budgeted (exchange server qname qtype rd).
Proof. unfold exchange. solve_budgeted. Qed.
Hint Resolve budgeted_exchange : sig_budget.
Lemma budgeted_query server qname qtype : budgeted (Query server qname qtype).
Proof. unfold Query, QueryWithRecursion. solve_budgeted. Qed.
Lemma budgeted_recursive qname qtype : budgeted (exchangeRecursive qname qtype).
Proof. unfold exchangeRecursive. solve_budgeted. Qed.
Hint Resolve budgeted_query budgeted_recursive : sig_budget.
Lemma budgeted_family host name qtype : budgeted (family_lookup host name qtype).
Proof. unfold family_lookup. solve_budgeted. Qed.
Hint Resolve budgeted_family : sig_budget.
Lemma budgeted_addresses host : budgeted (ResolveAddressesDetailed host).
Proof. unfold ResolveAddressesDetailed. solve_budgeted. Qed.
Hint Resolve budgeted_addresses : sig_budget.
Lemma budgeted_nameservers zone recs set : budgeted (resolve_nameservers zone recs set).
Proof. revert set. induction recs; intros set; cbn [resolve_nameservers]; solve_budgeted. Qed.
Hint Resolve budgeted_nameservers : sig_budget.
Lemma budgeted_NSSet zone : budgeted (ResolveNSSet zone).
Proof. unfold ResolveNSSet, ResolveNS. solve_budgeted. Qed.
Lemma budgeted_zone_cuts candidates zones : budgeted (zone_cuts candidates zones).
Proof. revert zones. induction candidates; intros zones; cbn [zone_cuts]; unfold CheckZoneCut, interrupted; solve_budgeted. Qed.
Hint Resolve budgeted_NSSet budgeted_zone_cuts : sig_budget.
Lemma budgeted_discover domain result : budgeted (discover_zones domain result).
Proof. unfold discover_zones, DiscoverZoneCuts, interrupted. solve_budgeted. Qed.

(** *** The parent and the zone *)

Lemma budgeted_verifyDS validation child parent keys raw : budgeted (verifyDSRRSIGSetB validation child parent keys raw).
Proof. unfold verifyDSRRSIGSetB. solve_budgeted. Qed.
Lemma budgeted_absence child parent keys qr : budgeted (verifyDSAbsence child parent keys qr).
Proof. unfold verifyDSAbsence, ds_absence_nsec, ds_absence_nsec3. solve_budgeted. Qed.
Hint Resolve budgeted_verifyDS budgeted_absence : sig_budget.
Lemma budgeted_classify qr zone parent keys : budgeted (classifyParentDSAnswer qr zone parent keys).
Proof. unfold classifyParentDSAnswer. solve_budgeted. Qed.
Lemma budgeted_judgeDS chosen addr answer zone parent keys : budgeted (judgeParentDSServer chosen addr answer zone parent keys).
Proof. unfold judgeParentDSServer. solve_budgeted. Qed.
Hint Resolve budgeted_classify budgeted_judgeDS : sig_budget.
Lemma budgeted_ds_candidates servers zone parent keys authed acc : budgeted (ds_candidates v servers zone parent keys authed acc).
Proof. revert authed acc. induction servers; intros; cbn [ds_candidates]; solve_budgeted. Qed.
Lemma budgeted_judge_candidates i chosen cands out zone parent keys : budgeted (judge_candidates i chosen cands out zone parent keys).
Proof. revert i out. induction cands; intros; cbn [judge_candidates]; solve_budgeted. Qed.
Hint Resolve budgeted_ds_candidates budgeted_judge_candidates : sig_budget.
Lemma budgeted_queryDS zone parent fallback keys : budgeted (queryDSFromParentWithValidation v zone parent fallback keys).
Proof. unfold queryDSFromParentWithValidation. solve_budgeted. Qed.
Lemma budgeted_finalize r zone parent keys ds : budgeted (finalizeNoDSDelegation r zone parent keys ds).
Proof. unfold finalizeNoDSDelegation. solve_budgeted. Qed.
Hint Resolve budgeted_queryDS budgeted_finalize : sig_budget.
Lemma budgeted_parent_ds zone hierarchy ns keys srs r : budgeted (parent_ds v zone hierarchy ns keys srs r).
Proof. unfold parent_ds, queryRDAPSecureDNS. solve_budgeted. Qed.
Lemma budgeted_without_keys zone hierarchy ns keys srs r : budgeted (zone_without_keys v zone hierarchy ns keys srs r).
Proof. unfold zone_without_keys. solve_budgeted. Qed.
Lemma budgeted_servers zone servers : budgeted (query_servers zone servers).
Proof. induction servers; cbn [query_servers]; unfold QueryDNSKEYAuthoritative; solve_budgeted. Qed.
Lemma budgeted_judge zone rrset keys srs : budgeted (judge_servers zone rrset keys srs).
Proof. induction srs; cbn [judge_servers]; unfold judge_server; solve_budgeted. Qed.
Hint Resolve budgeted_parent_ds budgeted_without_keys budgeted_servers budgeted_judge : sig_budget.

Lemma budgeted_charge_pairs (a b : nat) : budgeted (charge (Z.of_nat a * Z.of_nat b * 2)).
Proof. apply budgeted_charge. nia. Qed.
Hint Resolve budgeted_charge_pairs : sig_budget.
Lemma budgeted_root_trust active keys : budgeted (root_trust active keys).
Proof. unfold root_trust. solve_budgeted. Qed.
Lemma budgeted_ds_trust ds zone keys : budgeted (ds_trust ds zone keys).
Proof. unfold ds_trust. solve_budgeted. Qed.
Lemma budgeted_authenticate_servers trust zone fe srs :
  (forall keys, budgeted (trust keys)) -> budgeted (authenticate_servers trust zone fe srs).
Proof.
  intros Htrust. revert fe. induction srs; intros fe; cbn [authenticate_servers]; unfold authenticate_server; solve_budgeted.
Qed.
Lemma budgeted_authenticate_zone trust zone srs r : (forall keys, budgeted (trust keys)) -> budgeted (authenticate_zone trust zone srs r).
Proof.
  intros Htrust. pose proof (fun fe srs => budgeted_authenticate_servers trust zone fe srs Htrust).
  unfold authenticate_zone, judgeDNSKEYServers. solve_budgeted.
Qed.
Hint Resolve budgeted_root_trust budgeted_ds_trust budgeted_authenticate_zone : sig_budget.
Lemma budgeted_validateZone zone hierarchy keys pi ia : budgeted (validateZone v zone hierarchy keys pi ia).
Proof.
  unfold validateZone, zone_nameservers, ValidateMultipleServers, GetActivePinnedAnchors, GetActiveAnchors. solve_budgeted.
Qed.
Hint Resolve budgeted_validateZone budgeted_discover : sig_budget.

(** *** The leaf *)

Lemma budgeted_signature_record vr : budgeted (signature_record vr).
Proof. unfold signature_record. solve_budgeted. Qed.
Lemma budgeted_wildcard rv qname zone sig qr keys : budgeted (verifyWildcard rv qname zone sig qr keys).
Proof. unfold verifyWildcard, authenticated_denial. solve_budgeted. Qed.
Hint Resolve budgeted_signature_record budgeted_wildcard : sig_budget.
Lemma budgeted_recordVerifiedLeaf rv vr domain zone qr keys : budgeted (recordVerifiedLeaf rv vr domain zone qr keys).
Proof. unfold recordVerifiedLeaf. solve_budgeted. Qed.
Lemma budgeted_wildcardPath vr domain zone qr keys : budgeted (wildcardPathError vr domain zone qr keys).
Proof. unfold wildcardPathError. solve_budgeted. Qed.
Lemma budgeted_dname_target qr zone owner keys : budgeted (authenticatedDNAMETarget qr zone owner keys).
Proof. unfold authenticatedDNAMETarget. solve_budgeted. Qed.
Lemma budgeted_dname rv domain zone owner cnames qr keys : budgeted (verifyDNAMEAnswer rv domain zone owner cnames qr keys).
Proof. unfold verifyDNAMEAnswer. solve_budgeted. Qed.
Lemma budgeted_denial_proof domain zone qr keys : budgeted (denial_proof v domain zone qr keys).
Proof. unfold denial_proof. solve_budgeted. Qed.
Hint Resolve budgeted_recordVerifiedLeaf budgeted_wildcardPath budgeted_dname_target budgeted_dname budgeted_denial_proof : sig_budget.
Lemma budgeted_candidate qr domain zone keys : budgeted (leafCandidateError v qr domain zone keys).
Proof. unfold leafCandidateError, lift_res. solve_budgeted. all: intros s; by destruct (substituteDNAME _ _ _). Qed.
Hint Resolve budgeted_candidate : sig_budget.
Lemma budgeted_leaf_candidates addrs domain zone keys authed usable : budgeted (leaf_candidates v addrs domain zone keys authed usable).
Proof. revert authed usable. induction addrs; intros; cbn [leaf_candidates]; unfold QueryRecordAuthoritative; solve_budgeted. Qed.
Lemma budgeted_verify_answer rv domain zone keys qr : budgeted (verify_answer v rv domain zone keys qr).
Proof. unfold verify_answer. solve_budgeted. Qed.
Hint Resolve budgeted_leaf_candidates budgeted_verify_answer : sig_budget.
Lemma budgeted_verifyActualRecord domain zone keys : budgeted (verifyActualRecord v domain zone keys).
Proof. unfold verifyActualRecord, queryLeafAllServers. solve_budgeted. Qed.
Lemma budgeted_alias_targets addrs domain : budgeted (alias_targets v addrs domain).
Proof. induction addrs; cbn [alias_targets]; unfold QueryRecordAuthoritative; solve_budgeted. Qed.
Hint Resolve budgeted_verifyActualRecord budgeted_alias_targets : sig_budget.
Lemma budgeted_discoverAliasTarget domain zone : budgeted (discoverAliasTarget v domain zone).
Proof. unfold discoverAliasTarget. solve_budgeted. Qed.
Hint Resolve budgeted_discoverAliasTarget : sig_budget.

(** *** The walk *)

(** [m] keeps to the budget it finds. *)
Definition wbudgeted {A} (m : St WState.t string A) : Prop := forall w, budget_step (WState.base w) (WState.base (m w).2).

Lemma wbudgeted_in_base {A} (m : St VState.t string A) : budgeted m -> wbudgeted (in_base m).
Proof. intros Hm w. specialize (Hm (WState.base w)). unfold in_base. by destruct (m (WState.base w)). Qed.
Lemma wbudgeted_ret {A} (a : A) : wbudgeted (ret a).
Proof. by intros w. Qed.
Lemma wbudgeted_fail {A} e : wbudgeted (fail (A := A) e).
Proof. by intros w. Qed.
Lemma wbudgeted_gets {A} (f : WState.t -> A) : wbudgeted (gets f).
Proof. by intros w. Qed.
Lemma wbudgeted_modify f : (forall w, WState.base (f w) = WState.base w) -> wbudgeted (modify f).
Proof. intros Hf w. cbn. by rewrite Hf. Qed.
Lemma wbudgeted_bind {A B} (m : St WState.t string A) (k : A -> St WState.t string B) :
  wbudgeted m -> (forall a, wbudgeted (k a)) -> wbudgeted (bind m k).
Proof.
  intros Hm Hk w. specialize (Hm w). unfold bind. destruct (m w) as [[a|e] w']; [|done]. etrans; [done | apply Hk].
Qed.

Ltac solve_wbudgeted := repeat (first
  [ solve [eauto 2 with sig_budget]
  | apply wbudgeted_in_base; solve_budgeted
  | apply wbudgeted_ret | apply wbudgeted_fail | apply wbudgeted_gets | by apply wbudgeted_modify
  | apply wbudgeted_bind; [|intros ?]
  | match goal with |- wbudgeted (match ?x with _ => _ end) => destruct x end
  | match goal with |- wbudgeted (if ?x then _ else _) => destruct x end ]; cbn beta iota zeta).

Lemma wbudgeted_zone_result zone zones t : wbudgeted (zone_result v zone zones t).
Proof. unfold zone_result. solve_wbudgeted. Qed.
Hint Resolve wbudgeted_zone_result : sig_budget.
Lemma wbudgeted_walk_zones zones todo t : wbudgeted (walk_zones v zones todo t).
Proof. revert t. induction todo; intros t; cbn [walk_zones]; solve_wbudgeted. Qed.
Lemma wbudgeted_leaf_step domain zones t : wbudgeted (leaf_step v domain zones t).
Proof. unfold leaf_step. solve_wbudgeted. Qed.
Hint Resolve wbudgeted_walk_zones wbudgeted_leaf_step : sig_budget.

(** A nested validation finds the budget of the top-level one. *)
Definition work_limit : Z := if Validator.verificationBudget v <=? 0 then DefaultVerificationBudget else Validator.verificationBudget v.
Definition governed (w : WState.t) : Prop := budget_limit (WState.base w) = Some work_limit /\ within_budget (WState.base w).

Lemma governed_step w w' : governed w -> budget_step (WState.base w) (WState.base w') -> governed w'.
Proof. intros [Hl Hw] [Hl' _ _ Hw']. split; [by rewrite Hl' | by apply Hw']. Qed.

Lemma governed_bound w : governed w -> Z.of_nat (VState.verifications (WState.base w)) <= work_limit.
Proof.
  intros [Hl Hw]. unfold budget_limit in Hl. destruct (VState.budget (WState.base w)) as [b|] eqn:Hb; [|done].
  injection Hl as <-. by apply Hw.
Qed.

Lemma start_budget_top w : VState.verifications (WState.base w) = 0%nat -> governed (in_base (start_budget v 0) w).2.
Proof.
  intros Hv. unfold governed, within_budget, in_base, start_budget, set_budget, bind, gets, modify, budget_limit. cbn.
  assert (0 <= work_limit) by (unfold work_limit, DefaultVerificationBudget; destruct (Z.leb_spec (Validator.verificationBudget v) 0); lia).
  split; [done|]. intros b [= <-]. cbn. rewrite Hv. fold work_limit. lia.
Qed.

Lemma start_budget_nested depth w : governed w -> (in_base (start_budget v (S depth)) w).2 = w.
Proof.
  intros [Hl _]. unfold budget_limit in Hl. unfold in_base, start_budget, bind, gets. cbn.
  destruct (VState.budget (WState.base w)); [|done]. by destruct w.
Qed.

(** [m] keeps the governing budget. *)
Definition governing {A} (m : St WState.t string A) : Prop := forall w, governed w -> governed (m w).2.

Lemma wbudgeted_governing {A} (m : St WState.t string A) : wbudgeted m -> governing m.
Proof. intros Hm w Hw. by eapply governed_step. Qed.
Lemma governing_bind {A B} (m : St WState.t string A) (k : A -> St WState.t string B) :
  governing m -> (forall a, governing (k a)) -> governing (bind m k).
Proof. intros Hm Hk w Hw. specialize (Hm w Hw). unfold bind. destruct (m w) as [[a|e] w']; [by apply Hk | done]. Qed.

Lemma governing_followAlias validate domain target depth :
  governing (validate target (S depth)) -> governing (followAlias validate domain target depth).
Proof.
  intros Hval. unfold followAlias. apply governing_bind; [apply wbudgeted_governing; solve_wbudgeted|]. intros _.
  apply governing_bind; [apply wbudgeted_governing; solve_wbudgeted|]. intros visited.
  destruct (cnameGuard _ _ _ _ _) as [term visited']. apply governing_bind; [apply wbudgeted_governing; solve_wbudgeted|]. intros _.
  destruct term; [apply wbudgeted_governing; solve_wbudgeted|]. apply governing_bind; [done|]. intros r. apply wbudgeted_governing. solve_wbudgeted.
Qed.

(** Once its budget is set, a validation keeps to it. *)
Lemma validate_started fuel domain depth w :
  (forall target d, governing (validateWithCache v fuel target (S d))) ->
  no_anchors v = false -> governed (in_base (start_budget v depth) w).2 ->
  governed (validateWithCache v (S fuel) domain depth w).2.
Proof.
  intros IH Ha Hg. cbn [validateWithCache]. rewrite Ha. unfold bind at 1.
  destruct (in_base (start_budget v depth) w) as [[u|e] w1]; [|done]. revert w1 Hg.
  apply governing_bind; [apply wbudgeted_governing; solve_wbudgeted|]. intros [zones result].
  apply governing_bind; [apply wbudgeted_governing; solve_wbudgeted|]. intros [o|t]; [apply wbudgeted_governing; solve_wbudgeted|].
  apply governing_bind; [apply wbudgeted_governing; solve_wbudgeted|]. intros [[status res] target].
  destruct (_ && _); [|apply wbudgeted_governing; solve_wbudgeted].
  apply governing_bind; [by apply governing_followAlias|]. intros c. apply wbudgeted_governing. solve_wbudgeted.
Qed.

Lemma validate_nested fuel domain depth : governing (validateWithCache v fuel domain (S depth)).
Proof.
  revert domain depth. induction fuel as [|fuel IH]; intros domain depth; [by intros w|].
  destruct (no_anchors v) eqn:Ha; [intros w Hw; cbn [validateWithCache]; by rewrite Ha|].
  intros w Hw. apply validate_started; [done | done | by rewrite start_budget_nested].
Qed.

Lemma validate_bound domain s : VState.verifications s = 0%nat ->
  Z.of_nat (VState.verifications (Validate v domain s).2) <= work_limit.
Proof.
  intros Hs. assert (0 <= work_limit) by (unfold work_limit, DefaultVerificationBudget; destruct (Z.leb_spec (Validator.verificationBudget v) 0); lia).
  unfold Validate. destruct (no_anchors v) eqn:Ha.
  - change maxCNAMEDepth with (S 9). cbn [validateWithCache]. rewrite Ha. cbn. lia.
  - pose proof (validate_started 9 domain 0 (WState.mk s ∅ ∅) (validate_nested 9) Ha (start_budget_top (WState.mk s ∅ ∅) Hs)) as Hg%governed_bound.
    change (S 9) with maxCNAMEDepth in Hg. by destruct (validateWithCache _ _ _ _ _).
Qed.
End budget.
