(* ===== verification/SampleWorld.v ===== *)
(** * SampleWorld: libraries, a published chain and a small Internet for the witnesses

    First a library whose signatures cover a list of published RRsets.  A concrete [ValidatorEnv] for the witnesses.  [Verify] accepts an RRset under
    the one key when the RRset it was signed as, found from the Labels field of the
    signature as RFC 4035 5.3.2 describes, is published: so a wildcard's RRset also
    verifies at the names the wildcard covers. *)

From stdpp Require Import base list strings gmap pretty.
From Stdlib Require Import ZArith Lia.
From S2P Require Import Prelude GoTime Order Names PlainNames DnsZone SampleZone Egress Nsec NsecSound Nsec3 Wire Authenticated Anchors Chain Resolver Results Rdap ParentDS ZoneAuth Leaf Walk AuthenticatedSound ChainSound.
Local Open Scope Z_scope.

#[global] Instance Hdr_eq_dec : EqDecision Hdr.t. Proof. solve_decision. Defined.
#[global] Instance RRSIG_eq_dec : EqDecision RRSIG.t. Proof. solve_decision. Defined.
#[global] Instance DNSKEY_eq_dec : EqDecision DNSKEY.t. Proof. solve_decision. Defined.
#[global] Instance DS_eq_dec : EqDecision DS.t. Proof. solve_decision. Defined.
#[global] Instance NSEC_eq_dec : EqDecision NSEC.t. Proof. solve_decision. Defined.
#[global] Instance NSEC3_eq_dec : EqDecision NSEC3.t. Proof. solve_decision. Defined.
#[global] Instance NSEC3PARAM_eq_dec : EqDecision NSEC3PARAM.t. Proof. solve_decision. Defined.
#[global] Instance RR_eq_dec : EqDecision RR. Proof. solve_decision. Defined.

(** The labels of a name written plainly. *)
Definition name_of (s : string) : name := rev (splitLabels s).
Definition plainly_written (s : string) : bool := String.eqb s (fqdn (name_of s)) && plain_nameb (name_of s).

(** The owner a record with [labels] in its signature was signed at. *)
Definition source_owner (labels : Z) (s : string) : string :=
  let ls := name_of s in
  if (0 <=? labels) && (labels <? Z.of_nat (length ls)) then fqdn ("*" :: drop (length ls - Z.to_nat labels) ls) else s.

Definition set_owner (f : string -> string) : RR -> RR :=
  map_header (fun h => Hdr.mk (f (Hdr.Name h)) (Hdr.Rrtype h) (Hdr.Class_ h) (Hdr.Ttl h)).

(** The RRset the signature was made over. *)
Definition signed_as (sig : RRSIG.t) (records : list RR) : list RR :=
  map (set_owner (source_owner (RRSIG.Labels sig))) records.

Definition sample_verify (published : list (list RR)) (sig : RRSIG.t) (key : DNSKEY.t) (records : list RR) : option string :=
  if String.eqb (DNSKEY.PublicKey key) "zsk" && forallb (fun rr => plainly_written (rr_name rr)) records &&
     bool_decide (signed_as sig records ∈ published)
  then None else Some "bad signature".

#[global] Instance sample_wire : WireLib := { KeyTagOf key := Z.of_nat (String.length (DNSKEY.PublicKey key)) }.

(** One message, at one moment, without cancellation. *)
Definition sample_env (msg : Msg.t) (published : list (list RR)) : ValidatorEnv := {|
  Unpack raw := match raw with [1] => Ok msg | _ => Err "unpack" end;
  Verify := sample_verify published;
  now_at _ := unix_time 1000000;
  ctx_err _ := None
|}.

(** The zone key of the samples, and a signature by it. *)
Definition sample_key (zone : string) : DNSKEYRecord.t :=
  DNSKEYFromRR (DNSKEY.mk (Hdr.mk zone TypeDNSKEY 1 3600) 256 3 13 "zsk") SectionAnswer.
Definition sample_sig (zone owner : string) (t labels : Z) : RRSIG.t :=
  RRSIG.mk (Hdr.mk owner 46 1 3600) t 13 labels 3600 2000000 500000 3 zone "c2ln".
Definition sample_nsec (owner next : string) (types : list Z) : RR :=
  RR_NSEC (NSEC.mk (Hdr.mk owner TypeNSEC 1 3600) next types).

Definition sample_start : VState.t := VState.mk (Some (newVerifyBudget DefaultVerificationBudget)) 0 0.

(** ** A published NSEC chain *)

Definition type_code (t : string) : Z :=
  match List.find (fun c => String.eqb (plain_type_string c) t) [1; 2; 5; 6; 16; 28; 39; 43; 46; 47; 48; 50] with
  | Some c => c
  | None => 0
  end.

Definition chain_rr (z : zone_data) (link : name * name) : RR :=
  sample_nsec (fqdn link.1) (fqdn link.2) (map type_code (types_at z link.1)).
Definition published_nsec (z : zone_data) (l : list name) : list (list RR) := map (fun link => [chain_rr z link]) (ring l).

(** The records of a chain with their signatures, as an authority section. *)
Definition label_count (n : name) : Z :=
  Z.of_nat (length (List.filter (fun l => negb (String.eqb l "*")) n)).
Definition signed_chain (zone : string) (z : zone_data) (l : list name) : list RR :=
  concat (map (fun link => [chain_rr z link; RR_RRSIG (sample_sig zone (fqdn link.1) TypeNSEC (label_count link.1))]) (ring l)).

(** The published types survive the translation to numbers and back. *)
Definition types_translate (z : zone_data) (l : list name) : bool :=
  forallb (fun n => bool_decide (map plain_type_string (map type_code (types_at z n)) = types_at z n) && plain_nameb n) l.

Lemma ring_first (l : list name) s e : (s, e) ∈ ring l -> s ∈ l.
Proof. intros Hin. by apply ring_elem in Hin as []. Qed.

Lemma chain_rr_record z l link n : types_translate z l = true -> link.1 ∈ l ->
  chain_rr z link = RR_NSEC n -> NSECFromRR n SectionAuthority = chain_record z link.
Proof.
  intros Ht Hin Hn. unfold types_translate in Ht. rewrite forallb_forall in Ht. apply list_elem_of_In in Hin. specialize (Ht _ Hin).
  apply andb_true_iff in Ht as [Ht _]. apply bool_decide_eq_true in Ht.
  injection Hn as <-. unfold NSECFromRR, chain_record. cbn [NSEC.Hdr NSEC.NextDomain NSEC.TypeBitMap Hdr.Name Hdr.Class_].
  change (@TypeString plain_lib) with plain_type_string. by rewrite Ht.
Qed.

(** What verifies is a published RRset or the expansion of one. *)
Lemma sample_verify_published published sig key records rr :
  sample_verify published sig key records = None -> rr ∈ records ->
  plainly_written (rr_name rr) = true /\ exists rrs, rrs ∈ published /\ set_owner (source_owner (RRSIG.Labels sig)) rr ∈ rrs.
Proof.
  unfold sample_verify. destruct (String.eqb _ _); cbn [andb]; [|done].
  destruct (forallb _ _) eqn:Hp; cbn [andb]; [|done]. case_bool_decide as Hin; [|done]. intros _ Hrr. split.
  - rewrite forallb_forall in Hp. by apply Hp, list_elem_of_In.
  - exists (signed_as sig records). split; [done|]. unfold signed_as. apply list_elem_of_fmap. by exists rr.
Qed.

(** The source of synthesis of a plainly written owner. *)
Lemma source_owner_name labels s : plainly_written s = true ->
  exists o o0, canonicalizeName s = fqdn o /\ source_owner labels s = fqdn o0 /\ plain_name o0 /\
    (o = o0 \/ exists ce l, o0 = "*" :: ce /\ o = l ++ ce /\ l <> []).
Proof.
  intros [Hs Hp%plain_nameb_ok]%andb_true_iff. apply String.eqb_eq in Hs.
  set (o := name_of s) in *. assert (canonicalizeName s = fqdn o) as Hc by (rewrite Hs; by apply canonicalizeName_fqdn).
  exists o. unfold source_owner. fold o. destruct ((0 <=? labels) && (labels <? Z.of_nat (length o))) eqn:Hl.
  - bool_to_prop. set (k := (length o - Z.to_nat labels)%nat). exists ("*" :: drop k o). split_and!; try done.
    + apply wildcard_label_plain. by apply Forall_drop.
    + right. exists (drop k o), (take k o). split; [done|]. split; [by rewrite take_drop|].
      intros Hn%(f_equal length). rewrite length_take in Hn. cbn in Hn. lia.
  - exists o. split_and!; auto.
Qed.

(** ** A small signed Internet

    A root zone signed by the key the pinned anchor 20326 names (the public key of
    root-anchors.json), a signed zone example. below it, and one server of each.
    Messages are the entries of a table; a signature verifies when the key signed
    the records.  The laws of [WireLaws] hold of it. *)

#[global] Instance Msg_eq_dec : EqDecision Msg.t. Proof. solve_decision. Defined.

(** ** Keys *)

(** [root-anchors.json]: the two anchors with public keys. *)
Definition root_key_20326 : string := "AwEAAaz/tAm8yTn4Mfeh5eyI96WSVexTBAvkMgJzkKTOiW1vkIbzxeF3+/4RgWOq7HrxRixHlFlExOLAJr5emLvN7SWXgnLh4+B5xQlNVz8Og8kvArMtNROxVQuCaSnIDdD5LKyWbRd2n9WGe2R8PzgCmr3EgVLrjyBxWezF0jLHwVN8efS3rCj/EWgvIWgb9tarpVUDK/b58Da+sqqls3eNbuv7pr+eoZG+SrDK6nWeL3c6H5Apxz7LjVc1uTIdsIXxuOLYA4/ilBmSVIzuDWfdRUfhHdY6+cn8HFRm+2hM8AnXGXws9555KrUB5qihylGa8subX2Nn6UwNR1AkUTV74bU=".
Definition root_key_38696 : string := "AwEAAa96jeuknZlaeSrvyAJj6ZHv28hhOKkx3rLGXVaC6rXTsDc449/cidltpkyGwCJNnOAlFNKF2jBosZBU5eeHspaQWOmOElZsjICMQMC3aeHbGiShvZsx4wMYSjH8e7Vrhbu6irwCzVBApESjbUdpWWmEnhathWu1jo+siFUiRAAxm9qyJNg/wOZqqzL/dL/q8PkcRU5oUKEpUge71M3ej2/7CPqpdVwuMoTvoB+ZOT4YeGyxMvHmbrxlFzGOHOijtzN+u1TQNatX2XBuzZNQ1K+s2CXkPIZo7s6JgZyvaBevYtxPvYLw4z9mR7K2vaF18UYH9Z9GNUUeayffKC73PYc=".
Definition child_key : string := "AQAB".

Definition world_tag (publicKey : string) : Z :=
  if String.eqb publicKey root_key_20326 then 20326 else if String.eqb publicKey root_key_38696 then 38696 else 4242.
#[global] Instance world_wire : WireLib | 0 := { KeyTagOf key := world_tag (DNSKEY.PublicKey key) }.

(** A name in wire format. *)
#[global] Instance world_chain : ChainLib := {
  PackDomainName s := Ok (concat (map (fun l => Z.of_nat (String.length l) :: bytes_of_string l) (SplitDomainName s)) ++ [0])
}.

Definition key_rr (zone publicKey : string) (alg : Z) : DNSKEY.t := DNSKEY.mk (Hdr.mk zone TypeDNSKEY 1 172800) 257 3 alg publicKey.
Definition key_record (zone publicKey : string) (alg : Z) : DNSKEYRecord.t := DNSKEYFromRR (key_rr zone publicKey alg) SectionAnswer.

Definition child_digest : string := match ComputeDSDigestFromDNSKEY "example." (key_record "example." child_key 13) 2 with Ok d => d | Err _ => "" end.

(** ** Records and signatures *)

Definition root_keys : list RR := [RR_DNSKEY (key_rr "." root_key_20326 8)].
Definition child_keys : list RR := [RR_DNSKEY (key_rr "example." child_key 13)].
Definition child_ds : list RR := [RR_DS (DS.mk (Hdr.mk "example." TypeDS 1 86400) 4242 13 2 child_digest)].
Definition www_a : list RR := [RR_A (Hdr.mk "www.example." TypeA 1 300) [192; 0; 2; 80]].
Definition alias_cname : list RR := [RR_CNAME (Hdr.mk "alias.example." TypeCNAME 1 300) "www.example."].

Definition world_sig (signer owner : string) (t labels alg tag : Z) : RR :=
  RR_RRSIG (RRSIG.mk (Hdr.mk owner 46 1 300) t alg labels 300 2000000000 1500000000 tag signer "c2ln").

(** What each key signed. *)
Definition signed_by : list (string * list RR) :=
  [(root_key_20326, root_keys); (root_key_20326, child_ds); (child_key, child_keys); (child_key, www_a); (child_key, alias_cname)].

(** ** Messages *)

Definition answer_msg (rrs : list RR) : Msg.t := Msg.mk RcodeSuccess true rrs [] [].

Definition table : list ((string * Z) * Msg.t) := [
  (("example.", TypeNS), answer_msg [RR_NS (Hdr.mk "example." TypeNS 1 300) "ns.example."]);
  (("www.example.", TypeNS), answer_msg []);
  (("alias.example.", TypeNS), answer_msg []);
  (("ns.example.", TypeA), answer_msg [RR_A (Hdr.mk "ns.example." TypeA 1 300) [192; 0; 2; 1]]);
  (("ns.example.", TypeAAAA), answer_msg []);
  ((".", TypeDNSKEY), answer_msg (root_keys ++ [world_sig "." "." TypeDNSKEY 0 8 20326]));
  (("example.", TypeDNSKEY), answer_msg (child_keys ++ [world_sig "example." "example." TypeDNSKEY 1 13 4242]));
  (("example.", TypeDS), answer_msg (child_ds ++ [world_sig "." "example." TypeDS 1 8 20326]));
  (("www.example.", TypeA), answer_msg (www_a ++ [world_sig "example." "www.example." TypeA 2 13 4242]));
  (("alias.example.", TypeA), answer_msg (alias_cname ++ [world_sig "example." "alias.example." TypeCNAME 2 13 4242]))].

Definition messages : list Msg.t := map snd table.

Definition lookup_message (qname : string) (qtype : Z) : res string Msg.t :=
  match List.find (fun e => String.eqb e.1.1 qname && (e.1.2 =? qtype)) table with
  | Some e => Ok e.2
  | None => Err "i/o timeout"
  end.

Definition world_pack (m : Msg.t) : option (list Z) :=
  if bool_decide (m ∈ messages)
  then Some [Z.of_nat (default 0%nat (fst <$> list_find (fun m' => m' = m) messages))] else None.
Definition world_unpack (raw : list Z) : res string Msg.t :=
  match raw with
  | [i] => match messages !! Z.to_nat i with Some m => Ok m | None => Err "unpack" end
  | _ => Err "unpack"
  end.

#[global] Instance world_env : ValidatorEnv := {
  Unpack := world_unpack;
  Verify sig key records := if bool_decide ((DNSKEY.PublicKey key, records) ∈ signed_by) then None else Some "bad signature";
  now_at _ := unix_time 1780000000;
  ctx_err _ := None
}.
#[global] Instance world_network : Network := {
  ExchangeContext _ _ qname qtype _ := Exchanged.mk (lookup_message qname qtype) 0 false;
  Pack := world_pack;
  recursive := "127.0.0.1";
  egress := None
}.
#[global] Instance world_rdap : RdapEnv := { GetSecureDNS _ _ := Err "no RDAP"; EffectiveTLDPlusOne _ := None }.
#[global] Instance world_leaf : LeafLib := {
  IsDomainName _ := true; TypeToString t := Some (plain_type_string t); StringToType _ := None; RR_String rr := rr_name rr
}.

(** ** The laws *)

Lemma plain_fqdn_nonempty s : plain_fqdn s <> "".
Proof. unfold plain_fqdn. by destruct s as [|c s]; [|destruct (HasSuffix _ _)]. Qed.

Lemma ToLower_nonempty s : s <> "" -> ToLower s <> "".
Proof. by destruct s. Qed.

Lemma world_unpack_index i : world_unpack [Z.of_nat i] = match messages !! i with Some m => Ok m | None => Err "unpack" end.
Proof. unfold world_unpack. by rewrite Nat2Z.id. Qed.

Lemma world_round_trip m raw : world_pack m = Some raw -> world_unpack raw = Ok m.
Proof.
  unfold world_pack. case_bool_decide as Hin; [|done]. intros Hp. apply Some_inj in Hp as <-.
  destruct (list_find (fun m' => m' = m) messages) as [[i m']|] eqn:Hf.
  - apply list_find_Some in Hf as (Hi & -> & _).
    enough (world_unpack [Z.of_nat i] = Ok m) as He by exact He. by rewrite world_unpack_index, Hi.
  - apply list_find_None in Hf. rewrite Forall_forall in Hf. by destruct (Hf m Hin).
Qed.

#[global] Instance well_typed_dec rr : Decision (well_typed rr).
Proof. destruct rr; cbn; apply _. Defined.

Definition message_ok (m : Msg.t) : bool :=
  forallb (fun rr => negb (String.eqb (rr_name rr) "") && bool_decide (well_typed rr)) (all_records m).

Lemma messages_ok : forallb message_ok messages = true.
Proof. by vm_compute. Qed.

#[global] Instance world_laws : WireLaws.
Proof.
  split.
  - apply plain_fqdn_nonempty.
  - intros s. apply ToLower_nonempty, plain_fqdn_nonempty.
  - intros n server qname qtype rd m raw _. apply world_round_trip.
  - intros raw m rr Hu Hrr. assert (Hm : m ∈ messages).
    { cbn in Hu. unfold world_unpack in Hu. destruct raw as [|i [|]]; try done.
      destruct (messages !! Z.to_nat i) as [m'|] eqn:Hi; [|done]. injection Hu as <-. by eapply list_elem_of_lookup_2. }
    pose proof (proj1 (forallb_forall _ _) messages_ok m (proj1 (list_elem_of_In _ _) Hm)) as Hok.
    pose proof (proj1 (forallb_forall _ _) Hok rr (proj1 (list_elem_of_In _ _) Hrr)) as [Hn Ht]%andb_true_iff.
    split; [by apply negb_true_iff, String.eqb_neq in Hn | by apply bool_decide_eq_true in Ht].
Qed.

(** ** The validator *)

Definition anchor_20326 : Anchor.t :=
  Anchor.mk "Klajeyz" 20326 8 "RSASHA256" 2 "SHA-256" "E06D44B80B8F1D39A95C0B0D7C65D08458E880409BBC683457104237C7F8EC8D"
    "2017-02-02T00:00:00+00:00" None root_key_20326 257.
Definition world_validator : Validator.t :=
  Validator.mk (Some (RootAnchors.mk "iana" "." "" [anchor_20326] "built-in")) false TypeA false ["198.41.0.4"] 0.
Definition world_start : VState.t := VState.mk None 0 0.
