(* ===== verification/SignedDenial.v ===== *)
(** * SignedDenial: a denial verified from the wire is true of the zone

    The composition of signature verification with the denial semantics.  What the
    keys of a zone vouch for is an explicit hypothesis: the records that verify are
    records of the zone, or, as RFC 4035 5.3.2 has it, the expansion of a wildcard
    of the zone.  The validator does not tell the two apart for NSEC, so the result
    needs a zone without wildcards, and fails without that. *)

From stdpp Require Import base list strings gmap pretty.
From Stdlib Require Import ZArith Lia Sorted.
From S2P Require Import Prelude GoTime Order Names PlainNames DnsZone SampleZone Digests Nsec NsecSound Nsec3 Nsec3Sound Wire Authenticated AuthenticatedSound SampleWorld.

Section signed.
Context `{DnsLibLaws} `{WireLib} `{ValidatorEnv}.
Implicit Types (z : zone_data) (keys : list DNSKEYRecord.t).

(** The library gives every record of a known type its structure. *)
Definition typed_message (raw : list Z) : Prop :=
  forall msg rr, Unpack raw = Ok msg -> rr ∈ Msg.Answer msg ++ Msg.Ns msg ->
    (rr_type rr = TypeNSEC -> exists n, rr = RR_NSEC n) /\ (rr_type rr = TypeNSEC3 -> exists n, rr = RR_NSEC3 n).

(** [r] is [r0] itself or, when [r0] is owned by a wildcard, the same record at a
    name the wildcard covers. *)
Definition expansion_of (r r0 : NSECRecord.t) : Prop :=
  NSECRecord.NextDomain r = NSECRecord.NextDomain r0 /\ NSECRecord.TypeBitmap r = NSECRecord.TypeBitmap r0 /\
  exists o o0, canonicalizeName (NSECRecord.Owner r) = fqdn o /\ canonicalizeName (NSECRecord.Owner r0) = fqdn o0 /\
    plain_name o0 /\ (o = o0 \/ exists ce l, o0 = "*" :: ce /\ o = l ++ ce /\ l <> []).

(** What verifies under [keys] with [zone] as signer was signed by the zone. *)
Definition zone_signs_nsec z keys (zone : string) : Prop :=
  forall sig k records n, key_verifies keys sig records k -> CanonicalName (RRSIG.SignerName sig) = CanonicalName zone ->
    RR_NSEC n ∈ records -> exists r0, authentic z r0 /\ expansion_of (NSECFromRR n SectionAuthority) r0.
Definition zone_signs_nsec3 (published : list NSEC3Record.t) keys (zone : string) : Prop :=
  forall sig k records n, key_verifies keys sig records k -> CanonicalName (RRSIG.SignerName sig) = CanonicalName zone ->
    RR_NSEC3 n ∈ records -> NSEC3FromRR n SectionAuthority ∈ published.

Definition no_wildcard z : Prop := forall ce, ~ owns z ("*" :: ce).

Lemma expansion_authentic z r r0 : zone_ok z -> no_wildcard z -> authentic z r0 -> expansion_of r r0 -> authentic z r.
Proof.
  intros Hz Hno (o0 & n & Hat) (Hn & Ht & o & o0' & Ho & Ho0 & Hp & Hexp).
  assert (o0' = o0) as ->.
  { apply fqdn_inj; [done | by apply (nsec_at_plain z Hz r0 o0 n) | by rewrite <- Ho0, (nsec_owner _ _ _ _ Hat)]. }
  destruct Hexp as [-> | (ce & l & -> & _)]; [|by destruct (Hno ce), Hat].
  exists o0, n. destruct Hat. by constructor; rewrite ?Hn, ?Ht.
Qed.

(** [Verified] comes only from a semantic proof over verified RRsets. *)
Lemma denial_with_rrsig_verified t kind e keys zone raw prove proof s :
  NSECProof.Verified proof = false ->
  wp (denial_with_rrsig t kind e keys zone raw prove proof)
    (fun p s' => NSECProof.Verified p = true -> exists msg verified basic,
      Unpack raw = Ok msg /\ verified <> [] /\
      Forall (denial_rrset msg t keys zone (VState.readings s) (VState.readings s')) verified /\
      prove verified = Ok basic /\ p = (adopt proof basic) <| NSECProof.Verified := true |>) (fun _ _ => False) s.
Proof.
  intros Hp. unfold denial_with_rrsig. apply wp_bind. unfold catch, wp at 1.
  pose proof (verifyDenialRRsetsFromResponseB_sound raw t keys zone s) as Hv. unfold wp in Hv.
  destruct (verifyDenialRRsetsFromResponseB raw t keys zone s) as [[[verified rejected]|err] s1]; [|unfold wp, ret; cbn -[Sprintf]; by rewrite Hp].
  destruct Hv as (Hne & msg & Hu & Hall). destruct (prove verified) as [basic|err] eqn:Ep; [|unfold wp, ret; cbn -[Sprintf]; by rewrite Hp].
  intros _. by exists msg, verified, basic.
Qed.

Lemma wanted_signer zone sig : zone <> "" -> CanonicalName zone <> "" ->
  wanted zone (CanonicalName (RRSIG.SignerName sig)) -> CanonicalName (RRSIG.SignerName sig) = CanonicalName zone.
Proof. unfold wanted. naive_solver. Qed.

(** The records the semantic proof reads. *)
Lemma verified_nsec_record msg keys zone n m vs r :
  Forall (denial_rrset msg TypeNSEC keys zone n m) vs -> zone <> "" -> CanonicalName zone <> "" ->
  r ∈ nsecRecordsFromVerified vs ->
  exists sig k records v, key_verifies keys sig records k /\ CanonicalName (RRSIG.SignerName sig) = CanonicalName zone /\
    RR_NSEC v ∈ records /\ r = NSECFromRR v SectionAuthority.
Proof.
  intros Hall Hz Hcz Hr. apply list_elem_of_In, in_concat in Hr as (l & Hl & Hr).
  apply in_map_iff in Hl as (vr & <- & Hvr). apply list_elem_of_In in Hr, Hvr.
  apply list_elem_of_omap in Hr as (rr & Hrr & Heq). destruct rr; try done. injection Heq as <-.
  destruct (proj1 (Forall_forall _ _) Hall _ Hvr) as [[] _]. do 4 eexists. split; [done|]. split; [by apply wanted_signer|]. done.
Qed.

Lemma verified_nsec3_record msg keys zone n m vs r :
  Forall (denial_rrset msg TypeNSEC3 keys zone n m) vs -> zone <> "" -> CanonicalName zone <> "" ->
  r ∈ nsec3RecordsFromVerified vs ->
  exists sig k records v, key_verifies keys sig records k /\ CanonicalName (RRSIG.SignerName sig) = CanonicalName zone /\
    RR_NSEC3 v ∈ records /\ r = NSEC3FromRR v SectionAuthority.
Proof.
  intros Hall Hz Hcz Hr. apply list_elem_of_In, in_concat in Hr as (l & Hl & Hr).
  apply in_map_iff in Hl as (vr & <- & Hvr). apply list_elem_of_In in Hr, Hvr.
  apply list_elem_of_omap in Hr as (rr & Hrr & Heq). destruct rr; try done. injection Heq as <-.
  destruct (proj1 (Forall_forall _ _) Hall _ Hvr) as [[] _]. do 4 eexists. split; [done|]. split; [by apply wanted_signer|]. done.
Qed.

(** Verified RRsets of a typed message give the proof something to read. *)
Lemma verified_nonempty msg raw t keys zone n m vs :
  typed_message raw -> Unpack raw = Ok msg -> Forall (denial_rrset msg t keys zone n m) vs -> vs <> [] ->
  (t = TypeNSEC -> nsecRecordsFromVerified vs <> []) /\ (t = TypeNSEC3 -> nsec3RecordsFromVerified vs <> []).
Proof.
  intros Hty Hu Hall Hne. destruct vs as [|v vs]; [done|]. apply Forall_cons in Hall as ([Hv _] & _).
  destruct (VerifiedRRset.Records v) as [|rr rrs] eqn:Er; [by destruct (vr_nonempty _ _ _ _ _ _ _ _ Hv)|].
  assert (rr ∈ rrsetByOwner t (Msg.Answer msg ++ Msg.Ns msg) (VerifiedRRset.Owner v)) as (_ & Hin & Ht)%rrsetByOwner_not_rrsig.
  { rewrite <- (vr_records _ _ _ _ _ _ _ _ Hv), Er. by left. }
  destruct (Hty msg rr Hu Hin) as [Hn1 Hn2].
  split; intros ->; [destruct (Hn1 Ht) as (x & ->) | destruct (Hn2 Ht) as (x & ->)];
    cbn; rewrite Er; done.
Qed.
Lemma adopted_fields p b :
  NSECProof.OptOut ((adopt p (Some b)) <| NSECProof.Verified := true |>) = NSECProof.OptOut b /\
  NSECProof.ClosestEncloser ((adopt p (Some b)) <| NSECProof.Verified := true |>) = NSECProof.ClosestEncloser b.
Proof. unfold adopt. by destruct (NSECProof.Ignored b). Qed.

(** Both engines answer something on a record. *)
Lemma VerifyNSECDenial_some qname qtype recs rcode : recs <> [] -> VerifyNSECDenial qname qtype recs rcode <> Ok None.
Proof.
  intros Hne. unfold VerifyNSECDenial. destruct recs; [done|].
  destruct (rcode =? 3)%Z; [by destruct (verifyNSECNXDOMAIN _ _) | by destruct (verifyNSECNODATA _ _ _)].
Qed.
Lemma VerifyNSEC3Denial_some qname qtype recs zone rcode : recs <> [] -> VerifyNSEC3Denial qname qtype recs zone rcode <> Ok None.
Proof.
  intros Hne. unfold VerifyNSEC3Denial. destruct recs as [|r recs]; [done|].
  destruct (nsec3IterationsOverCap _); [done|]. destruct (nsec3Chains _) as [[? ?] [?|]]; [done|]. by destruct (try_chains _ _ _ _ _).
Qed.

(** C23: A denial that verifyNSECDenialWithRRSIGB reports as
    verified, from the bytes of the response, is true of a zone without wildcards
    that the keys vouch for: where not even an empty non-terminal is a wildcard,
    NXDOMAIN has its full meaning. *)
Theorem signed_nsec_denial_sound z q qname qtype recs keys zone raw rcode proof s s' :
  zone_ok z -> plain_name q -> apex z `suffix_of` q -> canonicalizeName qname = fqdn q ->
  zone <> "" -> CanonicalName zone <> "" -> typed_message raw ->
  zone_signs_nsec z keys zone -> no_wildcard z ->
  verifyNSECDenialWithRRSIGB qname qtype recs keys zone raw rcode s = (Ok proof, s') ->
  NSECProof.Verified proof = true -> denial_truth z q qtype rcode proof.
Proof.
  intros Hz Hq Hqa Hqn Hzone Hcz Hty Hsigns Hno Hrun Hv. unfold verifyNSECDenialWithRRSIGB in Hrun.
  destruct recs as [|r recs]; [injection Hrun as <- _; done|].
  destruct (qnameWithinZoneErr qname zone) as [u|err]; [|injection Hrun as <- _; done].
  eapply wp_ok in Hrun; [|by apply denial_with_rrsig_verified].
  destruct (Hrun Hv) as (msg & vs & basic & Hu & Hne & Hall & Hp & ->). clear Hrun Hv.
  assert (Hauth : Forall (authentic z) (nsecRecordsFromVerified vs)).
  { apply Forall_forall. intros r' Hr'. apply (verified_nsec_record _ _ _ _ _ _ _ Hall Hzone Hcz) in Hr'
      as (sig & k & records & v & Hk & Hs & Hin & ->).
    destruct (Hsigns sig k records v Hk Hs Hin) as (r0 & Ha & He). by eapply expansion_authentic. }
  destruct (verified_nonempty _ _ _ _ _ _ _ _ Hty Hu Hall Hne) as [Hrecs _]. specialize (Hrecs eq_refl).
  destruct basic as [b|]; [|by apply VerifyNSECDenial_some in Hp].
  pose proof (VerifyNSECDenial_truth z q qname qtype _ rcode b Hz Hq Hqa Hqn Hauth Hp) as (Hc & Ht).
  split; [done|]. destruct (rcode =? 3)%Z; [|done]. split; [apply Ht|]. split; [apply Ht|].
  intros ce ? ?. rewrite (proj2 (adopted_fields _ _)). by apply Ht.
Qed.

(** C24: An NSEC3 denial that verifyNSEC3DenialWithRRSIGB reports as verified, from the
    bytes of the response, is true of the zone that published the records; wildcards
    may exist, as no wildcard can stand for the hashed owner of a record. *)
Theorem signed_nsec3_denial_sound z published q qname qtype recs keys zone raw rcode proof s s' :
  zone_ok z -> plain_name q -> canonicalizeName qname = fqdn q ->
  zone <> "" -> CanonicalName zone <> "" -> typed_message raw ->
  zone_signs_nsec3 published keys zone -> Forall (authentic3 z) published -> no_collisions z q published ->
  verifyNSEC3DenialWithRRSIGB qname qtype recs keys zone raw rcode s = (Ok proof, s') ->
  NSECProof.Verified proof = true -> denial_truth3 z q qtype rcode proof.
Proof.
  intros Hz Hq Hqn Hzone Hcz Hty Hsigns Hpub Hfree Hrun Hv. unfold verifyNSEC3DenialWithRRSIGB in Hrun.
  destruct recs as [|r recs]; [injection Hrun as <- _; done|].
  destruct (nsec3IterationsOverCap (r :: recs)); [injection Hrun as <- _; done|].
  destruct (qnameWithinZoneErr qname zone) as [u|err]; [|injection Hrun as <- _; done].
  eapply wp_ok in Hrun; [|by apply denial_with_rrsig_verified].
  destruct (Hrun Hv) as (msg & vs & basic & Hu & Hne & Hall & Hp & ->). clear Hrun Hv.
  assert (Hin : forall r', r' ∈ nsec3RecordsFromVerified vs -> r' ∈ published).
  { intros r' Hr'. apply (verified_nsec3_record _ _ _ _ _ _ _ Hall Hzone Hcz) in Hr'
      as (sig & k & records & v & Hk & Hs & Hin & ->). by eapply Hsigns. }
  assert (Hauth : Forall (authentic3 z) (nsec3RecordsFromVerified vs)).
  { apply Forall_forall. intros r' Hr'. apply (proj1 (Forall_forall _ _) Hpub). auto. }
  destruct (verified_nonempty _ _ _ _ _ _ _ _ Hty Hu Hall Hne) as [_ Hrecs]. specialize (Hrecs eq_refl).
  destruct basic as [b|]; [|by apply VerifyNSEC3Denial_some in Hp].
  pose proof (VerifyNSEC3Denial_truth z q qname qtype _ zone rcode b Hz Hq Hqn Hauth ltac:(intros r' salt ?; apply Hfree; auto) Hp) as Ht.
  unfold denial_truth3. rewrite (proj1 (adopted_fields _ _)). exact Ht.
Qed.
End signed.

(** ** The published chain of a zone satisfies the hypothesis *)

Section published.
Context (z : zone_data) (l : list name) (Hz : zone_ok z) (Hl : forall x, x ∈ l <-> owns z x).
Context (Hs : StronglySorted (fun x y => name_compare x y = Lt) l) (Ht : types_translate z l = true) (msg : Msg.t).

Lemma published_signs keys zone : zone_signs_nsec (H2 := sample_env msg (published_nsec z l)) z keys zone.
Proof.
  intros sig k records n Hk _ Hin. destruct Hk as [_ _ _ _ _ Hv].
  apply (sample_verify_published _ _ _ _ (RR_NSEC n)) in Hv as (Hw & rrs & Hrrs & Hsrc); [|done].
  apply list_elem_of_fmap in Hrrs as (link & -> & Hlink). apply list_elem_of_singleton in Hsrc.
  assert (link.1 ∈ l) as Hfirst by (destruct link; by eapply ring_first).
  exists (chain_record z link). split.
  - apply (proj1 (Forall_forall _ _) (complete_auth _ _ (nsec_chain_complete z l Hz Hs Hl))). by apply list_elem_of_fmap_2.
  - symmetry in Hsrc. rewrite <- (chain_rr_record z l link _ Ht Hfirst Hsrc). split; [done|]. split; [done|].
    destruct (source_owner_name (RRSIG.Labels sig) _ Hw) as (o & o0 & Ho & Ho0 & Hp & Hexp).
    exists o, o0. split; [exact Ho|]. split; [|done].
    change (canonicalizeName (source_owner (RRSIG.Labels sig) (rr_name (RR_NSEC n))) = fqdn o0).
    rewrite Ho0. by apply canonicalizeName_fqdn.
Qed.
End published.

(** ** A zone without wildcards *)

Definition flat_nodes : list (name * list string) := [
  (["example"], ["NS"; "SOA"; "RRSIG"; "NSEC"; "DNSKEY"]);
  (["host"; "example"], ["A"; "RRSIG"; "NSEC"]);
  (["www"; "example"], ["A"; "RRSIG"; "NSEC"])].
Definition flat_zone : zone_data := zone_of ["example"] flat_nodes.
Definition flat_msg : Msg.t := Msg.mk 3 true [] (signed_chain "example." flat_zone (flat_nodes.*1)) [].
Definition flat_env : ValidatorEnv := sample_env flat_msg (published_nsec flat_zone (flat_nodes.*1)).

Lemma flat_owns n : owns flat_zone n <-> n ∈ flat_nodes.*1.
Proof. apply zone_of_owns. apply (bool_decide_unpack _). vm_compute. exact I. Qed.

Lemma flat_no_wildcard : no_wildcard flat_zone.
Proof. intros ce Ho%flat_owns. cbn in Ho. rewrite !elem_of_cons, elem_of_nil in Ho. naive_solver. Qed.

Lemma flat_no_empty_wildcard : no_empty_wildcard flat_zone.
Proof. apply (wildcards_owned_ok _ (flat_nodes.*1)); [apply flat_owns | vm_compute; reflexivity]. Qed.

(** Typed messages, decided. *)
Definition typed_rr (rr : RR) : bool :=
  match rr with
  | RR_NSEC _ => negb (rr_type rr =? TypeNSEC3)%Z
  | RR_NSEC3 _ => negb (rr_type rr =? TypeNSEC)%Z
  | _ => negb (rr_type rr =? TypeNSEC)%Z && negb (rr_type rr =? TypeNSEC3)%Z
  end.
Lemma sample_typed msg published raw :
  forallb typed_rr (Msg.Answer msg ++ Msg.Ns msg) = true -> typed_message (H2 := sample_env msg published) raw.
Proof.
  intros Hall msg' rr Hu Hin. assert (msg' = msg) as ->.
  { cbn in Hu. repeat (case_match; try done). by injection Hu as ->. }
  rewrite forallb_forall in Hall. apply list_elem_of_In in Hin. specialize (Hall _ Hin).
  split; intros Hx; apply Z.eqb_eq in Hx; unfold typed_rr in Hall; destruct rr; eauto; rewrite Hx in Hall; by rewrite ?andb_false_r in Hall.
Qed.

Definition verified_denial (r : res string NSECProof.t * VState.t) : bool :=
  match r.1 with Ok p => NSECProof.Verified p | Err _ => false end.
Lemma verified_denial_ok r : verified_denial r = true -> exists p, r = (Ok p, r.2) /\ NSECProof.Verified p = true.
Proof. destruct r as [[p|] s]; cbn; [eauto | done]. Qed.

(** The query as the validator makes it: the parsed records only open the door. *)
Definition flat_run : res string NSECProof.t * VState.t :=
  verifyNSECDenialWithRRSIGB (H1 := flat_env) "nope.example" 1 (nsec_chain flat_zone (flat_nodes.*1))
    [sample_key "example."] "example." [1%Z] 3 sample_start.

Lemma signed_nsec_denial_sound_witness :
  verified_denial flat_run = true /\ nxdomain_truth flat_zone ["nope"; "example"].
Proof.
  assert (verified_denial flat_run = true) as Hv by (vm_compute; reflexivity).
  split; [exact Hv|]. destruct (verified_denial_ok _ Hv) as (p & Hrun & Hp).
  assert (denial_truth flat_zone ["nope"; "example"] 1 3 p) as (_ & _ & Ht & _); [|exact (Ht flat_no_empty_wildcard)].
  refine (signed_nsec_denial_sound (H2 := flat_env) flat_zone ["nope"; "example"] "nope.example" 1 _ _ "example." [1%Z] 3 p
    sample_start _ _ _ _ _ _ _ _ _ _ Hrun Hp).
  - apply zone_check_ok. vm_compute. reflexivity.
  - apply plain_nameb_ok. reflexivity.
  - by exists ["nope"].
  - reflexivity.
  - done.
  - done.
  - apply sample_typed. vm_compute. reflexivity.
  - apply published_signs; [apply zone_check_ok; vm_compute; reflexivity | intros x; by rewrite flat_owns | |vm_compute; reflexivity].
    apply sortedb_ok. vm_compute. reflexivity.
  - apply flat_no_wildcard.
Defined.

(** ** A replayed wildcard NSEC

    Owner names and Labels of the signature are not compared for denial records, so
    the NSEC of "*.example", presented at "v.example" where its signature verifies
    as that of an expansion, denies "www.example", which exists. *)

Definition star_nodes : list (name * list string) := [
  (["example"], ["NS"; "SOA"; "RRSIG"; "NSEC"; "DNSKEY"]);
  (["*"; "example"], ["A"; "RRSIG"; "NSEC"]);
  (["host"; "example"], ["A"; "RRSIG"; "NSEC"]);
  (["www"; "example"], ["A"; "RRSIG"; "NSEC"])].
Definition star_zone : zone_data := zone_of ["example"] star_nodes.
Definition replayed : list RR := [
  sample_nsec "v.example." "host.example." [1; 46; 47]%Z; RR_RRSIG (sample_sig "example." "v.example." TypeNSEC 1)].
Definition star_env : ValidatorEnv := sample_env (Msg.mk 3 true [] replayed []) (published_nsec star_zone (star_nodes.*1)).

Theorem replayed_wildcard_nsec_denies_existing_name :
  zone_ok star_zone /\ zone_signs_nsec (H2 := star_env) star_zone [sample_key "example."] "example." /\
  "A" ∈ types_at star_zone ["www"; "example"] /\
  verified_denial (verifyNSECDenialWithRRSIGB (H1 := star_env) "www.example" 1
    [NSECRecord.mk "v.example." 1 "authority" "host.example." ["A"; "RRSIG"; "NSEC"]]
    [sample_key "example."] "example." [1%Z] 3 sample_start) = true.
Proof.
  assert (zone_ok star_zone) as Hz by (apply zone_check_ok; vm_compute; reflexivity).
  split; [done|]. split; [|split; [|vm_compute; reflexivity]].
  - apply published_signs; [done | | |vm_compute; reflexivity].
    + intros x. symmetry. apply zone_of_owns. apply (bool_decide_unpack _). vm_compute. exact I.
    + apply sortedb_ok. vm_compute. reflexivity.
  - apply (bool_decide_unpack _). vm_compute. exact I.
Qed.

(** ** The NSEC3 chain of the sample zone *)

Definition nsec3_rr (link : name * name) : RR :=
  RR_NSEC3 (NSEC3.mk (Hdr.mk (ToLower (sample_hash link.1) +:+ ".example.") TypeNSEC3 1 3600) 1 0 1 "aabb" (sample_hash link.2)
    (map type_code (types_at sample_zone link.1))).
Definition signed_chain3 : list RR :=
  concat (map (fun link => [nsec3_rr link; RR_RRSIG (sample_sig "example." (ToLower (sample_hash link.1) +:+ ".example.") TypeNSEC3 2)])
    (ring hash_order)).
Definition hashed_env : ValidatorEnv :=
  sample_env (Msg.mk 3 true [] signed_chain3 []) (map (fun link => [nsec3_rr link]) (ring hash_order)).

Definition record3_of (rr : RR) : option NSEC3Record.t :=
  match rr with RR_NSEC3 n => Some (NSEC3FromRR n SectionAuthority) | _ => None end.
Lemma hashed_records : map record3_of (map nsec3_rr (ring hash_order)) = map Some sample_chain3.
Proof. vm_compute. reflexivity. Qed.

(** No published owner begins with a wildcard label, so none is an expansion. *)
Lemma hashed_owners : forallb (fun link => negb (HasPrefix (rr_name (nsec3_rr link)) "*")) (ring hash_order) = true.
Proof. vm_compute. reflexivity. Qed.

Lemma star_prefix ls : HasPrefix (fqdn ("*" :: ls)) "*" = true.
Proof. by destruct ls. Qed.

Lemma hashed_signs keys zone : zone_signs_nsec3 (H2 := hashed_env) sample_chain3 keys zone.
Proof.
  intros sig k records n Hk _ Hin. destruct Hk as [_ _ _ _ _ Hv].
  apply (sample_verify_published _ _ _ _ (RR_NSEC3 n)) in Hv as (_ & rrs & Hrrs & Hsrc); [|done].
  apply list_elem_of_fmap in Hrrs as (link & -> & Hlink). apply list_elem_of_singleton in Hsrc.
  assert (RR_NSEC3 n = nsec3_rr link) as Hn.
  { pose proof hashed_owners as Ho. rewrite forallb_forall in Ho. apply list_elem_of_In in Hlink. specialize (Ho _ Hlink).
    rewrite <- Hsrc in Ho |- *. destruct n as [[o t c ttl] h f i sa nx ty]. 
    change (negb (HasPrefix (source_owner (RRSIG.Labels sig) o) "*") = true) in Ho.
    change (RR_NSEC3 (NSEC3.mk (Hdr.mk o t c ttl) h f i sa nx ty) =
      RR_NSEC3 (NSEC3.mk (Hdr.mk (source_owner (RRSIG.Labels sig) o) t c ttl) h f i sa nx ty)).
    unfold source_owner in *. destruct (_ && _)%bool; [by rewrite star_prefix in Ho | done]. }
  assert (Some (NSEC3FromRR n SectionAuthority) ∈ map Some sample_chain3) as Hm.
  { rewrite <- hashed_records. apply list_elem_of_fmap. exists (nsec3_rr link). split; [by rewrite <- Hn|]. by apply list_elem_of_fmap_2. }
  apply list_elem_of_fmap in Hm as (r & [= ->] & Hr). exact Hr.
Qed.

Definition plain_denial (r : res string NSECProof.t * VState.t) : bool :=
  match r.1 with Ok p => NSECProof.Verified p && negb (NSECProof.OptOut p) | Err _ => false end.
Lemma plain_denial_ok r : plain_denial r = true -> exists p s', r = (Ok p, s') /\ NSECProof.Verified p = true /\ NSECProof.OptOut p = false.
Proof. destruct r as [[p|] s]; cbn; [|done]. intros [? ?%negb_true_iff]%andb_true_iff. eauto. Qed.

Lemma hashed_verified : exists p s',
  verifyNSEC3DenialWithRRSIGB (H1 := hashed_env) "nope.example" 1 sample_chain3 [sample_key "example."] "example." [1%Z] 3 sample_start
    = (Ok p, s') /\ NSECProof.Verified p = true /\ NSECProof.OptOut p = false.
Proof. apply plain_denial_ok. vm_compute. reflexivity. Qed.
Lemma hashed_typed raw : typed_message (H2 := hashed_env) raw.
Proof. apply sample_typed. vm_compute. reflexivity. Qed.
Lemma hashed_collisions : no_collisions sample_zone absent_name sample_chain3.
Proof. apply collisions_checked. vm_compute. reflexivity. Qed.
Lemma absent_plain : plain_name absent_name /\ canonicalizeName "nope.example" = fqdn absent_name.
Proof. split; [apply plain_nameb_ok|]; reflexivity. Qed.
Lemma plain_truth3 z q p : NSECProof.OptOut p = false -> denial_truth3 z q 1 3 p -> nxdomain_truth3 z q.
Proof. unfold denial_truth3. intros ->. by intros []. Qed.

Lemma signed_nsec3_denial_sound_witness : nxdomain_truth3 sample_zone absent_name.
Proof.
  destruct hashed_verified as (p & s' & Hrun & Hp & Ho). apply (plain_truth3 _ _ p Ho).
  exact (signed_nsec3_denial_sound (H2 := hashed_env) sample_zone sample_chain3 absent_name "nope.example" 1 sample_chain3
    [sample_key "example."] "example." [1%Z] 3 p sample_start s' sample_zone_ok (proj1 absent_plain) (proj2 absent_plain)
    ltac:(discriminate) ltac:(discriminate) (hashed_typed _) (hashed_signs _ _) sample_chain3_authentic hashed_collisions Hrun Hp).
Defined.
