(* ===== verification/WalkTheorems.v ===== *)
(** * WalkTheorems: the properties of signature verification and of the whole walk *)


From stdpp Require Import base list strings gmap pretty.
From Stdlib Require Import ZArith Lia.
From S2P Require Import Prelude GoTime Names PlainNames SampleZone Nsec Nsec3 Wire Authenticated Anchors Chain Resolver Results Rdap ParentDS ZoneAuth Leaf Walk AuthenticatedSound ChainSound ZoneSound LeafSound WalkSound WalkBounds SampleWorld.
Local Open Scope Z_scope.

Section theorems.
Context `{DnsLib} `{WireLib} `{ValidatorEnv}.

(** C17: A VerifiedRRset is what one signature of the scanned sections verifies: the
    RRset of its owner, whole, with the signature at the owner and by the signer that
    the caller expects, where it names them, within its validity period at a reading of
    the clock made meanwhile, under an eligible trusted key of the signer with its tag
    and algorithm. *)
Theorem verified_rrset_sound raw typeCovered keys expectedOwner expectedSigner answerOnly s v s' :
  verifyRRsetFromResponseB raw typeCovered keys expectedOwner expectedSigner answerOnly s = (Ok v, s') ->
  exists msg, Unpack raw = Ok msg /\
    verified_rrset (scanned answerOnly msg) typeCovered keys expectedOwner expectedSigner
      (VState.readings s) (VState.readings s') v.
Proof. intros Hrun. eapply wp_ok in Hrun; [exact Hrun | apply verifyRRsetFromResponseB_sound]. Qed.
End theorems.

(** ** An answer *)

Definition sample_a (owner : string) : RR := RR_Other (Hdr.mk owner TypeA 1 3600) "192.0.2.1".
Definition answer_sig : RRSIG.t := sample_sig "example." "www.example." TypeA 2.
Definition answer_env (answer : list RR) : ValidatorEnv := sample_env (Msg.mk 0 true answer [] []) [[sample_a "www.example."]].

Definition answer_run (answer : list RR) : res string VerifiedRRset.t * VState.t :=
  verifyRRsetFromResponseB (H1 := answer_env answer) [1] TypeA [sample_key "example."] "www.example" "example." true sample_start.

Lemma answer_verified : exists v s', answer_run [sample_a "www.example."; RR_RRSIG answer_sig] = (Ok v, s').
Proof. eexists _, _. vm_compute. reflexivity. Qed.

Lemma verified_rrset_sound_witness :
  exists v, fst (answer_run [sample_a "www.example."; RR_RRSIG answer_sig]) = Ok v /\
    VerifiedRRset.Records v = [sample_a "www.example."].
Proof.
  destruct answer_verified as (v & s' & Hrun). exists v. split; [by rewrite Hrun|].
  destruct (verified_rrset_sound (H1 := answer_env _) [1] TypeA [sample_key "example."] "www.example" "example." true sample_start v s' Hrun) as (msg & Hu & Hv).
  injection Hu as <-. rewrite (vr_records _ _ _ _ _ _ _ _ Hv).
  destruct (vr_want_owner _ _ _ _ _ _ _ _ Hv) as [Hw|[Hw|Hw]]; [discriminate Hw | vm_compute in Hw; discriminate Hw | rewrite Hw; reflexivity].
Defined.

(** ** A signature hidden by its copy

    Signatures are collapsed by owner, signer, key tag, labels, validity and
    signature text.  A copy with another algorithm number, placed first, takes the
    place of the genuine one and cannot verify. *)
Definition relabelled : RRSIG.t :=
  RRSIG.mk (RRSIG.Hdr answer_sig) TypeA 8 2 3600 2000000 500000 3 "example." (RRSIG.Signature answer_sig).

(** [copy_hides_signature] An RRset with a verifying signature in the answer is
    refused when a copy of that signature with another algorithm number precedes
    it, and accepted when the copy follows. *)
Theorem copy_hides_signature :
  is_ok (answer_run [sample_a "www.example."; RR_RRSIG answer_sig; RR_RRSIG relabelled]).1 = true /\
  is_ok (answer_run [sample_a "www.example."; RR_RRSIG relabelled; RR_RRSIG answer_sig]).1 = false.
Proof. by vm_compute. Qed.

(** ** The properties of a validation *)

Section theorems.
Context `{DnsLib} `{WireLib} `{ValidatorEnv} `{Network} `{ChainLib} `{RdapEnv} `{LeafLib} (v : Validator.t).

(** C1: A secure verdict stands for an authenticated
    answer: whatever servers and resolver sent, the answer (the queried RRset, a
    CNAME or DNAME with its target in turn, or a denial without opt-out) verified
    under the keys of a zone enclosing the name, and those keys are chained link by
    link, DS and DNSKEY RRsets verified, to an active anchor that is pinned in the
    binary; so is every zone of the reported chain. *)
Theorem secure_means_authenticated `{!WireLaws} domain s r err s' :
  Validate v domain s = (Ok (r, err), s') -> ValidationResult.Result r = StatusSecure ->
  authenticated_answer v domain /\ secure_chain v (ValidationResult.Chain r).
Proof. intros Hrun Hs. apply Validate_ok in Hrun as (_ & _ & Hok). by apply Hok. Qed.

(** A validation never reports a pending status, and a
    validation that ends in an error (no anchors, or the context over) is
    indeterminate. *)
Theorem outcome_is_a_verdict `{!WireLaws} domain s r err s' :
  Validate v domain s = (Ok (r, err), s') ->
  ValidationResult.Result r <> StatusValidating /\ (err <> None -> ValidationResult.Result r = StatusIndeterminate).
Proof. intros Hrun. apply Validate_ok in Hrun as (Hv & He & _). done. Qed.

(** C28: Whatever the servers answer and however aliases point at
    one another, a validation returns a result: the recursion through aliases ends
    within [maxCNAMEDepth] validations. *)
Theorem validation_terminates domain s : exists o s', Validate v domain s = (Ok o, s').
Proof.
  unfold Validate. destruct (total_validateWithCache v maxCNAMEDepth domain 0 ltac:(lia) ltac:(unfold maxCNAMEDepth; lia) (WState.mk s ∅ ∅))
    as (o & w & ->). by eexists _, _.
Qed.

(** C29: A validation with all the aliases it follows makes
    at most the configured number of signature verifications, whatever the
    responses hold. *)
Theorem validation_work_is_bounded domain s : VState.verifications s = 0%nat ->
  Z.of_nat (VState.verifications (Validate v domain s).2) <= work_limit v.
Proof. apply validate_bound. Qed.
End theorems.

(** ** The sample world *)

Definition world_run (domain : string) : res string outcome * VState.t := Validate world_validator domain world_start.

Lemma alias_secure : exists r err s', world_run "alias.example" = (Ok (r, err), s') /\ ValidationResult.Result r = StatusSecure /\
  map ZoneResult.Zone (ValidationResult.Chain r) = ["."; "example."].
Proof. eexists _, _, _. split; [vm_compute; reflexivity | split; reflexivity]. Qed.

Lemma secure_means_authenticated_witness :
  exists r err s', world_run "alias.example" = (Ok (r, err), s') /\ authenticated_answer world_validator "alias.example".
Proof.
  destruct alias_secure as (r & err & s' & Hrun & Hs & _). exists r, err, s'. split; [exact Hrun|].
  exact (proj1 (secure_means_authenticated world_validator "alias.example" world_start r err s' Hrun Hs)).
Defined.

Lemma outcome_is_a_verdict_witness :
  exists r err s', world_run "alias.example" = (Ok (r, err), s') /\ ValidationResult.Result r <> StatusValidating.
Proof.
  destruct alias_secure as (r & err & s' & Hrun & _). exists r, err, s'. split; [exact Hrun|].
  exact (proj1 (outcome_is_a_verdict world_validator "alias.example" world_start r err s' Hrun)).
Defined.

Lemma validation_work_is_bounded_witness :
  VState.verifications world_start = 0%nat /\
  Z.of_nat (VState.verifications (Validate world_validator "alias.example" world_start).2) <= 2000.
Proof. split; [reflexivity|]. exact (validation_work_is_bounded world_validator "alias.example" world_start eq_refl). Defined.
