(* ===== verification/ChainTheorems.v ===== *)
(** * ChainTheorems: the properties of chain links, anchors and the resolver's bounds *)

From stdpp Require Import base list strings gmap pretty.
From Stdlib Require Import ZArith Lia.
From S2P Require Import Prelude GoTime Names PlainNames SampleZone Digests Nsec Nsec3 Wire Authenticated Anchors Chain Resolver Results Rdap ParentDS ZoneAuth AuthenticatedSound ChainSound SampleWorld.
Local Open Scope Z_scope.

(** ** Which keys a DS RRset and the anchors authenticate *)

Section chain.
Context `{DnsLib} `{WireLib} `{ValidatorEnv} `{ChainLib}.

(** A DS record names a key: tag, algorithm, and the digest of the key at [zone]. *)
Definition ds_names_key (zone : string) (ds : DSRecord.t) (k : DNSKEYRecord.t) : Prop :=
  DNSKEYRecord.KeyTag k = DSRecord.KeyTag ds /\ DNSKEYRecord.Algorithm k = DSRecord.Algorithm ds /\
  exists digest, ComputeDSDigestFromDNSKEY zone k (DSRecord.DigestType ds) = Ok digest /\ EqualFold digest (DSRecord.Digest ds) = true.

Lemma ds_authenticates_spec zone ds k :
  ds_authenticates zone ds k = true <->
  ds_names_key zone ds k /\ keyBelongsToZone k zone = true /\ EligibleForVerification k = true.
Proof.
  unfold ds_authenticates, VerifyDSMatchesDNSKEY, ds_names_key.
  rewrite !andb_true_iff, Z.eqb_eq. split.
  - intros (((Ht & Hz) & He) & Hm). destruct (Z.eqb_spec (DSRecord.KeyTag ds) (DNSKEYRecord.KeyTag k)); [|done].
    destruct (Z.eqb_spec (DSRecord.Algorithm ds) (DNSKEYRecord.Algorithm k)); [|done]. cbn in Hm.
    destruct (ComputeDSDigestFromDNSKEY _ _ _) as [d|] eqn:Hd; [|done]. split_and!; try done. by exists d.
  - intros ((-> & -> & d & -> & ->) & -> & ->). by rewrite !Z.eqb_refl.
Qed.

(** CollectDSMatchedKeys returns exactly the served keys that
    are eligible, belong to the zone, and are named by some DS record by tag,
    algorithm and digest. *)
Theorem ds_matched_keys_exact parentDS keys zone k :
  k ∈ CollectDSMatchedKeys parentDS keys zone <->
  k ∈ keys /\ keyBelongsToZone k zone = true /\ EligibleForVerification k = true /\
  exists ds, ds ∈ parentDS /\ ds_names_key zone ds k.
Proof.
  rewrite CollectDSMatchedKeys_elem. setoid_rewrite ds_authenticates_spec. naive_solver.
Qed.

(** A link is reported exactly when some DS record matches some eligible key. *)
Lemma ValidateChainLink_ok parentDS keys zone link :
  ValidateChainLink parentDS keys zone = (Some link, None) ->
  exists ds k, ds ∈ parentDS /\ k ∈ keys /\ EligibleForVerification k = true /\ VerifyDSMatchesDNSKEY ds k zone = true /\
    ChainLink.KeyTag link = DSRecord.KeyTag ds /\ ChainLink.ChildKSK link = Some k.
Proof.
  unfold ValidateChainLink. destruct parentDS as [|d0 ds0]; [done|].
  assert (Hf : forall l, match first_link l keys zone with
    | Some (ds, k) => ds ∈ l /\ k ∈ keys /\ EligibleForVerification k = true /\ VerifyDSMatchesDNSKEY ds k zone = true
    | None => True end).
  { induction l as [|d l IH]; cbn [first_link]; [done|]. unfold link_key. destruct (List.find _ keys) as [k|] eqn:Hk.
    - apply find_some in Hk as [Hin Hm]. rewrite !andb_true_iff in Hm. destruct Hm as ((_ & He) & Hv).
      split; [by left | split; [by apply list_elem_of_In | done]].
    - destruct (first_link l keys zone) as [[ds k]|]; [|done]. destruct IH as (? & ? & ? & ?). split; [by right | done]. }
  specialize (Hf (d0 :: ds0)). destruct (first_link _ _ _) as [[ds k]|]; [|done]. intros [= <-]. exists ds, k. naive_solver.
Qed.
End chain.

(** The digests pinned in the binary are those of the two
    root keys published in root-anchors.json: at the root each pinned anchor
    authenticates its key, and neither the other. *)
Theorem pinned_keys_authenticate :
  map (fun p => CollectAnchorMatchedKeys [key_record "." root_key_20326 8; key_record "." root_key_38696 8]
         [Anchor.mk "" (pinnedAnchor.KeyTag p) (pinnedAnchor.Algorithm p) "" (pinnedAnchor.DigestType p) "" (pinnedAnchor.Digest p) "" None "" 0])
    pinnedRootAnchors =
  [[key_record "." root_key_20326 8]; [key_record "." root_key_38696 8]].
Proof. vm_compute. reflexivity. Qed.

(** ** Loading the anchors *)

Section anchors.
Context `{DnsLib} `{ValidatorEnv} `{AnchorSources}.

(** An anchor the load keeps: well formed, with readable dates, not expired at a
    reading of the clock. *)
Definition sound_anchor (a : Anchor.t) : Prop :=
  validateAnchorStructure a = Ok tt /\ (exists t, ParseRFC3339 (Anchor.ValidFrom a) = Ok t) /\
  match Anchor.ValidUntil a with
  | None => True
  | Some u => exists t n, ParseRFC3339 u = Ok t /\ After t (now_at n) = true
  end.

(** A usable document: for the root, of sound anchors, no two for one key tag and
    digest type, one of them active and pinned. *)
Record usable_anchors (ra : RootAnchors.t) : Prop := {
  ua_zone : RootAnchors.Zone ra = "" \/ RootAnchors.Zone ra = ".";
  ua_sound : Forall sound_anchor (RootAnchors.Anchors ra);
  ua_distinct : NoDup (map (fun a => (Anchor.KeyTag a, Anchor.DigestType a)) (RootAnchors.Anchors ra));
  ua_pinned : exists a, active_anchor (Some ra) a
}.

Lemma unexpired_sound source n anchors acc l :
  let dated a := (exists t, ParseRFC3339 (Anchor.ValidFrom a) = Ok t) /\
    match Anchor.ValidUntil a with None => True | Some u => exists t m, ParseRFC3339 u = Ok t /\ After t (now_at m) = true end in
  unexpired source (now_at n) anchors acc = Ok l -> Forall dated acc -> Forall dated l.
Proof.
  cbn zeta. revert acc. induction anchors as [|a anchors IH]; intros acc Hu Hacc; [by injection Hu as <-|]. cbn [unexpired] in Hu.
  destruct (ParseRFC3339 (Anchor.ValidFrom a)) as [t|] eqn:Hf; [|done]. destruct (Anchor.ValidUntil a) as [u|] eqn:Hv.
  - destruct (ParseRFC3339 u) as [t'|] eqn:Hp; [|done]. apply IH in Hu; [done|]. destruct (After t' (now_at n)) eqn:Ha; [|done].
    apply Forall_app. split; [done|]. constructor; [|done]. split; [by exists t|]. rewrite Hv. by exists t', n.
  - apply IH in Hu; [done|]. apply Forall_app. split; [done|]. constructor; [|done]. split; [by exists t | by rewrite Hv].
Qed.

Lemma check_structure_sound source seen anchors :
  check_structure source seen anchors = Ok tt ->
  Forall (fun a => validateAnchorStructure a = Ok tt) anchors /\
  NoDup (map (fun a => (Anchor.KeyTag a, Anchor.DigestType a)) anchors) /\
  Forall (fun a => (Anchor.KeyTag a, Anchor.DigestType a) ∉ seen) anchors.
Proof.
  revert seen. induction anchors as [|a anchors IH]; intros seen Hc; cbn [check_structure] in Hc; [by split_and!; constructor|].
  destruct (validateAnchorStructure a) as [[]|] eqn:Ha; [|done]. case_bool_decide as Hin; [done|].
  destruct (IH _ Hc) as (Hs & Hd & Hf). split_and!; cbn.
  - by constructor.
  - constructor; [|done]. intros (b & Hb & Hbin)%list_elem_of_fmap. rewrite Forall_forall in Hf. apply (Hf b Hbin). rewrite <-Hb. by left.
  - constructor; [done|]. eapply Forall_impl; [done|]. intros b Hb Hs'. apply Hb. by right.
Qed.

Lemma finalizeAnchors_usable doc source :
  ensures (finalizeAnchors doc source) (fun ra => usable_anchors ra /\ RootAnchors.LoadedFrom ra = source).
Proof.
  unfold finalizeAnchors. destruct (negb _ && negb _) eqn:Hz; [apply ensures_fail|].
  eapply (ensures_bind _ _ (fun now => exists n, now = now_at n)).
  { intros s. unfold wp, Now, bind, reading, ret. by eexists. }
  intros now [n ->]. eapply ensures_bind; [by apply ensures_lift_res; intros a Ha; exact Ha|]. intros valid Hvalid.
  eapply ensures_bind; [by apply ensures_lift_res; intros a Ha; exact Ha|]. intros [] Hstruct. cbn in Hvalid, Hstruct.
  destruct (negb (Nat.eqb (length valid) 0) && _); [apply ensures_fail|].
  eapply (ensures_bind _ _ (fun l => forall a, a ∈ l -> a ∈ valid /\ (exists n, anchor_active (now_at n) a = true) /\ IsPinnedRootAnchor a = true)).
  { intros s. unfold GetActivePinnedAnchors, GetActiveAnchors, wp, bind. cbn -[anchor_active IsPinnedRootAnchor List.filter].
    intros a [[Ha Hact]%elem_of_Filter Hp]%elem_of_Filter. split; [done | split; [by eexists | done]]. }
  intros [|a l] Husable; [by destruct valid; apply ensures_fail|]. apply ensures_ret. split; [|done].
  apply unexpired_sound in Hvalid; [|by constructor]. apply check_structure_sound in Hstruct as (Hs & Hd & _).
  constructor; cbn -[anchor_active IsPinnedRootAnchor].
  - apply andb_false_iff in Hz as [Hz%negb_false_iff|Hz%negb_false_iff]; [left | right]; by apply String.eqb_eq.
  - rewrite Forall_forall in Hs, Hvalid |- *. intros b Hb. split; [by apply Hs | by apply Hvalid].
  - done.
  - destruct (Husable a ltac:(by left)) as (Ha & Hact & Hp). exists a. split; [|done]. eexists. split; [done|]. done.
Qed.

Lemma ParseAnchors_usable data source :
  ensures (ParseAnchors data source) (fun ra => usable_anchors ra /\ RootAnchors.LoadedFrom ra = source).
Proof. unfold ParseAnchors. destruct (Unmarshal data); [apply finalizeAnchors_usable | apply ensures_fail]. Qed.

Lemma LoadAnchors_usable path : ensures (LoadAnchors path) (fun ra => usable_anchors ra /\ RootAnchors.LoadedFrom ra = path).
Proof. unfold LoadAnchors. destruct (ReadFile path); [apply ParseAnchors_usable | apply ensures_fail]. Qed.

(** C35: Whatever the file, the cache and the URL hold, the
    anchors LoadAnchorsWithCache returns are a usable document: sound, unexpired,
    distinct, with an anchor that is active and pinned in the binary; they come
    from one of the four sources, and bytes to persist accompany only a download. *)
Theorem loaded_anchors_are_usable path cachePath url s ra data s' :
  LoadAnchorsWithCache path cachePath url s = (Ok (ra, data), s') ->
  usable_anchors ra /\ RootAnchors.LoadedFrom ra ∈ [path; cachePath; EmbeddedAnchorsSource; url] /\
  (data <> None -> RootAnchors.LoadedFrom ra = url).
Proof.
  intros Hrun. revert s ra data s' Hrun.
  enough (ensures (LoadAnchorsWithCache path cachePath url) (fun r => usable_anchors r.1 /\
    RootAnchors.LoadedFrom r.1 ∈ [path; cachePath; EmbeddedAnchorsSource; url] /\ (r.2 <> None -> RootAnchors.LoadedFrom r.1 = url))) as He.
  { intros s ra data s' Hrun. exact (ensures_run _ _ _ _ _ He Hrun). }
  unfold LoadAnchorsWithCache.
  eapply ensures_bind; [apply ensures_catch, LoadAnchors_usable|]. intros [ra|e1] L1.
  { apply ensures_ret. cbn. destruct (L1 ra eq_refl) as [? ->]. split_and!; [done | by left | done]. }
  eapply (ensures_bind _ _ (fun r => forall ra, r = Ok ra -> usable_anchors ra /\ RootAnchors.LoadedFrom ra = cachePath)).
  { destruct (String.eqb cachePath ""); [by apply ensures_ret | apply ensures_catch, LoadAnchors_usable]. }
  intros [ra|e2] L2.
  { apply ensures_ret. cbn. destruct (L2 ra eq_refl) as [? ->]. split_and!; [done | set_solver | done]. }
  eapply ensures_bind; [apply ensures_catch, ParseAnchors_usable|]. intros [ra|e3] L3.
  { apply ensures_ret. cbn. destruct (L3 ra eq_refl) as [? ->]. split_and!; [done | set_solver | done]. }
  eapply (ensures_bind _ _ (fun r => forall x, r = Ok x -> usable_anchors x.1 /\ RootAnchors.LoadedFrom x.1 = url)).
  { apply ensures_catch. unfold FetchAnchors. destruct (Fetch url); [|apply ensures_fail].
    eapply ensures_bind; [apply ParseAnchors_usable|]. intros ra Hra. by apply ensures_ret. }
  intros [[ra bytes]|e4] L4; [|apply ensures_fail]. apply ensures_ret. cbn. destruct (L4 _ eq_refl) as [? Hl]. cbn in *.
  rewrite Hl. split_and!; [done | set_solver | done].
Qed.
End anchors.

(** A missing file, a cache an attacker replaced by an unpinned document, and the
    built-in document: the last is used. *)
Definition attacker_document : RootAnchors.t :=
  RootAnchors.mk "" "." "" [Anchor.mk "evil" 1 8 "" 2 "" (Anchor.Digest anchor_20326) "2017-02-02T00:00:00+00:00" None "" 257] "".
#[global] Instance sample_sources : AnchorSources := {
  ReadFile path := if String.eqb path "cache.json" then Ok [1] else Err "no such file";
  Fetch _ := Err "offline";
  Unmarshal data := match data with
    | [1] => Ok attacker_document
    | _ => Ok (RootAnchors.mk "iana" "." "" [anchor_20326] "")
    end;
  embeddedAnchorsDocument := [2]
}.
Definition load_run : res string (RootAnchors.t * option (list Z)) * VState.t :=
  LoadAnchorsWithCache "anchors.json" "cache.json" "https://example" world_start.

Lemma load_run_ok : exists ra s', load_run = (Ok (ra, None), s') /\ RootAnchors.LoadedFrom ra = EmbeddedAnchorsSource.
Proof. eexists _, _. split; vm_compute; reflexivity. Qed.

Lemma loaded_anchors_are_usable_witness :
  exists ra s', load_run = (Ok (ra, None), s') /\ RootAnchors.LoadedFrom ra = EmbeddedAnchorsSource /\ usable_anchors ra.
Proof.
  destruct load_run_ok as (ra & s' & Hrun & Hfrom). exists ra, s'. split; [exact Hrun|]. split; [exact Hfrom|].
  exact (proj1 (loaded_anchors_are_usable "anchors.json" "cache.json" "https://example" world_start ra None s' Hrun)).
Defined.
