(* ===== verification/ResolverSound.v ===== *)
(** * ResolverSound: the bounds on a zone's nameservers

    [ResolveNSSet] returns a bounded, duplicate-free query list, and discloses every
    address or name it leaves out. *)

From stdpp Require Import base list strings gmap pretty.
From Stdlib Require Import ZArith Lia.
From S2P Require Import Prelude GoTime Names PlainNames SampleZone Ip Egress Nsec Nsec3 Wire Authenticated Resolver ChainSound SampleWorld.
Local Open Scope Z_scope.

Section resolver.
Context `{DnsLib} `{WireLib} `{ValidatorEnv} `{Network}.
Implicit Types (set : NSSet.t).

Record bounded_set set : Prop := {
  bs_distinct : NoDup (NSSet.Addresses set);
  bs_addresses : (length (NSSet.Addresses set) <= MaxAddressesPerZone)%nat;
  bs_records : (length (NSSet.Records set) <= MaxNameserversPerZone)%nat;
  bs_each : Forall (fun r => (length (NSRecord.Addresses r) <= MaxAddressesPerNameserver)%nat) (NSSet.Records set);
  bs_queried : Forall (fun r => Forall (fun ip => canonicalIP ip ∈ NSSet.Addresses set) (NSRecord.Addresses r)) (NSSet.Records set)
}.

(** The lookup of [r]'s name, at some state, found exactly its addresses. *)
Definition all_found (r : NSRecord.t) : Prop :=
  exists s s' problems err, ResolveAddressesDetailed (NSRecord.Name r) s = (Ok (NSRecord.Addresses r, problems, err), s').

Lemma sublist_full {A} (l1 l2 : list A) : l1 `sublist_of` l2 -> (length l2 <= length l1)%nat -> l1 = l2.
Proof.
  induction 1 as [|x l1 l2 _ IH|x l1 l2 Hs _]; cbn; intros Hl; [done | f_equal; apply IH; lia|].
  apply sublist_length in Hs. lia.
Qed.

Lemma keep_addresses_spec addrs queried kept q k :
  keep_addresses addrs queried kept = (q, k) ->
  NoDup queried -> (length queried <= MaxAddressesPerZone)%nat -> Forall (fun ip => canonicalIP ip ∈ queried) kept ->
  NoDup q /\ (length q <= MaxAddressesPerZone)%nat /\ Forall (fun ip => canonicalIP ip ∈ q) k /\ queried ⊆ q /\
  exists taken, k = kept ++ taken /\ taken `sublist_of` addrs.
Proof.
  revert queried kept. induction addrs as [|ip addrs IH]; intros queried kept Hk Hd Hl Hf; cbn [keep_addresses] in Hk.
  { injection Hk as <- <-. split_and!; try done. exists []. by rewrite app_nil_r. }
  destruct (str_in queried (canonicalIP ip)) eqn:Hin.
  - apply str_in_spec in Hin. destruct (IH _ _ Hk Hd Hl) as (? & ? & ? & ? & taken & -> & Hs).
    { apply Forall_app. split; [done | by constructor]. }
    split_and!; try done. exists (ip :: taken). rewrite <-app_assoc. split; [done | by apply sublist_skip].
  - destruct (Nat.leb_spec MaxAddressesPerZone (length queried)).
    + destruct (IH _ _ Hk Hd Hl Hf) as (? & ? & ? & ? & taken & -> & Hs). split_and!; try done. exists taken. split; [done | by apply sublist_cons].
    + assert (Hnew : canonicalIP ip ∉ queried) by (intros Hx%str_in_spec; congruence).
      destruct (IH _ _ Hk) as (? & ? & ? & Hsub & taken & -> & Hs).
      { apply NoDup_app. split_and!; [done | intros x Hx ->%list_elem_of_singleton; done | apply NoDup_singleton]. }
      { rewrite length_app. cbn. lia. }
      { apply Forall_app. split; [|constructor; [set_solver | done]]. eapply Forall_impl; [done|]. set_solver. }
      split_and!; try done; [set_solver|]. exists (ip :: taken). rewrite <-app_assoc. split; [done | by apply sublist_skip].
Qed.

Lemma snoc_nonempty {A} (l l' : list A) x : l ++ x :: l' <> [].
Proof. by destruct l. Qed.

Lemma add_nameserver_spec zone ns found set :
  let set' := add_nameserver zone ns found set in
  bounded_set set -> (length (NSSet.Records set) < MaxNameserversPerZone)%nat ->
  bounded_set set' /\ exists r, NSSet.Records set' = NSSet.Records set ++ [r] /\ NSRecord.Name r = NSRecord.Name ns /\
    (NSSet.Truncation set' = [] -> NSSet.Truncation set = [] /\ NSRecord.Addresses r = found.1.1).
Proof.
  destruct found as [[addrs problems] lookupErr]. intros set' [Hd Ha Hr He Hq] Hlt. subst set'. unfold add_nameserver. cbn [fst].
  set (over := Nat.ltb MaxAddressesPerNameserver (length addrs)).
  set (set1 := if over then _ else set). set (addrs1 := if over then _ else addrs).
  assert (Hset1 : NSSet.Addresses set1 = NSSet.Addresses set /\ NSSet.Records set1 = NSSet.Records set /\
    (NSSet.Truncation set1 = [] -> NSSet.Truncation set = [] /\ addrs1 = addrs)).
  { subst set1 addrs1. destruct over; cbn -[Sprintf]; [|done]. split; [done|]. split; [done|]. by intros Hx%snoc_nonempty. }
  assert (Hlen : (length addrs1 <= MaxAddressesPerNameserver)%nat).
  { subst addrs1 over. destruct (Nat.ltb_spec MaxAddressesPerNameserver (length addrs)); [|lia]. rewrite length_take. lia. }
  clearbody set1 addrs1. destruct Hset1 as (Ha1 & Hr1 & Ht1).
  destruct (keep_addresses addrs1 (NSSet.Addresses set1) []) as [q k] eqn:Hk. rewrite Ha1 in Hk.
  destruct (keep_addresses_spec _ _ _ _ _ Hk Hd Ha) as (Hqd & Hql & Hkq & Hsub & taken & -> & Hs); [by constructor|]. cbn [app] in *.
  pose proof (sublist_length _ _ Hs) as Hls.
  set (set2 := if Nat.ltb 0 _ then _ else _).
  assert (Hset2 : NSSet.Addresses set2 = q /\ NSSet.Records set2 = NSSet.Records set /\
    (NSSet.Truncation set2 = [] -> NSSet.Truncation set = [] /\ taken = addrs)).
  { subst set2. destruct (Nat.ltb_spec 0 (length addrs1 - length taken)) as [Hlt'|Hge]; cbn -[Sprintf].
    - split; [done|]. split; [done|]. by intros Hx%snoc_nonempty.
    - split; [done|]. split; [done|]. intros [? <-]%Ht1. split; [done|]. apply sublist_full; [done | lia]. }
  clearbody set2. destruct Hset2 as (Ha2 & Hr2 & Ht2). split.
  - constructor; cbn; rewrite ?Ha2, ?Hr2; try done.
    + rewrite length_app. cbn. lia.
    + apply Forall_app. split; [done|]. constructor; [cbn; lia | done].
    + apply Forall_app. split; [|by constructor]. eapply Forall_impl; [done|]. cbn. intros r Hr'. eapply Forall_impl; [exact Hr' | set_solver].
  - eexists. cbn. rewrite Hr2. split; [done|]. split; [done|]. done.
Qed.

Lemma ensures_reached {A} (m : St VState.t string A) : ensures m (fun a => exists s s', m s = (Ok a, s')).
Proof. intros s. unfold wp. destruct (m s) as [[a|e] s'] eqn:Hm; [by eexists _, _ | done]. Qed.

(** One step of the loop, with what the whole loop promises. *)
Lemma resolve_nameservers_spec zone rs set :
  bounded_set set -> (length (NSSet.Records set) + length rs <= MaxNameserversPerZone)%nat ->
  ensures (resolve_nameservers zone rs set) (fun set' => bounded_set set' /\ exists added,
    NSSet.Records set' = NSSet.Records set ++ added /\ map NSRecord.Name added = map NSRecord.Name rs /\
    (NSSet.Truncation set' = [] -> NSSet.Truncation set = [] /\ Forall all_found added)).
Proof.
  revert set. induction rs as [|ns rs IH]; intros set Hb Hl; cbn [resolve_nameservers length] in *.
  { apply ensures_ret. split; [done|]. exists []. by rewrite app_nil_r. }
  apply ensures_then. intros [e|]; [apply ensures_fail|].
  eapply ensures_bind; [apply ensures_reached|]. intros found (s & s' & Hfound).
  destruct (add_nameserver_spec zone ns found set Hb ltac:(lia)) as (Hb' & r & Hr & Hn & Ht).
  eapply ensures_mono; [apply IH; [done | rewrite Hr, length_app; cbn; lia]|].
  intros set' (Hbs & added & Ha & Hnames & Htr). split; [done|]. exists (r :: added).
  rewrite Ha, Hr, <-app_assoc. cbn [map]. rewrite Hn, Hnames. split_and!; try done.
  intros Hset'. destruct (Htr Hset') as [Hnil Hall]. destruct (Ht Hnil) as [Hz Hf]. split; [done|]. constructor; [|done].
  destruct found as [[addrs problems] err]. cbn in Hf. exists s, s', problems, err. by rewrite Hn, Hf.
Qed.

Lemma bounded_empty tr : bounded_set (NSSet.mk [] [] tr).
Proof. constructor; cbn; try constructor; unfold MaxAddressesPerZone, MaxNameserversPerZone; lia. Qed.

(** C36: However many nameservers a delegation lists and
    however many addresses each answers with, the set ResolveNSSet returns keeps at
    most 32 nameservers, 16 addresses of each and 64 distinct query addresses of the
    zone, every kept address among them; and unless it reports a truncation it holds
    every nameserver of the delegation with every address the lookup found. *)
Theorem nameserver_fanout_bounded zone s set s' :
  ResolveNSSet zone s = (Ok set, s') ->
  bounded_set set /\
  (NSSet.Truncation set = [] -> Forall all_found (NSSet.Records set) /\
    exists s0 s1 rs, ResolveNS zone s0 = (Ok rs, s1) /\ map NSRecord.Name (NSSet.Records set) = map NSRecord.Name rs).
Proof.
  revert s set s'. enough (ensures (ResolveNSSet zone) (fun set => bounded_set set /\
    (NSSet.Truncation set = [] -> Forall all_found (NSSet.Records set) /\
      exists s0 s1 rs, ResolveNS zone s0 = (Ok rs, s1) /\ map NSRecord.Name (NSSet.Records set) = map NSRecord.Name rs))) as He.
  { intros s set s'. apply (ensures_run _ _ _ _ _ He). }
  unfold ResolveNSSet. eapply ensures_bind; [apply ensures_reached|]. intros rs (s0 & s1 & Hrs).
  destruct (Nat.ltb_spec MaxNameserversPerZone (length rs)).
  - eapply ensures_mono; [apply resolve_nameservers_spec; [apply bounded_empty | rewrite length_take; change (0 + MaxNameserversPerZone `min` length rs <= MaxNameserversPerZone)%nat; lia]|].
    intros set (Hb & added & _ & _ & Ht). split; [done|]. intros Hnil. by destruct (Ht Hnil).
  - eapply ensures_mono; [apply resolve_nameservers_spec; [apply bounded_empty | cbn [NSSet.Records length]; lia]|].
    intros set (Hb & added & -> & Hn & Ht). split; [done|]. intros Hnil. destruct (Ht Hnil) as [_ Hall]. split; [done|].
    by exists s0, s1, rs.
Qed.
End resolver.

Lemma sample_fanout : exists set s', ResolveNSSet "example." world_start = (Ok set, s') /\ NSSet.Truncation set = [] /\
  map NSRecord.Name (NSSet.Records set) = ["ns.example."] /\ NSSet.Addresses set = ["192.0.2.1"].
Proof. eexists _, _. split; [vm_compute; reflexivity | split_and!; reflexivity]. Qed.

Lemma nameserver_fanout_bounded_witness :
  exists set s', ResolveNSSet "example." world_start = (Ok set, s') /\ NSSet.Truncation set = [] /\
    Forall all_found (NSSet.Records set).
Proof.
  destruct sample_fanout as (set & s' & Hrun & Htr & _). exists set, s'. split; [exact Hrun|]. split; [exact Htr|].
  exact (proj1 (proj2 (nameserver_fanout_bounded "example." world_start set s' Hrun) Htr)).
Defined.
