(* ===== verification/SigningTheorems.v ===== *)
(** * SigningTheorems: the properties of zone checking and NSEC signing *)

From stdpp Require Import base list strings gmap pretty.
From Stdlib Require Import ZArith Lia Sorted Ascii.
From S2P Require Import Prelude Paths GoTime Config ZoneState StateStore FileSys KeyOps Order Names PlainNames DnsZone SampleZone Nsec NsecSound Wire Serial KeyMaterial ZoneModel NsecChain Signatures KeyFiles FileSysSound KeyFilesSound KeyFilesRecover KeyTheorems ZoneCheck SignZone SignFiles ZoneModelFacts SignaturesSound SignSound NsecChainSound ServedZone Nsec3ChainSound NsecCheck SignZoneSound SignFilesSound SampleSign.
Local Open Scope Z_scope.

Section theorems.
Context `{DnsLib}.

(** validateZoneRecords accepts exactly the snapshots that follow
    [zone_rules]: one SOA at the apex with NS beside it, owners within the zone, CNAME and DNAME alone where they must be,
    nothing beneath a DNAME that lies below the apex, and at a cut only NS, DS and
    glue. *)
Theorem validate_zone_exact domain records : validateZoneRecords domain records = Ok tt <-> zone_rules domain records.
Proof. apply validate_zone_spec. Qed.

(** The self-check of a freshly signed zone accepts an NSEC chain
    exactly when every authoritative owner has one record, each pointing at the next
    owner in canonical order with the types the input dictates. *)
Theorem nsec_check_exact m nsecs : verifyNSECExpectations m nsecs = Ok tt <-> expected_chain m nsecs.
Proof. apply nsec_check_spec. Qed.

Context `{!DnsLibLaws}.

(** The owners of the snapshot, whatever their spelling, need no escapes. *)
Definition plain_owners (domain : string) (records : list RR) (a : name) : Prop :=
  canonicalName domain = fqdn a /\ plain_name a /\
  forall rr, rr ∈ records -> exists n, presentable n /\ canon rr = fqdn n.

Lemma validated_snapshot domain records a :
  plain_owners domain records a -> zone_rules domain records ->
  plain_snapshot domain records a /\ holds records a TypeSOA.
Proof.
  intros (Ha & Hap & Ho) Hr. split.
  - constructor; [done..|]. intros rr Hin. destruct (Ho rr Hin) as (n & Hn%presentable_plain & Hrr). exists n. split_and!; try done.
    pose proof (zr_within _ _ Hr rr Hin) as Hw. by rewrite Ha, Hrr, !SplitDomainName_plain in Hw.
  - pose proof (zr_soa _ _ Hr) as Hs. destruct (proj1 (count_at_pos records (canonicalName domain) TypeSOA)) as (rr & Hin & Hn & Ht); [lia|].
    exists rr. by rewrite <-Ha.
Qed.

(** C2: What the signer publishes, the validator believes: given the NSEC chain
    generated for a validated snapshot, in any order, it accepts a denial exactly
    when it is true of the zone the snapshot stands for, and no cut lies above the
    name.  The snapshot's owners need no escapes, its input holds no denial records
    and no DNAME at the apex, and none of its wildcards is an empty non-terminal
    (there the verifier accepts a false NXDOMAIN, [empty_wildcard_is_overlooked]). *)
Theorem signed_denials_exact `{!TypeLaws} domain records a ttl q qname qtype rcode recs :
  plain_owners domain records a -> validateZoneRecords domain records = Ok tt -> no_denial_records records ->
  ~ holds records a TypeDNAME ->
  plain_name q -> a `suffix_of` q -> canonicalizeName qname = fqdn q ->
  Permutation recs (parsed_chain "authority" (generateNSECChain domain records ttl)) ->
  let z := zone_served domain records a in no_empty_wildcard z ->
  is_ok (VerifyNSECDenial qname qtype recs rcode) = true <->
  ~ below_cut z q /\ if (rcode =? 3)%Z then nxdomain_truth z q else nodata_truth z q (TypeString qtype).
Proof.
  intros Hpo Hv%validate_zone_spec Hno Hdn Hq Hqa Hqn Hp z Hw. destruct (validated_snapshot _ _ _ Hpo Hv) as [Hps Hsoa].
  assert (zone_ok z) as Hz by (by apply served_ok).
  assert ((if (rcode =? 3)%Z then nxdomain_truth z q else nodata_truth z q (TypeString qtype)) <->
    (if (rcode =? 3)%Z then nxdomain_unowned z q else nodata_truth z q (TypeString qtype))) as ->
    by (destruct (rcode =? 3)%Z; [by rewrite nxdomain_unowned_truth|done]).
  apply denial_verdict_exact; try done.
  eapply complete_permutation; [exact Hp|]. rewrite (parsed_generated _ _ _ Hps) by done. apply nsec_chain_complete; [done | by apply (owner_names_sorted _ _ _ Hps)|].
  intros x. unfold z. rewrite (served_owns _ _ _ Hps). by apply (owner_names_elem _ _ _ Hps).
Qed.
End theorems.

(** ** A sample snapshot *)

#[global] Instance plain_type_laws : TypeLaws (H := plain_lib).
Proof.
  split; intros t; (split; [|by intros ->]); cbn; unfold plain_type_string; repeat case_match; try done; intros Heq; discriminate Heq.
Qed.

Lemma sample_owners : plain_owners "Example" sample_snapshot ["example"].
Proof.
  split; [reflexivity|]. split; [apply plain_nameb_ok; reflexivity|]. intros rr Hin.
  assert (owners_check sample_snapshot = true) as Hc by (vm_compute; reflexivity).
  pose proof (proj1 (forallb_forall _ _) Hc rr (proj1 (list_elem_of_In _ _) Hin)) as [He%String.eqb_eq Hp%presentableb_ok]%andb_true_iff. eauto.
Qed.

Lemma sample_served_wildcards : no_empty_wildcard (zone_served "Example" sample_snapshot ["example"]).
Proof.
  pose proof (proj2 (validate_zone_spec _ _) sample_validates) as Hx || pose proof (proj1 (validate_zone_spec _ _) sample_validates) as Hx.
  destruct (validated_snapshot _ _ _ sample_owners Hx) as [Hps _].
  apply (wildcards_owned_ok _ (owner_names "Example" sample_snapshot)); [|vm_compute; reflexivity].
  intros x. rewrite (served_owns _ _ _ Hps). symmetry. apply (owner_names_elem _ _ _ Hps).
Qed.

Lemma signed_denials_exact_witness :
  is_ok (VerifyNSECDenial "nope.example" 1 (parsed_chain "authority" (generateNSECChain "Example" sample_snapshot 300)) 3) = true /\
  nxdomain_truth (zone_served "Example" sample_snapshot ["example"]) ["nope"; "example"].
Proof.
  assert (is_ok (VerifyNSECDenial "nope.example" 1 (parsed_chain "authority" (generateNSECChain "Example" sample_snapshot 300)) 3) = true) as Hok
    by (vm_compute; reflexivity).
  split; [exact Hok|].
  refine (proj2 (proj1 (signed_denials_exact "Example" sample_snapshot ["example"] 300 ["nope"; "example"] "nope.example" 1 3 _
    sample_owners sample_validates sample_no_denial _ _ _ _ _ sample_served_wildcards) Hok)).
  - intros (rr & Hin & _ & Ht). assert (forallb (fun rr => negb (rr_type rr =? TypeDNAME)) sample_snapshot = true) as Hc by reflexivity.
    pose proof (proj1 (forallb_forall _ _) Hc rr (proj1 (list_elem_of_In _ _) Hin)) as Hb. apply negb_true_iff, Z.eqb_neq in Hb. by apply Hb.
  - apply plain_nameb_ok. reflexivity.
  - exists ["nope"]. reflexivity.
  - reflexivity.
  - reflexivity.
Defined.

(** [apex_dname_accepted] Names beneath a DNAME must not exist, yet with the DNAME at
    the apex the snapshot is accepted: the search for a covering DNAME stops below
    the apex. *)
Lemma apex_dname_accepted :
  validateZoneRecords "example" (RR_DNAME (Hdr.mk "example." TypeDNAME 1 3600) "example.net." :: sample_snapshot) = Ok tt.
Proof. vm_compute. reflexivity. Qed.

(** ** A signing pass *)

Section pass.
Context `{DnsLib} `{WireLib} `{CryptoLib} `{HashLib} `{SignLib}.

(** C13: The self-verification of a freshly signed zone accepts exactly the zones in
    which every RRSIG verifies under a published key over an RRset of the zone, in
    the intended window and with the right label count; no RRset has fewer records
    than in the input; every RRset this zone is authoritative for is signed, under
    each published algorithm by a key of the right role; and the denial records are
    the NSEC or NSEC3 chain that the input dictates, whichever is configured, and no
    others. *)
Theorem self_check_exact cfg m input signed keys now :
  verifySignedZoneWithModel cfg m input signed keys now = Ok tt <->
  signed_zone_ok cfg m input signed keys now /\ denial_rules cfg m signed.
Proof. rewrite verify_zone_spec, <-denial_ok_rules. split; [intros Hs; split; [done|apply Hs] | by intros [Hs _]]. Qed.

Context `{ZoneFileLib} `{!SignLaws}.

(** C3: A zone handed on for publication holds every record of its source: the source
    was read whole, the digest is that of the bytes read, and the zone starts with the
    records they parse to, all but the DNSSEC records the signer makes itself, with
    the published serial in the SOA, and the DNSKEYs of the pass.  These records pass
    the zone rules, the whole satisfies the self-check with the denial chain they
    dictate, no record outlives the recorded maximum TTL, and the recorded expiry is
    no later than that of any RRSIG, of which there is one. *)
Theorem published_zone_sound cfg domain z keys path r clock res :
  0 <= unix_seconds (SignClock.expiration_now clock) ->
  prepareSignedZone cfg domain z keys path r clock = Ok res ->
  exists data info, readSourceBytes path r = Ok (data, info) /\ publication_ok cfg domain path keys clock data res.
Proof. exact (prepare_sound cfg domain z keys path r clock res). Qed.

Context `{!DnsLibLaws} `{!HashLaws}.

(** C6: The self-verification does not stand in the way of a source that passes the
    zone rules: with keys of the zone that cover every published algorithm in both
    roles, under distinct tags, the pass ends in a publishable zone unless the crypto
    library refuses to sign.  [zone_fits] and [pass_times] say for which zones and
    clocks: a zone below the root whose records are in class IN and whose owners need
    no escapes, under NSEC3 without hash collisions, verified within ten minutes of
    being signed. *)
Theorem pass_publishes cfg domain path r a keys snap published z clock :
  readSourceSnapshot domain path r = Ok snap ->
  publishedSerial cfg domain (sourceSnapshot.serial snap) z (SignClock.serial_now clock) = Ok published ->
  zone_fits cfg domain a keys snap published ->
  pass_times (cfg_SignatureValidity (DNSSEC cfg)) (SignClock.sign_now clock) (SignClock.verify_now clock) ->
  0 <= unix_seconds (SignClock.expiration_now clock) ->
  (exists res, prepareSignedZone cfg domain z keys path r clock = Ok res) \/
  exists err, prepareSignedZone cfg domain z keys path r clock = Err (Sprintf "signing records: %w" [err]).
Proof.
  intros Hsnap Hpub Hfits Ht Hl. pose proof (prepare_complete cfg domain path r a keys snap published Hsnap Hfits z clock Hpub Ht Hl) as Hc.
  destruct (signRecordsWithModel _ _ _ _ _ _) as [signed|err]; [left; destruct Hc as (res & Hres & _); by exists res | right; by exists err].
Qed.

End pass.

Section chain3.
Context `{DnsLib} `{HashLib}.

(** The self-check accepts an NSEC3 chain exactly when one parameter record
    stands at the apex and, for every authoritative owner and empty non-terminal,
    one record carries its hash, points at the next hash in order and lists the
    types the input dictates, and there is no other record. *)
Theorem nsec3_check_exact m iterations nsec3s params salt :
  verifyNSEC3Expectations m nsec3s params iterations salt = Ok tt <->
  exists hs, expected_chain3 m iterations (normSalt salt) nsec3s params hs.
Proof. apply nsec3_check_spec. Qed.
End chain3.

(** A zone is due for signing on exactly these grounds: its signatures have expired
    or are about to, its state asks for it, its output is unusable, or its source gives
    cause ([source_due]: it is not still settling, and it is too large, or holds bytes
    other than those recorded, or none are recorded). *)
Theorem needs_sign_exact cfg path z o : (NeedsSign cfg path (Some z) o).1.1 = true <-> sign_due cfg path z o.
Proof. apply needs_sign_spec. Qed.

(** C19: Once a pass is recorded the zone rests: until the refresh interval before the
    earliest expiry, with its output in place and its source holding the same bytes,
    it is not signed again, whatever the source's metadata say. *)
Theorem recorded_zone_rests cfg domain z res warning clock path o :
  signedZone.sourcePath res = path -> path <> "" -> signedZone.sigExpiration res <> 0 -> signedZone.srcDigest res <> "" ->
  (forall ro, ZoneState.Rollover z = Some ro -> RolloverState.Started ro <= SignClock.record_now clock) ->
  SignObs.now o <= signedZone.sigExpiration res - cfg_SignatureRefresh (DNSSEC cfg) -> 0 <= cfg_SignatureRefresh (DNSSEC cfg) ->
  (exists info, SignObs.output o = OutputFound info /\ FileInfo.IsRegular info = true) ->
  sourceDigest path (SignObs.content o) = Ok (signedZone.srcDigest res) ->
  (NeedsSign cfg path (Some (recordSignedZone cfg domain z res warning clock)) o).1.1 = false.
Proof. apply recorded_not_due. Qed.

(** ** The sample pass *)

Lemma sample_kp k kp ttl : kp ∈ signers (with_ttl ttl sample_keys) k ->
  k.2 = TypeDNSKEY /\ kp = (set_ttl ttl (sample_dnskey 257 1), repeat 1 32) \/ k.2 <> TypeDNSKEY /\ kp = (set_ttl ttl (sample_dnskey 256 2), repeat 2 32).
Proof. unfold signers. destruct (Z.eqb_spec k.2 TypeDNSKEY); cbn [with_ttl sample_keys signingKeys.signingKSKs signingKeys.signingKSKPs signingKeys.signingZSKs signingKeys.signingZSKPs map combine]; intros ->%list_elem_of_singleton; auto. Qed.

Lemma sample_keys_complete : complete_keys "Example" (with_ttl 3600 sample_keys).
Proof.
  constructor.
  - done.
  - vm_compute. repeat constructor; set_solver.
  - intros k kp [[Hk ->]|[Hk ->]]%sample_kp; cbn [fst snd]; unfold wanted_role; rewrite Hk || (apply Z.eqb_neq in Hk as ->); (split_and!; [cbn [with_ttl sample_keys signingKeys.dnskeys map]; set_solver | vm_compute; done | vm_compute; reflexivity | reflexivity]).
  - intros k dk Hdk. assert (DNSKEY.Algorithm dk = ED25519) as -> by (cbn in Hdk; set_solver).
    unfold signers. destruct (k.2 =? TypeDNSKEY); eexists; (split; [by left | reflexivity]).
Qed.

Lemma sample_fits : zone_fits DefaultConfig "Example" ["example"] sample_keys sample_snap 2024.
Proof.
  constructor.
  - vm_compute. reflexivity.
  - split; [apply presentableb_ok; reflexivity | done].
  - intros rr Hin. assert (owners_check sample_snapshot = true) as Hc by (vm_compute; reflexivity).
    pose proof (proj1 (forallb_forall _ _) Hc rr (proj1 (list_elem_of_In _ _) Hin)) as [He%String.eqb_eq Hp%presentableb_ok]%andb_true_iff. eauto.
  - intros rr Hin. cbn [sample_snap sourceSnapshot.records sample_snapshot] in Hin. repeat (apply elem_of_cons in Hin as [->|Hin]; [done|]). by apply not_elem_of_nil in Hin.
  - exact sample_keys_complete.
  - intros k [->|[->|Hk%not_elem_of_nil]%elem_of_cons]%elem_of_cons; [by vm_compute..|done].
  - intros _. assert (bool_decide (NoDup (map (fun o => HashName o SHA1 0 "") (authoritativeOwners (newZoneModel "Example" (pass_input DefaultConfig sample_snap 2024 sample_keys)) ++ emptyNonTerminals (newZoneModel "Example" (pass_input DefaultConfig sample_snap 2024 sample_keys)))))
      && forallb (fun o => negb (String.eqb (HashName o SHA1 0 "") "")) (authoritativeOwners (newZoneModel "Example" (pass_input DefaultConfig sample_snap 2024 sample_keys)) ++ emptyNonTerminals (newZoneModel "Example" (pass_input DefaultConfig sample_snap 2024 sample_keys))) = true) as [Hd%bool_decide_eq_true Hne]%andb_true_iff by (vm_compute; reflexivity).
    split; [done|]. split; [exact Hd|]. intros o Ho%list_elem_of_In Heq.
    pose proof (proj1 (forallb_forall _ _) Hne o Ho) as Hb. apply negb_true_iff, String.eqb_neq in Hb. exact (Hb Heq).
Qed.

Lemma sample_times : pass_times (cfg_SignatureValidity (DNSSEC DefaultConfig)) (SignClock.sign_now sample_clock) (SignClock.verify_now sample_clock).
Proof. split; vm_compute; intuition discriminate. Qed.

Lemma sample_pass_ok : exists res, sample_pass DefaultConfig = Ok res.
Proof. assert (is_ok (sample_pass DefaultConfig) = true) as Hok by (vm_compute; reflexivity). destruct (sample_pass DefaultConfig) as [res|]; [by exists res | done]. Qed.

Lemma published_zone_sound_witness :
  exists res, sample_pass DefaultConfig = Ok res /\
  exists data info, readSourceBytes sample_path sample_read = Ok (data, info) /\ publication_ok DefaultConfig "Example" sample_path sample_keys sample_clock data res.
Proof.
  destruct sample_pass_ok as [res Hres]. exists res. split; [exact Hres|].
  refine (published_zone_sound DefaultConfig "Example" ZoneState.ZoneState.zero sample_keys sample_path sample_read sample_clock res _ Hres).
  vm_compute. discriminate.
Defined.

Lemma pass_publishes_witness :
  (exists res, sample_pass DefaultConfig = Ok res) \/ exists err, sample_pass DefaultConfig = Err (Sprintf "signing records: %w" [err]).
Proof.
  refine (pass_publishes DefaultConfig "Example" sample_path sample_read ["example"] sample_keys sample_snap 2024 ZoneState.ZoneState.zero sample_clock
    sample_read_snapshot sample_serial sample_fits sample_times _).
  vm_compute. discriminate.
Defined.

(** A week later the source was touched, not changed. *)
Definition sample_week : SignObs.t :=
  let touched := FileInfo.mk true "-" 8 (unix_time 1700500000) in
  SignObs.mk (unix_time 1700600000) (OutputFound (FileInfo.mk true "-" 9000 (unix_time 1700000105))) (Ok touched) (unix_time 1700600000) (Ok touched)
    (SourceRead.mk None (Ok touched) (Ok "the zone") (Ok touched)).
Definition sample_result : signedZone.t :=
  signedZone.mk [] 2024 2024 sample_path (unix_time 1700000000) 8 (sourceDigestOf "the zone") 3600 3600 (unix_time 1701209701).

Lemma recorded_zone_rests_witness :
  (NeedsSign DefaultConfig sample_path (Some (recordSignedZone DefaultConfig "Example" ZoneState.ZoneState.zero sample_result "" sample_clock)) sample_week).1.1 = false.
Proof.
  refine (recorded_zone_rests DefaultConfig "Example" ZoneState.ZoneState.zero sample_result "" sample_clock sample_path sample_week _ _ _ _ _ _ _ _ _).
  - reflexivity.
  - discriminate.
  - vm_compute. discriminate.
  - vm_compute. discriminate.
  - discriminate.
  - vm_compute. discriminate.
  - vm_compute. discriminate.
  - eexists. split; reflexivity.
  - vm_compute. reflexivity.
Defined.

(** ** Passes on disk *)

Section disk.
Context `{DnsLib} `{WireLib} `{CryptoLib} `{HashLib} `{SignLib} `{ZoneFileLib} `{ZoneTextLib} `{SliceSort}.

(** C4: A pass never tears the published zone: at every state a pass goes through, and
    so at every state a crash leaves, the output path holds the file of before or a
    complete generation (a zone made from the whole source under the keys of the
    recorded phase, through the self-check, every line written); success publishes that
    generation and records it, and a failed pass leaves the file of before. *)
Theorem interrupted_pass_keeps_zone `{!SignLaws} (o : OS) cfg domain z source clock d : 0 <= unix_seconds (SignClock.expiration_now clock) ->
  always (old_or_new (Disk.nodes d) (OutputPath cfg domain) (fun n => exists res, generation cfg domain z source clock res n))
    (SignZone cfg domain (Some z) source clock)
    (fun r d' => match r with
       | Ok z' => exists n res warning, Disk.nodes d' !! OutputPath cfg domain = Some n /\ generation cfg domain z source clock res n /\
                    z' = recordSignedZone cfg domain z res warning clock
       | Err _ => old_at (Disk.nodes d) (OutputPath cfg domain) (Disk.nodes d')
       end) d.
Proof. apply SignZone_always. Qed.

(** C7: The keys of a pass are those of the recorded phase: the published tags, the
    KSKs that sign and the ZSKs that sign are the plan's, every signing pair corresponds,
    is admitted to its role and published.  Outside an algorithm rollover they share one
    algorithm, and where the plan's tags are distinct and the published keys are of
    class IN and protocol 3 they cover the zone, as signing and its self-check need. *)
Theorem loaded_keys_follow_phase `{!TagOfRdata} (o : OS) cfg domain z d keys d' p :
  loadKeysForSigning cfg domain z d = (Ok keys, d') -> plan z = Some p ->
  follows domain p keys /\
  (algorithm_rollover z = false -> forall a b, a ∈ signingKeys.dnskeys keys -> b ∈ signingKeys.dnskeys keys -> DNSKEY.Algorithm a = DNSKEY.Algorithm b) /\
  (NoDup (Plan.ksks p ++ Plan.zsks p) -> (forall key, key ∈ signingKeys.dnskeys keys -> class_in key) ->
   algorithm_rollover z = false -> forall ttl, complete_keys domain (with_ttl ttl keys)).
Proof.
  intros Hl%loadKeys_loaded Hp. pose proof Hl as [(p' & Hp' & Hf) Ha]. rewrite Hp in Hp'. injection Hp' as <-.
  split_and!; [done..|]. intros Hnd Hc Hr ttl. eapply loaded_complete; [done..|]. congruence.
Qed.


(** The output holds the records that were signed, each once, those of one owner and
    type together, the apex SOA first. *)
Theorem output_is_complete `{!SliceSortLaws} domain records :
  Permutation (sortZoneRecords domain records) records /\
  (exists keys, NoDup keys /\ sortZoneRecords domain records = concat (map (of_key records) keys)) /\
  forall soa, soa ∈ records -> record_key soa = (canonicalName domain, TypeSOA) ->
    exists first rest, sortZoneRecords domain records = first :: rest /\ record_key first = (canonicalName domain, TypeSOA).
Proof.
  split_and!; [apply sortZoneRecords_perm| |apply sortZoneRecords_head].
  eexists. split; [|reflexivity]. rewrite sort_any_perm. apply group_keys_spec.
Qed.
End disk.

(** ** A pass over the sample zone *)

#[global] Instance plain_text : ZoneTextLib := { RRText rr := rr_name rr +:+ " " +:+ pretty (rr_type rr) }.
#[global] Instance insertion_sort : SliceSort := { sort_any A less l := sort_slice less l }.

Lemma insert_sorted_weak {A} (less : A -> A -> bool) x l : strict_weak less ->
  StronglySorted (fun a b => less b a = false) l -> StronglySorted (fun a b => less b a = false) (insert_sorted less x l).
Proof.
  intros (Hirr & Htr & Hntr). induction l as [|y l IH]; intros Hs; cbn [insert_sorted]; [by repeat constructor|].
  apply StronglySorted_inv in Hs as [Hs Hy]. destruct (less y x) eqn:E.
  - constructor; [by apply IH|]. rewrite (insert_sorted_perm less). constructor; [|done].
    destruct (less x y) eqn:E'; [|done]. pose proof (Htr _ _ _ E E') as Hc. by rewrite Hirr in Hc.
  - constructor; [by constructor|]. constructor; [done|]. eapply Forall_impl; [exact Hy|]. intros b Hb. exact (Hntr _ _ _ Hb E).
Qed.
#[global] Instance insertion_sort_laws : SliceSortLaws.
Proof.
  split; [intros; apply sort_slice_perm|]. intros A less l Hw. cbn. induction l as [|x l IH]; [constructor | by apply insert_sorted_weak].
Qed.

Definition pass_keys_run : FS (KeyState.t * KeyState.t) :=
  ksk <-- GenerateKSK (H := calm) DefaultConfig "Example" sample_now ;; zsk <-- GenerateZSK (H := calm) DefaultConfig "Example" sample_now ;; ret (ksk, zsk).
Definition pass_disk : Disk.t := (pass_keys_run empty_disk).2.
#[local] Existing Instance ZoneState.ZoneState.eta_t.
Definition pass_zone : ZoneState.t :=
  match (pass_keys_run empty_disk).1 with
  | Ok (ksk, zsk) => ((ZoneState.zero <| ZoneState.KSK := Some ksk |>) <| ZoneState.ZSK := Some zsk |>) <| ZoneState.Path := sample_path |>
  | Err _ => ZoneState.zero
  end.
Definition pass_run (o : OS) : res GoError.t ZoneState.t * Disk.t := SignZone (H := o) DefaultConfig "Example" (Some pass_zone) sample_read sample_clock pass_disk.

(** The pass goes through; killed in the middle of its writes it leaves no output. *)
Example pass_signs : match pass_run calm with (Ok z, d) => (ZoneState.PublishedSerial z, bool_decide (is_Some (Disk.nodes d !! OutputPath DefaultConfig "Example"))) | _ => (0, false) end = (2024, true).
Proof. vm_compute. reflexivity. Qed.

Lemma interrupted_pass_keeps_zone_witness : exists z' d' n res, pass_run calm = (Ok z', d') /\
  Disk.nodes d' !! OutputPath DefaultConfig "Example" = Some n /\ generation (H := calm) DefaultConfig "Example" pass_zone sample_read sample_clock res n.
Proof.
  assert (0 <= unix_seconds (SignClock.expiration_now sample_clock)) as Hnow by (vm_compute; discriminate).
  pose proof (interrupted_pass_keeps_zone calm DefaultConfig "Example" pass_zone sample_read sample_clock pass_disk Hnow) as Halw.
  unfold always in Halw. fold (pass_run calm) in Halw. destruct (pass_run calm) as [[z'|e] d'] eqn:E.
  - destruct Halw as (_ & _ & _ & n & res & warning & Hn & Hg & _). exists z', d', n, res. split; [reflexivity|]. by split.
  - exfalso. apply (f_equal (fun x => is_ok x.1)) in E. vm_compute in E. discriminate E.
Defined.

(** The second pass dies while it writes: the zone of the first stays. *)
Example killed_pass_keeps_zone :
  let d := (pass_run calm).2 in
  let r := SignZone (H := crash_at 230) DefaultConfig "Example" (Some pass_zone) sample_read sample_clock d in
  is_ok r.1 = false /\ Disk.nodes r.2 !! OutputPath DefaultConfig "Example" = Disk.nodes d !! OutputPath DefaultConfig "Example".
Proof. vm_compute. split; reflexivity. Qed.

Lemma loaded_keys_follow_phase_witness : exists keys d',
  loadKeysForSigning (H := calm) DefaultConfig "Example" pass_zone pass_disk = (Ok keys, d') /\ forall ttl, complete_keys "Example" (with_ttl ttl keys).
Proof.
  destruct (loadKeysForSigning (H := calm) DefaultConfig "Example" pass_zone pass_disk) as [[keys|e] d'] eqn:E.
  2: { exfalso. apply (f_equal (fun x => is_ok x.1)) in E. vm_compute in E. discriminate E. }
  exists keys, d'. split; [reflexivity|].
  destruct (loaded_keys_follow_phase calm DefaultConfig "Example" pass_zone pass_disk keys d' (Plan.mk [254] [253] [253]) E) as (_ & _ & Hc); [vm_compute; reflexivity|].
  apply Hc.
  - by apply (bool_decide_unpack _).
  - assert (match (loadKeysForSigning (H := calm) DefaultConfig "Example" pass_zone pass_disk).1 with
            | Ok keys => forallb (fun key => (Hdr.Class_ (DNSKEY.Hdr key) =? 1) && (DNSKEY.Protocol key =? 3)) (signingKeys.dnskeys keys)
            | Err _ => false end = true) as Hb by (vm_compute; reflexivity).
    rewrite E in Hb. intros key Hin%list_elem_of_In. apply (proj1 (forallb_forall _ _) Hb) in Hin as [Hc1%Z.eqb_eq Hc2%Z.eqb_eq]%andb_true_iff. by split.
  - vm_compute. reflexivity.
Defined.

Lemma output_is_complete_witness : exists first rest,
  sortZoneRecords "Example" (rr_at "ns.example." 1 :: sample_snapshot) = first :: rest /\ record_key first = ("example.", TypeSOA).
Proof.
  refine (proj2 (proj2 (output_is_complete "Example" (rr_at "ns.example." 1 :: sample_snapshot)))
    (RR_SOA (Hdr.mk "example." TypeSOA 1 3600) "ns.example." "admin.example." [2024; 3600; 900; 86400; 300]) _ _).
  - right. left.
  - vm_compute. reflexivity.
Defined.
