(* ===== verification/ValidateTheorems.v ===== *)
(** * ValidateTheorems: what the probes and the zone checks establish *)

From stdpp Require Import base list strings gmap pretty.
From Stdlib Require Import ZArith Lia Ascii Permutation.
From S2P Require Import Prelude GoTime Config ZoneState StateStore FileSys KeyOps Rollover RolloverSpec RolloverRefine RolloverSafety RolloverTheorems Names SampleZone Ip Egress Wire Authenticated Resolver Serial KeyMaterial ZoneModel Signatures FileSysSound KeyFiles KeyFilesSound ParentProbe Validate KeyTheorems ProbeSound SampleSign.
Local Open Scope Z_scope.

(** ** The parent's DS records *)

Section parent.
Context `{DnsLib} `{Transport} `{WireLib} `{SignLib} `{DsLib}.

Local Arguments ds_of : simpl never.

Lemma expected_ds_spec ksks tag :
  default [] (expected_ds ksks !! tag) = concat (map ds_of (List.filter (fun k => KeyTagOf k =? tag) ksks)).
Proof.
  unfold expected_ds. rewrite <- fold_left_rev_right. rewrite <- (rev_involutive ksks) at 2. generalize (rev ksks). clear ksks. intros l.
  induction l as [|k l IH]; [done|]. cbn [foldr rev].
  rewrite List.filter_app, map_app, concat_app, <- IH. cbn [List.filter].
  case_bool_decide as Hd.
  - destruct (KeyTagOf k =? tag); cbn; by rewrite ?Hd, ?app_nil_r.
  - destruct (Z.eqb_spec (KeyTagOf k) tag) as [<-|Hne].
    + rewrite lookup_insert_eq. cbn. by rewrite app_nil_r.
    + rewrite lookup_insert_ne by done. cbn. by rewrite app_nil_r.
Qed.
Lemma filter_tag_unique ksks k :
  NoDup (map KeyTagOf ksks) -> k ∈ ksks -> List.filter (fun k' => KeyTagOf k' =? KeyTagOf k) ksks = [k].
Proof.
  induction ksks as [|k0 l IH]; [set_solver|]. intros Hnd Hin. cbn. apply NoDup_cons in Hnd as [Hn Hnd].
  assert (Hnone : forall tag, tag ∉ map KeyTagOf l -> List.filter (fun k' => KeyTagOf k' =? tag) l = []).
  { clear. intros tag. induction l as [|x l IHl]; [done|]. cbn. rewrite not_elem_of_cons. intros [? ?].
    destruct (Z.eqb_spec (KeyTagOf x) tag); [congruence | by apply IHl]. }
  apply elem_of_cons in Hin as [->|Hin]; [by rewrite Z.eqb_refl, Hnone|].
  destruct (Z.eqb_spec (KeyTagOf k0) (KeyTagOf k)) as [E|_]; [|by apply IH].
  destruct Hn. rewrite E. apply list_elem_of_fmap. by exists k.
Qed.
Lemma algorithm_of_elem ksks k : NoDup (map KeyTagOf ksks) -> k ∈ ksks -> algorithm_of ksks !! KeyTagOf k = Some (DNSKEY.Algorithm k).
Proof.
  unfold algorithm_of. rewrite <- fold_left_rev_right. rewrite <- (rev_involutive ksks) at 1 2. generalize (rev ksks). clear ksks. intros l.
  rewrite map_rev. intros Hnd Hin. apply NoDup_ListNoDup, NoDup_rev in Hnd. rewrite rev_involutive in Hnd. apply NoDup_ListNoDup in Hnd.
  apply list_elem_of_In, in_rev in Hin. apply list_elem_of_In in Hin.
  induction l as [|k' l IH]; [set_solver|]. cbn. apply NoDup_cons in Hnd as [Hn Hnd].
  apply elem_of_cons in Hin as [->|Hin]; [by rewrite lookup_insert_eq|]. rewrite lookup_insert_ne; [by apply IH|].
  intros E. apply Hn. rewrite E. apply list_elem_of_fmap. by exists k.
Qed.

Lemma selects_spec tag alg ds : selects tag alg ds = true <-> DS.KeyTag ds = tag /\ DS.Algorithm ds = alg.
Proof. unfold selects. rewrite andb_true_iff, !Z.eqb_eq. done. Qed.
Lemma count_if_all {A} (p : A -> bool) l : count_if p l = length l <-> Forall (fun x => p x = true) l.
Proof.
  unfold count_if. induction l as [|x l IH]; cbn; [done|]. rewrite Forall_cons. destruct (p x); cbn.
  - rewrite <- IH. split; [intros E; split; [done | lia] | intros [_ ->]; done].
  - split; [|by intros [? _]]. pose proof (List.filter_length_le p l). lia.
Qed.
Lemma count_if_none {A} (p : A -> bool) l : count_if p l = 0%nat <-> Forall (fun x => p x = false) l.
Proof. unfold count_if. induction l as [|x l IH]; cbn; [done|]. rewrite Forall_cons. destruct (p x); cbn; [split; [done | by intros [? _]]|]. rewrite IH. split; [done | by intros [_ ?]]. Qed.

Definition ds_held (domain : string) (a : answeredServer.t) : list DS.t := ownerRecords get_ds (answeredServer.msg a) (Fqdn domain).
(** A DS record made from the key, by its tag, algorithm and a supported digest. *)
Definition ds_from (k : DNSKEY.t) (ds : DS.t) : Prop :=
  DS.KeyTag ds = KeyTagOf k /\ DS.Algorithm ds = DNSKEY.Algorithm k /\ exists exp, exp ∈ ds_of k /\ same_digest ds exp = true.
(** A DS record that selects the key at resolvers. *)
Definition ds_selects (k : DNSKEY.t) (ds : DS.t) : Prop := DS.KeyTag ds = KeyTagOf k /\ DS.Algorithm ds = DNSKEY.Algorithm k.

Lemma holds_exact_spec tag alg expected records :
  holds_exact tag alg expected records = true <->
  exists ds, ds ∈ records /\ DS.KeyTag ds = tag /\ DS.Algorithm ds = alg /\ exists exp, exp ∈ expected /\ same_digest ds exp = true.
Proof.
  unfold holds_exact. rewrite existsb_exists. split.
  - intros (ds & Hds & E). apply andb_true_iff in E as [Es E]. apply selects_spec in Es as [? ?].
    apply existsb_exists in E as (exp & He & E). exists ds. split_and!; [by apply list_elem_of_In | done | done|]. exists exp. split; [by apply list_elem_of_In | done].
  - intros (ds & Hds & Ht & Ha & exp & He & E). exists ds. split; [by apply list_elem_of_In|]. apply andb_true_iff. split; [by apply selects_spec|].
    apply existsb_exists. exists exp. split; [by apply list_elem_of_In | done].
Qed.
Lemma holds_any_false tag alg records :
  holds_any tag alg records = false <-> forall ds, ds ∈ records -> ~ (DS.KeyTag ds = tag /\ DS.Algorithm ds = alg).
Proof.
  unfold holds_any. rewrite <- not_true_iff_false, existsb_exists. split.
  - intros Hn ds Hds Hs. apply Hn. exists ds. split; [by apply list_elem_of_In | by apply selects_spec].
  - intros Hall (ds & Hds & Hs). apply list_elem_of_In in Hds. apply selects_spec in Hs. by eapply Hall.
Qed.

Lemma max_ds_ttl_bound records ds : ds ∈ records -> Hdr.Ttl (DS.Hdr ds) <= max_ds_ttl records.
Proof.
  unfold max_ds_ttl. generalize 0.
  assert (Hmono : forall l acc, acc <= fold_left (fun acc ds => if acc <? Hdr.Ttl (DS.Hdr ds) then Hdr.Ttl (DS.Hdr ds) else acc) l acc).
  { induction l as [|x l IH]; intros acc; cbn; [done|]. etrans; [|apply IH]. destruct (Z.ltb_spec acc (Hdr.Ttl (DS.Hdr x))); lia. }
  induction records as [|x l IH]; intros acc Hin; [set_solver|]. cbn. apply elem_of_cons in Hin as [->|Hin]; [|by apply IH].
  etrans; [|apply Hmono]. destruct (Z.ltb_spec acc (Hdr.Ttl (DS.Hdr x))); lia.
Qed.

Lemma observe_verdicts targets ksks domain answers skipped k :
  NoDup (map KeyTagOf ksks) -> k ∈ ksks -> answers <> [] ->
  let obs := observe targets ksks (Fqdn domain) answers skipped in
  (Observation.PresentOnAll obs !! KeyTagOf k = Some true <-> forall a, a ∈ answers -> exists ds, ds ∈ ds_held domain a /\ ds_from k ds) /\
  (Observation.AbsentOnAll obs !! KeyTagOf k = Some true <-> forall a ds, a ∈ answers -> ds ∈ ds_held domain a -> ~ ds_selects k ds).
Proof.
  intros Hnd Hk Hne. cbn. rewrite !map_lookup_imap, (algorithm_of_elem ksks k Hnd Hk). cbn.
  rewrite expected_ds_spec, (filter_tag_unique ksks k Hnd Hk). cbn. rewrite app_nil_r.
  set (held := map (fun a => ownerRecords get_ds (answeredServer.msg a) (Fqdn domain)) answers).
  assert (Hlen : length answers = length held) by (unfold held; by rewrite length_map). rewrite Hlen.
  split.
  - transitivity (ds_of k <> [] /\ Forall (fun l => holds_exact (KeyTagOf k) (DNSKEY.Algorithm k) (ds_of k) l = true) held).
    { rewrite <- count_if_all. split; [intros [= E]; apply andb_true_iff in E as [E1 E2] | intros [E1 E2]; f_equal; apply andb_true_iff].
      - apply negb_true_iff, bool_decide_eq_false in E1. by apply Nat.eqb_eq in E2.
      - by rewrite negb_true_iff, bool_decide_eq_false, Nat.eqb_eq. }
    unfold held. rewrite Forall_map, Forall_forall. setoid_rewrite holds_exact_spec. unfold ds_from, ds_held. split; [naive_solver|].
    intros Hall. split; [|naive_solver]. destruct answers as [|a l]; [done|]. destruct (Hall a ltac:(set_solver)) as (ds & _ & _ & _ & exp & Hexp & _).
    intros E. rewrite E in Hexp. set_solver.
  - transitivity (Forall (fun l => holds_any (KeyTagOf k) (DNSKEY.Algorithm k) l = false) held).
    { rewrite <- count_if_none. split; [intros [= E]; by apply Nat.eqb_eq | intros ->; done]. }
    unfold held. rewrite Forall_map, Forall_forall. setoid_rewrite holds_any_false. unfold ds_selects, ds_held. naive_solver.
Qed.

Lemma full_view_answers lo hi qname qtype targets answers skipped :
  targets <> [] -> full_view lo hi qname qtype targets answers skipped -> answers <> [].
Proof. destruct targets as [|t ts]; [done|]. intros _ (_ & _ & Hcov) ->. destruct (Hcov t ltac:(set_solver)) as [(a & _ & Ha) _]. set_solver. Qed.

Lemma parent_view domain ksks n obs n' :
  ProbeParentDS domain ksks n = (Ok obs, n') -> NoDup (map KeyTagOf (omap id ksks)) ->
  exists targets answers,
    delegation resolverQuery n n' (Fqdn (findParentZone domain)) targets /\
    full_view n n' (Fqdn domain) TypeDS targets answers (Observation.Skipped obs) /\
    Observation.Servers obs = map answeredServer.server answers /\
    (forall a ds, a ∈ answers -> ds ∈ ds_held domain a -> Hdr.Ttl (DS.Hdr ds) <= Observation.TTL obs) /\
    forall k, Some k ∈ ksks ->
      (Observation.PresentOnAll obs !! KeyTagOf k = Some true <-> forall a, a ∈ answers -> exists ds, ds ∈ ds_held domain a /\ ds_from k ds) /\
      (Observation.AbsentOnAll obs !! KeyTagOf k = Some true <-> forall a ds, a ∈ answers -> ds ∈ ds_held domain a -> ~ ds_selects k ds).
Proof.
  intros Hrun Hnd. apply bind_ok in Hrun as (targets & n1 & Hd & Hrun).
  pose proof (discoverNSWith_run resolverQuery (resolver_grows false) (findParentZone domain) n) as Hdisc.
  unfold discoverNS in Hd. rewrite Hd in Hdisc. destruct Hdisc as [Hn1 Hdisc]. specialize (Hdisc _ eq_refl).
  cbv zeta in Hrun. apply bind_ok in Hrun as (probed & n2 & Hp & Hrun). destruct probed as [[answers skipped]|e]; [|done].
  injection Hrun as <- <-. apply probeIdentities_ok in Hp as [Hn2 Hv]; [|by eapply delegation_names].
  assert (Hd' : delegation resolverQuery n n2 (Fqdn (findParentZone domain)) targets) by (eapply delegation_within; [exact Hdisc | done | done]).
  exists targets, answers. split_and!; [done | by eapply full_view_within | done | |].
  - intros a ds Ha Hds. apply max_ds_ttl_bound. apply list_elem_of_In, in_concat. exists (ds_held domain a).
    split; [|by apply list_elem_of_In]. apply (in_map (fun a => ownerRecords get_ds (answeredServer.msg a) (Fqdn domain))). by apply list_elem_of_In.
  - intros k Hk. apply observe_verdicts; [done | |].
    + apply list_elem_of_omap. by exists (Some k).
    + eapply full_view_answers; [|exact Hv]. by destruct Hdisc as (_ & _ & _ & _ & _ & _ & _ & ? & _).
Qed.


(** ** The published serial *)

Lemma serial_served_spec qname serial answers :
  serial_served qname serial answers = None <-> forall a, a ∈ answers -> last (ownerRecords get_serial (answeredServer.msg a) qname) = Some serial.
Proof.
  induction answers as [|a l IH]; cbn [serial_served]; [set_solver|].
  destruct (last (ownerRecords get_serial (answeredServer.msg a) qname)) as [served|] eqn:E.
  - destruct (Z.eqb_spec served serial) as [->|Hne]; cbn [negb].
    + rewrite IH. split; [intros Hall x Hx; apply elem_of_cons in Hx as [->|Hx]; auto | intros Hall x Hx; apply Hall; set_solver].
    + split; [done|]. intros Hall. specialize (Hall a ltac:(set_solver)). congruence.
  - split; [done|]. intros Hall. specialize (Hall a ltac:(set_solver)). congruence.
Qed.

(** C21: A generation is confirmed as served only when every nameserver of the zone gave
    an authoritative SOA answer from one of its addresses, the addresses left out being
    without a local route, and every one of those answers carries the published serial. *)
Theorem confirmed_serial_is_served_everywhere domain serial n details n' :
  ProbePublishedSerial domain serial n = (Ok (true, details), n') ->
  exists targets answers skipped,
    delegation resolverQuery n n' (Fqdn (Fqdn domain)) targets /\ answers <> [] /\
    full_view n n' (Fqdn domain) TypeSOA targets answers skipped /\
    forall a, a ∈ answers -> last (ownerRecords get_serial (answeredServer.msg a) (Fqdn domain)) = Some serial.
Proof.
  intros Hrun. unfold ProbePublishedSerial in Hrun. cbv zeta in Hrun. apply bind_ok in Hrun as (targets & n1 & Hd & Hrun).
  pose proof (discoverNSWith_run resolverQuery (resolver_grows false) (Fqdn domain) n) as Hdisc.
  unfold discoverNS in Hd. rewrite Hd in Hdisc. destruct Hdisc as [Hn1 Hdisc]. specialize (Hdisc _ eq_refl).
  apply bind_ok in Hrun as (probed & n2 & Hp & Hrun). destruct probed as [[answers skipped]|e]; [|done].
  apply probeIdentities_ok in Hp as [Hn2 Hv]; [|by eapply delegation_names].
  destruct (serial_served (Fqdn domain) serial answers) as [text|] eqn:E; [done|]. injection Hrun as _ <-.
  exists targets, answers, skipped. split_and!.
  - eapply delegation_within; [exact Hdisc | done | done].
  - eapply full_view_answers; [|exact Hv]. by destruct Hdisc as (_ & _ & _ & _ & _ & _ & _ & ? & _).
  - by eapply full_view_within.
  - by apply serial_served_spec.
Qed.
End parent.

(** ** Signatures over a served RRset *)

Section signatures.
Context `{DnsLib} `{WireLib} `{SignLib}.

(** A signature over the RRset that names one of the keys, and what becomes of it. *)
Definition counted (answer : list RR) (covered : Z) (keys : list DNSKEY.t) (sig : RRSIG.t) (key : DNSKEY.t) : Prop :=
  RR_RRSIG sig ∈ answer /\ expected_key keys sig = Some key /\
  exists first rest, served_rrset answer covered = first :: rest /\ covers covered (CanonicalName (rr_name first)) sig = true.
Definition verifies (answer : list RR) (covered : Z) (keys : list DNSKEY.t) (now : Time) (sig : RRSIG.t) : Prop :=
  exists key, counted answer covered keys sig key /\ ValidityPeriod sig now = true /\ VerifyRRSIG sig key (served_rrset answer covered) = None.

Section over.
Context (covered : Z) (owner : string) (rrset : list RR) (keys : list DNSKEY.t) (now : Time).

(** What one record of the answer is to the evaluation. *)
Inductive sig_class := NotCounted | OutOfWindow | NotVerifying | Verifying (exp : Time).
Definition classify (rr : RR) : sig_class :=
  match rr with
  | RR_RRSIG sig =>
      if negb (covers covered owner sig) then NotCounted
      else match expected_key keys sig with
           | None => NotCounted
           | Some key =>
               if negb (ValidityPeriod sig now) then OutOfWindow
               else match VerifyRRSIG sig key rrset with Some _ => NotVerifying | None => Verifying (unix_time (RRSIG.Expiration sig)) end
           end
  | _ => NotCounted
  end.

Lemma eval_sigs_step rr answer e :
  rrsigEval.valid e = false ->
  match classify rr with
  | NotCounted => eval_sigs covered owner rrset keys now (rr :: answer) e = eval_sigs covered owner rrset keys now answer e
  | OutOfWindow => exists e1, eval_sigs covered owner rrset keys now (rr :: answer) e = eval_sigs covered owner rrset keys now answer e1 /\
      rrsigEval.valid e1 = false /\ rrsigEval.present e1 = true /\ rrsigEval.expired e1 = true /\ rrsigEval.broken e1 = rrsigEval.broken e
  | NotVerifying => exists e1, eval_sigs covered owner rrset keys now (rr :: answer) e = eval_sigs covered owner rrset keys now answer e1 /\
      rrsigEval.valid e1 = false /\ rrsigEval.present e1 = true /\ rrsigEval.expired e1 = rrsigEval.expired e /\ rrsigEval.broken e1 = true
  | Verifying exp => eval_sigs covered owner rrset keys now (rr :: answer) e = rrsigEval.mk true true false false exp 0
  end.
Proof.
  intros Hv. destruct rr as [sig|v|v|v|v|v|h ns|h ip|h ip|h t|h t|h t|?|?|?|?|?]; try done. cbn [classify eval_sigs]. destruct (negb (covers covered owner sig)); [done|].
  destruct (expected_key keys sig) as [key|]; [|done]. destruct (negb (ValidityPeriod sig now)).
  - destruct e as [p v x b ve ee]; cbn in *. subst v. cbn. eexists. split; [reflexivity|]. by destruct (IsZero ee || Before _ ee).
  - destruct e as [p v x b ve ee]; cbn in *. subst v. destruct (VerifyRRSIG sig key rrset); cbn; [|done]. eexists. split; [reflexivity | done].
Qed.

(** The evaluation tells whether some signature verifies; and only when none does,
    whether some does not verify and whether some is out of its window. *)
Definition summed (answer : list RR) (e e' : rrsigEval.t) : Prop :=
  (rrsigEval.present e' = true <-> rrsigEval.present e = true \/ exists rr, rr ∈ answer /\ classify rr <> NotCounted) /\
  if rrsigEval.valid e' then
    rrsigEval.broken e' = false /\ rrsigEval.expired e' = false /\ exists rr, rr ∈ answer /\ classify rr = Verifying (rrsigEval.validExp e')
  else
    (forall rr exp, rr ∈ answer -> classify rr <> Verifying exp) /\
    (rrsigEval.broken e' = true <-> rrsigEval.broken e = true \/ exists rr, rr ∈ answer /\ classify rr = NotVerifying) /\
    (rrsigEval.expired e' = true <-> rrsigEval.expired e = true \/ exists rr, rr ∈ answer /\ classify rr = OutOfWindow).

Lemma exists_cons (rr : RR) answer (P : RR -> Prop) : (exists x, x ∈ rr :: answer /\ P x) <-> P rr \/ exists x, x ∈ answer /\ P x.
Proof. split; [intros (x & Hx & ?); apply elem_of_cons in Hx as [->|?]; eauto | intros [?|(x & ? & ?)]; eexists; (split; [|eassumption]); set_solver]. Qed.

Lemma summed_cons rr answer e e1 e' :
  summed answer e1 e' -> (forall exp, classify rr <> Verifying exp) ->
  (rrsigEval.present e1 = true <-> rrsigEval.present e = true \/ classify rr <> NotCounted) ->
  (rrsigEval.broken e1 = true <-> rrsigEval.broken e = true \/ classify rr = NotVerifying) ->
  (rrsigEval.expired e1 = true <-> rrsigEval.expired e = true \/ classify rr = OutOfWindow) -> summed (rr :: answer) e e'.
Proof.
  unfold summed. intros [Hp Hrest] Hn Hpe Hbe Hxe. split; [rewrite exists_cons, Hp, Hpe; tauto|]. destruct (rrsigEval.valid e').
  - destruct Hrest as (? & ? & x & Hx & ?). split_and!; [done..|]. apply exists_cons. eauto.
  - destruct Hrest as (Hnot & Hb & Hx). split; [|rewrite !exists_cons, Hb, Hx, Hbe, Hxe; tauto].
    intros x exp Hin. apply elem_of_cons in Hin as [->|?]; [apply Hn | by apply Hnot].
Qed.
Lemma eval_sigs_spec answer e : rrsigEval.valid e = false -> summed answer e (eval_sigs covered owner rrset keys now answer e).
Proof.
  revert e. induction answer as [|rr answer IH]; intros e Hv.
  { assert (Hnil : forall (P : Prop) (R : RR -> Prop), P <-> P \/ exists rr, rr ∈ [] /\ R rr).
    { intros P R. split; [by left | intros [?|(? & Hin & _)]; [done | set_solver]]. }
    unfold summed. cbn [eval_sigs]. rewrite Hv. split; [apply Hnil|]. split; [intros ??; set_solver|]. split; apply Hnil. }
  pose proof (eval_sigs_step rr answer e Hv) as Hs. destruct (classify rr) as [| | |exp] eqn:Ec.
  - rewrite Hs. eapply summed_cons; [by apply IH|..]; rewrite Ec; naive_solver.
  - destruct Hs as (e1 & -> & Hv1 & Hp1 & Hx1 & Hb1). eapply summed_cons; [by apply IH|..]; rewrite ?Ec, ?Hp1, ?Hx1, ?Hb1; naive_solver.
  - destruct Hs as (e1 & -> & Hv1 & Hp1 & Hx1 & Hb1). eapply summed_cons; [by apply IH|..]; rewrite ?Ec, ?Hp1, ?Hx1, ?Hb1; naive_solver.
  - rewrite Hs. unfold summed. cbn. split; [|split_and!; [done..|]; apply exists_cons; by left].
    split; [|done]. intros _. right. apply exists_cons. left. congruence.
Qed.
End over.

Lemma classify_counted answer covered keys now first rest rr :
  served_rrset answer covered = first :: rest -> rr ∈ answer ->
  match classify covered (CanonicalName (rr_name first)) (first :: rest) keys now rr with
  | NotCounted => forall sig key, rr = RR_RRSIG sig -> ~ counted answer covered keys sig key
  | OutOfWindow => exists sig key, rr = RR_RRSIG sig /\ counted answer covered keys sig key /\ ValidityPeriod sig now = false
  | NotVerifying => exists sig key, rr = RR_RRSIG sig /\ counted answer covered keys sig key /\ ValidityPeriod sig now = true /\
      VerifyRRSIG sig key (served_rrset answer covered) <> None
  | Verifying exp => exists sig, rr = RR_RRSIG sig /\ verifies answer covered keys now sig /\ exp = unix_time (RRSIG.Expiration sig)
  end.
Proof.
  intros Hr Hin. destruct rr as [sig|v|v|v|v|v|h ns|h ip|h ip|h t|h t|h t|?|?|?|?|?]; try done. cbn [classify].
  destruct (covers covered (CanonicalName (rr_name first)) sig) eqn:Ec; cbn [negb].
  2:{ intros ? key [= <-] (_ & _ & f & r & Hr' & Hc). rewrite Hr in Hr'. injection Hr' as <- <-. congruence. }
  destruct (expected_key keys sig) as [key|] eqn:Ek; [|intros ? key [= <-] (_ & Hk & _); congruence].
  assert (Hcount : counted answer covered keys sig key) by (split_and!; [done | done | by exists first, rest]).
  destruct (ValidityPeriod sig now) eqn:Ep; cbn [negb]; [|by exists sig, key].
  destruct (VerifyRRSIG sig key (first :: rest)) eqn:Ever.
  - exists sig, key. split_and!; [done..|]. rewrite Hr. congruence.
  - exists sig. split_and!; [done| |done]. exists key. split_and!; [done | done | by rewrite Hr].
Qed.

Lemma rrsig_cover_spec answer covered keys now :
  let e := evalRRSIGCover answer covered keys now in
  (rrsigEval.valid e = true <-> exists sig, verifies answer covered keys now sig) /\
  (rrsigEval.valid e = true -> exists sig, verifies answer covered keys now sig /\ rrsigEval.validExp e = unix_time (RRSIG.Expiration sig)) /\
  (rrsigEval.broken e = true <-> ~ (exists sig, verifies answer covered keys now sig) /\
     exists sig key, counted answer covered keys sig key /\ ValidityPeriod sig now = true) /\
  (rrsigEval.expired e = true <-> ~ (exists sig, verifies answer covered keys now sig) /\
     exists sig key, counted answer covered keys sig key /\ ValidityPeriod sig now = false).
Proof.
  cbn zeta. unfold evalRRSIGCover. destruct (served_rrset answer covered) as [|first rest] eqn:Hr.
  { assert (Hno : forall sig key, ~ counted answer covered keys sig key) by (intros ? ? (_ & _ & ? & ? & E & _); congruence). cbn.
    split_and!; (split; [done|]) || done.
    - intros (sig & key & Hc & _). by apply Hno in Hc.
    - intros (_ & sig & key & Hc & _). by apply Hno in Hc.
    - intros (_ & sig & key & Hc & _). by apply Hno in Hc. }
  set (owner := CanonicalName (rr_name first)).
  pose proof (eval_sigs_spec covered owner (first :: rest) keys now answer no_eval eq_refl) as [_ Hs].
  pose proof (fun rr => classify_counted answer covered keys now first rest rr Hr) as Hc. fold owner in Hc.
  set (e := eval_sigs covered owner (first :: rest) keys now answer no_eval) in *.
  assert (Hin : forall sig key, counted answer covered keys sig key -> RR_RRSIG sig ∈ answer) by (by intros ? ? (? & _)).
  destruct (rrsigEval.valid e) eqn:Ev.
  - destruct Hs as (Hb & Hx & rr & Hrr & Hcl). pose proof (Hc rr Hrr) as Hcr. rewrite Hcl in Hcr. destruct Hcr as (sig & -> & Hver & Hexp).
        rewrite Hb, Hx. split_and!; [split; eauto | eauto | split; [done | intros [Hn _]; destruct Hn; eauto].. ].
  - destruct Hs as (Hn & Hb & Hx).
    assert (Hnone : ~ exists sig, verifies answer covered keys now sig).
    { intros (sig & key & Hcount & Hp & Hver). pose proof (Hc _ (Hin _ _ Hcount)) as Hcr. pose proof (Hn (RR_RRSIG sig)) as Hns.
      destruct Hcount as (Hi & Hk & f & r & Hr' & Hcov). rewrite Hr in Hr'. injection Hr' as <- <-.
      apply (Hns (unix_time (RRSIG.Expiration sig)) Hi). cbn [classify]. fold owner in Hcov. by rewrite Hcov, Hk, Hp, <- Hr, Hver. }
    split; [split; [done | intros ?; by destruct Hnone]|]. split; [done|]. split.
    + rewrite Hb. split; [intros [?|(rr & Hrr & Hcl)]; [done|] | intros [_ (sig & key & Hcount & Hp)]; right].
      * pose proof (Hc rr Hrr) as Hcr. rewrite Hcl in Hcr. destruct Hcr as (sig & key & _ & ? & ? & _). eauto.
      * exists (RR_RRSIG sig). split; [by eapply Hin|]. pose proof (Hc _ (Hin _ _ Hcount)) as Hcr.
        destruct (classify covered owner (first :: rest) keys now (RR_RRSIG sig)) eqn:Ecl; [by destruct (Hcr _ key eq_refl) | | done |].
        -- destruct Hcr as (? & ? & [= <-] & _ & ?). congruence.
        -- by destruct (Hn _ exp (Hin _ _ Hcount)).
    + rewrite Hx. split; [intros [?|(rr & Hrr & Hcl)]; [done|] | intros [_ (sig & key & Hcount & Hp)]; right].
      * pose proof (Hc rr Hrr) as Hcr. rewrite Hcl in Hcr. destruct Hcr as (sig & key & _ & ? & ?). eauto.
      * exists (RR_RRSIG sig). split; [by eapply Hin|]. pose proof (Hc _ (Hin _ _ Hcount)) as Hcr.
        destruct (classify covered owner (first :: rest) keys now (RR_RRSIG sig)) eqn:Ecl; [by destruct (Hcr _ key eq_refl) | done | |].
        -- destruct Hcr as (? & ? & [= <-] & _ & ? & _). congruence.
        -- by destruct (Hn _ exp (Hin _ _ Hcount)).
Qed.
Lemma rrsig_cover_facts answer covered keys now :
  let e := evalRRSIGCover answer covered keys now in
  (rrsigEval.valid e = true <-> exists sig, verifies answer covered keys now sig) /\
  (rrsigEval.valid e = true -> exists sig, verifies answer covered keys now sig /\ rrsigEval.validExp e = unix_time (RRSIG.Expiration sig)) /\
  (rrsigEval.valid e = true -> rrsigEval.broken e = false /\ rrsigEval.expired e = false).
Proof.
  destruct (rrsig_cover_spec answer covered keys now) as (Hv & He & Hb & Hx). split; [done|]. split; [done|].
  intros V. apply Hv in V. split; apply not_true_iff_false; intros E; [apply Hb in E as [E _] | apply Hx in E as [E _]]; by apply E.
Qed.

End signatures.

(** ** One zone *)

Section zone.
Context `{DnsLib} `{Transport} `{WireLib} `{SignLib} `{DsLib}.

Lemma one_exchange_grows tcp server q n : (n <= (one_exchange tcp server q n).2)%nat.
Proof. cbn. lia. Qed.
Lemma lookup_address_run name qtype n : exists r n', lookup_address name qtype n = (Ok r, n') /\ (n <= n')%nat.
Proof. unfold lookup_address. rewrite bind_catch. cbn. eexists _, _. split; [done | lia]. Qed.
Lemma first_resolved_run names extra n : exists r n', first_resolved names extra n = (Ok r, n') /\ (n <= n')%nat.
Proof.
  revert n. induction names as [|name names IH]; intros n; cbn [first_resolved]; [by eexists _, _|].
  destruct (glue_address name extra); [by eexists _, _|]. unfold bind.
  destruct (lookup_address_run name TypeA n) as (v4 & n1 & -> & ?). destruct v4; [by eexists _, _|].
  destruct (lookup_address_run name TypeAAAA n1) as (v6 & n2 & -> & ?). destruct v6; [eexists _, _; split; [done | lia]|].
  destruct (IH n2) as (r & n3 & -> & ?). eexists _, _. split; [done | lia].
Qed.
Lemma resolveNS_grows zone n : (n <= (resolveNS zone n).2)%nat.
Proof.
  unfold resolveNS, bind, wrapping, one_exchange. destruct (Exchange n false resolverAddr (recursive_query zone TypeNS)) as [r|e]; [|cbn; lia].
  cbn zeta. set (names := match ns_targets (Msg.Answer (Reply.msg r)) with [] => _ | _ => _ end). destruct names as [|name l]; [cbn; lia|].
  destruct (first_resolved_run (name :: l) (Msg.Extra (Reply.msg r)) (S n)) as (x & n' & -> & ?). destruct x; cbn; lia.
Qed.

(** What one server of a zone answered authoritatively, when the query succeeded. *)
Definition seen (lo hi : nat) (qname : string) (qtype : Z) (o : option Msg.t) : Prop :=
  match o with
  | Some msg => exists server, answered lo hi server (direct_query qname qtype) msg /\ authoritative msg
  | None => True
  end.
Lemma seen_within lo hi lo' hi' qname qtype o : seen lo hi qname qtype o -> (lo' <= lo)%nat -> (hi <= hi')%nat -> seen lo' hi' qname qtype o.
Proof. destruct o; [|done]. intros (server & ? & ?) ??. exists server. split; [by eapply answered_within | done]. Qed.
Lemma queryDirect_seen server qname qtype n msg n' :
  queryDirect server qname qtype n = (Ok msg, n') -> (n <= n')%nat /\ seen n n' qname qtype (Some msg).
Proof. intros Hq. pose proof (queryDirect_run server qname qtype n) as Hr. rewrite Hq in Hr. destruct Hr as [? Hr]. split; [lia|]. exists server. by apply Hr. Qed.
Lemma queryDirect_grows server qname qtype n : (n <= (queryDirect server qname qtype n).2)%nat.
Proof. pose proof (queryDirect_run server qname qtype n) as Hr. destruct (queryDirect server qname qtype n). cbn. lia. Qed.

(** *** The parent's DS *)

Definition ds_matching (records : list DS.t) (ksks : list DNSKEY.t) : Prop :=
  exists ds exp, ds ∈ records /\ exp ∈ concat (map ds_of ksks) /\ same_ds ds exp = true.
Lemma matched_tag_spec records expected :
  let P := exists ds exp, ds ∈ records /\ exp ∈ expected /\ same_ds ds exp = true in
  match matched_tag records expected with Some _ => P | None => ~ P end.
Proof.
  cbn zeta. unfold matched_tag. induction records as [|ds l IH]; cbn; [intros (? & ? & ? & _); set_solver|].
  destruct (List.find (same_ds ds) expected) as [exp|] eqn:Ef; cbn.
  - apply List.find_some in Ef as [Hin Hs]. apply list_elem_of_In in Hin. exists ds, exp. split_and!; [set_solver | done..].
  - assert (Hno : forall exp, exp ∈ expected -> same_ds ds exp = true -> False).
    { intros exp Hexp Hs. apply list_elem_of_In in Hexp. pose proof (List.find_none _ _ Ef _ Hexp). congruence. }
    destruct (head _); [destruct IH as (d & exp & ? & ? & ?); exists d, exp; split_and!; [set_solver | done..]|].
    intros (d & exp & Hd & ? & ?). apply elem_of_cons in Hd as [->|Hd]; [eauto|]. apply IH. eauto.
Qed.

Definition no_local_ds (ksks : list DNSKEY.t) : Prop := concat (map ds_of ksks) = [].
Lemma evaluateDSMatch_spec result records ksks unloadable :
  DSCheckResult.MatchesKSK result = false ->
  let r := evaluateDSMatch result records ksks unloadable in
  (DSCheckResult.Found r = true <-> records <> []) /\
  (DSCheckResult.Status r = "pass" <-> records <> [] /\ (ds_matching records ksks \/ no_local_ds ksks /\ unloadable = false)) /\
  (DSCheckResult.Found r = true -> DSCheckResult.Status r = "fail" <-> ~ no_local_ds ksks /\ ~ ds_matching records ksks) /\
  (DSCheckResult.MatchesKSK r = true -> DSCheckResult.Status r = "pass").
Proof.
  intros Hm. unfold evaluateDSMatch, ds_matching, no_local_ds. destruct result as [st f m ns recs exps d]. cbn in Hm. subst m. cbn zeta. set (expected := concat (map ds_of ksks)).
  destruct records as [|ds l]; [cbn; naive_solver|].
  destruct expected as [|exp expected'] eqn:Ee.
  - assert (Hno : ~ exists ds0 exp, ds0 ∈ ds :: l /\ exp ∈ ([] : list DS.t) /\ same_ds ds0 exp = true) by (intros (? & ? & _ & ? & _); set_solver).
    destruct unloadable; cbn; naive_solver.
  - pose proof (matched_tag_spec (ds :: l) (exp :: expected')) as Hs. destruct (matched_tag (ds :: l) (exp :: expected')) as [tag|]; cbn zeta in Hs; cbn; naive_solver.
Qed.

(** *** The four checks, by what the server answered *)

Lemma CheckDSAtParent_run domain ksks unloadable n : exists r n' o,
  CheckDSAtParent domain ksks unloadable n = (Ok r, n') /\ (n <= n')%nat /\ seen n n' (Fqdn domain) TypeDS o /\
  match o with
  | Some msg => exists r0, DSCheckResult.MatchesKSK r0 = false /\ r = evaluateDSMatch r0 (omap get_ds (Msg.Answer msg)) ksks unloadable
  | None => DSCheckResult.Status r = "error" /\ DSCheckResult.Found r = false
  end.
Proof.
  unfold CheckDSAtParent. cbv zeta. rewrite bind_catch. pose proof (resolveNS_grows (findParentZone domain) n) as Hn.
  destruct (resolveNS (findParentZone domain) n) as [[ns|err] n1]; cbn [fst snd] in *; [|by eexists _, _, None].
  rewrite bind_catch. pose proof (queryDirect_grows ns (Fqdn domain) TypeDS n1) as Hq.
  destruct (queryDirect ns (Fqdn domain) TypeDS n1) as [[msg|err] n2] eqn:Eq; cbn [fst snd] in *; [|eexists _, _, None; split_and!; [done | lia | done..]].
  apply queryDirect_seen in Eq as [? Hs]. eexists _, _, (Some msg). split_and!; [done | lia | by eapply seen_within|].
  eexists. split; [|reflexivity]. done.
Qed.

(** Some served key is the local one. *)
Definition publishes (msg : Msg.t) (local : option DNSKEY.t) (tag : Z) : Prop :=
  exists key, key ∈ omap get_dnskey (Msg.Answer msg) /\ is_local local tag key = true.
Lemma judge_served_spec result kskTag zskTag localKSK localZSK msg :
  let r := judge_served result kskTag zskTag localKSK localZSK (omap get_dnskey (Msg.Answer msg)) in
  (DNSKEYCheckResult.Status r = "pass" <-> publishes msg localKSK kskTag /\ publishes msg localZSK zskTag) /\
  (DNSKEYCheckResult.Status r = "fail" <-> ~ publishes msg localKSK kskTag /\ ~ publishes msg localZSK zskTag) /\
  DNSKEYCheckResult.Status r <> "error".
Proof.
  assert (Hp : forall local tag, publishes msg local tag <-> existsb (is_local local tag) (omap get_dnskey (Msg.Answer msg)) = true).
  { intros local tag. unfold publishes. rewrite existsb_exists. by setoid_rewrite list_elem_of_In. }
  cbn zeta. rewrite (Hp localKSK), (Hp localZSK). clear Hp. unfold judge_served. set (served := omap get_dnskey (Msg.Answer msg)). cbn zeta.
  destruct served as [|key l] eqn:E; [cbn; naive_solver|]. rewrite <- E.
  destruct (existsb (is_local localKSK kskTag) served), (existsb (is_local localZSK zskTag) served); cbn; naive_solver.
Qed.
Lemma checkDNSKEYVisible_run domain kskTag zskTag ksk zsk n : exists r n' o,
  checkDNSKEYVisible domain kskTag zskTag ksk zsk n = (Ok r, n') /\ (n <= n')%nat /\ seen n n' (Fqdn domain) TypeDNSKEY o /\
  match o with
  | Some msg => exists r0, r = judge_served r0 kskTag zskTag ksk zsk (omap get_dnskey (Msg.Answer msg))
  | None => DNSKEYCheckResult.Status r = "error"
  end.
Proof.
  unfold checkDNSKEYVisible. cbv zeta. rewrite bind_catch. pose proof (resolveNS_grows (Fqdn domain) n) as Hn.
  destruct (resolveNS (Fqdn domain) n) as [[ns|err] n1]; cbn [fst snd] in *; [|by eexists _, _, None].
  rewrite bind_catch. pose proof (queryDirect_grows ns (Fqdn domain) TypeDNSKEY n1) as Hq.
  destruct (queryDirect ns (Fqdn domain) TypeDNSKEY n1) as [[msg|err] n2] eqn:Eq; cbn [fst snd] in *; [|eexists _, _, None; split_and!; [done | lia | done..]].
  apply queryDirect_seen in Eq as [? Hs]. eexists _, _, (Some msg). split_and!; [done | lia | by eapply seen_within|]. by eexists.
Qed.

(** Some signature over the served RRset verifies under the keys of the role. *)
Definition signed (msg : Msg.t) (covered : Z) (keys : list DNSKEY.t) (now : Time) (sig : RRSIG.t) : Prop := verifies (Msg.Answer msg) covered keys now sig.
(** The keys a role's signatures are held against: without local ones, the served ones. *)
Definition role_keys (keys : list DNSKEY.t) (dnskeyMsg : Msg.t) : list DNSKEY.t :=
  match keys with [] => omap get_dnskey (Msg.Answer dnskeyMsg) | _ => keys end.
Definition left_after (refresh : Duration) (now : Time) (sig : RRSIG.t) : Prop :=
  0 < refresh -> 0 <= RRSIG.Expiration sig -> refresh <= TSub (unix_time (RRSIG.Expiration sig)) now.

Lemma sooner_le a b t : (t = a \/ t = b) -> t <> 0 -> sooner a b <> 0 /\ sooner a b <= t.
Proof. unfold sooner, IsZero, Before. intros Ht Hz. destruct (Z.eqb_spec a 0), (Z.eqb_spec b 0), (Z.ltb_spec b a); cbn; lia. Qed.
Lemma unix_time_nonzero s : 0 <= s -> unix_time s <> 0.
Proof. unfold unix_time. change Second with 1000000000. lia. Qed.

Lemma judge_signatures_spec refresh now soaMsg dnskeyMsg zsks ksks :
  let soa := evalRRSIGCover (Msg.Answer soaMsg) TypeSOA zsks now in
  let dnskey := evalRRSIGCover (Msg.Answer dnskeyMsg) TypeDNSKEY ksks now in
  let r := judge_signatures refresh now soa dnskey in
  let both := (exists s, signed soaMsg TypeSOA zsks now s) /\ (exists d, signed dnskeyMsg TypeDNSKEY ksks now d) in
  (RRSIGCheckResult.Status r = "pass" -> exists s d, signed soaMsg TypeSOA zsks now s /\ signed dnskeyMsg TypeDNSKEY ksks now d /\
     left_after refresh now s /\ left_after refresh now d) /\
  (RRSIGCheckResult.Status r = "fail" \/ RRSIGCheckResult.Broken r = true <-> ~ both) /\
  RRSIGCheckResult.Status r <> "error".
Proof.
  destruct (rrsig_cover_facts (Msg.Answer soaMsg) TypeSOA zsks now) as (Hv1 & He1 & Hb1).
  destruct (rrsig_cover_facts (Msg.Answer dnskeyMsg) TypeDNSKEY ksks now) as (Hv2 & He2 & Hb2). cbn zeta. unfold signed.
  set (soa := evalRRSIGCover (Msg.Answer soaMsg) TypeSOA zsks now) in *. set (dnskey := evalRRSIGCover (Msg.Answer dnskeyMsg) TypeDNSKEY ksks now) in *.
  rewrite <- Hv1, <- Hv2. unfold judge_signatures.
  destruct (rrsigEval.valid soa) eqn:V1, (rrsigEval.valid dnskey) eqn:V2.
  - destruct (Hb1 eq_refl) as [-> ->], (Hb2 eq_refl) as [-> ->]. cbn [orb andb negb].
    destruct (He1 eq_refl) as (s & Hs & Es), (He2 eq_refl) as (d & Hd & Ed).
    destruct (_ && _ && _) eqn:Em; cbn; (split; [|naive_solver]); [done|]. intros _. exists s, d. split_and!; [done | done | |].
    all: intros Hr Hpos; apply andb_false_iff in Em; rewrite andb_false_iff in Em;
      apply unix_time_nonzero in Hpos; rewrite <- ?Es, <- ?Ed in *;
      match goal with Hz : ?t <> 0 |- _ => destruct (sooner_le (rrsigEval.validExp soa) (rrsigEval.validExp dnskey) t ltac:(by (left + right)) Hz) as [Hsn Hle] end;
      destruct Em as [[Em|Em]|Em]; [apply Z.ltb_ge in Em; lia | apply negb_false_iff, IsZero_eq in Em; done | apply Z.ltb_ge in Em; unfold TSub in *; lia].
  - destruct (Hb1 eq_refl) as [-> ->]. cbn [orb andb negb]. destruct (rrsigEval.broken dnskey), (rrsigEval.expired dnskey); cbn; naive_solver.
  - destruct (Hb2 eq_refl) as [-> ->]. rewrite !orb_false_r. cbn [orb andb negb]. destruct (rrsigEval.broken soa), (rrsigEval.expired soa); cbn; naive_solver.
  - destruct (rrsigEval.broken soa || rrsigEval.broken dnskey), (rrsigEval.expired soa || rrsigEval.expired dnskey); cbn; naive_solver.
Qed.

Lemma checkRRSIGPresent_run refresh domain ksks zsks now n : exists r n' o,
  checkRRSIGPresent refresh domain ksks zsks now n = (Ok r, n') /\ (n <= n')%nat /\
  seen n n' (Fqdn domain) TypeSOA (fst <$> o) /\ seen n n' (Fqdn domain) TypeDNSKEY (snd <$> o) /\
  match o with
  | Some (soaMsg, dnskeyMsg) => r = judge_signatures refresh now
      (evalRRSIGCover (Msg.Answer soaMsg) TypeSOA (role_keys zsks dnskeyMsg) now)
      (evalRRSIGCover (Msg.Answer dnskeyMsg) TypeDNSKEY (role_keys ksks dnskeyMsg) now)
  | None => RRSIGCheckResult.Status r = "error" /\ RRSIGCheckResult.Broken r = false
  end.
Proof.
  unfold checkRRSIGPresent. cbv zeta. rewrite bind_catch. pose proof (resolveNS_grows (Fqdn domain) n) as Hn.
  destruct (resolveNS (Fqdn domain) n) as [[ns|err] n1]; cbn [fst snd] in *; [|by eexists _, _, None].
  rewrite bind_catch. pose proof (queryDirect_grows ns (Fqdn domain) TypeSOA n1) as Hq.
  destruct (queryDirect ns (Fqdn domain) TypeSOA n1) as [[soaMsg|err] n2] eqn:Eq; cbn [fst snd] in *; [|eexists _, _, None; split_and!; [done | lia | done..]].
  apply queryDirect_seen in Eq as [? Hs]. rewrite bind_catch. pose proof (queryDirect_grows ns (Fqdn domain) TypeDNSKEY n2) as Hq2.
  destruct (queryDirect ns (Fqdn domain) TypeDNSKEY n2) as [[dnskeyMsg|err] n3] eqn:Eq2; cbn [fst snd] in *; [|eexists _, _, None; split_and!; [done | lia | done..]].
  apply queryDirect_seen in Eq2 as [? Hs2]. eexists _, _, (Some (soaMsg, dnskeyMsg)).
  split_and!; [done | lia | eapply seen_within; [exact Hs | lia | lia] | eapply seen_within; [exact Hs2 | lia | lia] | done].
Qed.

(** The serial of the first SOA record of an answer. *)
Definition answered_serial (msg : Msg.t) : option Z := head (omap get_serial (Msg.Answer msg)).
Lemma checkSOASerial_run domain localSerial n : exists r n' o,
  checkSOASerial domain localSerial n = (Ok r, n') /\ (n <= n')%nat /\ seen n n' (Fqdn domain) TypeSOA o /\
  SOACheckResult.Status r = match o ≫= answered_serial with
                            | Some serial => if serial =? localSerial then "pass" else "fail"
                            | None => "error"
                            end.
Proof.
  unfold checkSOASerial. cbv zeta. rewrite bind_catch. pose proof (resolveNS_grows (Fqdn domain) n) as Hn.
  destruct (resolveNS (Fqdn domain) n) as [[ns|err] n1]; cbn [fst snd] in *; [|by eexists _, _, None].
  rewrite bind_catch. pose proof (queryDirect_grows ns (Fqdn domain) TypeSOA n1) as Hq.
  destruct (queryDirect ns (Fqdn domain) TypeSOA n1) as [[msg|err] n2] eqn:Eq; cbn [fst snd] in *; [|eexists _, _, None; split_and!; [done | lia | done..]].
  apply queryDirect_seen in Eq as [? Hs]. eexists _, _, (Some msg). split_and!; [done | lia | by eapply seen_within|].
  cbn [mbind option_bind]. unfold answered_serial. destruct (omap get_serial (Msg.Answer msg)) as [|serial l]; [done|]. cbn. by destruct (serial =? localSerial).
Qed.

(** *** The verdict *)

Lemma computeOverall_pass statuses : computeOverall statuses = "pass" <-> Forall (fun s => s = "pass") statuses.
Proof.
  unfold computeOverall, count_status. rewrite <- (Forall_iff (fun s => String.eqb "pass" s = true)); [|intros s; rewrite String.eqb_eq; split; congruence].
  rewrite <- count_if_all. destruct (Nat.eqb_spec (count_if (String.eqb "pass") statuses) (length statuses)) as [E|E]; [done|].
  split; [|done]. destruct (Nat.eqb (count_if (String.eqb "error") statuses) (length statuses)); [done|].
  destruct (Nat.eqb (count_if (String.eqb "fail") statuses) (length statuses)); [done|]. by destruct (_ && _ && _).
Qed.

(** What the servers answered to the four checks of a zone. *)
Record evidence := mkEvidence { ds_answer : option Msg.t; dnskey_answer : option Msg.t; signed_answers : option (Msg.t * Msg.t); soa_answer : option Msg.t }.
Definition gathered (lo hi : nat) (domain : string) (ev : evidence) : Prop :=
  seen lo hi (Fqdn domain) TypeDS (ds_answer ev) /\ seen lo hi (Fqdn domain) TypeDNSKEY (dnskey_answer ev) /\
  seen lo hi (Fqdn domain) TypeSOA (fst <$> signed_answers ev) /\ seen lo hi (Fqdn domain) TypeDNSKEY (snd <$> signed_answers ev) /\
  seen lo hi (Fqdn domain) TypeSOA (soa_answer ev).
Definition ds_records (msg : Msg.t) : list DS.t := omap get_ds (Msg.Answer msg).

Section verdict.
Context (refresh : Duration) (z : ZoneState.t) (k : LocalKeys.t) (now : Time) (ev : evidence).

(** The serial the world should see. *)
Definition expected_serial : Z := if negb (ZoneState.PublishedSerial z =? 0) then ZoneState.PublishedSerial z else ZoneState.Serial z.
(** Both RRsets carry a signature that verifies under the keys of their role. *)
Definition both_signed (soaMsg dnskeyMsg : Msg.t) : Prop :=
  (exists s, signed soaMsg TypeSOA (role_keys (LocalKeys.signingZSKs k) dnskeyMsg) now s) /\
  (exists d, signed dnskeyMsg TypeDNSKEY (role_keys (LocalKeys.signingKSKs k) dnskeyMsg) now d).

(** Everything a validating resolver needs was seen. *)
Definition proven_good : Prop := exists ds keys soaMsg dnskeyMsg soa s d,
  ds_answer ev = Some ds /\ dnskey_answer ev = Some keys /\ signed_answers ev = Some (soaMsg, dnskeyMsg) /\ soa_answer ev = Some soa /\
  (ds_matching (ds_records ds) (LocalKeys.signingKSKs k) \/
     ds_records ds <> [] /\ no_local_ds (LocalKeys.signingKSKs k) /\ LocalKeys.kskUnloadable k = false) /\
  publishes keys (LocalKeys.ksk k) (LocalKeys.kskTag k) /\ publishes keys (LocalKeys.zsk k) (LocalKeys.zskTag k) /\
  signed soaMsg TypeSOA (role_keys (LocalKeys.signingZSKs k) dnskeyMsg) now s /\ left_after refresh now s /\
  signed dnskeyMsg TypeDNSKEY (role_keys (LocalKeys.signingKSKs k) dnskeyMsg) now d /\ left_after refresh now d /\
  answered_serial soa = Some expected_serial.

(** The parent holds a DS, and what was seen of the zone cannot validate under it. *)
Definition proven_bogus : Prop := exists ds, ds_answer ev = Some ds /\ ds_records ds <> [] /\
  ( ~ no_local_ds (LocalKeys.signingKSKs k) /\ ~ ds_matching (ds_records ds) (LocalKeys.signingKSKs k) \/
    (exists keys, dnskey_answer ev = Some keys /\ ~ publishes keys (LocalKeys.ksk k) (LocalKeys.kskTag k) /\ ~ publishes keys (LocalKeys.zsk k) (LocalKeys.zskTag k)) \/
    (exists soaMsg dnskeyMsg, signed_answers ev = Some (soaMsg, dnskeyMsg) /\ ~ both_signed soaMsg dnskeyMsg)).

(** No server of the zone could be asked, but the resolver answers the last exchange. *)
Definition unserved (n' : nat) : Prop :=
  dnskey_answer ev = None /\ signed_answers ev = None /\ soa_answer ev ≫= answered_serial = None /\
  exists m r, n' = S m /\ Exchange m false resolverAddr (QueryMsg.mk (Question.mk "." TypeNS 1) true false false) = Ok r.
End verdict.

Lemma bogusWhenDSPresent_spec ds dnskey rrsig :
  bogusWhenDSPresent ds dnskey rrsig = true <->
  DSCheckResult.Found ds = true /\ (DSCheckResult.Status ds = "fail" /\ DSCheckResult.MatchesKSK ds = false \/
    DNSKEYCheckResult.Status dnskey = "fail" \/ RRSIGCheckResult.Status rrsig = "fail" \/ RRSIGCheckResult.Broken rrsig = true).
Proof.
  unfold bogusWhenDSPresent. destruct (DSCheckResult.Found ds); cbn [negb]; [|naive_solver].
  destruct (String.eqb_spec (DSCheckResult.Status ds) "fail"), (DSCheckResult.MatchesKSK ds); cbn [negb andb]; [| naive_solver | |];
    (destruct (String.eqb_spec (DNSKEYCheckResult.Status dnskey) "fail"); [naive_solver|]; rewrite orb_true_iff, String.eqb_eq; naive_solver).
Qed.

Section checks_of.
Context (refresh : Duration) (z : ZoneState.t) (k : LocalKeys.t) (now : Time) (ev : evidence).
Context (ds : DSCheckResult.t) (dnskey : DNSKEYCheckResult.t) (rrsig : RRSIGCheckResult.t) (soa : SOACheckResult.t).
Context (ds_of_ev : match ds_answer ev with
  | Some msg => exists r0, DSCheckResult.MatchesKSK r0 = false /\ ds = evaluateDSMatch r0 (ds_records msg) (LocalKeys.signingKSKs k) (LocalKeys.kskUnloadable k)
  | None => DSCheckResult.Status ds = "error" /\ DSCheckResult.Found ds = false end).
Context (dnskey_of_ev : match dnskey_answer ev with
  | Some msg => exists r0, dnskey = judge_served r0 (LocalKeys.kskTag k) (LocalKeys.zskTag k) (LocalKeys.ksk k) (LocalKeys.zsk k) (omap get_dnskey (Msg.Answer msg))
  | None => DNSKEYCheckResult.Status dnskey = "error" end).
Context (rrsig_of_ev : match signed_answers ev with
  | Some (soaMsg, dnskeyMsg) => rrsig = judge_signatures refresh now
      (evalRRSIGCover (Msg.Answer soaMsg) TypeSOA (role_keys (LocalKeys.signingZSKs k) dnskeyMsg) now)
      (evalRRSIGCover (Msg.Answer dnskeyMsg) TypeDNSKEY (role_keys (LocalKeys.signingKSKs k) dnskeyMsg) now)
  | None => RRSIGCheckResult.Status rrsig = "error" /\ RRSIGCheckResult.Broken rrsig = false end).
Context (soa_of_ev : SOACheckResult.Status soa = match soa_answer ev ≫= answered_serial with
  | Some serial => if serial =? expected_serial z then "pass" else "fail" | None => "error" end).

Lemma bogus_of_ev : bogusWhenDSPresent ds dnskey rrsig = true <-> proven_bogus k now ev.
Proof.
  rewrite bogusWhenDSPresent_spec. unfold proven_bogus.
  destruct (ds_answer ev) as [dmsg|] eqn:Ed; [|destruct ds_of_ev as [_ Hf]; rewrite Hf; naive_solver].
  destruct ds_of_ev as (r0 & Hm & Hds).
  destruct (evaluateDSMatch_spec r0 (ds_records dmsg) (LocalKeys.signingKSKs k) (LocalKeys.kskUnloadable k) Hm) as (Hf & _ & Hfail & Hmp).
  rewrite <- Hds in Hf, Hfail, Hmp.
  assert (Hdn : DNSKEYCheckResult.Status dnskey = "fail" <->
    exists keys, dnskey_answer ev = Some keys /\ ~ publishes keys (LocalKeys.ksk k) (LocalKeys.kskTag k) /\ ~ publishes keys (LocalKeys.zsk k) (LocalKeys.zskTag k)).
  { destruct (dnskey_answer ev) as [kmsg|]; [|rewrite dnskey_of_ev; naive_solver]. destruct dnskey_of_ev as (r1 & ->).
    destruct (judge_served_spec r1 (LocalKeys.kskTag k) (LocalKeys.zskTag k) (LocalKeys.ksk k) (LocalKeys.zsk k) kmsg) as (_ & Hk & _). rewrite Hk. naive_solver. }
  assert (Hrs : RRSIGCheckResult.Status rrsig = "fail" \/ RRSIGCheckResult.Broken rrsig = true <->
    exists soaMsg dnskeyMsg, signed_answers ev = Some (soaMsg, dnskeyMsg) /\ ~ both_signed k now soaMsg dnskeyMsg).
  { destruct (signed_answers ev) as [[smsg kmsg]|]; [|destruct rrsig_of_ev as [-> ->]; naive_solver].
    destruct (judge_signatures_spec refresh now smsg kmsg (role_keys (LocalKeys.signingZSKs k) kmsg) (role_keys (LocalKeys.signingKSKs k) kmsg)) as (_ & Hb & _).
    rewrite <- rrsig_of_ev in Hb. rewrite Hb. unfold both_signed. naive_solver. }
  rewrite Hdn, Hrs, Hf. split.
  - intros (Hne & Hor). exists dmsg. split_and!; [done | done|]. destruct Hor as [[Hst _]|Hor]; [left | by right]. apply Hfail; [by apply Hf | done].
  - intros (? & [= <-] & Hne & Hor). split; [done|]. destruct Hor as [Hd|Hor]; [left | by right].
    apply Hfail in Hd; [|by apply Hf]. split; [done|]. destruct (DSCheckResult.MatchesKSK ds); [|done]. specialize (Hmp eq_refl). congruence.
Qed.

Lemma all_errors_of_ev : all_errors dnskey rrsig soa = true <-> dnskey_answer ev = None /\ signed_answers ev = None /\ soa_answer ev ≫= answered_serial = None.
Proof.
  unfold all_errors. rewrite !andb_true_iff, !String.eqb_eq, soa_of_ev.
  assert (Hdn : DNSKEYCheckResult.Status dnskey = "error" <-> dnskey_answer ev = None).
  { destruct (dnskey_answer ev) as [kmsg|]; [|done]. destruct dnskey_of_ev as (r1 & ->).
    destruct (judge_served_spec r1 (LocalKeys.kskTag k) (LocalKeys.zskTag k) (LocalKeys.ksk k) (LocalKeys.zsk k) kmsg) as (_ & _ & Hk). naive_solver. }
  assert (Hrs : RRSIGCheckResult.Status rrsig = "error" <-> signed_answers ev = None).
  { destruct (signed_answers ev) as [[smsg kmsg]|]; [|naive_solver].
    destruct (judge_signatures_spec refresh now smsg kmsg (role_keys (LocalKeys.signingZSKs k) kmsg) (role_keys (LocalKeys.signingKSKs k) kmsg)) as (_ & _ & Hb).
    rewrite <- rrsig_of_ev in Hb. naive_solver. }
  rewrite Hdn, Hrs. destruct (soa_answer ev ≫= answered_serial) as [serial|]; [destruct (serial =? expected_serial z)|]; naive_solver.
Qed.

Lemma pass_of_ev :
  computeOverall [DSCheckResult.Status ds; DNSKEYCheckResult.Status dnskey; RRSIGCheckResult.Status rrsig; SOACheckResult.Status soa] = "pass" ->
  proven_good refresh z k now ev.
Proof.
  rewrite computeOverall_pass, !Forall_cons. intros (Pd & Pk & Pr & Ps & _). unfold proven_good.
  destruct (ds_answer ev) as [dmsg|]; [|destruct ds_of_ev; congruence]. destruct ds_of_ev as (r0 & Hm & Hds).
  destruct (evaluateDSMatch_spec r0 (ds_records dmsg) (LocalKeys.signingKSKs k) (LocalKeys.kskUnloadable k) Hm) as (_ & Hp & _).
  rewrite <- Hds in Hp. apply Hp in Pd as [Hne Hd].
  destruct (dnskey_answer ev) as [kmsg|]; [|congruence]. destruct dnskey_of_ev as (r1 & Hk).
  destruct (judge_served_spec r1 (LocalKeys.kskTag k) (LocalKeys.zskTag k) (LocalKeys.ksk k) (LocalKeys.zsk k) kmsg) as (Hpk & _). rewrite <- Hk in Hpk.
  apply Hpk in Pk as [? ?]. destruct (signed_answers ev) as [[smsg dmsg2]|]; [|destruct rrsig_of_ev; congruence].
  destruct (judge_signatures_spec refresh now smsg dmsg2 (role_keys (LocalKeys.signingZSKs k) dmsg2) (role_keys (LocalKeys.signingKSKs k) dmsg2)) as (Hpr & _).
  rewrite <- rrsig_of_ev in Hpr. destruct (Hpr Pr) as (s & d & ? & ? & ? & ?).
  rewrite soa_of_ev in Ps. destruct (soa_answer ev) as [somsg|]; [|done]. cbn in Ps.
  destruct (answered_serial somsg) as [serial|] eqn:Es; [|done]. destruct (Z.eqb_spec serial (expected_serial z)) as [->|]; [|done].
  exists dmsg, kmsg, smsg, dmsg2, somsg, s, d. split_and!; try done. destruct Hd as [?|[? ?]]; [by left | by right].
Qed.
End checks_of.

End zone.

(** ** Every zone *)

Section zones.
Context `{DnsLib} `{Transport} `{WireLib} `{SignLib} `{DsLib} `{OS} `{CryptoLib}.

(** Reads the files, writes nothing and does not fail. *)
Definition only_reads {A} (m : FS A) : Prop := observes m (fun _ r => is_ok r = true).
Lemma only_reads_ret {A} (a : A) : only_reads (ret a).
Proof. by apply observes_ret. Qed.
Lemma only_reads_bind {A B} (m : FS A) (k : A -> FS B) : only_reads m -> (forall a, only_reads (k a)) -> only_reads (bind m k).
Proof. intros Hm Hk. eapply observes_bind; [exact Hm | done|]. intros a. eapply observes_mono; [apply Hk | done]. Qed.
Lemma only_reads_or_none {A} (m : FS A) P : observes m P -> only_reads (or_none m).
Proof.
  intros Hm. apply only_reads_bind; [|intros; apply only_reads_ret]. apply observes_catch. eapply observes_mono; [exact Hm | done].
Qed.
Lemma observes_wrapf_any {A} format args (m : FS A) P : observes m P -> observes (wrapf format args m) (fun _ _ => True).
Proof. intros Hm. apply observes_wrapf. by eapply observes_mono. Qed.
Lemma observes_then {A B} (m : FS A) (k : A -> FS B) P :
  observes m P -> (forall a, observes (k a) (fun _ _ => True)) -> observes (bind m k) (fun _ _ => True).
Proof. intros Hm Hk. eapply (observes_bind _ _ (fun _ _ => True)); [by eapply observes_mono | done|]. intros a. by eapply observes_mono. Qed.
Lemma observes_of_res {A} (r : res string A) : observes (of_res r) (fun _ _ => True).
Proof. eapply observes_mono; [apply of_res_observes | done]. Qed.

Lemma LoadPublicKey_reads cfg domain keyType : observes (KeyFiles.LoadPublicKey cfg domain keyType) (fun _ _ => True).
Proof.
  unfold KeyFiles.LoadPublicKey. eapply observes_then; [apply loadPublicKey_sees|]. intros k.
  eapply observes_then; [eapply observes_wrapf_any, observes_of_res|]. intros _. by apply observes_ret.
Qed.
Lemma LoadPublicKeyByID_reads cfg domain keyType tag : observes (KeyFiles.LoadPublicKeyByID cfg domain keyType tag) (fun _ _ => True).
Proof.
  unfold KeyFiles.LoadPublicKeyByID. eapply observes_then; [apply loadPublicKey_sees|]. intros k.
  do 2 (eapply observes_then; [eapply observes_wrapf_any, observes_of_res|]; intros _). by apply observes_ret.
Qed.
Lemma local_keys_reads cfg domain z : only_reads (local_keys cfg domain z).
Proof.
  assert (Hlive : forall keyType recorded, only_reads (load_live cfg domain keyType recorded)).
  { intros keyType recorded. unfold load_live. destruct recorded; [eapply only_reads_or_none, LoadPublicKey_reads | apply only_reads_ret]. }
  assert (Hold : forall (c : bool) keyType tag, only_reads (if c then or_none (KeyFiles.LoadPublicKeyByID cfg domain keyType tag) else ret None)).
  { intros c keyType tag. destruct c; [eapply only_reads_or_none, LoadPublicKeyByID_reads | apply only_reads_ret]. }
  unfold local_keys. apply only_reads_bind; [done|]. intros ksk. apply only_reads_bind; [done|]. intros zsk. cbv zeta.
  apply only_reads_bind; [done|]. intros oldKSK. apply only_reads_bind; [done|]. intros oldZSK. apply only_reads_ret.
Qed.

Definition verdicts : list string := ["pass"; "fail"; "partial"; "error"].
Lemma computeOverall_verdict statuses : computeOverall statuses ∈ verdicts.
Proof. unfold computeOverall, verdicts. repeat case_match; set_solver. Qed.
Lemma validate_zone_returns refresh domain z k now n : exists r n',
  validate_zone refresh domain z k now n = (Ok r, n') /\ ZoneValidation.Domain r = domain /\ ZoneValidation.Overall r ∈ verdicts.
Proof.
  unfold validate_zone, bind. cbv zeta. fold (expected_serial z).
  destruct (CheckDSAtParent_run domain (LocalKeys.signingKSKs k) (LocalKeys.kskUnloadable k) n) as (ds & n1 & _ & -> & _).
  destruct (checkDNSKEYVisible_run domain (LocalKeys.kskTag k) (LocalKeys.zskTag k) (LocalKeys.ksk k) (LocalKeys.zsk k) n1) as (dk & n2 & _ & -> & _).
  destruct (checkRRSIGPresent_run refresh domain (LocalKeys.signingKSKs k) (LocalKeys.signingZSKs k) now n2) as (rs & n3 & _ & -> & _).
  destruct (checkSOASerial_run domain (expected_serial z) n3) as (so & n4 & _ & -> & _).
  set (overall := computeOverall _). assert (Hov : overall ∈ verdicts) by apply computeOverall_verdict. clearbody overall.
  destruct (all_errors dk rs so).
  - unfold resolverReachable. rewrite bind_catch. cbn. eexists _, _. split; [reflexivity|].
    destruct (is_ok _), (bogusWhenDSPresent ds dk rs); cbn; split; try done; unfold verdicts; set_solver.
  - eexists _, _. split; [reflexivity|]. destruct (bogusWhenDSPresent ds dk rs); cbn; split; try done; unfold verdicts; set_solver.
Qed.

(** A computation over the network that returns a result for each domain. *)
Definition reports (m : Net (list ZoneValidation.t)) (domains : list string) : Prop := forall n, exists rs n',
  m n = (Ok rs, n') /\ map ZoneValidation.Domain rs = domains /\ Forall (fun r => ZoneValidation.Overall r ∈ verdicts) rs.
Lemma validate_each_returns cfg state now domains d : exists net d',
  validate_each cfg state now domains d = (Ok net, d') /\ Disk.nodes d' = Disk.nodes d /\ Disk.past d' = Disk.past d /\ reports net domains.
Proof.
  revert d. induction domains as [|domain l IH]; intros d; cbn [validate_each].
  { exists (ret []), d. split_and!; [done..|]. intros n. by exists [], n. }
  assert (Hone : exists one d1, ValidateZone cfg domain (StateStore.GetZoneCopy domain state) (now domain) d = (Ok one, d1) /\
    Disk.nodes d1 = Disk.nodes d /\ Disk.past d1 = Disk.past d /\
    forall n, exists r n', one n = (Ok r, n') /\ ZoneValidation.Domain r = domain /\ ZoneValidation.Overall r ∈ verdicts).
  { unfold ValidateZone. destruct (StateStore.GetZoneCopy domain state) as [z|].
    - pose proof (local_keys_reads cfg domain z d) as Hk. unfold bind. destruct (local_keys cfg domain z d) as [[k|e] d1]; [|by destruct Hk as (_ & _ & _ & ?)].
      destruct Hk as (? & ? & _ & _). eexists _, d1. split_and!; [reflexivity | done | done|]. intros n. apply validate_zone_returns.
    - eexists _, d. split_and!; [reflexivity | done | done|]. intros n. eexists _, n. split_and!; [reflexivity | done | unfold verdicts; cbn; set_solver]. }
  destruct Hone as (one & d1 & E1 & Hn1 & Hp1 & Hr1). destruct (IH d1) as (more & d2 & E2 & Hn2 & Hp2 & Hr2).
  unfold bind. rewrite E1, E2. eexists _, d2. split_and!; [reflexivity | congruence | congruence|].
  intros n. destruct (Hr1 n) as (r & n1 & -> & Hd & Ho). destruct (Hr2 n1) as (rs & n2 & -> & Hds & Hos).
  eexists _, n2. split_and!; [reflexivity | cbn; by rewrite Hd, Hds | by constructor].
Qed.

Definition count_overall (verdict : string) (rs : list ZoneValidation.t) : Z :=
  Z.of_nat (count_if (fun r => String.eqb (ZoneValidation.Overall r) verdict) rs).
Lemma summarize_all rs s :
  Forall (fun r => ZoneValidation.Overall r ∈ verdicts) rs ->
  fold_left (fun s r => summarize s (ZoneValidation.Overall r)) rs s =
  ValidateSummary.mk (ValidateSummary.Total s + Z.of_nat (length rs)) (ValidateSummary.Pass s + count_overall "pass" rs)
    (ValidateSummary.Fail s + count_overall "fail" rs) (ValidateSummary.Partial s + count_overall "partial" rs) (ValidateSummary.Error s + count_overall "error" rs).
Proof.
  revert s. induction rs as [|r rs IH]; intros s Hall; unfold count_overall, count_if in *.
  { destruct s. cbn. by rewrite !Z.add_0_r. }
  apply Forall_cons in Hall as [Hv Hall]. cbn [fold_left List.filter length]. rewrite IH by done.
  destruct s. unfold verdicts in Hv. rewrite !elem_of_cons, elem_of_nil in Hv.
  destruct Hv as [E|[E|[E|[E|[]]]]]; rewrite E; cbn -[Z.of_nat Z.add]; f_equal; lia.
Qed.
Lemma verdict_counts rs : Forall (fun r => ZoneValidation.Overall r ∈ verdicts) rs ->
  count_overall "pass" rs + count_overall "fail" rs + count_overall "partial" rs + count_overall "error" rs = Z.of_nat (length rs).
Proof.
  unfold count_overall, count_if. induction rs as [|r rs IH]; intros Hall; [done|]. apply Forall_cons in Hall as [Hv Hall]. specialize (IH Hall).
  unfold verdicts in Hv. rewrite !elem_of_cons, elem_of_nil in Hv. cbn [List.filter length].
  destruct Hv as [E|[E|[E|[E|[]]]]]; rewrite E; cbn -[Z.of_nat Z.add]; lia.
Qed.

(** A validation of all zones always returns, whatever the key files hold and the
    network does, and writes nothing: one result per zone in the order asked, each of
    one of the four verdicts, and a summary whose counters are the numbers of zones of
    each verdict and add up to its total. *)
Theorem validation_reports_every_zone cfg state now domains d : exists net d',
  ValidateAll cfg state now domains d = (Ok net, d') /\ Disk.nodes d' = Disk.nodes d /\ Disk.past d' = Disk.past d /\
  forall n, exists rs s n', net n = (Ok (rs, s), n') /\ map ZoneValidation.Domain rs = domains /\
    Forall (fun r => ZoneValidation.Overall r ∈ verdicts) rs /\
    s = ValidateSummary.mk (Z.of_nat (length domains)) (count_overall "pass" rs) (count_overall "fail" rs) (count_overall "partial" rs) (count_overall "error" rs) /\
    ValidateSummary.Pass s + ValidateSummary.Fail s + ValidateSummary.Partial s + ValidateSummary.Error s = ValidateSummary.Total s.
Proof.
  unfold ValidateAll, bind. destruct (validate_each_returns cfg state now domains d) as (net & d' & -> & Hn & Hp & Hr).
  eexists _, d'. split_and!; [reflexivity | done | done|]. intros n. destruct (Hr n) as (rs & n' & -> & Hd & Hv).
  eexists rs, _, n'. split; [reflexivity|]. rewrite summarize_all by done. cbn -[Z.of_nat Z.add]. rewrite !Z.add_0_l, <- Hd, length_map.
  split_and!; [done | done | done | by apply verdict_counts].
Qed.
End zones.

(** ** The rollover's parent probe

    daemon.go gives the rollover manager the validator as its parent-DS probe. *)

(** The key as the probe is given it. *)
Definition wire_key (key : KeyOps.DNSKEY) : DNSKEY.t :=
  DNSKEY.mk (Hdr.mk (Owner key) TypeDNSKEY 1 0) (Flags key) (Protocol key) (KeyAlgorithm key) (PublicKey key).
Definition validator_seams `{DnsLib} `{Transport} `{WireLib} `{SignLib} `{DsLib} (publishes_ds : bool) (publish : string -> string -> nat -> pub_reply * nat) : Seams nat := {|
  has_probe := true;
  has_publisher := publishes_ds;
  Rollover.ProbeParentDS domain key n :=
    match ParentProbe.ProbeParentDS domain [Some (wire_key key)] n with
    | (Ok obs, n') =>
        (Ok (mkObs (fun tag => default false (Observation.AbsentOnAll obs !! tag)) (fun tag => default false (Observation.PresentOnAll obs !! tag)) (Observation.TTL obs)), n')
    | (Err err, n') => (Err (NetError.Text err), n')
    end;
  PublishDS_ext := publish
|}.

Section retirement.
Context {F : Type} `{KeyStoreLaws F} `{DnsLib} `{Transport} `{WireLib} `{SignLib} `{DsLib}.
Context (publishes_ds : bool) (publish : string -> string -> nat -> pub_reply * nat) (cfg : Config) (domain : string).
#[local] Instance seams : Seams nat := validator_seams publishes_ds publish.

Lemma absent_tag ksk n obs n' tag :
  ParentProbe.ProbeParentDS domain [Some ksk] n = (Ok obs, n') -> Observation.AbsentOnAll obs !! tag = Some true -> tag = KeyTagOf ksk.
Proof.
  intros Hrun Habs. apply bind_ok in Hrun as (targets & n1 & _ & Hrun). cbv zeta in Hrun. apply bind_ok in Hrun as (probed & n2 & _ & Hrun).
  destruct probed as [[answers skipped]|e]; [|done]. injection Hrun as <- _. cbn in Habs. rewrite map_lookup_imap in Habs.
  apply bind_Some in Habs as (alg & Ha & _). unfold algorithm_of in Ha. cbn in Ha. by apply lookup_insert_Some in Ha as [[? _]|[_ ?]].
Qed.

(** C10: In any life of a zone, when an operation of the manager leaves an algorithm
    rollover retiring its old keys, the old KSK had left the parent: a probe for the key
    the key directory holds under the old tag had authoritative answers from every
    nameserver of the parent, and none of them held a DS record that would still select
    that key. *)
Theorem retiring_key_has_left_the_parent z0 hist op (w : RWorld F nat) result w' z z' r' :
  int64_min < cfg_RolloverSwitch (DNSSEC cfg) ->
  ZoneState.Rollover z0 = None -> Reachable cfg (fun _ => True) True domain z0 (z, hist) -> op_ok (fun _ => True) op ->
  StateStore.GetZone domain (StateStore.mem (store w)) = Some z -> run_op cfg domain op w = (result, w') ->
  StateStore.GetZone domain (StateStore.mem (store w')) = Some z' -> ZoneState.Rollover z' = Some r' ->
  RolloverState.RType r' = "algorithm" -> RolloverState.RState r' = AlgoRolloverStateRetiring ->
  exists f oldKSK f' n n' targets answers skipped,
    KeyOps.LoadPublicKeyByID KSKRole domain (RolloverState.OldKeyID r') f = (Ok oldKSK, f') /\ KeyTagOf (wire_key oldKSK) = RolloverState.OldKeyID r' /\
    delegation resolverQuery n n' (Fqdn (findParentZone domain)) targets /\ full_view n n' (Fqdn domain) TypeDS targets answers skipped /\
    forall a ds, a ∈ answers -> ds ∈ ds_held domain a -> ~ ds_selects (wire_key oldKSK) ds.
Proof.
  intros Hsw Hz0 Hl Hop Hz Hrun Hz' Hr' Hty Hst.
  destruct (run_op_steps cfg domain (fun _ => True) True op w result w' z) as (z2 & log & Hz2 & _ & _ & Hs & _); try done.
  rewrite Hz' in Hz2. injection Hz2 as <-.
  pose proof (Reachable_timeline cfg (fun _ => True) True domain z0 (z', hist) Hsw Hz0) as Htl.
  destruct (Htl ltac:(by eapply Reachable_rsteps) r' Hr') as [E Es|E Es|E Es|E Es|E Es|E Es|E Es|E Es|E Es Habs _ _]; rewrite Hty in E; try discriminate E;
    rewrite Hst in Es; try discriminate Es.
  destruct Habs as (f & oldKSK & f' & n & obs & n' & Hload & Hp & Habs). cbn in Hp.
  destruct (ParentProbe.ProbeParentDS domain [Some (wire_key oldKSK)] n) as [[o|e] n2] eqn:Ep; [|done]. injection Hp as <- <-. cbn in Habs.
  destruct (Observation.AbsentOnAll o !! RolloverState.OldKeyID r') as [b|] eqn:Ea; [|done]. cbn in Habs. subst b.
  pose proof (absent_tag _ _ _ _ _ Ep Ea) as Htag.
  destruct (parent_view domain [Some (wire_key oldKSK)] n o n2 Ep) as (targets & answers & Hd & Hv & _ & _ & Hk); [apply NoDup_singleton|].
  exists f, oldKSK, f', n, n2, targets, answers, (Observation.Skipped o). split_and!; [done | done | done | done|].
  destruct (Hk (wire_key oldKSK) ltac:(set_solver)) as [_ Hk']. apply Hk'. by rewrite <- Htag.
Qed.
End retirement.

(** ** A small world

    One server holds the zone and its parent; its IPv6 address has no route from here,
    and its DS answer needs TCP. *)

Definition probe_ksk : DNSKEY.t := sample_dnskey 257 1.
Definition probe_zsk : DNSKEY.t := sample_dnskey 256 2.
Definition toy_digest (key : DNSKEY.t) : string := "digest of " +:+ DNSKEY.PublicKey key.
#[local] Instance toy_ds : DsLib := {
  ToDS key digest := if digest =? SHA256 then Some (DS.mk (Hdr.mk (Hdr.Name (DNSKEY.Hdr key)) TypeDS 1 0) (KeyTagOf key) (DNSKEY.Algorithm key) digest (toy_digest key)) else None
}.
Definition toy_rrsig (covered tag : Z) (public : list Z) (rrset : list RR) : RR :=
  RR_RRSIG (RRSIG.mk (Hdr.mk "example." TypeRRSIG 1 300) covered ED25519 1 300 1700002000 1699990000 tag "example." (toy_signature public rrset)).
Definition soa_rrset : list RR := [RR_SOA (Hdr.mk "example." TypeSOA 1 300) "ns.example." "admin.example." [2024; 3600; 900; 86400; 300]].
Definition key_rrset : list RR := [RR_DNSKEY probe_ksk; RR_DNSKEY probe_zsk].
Definition ds_rrset : list RR := [RR_DS (DS.mk (Hdr.mk "example." TypeDS 1 600) 254 ED25519 SHA256 (ToUpper (toy_digest probe_ksk)))].
Definition served_records (qtype : Z) : list RR :=
  if qtype =? TypeSOA then soa_rrset ++ [toy_rrsig TypeSOA 253 (toy_public (repeat 2 32)) soa_rrset]
  else if qtype =? TypeDNSKEY then key_rrset ++ [toy_rrsig TypeDNSKEY 254 (toy_public (repeat 1 32)) key_rrset]
  else if qtype =? TypeDS then ds_rrset else [].
Definition ns_addresses : list RR :=
  [RR_A (Hdr.mk "ns.example." TypeA 1 3600) [192; 0; 2; 1]; RR_AAAA (Hdr.mk "ns.example." TypeAAAA 1 3600) [32; 1; 13; 184; 0; 0; 0; 0; 0; 0; 0; 0; 0; 0; 0; 1]].
#[local] Instance probe_world : Transport := {
  Exchange n tcp server q :=
    let name := Question.Name (QueryMsg.question q) in
    let qtype := Question.Qtype (QueryMsg.question q) in
    let reply truncated aa answer extra := Ok (Reply.mk [QueryMsg.question q] truncated (Msg.mk RcodeSuccess aa answer [] extra)) in
    if String.eqb server "resolver:53" then reply false false [RR_NS (Hdr.mk name TypeNS 1 3600) "NS.example."] ns_addresses
    else if String.eqb server "192.0.2.1:53" then
      if negb tcp && (qtype =? TypeDS) then reply true true [] [] else reply false true (served_records qtype) []
    else Err (NetError.mk "connect: network is unreachable" false (Some ENETUNREACH));
  TypeToString t := pretty t; RcodeToString r := pretty r; resolverAddr := "resolver:53"; authPort := "53"
}.

Definition probe_keys : list (option DNSKEY.t) := [Some probe_ksk; None; Some probe_zsk].
Definition parent_observed : Observation.t :=
  match ProbeParentDS "example" probe_keys 0%nat with (Ok obs, _) => obs | _ => Observation.mk ∅ ∅ 0 [] [] ∅ [] end.
Example parent_observed_facts :
  Observation.Servers parent_observed = ["192.0.2.1:53"] /\ Observation.Skipped parent_observed = ["[2001:db8::1]:53"] /\
  Observation.PresentOnAll parent_observed !! 254 = Some true /\ Observation.PresentOnAll parent_observed !! 253 = Some false /\
  Observation.AbsentOnAll parent_observed !! 254 = Some false /\ Observation.AbsentOnAll parent_observed !! 253 = Some true.
Proof. vm_compute. done. Qed.


Lemma confirmed_serial_is_served_everywhere_witness : exists targets answers skipped,
  answers <> [] /\ full_view 0%nat 3%nat "example." TypeSOA targets answers skipped /\
  forall a, a ∈ answers -> last (ownerRecords get_serial (answeredServer.msg a) "example.") = Some 2024.
Proof.
  destruct (confirmed_serial_is_served_everywhere "example" 2024 0%nat
    "serial 2024 served by 1 server(s); 1 address(es) skipped, no local route: [2001:db8::1]:53" 3%nat) as (targets & answers & skipped & _ & Hne & Hv & Ha).
  - vm_compute. reflexivity.
  - exists targets, answers, skipped. split; [exact Hne|]. split; [exact Hv | exact Ha].
Defined.

#[local] Existing Instance ZoneState.eta_t.
(** The verdict on the zone through the life of its signatures: good, then due to be
    signed again, then failing. *)
Definition probe_local : LocalKeys.t := LocalKeys.mk 254 253 (Some probe_ksk) (Some probe_zsk) [probe_ksk] [probe_zsk] false.
Definition verdict_at (now : Time) : option (string * bool) :=
  match validate_zone Hour "example" (ZoneState.zero <| ZoneState.PublishedSerial := 2024 |>) probe_local now 0%nat with
  | (Ok r, _) => Some (ZoneValidation.Overall r, ZoneValidation.Servfail r)
  | _ => None
  end.
Example verdicts_over_time :
  verdict_at (unix_time 1699995000) = Some ("pass", false) /\ verdict_at (unix_time 1700000000) = Some ("partial", false) /\
  verdict_at (unix_time 1700002001) = Some ("fail", true).
Proof. vm_compute. done. Qed.

(** *** A life in which the old KSK leaves the parent *)

Import KeyState RolloverState ZoneState.

(** The counting key store of RolloverTheorems tells keys by their flags. *)
#[local] Instance flag_wire : WireLib := { KeyTagOf key := DNSKEY.Flags key }.
#[local] Existing Instance counter_store.
#[local] Instance probe_seams : Seams nat := validator_seams false (fun _ _ n => (mkReply [] (Ok true), n)).
Definition new_key (tag : Z) : KeyState.t := (sample_key tag) <| KeyState.Algorithm := "ECDSAP256SHA256" |>.
Definition roll_begun : RolloverState.t :=
  RolloverState.zero <| RType := "algorithm" |> <| RState := AlgoRolloverStateDSAddWait |>
    <| OldKeyID := 11 |> <| NewKeyID := 33 |> <| OldZSKID := 22 |> <| NewZSKID := 44 |>
    <| OldAlgorithm := KeyState.Algorithm (sample_key 11) |> <| NewAlgorithm := "ECDSAP256SHA256" |> <| Started := 90 * Hour |> <| Action := "" |>.
Definition zone_begun : ZoneState.t :=
  life0 <| Rollover := Some roll_begun |> <| KSK := Some (new_key 33) |> <| ZSK := Some (new_key 44) |> <| ForceResign := true |>.
Definition roll_added : RolloverState.t :=
  roll_begun <| RState := AlgoRolloverStateDSPropagation |> <| DSObservedAt := 100 * Hour |> <| ParentDSTTL := 3600 |> <| PhaseStarted := 100 * Hour |> <| Action := "" |>.
Definition roll_removing : RolloverState.t :=
  roll_added <| RState := AlgoRolloverStateOldDSRemoval |> <| PhaseStarted := 110 * Hour |> <| Action := "" |>.
Definition roll_gone : RolloverState.t :=
  roll_removing <| OldDSRemovedAt := 111 * Hour |> <| ParentDSTTL := 3600 |> <| Action := "" |>.
Definition zone_gone : ZoneState.t := with_roll (with_roll (with_roll zone_begun roll_added) roll_removing) roll_gone.

Lemma old_key_seen_absent : seen_absent "a.example" 11.
Proof. exists 0, (mkDNSKEY "" 11 3 15 ""), 0, 0%nat. eexists _, _. split; [reflexivity|]. split; [vm_compute; reflexivity | vm_compute; reflexivity]. Qed.
Lemma life_gone : Reachable sample_config (fun _ => True) True "a.example" life0 (zone_gone, []).
Proof.
  eapply reach_step; [eapply reach_step; [eapply reach_step; [eapply reach_step; [apply reach_init|]|]|]|]; eapply sys_rollover.
  - refine (rs_start_algorithm sample_config (fun _ => True) True "a.example" (90 * Hour) life0 (sample_key 11) (sample_key 22) (new_key 33) (new_key 44) "ECDSAP256SHA256" "" _ _ _ _ _ _ _ _ _ _);
      first [exact I | reflexivity | discriminate | by eexists].
  - refine (rs_algo_complete sample_config (fun _ => True) True "a.example" (100 * Hour) zone_begun roll_begun (100 * Hour) 3600 "" _ _ _ _); reflexivity || exact I.
  - refine (rs_algo_old_ds sample_config (fun _ => True) True "a.example" (110 * Hour) (with_roll zone_begun roll_added) roll_added "" _ _ _ _); [reflexivity | reflexivity | reflexivity | by_compute].
  - refine (rs_algo_gone sample_config (fun _ => True) True "a.example" (111 * Hour) (with_roll (with_roll zone_begun roll_added) roll_removing) roll_removing 3600 "" _ _ _ _ old_key_seen_absent _);
      [reflexivity | reflexivity | reflexivity | reflexivity | by left].
Qed.

Definition retiring_world : RWorld Z nat :=
  mkRWorld (StateStore.mkWorld (StateStore.mkState {["a.example" := zone_gone]} ∅ true {["a.example" := zone_gone]}) StateStore.FAbsent []) 40 (200 * Hour) [] 0%nat [].
Definition retired_run := run_op sample_config "a.example" OpCheckAlgorithm retiring_world.
Lemma retiring_key_has_left_the_parent_witness : exists f oldKSK f' n n' targets answers skipped,
  KeyOps.LoadPublicKeyByID KSKRole "a.example" 11 f = (Ok oldKSK, f') /\ KeyTagOf (wire_key oldKSK) = 11 /\
  delegation resolverQuery n n' "example." targets /\ full_view n n' "a.example." TypeDS targets answers skipped /\
  forall a ds, a ∈ answers -> ds ∈ ds_held "a.example" a -> ~ ds_selects (wire_key oldKSK) ds.
Proof.
  destruct (StateStore.GetZone "a.example" (StateStore.mem (store retired_run.2))) as [z'|] eqn:Hz; [|vm_compute in Hz; discriminate Hz].
  destruct (ZoneState.Rollover z') as [r'|] eqn:Hr; [|vm_compute in Hz; injection Hz as <-; vm_compute in Hr; discriminate Hr].
  assert (RType r' = "algorithm" /\ RState r' = AlgoRolloverStateRetiring /\ OldKeyID r' = 11) as (Hty & Hst & <-).
  { vm_compute in Hz. injection Hz as <-. vm_compute in Hr. injection Hr as <-. vm_compute. done. }
  refine (retiring_key_has_left_the_parent (H0 := counter_laws) false _ sample_config "a.example" life0 [] OpCheckAlgorithm retiring_world
    retired_run.1 retired_run.2 zone_gone z' r' _ _ life_gone I _ _ Hz Hr Hty Hst).
  - by_compute.
  - reflexivity.
  - vm_compute. reflexivity.
  - apply surjective_pairing.
Defined.
